(* ===== verification/_CoqProject ===== *)
-Q . S2P
Prelude.v
Bits.v
Arithmetic.v
Strings.v
StringSpec.v
StdlibC.v
Stdio.v
StdioSpec.v
Random.v
Ustar.v
UstarSpec.v
Rtc.v
Intq.v
Serial.v
SerialSpec.v
Vga.v
Block.v
BlockSpec.v
Cmdline.v
CmdlineSpec.v
Roles.v
Bitmap.v
Lists.v
ListSpec.v
ListSort.v
Hash.v
HashSpec.v
Palloc.v
Malloc.v
MallocSpec.v
Swap.v
Pagedir.v
PagedirSpec.v
Paging.v
Gdt.v
Intr.v
Timer.v
Ide.v
IdeSpec.v
Console.v
FixedPoint.v
Family.v
Threads.v
Synch.v
SchedInv.v
SchedOps.v
SchedSafe.v
Scheduler.v
SchedTick.v
Inode.v
Filesys.v
FreeMapSpec.v
DirSpec.v
Fsutil.v
FsutilSpec.v
Vm.v
Process.v
ArgSpec.v
Syscall.v
SyscallSpec.v
User.v
UserSpec.v
VmPages.v
VmSpec.v
ElfSpec.v
Exception.v
VmEvict.v
