(* ===== verification/Prelude.v ===== *)
(** * A verification library for the Pintos kernel of this repository

    The program is the teaching kernel under src/src: a priority scheduler with
    semaphores, locks and condition variables, page and block allocators, page tables and
    demand paging with a swap device, a file system on a block device, and the library
    the kernel is written with, on drivers for the disks, the display, the serial port, the
    keyboard and the timer.  The tree src/20171705 is an earlier copy of it.

    ** How code is modelled

    An operation is a function of its state that returns a result and a new state, or a
    failure: a failing ASSERT, a PANIC, an access C gives no meaning to ([res] and [M]
    below).  Machine words are integers with their wrap-around written out ([u32],
    [s32], ...).  Pointers are addresses, and what they point to is in a store of its
    own, so aliasing and dangling pointers are as in the code.  [malloc] and the page
    allocator may fail: clients take the outcome from a script or a flag, or run the
    allocator itself.  A theorem that an operation returns says so ([= Ok ...]).

    ** Files and sources

    - [Bits]: fields of machine words, shared by the descriptors and the timer.
    - [Arithmetic]: 64-bit division (lib/arithmetic.c).
    - [Strings], [StringSpec]: lib/string.c over a byte-addressed memory.
    - [StdlibC]: atoi, heap sort and binary search (lib/stdlib.c).
    - [Stdio], [StdioSpec]: formatted output (lib/stdio.c).
    - [Random]: the random number generator (lib/random.c).
    - [Ustar], [UstarSpec]: headers of tar archives (lib/ustar.c).
    - [Rtc]: the real-time clock (devices/rtc.c).
    - [Intq]: the queue between interrupt handlers and threads (devices/intq.c).
    - [Serial], [SerialSpec]: the serial port, the input buffer and the keyboard
      (devices/serial.c, input.c, kbd.c) over [Intq].
    - [Vga]: the display (devices/vga.c) as a terminal.
    - [Ide], [IdeSpec]: the disk driver (devices/ide.c), one channel over the classes
      [AtaOps] (its registers) and [AtaDevice] (the protocol they keep to).
    - [Console]: the lock around output (lib/kernel/console.c).
    - [Block], [BlockSpec]: the registry of block devices and the partitions
      (devices/block.c, partition.c); [Roles]: which device does what (threads/init.c).
    - [Cmdline], [CmdlineSpec]: the kernel's command line (threads/init.c).
    - [Bitmap]: lib/kernel/bitmap.c.
    - [Lists], [ListSpec], [ListSort]: lib/kernel/list.c at the level of links.
    - [Hash], [HashSpec]: lib/kernel/hash.c; the class [HashClient] is what a client's
      hash and comparison functions promise, and the page tables' functions
      (vm/page.c, vm/frame.c) are an instance.
    - [Palloc]: addresses and the page allocator (threads/vaddr.h, palloc.c).
    - [Malloc], [MallocSpec]: the block allocator (threads/malloc.c) over [Palloc].
    - [Pagedir], [PagedirSpec], [VmPages]: page directories and tables as words of
      memory, with the cached translations (threads/pte.h, userprog/pagedir.c).
    - [Paging]: the kernel's own page tables (threads/init.c) over [Pagedir].
    - [Gdt]: segments and the task state (userprog/gdt.c, tss.c) over [Pagedir].
    - [Intr]: the interrupt table, registration and dispatch (threads/interrupt.c), the
      timer chip (devices/pit.c) and what the other files register.
    - [Timer]: calibration and delays (devices/timer.c) and the speaker
      (devices/speaker.c) over [Intr].
    - [Swap]: swap slots (vm/swap.c) over [Bitmap].
    - [Vm], [VmSpec], [VmEvict]: supplemental page tables and the frame table
      (vm/page.c, frame.c) over page tables, hash tables, swap and files.
    - [Process], [ArgSpec], [ElfSpec]: the program loader and the initial stack
      (userprog/process.c) over [Strings], [Vm] and [Filesys].
    - [Exception]: the page fault handler (userprog/exception.c) over [Vm].
    - [Syscall], [SyscallSpec]: the system call handler and the descriptor table
      (userprog/syscall.c) over [Filesys] and [Bitmap].
    - [User], [UserSpec]: a program's side of the calls, its formatted output and the
      shell's line editor (lib/user, examples/shell.c) over [Syscall].
    - [Family]: how a process and its children interleave in process_execute,
      start_process, process_wait and process_exit (userprog/process.c), as a step
      function on the state both sides share.
    - [FixedPoint]: the fixed-point arithmetic of the scheduler (threads/thread.c).
    - [Threads]: the scheduler's data and its atomic sections, interrupts and the timer
      (threads/thread.c, interrupt.c, devices/timer.c).
    - [Synch]: semaphores, locks, condition variables and the calls that are made of
      several atomic sections (threads/synch.c, thread.c).
    - [SchedInv], [SchedOps], [SchedSafe], [Scheduler], [SchedTick]: the step relation
      that interleaves the threads, its invariant and the theorems on it; the timer
      interrupt ([SchedTick]).
    - [Inode]: the device, inodes, reads and writes (filesys/inode.c).
    - [Filesys]: files, free map, directories and the interface of the file system
      (filesys/file.c, free-map.c, directory.c, filesys.c).
    - [FreeMapSpec], [DirSpec]: the theorems on them.
    - [Fsutil], [FsutilSpec]: the commands on files and archives (filesys/fsutil.c) over
      [Filesys], [Block] and [Ustar].

    ** What the theorems show

    - Threads: under every interleaving the queues agree with the threads' statuses and
      the ready list is sorted; a lock passes only between its holder and nobody; a yield
      runs a thread of the highest priority; a timer interrupt wakes exactly the sleepers
      that are due.  The state the theorems start from is the one start-up reaches.
    - Memory: page and block allocation hand out what was free, never overlap, and give
      back exactly what is released; mapping and unmapping change exactly one page's
      translation; a page that is brought in has the contents its backing store says; a
      page that is swapped out comes back unchanged; which frame the clock picks,
      with frames of several processes, and that it walks off the list of frames when none is found.
    - Processes: the words of a command line arrive on the stack of the new program;
      a segment is entered page by page as its header says, or rejected; a page fault
      brings in the page or grows the stack, or ends the process; descriptors are a
      finite map that open and close change at one point; a program's call arrives in the
      kernel's function with its arguments, and what it prints on the console; a parent gets the status of its
      child at most once, 0 for one the kernel killed, and no interleaving of the two
      touches a freed thread.
    - File system: reads and writes transfer exactly the bytes inside the file; the free
      map and directories are refinements of sets of sectors and of a map from names to
      sectors; a file's life from creation to removal gives its sectors back.
    - Interrupts and segments: the tables decode, as the processor reads them, to the
      gates and segments meant, with user programs kept to four vectors; an interrupt
      reaches its handler under the promised conditions and is acknowledged; the
      calibration of delays is within a 512th.
    - Devices: an interrupt queue is first-in first-out under every interleaving of
      threads and handlers; bytes to the serial port and keys from the keyboard arrive in
      order and the port's interrupts are on when they must be; the display is a terminal;
      the disk driver reads and writes the sectors of its disks; output of threads is
      not mixed on the console, and printing does not deadlock;
      partitions lie inside their device and their sectors are the device's; a tar header
      is read back and its checksum finds changed bytes; when the clock is right.
    - Start-up: words and options of the command line, the roles of the block devices and
      the kernel's page tables; what is appended to the archive is extracted again.
    - Library: division is exact; sorting sorts, in place and on linked lists; searching,
      hashing, tokenizing, comparing and moving do what their specifications say;
      formatted output terminates, stays in its buffer and is read back by atoi.
    - Behaviour that is not what the code intends is stated as it is: see the theorems
      on 64-bit remainders, [memmove]'s result, the clock hand, requests of nearly all the
      address space, children that are killed or nobody waits for, descriptors out of range, extended partitions, the date of the clock, the seed
      of the random numbers, too many words on the command line, very fast machines, disks slow to take data, and
      the lemmas named
      after the failures they show ([failed_create_leaks_data_sectors],
      [strnlen_reads_past_maxlen], [negative_width_pads_twice],
      [trailing_percent_undefined], [second_eviction_undefined],
      [failed_load_loses_page], [malloc_overflow], [long_command_overflows],
      [blank_command_fails], [overlapping_segments_panic], [read_keys_overflows],
      [open_beyond_limit], [two_readers_panic],
      [two_readers_yield_panic], [full_text_cut]).

    ** Bounds on loops

    Loops without a structural argument take a number of rounds that the theorems show
    to be enough: walks over linked lists the number of cells plus two, transfers of
    files the number of bytes plus one, scans of a directory its length plus one, string
    loops the size of memory plus one, [heapify] the number of elements plus one, digits
    of a 64-bit number 65, the pages of a segment their number, powers of two of a word
    32, and formatted output the length of the format plus one.  A busy wait for a tick
    takes a tick's iterations at most; the calibration doubles at most 22 times and
    refines nine bits; stripping and octal digits of a tar header the length of the text,
    words of the command line the bytes they are read from, extraction the sectors of the
    device.  The disk driver's polls have the code's own 1000 and 3000 rounds.  Polling
    loops (the serial port, the clock, the wait for a disk's interrupt) are given a number
    of rounds, and nested partition tables a depth, over which the theorems quantify.  Start-up
    and the semaphore self-test are run, in examples, for a fixed number of scheduler
    steps.

    ** Choices

    The thread system is the kernel built without USERPROG.  A section of code between
    [intr_disable] and [intr_set_level] is atomic; threads interleave between sections.
    The page allocator's and block allocator's locks are not interleaved.  Hash buckets,
    the frame list and the allocators' free lists are sequences; [Lists] shows what the
    links do.  Contents of memory that was never written are kept undefined where the
    code could observe them, as parameters ([junk]) or missing entries.

    ** Not modelled

    The threads of [Scheduler] run without USERPROG: [Family] takes semaphores as
    counters and does not run on them.  [Ide] is one channel, as the channels share
    nothing, driven by one thread at a time; [Console] logs what is sent
    to the serial port and to the display, its counter's increment taken to be atomic.  [main] is modelled by its parts, and as a sequence only where they fill the
    interrupt table.  [Fsutil] keeps the file system and the scratch device apart, each on
    a disk of its own.  [Timer] takes [timer_sleep] as a parameter, [Intr] the handlers'
    bodies with the promise that an external handler returns inside its interrupt.
    Statistics, usage, panic messages and backtraces only print.  Of the
    assembly code only the calls' stubs, and of the user programs only the shell's editor,
    are modelled; tests and host utilities are not. *)

From stdpp Require Export base gmap list numbers option sorting.
From Stdlib Require Export ZArith Lia.
From Stdlib Require String Ascii.
From Stdlib Require Export (notations) String.

Local Open Scope Z_scope.

(** ** Outcomes

    Kernel code either returns, or stops the machine.  [AssertFailed] is a failing
    [ASSERT], [Panicked] a [PANIC] (or [NOT_REACHED]), [Undef] an access the C
    language gives no meaning to (a null, dangling or out-of-range access), and
    [NoFuel] is used only by loops written with a bound on the number of rounds;
    every theorem about such a loop shows that the bound is enough. *)
Inductive failure := AssertFailed | Panicked | Undef | NoFuel.

Inductive res (A : Type) : Type :=
| Ok (a : A)
| Fail (f : failure).
Arguments Ok {A} a.
Arguments Fail {A} f.

#[global] Instance failure_eq_dec : EqDecision failure.
Proof. solve_decision. Defined.

#[global] Instance res_eq_dec `{EqDecision A} : EqDecision (res A).
Proof. solve_decision. Defined.

Definition rbind {A B} (m : res A) (k : A → res B) : res B :=
  match m with Ok a => k a | Fail f => Fail f end.

(** A computation over a state [S]. *)
Definition M (S A : Type) : Type := S → res (A * S).

Definition ret {S A} (a : A) : M S A := λ s, Ok (a, s).
Definition bind {S A B} (m : M S A) (k : A → M S B) : M S B :=
  λ s, match m s with Ok (a, s') => k a s' | Fail f => Fail f end.
Definition fail {S A} (f : failure) : M S A := λ _, Fail f.
Definition gets {S A} (f : S → A) : M S A := λ s, Ok (f s, s).
Definition modify {S} (f : S → S) : M S unit := λ s, Ok (tt, f s).
Definition lift {S A} (r : res A) : M S A :=
  λ s, match r with Ok a => Ok (a, s) | Fail f => Fail f end.

(** [ASSERT (b)] *)
Definition assert {S} (b : bool) : M S unit := if b then ret tt else fail AssertFailed.
Definition rassert (b : bool) : res unit := if b then Ok tt else Fail AssertFailed.

(** A memory access that must be defined. *)
Definition need {S A} (o : option A) : M S A :=
  match o with Some a => ret a | None => fail Undef end.
Definition rneed {A} (o : option A) : res A :=
  match o with Some a => Ok a | None => Fail Undef end.

Declare Scope kernel_scope.
Delimit Scope kernel_scope with K.
Notation "'let*' x ':=' m 'in' k" := (bind m (λ x, k))
  (at level 200, x pattern, m at level 100, k at level 200, right associativity) : kernel_scope.
Notation "m ';;;' k" := (bind m (λ _, k))
  (at level 199, right associativity) : kernel_scope.
Notation "'let?' x ':=' m 'in' k" := (rbind m (λ x, k))
  (at level 200, x pattern, m at level 100, k at level 200, right associativity) : kernel_scope.
Notation "m ';;?' k" := (rbind m (λ _, k))
  (at level 199, right associativity) : kernel_scope.
Open Scope kernel_scope.

(** [for (i = start; i < start + n; i++) body (i)] *)
Fixpoint for_range {S} (n : nat) (i : Z) (body : Z → M S unit) : M S unit :=
  match n with
  | O => ret tt
  | Datatypes.S n' => body i ;;; for_range n' (i + 1) body
  end.

Lemma bind_ok {S A B} (m : M S A) (k : A → M S B) s a s' :
  m s = Ok (a, s') → bind m k s = k a s'.
Proof. intros H. unfold bind. by rewrite H. Qed.

Lemma bind_inv {S A B} (m : M S A) (k : A → M S B) s b s' :
  bind m k s = Ok (b, s') → ∃ a s1, m s = Ok (a, s1) ∧ k a s1 = Ok (b, s').
Proof. unfold bind. destruct (m s) as [[a s1]|f] eqn:E; [|done]. eauto. Qed.

Lemma bind_assoc {S A B C} (m : M S A) (k : A → M S B) (k' : B → M S C) s :
  bind (bind m k) k' s = bind m (λ a, bind (k a) k') s.
Proof. unfold bind. by destruct (m s) as [[a s1]|f]. Qed.

Lemma rbind_inv {A B} (m : res A) (k : A → res B) b :
  rbind m k = Ok b → ∃ a, m = Ok a ∧ k a = Ok b.
Proof. destruct m; simpl; [eauto | done]. Qed.

Lemma assert_true {S} (b : bool) (s : S) : b = true → assert b s = Ok (tt, s).
Proof. by intros ->. Qed.

Lemma assert_false {S} (b : bool) (s : S) : b = false → assert b s = Fail AssertFailed.
Proof. by intros ->. Qed.

Lemma assert_inv {S} b (s : S) u s' : assert b s = Ok (u, s') → b = true ∧ s' = s.
Proof. destruct b; intros [=]; by subst. Qed.

Lemma lift_inv {S A} (r : res A) (s : S) a s' : lift r s = Ok (a, s') → r = Ok a ∧ s' = s.
Proof. unfold lift. destruct r; intros [=]; by subst. Qed.

Lemma need_some {S A} (o : option A) a (s : S) : o = Some a → need o s = Ok (a, s).
Proof. by intros ->. Qed.

(** ** Machine integers

    A w-bit integer is a [Z] in its range; the conversions write out the
    wrap-around of unsigned arithmetic and of two's complement. *)
Definition u8 (x : Z) : Z := x mod 2 ^ 8.
Definition u16 (x : Z) : Z := x mod 2 ^ 16.
Definition u32 (x : Z) : Z := x mod 2 ^ 32.
Definition u64 (x : Z) : Z := x mod 2 ^ 64.
Definition s32 (x : Z) : Z := (x + 2 ^ 31) mod 2 ^ 32 - 2 ^ 31.
Definition s64 (x : Z) : Z := (x + 2 ^ 63) mod 2 ^ 64 - 2 ^ 63.

Definition in_u32 (x : Z) : Prop := 0 ≤ x < 2 ^ 32.
Definition in_u64 (x : Z) : Prop := 0 ≤ x < 2 ^ 64.
Definition in_s32 (x : Z) : Prop := - 2 ^ 31 ≤ x < 2 ^ 31.
Definition in_s64 (x : Z) : Prop := - 2 ^ 63 ≤ x < 2 ^ 63.

(** Evaluates the powers of two that occur in a goal and its hypotheses. *)
Ltac pow2 :=
  repeat match goal with
  | H : context [Z.pow_pos 2 ?p] |- _ =>
      let v := eval vm_compute in (Z.pow_pos 2 p) in change (Z.pow_pos 2 p) with v in H
  | |- context [Z.pow_pos 2 ?p] =>
      let v := eval vm_compute in (Z.pow_pos 2 p) in change (Z.pow_pos 2 p) with v
  | H : context [2 ^ Zpos ?p] |- _ =>
      let v := eval vm_compute in (2 ^ Zpos p) in change (2 ^ Zpos p) with v in H
  | |- context [2 ^ Zpos ?p] =>
      let v := eval vm_compute in (2 ^ Zpos p) in change (2 ^ Zpos p) with v
  end.

Ltac int_lia := unfold u8, u16, u32, u64, s32, s64, in_u32, in_u64, in_s32, in_s64 in *; pow2; lia.
Ltac mod_lia := unfold u8, u16, u32, u64, s32, s64, in_u32, in_u64, in_s32, in_s64 in *; pow2;
  Z.to_euclidean_division_equations; lia.

Lemma u32_range x : in_u32 (u32 x).
Proof. apply Z.mod_pos_bound. lia. Qed.
Lemma u64_range x : in_u64 (u64 x).
Proof. apply Z.mod_pos_bound. lia. Qed.
Lemma s32_range x : in_s32 (s32 x).
Proof. mod_lia. Qed.
Lemma s64_range x : in_s64 (s64 x).
Proof. mod_lia. Qed.
Lemma u32_id x : in_u32 x → u32 x = x.
Proof. intros. by apply Z.mod_small. Qed.
Lemma u64_id x : in_u64 x → u64 x = x.
Proof. intros. by apply Z.mod_small. Qed.
Lemma s32_id x : in_s32 x → s32 x = x.
Proof. mod_lia. Qed.
Lemma s64_id x : in_s64 x → s64 x = x.
Proof. mod_lia. Qed.

(** ** Little-endian words *)

Definition le32 (x : Z) : list Z := [x mod 256; x / 2 ^ 8 mod 256; x / 2 ^ 16 mod 256; x / 2 ^ 24 mod 256].
Definition from_le32 (bs : list Z) : Z :=
  match bs with
  | b0 :: b1 :: b2 :: b3 :: _ => b0 + 2 ^ 8 * b1 + 2 ^ 16 * b2 + 2 ^ 24 * b3
  | _ => 0
  end.

Lemma from_le32_app x rest : in_u32 x → from_le32 (le32 x ++ rest) = x.
Proof. intros Hx. unfold le32, from_le32. simpl app. mod_lia. Qed.

(** The bytes of a string literal, without a terminator. *)
Definition chars (s : String.string) : list Z := (λ c, Z.of_N (Ascii.N_of_ascii c)) <$> String.list_ascii_of_string s.
Arguments chars _%_string.

Create HintDb kernel.
#[export] Hint Resolve u32_range u64_range s32_range s64_range : kernel.
#[export] Hint Rewrite u32_id u64_id s32_id s64_id using int_lia : kernel.

(** Exchanging two elements of a list permutes it. *)
Lemma list_swap_perm {A} (l : list A) i j a b :
  l !! i = Some a → l !! j = Some b → <[j := a]> (<[i := b]> l) ≡ₚ l.
Proof.
  intros Hi Hj. apply Permutation_inj. split; [by rewrite !length_insert|].
  exists (λ k, if decide (k = i) then j else if decide (k = j) then i else k). split.
  - intros k1 k2 E. repeat (destruct (decide _)); congruence.
  - intros k. pose proof (lookup_lt_Some _ _ _ Hi). pose proof (lookup_lt_Some _ _ _ Hj).
    destruct (decide (k = j)) as [->|Hkj].
    + rewrite list_lookup_insert_eq by by rewrite length_insert. destruct (decide (j = i)); [subst|]; congruence.
    + rewrite list_lookup_insert_ne by done. destruct (decide (k = i)) as [->|].
      * by rewrite list_lookup_insert_eq.
      * by rewrite list_lookup_insert_ne.
Qed.

(** Case analysis on every integer comparison of the goal, closing what
    arithmetic closes. *)
Ltac z_cases :=
  repeat match goal with
  | |- context [?a <=? ?b] => destruct (Z.leb_spec a b); try lia
  | |- context [?a <? ?b] => destruct (Z.ltb_spec a b); try lia
  | |- context [?a =? ?b] => destruct (Z.eqb_spec a b); try lia
  end; simpl; try done; try lia.

(** The same on a hypothesis. *)
Ltac z_cases_in H :=
  repeat match type of H with
  | context [?a <=? ?b] => destruct (Z.leb_spec a b); try lia
  | context [?a <? ?b] => destruct (Z.ltb_spec a b); try lia
  | context [?a =? ?b] => destruct (Z.eqb_spec a b); try lia
  end; simpl in H; try done.

(** Inverts a successful run of a composed computation. *)
Ltac run_inv :=
  repeat match goal with
  | H : bind _ _ _ = Ok _ |- _ =>
      let a := fresh "a" in let s := fresh "st" in let E := fresh "E" in
      apply bind_inv in H as (a & s & E & H)
  | H : rbind _ _ = Ok _ |- _ =>
      let a := fresh "a" in let E := fresh "E" in
      apply rbind_inv in H as (a & E & H)
  | H : Ok _ = Ok _ |- _ => injection H as H; try subst
  | H : (_, _) = (_, _) |- _ => injection H as H; try subst
  | H : Fail _ = Ok _ |- _ => discriminate H
  | H : ret _ _ = Ok _ |- _ => unfold ret in H
  | H : fail _ _ = Ok _ |- _ => discriminate H
  end.
