(* ===== verification/Bits.v ===== *)
(** * Fields of machine words

    A word packed from fields with shifts, masks and [|] is the sum of its fields, and a
    field is read back as a quotient and a remainder; shared by the descriptors of segments
    and interrupts and by the counters of the timer. *)

From S2P Require Import Prelude.
Local Open Scope Z_scope.

(** The [w] bits of [x] from bit [k] on. *)
Definition bitfield (k w x : Z) : Z := x / 2 ^ k mod 2 ^ w.

(** Or of words without common bits. *)
Lemma lor_disjoint k a b : 0 <= k → a mod 2 ^ k = 0 → 0 <= b < 2 ^ k → Z.lor a b = a + b.
Proof.
  intros Hk Ha Hb. assert (Hl : Z.land a b = 0).
  { apply Z.bits_inj_0. intros n. rewrite Z.land_spec. destruct (Z.lt_ge_cases n 0); [by rewrite Z.testbit_neg_r|].
    destruct (Z.lt_ge_cases n k).
    - rewrite <- (Z.mod_pow2_bits_low a k n) by lia. by rewrite Ha, Z.bits_0.
    - rewrite <- (Z.mod_small b (2 ^ k)), Z.mod_pow2_bits_high, andb_false_r by lia. done. }
  by rewrite <- Z.lxor_lor, <- Z.add_nocarry_lxor.
Qed.

Lemma lor_above k a b : 0 <= k → b mod 2 ^ k = 0 → 0 <= a < 2 ^ k → Z.lor a b = a + b.
Proof. intros. rewrite Z.lor_comm, (lor_disjoint k) by done. lia. Qed.

(** A mask selects a field and leaves it in place. *)
Lemma land_field k w x : 0 <= k → 0 <= w → Z.land x (Z.shiftl (Z.ones w) k) = bitfield k w x * 2 ^ k.
Proof.
  intros Hk Hw. unfold bitfield. rewrite <- Z.shiftl_mul_pow2, <- Z.land_ones, <- Z.shiftr_div_pow2 by done.
  apply Z.bits_inj'. intros n Hn. rewrite Z.land_spec, !Z.shiftl_spec by done.
  destruct (Z.lt_ge_cases n k).
  - by rewrite !(Z.testbit_neg_r _ (n - k)), andb_false_r by lia.
  - rewrite Z.land_spec, Z.shiftr_spec by lia. by replace (n - k + k) with n by lia.
Qed.

Lemma land_low w x : 0 <= w → Z.land x (Z.ones w) = x mod 2 ^ w.
Proof. intros. by rewrite Z.land_ones. Qed.

(** Splits the fields of a packed word into arithmetic. *)
Ltac fields := unfold bitfield in *; mod_lia.

(** Turns the innermost or whose right operand starts at bit [k], or ends below it, into a sum. *)
Ltac lor_step lem k :=
  match goal with |- context [Z.lor ?a ?b] =>
    lazymatch a with context [Z.lor _ _] => fail | _ =>
      lazymatch b with context [Z.lor _ _] => fail | _ => rewrite (lem k a b) by fields end end end.
