(* ===== verification/Arithmetic.v ===== *)
(** * 64-bit division (src/lib/arithmetic.c)

    The routines GCC calls for [long long] division on a 32-bit machine. *)

From S2P Require Import Prelude.
Local Open Scope Z_scope.

(** [divl]: the x86 DIVL instruction on a 64-bit dividend; it traps when the
    quotient does not fit in 32 bits (or the divisor is zero). *)
Definition divl (n d : Z) : res Z :=
  let n1 := u32 (Z.shiftr n 32) in
  let n0 := u32 n in
  let num := n1 * 2 ^ 32 + n0 in
  if (d =? 0) || (2 ^ 32 <=? num / d) then Fail Undef else Ok (num / d).

(** [nlz]: number of leading zeros of a non-zero 32-bit word. *)
Definition nlz_step (bound sh : Z) (nx : Z * Z) : Z * Z :=
  let '(n, x) := nx in
  if x <=? bound then (n + sh, u32 (Z.shiftl x sh)) else (n, x).

Definition nlz (x : Z) : Z :=
  let '(n, x) := nlz_step 0x3FFFFFFF 2
                   (nlz_step 0x0FFFFFFF 4
                     (nlz_step 0x00FFFFFF 8
                       (nlz_step 0x0000FFFF 16 (0, x)))) in
  if x <=? 0x7FFFFFFF then n + 1 else n.

Definition udiv64 (n d : Z) : res Z :=
  if Z.shiftr d 32 =? 0 then
    let b := 2 ^ 32 in
    let n1 := u32 (Z.shiftr n 32) in
    let n0 := u32 n in
    let d0 := u32 d in
    if d0 =? 0 then Fail Undef else
    let? q := divl (u64 (b * (n1 mod d0) + n0)) d0 in
    Ok (u64 (q + b * (n1 / d0)))
  else if n <? d then Ok 0
  else
    let d1 := u32 (Z.shiftr d 32) in
    let s := nlz d1 in
    let? q0 := divl (Z.shiftr n 1) (u32 (Z.shiftr (u64 (Z.shiftl d s)) 32)) in
    let q := Z.shiftr q0 (31 - s) in
    Ok (if u64 (n - u64 (u64 (q - 1) * d)) <? d then u64 (q - 1) else q).

(** [umod64] is declared to return [uint32_t]. *)
Definition umod64 (n d : Z) : res Z :=
  let? q := udiv64 n d in
  Ok (u32 (u64 (n - u64 (d * q)))).

Definition sdiv64 (n d : Z) : res Z :=
  let n_abs := if 0 <=? n then u64 n else u64 (- u64 n) in
  let d_abs := if 0 <=? d then u64 d else u64 (- u64 d) in
  let? q_abs := udiv64 n_abs d_abs in
  Ok (if eqb (n <? 0) (d <? 0) then s64 q_abs else s64 (- s64 q_abs)).

(** [smod64] is declared to return [int32_t]. *)
Definition smod64 (n d : Z) : res Z :=
  let? q := sdiv64 n d in
  Ok (s32 (s64 (n - s64 (d * q)))).

Definition __divdi3 (n d : Z) : res Z := sdiv64 n d.
Definition __moddi3 (n d : Z) : res Z := smod64 n d.
Definition __udivdi3 (n d : Z) : res Z := udiv64 n d.
Definition __umoddi3 (n d : Z) : res Z := umod64 n d.

(** ** Leading zeros *)

Lemma nlz_step_spec (bound sh n x : Z) :
  0 < x -> 0 <= sh <= 32 -> bound = 2 ^ (32 - sh) - 1 -> in_u32 x ->
  (nlz_step bound sh (n, x) = (n, x) /\ 2 ^ (32 - sh) <= x) \/
  (nlz_step bound sh (n, x) = (n + sh, x * 2 ^ sh) /\ x * 2 ^ sh < 2 ^ 32).
Proof.
  intros Hx Hsh -> Hr. unfold nlz_step. destruct (Z.leb_spec x (2 ^ (32 - sh) - 1)).
  - right. assert (x * 2 ^ sh < 2 ^ 32).
    { replace (2 ^ 32) with (2 ^ (32 - sh) * 2 ^ sh) by (rewrite <- Z.pow_add_r; f_equal; lia).
      pose proof (Z.pow_pos_nonneg 2 sh). nia. }
    split; [|done]. rewrite Z.shiftl_mul_pow2, u32_id by (unfold in_u32 in *; nia). done.
  - left. split; [done|lia].
Qed.

Lemma nlz_spec (x : Z) :
  0 < x < 2 ^ 32 -> 0 <= nlz x <= 31 /\ 2 ^ 31 <= x * 2 ^ nlz x < 2 ^ 32.
Proof.
  intros Hx. unfold nlz.
  destruct (nlz_step_spec 0x0000FFFF 16 0 x) as [[-> H1]|[-> H1]]; [int_lia..| |];
  [|destruct (nlz_step_spec 0x00FFFFFF 8 (0+16) (x * 2 ^ 16)) as [[-> H2]|[-> H2]]; [int_lia..| |]];
  try destruct (nlz_step_spec 0x00FFFFFF 8 0 x) as [[-> H2]|[-> H2]]; try int_lia;
  match goal with |- context [nlz_step 0x0FFFFFFF 4 (?n, ?y)] =>
    destruct (nlz_step_spec 0x0FFFFFFF 4 n y) as [[-> H3]|[-> H3]]; [int_lia..| |] end;
  match goal with |- context [nlz_step 0x3FFFFFFF 2 (?n, ?y)] =>
    destruct (nlz_step_spec 0x3FFFFFFF 2 n y) as [[-> H4]|[-> H4]]; [int_lia..| |] end;
  match goal with |- context [?y <=? 0x7FFFFFFF] => destruct (Z.leb_spec y 0x7FFFFFFF) end;
  match goal with |- 0 <= ?n <= 31 /\ _ => let v := eval vm_compute in n in change n with v end;
  int_lia.
Qed.

(** ** The quotient estimate of Hacker's Delight

    [e] is [d] with its low [32 - s] bits cleared: dividing by it overestimates
    the quotient by at most one. *)
Lemma quotient_estimate (n d s : Z) :
  0 <= s <= 31 -> in_u64 n -> 2 ^ 63 <= d * 2 ^ s < 2 ^ 64 ->
  let e := d / 2 ^ (32 - s) * 2 ^ (32 - s) in
  n / d <= n / e <= n / d + 1.
Proof.
  intros Hs Hn Hd e. set (k := 2 ^ (32 - s)) in *. set (t := 2 ^ s) in *.
  assert (Ht : 1 <= t) by (pose proof (Z.pow_pos_nonneg 2 s); lia).
  assert (Hkt : k * t = 2 ^ 32) by (unfold k, t; rewrite <- Z.pow_add_r; f_equal; lia).
  assert (Hk : 2 <= k).
  { change 2 with (2 ^ 1) at 1. apply Z.pow_le_mono_r; lia. }
  assert (He : e <= d < e + k).
  { unfold e. pose proof (Z.div_mod d k). pose proof (Z.mod_pos_bound d k). lia. }
  assert (Het : 2 ^ 63 <= e * t).
  { (* both 2^63 and e*t are multiples of k*t = 2^32 *)
    assert (e * t = d / k * 2 ^ 32) as -> by (unfold e; rewrite <- Hkt; ring).
    assert (2 ^ 31 <= d / k); [|int_lia].
    apply Z.div_le_lower_bound; [lia|]. apply (Z.mul_le_mono_pos_r _ _ t); [lia|].
    replace (k * 2 ^ 31 * t) with (k * t * 2 ^ 31) by ring. rewrite Hkt. int_lia. }
  assert (Hepos : 0 < e) by nia.
  assert (HQ : 0 <= n / d) by (apply Z.div_pos; unfold in_u64 in Hn; nia).
  assert (Hdm : n = d * (n / d) + n mod d /\ 0 <= n mod d < d)
    by (split; [apply Z.div_mod; lia | apply Z.mod_pos_bound; lia]).
  split.
  - apply Z.div_le_lower_bound; nia.
  - enough (n / e < n / d + 2) by lia. apply Z.div_lt_upper_bound; [lia|].
    set (Q := n / d) in *. unfold in_u64 in Hn.
    assert (HQt : Q < 2 * t).
    { apply (Z.mul_lt_mono_pos_r d); [lia|]. int_lia. }
    assert (Hgap : (Q + 1) * (d - e) <= e);
      [|assert ((Q + 1) * (d - e) = Q * d + d - Q * e - e) by ring; lia].
    assert ((Q + 1) * (d - e) <= 2 * t * (k - 1)) by (apply Z.mul_le_mono_nonneg; lia).
    assert (2 * t * (k - 1) = 2 * (k * t) - 2 * t) by ring.
    destruct (Z.eq_dec s 31) as [->|].
    + subst t. int_lia.
    + assert (t <= 2 ^ 30) by (apply Z.pow_le_mono_r; lia).
      assert (e * t <= e * 2 ^ 30) by (apply Z.mul_le_mono_nonneg_l; lia). int_lia.
Qed.

Lemma div_small_divisor (n d : Z) :
  0 < d -> let b := 2 ^ 32 in
  (b * (n / b mod d) + n mod b) / d + b * (n / b / d) = n / d.
Proof.
  intros Hd b. assert (0 < b) by (unfold b; lia).
  rewrite <- Z.div_add by lia. f_equal.
  rewrite (Z.div_mod n b) at 4 by lia.
  rewrite (Z.div_mod (n / b) d) at 3 by lia. ring.
Qed.

(** ** Correctness of the division routines *)

Lemma divl_spec (n d : Z) :
  in_u64 n -> 0 < d -> n / d < 2 ^ 32 -> divl n d = Ok (n / d).
Proof.
  intros Hn Hd Hq. unfold divl.
  assert (u32 (Z.shiftr n 32) * 2 ^ 32 + u32 n = n) as ->.
  { rewrite Z.shiftr_div_pow2 by lia. unfold in_u64 in Hn.
    rewrite u32_id by (unfold in_u32; mod_lia). unfold u32. pose proof (Z.div_mod n (2 ^ 32)). lia. }
  destruct (Z.eqb_spec d 0); [lia|]. destruct (Z.leb_spec (2 ^ 32) (n / d)); [lia|done].
Qed.

Lemma udiv64_small (n d : Z) :
  in_u64 n -> 0 < d < 2 ^ 32 -> udiv64 n d = Ok (n / d).
Proof.
  intros Hn Hd. unfold udiv64.
  rewrite !Z.shiftr_div_pow2 by lia. rewrite (Z.div_small d) by lia. simpl (0 =? 0).
  rewrite (u32_id d), (u32_id (n / 2 ^ 32)) by (unfold in_u32, in_u64 in *; mod_lia).
  destruct (Z.eqb_spec d 0); [lia|].
  pose proof (Z.mod_pos_bound (n / 2 ^ 32) d). pose proof (Z.mod_pos_bound n (2 ^ 32)).
  set (m := 2 ^ 32 * (n / 2 ^ 32 mod d) + u32 n).
  assert (Hm : 0 <= m < d * 2 ^ 32) by (unfold m, u32; int_lia).
  assert (Hm64 : in_u64 m) by (unfold in_u64; int_lia).
  rewrite u64_id by done. rewrite divl_spec; [|done|lia|apply Z.div_lt_upper_bound; lia].
  simpl. unfold m, u32. rewrite div_small_divisor by lia.
  f_equal. apply u64_id. unfold in_u64 in *.
  pose proof (Z.div_pos n d). pose proof (Z.div_le_upper_bound n d n). nia.
Qed.

Lemma udiv64_large (n d : Z) :
  in_u64 n -> 2 ^ 32 <= d < 2 ^ 64 -> d <= n -> udiv64 n d = Ok (n / d).
Proof.
  intros Hn Hd Hnd. unfold udiv64.
  rewrite (Z.shiftr_div_pow2 d 32) by lia.
  assert (Hd1 : 1 <= d / 2 ^ 32 < 2 ^ 32) by mod_lia.
  destruct (Z.eqb_spec (d / 2 ^ 32) 0); [lia|]. destruct (Z.ltb_spec n d); [lia|].
  rewrite (u32_id (d / 2 ^ 32)) by (unfold in_u32; lia).
  destruct (nlz_spec (d / 2 ^ 32)) as [Hs Hnorm]; [lia|].
  set (s := nlz (d / 2 ^ 32)) in *.
  assert (Hp : 0 < 2 ^ s) by (apply Z.pow_pos_nonneg; lia).
  assert (Hds : 2 ^ 63 <= d * 2 ^ s < 2 ^ 64).
  { pose proof (Z.div_mod d (2 ^ 32) ltac:(lia)) as Heq. pose proof (Z.mod_pos_bound d (2 ^ 32)).
    set (d1 := d / 2 ^ 32) in *. set (d0 := d mod 2 ^ 32) in *. set (t := 2 ^ s) in *.
    assert (d * t = 2 ^ 32 * (d1 * t) + d0 * t) by (rewrite Heq at 1; ring).
    assert (d1 * t <= 2 ^ 32 - t).
    { assert (Hc : 2 ^ (32 - s) * t = 2 ^ 32)
        by (unfold t; rewrite <- Z.pow_add_r by lia; f_equal; lia).
      set (c := 2 ^ (32 - s)) in *.
      assert (d1 < c) by (apply (Z.mul_lt_mono_pos_r t); lia).
      assert (d1 * t <= (c - 1) * t) by (apply Z.mul_le_mono_nonneg_r; lia). lia. }
    assert (0 <= d0 * t <= (2 ^ 32 - 1) * t)
      by (split; [apply Z.mul_nonneg_nonneg | apply Z.mul_le_mono_nonneg_r]; lia).
    int_lia. }
  pose proof (quotient_estimate n d s ltac:(lia) Hn Hds) as Hest. simpl in Hest.
  set (k := 2 ^ (32 - s)) in *.
  assert (Hk : 0 < k) by (apply Z.pow_pos_nonneg; lia).
  assert (Hv : u32 (Z.shiftr (u64 (Z.shiftl d s)) 32) = d / k).
  { rewrite Z.shiftl_mul_pow2, u64_id, Z.shiftr_div_pow2 by (unfold in_u64; lia).
    replace (2 ^ 32) with (k * 2 ^ s) by (unfold k; rewrite <- Z.pow_add_r; f_equal; lia).
    rewrite Z.div_mul_cancel_r by lia. apply u32_id. unfold in_u32.
    split; [apply Z.div_pos; lia|]. apply Z.div_lt_upper_bound; [lia|].
    apply (Z.mul_lt_mono_pos_r (2 ^ s)); [lia|].
    replace (k * 2 ^ 32 * 2 ^ s) with (k * 2 ^ s * 2 ^ 32) by ring.
    unfold k. rewrite <- Z.pow_add_r by lia. replace (32 - s + s) with 32 by lia. int_lia. }
  rewrite Hv.
  assert (Hvk : 2 ^ 31 <= d / k).
  { apply Z.div_le_lower_bound; [lia|]. apply (Z.mul_le_mono_pos_r _ _ (2 ^ s)); [lia|].
    replace (k * 2 ^ 31 * 2 ^ s) with (k * 2 ^ s * 2 ^ 31) by ring.
    unfold k. rewrite <- Z.pow_add_r by lia. replace (32 - s + s) with 32 by lia. int_lia. }
  rewrite Z.shiftr_div_pow2 by lia. change (2 ^ 1) with 2.
  unfold in_u64 in Hn.
  rewrite divl_spec; [|unfold in_u64; mod_lia|lia|apply Z.div_lt_upper_bound; [lia|]; mod_lia].
  simpl. rewrite Z.shiftr_div_pow2 by lia.
  assert (Hq : n / 2 / (d / k) / 2 ^ (31 - s) = n / (d / k * k)).
  { rewrite !Z.div_div by lia. f_equal.
    assert (k = 2 * 2 ^ (31 - s)) as -> by (unfold k; rewrite <- Z.pow_succ_r by lia; f_equal; lia).
    ring. }
  rewrite Hq. set (q := n / (d / k * k)) in *.
  assert (HQ : 1 <= n / d) by (apply Z.div_le_lower_bound; lia).
  pose proof (Z.div_mod n d). pose proof (Z.mod_pos_bound n d).
  assert (Hq64 : q < 2 ^ 63).
  { enough (n / d < 2 ^ 32) by lia. apply Z.div_lt_upper_bound; int_lia. }
  rewrite (u64_id (q - 1)) by (unfold in_u64; lia).
  assert (Hqd : 0 <= (q - 1) * d <= n) by nia.
  rewrite (u64_id ((q - 1) * d)) by (unfold in_u64; lia).
  rewrite (u64_id (n - _)) by (unfold in_u64; lia).
  destruct (Z.ltb_spec (n - (q - 1) * d) d); f_equal; nia.
Qed.

Lemma udiv64_spec (n d : Z) :
  in_u64 n -> 0 < d < 2 ^ 64 -> udiv64 n d = Ok (n / d).
Proof.
  intros Hn Hd. destruct (Z.lt_ge_cases d (2 ^ 32)); [apply udiv64_small; [done|lia]|].
  destruct (Z.le_gt_cases d n); [apply udiv64_large; [done|lia|lia]|].
  unfold udiv64. rewrite Z.shiftr_div_pow2 by lia.
  destruct (Z.eqb_spec (d / 2 ^ 32) 0); [mod_lia|]. destruct (Z.ltb_spec n d); [|lia].
  unfold in_u64 in Hn. by rewrite Z.div_small by lia.
Qed.

Definition abs64 (n : Z) : Z := if 0 <=? n then u64 n else u64 (- u64 n).

Lemma abs64_spec (n : Z) : in_s64 n -> abs64 n = Z.abs n.
Proof. intros Hn. unfold abs64. destruct (Z.leb_spec 0 n); unfold in_s64 in Hn; mod_lia. Qed.

Lemma sdiv64_spec (n d : Z) :
  in_s64 n -> in_s64 d -> d <> 0 -> sdiv64 n d = Ok (s64 (Z.quot n d)).
Proof.
  intros Hn Hd Hd0. unfold sdiv64. fold (abs64 n). fold (abs64 d).
  rewrite !abs64_spec by done. unfold in_s64 in *.
  rewrite udiv64_spec by (unfold in_u64; lia). simpl.
  rewrite <- Z.quot_div_nonneg by lia. rewrite Z.quot_abs by done.
  f_equal. pose proof (Z.quot_abs n d Hd0) as Hq.
  set (q := Z.quot n d) in *.
  assert (Hs : if eqb (n <? 0) (d <? 0) then 0 <= q else q <= 0).
  { unfold q. destruct (Z.ltb_spec n 0), (Z.ltb_spec d 0); simpl.
    - rewrite <- Z.quot_opp_opp by lia. apply Z.quot_pos; lia.
    - enough (0 <= - Z.quot n d) by lia. rewrite <- Z.quot_opp_l by lia. apply Z.quot_pos; lia.
    - enough (0 <= - Z.quot n d) by lia. rewrite <- Z.quot_opp_r by lia. apply Z.quot_pos; lia.
    - apply Z.quot_pos; lia. }
  destruct (eqb _ _).
  - by rewrite Z.abs_eq by done.
  - rewrite Z.abs_neq by done. unfold s64. mod_lia.
Qed.

(** ** Properties *)

(** C37: The unsigned 64-bit division routine returns exactly the floor quotient
    for every 64-bit dividend and every non-zero 64-bit divisor, and its DIVL
    instructions never trap. *)
Theorem udivdi3_correct (n d : Z) :
  in_u64 n -> 0 < d < 2 ^ 64 -> __udivdi3 n d = Ok (n / d).
Proof. apply udiv64_spec. Qed.

Lemma udivdi3_correct_witness :
  __udivdi3 (2 ^ 64 - 1) (2 ^ 32 + 7) = Ok ((2 ^ 64 - 1) / (2 ^ 32 + 7)).
Proof. apply udivdi3_correct; [unfold in_u64|]; lia. Defined.

(** Signed 64-bit division truncates toward zero, and wraps on the one
    quotient that does not fit ([INT64_MIN / -1]). *)
Theorem divdi3_correct (n d : Z) :
  in_s64 n -> in_s64 d -> d <> 0 -> __divdi3 n d = Ok (s64 (Z.quot n d)).
Proof. apply sdiv64_spec. Qed.

Lemma divdi3_correct_witness : __divdi3 (-7) 2 = Ok (s64 (Z.quot (-7) 2)).
Proof. apply divdi3_correct; unfold in_s64; lia. Defined.

(** Unsigned 64-bit remainder yields the remainder only modulo 2^32, because
    the helper [umod64] returns [uint32_t]: the result is the true remainder
    exactly when that remainder is below 2^32. *)
Theorem umoddi3_truncates (n d : Z) :
  in_u64 n -> 0 < d < 2 ^ 64 ->
  __umoddi3 n d = Ok ((n mod d) mod 2 ^ 32) /\
  (__umoddi3 n d = Ok (n mod d) <-> n mod d < 2 ^ 32).
Proof.
  intros Hn Hd.
  assert (E : __umoddi3 n d = Ok ((n mod d) mod 2 ^ 32)).
  { unfold __umoddi3, umod64. rewrite udiv64_spec by done. simpl. unfold in_u64 in Hn.
    pose proof (Z.div_mod n d ltac:(lia)). pose proof (Z.mod_pos_bound n d).
    pose proof (Z.div_pos n d).
    rewrite (u64_id (d * (n / d))), (u64_id (n - _)) by (unfold in_u64; nia).
    unfold u32. do 2 f_equal. lia. }
  split; [done|]. rewrite E. pose proof (Z.mod_pos_bound n d). split.
  - intros [= H0]. rewrite <- H0. apply Z.mod_pos_bound. lia.
  - intros H0. by rewrite (Z.mod_small (n mod d)) by lia.
Qed.

Lemma umoddi3_truncates_witness : __umoddi3 (2 ^ 32) (2 ^ 33) = Ok 0.
Proof. apply (umoddi3_truncates (2 ^ 32) (2 ^ 33)); [unfold in_u64|]; lia. Defined.
