(* ===== verification/Strings.v ===== *)
(** * Blocks of bytes and strings (src/lib/string.c)

    Memory is a finite map from addresses to bytes; reading or writing an address
    outside it is undefined.  A loop that runs to the end of a string reads a new
    address in every round, so the number of addresses bounds its rounds. *)

From S2P Require Import Prelude.
Local Open Scope Z_scope.

Notation bytes_mem := (gmap Z Z).
Notation B := (M bytes_mem).

Definition load (a : Z) : B Z := λ m, need (m !! a) m.
Definition store (a b : Z) : B unit := λ m,
  match m !! a with Some _ => Ok (tt, <[a := b]> m) | None => Fail Undef end.
Definition rounds : B nat := gets (λ m, S (size m)).

Definition null : Z := 0.
Definition assert_block (p size : Z) : B unit := assert (negb (p =? null) || (size =? 0)).
Definition assert_nonnull (p : Z) : B unit := assert (negb (p =? null)).

(** ** Blocks *)

Fixpoint copy_up (n : nat) (dst src : Z) : B unit :=
  match n with
  | O => ret tt
  | S n' => let* b := load src in store dst b ;;; copy_up n' (dst + 1) (src + 1)
  end.

(** [dst] and [src] are just past the blocks. *)
Fixpoint copy_down (n : nat) (dst src : Z) : B unit :=
  match n with
  | O => ret tt
  | S n' => let* b := load (src - 1) in store (dst - 1) b ;;; copy_down n' (dst - 1) (src - 1)
  end.

Definition memcpy (dst src size : Z) : B Z :=
  assert_block dst size ;;; assert_block src size ;;;
  copy_up (Z.to_nat size) dst src ;;; ret dst.

(** Returns the pointer it moved. *)
Definition memmove (dst src size : Z) : B Z :=
  assert_block dst size ;;; assert_block src size ;;;
  if dst <? src
  then copy_up (Z.to_nat size) dst src ;;; ret (dst + size)
  else copy_down (Z.to_nat size) (dst + size) (src + size) ;;; ret dst.

Fixpoint compare_blocks (n : nat) (a b : Z) : B Z :=
  match n with
  | O => ret 0
  | S n' =>
      let* x := load a in let* y := load b in
      if x =? y then compare_blocks n' (a + 1) (b + 1) else ret (if y <? x then 1 else -1)
  end.

Definition memcmp (a b size : Z) : B Z :=
  assert_block a size ;;; assert_block b size ;;; compare_blocks (Z.to_nat size) a b.

Fixpoint find_byte (n : nat) (block ch : Z) : B Z :=
  match n with
  | O => ret null
  | S n' => let* x := load block in if x =? ch then ret block else find_byte n' (block + 1) ch
  end.

Definition memchr (block ch size : Z) : B Z :=
  assert_block block size ;;; find_byte (Z.to_nat size) block (u8 ch).

Fixpoint set_bytes (n : nat) (dst value : Z) : B unit :=
  match n with
  | O => ret tt
  | S n' => store dst value ;;; set_bytes n' (dst + 1) value
  end.

Definition memset (dst value size : Z) : B Z :=
  assert_block dst size ;;; set_bytes (Z.to_nat size) dst (u8 value) ;;; ret dst.

(** ** Strings *)

Fixpoint strcmp_loop (fuel : nat) (a b : Z) : B Z :=
  match fuel with
  | O => fail NoFuel
  | S fuel =>
      let* x := load a in let* y := load b in
      if negb (x =? 0) && (x =? y) then strcmp_loop fuel (a + 1) (b + 1)
      else ret (if x <? y then -1 else if y <? x then 1 else 0)
  end.

Definition strcmp (a b : Z) : B Z :=
  assert_nonnull a ;;; assert_nonnull b ;;; let* n := rounds in strcmp_loop n a b.

Fixpoint strchr_loop (fuel : nat) (string c : Z) : B Z :=
  match fuel with
  | O => fail NoFuel
  | S fuel =>
      let* x := load string in
      if x =? c then ret string else if x =? 0 then ret null else strchr_loop fuel (string + 1) c
  end.

Definition strchr (string c : Z) : B Z :=
  assert_nonnull string ;;; let* n := rounds in strchr_loop n string (u8 c).

(** The loop of [strcspn] ([skip] false) and [strspn] ([skip] true). *)
Fixpoint span_loop (fuel : nat) (skip : bool) (string set length : Z) : B Z :=
  match fuel with
  | O => fail NoFuel
  | S fuel =>
      let* x := load (string + length) in
      if x =? 0 then ret length
      else
        let* p := strchr set x in
        if eqb (negb (p =? null)) skip then span_loop fuel skip string set (length + 1) else ret length
  end.

Definition strcspn (string stop : Z) : B Z := let* n := rounds in span_loop n false string stop 0.
Definition strspn (string skip : Z) : B Z := let* n := rounds in span_loop n true string skip 0.

Fixpoint strpbrk_loop (fuel : nat) (string stop : Z) : B Z :=
  match fuel with
  | O => fail NoFuel
  | S fuel =>
      let* x := load string in
      if x =? 0 then ret null
      else
        let* p := strchr stop x in
        if negb (p =? null) then ret string else strpbrk_loop fuel (string + 1) stop
  end.

Definition strpbrk (string stop : Z) : B Z := let* n := rounds in strpbrk_loop n string stop.

Fixpoint strrchr_loop (fuel : nat) (string c p : Z) : B Z :=
  match fuel with
  | O => fail NoFuel
  | S fuel =>
      let* x := load string in
      if x =? 0 then ret p else strrchr_loop fuel (string + 1) c (if x =? c then string else p)
  end.

Definition strrchr (string c : Z) : B Z := let* n := rounds in strrchr_loop n string (u8 c) null.

Fixpoint strlen_loop (fuel : nat) (p : Z) : B Z :=
  match fuel with
  | O => fail NoFuel
  | S fuel => let* x := load p in if x =? 0 then ret p else strlen_loop fuel (p + 1)
  end.

Definition strlen (string : Z) : B Z :=
  assert_nonnull string ;;; let* n := rounds in let* p := strlen_loop n string in ret (p - string).

(** The byte is read before the length is compared with [maxlen]. *)
Fixpoint strnlen_loop (fuel : nat) (string maxlen length : Z) : B Z :=
  match fuel with
  | O => fail NoFuel
  | S fuel =>
      let* x := load (string + length) in
      if negb (x =? 0) && (length <? maxlen) then strnlen_loop fuel string maxlen (length + 1) else ret length
  end.

Definition strnlen (string maxlen : Z) : B Z := let* n := rounds in strnlen_loop n string maxlen 0.

(** [n] rounds are left. *)
Fixpoint strstr_loop (n : nat) (haystack needle needle_len i : Z) : B Z :=
  match n with
  | O => ret null
  | S n' =>
      let* c := memcmp (haystack + i) needle needle_len in
      if c =? 0 then ret (haystack + i) else strstr_loop n' haystack needle needle_len (i + 1)
  end.

Definition strstr (haystack needle : Z) : B Z :=
  let* haystack_len := strlen haystack in
  let* needle_len := strlen needle in
  if needle_len <=? haystack_len
  then strstr_loop (Z.to_nat (haystack_len - needle_len + 1)) haystack needle needle_len 0
  else ret null.

(** The two loops of [strtok_r]; the first returns whether the end was reached. *)
Fixpoint skip_delimiters (fuel : nat) (s delimiters : Z) : B (bool * Z) :=
  match fuel with
  | O => fail NoFuel
  | S fuel =>
      let* x := load s in
      let* p := strchr delimiters x in
      if negb (p =? null)
      then if x =? 0 then ret (true, s) else skip_delimiters fuel (s + 1) delimiters
      else ret (false, s)
  end.

Fixpoint skip_token (fuel : nat) (s delimiters : Z) : B Z :=
  match fuel with
  | O => fail NoFuel
  | S fuel =>
      let* x := load s in
      let* p := strchr delimiters x in
      if p =? null then skip_token fuel (s + 1) delimiters else ret s
  end.

(** Returns the token and the new value of [*save_ptr]. *)
Definition strtok_r (s delimiters save : Z) : B (Z * Z) :=
  assert_nonnull delimiters ;;;
  let s := if s =? null then save else s in
  assert_nonnull s ;;;
  let* n := rounds in
  let* (ended, token) := skip_delimiters n s delimiters in
  if ended then ret (null, token)
  else
    let* s := skip_token n token delimiters in
    let* x := load s in
    if negb (x =? 0) then store s 0 ;;; ret (token, s + 1) else ret (token, s).

Definition strlcpy (dst src size : Z) : B Z :=
  assert_nonnull dst ;;; assert_nonnull src ;;;
  let* src_len := strlen src in
  (if 0 <? size then
     let dst_len := if src_len <? size - 1 then src_len else size - 1 in
     memcpy dst src dst_len ;;; store (dst + dst_len) 0
   else ret tt) ;;;
  ret src_len.

Definition strlcat (dst src size : Z) : B Z :=
  assert_nonnull dst ;;; assert_nonnull src ;;;
  let* src_len := strlen src in
  let* dst_len := strlen dst in
  (if (0 <? size) && (dst_len <? size) then
     let room := size - dst_len - 1 in
     let copy_cnt := if src_len <? room then src_len else room in
     memcpy (dst + dst_len) src copy_cnt ;;; store (dst + dst_len + copy_cnt) 0
   else ret tt) ;;;
  ret (src_len + dst_len).

(** The loop in which [strtok_r] is used: the first call is given the string, the
    following ones a null pointer, until no token is left. *)
Fixpoint strtok_all (fuel : nat) (s delimiters save : Z) : B (list Z) :=
  match fuel with
  | O => fail NoFuel
  | S fuel =>
      let* (token, save) := strtok_r s delimiters save in
      if token =? null then ret []
      else let* rest := strtok_all fuel null delimiters save in ret (token :: rest)
  end.
