(* ===== verification/StringSpec.v ===== *)
(** * What the string routines compute (src/lib/string.c)

    [str m p l] says that the bytes [l], none of them null, followed by a null byte, are
    in memory at [p].  The string routines are shown equal to functions on these byte
    lists, with every loop shown to end within its rounds. *)

From S2P Require Import Prelude Strings.
Local Open Scope Z_scope.

(** ** Blocks *)

Definition block (m : bytes_mem) (p n : Z) : Prop := ∀ i, 0 <= i < n → is_Some (m !! (p + i)).

(** [m'] is [m] with the [n] bytes at [dst] replaced by those at [src] in [m]. *)
Definition copied (dst src n : Z) (m m' : bytes_mem) : Prop :=
  ∀ a, m' !! a = if decide (dst <= a < dst + n) then m !! (src + (a - dst)) else m !! a.

Lemma copied_same dst src m : copied dst src 0 m m.
Proof. intros a. destruct (decide _); [lia|done]. Qed.

Lemma copied_block dst src n m m' p k : copied dst src n m m' → block m src n → block m p k → block m' p k.
Proof.
  intros Hc Hs Hb i Hi. rewrite Hc. destruct (decide _); [|by apply Hb]. apply (Hs (p + i - dst)). lia.
Qed.

Lemma copy_up_spec n dst src m :
  block m src (Z.of_nat n) → block m dst (Z.of_nat n) → dst <= src ∨ src + Z.of_nat n <= dst →
  ∃ m', copy_up n dst src m = Ok (tt, m') ∧ copied dst src (Z.of_nat n) m m'.
Proof.
  revert dst src m. induction n as [|n IH]; intros dst src m Hs Hd Ho; cbn [copy_up]; [by eexists; split; [|apply copied_same]|].
  destruct (Hs 0 ltac:(lia)) as [b Hb]. rewrite Z.add_0_r in Hb. destruct (Hd 0 ltac:(lia)) as [c Hc]. rewrite Z.add_0_r in Hc.
  rewrite (bind_ok _ _ _ b m) by (unfold load; by rewrite Hb). erewrite bind_ok by (unfold store; by rewrite Hc).
  assert (Hm : ∀ p k, block m p k → block (<[dst := b]> m) p k).
  { intros p k Hp i Hi. destruct (decide (p + i = dst)) as [->|]; [rewrite lookup_insert_eq; eauto|rewrite lookup_insert_ne by done; by apply Hp]. }
  destruct (IH (dst + 1) (src + 1) (<[dst := b]> m)) as (m' & E & Hcp).
  - apply Hm. intros i Hi. replace (src + 1 + i) with (src + (1 + i)) by lia. apply Hs. lia.
  - apply Hm. intros i Hi. replace (dst + 1 + i) with (dst + (1 + i)) by lia. apply Hd. lia.
  - lia.
  - exists m'. split; [done|]. intros a. rewrite Hcp.
    destruct (decide (dst + 1 <= a < dst + 1 + Z.of_nat n)), (decide (dst <= a < dst + Z.of_nat (S n))); try lia.
    + rewrite lookup_insert_ne by lia. f_equal. lia.
    + assert (a = dst) as -> by lia. rewrite lookup_insert_eq, <- Hb. f_equal. lia.
    + by rewrite lookup_insert_ne by lia.
Qed.

Lemma copy_down_spec n dst src m :
  block m src (Z.of_nat n) → block m dst (Z.of_nat n) → src <= dst ∨ dst + Z.of_nat n <= src →
  ∃ m', copy_down n (dst + Z.of_nat n) (src + Z.of_nat n) m = Ok (tt, m') ∧ copied dst src (Z.of_nat n) m m'.
Proof.
  revert m. induction n as [|n IH]; intros m Hs Hd Ho; cbn [copy_down]; [by eexists; split; [|apply copied_same]|].
  replace (dst + Z.of_nat (S n) - 1) with (dst + Z.of_nat n) by lia. replace (src + Z.of_nat (S n) - 1) with (src + Z.of_nat n) by lia.
  destruct (Hs (Z.of_nat n) ltac:(lia)) as [b Hb]. destruct (Hd (Z.of_nat n) ltac:(lia)) as [c Hc].
  rewrite (bind_ok _ _ _ b m) by (unfold load; by rewrite Hb). erewrite bind_ok by (unfold store; by rewrite Hc).
  set (m1 := <[dst + Z.of_nat n := b]> m).
  assert (Hm : ∀ p k, block m p k → block m1 p k).
  { intros p k Hp i Hi. unfold m1. destruct (decide (p + i = dst + Z.of_nat n)) as [->|]; [rewrite lookup_insert_eq; eauto|rewrite lookup_insert_ne by done; by apply Hp]. }
  destruct (IH m1) as (m' & E & Hcp).
  - apply Hm. intros i Hi. apply Hs. lia.
  - apply Hm. intros i Hi. apply Hd. lia.
  - lia.
  - exists m'. split; [done|]. intros a. rewrite Hcp. unfold m1.
    destruct (decide (dst <= a < dst + Z.of_nat n)), (decide (dst <= a < dst + Z.of_nat (S n))); try lia.
    + by rewrite lookup_insert_ne by lia.
    + assert (a = dst + Z.of_nat n) as -> by lia. rewrite lookup_insert_eq, <- Hb. f_equal. lia.
    + by rewrite lookup_insert_ne by lia.
Qed.

Lemma assert_block_ok p n m : p ≠ null → assert_block p n m = Ok (tt, m).
Proof. intros Hp. unfold assert_block. by rewrite (proj2 (Z.eqb_neq _ _) Hp). Qed.

Lemma memcpy_run dst src n m :
  0 <= n → dst ≠ null → src ≠ null → block m src n → block m dst n → dst <= src ∨ src + n <= dst →
  ∃ m', memcpy dst src n m = Ok (dst, m') ∧ copied dst src n m m'.
Proof.
  intros Hn Hd Hs Hbs Hbd Ho. unfold memcpy.
  rewrite (bind_ok _ _ _ _ _ (assert_block_ok dst n m Hd)), (bind_ok _ _ _ _ _ (assert_block_ok src n m Hs)).
  destruct (copy_up_spec (Z.to_nat n) dst src m) as (m' & E & Hc); [by rewrite Z2Nat.id by lia..|].
  rewrite (bind_ok _ _ _ _ _ E). rewrite Z2Nat.id in Hc by lia. by exists m'.
Qed.

(** [memmove] replaces the [size] bytes at [dst] by the bytes that were at [src],
    however the two blocks overlap, and changes no other byte.  It does not always
    return its first argument: when [dst] is below [src] it returns [dst + size]. *)
Theorem memmove_correct dst src n m :
  0 <= n → dst ≠ null → src ≠ null → block m src n → block m dst n →
  ∃ m', memmove dst src n m = Ok (if dst <? src then dst + n else dst, m') ∧ copied dst src n m m'.
Proof.
  intros Hn Hd Hs Hbs Hbd. unfold memmove.
  rewrite (bind_ok _ _ _ _ _ (assert_block_ok dst n m Hd)), (bind_ok _ _ _ _ _ (assert_block_ok src n m Hs)).
  destruct (Z.ltb_spec dst src).
  - destruct (copy_up_spec (Z.to_nat n) dst src m) as (m' & E & Hc); [rewrite Z2Nat.id by lia; done || lia..|].
    rewrite (bind_ok _ _ _ _ _ E). rewrite Z2Nat.id in Hc by lia. by exists m'.
  - destruct (copy_down_spec (Z.to_nat n) dst src m) as (m' & E & Hc); [rewrite Z2Nat.id by lia; done || lia..|].
    rewrite Z2Nat.id in E, Hc by lia. rewrite (bind_ok _ _ _ _ _ E). by exists m'.
Qed.

Lemma memmove_correct_witness :
  let m := list_to_map [(10, 1); (11, 2); (12, 3); (13, 4)] : bytes_mem in
  ∃ m', memmove 11 10 3 m = Ok (11, m') ∧ copied 11 10 3 m m' ∧ m' !! 13 = Some 3.
Proof.
  intros m. destruct (memmove_correct 11 10 3 m) as (m' & E & Hc); [lia|done|done| | |].
  - intros i Hi. assert (i = 0 ∨ i = 1 ∨ i = 2) as [->|[->| ->]] by lia; by eexists.
  - intros i Hi. assert (i = 0 ∨ i = 1 ∨ i = 2) as [->|[->| ->]] by lia; by eexists.
  - exists m'. split; [exact E|]. split; [exact Hc|]. rewrite Hc. reflexivity.
Defined.

(** ** Strings in memory *)

Fixpoint str (m : bytes_mem) (p : Z) (l : list Z) : Prop :=
  match l with
  | [] => m !! p = Some 0
  | b :: l' => m !! p = Some b ∧ b ≠ 0 ∧ str m (p + 1) l'
  end.

Notation len l := (Z.of_nat (length l)).

Lemma str_lookup m p l i : str m p l → 0 <= i <= len l → m !! (p + i) = Some (nth (Z.to_nat i) l 0).
Proof.
  revert p i. induction l as [|b l IH]; intros p i Hs Hi; simpl in *.
  - assert (i = 0) as -> by lia. by rewrite Z.add_0_r.
  - destruct Hs as (Hb & Hb0 & Hs). destruct (decide (i = 0)) as [->|]; [by rewrite Z.add_0_r|].
    replace (p + i) with (p + 1 + (i - 1)) by lia. rewrite (IH (p + 1)) by (done || lia).
    replace (Z.to_nat i) with (S (Z.to_nat (i - 1))) by lia. done.
Qed.

(** The bytes of a string are at different addresses, so memory has room for it. *)
Lemma str_size m p l : str m p l → (length l < size m)%nat.
Proof.
  intros Hs. assert (Hsub : list_to_set (seqZ p (len l + 1)) ⊆ dom m).
  { intros a Ha. apply elem_of_list_to_set, elem_of_seqZ in Ha. apply elem_of_dom.
    exists (nth (Z.to_nat (a - p)) l 0). rewrite <- (str_lookup m p l) by (done || lia). f_equal. lia. }
  apply subseteq_size in Hsub. rewrite size_dom, size_list_to_set, length_seqZ in Hsub by apply NoDup_seqZ. lia.
Qed.

Lemma str_app m p l1 l2 : str m p (l1 ++ l2) → str m (p + len l1) l2.
Proof.
  revert p. induction l1 as [|b l1 IH]; intros p Hs; simpl in *; [by rewrite Z.add_0_r|].
  destruct Hs as (_ & _ & Hs). replace (p + Z.of_nat (S (length l1))) with (p + 1 + len l1) by lia. by apply IH.
Qed.

Lemma str_nonzero m p l : str m p l → Forall (λ b, b ≠ 0) l.
Proof. revert p. induction l as [|b l IH]; intros p Hs; [done|]. destruct Hs as (_ & Hb & Hs). constructor; eauto. Qed.

Lemma load_ok m a b : m !! a = Some b → load a m = Ok (b, m).
Proof. intros Ha. unfold load. by rewrite Ha. Qed.

Lemma rounds_ok m : rounds m = Ok (S (size m), m).
Proof. done. Qed.

Lemma assert_nonnull_ok p m : p ≠ null → assert_nonnull p m = Ok (tt, m).
Proof. intros Hp. unfold assert_nonnull. by rewrite (proj2 (Z.eqb_neq _ _) Hp). Qed.

Lemma strlen_loop_spec fuel p l m : str m p l → (length l < fuel)%nat → strlen_loop fuel p m = Ok (p + len l, m).
Proof.
  revert p l. induction fuel as [|fuel IH]; intros p l Hs Hf; [lia|]. cbn [strlen_loop]. destruct l as [|b l]; simpl in Hs.
  - rewrite (bind_ok _ _ _ _ _ (load_ok _ _ _ Hs)). simpl. unfold ret. by rewrite Z.add_0_r.
  - destruct Hs as (Hb & Hb0 & Hs). rewrite (bind_ok _ _ _ _ _ (load_ok _ _ _ Hb)), (proj2 (Z.eqb_neq _ _) Hb0).
    rewrite (IH _ l) by (done || (simpl in Hf; lia)). do 2 f_equal. simpl length. lia.
Qed.

Lemma strlen_spec p l m : p ≠ null → str m p l → strlen p m = Ok (len l, m).
Proof.
  intros Hp Hs. unfold strlen. rewrite (bind_ok _ _ _ _ _ (assert_nonnull_ok p m Hp)), (bind_ok _ _ _ _ _ (rounds_ok m)).
  pose proof (str_size m p l Hs). rewrite (bind_ok _ _ _ _ _ (strlen_loop_spec (S (size m)) p l m Hs ltac:(lia))).
  unfold ret. do 2 f_equal. lia.
Qed.

(** The lexicographic comparison of byte lists. *)
Fixpoint lex (a b : list Z) : Z :=
  match a, b with
  | [], [] => 0
  | [], _ => -1
  | _, [] => 1
  | x :: a', y :: b' => if x =? y then lex a' b' else if x <? y then -1 else 1
  end.

Lemma strcmp_loop_spec fuel a b la lb m :
  str m a la → str m b lb → Forall (λ x, 0 <= x) la → Forall (λ x, 0 <= x) lb → (length la < fuel)%nat →
  strcmp_loop fuel a b m = Ok (lex la lb, m).
Proof.
  revert a b la lb. induction fuel as [|fuel IH]; intros a b la lb Ha Hb Hpa Hpb Hf; [lia|]. cbn [strcmp_loop].
  destruct la as [|x la], lb as [|y lb]; simpl in Ha, Hb.
  - rewrite (bind_ok _ _ _ _ _ (load_ok _ _ _ Ha)), (bind_ok _ _ _ _ _ (load_ok _ _ _ Hb)). done.
  - destruct Hb as (Hy & Hy0 & _). apply Forall_cons in Hpb as [Hy1 _].
    rewrite (bind_ok _ _ _ _ _ (load_ok _ _ _ Ha)), (bind_ok _ _ _ _ _ (load_ok _ _ _ Hy)). simpl.
    rewrite (proj2 (Z.ltb_lt 0 y)) by lia. done.
  - destruct Ha as (Hx & Hx0 & _). apply Forall_cons in Hpa as [Hx1 _].
    rewrite (bind_ok _ _ _ _ _ (load_ok _ _ _ Hx)), (bind_ok _ _ _ _ _ (load_ok _ _ _ Hb)).
    rewrite (proj2 (Z.eqb_neq _ _) Hx0). simpl. rewrite (proj2 (Z.ltb_ge x 0)), (proj2 (Z.ltb_lt 0 x)) by lia. done.
  - destruct Ha as (Hx & Hx0 & Ha), Hb as (Hy & Hy0 & Hb). apply Forall_cons in Hpa as [_ Hpa], Hpb as [_ Hpb].
    rewrite (bind_ok _ _ _ _ _ (load_ok _ _ _ Hx)), (bind_ok _ _ _ _ _ (load_ok _ _ _ Hy)).
    rewrite (proj2 (Z.eqb_neq _ _) Hx0). simpl. destruct (Z.eqb_spec x y); [apply IH; try done; simpl in Hf; lia|].
    destruct (Z.ltb_spec x y); [done|]. by rewrite (proj2 (Z.ltb_lt y x)) by lia.
Qed.

(** [strcmp] returns the lexicographic comparison of its two strings as unsigned
    bytes, [memcmp] that of two blocks; in particular they return zero exactly for
    equal contents. *)
Theorem strcmp_lexicographic a b la lb m :
  a ≠ null → b ≠ null → str m a la → str m b lb → Forall (λ x, 0 <= x) la → Forall (λ x, 0 <= x) lb →
  strcmp a b m = Ok (lex la lb, m) ∧ (lex la lb = 0 ↔ la = lb) ∧
  ∀ n, 0 <= n <= len la → n <= len lb → memcmp a b n m = Ok (lex (take (Z.to_nat n) la) (take (Z.to_nat n) lb), m).
Proof.
  intros Ha Hb Hsa Hsb Hpa Hpb. split; [|split].
  - unfold strcmp. rewrite (bind_ok _ _ _ _ _ (assert_nonnull_ok a m Ha)), (bind_ok _ _ _ _ _ (assert_nonnull_ok b m Hb)), (bind_ok _ _ _ _ _ (rounds_ok m)).
    pose proof (str_size m a la Hsa). apply strcmp_loop_spec; try done. lia.
  - clear. revert lb. induction la as [|x la IH]; intros [|y lb]; simpl; [done..|]. destruct (Z.eqb_spec x y) as [->|].
    + rewrite IH. split; [by intros ->|by intros [= ->]].
    + destruct (x <? y); split; try done; intros [= ? ?]; done.
  - intros n Hn Hn'. unfold memcmp. rewrite (bind_ok _ _ _ _ _ (assert_block_ok a n m Ha)), (bind_ok _ _ _ _ _ (assert_block_ok b n m Hb)).
    clear Ha Hb Hpa Hpb. assert (Hk : (Z.to_nat n <= length la)%nat ∧ (Z.to_nat n <= length lb)%nat) by lia. clear Hn Hn'. revert Hk.
    generalize (Z.to_nat n) as k. intros k. revert a b la lb Hsa Hsb. induction k as [|k IH]; intros a b la lb Hsa Hsb [Hka Hkb]; [done|].
    destruct la as [|x la], lb as [|y lb]; simpl in Hka, Hkb; try lia. destruct Hsa as (Hx & _ & Hsa), Hsb as (Hy & _ & Hsb). cbn [compare_blocks].
    rewrite (bind_ok _ _ _ _ _ (load_ok _ _ _ Hx)), (bind_ok _ _ _ _ _ (load_ok _ _ _ Hy)). simpl.
    destruct (Z.eqb_spec x y); [apply IH; done || lia|]. destruct (Z.ltb_spec y x), (Z.ltb_spec x y); try done; lia.
Qed.

(** ** Searching *)

Definition mem_of (c : Z) (l : list Z) : bool := bool_decide (c ∈ l).

Lemma strchr_loop_spec fuel p l c m :
  str m p l → p ≠ null → (∀ i, 0 <= i <= len l → p + i ≠ null) → (length l < fuel)%nat →
  ∃ r, strchr_loop fuel p c m = Ok (r, m) ∧ (r = null ↔ ¬ (c = 0 ∨ c ∈ l)) ∧ (r ≠ null → p <= r <= p + len l).
Proof.
  revert p l. induction fuel as [|fuel IH]; intros p l Hs Hp Hn Hf; [lia|]. cbn [strchr_loop]. destruct l as [|b l]; simpl in Hs.
  - rewrite (bind_ok _ _ _ _ _ (load_ok _ _ _ Hs)). rewrite (Z.eqb_sym 0 c). destruct (Z.eqb_spec c 0) as [->|Hc].
    + exists p. split; [done|]. split; [naive_solver|simpl; lia].
    + exists null. split; [done|]. split; [|done]. split; [|done]. intros _ [?|Hin]; [done|by apply elem_of_nil in Hin].
  - destruct Hs as (Hb & Hb0 & Hs). rewrite (bind_ok _ _ _ _ _ (load_ok _ _ _ Hb)). destruct (Z.eqb_spec b c) as [->|Hbc].
    + exists p. split; [done|]. split; [|simpl; lia]. split; [done|]. intros Hno. exfalso. apply Hno. right. left.
    + rewrite (proj2 (Z.eqb_neq _ _) Hb0).
      destruct (IH (p + 1) l Hs) as (r & E & Hr & Hrange).
      * apply (Hn 1). simpl length. lia.
      * intros i Hi. replace (p + 1 + i) with (p + (1 + i)) by lia. apply Hn. simpl length. lia.
      * simpl in Hf. lia.
      * exists r. split; [done|]. split; [|intros Hne; specialize (Hrange Hne); simpl length; lia].
        rewrite Hr. rewrite elem_of_cons. naive_solver.
Qed.

(** A string does not run around the address space. *)
Definition placed_str (m : bytes_mem) (p : Z) (l : list Z) : Prop := str m p l ∧ 0 < p.

Lemma strchr_spec p l c m :
  placed_str m p l → 0 <= c < 256 → ∃ r, strchr p c m = Ok (r, m) ∧ (r =? null) = negb ((c =? 0) || mem_of c l).
Proof.
  intros [Hs Hp] Hc. unfold strchr. rewrite (bind_ok _ _ _ _ _ (assert_nonnull_ok p m ltac:(unfold null; lia))), (bind_ok _ _ _ _ _ (rounds_ok m)).
  pose proof (str_size m p l Hs). destruct (strchr_loop_spec (S (size m)) p l (u8 c) m Hs) as (r & E & Hr & _); [unfold null; lia|unfold null; lia|lia|].
  rewrite E. exists r. split; [done|]. replace (u8 c) with c in Hr by mod_lia. unfold mem_of.
  destruct (Z.eqb_spec r null), (Z.eqb_spec c 0); case_bool_decide; simpl; naive_solver.
Qed.

Lemma strcmp_lexicographic_witness :
  let m := list_to_map [(10, 97); (11, 98); (12, 0); (20, 97); (21, 200); (22, 99); (23, 0)] : bytes_mem in
  strcmp 10 20 m = Ok (-1, m) ∧ memcmp 10 20 1 m = Ok (0, m).
Proof.
  intros m. destruct (strcmp_lexicographic 10 20 [97; 98] [97; 200; 99] m) as (E & _ & Hm);
    [done|done|by repeat split|by repeat split|repeat constructor; lia|repeat constructor; lia|].
  split; [exact E|]. apply (Hm 1); simpl; lia.
Defined.

(** ** Tokens *)

(** The fields of [l] between the bytes of [d], and the tokens: the fields that are not
    empty. *)
Fixpoint fields (d l : list Z) : list (list Z) :=
  match l with
  | [] => [[]]
  | b :: l' =>
      if mem_of b d then [] :: fields d l'
      else match fields d l' with f :: fs => (b :: f) :: fs | [] => [[b]] end
  end.
Definition nonempty (f : list Z) : bool := match f with [] => false | _ => true end.
Definition tokens (d l : list Z) : list (list Z) := List.filter nonempty (fields d l).

Fixpoint skip (d l : list Z) : list Z :=
  match l with [] => [] | b :: l' => if mem_of b d then skip d l' else l end.
Fixpoint word (d l : list Z) : list Z :=
  match l with [] => [] | b :: l' => if mem_of b d then [] else b :: word d l' end.

Lemma tokens_skip d l : tokens d l = tokens d (skip d l).
Proof.
  induction l as [|b l IH]; [done|]. cbn [skip]. unfold tokens in *. destruct (mem_of b d) eqn:E; [|done].
  cbn [fields]. rewrite E. simpl. exact IH.
Qed.

Lemma fields_word d l : fields d l = word d l :: (if (length (word d l) <? length l)%nat then fields d (drop (S (length (word d l))) l) else []).
Proof.
  induction l as [|b l IH]; [done|]. cbn [fields word]. destruct (mem_of b d); [done|]. rewrite IH. simpl.
  destruct (Nat.ltb_spec (length (word d l)) (length l)), (Nat.ltb_spec (S (length (word d l))) (S (length l))); done || lia.
Qed.

Lemma skip_cons d l b l' : skip d l = b :: l' → mem_of b d = false ∧ word d (skip d l) ≠ [].
Proof.
  induction l as [|x l IH]; [done|]. cbn [skip]. destruct (mem_of x d) eqn:E; [exact IH|]. intros [= <- <-]. split; [done|]. cbn [word]. by rewrite E.
Qed.

(** The tokens are found one after the other. *)
Lemma tokens_step d l :
  tokens d l = match skip d l with
               | [] => []
               | l1 => word d l1 :: tokens d (drop (S (length (word d l1))) l1)
               end.
Proof.
  rewrite tokens_skip. destruct (skip d l) as [|b l'] eqn:E; [done|]. destruct (skip_cons d l b l' E) as [_ Hw]. rewrite E in Hw.
  unfold tokens at 1. rewrite fields_word. cbn [List.filter].
  destruct (word d (b :: l')) as [|w ws] eqn:Ew; [done|]. cbn [nonempty]. f_equal. unfold tokens.
  destruct (Nat.ltb_spec (length (w :: ws)) (length (b :: l'))) as [|Hge]; [done|]. rewrite drop_ge by (simpl in *; lia). done.
Qed.

Lemma skip_suffix d l : ∃ pre, l = pre ++ skip d l.
Proof. induction l as [|b l [pre IH]]; [by exists []|]. cbn [skip]. destruct (mem_of b d); [exists (b :: pre); simpl; congruence|by exists []]. Qed.

Lemma word_prefix d l : ∃ post, l = word d l ++ post ∧ (post = [] ∨ ∃ b post', post = b :: post' ∧ mem_of b d = true).
Proof.
  induction l as [|b l (post & IH & Hp)]; [exists []; auto|]. cbn [word]. destruct (mem_of b d) eqn:E.
  - exists (b :: l). split; [done|]. right. eauto.
  - exists post. split; [simpl; congruence|done].
Qed.

Definition byte (b : Z) : Prop := 0 <= b < 256.

Lemma skip_delimiters_spec fuel p l q d m :
  str m p l → placed_str m q d → Forall byte l → (length l < fuel)%nat →
  skip_delimiters fuel p q m = Ok ((bool_decide (skip d l = []), p + (len l - len (skip d l))), m).
Proof.
  revert p l. induction fuel as [|fuel IH]; intros p l Hs Hd Hb Hf; [lia|]. cbn [skip_delimiters]. destruct l as [|b l]; simpl in Hs.
  - rewrite (bind_ok _ _ _ _ _ (load_ok _ _ _ Hs)). destruct (strchr_spec q d 0 m Hd ltac:(lia)) as (r & Er & Hr).
    rewrite (bind_ok _ _ _ _ _ Er), Hr. simpl. unfold ret. do 3 f_equal. lia.
  - destruct Hs as (Hlb & Hb0 & Hs). apply Forall_cons in Hb as [Hb1 Hb]. rewrite (bind_ok _ _ _ _ _ (load_ok _ _ _ Hlb)).
    destruct (strchr_spec q d b m Hd Hb1) as (r & Er & Hr). rewrite (bind_ok _ _ _ _ _ Er), Hr, (proj2 (Z.eqb_neq _ _) Hb0). cbn [orb skip].
    destruct (mem_of b d); cbn [negb].
    + rewrite (IH _ l) by (done || (simpl in Hf; lia)). do 3 f_equal. simpl length. lia.
    + unfold ret. rewrite bool_decide_eq_false_2 by done. do 3 f_equal. lia.
Qed.

Lemma skip_token_spec fuel p l q d m :
  str m p l → placed_str m q d → Forall byte l → (length l < fuel)%nat → skip_token fuel p q m = Ok (p + len (word d l), m).
Proof.
  revert p l. induction fuel as [|fuel IH]; intros p l Hs Hd Hb Hf; [lia|]. cbn [skip_token]. destruct l as [|b l]; simpl in Hs.
  - rewrite (bind_ok _ _ _ _ _ (load_ok _ _ _ Hs)). destruct (strchr_spec q d 0 m Hd ltac:(lia)) as (r & Er & Hr).
    rewrite (bind_ok _ _ _ _ _ Er), Hr. simpl. unfold ret. do 2 f_equal. lia.
  - destruct Hs as (Hlb & Hb0 & Hs). apply Forall_cons in Hb as [Hb1 Hb]. rewrite (bind_ok _ _ _ _ _ (load_ok _ _ _ Hlb)).
    destruct (strchr_spec q d b m Hd Hb1) as (r & Er & Hr). rewrite (bind_ok _ _ _ _ _ Er), Hr, (proj2 (Z.eqb_neq _ _) Hb0). cbn [orb word].
    destruct (mem_of b d); cbn [negb].
    + unfold ret. do 2 f_equal. simpl. lia.
    + rewrite (IH _ l) by (done || (simpl in Hf; lia)). do 2 f_equal. simpl length. lia.
Qed.

Lemma str_ext m m' p l : str m p l → (∀ a, p <= a <= p + len l → m' !! a = m !! a) → str m' p l.
Proof.
  revert p. induction l as [|b l IH]; intros p Hs Hext; simpl in *; [rewrite Hext by lia; done|].
  destruct Hs as (H1 & H2 & H3). split; [rewrite Hext by lia; done|]. split; [done|]. apply IH; [done|]. intros a Ha. apply Hext. lia.
Qed.

Lemma nth_lookup_or_length_eq (l : list Z) i : (i < length l)%nat → l !! i = Some (nth i l 0).
Proof. revert i. induction l as [|b l IH]; intros [|i] Hi; simpl in *; try lia; [done|]. apply IH. lia. Qed.

Lemma str_intro m p l :
  Forall (λ b, b ≠ 0) l → (∀ i, 0 <= i < len l → m !! (p + i) = Some (nth (Z.to_nat i) l 0)) → m !! (p + len l) = Some 0 → str m p l.
Proof.
  intros Hz. revert p. induction Hz as [|b l Hb _ IH]; intros p Hl He; simpl in *; [by rewrite Z.add_0_r in He|].
  split; [rewrite <- (Z.add_0_r p); apply (Hl 0); lia|]. split; [done|]. apply IH.
  - intros i Hi. replace (p + 1 + i) with (p + (1 + i)) by lia. rewrite (Hl (1 + i)) by lia.
    replace (Z.to_nat (1 + i)) with (S (Z.to_nat i)) by lia. done.
  - rewrite <- He. f_equal. lia.
Qed.

(** Cutting a string in two by writing a null byte over one of its bytes. *)
Lemma str_cut m p l1 b l2 : str m p (l1 ++ b :: l2) →
  let m' := <[p + len l1 := 0]> m in str m' p l1 ∧ str m' (p + len l1 + 1) l2.
Proof.
  intros Hs m'. pose proof (str_app m p l1 (b :: l2) Hs) as (_ & _ & H2). split.
  - unfold m'. clear H2. revert p Hs m'. induction l1 as [|x l1 IH]; intros p Hs m'; simpl.
    + by rewrite Z.add_0_r, lookup_insert_eq.
    + destruct Hs as (H1 & Hx & Hs). split; [rewrite lookup_insert_ne by lia; done|]. split; [done|].
      replace (p + Z.of_nat (S (length l1))) with (p + 1 + len l1) by lia. by apply IH.
  - eapply str_ext; [exact H2|]. intros a Ha. unfold m'. by rewrite lookup_insert_ne by lia.
Qed.

(** One call of [strtok_r]. *)
Lemma strtok_r_run s p l q d save m :
  (if s =? null then save else s) = p → placed_str m p l → placed_str m q d → Forall byte l →
  match skip d l with
  | [] => ∃ sv, strtok_r s q save m = Ok ((null, sv), m)
  | l1 => ∃ sv m', let rest := drop (S (length (word d l1))) l1 in let tok := p + (len l - len l1) in
      strtok_r s q save m = Ok ((tok, sv), m') ∧ str m' tok (word d l1) ∧ placed_str m' sv rest ∧
      (rest = [] ∨ tok + len (word d l1) < sv) ∧ sv + len rest <= p + len l ∧ p <= sv ∧
      ∀ a, ¬ (p <= a < p + len l) → m' !! a = m !! a
  end.
Proof.
  intros Es [Hs Hp] Hd Hb. unfold strtok_r. rewrite (bind_ok _ _ _ _ _ (assert_nonnull_ok q m ltac:(destruct Hd; unfold null; lia))).
  rewrite Es. rewrite (bind_ok _ _ _ _ _ (assert_nonnull_ok p m ltac:(unfold null; lia))), (bind_ok _ _ _ _ _ (rounds_ok m)).
  pose proof (str_size m p l Hs) as Hsz. rewrite (bind_ok _ _ _ _ _ (skip_delimiters_spec (S (size m)) p l q d m Hs Hd Hb ltac:(lia))).
  destruct (skip_suffix d l) as [pre Epre]. destruct (skip d l) as [|b0 l0] eqn:Esk; [rewrite bool_decide_eq_true_2 by done; by eexists|].
  rewrite bool_decide_eq_false_2 by done. set (l1 := b0 :: l0) in *.
  assert (Htok : p + (len l - len l1) = p + len pre) by (rewrite Epre, length_app; lia).
  rewrite Htok. rewrite Epre in Hs, Hb |- *. pose proof (str_app m p pre l1 Hs) as Hs1. apply Forall_app in Hb as [_ Hb1].
  pose proof (str_size _ _ _ Hs1). rewrite (bind_ok _ _ _ _ _ (skip_token_spec (S (size m)) _ l1 q d m Hs1 Hd Hb1 ltac:(lia))).
  destruct (word_prefix d l1) as (post & Ep & Hpost). set (w := word d l1) in *. rewrite length_app.
  destruct Hpost as [->|(b & post' & -> & Hbd)].
  - rewrite app_nil_r in Ep.
    assert (Hend : m !! (p + len pre + len w) = Some 0).
    { rewrite <- Ep. rewrite (str_lookup _ _ _ _ Hs1) by lia. by rewrite nth_overflow by lia. }
    rewrite (bind_ok _ _ _ _ _ (load_ok _ _ _ Hend)). cbn [Z.eqb negb]. do 2 eexists. cbv zeta. split; [done|].
    rewrite (drop_ge l1) by (rewrite Ep; lia). rewrite <- Ep. split_and!; [done|split; [|lia]|by left|simpl; lia|lia|done].
    rewrite <- Ep in Hend. exact Hend.
  - assert (Hbb : m !! (p + len pre + len w) = Some b).
    { rewrite (str_lookup _ _ _ _ Hs1) by (rewrite Ep, length_app; simpl; lia). rewrite Ep, app_nth2 by lia.
      replace (Z.to_nat (len w) - length w)%nat with O by lia. done. }
    assert (Hb0 : b ≠ 0).
    { pose proof (str_nonzero _ _ _ Hs1) as Hnz. rewrite Ep in Hnz. apply Forall_app in Hnz as [_ Hnz]. by apply Forall_cons in Hnz as [? _]. }
    rewrite (bind_ok _ _ _ _ _ (load_ok _ _ _ Hbb)), (proj2 (Z.eqb_neq _ _) Hb0). cbn [negb].
    erewrite bind_ok by (unfold store; by rewrite Hbb). do 2 eexists. cbv zeta. split; [done|].
    assert (Edrop : drop (S (length w)) l1 = post').
    { rewrite Ep. rewrite drop_app_ge by lia. replace (S (length w) - length w)%nat with 1%nat by lia. done. }
    rewrite Edrop. rewrite Ep in Hs1. destruct (str_cut m (p + len pre) w b post' Hs1) as [Hw Hpost].
    assert (Hl1 : len l1 = len w + 1 + len post') by (rewrite Ep, length_app; simpl; lia).
    split_and!; [exact Hw|split; [exact Hpost|lia]|right; lia|lia|lia|].
    intros a Ha. rewrite lookup_insert_ne by lia. done.
Qed.

Lemma strtok_all_spec fuel s p l q d save m :
  (length l < fuel)%nat → (if s =? null then save else s) = p → placed_str m p l → placed_str m q d → Forall byte l →
  q + len d < p ∨ p + len l < q →
  ∃ ps m', strtok_all fuel s q save m = Ok (ps, m') ∧ Forall2 (str m') ps (tokens d l) ∧
    Forall (λ a, p <= a <= p + len l) ps ∧ ∀ a, ¬ (p <= a < p + len l) → m' !! a = m !! a.
Proof.
  revert s p l save m. induction fuel as [|fuel IH]; intros s p l save m Hf Es Hs Hd Hb Hdis; [lia|]. cbn [strtok_all].
  pose proof (strtok_r_run s p l q d save m Es Hs Hd Hb) as Hrun. rewrite tokens_step.
  destruct (skip d l) as [|b0 l0] eqn:Esk.
  { destruct Hrun as (sv & E). rewrite (bind_ok _ _ _ _ _ E). exists [], m. by repeat split. }
  set (l1 := b0 :: l0) in *. destruct Hrun as (sv & m1 & Hrun). cbv zeta in Hrun. set (w := word d l1) in *.
  set (rest := drop (S (length w)) l1) in *. destruct Hrun as (E & Hw & Hrest & Hsep & Hend & Hlo & Hout).
  set (tok := p + (len l - len l1)) in *. destruct (skip_suffix d l) as [pre Epre]. rewrite Esk in Epre.
  assert (Hlen : len l = len pre + len l1) by (rewrite Epre, length_app; unfold l1; lia).
  assert (Htok : 0 < tok) by (destruct Hs; unfold tok; lia).
  rewrite (bind_ok _ _ _ _ _ E), (proj2 (Z.eqb_neq tok null)) by (unfold null; lia).
  destruct (IH null sv rest sv m1) as (ps & m2 & E2 & Hps & Hin & Hout2).
  - unfold rest, l1. rewrite length_drop. unfold l1 in Hlen. simpl in *. lia.
  - done.
  - done.
  - destruct Hd as [Hd Hq]. split; [|done]. eapply str_ext; [exact Hd|]. intros a Ha. apply Hout. lia.
  - apply Forall_drop. rewrite Epre in Hb. by apply Forall_app in Hb as [_ Hb].
  - lia.
  - rewrite (bind_ok _ _ _ _ _ E2). exists (tok :: ps), m2. split; [done|]. split_and!.
    + constructor; [|done]. eapply str_ext; [exact Hw|]. intros a Ha. apply Hout2.
      fold w in Ha. destruct Hsep as [Er|Hsep]; [rewrite Er; simpl; lia|lia].
    + constructor; [unfold tok; lia|]. eapply Forall_impl; [exact Hin|]. intros a Ha. cbv beta in Ha. lia.
    + intros a Ha. rewrite Hout2 by lia. apply Hout. lia.
Qed.

(** C40: calling [strtok_r] until it returns a null pointer yields, in order, pointers
    to exactly the non-empty fields of the string between delimiters, each of them
    null-terminated in place; the calls end, and change no byte outside the string. *)
Theorem strtok_r_yields_tokens p l q d save m :
  placed_str m p l → placed_str m q d → Forall byte l → q + len d < p ∨ p + len l < q →
  ∃ ps m', strtok_all (S (length l)) p q save m = Ok (ps, m') ∧ Forall2 (str m') ps (tokens d l) ∧
    ∀ a, ¬ (p <= a < p + len l) → m' !! a = m !! a.
Proof.
  intros Hs Hd Hb Hdis. destruct (strtok_all_spec (S (length l)) p p l q d save m) as (ps & m' & E & Hps & _ & Hout); try done; [lia| |by exists ps, m'].
  destruct Hs as [_ Hp]. by rewrite (proj2 (Z.eqb_neq p null)) by (unfold null; lia).
Qed.

(** "a  bc" cut at spaces. *)
Lemma strtok_r_yields_tokens_witness :
  let m := list_to_map [(10, 97); (11, 32); (12, 32); (13, 98); (14, 99); (15, 0); (20, 32); (21, 0)] : bytes_mem in
  ∃ ps m', strtok_all 6 10 20 0 m = Ok (ps, m') ∧ ps = [10; 13] ∧ Forall2 (str m') ps [[97]; [98; 99]].
Proof.
  intros m. destruct (strtok_r_yields_tokens 10 [97; 32; 32; 98; 99] 20 [32] 0 m) as (ps & m' & E & Hf & _);
    [by repeat split|by repeat split|repeat constructor; lia|right; simpl; lia|].
  exists ps, m'. split; [exact E|]. split; [|exact Hf]. vm_compute in E. by injection E as <- _.
Defined.

(** ** Bounded copies *)

(** [strlcpy] returns the length of the source and leaves in the destination the
    longest prefix of the source that fits with its terminator into [size] bytes; it
    writes nothing else. *)
Theorem strlcpy_truncates dst src l n m :
  placed_str m src l → 0 < dst → 0 < n → block m dst n → dst + n <= src ∨ src + len l < dst →
  ∃ m', strlcpy dst src n m = Ok (len l, m') ∧ str m' dst (take (Z.to_nat (n - 1)) l) ∧
    ∀ a, ¬ (dst <= a < dst + n) → m' !! a = m !! a.
Proof.
  intros [Hs Hp] Hd Hn Hb Hdis. unfold strlcpy. rewrite (bind_ok _ _ _ _ _ (assert_nonnull_ok dst m ltac:(unfold null; lia))).
  rewrite (bind_ok _ _ _ _ _ (assert_nonnull_ok src m ltac:(unfold null; lia))), (bind_ok _ _ _ _ _ (strlen_spec src l m ltac:(unfold null; lia) Hs)).
  rewrite (proj2 (Z.ltb_lt 0 n) Hn). set (k := if len l <? n - 1 then len l else n - 1).
  assert (Hk : k = Z.min (len l) (n - 1)) by (unfold k; destruct (Z.ltb_spec (len l) (n - 1)); lia).
  destruct (memcpy_run dst src k m) as (m1 & E & Hc); [lia|unfold null; lia|unfold null; lia| |intros i Hi; apply Hb; lia|lia|].
  { intros i Hi. rewrite (str_lookup _ _ _ _ Hs) by lia. by eexists. }
  assert (Hst : is_Some (m1 !! (dst + k))).
  { rewrite Hc. destruct (decide _); [lia|]. apply Hb. lia. }
  destruct Hst as [c Hst]. erewrite bind_ok by (rewrite (bind_ok _ _ _ _ _ E); unfold store; by rewrite Hst).
  eexists. split; [done|]. split.
  - apply str_intro.
    + apply Forall_take, (str_nonzero _ _ _ Hs).
    + intros i Hi. rewrite length_take in Hi. rewrite lookup_insert_ne by lia. rewrite Hc. destruct (decide _); [|lia].
      rewrite (nth_lookup_Some (take _ l) (Z.to_nat i) 0 (nth (Z.to_nat i) l 0)).
      * replace (src + (dst + i - dst)) with (src + i) by lia. apply (str_lookup _ _ _ _ Hs). lia.
      * rewrite lookup_take_lt by lia. apply nth_lookup_or_length_eq. lia.
    + replace (dst + len (take (Z.to_nat (n - 1)) l)) with (dst + k) by (rewrite length_take; lia). by rewrite lookup_insert_eq.
  - intros a Ha. rewrite lookup_insert_ne by lia. rewrite Hc. destruct (decide _); [lia|done].
Qed.

Lemma strlcpy_truncates_witness :
  let m := list_to_map [(10, 97); (11, 98); (12, 99); (13, 0); (20, 7); (21, 7); (22, 7)] : bytes_mem in
  ∃ m', strlcpy 20 10 3 m = Ok (3, m') ∧ str m' 20 [97; 98].
Proof.
  intros m. destruct (strlcpy_truncates 20 10 [97; 98; 99] 3 m) as (m' & E & Hs & _); [by repeat split|lia|lia| |right; simpl; lia|].
  - intros i Hi. assert (i = 0 ∨ i = 1 ∨ i = 2) as [->|[->| ->]] by lia; by eexists.
  - exists m'. split; [exact E|exact Hs].
Defined.

(** [strnlen] looks at the byte after the first [maxlen] before it compares the length:
    on a block of exactly [maxlen] bytes without a null byte it reads past the block. *)
Lemma strnlen_reads_past_maxlen :
  let m := list_to_map [(10, 97); (11, 98)] : bytes_mem in strnlen 10 2 m = Fail Undef.
Proof. vm_compute. reflexivity. Qed.
