(* ===== verification/StdlibC.v ===== *)
(** * Integers from strings, sorting and searching (src/lib/stdlib.c)

    The arrays of [sort] and [binary_search] are lists of their elements; the size of an
    element plays no part beyond moving whole elements.  Indexes of the heap are
    1-based, as in the code.  The proofs: the heap sort terminates and yields a sorted
    permutation, the binary search finds a match exactly when there is one. *)

From S2P Require Import Prelude Strings.
Local Open Scope Z_scope.

(** ** [atoi] *)

Definition isspace (c : Z) : bool := (c =? 32) || (c =? 12) || (c =? 10) || (c =? 13) || (c =? 9) || (c =? 11).
Definition isdigit (c : Z) : bool := (48 <=? c) && (c <=? 57).

Fixpoint skip_space (fuel : nat) (s : Z) : B Z :=
  match fuel with
  | O => fail NoFuel
  | S fuel => let* c := load s in if isspace c then skip_space fuel (s + 1) else ret s
  end.

(** Arithmetic on [int] that leaves its range is undefined. *)
Definition in_int (x : Z) : B Z := if (- 2 ^ 31 <=? x) && (x <? 2 ^ 31) then ret x else fail Undef.

Fixpoint parse_digits (fuel : nat) (s value : Z) : B Z :=
  match fuel with
  | O => fail NoFuel
  | S fuel =>
      let* c := load s in
      if isdigit c then
        let* v := in_int (value * 10) in
        let* v := in_int (v - (c - 48)) in
        parse_digits fuel (s + 1) v
      else ret value
  end.

Definition atoi (s : Z) : B Z :=
  assert_nonnull s ;;;
  let* n := rounds in
  let* s := skip_space n s in
  let* c := load s in
  let negative := c =? 45 in
  let s := if (c =? 43) || (c =? 45) then s + 1 else s in
  let* value := parse_digits n s 0 in
  if negative then ret value else in_int (- value).

(** ** Sorting *)

Section sorting.
Context {A : Type} (compare : A → A → Z).

(** The element with 1-based index [i]. *)
Definition at_ (array : list A) (i : Z) : res A := if 1 <=? i then rneed (array !! Z.to_nat (i - 1)) else Fail Undef.

Definition do_swap (array : list A) (a_idx b_idx : Z) : res (list A) :=
  let? a := at_ array a_idx in
  let? b := at_ array b_idx in
  Ok (<[Z.to_nat (b_idx - 1) := a]> (<[Z.to_nat (a_idx - 1) := b]> array)).

Definition do_compare (array : list A) (a_idx b_idx : Z) : res Z :=
  let? a := at_ array a_idx in
  let? b := at_ array b_idx in
  Ok (compare a b).

(** [idx <= cnt && do_compare (array, idx, max) > 0 ? idx : max] *)
Definition larger (array : list A) (cnt idx max : Z) : res Z :=
  if idx <=? cnt then let? c := do_compare array idx max in Ok (if 0 <? c then idx else max) else Ok max.

(** The element sinks at least one level of the heap in each round. *)
Fixpoint heapify (fuel : nat) (array : list A) (i cnt : Z) : res (list A) :=
  match fuel with
  | O => Fail NoFuel
  | S fuel =>
      let left := u32 (2 * i) in
      let right := u32 (2 * i + 1) in
      let? max := larger array cnt left i in
      let? max := larger array cnt right max in
      if max =? i then Ok array
      else let? array := do_swap array i max in heapify fuel array max cnt
  end.

(** [for (i = n; i > 0; i--) heapify (array, i, cnt)] *)
Fixpoint build_heap (n : nat) (array : list A) (cnt : Z) : res (list A) :=
  match n with
  | O => Ok array
  | S n' => let? array := heapify (S (Z.to_nat cnt)) array (Z.of_nat n) cnt in build_heap n' array cnt
  end.

(** [for (i = n + 1; i > 1; i--)] *)
Fixpoint sort_heap (n : nat) (array : list A) : res (list A) :=
  match n with
  | O => Ok array
  | S n' =>
      let i := Z.of_nat n + 1 in
      let? array := do_swap array 1 i in
      let? array := heapify (S (Z.to_nat (i - 1))) array 1 (i - 1) in
      sort_heap n' array
  end.

Definition sort (array : list A) : res (list A) :=
  let cnt := Z.of_nat (length array) in
  let? array := build_heap (Z.to_nat (cnt / 2)) array cnt in
  sort_heap (Z.to_nat (cnt - 1)) array.

(** [qsort] passes the comparison function through [compare_thunk]. *)
Definition qsort (array : list A) : res (list A) := sort array.

(** ** Searching: the index of a match. *)

Fixpoint search_loop (fuel : nat) (key : A) (array : list A) (first last : Z) : res (option Z) :=
  match fuel with
  | O => Fail NoFuel
  | S fuel =>
      if first <? last then
        let range := last - first in
        let middle := first + range / 2 in
        let? m := rneed (array !! Z.to_nat middle) in
        let cmp := compare key m in
        if cmp <? 0 then search_loop fuel key array first middle
        else if 0 <? cmp then search_loop fuel key array (middle + 1) last
        else Ok (Some middle)
      else Ok None
  end.

Definition binary_search (key : A) (array : list A) : res (option Z) :=
  search_loop (S (length array)) key array 0 (Z.of_nat (length array)).

Definition bsearch (key : A) (array : list A) : res (option Z) := binary_search key array.
End sorting.

(** ** The heap sort sorts *)

(** What [sort] and [binary_search] require of [compare]: its sign is that of a total
    preorder. *)
Class Comparison {A} (compare : A → A → Z) : Prop := {
  cmp_total : ∀ a b, compare a b <= 0 ∨ compare b a <= 0;
  cmp_trans : ∀ a b c, compare a b <= 0 → compare b c <= 0 → compare a c <= 0;
  cmp_sign : ∀ a b, 0 < compare a b ↔ compare b a < 0
}.

Section sort_proofs.
Context {A : Type} (compare : A → A → Z) `{Comparison A compare}.
Notation le a b := (compare a b <= 0).

Lemma cmp_refl a : le a a.
Proof. by destruct (cmp_total a a). Qed.

Lemma cmp_gt a b : 0 < compare a b → le b a.
Proof. intros Hc. apply cmp_sign in Hc. lia. Qed.

Notation len l := (Z.of_nat (length l)).

(** Element [c] is no larger than element [p] (1-based). *)
Definition ge_at (l : list A) (p c : Z) : Prop :=
  ∀ x y, l !! Z.to_nat (p - 1) = Some x → l !! Z.to_nat (c - 1) = Some y → le y x.
Definition child (c p : Z) : Prop := c = 2 * p ∨ c = 2 * p + 1.

(** The elements from index [k] on are in heap order; the same but for element [i]. *)
Definition heap_ok (l : list A) (k : Z) : Prop := ∀ i c, k <= i → child c i → c <= len l → ge_at l i c.
Record heap_hole (l : list A) (k i : Z) : Prop := {
  hole_rest : ∀ j c, k <= j → j ≠ i → child c j → c <= len l → ge_at l j c;
  hole_skip : ∀ p c, k <= p → child i p → child c i → c <= len l → ge_at l p c
}.

Lemma at_ok (l : list A) i : 1 <= i <= len l → ∃ x, at_ l i = Ok x ∧ l !! Z.to_nat (i - 1) = Some x.
Proof.
  intros Hi. destruct (lookup_lt_is_Some_2 l (Z.to_nat (i - 1))) as [x Hx]; [lia|]. exists x. unfold at_.
  rewrite (proj2 (Z.leb_le 1 i)) by lia. by rewrite Hx.
Qed.

Lemma larger_spec l idx max :
  1 <= max <= len l → 1 <= idx →
  ∃ r, larger compare l (len l) idx max = Ok r ∧ (r = max ∨ (r = idx ∧ idx <= len l)) ∧ ge_at l r max ∧ (idx <= len l → ge_at l r idx).
Proof.
  intros Hm Hi. unfold larger. destruct (Z.leb_spec idx (len l)) as [Hle|Hgt].
  - destruct (at_ok l idx) as (x & Ex & Hx); [lia|]. destruct (at_ok l max Hm) as (y & Ey & Hy).
    unfold do_compare. rewrite Ex, Ey. cbn [rbind]. eexists. split; [done|]. destruct (Z.ltb_spec 0 (compare x y)) as [Hc|Hc].
    + split; [by right|]. split; [|intros _]; intros x' y' Hx' Hy'; simplify_eq; [by apply cmp_gt|apply cmp_refl].
    + split; [by left|]. split; [|intros _]; intros x' y' Hx' Hy'; simplify_eq; [apply cmp_refl|done].
  - exists max. split; [done|]. split; [by left|]. split; [intros x y Hx Hy; simplify_eq; apply cmp_refl|lia].
Qed.

Lemma do_swap_spec (l : list A) i j : 1 <= i <= len l → 1 <= j <= len l →
  ∃ l', do_swap l i j = Ok l' ∧ l' ≡ₚ l ∧ length l' = length l ∧
    ∀ k, 1 <= k → l' !! Z.to_nat (k - 1) = l !! Z.to_nat ((if k =? i then j else if k =? j then i else k) - 1).
Proof.
  intros Hi Hj. destruct (at_ok l i Hi) as (x & Ex & Hx), (at_ok l j Hj) as (y & Ey & Hy). unfold do_swap. rewrite Ex, Ey. cbn [rbind].
  eexists. split; [done|]. split; [by apply list_swap_perm|]. split; [by rewrite !length_insert|].
  intros k Hk. destruct (Z.eqb_spec k j) as [->|Hkj].
  - rewrite list_lookup_insert_eq by (rewrite length_insert; lia). destruct (Z.eqb_spec j i); congruence.
  - rewrite list_lookup_insert_ne by lia. destruct (Z.eqb_spec k i) as [->|].
    + rewrite list_lookup_insert_eq by lia. done.
    + by rewrite list_lookup_insert_ne by lia.
Qed.

Lemma ge_at_trans l a b c : 1 <= b <= len l → ge_at l a b → ge_at l b c → ge_at l a c.
Proof.
  intros Hb Hab Hbc x z Hx Hz. destruct (at_ok l b Hb) as (y & _ & Hy). eapply cmp_trans; [by apply Hbc|by apply Hab].
Qed.

(** One round: the larger child moves up, and the hole moves to its place. *)
Lemma hole_moves l l' k i m :
  1 <= k <= i → child m i → m <= len l → heap_hole l k i → length l' = length l →
  (∀ j, 1 <= j → l' !! Z.to_nat (j - 1) = l !! Z.to_nat ((if j =? i then m else if j =? m then i else j) - 1)) →
  ge_at l m i → (∀ c, child c i → c <= len l → ge_at l m c) → heap_hole l' k m.
Proof.
  intros Hk Hm Hml [Hrest Hskip] Hlen Hl' Hmi Hmax. unfold child in *.
  assert (Hge : ∀ p c, 1 <= p → 1 <= c →
    ge_at l (if p =? i then m else if p =? m then i else p) (if c =? i then m else if c =? m then i else c) → ge_at l' p c).
  { intros p c Hp Hc Hg x y Hx Hy. rewrite Hl' in Hx, Hy by done. by eapply Hg. }
  split.
  - intros j c Hj Hjm Hc Hcl. unfold child in Hc. rewrite Hlen in Hcl. apply Hge; [lia|lia|].
    destruct (Z.eqb_spec j i) as [->|Hji].
    + destruct (Z.eqb_spec c i); [lia|]. destruct (Z.eqb_spec c m) as [->|]; [done|]. by apply Hmax.
    + destruct (Z.eqb_spec j m); [lia|]. destruct (Z.eqb_spec c i) as [->|].
      * by apply Hskip.
      * destruct (Z.eqb_spec c m); [lia|]. apply Hrest; done || lia.
  - intros p c Hp Hpm Hc Hcl. unfold child in Hc, Hpm. rewrite Hlen in Hcl. assert (p = i) as -> by lia. apply Hge; [lia|lia|].
    rewrite Z.eqb_refl. destruct (Z.eqb_spec c i); [lia|]. destruct (Z.eqb_spec c m); [lia|]. apply Hrest; try done; lia.
Qed.

Lemma heapify_spec fuel l k i :
  1 <= k <= i → i <= len l → len l < 2 ^ 31 → heap_hole l k i → (Z.to_nat (len l - i) < fuel)%nat →
  ∃ l', heapify compare fuel l i (len l) = Ok l' ∧ l' ≡ₚ l ∧ heap_ok l' k.
Proof.
  revert l i. induction fuel as [|fuel IH]; intros l i Hk Hi Hn Hh Hf; [lia|]. cbn [heapify]. rewrite !u32_id by int_lia.
  destruct (larger_spec l (2 * i) i) as (m1 & E1 & Hm1 & Hg1 & Hl1); [lia|lia|]. rewrite E1. cbn [rbind].
  destruct (larger_spec l (2 * i + 1) m1) as (m & E & Hm & Hg & Hl); [lia|lia|]. rewrite E. cbn [rbind].
  assert (Hmi : ge_at l m i) by (eapply ge_at_trans; [|exact Hg|exact Hg1]; lia).
  assert (Hmax : ∀ c, child c i → c <= len l → ge_at l m c).
  { intros c [->| ->] Hc; [|by apply Hl]. eapply ge_at_trans; [|exact Hg|by apply Hl1]. lia. }
  destruct (Z.eqb_spec m i) as [->|Hne].
  - exists l. split; [done|]. split; [done|]. intros j c Hj Hc Hcl. destruct (decide (j = i)) as [->|]; [by apply Hmax|by apply Hh].
  - assert (Hc : child m i ∧ m <= len l) by (unfold child; lia). destruct Hc as [Hc Hml].
    destruct (do_swap_spec l i m) as (l1 & Es & Hp & Hlen & Hlk); [lia|unfold child in Hc; lia|]. rewrite Es. cbn [rbind].
    assert (Hz : len l1 = len l) by lia. rewrite <- Hz. unfold child in Hc.
    destruct (IH l1 m) as (l' & E' & Hp' & Hok); [lia|lia|lia| |lia|].
    + by apply (hole_moves l l1 k i m).
    + exists l'. split; [done|]. split; [by rewrite Hp'|done].
Qed.

(** ** Building the heap *)

Lemma build_heap_spec n l :
  Z.of_nat n <= len l → len l < 2 ^ 31 → heap_ok l (Z.of_nat n + 1) →
  ∃ l', build_heap compare n l (len l) = Ok l' ∧ l' ≡ₚ l ∧ heap_ok l' 1.
Proof.
  revert l. induction n as [|n IH]; intros l Hn Hl Hh; cbn [build_heap]; [by exists l|].
  destruct (heapify_spec (S (Z.to_nat (len l))) l (Z.of_nat (S n)) (Z.of_nat (S n))) as (l1 & E & Hp & Hok); [lia|lia|lia| |lia|].
  { split; [|unfold child; lia]. intros j c Hj Hne Hc Hcl. apply Hh; done || lia. }
  rewrite E. cbn [rbind]. assert (Hlen : len l1 = len l) by by rewrite Hp. rewrite <- Hlen.
  destruct (IH l1) as (l' & E' & Hp' & Hok'); [lia|lia|intros j c Hj Hc Hcl; apply Hok; done || lia|].
  exists l'. split; [done|]. split; [by rewrite Hp'|done].
Qed.

(** The root of a heap is its largest element. *)
Lemma heap_root l i : heap_ok l 1 → 1 <= i <= len l → ge_at l 1 i.
Proof.
  intros Hh Hi. assert (Hpos : 0 <= i) by lia. revert Hi. pattern i. apply Zlt_0_ind; [|done].
  clear i Hpos. intros i IH _ Hi. destruct (decide (i = 1)) as [->|]; [intros x y Hx Hy; simplify_eq; apply cmp_refl|].
  apply (ge_at_trans l 1 (i / 2)); [mod_lia|apply IH; mod_lia|]. apply Hh; [mod_lia|unfold child; mod_lia|lia].
Qed.

(** ** Taking the elements out of the heap *)

(** Only the first [cnt] elements take part. *)
Lemma heapify_app fuel (pre suf : list A) i cnt :
  cnt <= len pre → 1 <= i <= cnt → cnt < 2 ^ 31 →
  heapify compare fuel (pre ++ suf) i cnt = rbind (heapify compare fuel pre i cnt) (λ l, Ok (l ++ suf)).
Proof.
  revert pre i. induction fuel as [|fuel IH]; intros pre i Hc Hi Hb; [done|]. cbn [heapify]. rewrite !u32_id by int_lia.
  assert (Hat : ∀ (p : list A) j, 1 <= j <= len p → at_ (p ++ suf) j = at_ p j).
  { intros p j Hj. unfold at_. rewrite (proj2 (Z.leb_le 1 j)) by lia. by rewrite lookup_app_l by lia. }
  assert (Hlg : ∀ idx max, 1 <= idx → 1 <= max <= cnt → larger compare (pre ++ suf) cnt idx max = larger compare pre cnt idx max).
  { intros idx max Hix Hmx. unfold larger. destruct (Z.leb_spec idx cnt); [|done]. unfold do_compare. by rewrite !Hat by lia. }
  assert (Hr : ∀ idx max r, 1 <= idx → 1 <= max <= cnt → larger compare pre cnt idx max = Ok r → 1 <= r <= cnt).
  { intros idx max r Hix Hmx. unfold larger. destruct (Z.leb_spec idx cnt); [|intros [= <-]; done]. intros E. run_inv. destruct (0 <? _); lia. }
  rewrite Hlg by lia. destruct (larger compare pre cnt (2 * i) i) as [m1|] eqn:E1; [|done]. cbn [rbind].
  pose proof (Hr (2 * i) i m1 ltac:(lia) ltac:(lia) E1). rewrite Hlg by lia.
  destruct (larger compare pre cnt (2 * i + 1) m1) as [m|] eqn:E2; [|done]. cbn [rbind]. pose proof (Hr (2 * i + 1) m1 m ltac:(lia) ltac:(lia) E2).
  destruct (Z.eqb_spec m i); [done|].
  destruct (do_swap_spec pre i m) as (l1 & Es & _ & Hlen & _); [lia|lia|]. rewrite Es. cbn [rbind].
  assert (Es' : do_swap (pre ++ suf) i m = Ok (l1 ++ suf)).
  { destruct (at_ok pre i) as (x & Ex & Hx); [lia|]. destruct (at_ok pre m) as (y & Ey & Hy); [lia|].
    unfold do_swap in Es |- *. rewrite !Hat, Ex, Ey in * by lia. cbn [rbind] in *. injection Es as <-. f_equal.
    rewrite !insert_app_l by (rewrite ?length_insert; lia). done. }
  rewrite Es'. cbn [rbind]. apply IH; lia.
Qed.

Definition all_le (l1 l2 : list A) : Prop := ∀ a b, a ∈ l1 → b ∈ l2 → le a b.

Lemma sort_heap_spec n pre suf :
  length pre = S n → len pre < 2 ^ 31 → heap_ok pre 1 → StronglySorted (λ a b, le a b) suf → all_le pre suf →
  ∃ l', sort_heap compare n (pre ++ suf) = Ok l' ∧ l' ≡ₚ pre ++ suf ∧ StronglySorted (λ a b, le a b) l'.
Proof.
  revert pre suf. induction n as [|n IH]; intros pre suf Hlen Hb Hh Hs Hall; cbn [sort_heap].
  { destruct pre as [|a [|]]; try done. exists (a :: suf). split; [done|]. split; [done|]. constructor; [done|].
    apply Forall_forall. intros b Hbin. apply Hall; [by left|done]. }
  destruct (do_swap_spec pre 1 (Z.of_nat (S n) + 1)) as (l1 & Es & Hp & Hl1 & Hlk); [lia|lia|].
  destruct (at_ok pre 1) as (x & _ & Hx); [lia|].
  assert (Hlast : l1 !! S n = Some x).
  { specialize (Hlk (Z.of_nat (S n) + 1) ltac:(lia)). replace (Z.to_nat (Z.of_nat (S n) + 1 - 1)) with (S n) in Hlk by lia.
    rewrite Hlk. destruct (Z.eqb_spec (Z.of_nat (S n) + 1) 1); [lia|]. by rewrite Z.eqb_refl. }
  assert (El1 : l1 = take (S n) l1 ++ [x]).
  { rewrite <- (take_drop (S n) l1) at 1. f_equal. erewrite drop_S by done. by rewrite drop_ge by lia. }
  set (pre' := take (S n) l1) in *. assert (Hpre' : length pre' = S n) by (unfold pre'; rewrite length_take; lia).
  assert (Es' : do_swap (pre ++ suf) 1 (Z.of_nat (S n) + 1) = Ok (pre' ++ x :: suf)).
  { assert (Hat : ∀ j, 1 <= j <= len pre → at_ (pre ++ suf) j = at_ pre j).
    { intros j Hj. unfold at_. rewrite (proj2 (Z.leb_le 1 j)) by lia. by rewrite lookup_app_l by lia. }
    destruct (at_ok pre 1) as (x1 & Ex & _); [lia|]. destruct (at_ok pre (Z.of_nat (S n) + 1)) as (y & Ey & _); [lia|].
    unfold do_swap in Es |- *. rewrite !Hat, Ex, Ey in * by lia. cbn [rbind] in *. injection Es as Es. f_equal.
    rewrite !insert_app_l by (rewrite ?length_insert; lia). rewrite Es, El1. by rewrite <- app_assoc. }
  rewrite Es'. cbn [rbind]. replace (Z.of_nat (S n) + 1 - 1) with (len pre') by lia.
  rewrite heapify_app by lia.
  destruct (heapify_spec (S (Z.to_nat (len pre'))) pre' 1 1) as (l2 & E2 & Hp2 & Hok2); [lia|lia|lia| |lia|].
  { split; [|unfold child; lia]. intros j c Hj Hj1 Hc Hcl a b Ha Hb'. unfold child in Hc.
    assert (Hl : ∀ q, 2 <= q <= len pre' → pre' !! Z.to_nat (q - 1) = pre !! Z.to_nat (q - 1)).
    { intros q Hq. unfold pre'. rewrite lookup_take_lt by lia. rewrite Hlk by lia.
      destruct (Z.eqb_spec q 1); [lia|]. destruct (Z.eqb_spec q (Z.of_nat (S n) + 1)); [lia|done]. }
    rewrite Hl in Ha by lia. rewrite Hl in Hb' by lia. eapply (Hh j c); done || lia. }
  rewrite E2. cbn [rbind]. assert (Hxmax : ∀ a, a ∈ pre → le a x).
  { intros a Ha. apply list_elem_of_lookup in Ha as [q Hq]. pose proof (lookup_lt_Some _ _ _ Hq).
    apply (heap_root pre (Z.of_nat q + 1) Hh ltac:(lia) x a Hx). by replace (Z.to_nat (Z.of_nat q + 1 - 1)) with q by lia. }
  assert (Hperm : l2 ++ [x] ≡ₚ pre) by by rewrite Hp2, <- El1.
  destruct (IH l2 (x :: suf)) as (l' & E' & Hp' & Hs'); [by rewrite Hp2|rewrite Hp2; lia|done| | |].
  - constructor; [done|]. apply Forall_forall. intros b Hbin. apply Hall; [|done]. by eapply list_elem_of_lookup_2.
  - intros a b Ha Hbin. assert (a ∈ pre) by (rewrite <- Hperm; set_solver). apply elem_of_cons in Hbin as [->|Hbin]; auto.
  - exists l'. split; [done|]. split; [|done]. rewrite Hp', <- Hperm. by rewrite <- app_assoc.
Qed.

(** [sort] terminates on every array (of fewer than 2^31 elements) and every
    comparison function that is a total preorder, without reading outside the array,
    and the result is a permutation of the array in ascending order. *)
Theorem sort_correct (array : list A) :
  len array < 2 ^ 31 → ∃ l, sort compare array = Ok l ∧ l ≡ₚ array ∧ StronglySorted (λ a b, le a b) l.
Proof.
  intros Hn. unfold sort. destruct (build_heap_spec (Z.to_nat (len array / 2)) array) as (l1 & E & Hp & Hok); [mod_lia|done| |].
  { intros i c Hi Hc Hcl. unfold child in Hc. exfalso. mod_lia. }
  rewrite E. cbn [rbind]. destruct array as [|a array].
  - apply Permutation_nil_r in Hp as ->. exists []. repeat split; [done|constructor].
  - destruct (sort_heap_spec (length array) l1 []) as (l & El & Hpl & Hs); [by rewrite Hp|by rewrite Hp|done|constructor|intros x y _ Hy; by apply elem_of_nil in Hy|].
    rewrite app_nil_r in El, Hpl. replace (Z.to_nat (len (a :: array) - 1)) with (length array) by (simpl; lia).
    exists l. split; [done|]. split; [by rewrite Hpl|done].
Qed.

(** ** The binary search finds what is there *)

Lemma sorted_lookup l i j x y :
  StronglySorted (λ a b, le a b) l → (i <= j)%nat → l !! i = Some x → l !! j = Some y → le x y.
Proof.
  intros Hs. revert i j. induction Hs as [|a l Hs IH Hf]; intros i j Hij Hi Hj; [done|].
  destruct i as [|i], j as [|j]; simplify_eq/=; try lia.
  - apply cmp_refl.
  - rewrite Forall_forall in Hf. apply Hf. by eapply list_elem_of_lookup_2.
  - eapply (IH i j); done || lia.
Qed.

Lemma search_loop_spec fuel key l first last :
  StronglySorted (λ a b, le a b) l → 0 <= first <= last → last <= len l → (Z.to_nat (last - first) < fuel)%nat →
  (∀ i x, l !! i = Some x → Z.of_nat i < first → compare key x ≠ 0) →
  (∀ i x, l !! i = Some x → last <= Z.of_nat i → compare key x ≠ 0) →
  ∃ r, search_loop compare fuel key l first last = Ok r ∧
    match r with
    | Some i => ∃ x, l !! Z.to_nat i = Some x ∧ compare key x = 0
    | None => ∀ i x, l !! i = Some x → compare key x ≠ 0
    end.
Proof.
  intros Hs. revert first last. induction fuel as [|fuel IH]; intros first last Hr Hl Hf Hlo Hhi; [lia|]. cbn [search_loop].
  destruct (Z.ltb_spec first last) as [Hlt|Hge].
  2: { exists None. split; [done|]. intros i x Hx. destruct (Z.lt_ge_cases (Z.of_nat i) first); [by eapply Hlo|]. eapply Hhi; done || lia. }
  set (mid := first + (last - first) / 2). assert (Hm : first <= mid < last) by (unfold mid; mod_lia).
  destruct (lookup_lt_is_Some_2 l (Z.to_nat mid)) as [y Hy]; [lia|]. rewrite Hy. cbn [rneed rbind].
  destruct (Z.ltb_spec (compare key y) 0) as [Hc|Hc]; [|destruct (Z.ltb_spec 0 (compare key y)) as [Hc'|Hc']].
  - apply IH; [lia|lia|lia|done|]. intros i x Hx Hi E0.
    assert (Hyx : le y x) by (eapply (sorted_lookup l (Z.to_nat mid) i); done || lia).
    assert (Hxk : le x key) by (destruct (Z.le_gt_cases (compare x key) 0) as [|Hg]; [done|apply cmp_sign in Hg; lia]).
    pose proof (cmp_trans _ _ _ Hyx Hxk). apply cmp_sign in Hc. lia.
  - apply IH; [lia|lia|lia| |done]. intros i x Hx Hi E0.
    assert (Hxy : le x y) by (eapply (sorted_lookup l i (Z.to_nat mid)); done || lia).
    assert (Hkx : le key x) by lia. pose proof (cmp_trans _ _ _ Hkx Hxy). lia.
  - exists (Some mid). split; [done|]. exists y. split; [done|lia].
Qed.

(** On a sorted array [binary_search] terminates and returns an element equal to
    the key exactly when the array contains one. *)
Theorem binary_search_correct key (array : list A) :
  StronglySorted (λ a b, le a b) array →
  ∃ r, binary_search compare key array = Ok r ∧
    match r with
    | Some i => ∃ x, array !! Z.to_nat i = Some x ∧ compare key x = 0
    | None => ∀ i x, array !! i = Some x → compare key x ≠ 0
    end.
Proof.
  intros Hs. apply search_loop_spec; try done; [lia|lia|lia|].
  intros i x Hx Hi. apply lookup_lt_Some in Hx. lia.
Qed.
End sort_proofs.

#[export] Instance sub_comparison : Comparison Z.sub.
Proof. split; intros; lia. Qed.

Lemma sort_correct_witness : ∃ l, sort Z.sub [5; 3; 9; 1; 5] = Ok l ∧ l ≡ₚ [5; 3; 9; 1; 5] ∧ StronglySorted (λ a b, a - b <= 0) l.
Proof. apply (sort_correct Z.sub [5; 3; 9; 1; 5]). simpl. lia. Defined.

Lemma binary_search_correct_witness :
  ∃ r, binary_search Z.sub 5 [1; 3; 5; 5; 9] = Ok r ∧
    match r with
    | Some i => ∃ x, [1; 3; 5; 5; 9] !! Z.to_nat i = Some x ∧ 5 - x = 0
    | None => ∀ i x, [1; 3; 5; 5; 9] !! i = Some x → 5 - x ≠ 0
    end.
Proof. apply (binary_search_correct Z.sub 5 [1; 3; 5; 5; 9]). repeat constructor; lia. Defined.
