(* ===== verification/Stdio.v ===== *)
(** * Formatted output (src/lib/stdio.c)

    Format strings are lists of non-null bytes; reading at the end of the list gives the
    terminator, moving beyond it is undefined.  The characters handed to the [output]
    function are collected in the order of the calls.  Arguments are tagged with the
    type under which they were passed, and fetching one under another type is
    undefined.  [int] arithmetic that leaves its range is undefined. *)

From S2P Require Import Prelude.
Local Open Scope Z_scope.

Inductive arg :=
| I32 (bits : Z)                  (* an int, unsigned, long, size_t or ptrdiff_t *)
| I64 (bits : Z)                  (* an intmax_t, uintmax_t or long long *)
| Str (s : option (list Z))       (* a string, or a null pointer *)
| Ptr (addr : Z).

Inductive conv_type := CHAR | SHORT | INT | INTMAX | LONG | LONGLONG | PTRDIFFT | SIZET.

(** [struct printf_conversion]; the flags one by one. *)
Record printf_conversion := mk_conv {
  MINUS : bool; PLUS : bool; SPACE : bool; POUND : bool; ZERO : bool; GROUP : bool;
  width : Z; precision : Z; type_ : conv_type
}.

Record integer_base := mk_base { base_ : Z; digits : list Z; x_ : Z; group : Z }.

Definition base_d := mk_base 10 [48; 49; 50; 51; 52; 53; 54; 55; 56; 57] 0 3.
Definition base_o := mk_base 8 [48; 49; 50; 51; 52; 53; 54; 55] 0 3.
Definition base_x := mk_base 16 [48; 49; 50; 51; 52; 53; 54; 55; 56; 57; 97; 98; 99; 100; 101; 102] 120 4.
Definition base_X := mk_base 16 [48; 49; 50; 51; 52; 53; 54; 55; 56; 57; 65; 66; 67; 68; 69; 70] 88 4.

Definition int_ok (x : Z) : res Z := if (- 2 ^ 31 <=? x) && (x <? 2 ^ 31) then Ok x else Fail Undef.
Definition s8 (x : Z) : Z := (x + 128) mod 256 - 128.
Definition s16 (x : Z) : Z := (x + 2 ^ 15) mod 2 ^ 16 - 2 ^ 15.

(** [*format] *)
Definition peek (format : list Z) : Z := default 0 (head format).
Definition is_digit (c : Z) : bool := (48 <=? c) && (c <=? 57).

(** ** Parsing a conversion *)

Definition set_flag (b : Z) (c : printf_conversion) : option printf_conversion :=
  let '(mk_conv m p s h z g w pr t) := c in
  if b =? 45 then Some (mk_conv true p s h z g w pr t)
  else if b =? 43 then Some (mk_conv m true s h z g w pr t)
  else if b =? 32 then Some (mk_conv m p true h z g w pr t)
  else if b =? 35 then Some (mk_conv m p s true z g w pr t)
  else if b =? 48 then Some (mk_conv m p s h true g w pr t)
  else if b =? 39 then Some (mk_conv m p s h z true w pr t)
  else None.

Fixpoint parse_flags (format : list Z) (c : printf_conversion) : printf_conversion * list Z :=
  match format with
  | [] => (c, [])
  | b :: rest => match set_flag b c with Some c' => parse_flags rest c' | None => (c, format) end
  end.

(** The digits of a width or precision. *)
Fixpoint parse_num (format : list Z) (acc : Z) : res (Z * list Z) :=
  match format with
  | b :: rest =>
      if is_digit b then
        let? v := int_ok (acc * 10) in let? v := int_ok (v + b) in let? v := int_ok (v - 48) in parse_num rest v
      else Ok (acc, format)
  | [] => Ok (acc, [])
  end.

Definition take_int (args : list arg) : res (Z * list arg) :=
  match args with I32 x :: args' => Ok (s32 x, args') | _ => Fail Undef end.

(** A number or [*]. *)
Definition parse_field (format : list Z) (args : list arg) : res (Z * list Z * list arg) :=
  if peek format =? 42
  then let? (v, args) := take_int args in Ok (v, tail format, args)
  else let? (v, format) := parse_num format 0 in Ok (v, format, args).

Definition parse_type (format : list Z) : conv_type * list Z :=
  match format with
  | 104 :: 104 :: rest => (CHAR, rest)
  | 104 :: rest => (SHORT, rest)
  | 106 :: rest => (INTMAX, rest)
  | 108 :: 108 :: rest => (LONGLONG, rest)
  | 108 :: rest => (LONG, rest)
  | 116 :: rest => (PTRDIFFT, rest)
  | 122 :: rest => (SIZET, rest)
  | _ => (INT, format)
  end.

Definition parse_conversion (format : list Z) (args : list arg) : res (printf_conversion * list Z * list arg) :=
  let (c, format) := parse_flags format (mk_conv false false false false false false 0 (-1) INT) in
  let zero := ZERO c && negb (MINUS c) in
  let space := SPACE c && negb (PLUS c) in
  let? (w, format, args) := parse_field format args in
  let? aw := (if w <? 0 then int_ok (- w) else Ok w) in
  let minus := MINUS c || (w <? 0) in
  let? (p, format, args) :=
    (if peek format =? 46
     then let? (p, format, args) := parse_field (tail format) args in Ok ((if p <? 0 then -1 else p), format, args)
     else Ok (-1, format, args)) in
  let (t, format) := parse_type format in
  Ok (mk_conv minus (PLUS c) space (POUND c) (zero && (p <? 0)) (GROUP c) aw p t, format, args).

(** ** Conversions *)

Definition output_dup (ch cnt : Z) : list Z := replicate (Z.to_nat cnt) ch.

(** The digits are produced from the lowest on; each of the at most 64 rounds divides
    the 64-bit value. *)
Fixpoint digit_loop (fuel : nat) (b : integer_base) (grp : bool) (value digit_cnt : Z) (buf : list Z) : res (list Z) :=
  match fuel with
  | O => Fail NoFuel
  | S fuel =>
      if 0 <? value then
        let buf := if grp && (0 <? digit_cnt) && (digit_cnt mod group b =? 0) then buf ++ [44] else buf in
        let? d := rneed (digits b !! Z.to_nat (value mod base_ b)) in
        digit_loop fuel b grp (value / base_ b) (digit_cnt + 1) (buf ++ [d])
      else Ok buf
  end.

Definition sign_of (is_signed negative : bool) (c : printf_conversion) : Z :=
  if is_signed then
    if PLUS c then (if negative then 45 else 43)
    else if SPACE c then (if negative then 45 else 32)
    else if negative then 45 else 0
  else 0.

(** [while (cp - buf < precision && cp < buf + sizeof buf - 1) *cp++ = '0';] *)
Definition pad_zeros (buf : list Z) (prec : Z) : list Z :=
  buf ++ replicate (Z.to_nat (Z.min prec 63 - Z.of_nat (length buf))) 48.

(** The buffer: the digits in reverse order, 64 bytes at most. *)
Definition digit_buffer (value : Z) (b : integer_base) (c : printf_conversion) : res (list Z) :=
  let? buf := digit_loop 65 b (GROUP c) value 0 [] in
  let buf := pad_zeros buf (if precision c <? 0 then 1 else precision c) in
  let buf := if POUND c && (base_ b =? 8) && negb (bool_decide (last buf = Some 48)) then buf ++ [48] else buf in
  if Z.of_nat (length buf) <=? 64 then Ok buf else Fail Undef.

Definition format_integer (value : Z) (is_signed negative : bool) (b : integer_base) (c : printf_conversion) : res (list Z) :=
  let sign := sign_of is_signed negative c in
  let x := if POUND c && negb (value =? 0) then x_ b else 0 in
  let? buf := digit_buffer value b c in
  let pad_cnt := Z.max 0 (width c - Z.of_nat (length buf) - (if x =? 0 then 0 else 2) - (if sign =? 0 then 0 else 1)) in
  Ok ((if MINUS c || ZERO c then [] else output_dup 32 pad_cnt) ++
      (if sign =? 0 then [] else [sign]) ++
      (if x =? 0 then [] else [48; x]) ++
      (if ZERO c then output_dup 48 pad_cnt else []) ++
      reverse buf ++
      (if MINUS c then output_dup 32 pad_cnt else [])).

Definition format_string (string : list Z) (length : Z) (c : printf_conversion) : list Z :=
  let pad := if length <? width c then output_dup 32 (width c - length) else [] in
  (if MINUS c then [] else pad) ++ take (Z.to_nat length) string ++ (if MINUS c then pad else []).

(** [va_arg] for the signed and the unsigned conversions. *)
Definition signed_arg (t : conv_type) (a : arg) : res Z :=
  match t, a with
  | CHAR, I32 x => Ok (s8 x)
  | SHORT, I32 x => Ok (s16 x)
  | (INT | LONG | PTRDIFFT), I32 x => Ok (s32 x)
  | SIZET, I32 x => let value := u32 x in Ok (if (2 ^ 32 - 1) / 2 <? value then value - (2 ^ 32 - 1) - 1 else value)
  | (INTMAX | LONGLONG), I64 x => Ok (s64 x)
  | _, _ => Fail Undef
  end.

Definition unsigned_arg (t : conv_type) (a : arg) : res Z :=
  match t, a with
  | CHAR, I32 x => Ok (u8 x)
  | SHORT, I32 x => Ok (u16 x)
  | (INT | LONG | SIZET), I32 x => Ok (u32 x)
  | PTRDIFFT, I32 x => Ok (Z.land (u64 (s32 x)) (2 ^ 32 - 1))
  | (INTMAX | LONGLONG), I64 x => Ok (u64 x)
  | _, _ => Fail Undef
  end.

Definition take_arg (args : list arg) : res (arg * list arg) :=
  match args with a :: args' => Ok (a, args') | [] => Fail Undef end.

(** ["(null)"], and the two messages for conversions that are not supported. *)
Definition null_text : list Z := [40; 110; 117; 108; 108; 41].
Definition no_kernel_text (ch : Z) : list Z := [60; 60; 110; 111; 32; 37; ch; 32; 105; 110; 32; 107; 101; 114; 110; 101; 108; 62; 62].
Definition no_conversion_text (ch : Z) : list Z :=
  [60; 60; 110; 111; 32; 37; ch; 32; 99; 111; 110; 118; 101; 114; 115; 105; 111; 110; 62; 62].

(** The [switch] on the conversion character. *)
Definition convert (ch : Z) (c : printf_conversion) (args : list arg) : res (list Z * list arg) :=
  if (ch =? 100) || (ch =? 105) then
    let? (a, args) := take_arg args in
    let? value := signed_arg (type_ c) a in
    let? out := format_integer (u64 (if value <? 0 then - value else value)) true (value <? 0) base_d c in Ok (out, args)
  else if (ch =? 111) || (ch =? 117) || (ch =? 120) || (ch =? 88) then
    let? (a, args) := take_arg args in
    let? value := unsigned_arg (type_ c) a in
    let b := if ch =? 111 then base_o else if ch =? 117 then base_d else if ch =? 120 then base_x else base_X in
    let? out := format_integer value false false b c in Ok (out, args)
  else if ch =? 99 then
    let? (v, args) := take_int args in Ok (format_string [u8 v] 1 c, args)
  else if ch =? 115 then
    let? (a, args) := take_arg args in
    match a with
    | Str o =>
        let s := default null_text o in
        let n := Z.of_nat (length s) in
        Ok (format_string s (if precision c <? 0 then n else Z.min n (precision c)) c, args)
    | _ => Fail Undef
    end
  else if ch =? 112 then
    let? (a, args) := take_arg args in
    match a with
    | Ptr p =>
        let c := mk_conv false false false true false false (width c) (precision c) (type_ c) in
        let? out := format_integer (u32 p) false false base_x c in Ok (out, args)
    | _ => Fail Undef
    end
  else if (ch =? 102) || (ch =? 101) || (ch =? 69) || (ch =? 103) || (ch =? 71) || (ch =? 110) then Ok (no_kernel_text ch, args)
  else Ok (no_conversion_text ch, args).

(** Each round takes at least one character of the format. *)
Fixpoint __vprintf (fuel : nat) (format : list Z) (args : list arg) : res (list Z) :=
  match fuel with
  | O => Fail NoFuel
  | S fuel =>
      match format with
      | [] => Ok []
      | b :: rest =>
          if negb (b =? 37) then let? out := __vprintf fuel rest args in Ok (b :: out)
          else if peek rest =? 37 then let? out := __vprintf fuel (tail rest) args in Ok (37 :: out)
          else
            let? (c, format, args) := parse_conversion rest args in
            let? (out, args) := convert (peek format) c args in
            match format with
            | [] => Fail Undef
            | _ :: format => let? more := __vprintf fuel format args in Ok (out ++ more)
            end
      end
  end.

Definition vprintf (format : list Z) (args : list arg) : res (list Z) := __vprintf (S (length format)) format args.

(** ** Output into a buffer *)

Record vsnprintf_aux := mk_aux { written : list Z; length_ : Z; max_length : Z }.

(** [written] is what has been stored from the start of the buffer on. *)
Definition vsnprintf_helper (aux : vsnprintf_aux) (ch : Z) : vsnprintf_aux :=
  mk_aux (if length_ aux <? max_length aux then written aux ++ [ch] else written aux) (length_ aux + 1) (max_length aux).

(** Returns the bytes stored in the buffer and the length. *)
Definition vsnprintf (buf_size : Z) (format : list Z) (args : list arg) : res (list Z * Z) :=
  let aux := mk_aux [] 0 (if 0 <? buf_size then buf_size - 1 else 0) in
  let? out := vprintf format args in
  let aux := fold_left vsnprintf_helper out aux in
  Ok ((if 0 <? buf_size then written aux ++ [0] else written aux), length_ aux).

(** ** Sizes and hexadecimal dumps *)

(** [printf] with the characters of a Rocq list as its format. *)
Definition size_names : list (list Z) :=
  [[98; 121; 116; 101; 115]; [107; 66]; [77; 66]; [71; 66]; [84; 66]].

(** [for (fp = factors; size >= 1024 && fp[1] != NULL; fp++) size /= 1024;] *)
Fixpoint scale (names : list (list Z)) (size : Z) : Z * list Z :=
  match names with
  | name :: ((_ :: _) as more) => if 1024 <=? size then scale more (size / 1024) else (size, name)
  | [name] => (size, name)
  | [] => (size, [])
  end.

(** ["%llu %s"] *)
Definition print_human_readable_size (size : Z) : res (list Z) :=
  if size =? 1 then vprintf [49; 32; 98; 121; 116; 101] []
  else let (n, name) := scale size_names size in
       vprintf [37; 108; 108; 117; 32; 37; 115] [I64 n; Str (Some name)].

(** The characters of a line of [hex_dump]: the offset, the bytes and, when asked for,
    their characters.  [start] and [n] are as in the code. *)
Fixpoint hex_bytes (i : Z) (bytes : list Z) : res (list Z) :=
  match bytes with
  | [] => Ok []
  | b :: rest =>
      let? out := vprintf [37; 48; 50; 104; 104; 120; 37; 99] [I32 b; I32 (if i =? 7 then 45 else 32)] in
      let? more := hex_bytes (i + 1) rest in Ok (out ++ more)
  end.

Definition isprint (c : Z) : bool := (32 <=? c) && (c <? 127).

Definition hex_line (ofs start : Z) (bytes : list Z) (ascii : bool) : res (list Z) :=
  let n := Z.of_nat (length bytes) in
  let? head := vprintf [37; 48; 56; 106; 120; 32; 32] [I64 (ofs - ofs mod 16)] in
  let? hex := hex_bytes start bytes in
  let gap := 16 - (start + n) in
  let text := if ascii
              then output_dup 32 (3 * gap) ++ [124] ++ output_dup 32 start ++
                   ((λ b, if isprint b then b else 46) <$> bytes) ++ output_dup 32 gap ++ [124]
              else [] in
  Ok (head ++ output_dup 32 (3 * start) ++ hex ++ text ++ [10]).

(** Each round dumps at least one byte. *)
Fixpoint hex_dump (fuel : nat) (ofs : Z) (buf : list Z) (ascii : bool) : res (list Z) :=
  match fuel with
  | O => Fail NoFuel
  | S fuel =>
      match buf with
      | [] => Ok []
      | _ =>
          let start := ofs mod 16 in
          let n := Z.min (16 - start) (Z.of_nat (length buf)) in
          let? line := hex_line ofs start (take (Z.to_nat n) buf) ascii in
          let? more := hex_dump fuel (u32 (ofs + n)) (drop (Z.to_nat n) buf) ascii in
          Ok (line ++ more)
      end
  end.
