(* ===== verification/StdioSpec.v ===== *)
(** * Properties of formatted output (src/lib/stdio.c)

    Formatting always terminates, [vsnprintf] never overruns its buffer, and an integer
    printed with [%d] is read back by [atoi]. *)

From S2P Require Import Prelude Strings StringSpec StdlibC Stdio.
Local Open Scope Z_scope.

(** ** Digits *)

(** The number that a list of digit characters stands for, most significant first. *)
Definition dec_value (l : list Z) : Z := fold_left (λ acc d, acc * 10 + (d - 48)) l 0.

Definition good_base (b : integer_base) : Prop := 2 <= base_ b ∧ Z.of_nat (length (digits b)) = base_ b.

Lemma digit_loop_total fuel b g value cnt buf :
  good_base b → 0 <= value < 2 ^ Z.of_nat fuel → ∃ out, digit_loop (S fuel) b g value cnt buf = Ok out ∧
    (length out <= length buf + 2 * fuel)%nat.
Proof.
  intros [Hb Hd]. revert value cnt buf. induction fuel as [|fuel IH]; intros value cnt buf Hv; cbn [digit_loop].
  - assert (value = 0) as -> by (simpl in Hv; lia). exists buf. split; [done|lia].
  - destruct (Z.ltb_spec 0 value); [|exists buf; split; [done|lia]].
    destruct (lookup_lt_is_Some_2 (digits b) (Z.to_nat (value mod base_ b))) as [d Hdg].
    { pose proof (Z.mod_pos_bound value (base_ b)). lia. }
    rewrite Hdg. cbn [rneed rbind]. set (buf1 := if g && _ && _ then buf ++ [44] else buf).
    assert (Hlen : (length buf1 <= length buf + 1)%nat) by (unfold buf1; destruct (g && _ && _); rewrite ?length_app; simpl; lia).
    destruct (IH (value / base_ b) (cnt + 1) (buf1 ++ [d])) as (out & E & Ho).
    + split; [apply Z.div_pos; lia|]. apply Z.div_lt_upper_bound; [lia|]. rewrite Nat2Z.inj_succ, Z.pow_succ_r in Hv by lia. nia.
    + exists out. split; [exact E|]. rewrite length_app in Ho. simpl in Ho. lia.
Qed.

Lemma bases_good : good_base base_d ∧ good_base base_o ∧ good_base base_x ∧ good_base base_X.
Proof. repeat split; simpl; lia. Qed.

(** ** Termination *)

(** No loop of the conversions runs out of rounds. *)
Lemma format_integer_fuel value sg neg b c : good_base b → in_u64 value → format_integer value sg neg b c ≠ Fail NoFuel.
Proof.
  intros Hb Hv. unfold format_integer, digit_buffer.
  destruct (digit_loop_total 64 b (GROUP c) value 0 [] Hb) as (out & E & _); [unfold in_u64 in Hv; simpl; lia|].
  rewrite E. cbn [rbind]. by destruct (_ <=? 64).
Qed.

Lemma rbind_fuel {A B} (m : res A) (k : A → res B) : m ≠ Fail NoFuel → (∀ a, m = Ok a → k a ≠ Fail NoFuel) → rbind m k ≠ Fail NoFuel.
Proof. intros Hm Hk. destruct m; simpl; [by apply Hk|]. intros [= ->]. by apply Hm. Qed.

Lemma take_arg_fuel args : take_arg args ≠ Fail NoFuel.
Proof. by destruct args. Qed.
Lemma take_int_fuel args : take_int args ≠ Fail NoFuel.
Proof. by destruct args as [|[]]. Qed.
Lemma int_ok_fuel x : int_ok x ≠ Fail NoFuel.
Proof. unfold int_ok. by destruct (_ && _). Qed.

Lemma signed_arg_spec t a : signed_arg t a ≠ Fail NoFuel.
Proof. by destruct t, a. Qed.

Lemma unsigned_arg_spec t a : unsigned_arg t a ≠ Fail NoFuel ∧ ∀ v, unsigned_arg t a = Ok v → in_u64 v.
Proof.
  assert (Hl : in_u64 (Z.land (u64 (s32 0)) (2 ^ 32 - 1)) → ∀ x, in_u64 (Z.land (u64 x) (2 ^ 32 - 1))).
  { intros _ x. change (2 ^ 32 - 1) with (Z.ones 32). rewrite Z.land_ones by lia. unfold in_u64. mod_lia. }
  specialize (Hl ltac:(by split)). split; [by destruct t, a|]. destruct t, a; intros v [= <-]; try done; apply u64_range || unfold in_u64; mod_lia.
Qed.

Lemma convert_fuel ch c args : convert ch c args ≠ Fail NoFuel.
Proof.
  destruct bases_good as (Hd & Ho & Hx & HX). unfold convert.
  destruct (_ || _); [|destruct (_ || _ || _ || _); [|destruct (ch =? 99); [|destruct (ch =? 115); [|destruct (ch =? 112)]]]].
  - apply rbind_fuel; [apply take_arg_fuel|]. intros [a args'] _. apply rbind_fuel; [apply signed_arg_spec|]. intros v _.
    apply rbind_fuel; [|done]. apply format_integer_fuel; [done|apply u64_range].
  - apply rbind_fuel; [apply take_arg_fuel|]. intros [a args'] _. destruct (unsigned_arg_spec (type_ c) a) as [Hf Hr].
    apply rbind_fuel; [done|]. intros v Hv. apply rbind_fuel; [|done]. apply format_integer_fuel; [|by apply Hr].
    by destruct (ch =? 111), (ch =? 117), (ch =? 120).
  - apply rbind_fuel; [apply take_int_fuel|]. by intros [v args'] _.
  - apply rbind_fuel; [apply take_arg_fuel|]. intros [[] args'] _; done.
  - apply rbind_fuel; [apply take_arg_fuel|]. intros [[] args'] _; try done. apply rbind_fuel; [|done].
    apply format_integer_fuel; [done|]. pose proof (u32_range addr). unfold in_u32, in_u64 in *. lia.
  - by destruct (_ || _ || _ || _ || _ || _).
Qed.

Lemma parse_flags_suffix f c c' f' : parse_flags f c = (c', f') → (length f' <= length f)%nat.
Proof.
  revert c. induction f as [|b f IH]; intros c E; simpl in E; [by injection E as _ <-|].
  destruct (set_flag b c); [apply IH in E; simpl; lia|]. by injection E as _ <-.
Qed.

Lemma parse_num_spec f acc : parse_num f acc ≠ Fail NoFuel ∧ ∀ v f', parse_num f acc = Ok (v, f') → (length f' <= length f)%nat.
Proof.
  revert acc. induction f as [|b f IH]; intros acc; cbn [parse_num]; [split; [done|]; by intros v f' [= _ <-]|].
  destruct (is_digit b); [|split; [done|]; by intros v f' [= _ <-]]. split.
  - do 3 (apply rbind_fuel; [apply int_ok_fuel|]; intros ? _). apply IH.
  - intros v f' E. run_inv. apply IH in E. simpl. lia.
Qed.

Lemma parse_field_spec f args : parse_field f args ≠ Fail NoFuel ∧ ∀ v f' a', parse_field f args = Ok (v, f', a') → (length f' <= length f)%nat.
Proof.
  unfold parse_field. destruct (parse_num_spec f 0) as [Hf Hl]. destruct (peek f =? 42); split.
  - apply rbind_fuel; [apply take_int_fuel|]. by intros [] _.
  - intros v f' a' E. run_inv. destruct a as [v0 a0]. injection E as _ <- _. destruct f; simpl; lia.
  - apply rbind_fuel; [done|]. by intros [] _.
  - intros v f' a' E. run_inv. destruct a as [v0 f0]. injection E as _ <- _. by eapply Hl.
Qed.

Lemma parse_type_suffix f t f' : parse_type f = (t, f') → (length f' <= length f)%nat.
Proof.
  assert (Ht : ∀ g, (length (parse_type g).2 <= length g)%nat).
  { intros g. unfold parse_type. repeat match goal with |- context [match ?x with _ => _ end] => destruct x; simpl; try lia end. }
  intros E. specialize (Ht f). by rewrite E in Ht.
Qed.

Lemma parse_conversion_spec f args :
  parse_conversion f args ≠ Fail NoFuel ∧ ∀ c f' a', parse_conversion f args = Ok (c, f', a') → (length f' <= length f)%nat.
Proof.
  unfold parse_conversion. destruct (parse_flags f _) as [c0 f0] eqn:E0. apply parse_flags_suffix in E0.
  destruct (parse_field_spec f0 args) as [Hf1 Hl1]. split.
  - apply rbind_fuel; [done|]. intros [[w f1] a1] _. apply rbind_fuel; [destruct (w <? 0); [apply int_ok_fuel|done]|]. intros aw _.
    apply rbind_fuel.
    + destruct (peek f1 =? 46); [|done]. apply rbind_fuel; [apply parse_field_spec|]. by intros [[] ] _.
    + intros [[p f2] a2] _. by destruct (parse_type f2).
  - intros c f' a' E. run_inv. destruct a as [[w f1] a1]. run_inv. destruct a0 as [[p f2] a2].
    assert (H2 : (length f2 <= length f1)%nat).
    { destruct (peek f1 =? 46); [|by injection E3 as _ <- _]. apply rbind_inv in E3 as ([[p0 f3] a3] & E3 & E4). injection E4 as _ <- _.
      apply parse_field_spec in E3. destruct f1; simpl in *; lia. }
    apply Hl1 in E1. destruct (parse_type f2) as [t f3] eqn:Et. apply parse_type_suffix in Et. injection E as _ <- _. lia.
Qed.

(** ** Formats of literal characters and [%s] *)

Lemma format_literal n b rest args : b ≠ 37 → __vprintf (S n) (b :: rest) args = rbind (__vprintf n rest args) (λ out, Ok (b :: out)).
Proof. intros Hb. cbn [__vprintf]. by rewrite (proj2 (Z.eqb_neq _ _) Hb). Qed.

Lemma format_percent_s n s rest args : __vprintf (S n) (37 :: 115 :: rest) (Str (Some s) :: args) = rbind (__vprintf n rest args) (λ more, Ok (s ++ more)).
Proof.
  change (__vprintf (S n) (37 :: 115 :: rest) (Str (Some s) :: args))
    with (let? more := __vprintf n rest args in Ok (format_string s (Z.of_nat (length s)) (mk_conv false false false false false false 0 (-1) INT) ++ more)).
  unfold format_string. cbn [width MINUS]. rewrite (proj2 (Z.ltb_ge _ _)), Nat2Z.id, firstn_all by lia. cbn [app]. by rewrite app_nil_r.
Qed.

(** Rewrites with the two lemmas from the start of the format to its end. *)
Ltac print_format := unfold vprintf; cbn [length];
  repeat (first [rewrite format_percent_s | rewrite format_literal by done]); cbn [__vprintf rbind app]; rewrite ?app_nil_r; try done.

Lemma vprintf_fuel fuel f args : (length f < fuel)%nat → __vprintf fuel f args ≠ Fail NoFuel.
Proof.
  revert f args. induction fuel as [|fuel IH]; intros f args Hf; [lia|]. cbn [__vprintf]. destruct f as [|b f]; [done|]. simpl in Hf.
  destruct (negb (b =? 37)); [apply rbind_fuel; [apply IH; lia|done]|].
  destruct (peek f =? 37); [apply rbind_fuel; [apply IH; destruct f; simpl in *; lia|done]|].
  destruct (parse_conversion_spec f args) as [Hp Hl]. apply rbind_fuel; [done|]. intros [[c f'] args'] E. apply Hl in E.
  apply rbind_fuel; [apply convert_fuel|]. intros [out args2] _. destruct f' as [|b' f']; [done|].
  apply rbind_fuel; [apply IH; simpl in E; lia|done].
Qed.

(** Formatted output terminates: whatever the format and the arguments, the loops
    over the format, over flags and widths and over the digits of an integer all end
    within their rounds.  ([vprintf] either returns its output or meets an access or an
    overflow that C leaves undefined.) *)
Theorem vprintf_terminates format args : ∀ f, vprintf format args = Fail f → f = Undef ∨ f = AssertFailed ∨ f = Panicked.
Proof. intros f E. destruct f; auto. exfalso. by apply (vprintf_fuel (S (length format)) format args); [lia|]. Qed.

Lemma vprintf_terminates_witness : vprintf [37] [] = Fail Undef ∧ (Undef = Undef ∨ Undef = AssertFailed ∨ Undef = Panicked).
Proof. split; [reflexivity|]. apply (vprintf_terminates [37] []). reflexivity. Defined.

(** ** The buffer of [vsnprintf] *)

Lemma helper_fold out w n k :
  Z.of_nat (length w) = Z.min n k → 0 <= n → 0 <= k →
  fold_left vsnprintf_helper out (mk_aux w n k) =
    mk_aux (w ++ take (Z.to_nat (k - n)) out) (n + Z.of_nat (length out)) k.
Proof.
  revert w n. induction out as [|b out IH]; intros w n Hw Hn Hk; cbn [fold_left].
  - rewrite take_nil, app_nil_r. simpl. by rewrite Z.add_0_r.
  - unfold vsnprintf_helper at 2. cbn [Stdio.written Stdio.length_ max_length]. destruct (Z.ltb_spec n k).
    + rewrite IH by (rewrite ?length_app; simpl; lia). f_equal; [|simpl; lia].
      replace (Z.to_nat (k - n)) with (S (Z.to_nat (k - (n + 1)))) by lia. by rewrite <- app_assoc.
    + rewrite IH by lia. f_equal; [|simpl; lia]. replace (Z.to_nat (k - (n + 1))) with O by lia. replace (Z.to_nat (k - n)) with O by lia. done.
Qed.

(** [vsnprintf] returns the length of the complete output and stores in the buffer
    the longest prefix of it that fits together with a null terminator, so never more
    than [buf_size] bytes; with [buf_size] zero it stores nothing. *)
Theorem vsnprintf_bounded buf_size format args :
  0 <= buf_size →
  vsnprintf buf_size format args =
    (let? out := vprintf format args in
     Ok (if 0 <? buf_size then take (Z.to_nat (buf_size - 1)) out ++ [0] else [], Z.of_nat (length out))) ∧
  ∀ bytes n, vsnprintf buf_size format args = Ok (bytes, n) → Z.of_nat (length bytes) <= buf_size.
Proof.
  intros Hb. assert (E : vsnprintf buf_size format args =
    (let? out := vprintf format args in
     Ok (if 0 <? buf_size then take (Z.to_nat (buf_size - 1)) out ++ [0] else [], Z.of_nat (length out)))).
  { unfold vsnprintf. destruct (vprintf format args) as [out|]; [|done]. cbn [rbind]. destruct (Z.ltb_spec 0 buf_size).
    - rewrite helper_fold by (simpl; lia). simpl. by rewrite Z.sub_0_r.
    - rewrite helper_fold by (simpl; lia). simpl. done. }
  split; [done|]. intros bytes n. rewrite E. intros H. run_inv. destruct (Z.ltb_spec 0 buf_size); [|simpl; lia].
  rewrite length_app, length_take. simpl. lia.
Qed.

(** "%d is 7" printed into five bytes. *)
Lemma vsnprintf_bounded_witness : ∃ n, vsnprintf 5 [37; 100; 32; 105; 115; 32; 55] [I32 42] = Ok ([52; 50; 32; 105; 0], n) ∧ n = 7.
Proof.
  destruct (vsnprintf_bounded 5 [37; 100; 32; 105; 115; 32; 55] [I32 42]) as [E _]; [lia|]. exists 7. split; [|reflexivity]. rewrite E. reflexivity.
Defined.

(** ** Decimal numbers *)

Definition digit_char (d : Z) : Prop := 48 <= d <= 57.

Lemma dec_value_app l1 l2 : dec_value (l1 ++ l2) = fold_left (λ acc d, acc * 10 + (d - 48)) l2 (dec_value l1).
Proof. unfold dec_value. by rewrite fold_left_app. Qed.

Lemma base_d_digit k : 0 <= k < 10 → digits base_d !! Z.to_nat k = Some (48 + k).
Proof.
  intros Hk. assert (k = 0 ∨ k = 1 ∨ k = 2 ∨ k = 3 ∨ k = 4 ∨ k = 5 ∨ k = 6 ∨ k = 7 ∨ k = 8 ∨ k = 9) as Hc by lia.
  repeat (destruct Hc as [->|Hc]; [reflexivity|]). by subst k.
Qed.

(** The digits that are still to be produced go in front of those there are. *)
Lemma digit_loop_dec fuel value cnt buf :
  0 <= value < 2 ^ Z.of_nat fuel →
  ∃ ds, digit_loop (S fuel) base_d false value cnt buf = Ok (buf ++ ds) ∧ dec_value (reverse ds) = value ∧
    Forall digit_char ds ∧ (0 < value → ds ≠ []) ∧ ∀ k, value < 2 ^ Z.of_nat k → (length ds <= k)%nat.
Proof.
  revert value cnt buf. induction fuel as [|fuel IH]; intros value cnt buf Hv; cbn [digit_loop].
  { assert (value = 0) as -> by (simpl in Hv; lia). exists []. rewrite app_nil_r. repeat split; [constructor|lia|simpl; lia]. }
  destruct (Z.ltb_spec 0 value); [|exists []; rewrite app_nil_r; repeat split; [unfold dec_value; simpl; lia|constructor|lia|simpl; lia]].
  change (base_ base_d) with 10. rewrite base_d_digit by mod_lia. cbn [rneed rbind andb].
  destruct (IH (value / 10) (cnt + 1) (buf ++ [48 + value mod 10])) as (ds & E & Hval & Hds & _ & Hlen).
  { rewrite Nat2Z.inj_succ, Z.pow_succ_r in Hv by lia. split; [mod_lia|]. apply Z.div_lt_upper_bound; lia. }
  rewrite <- app_assoc in E. simpl app in E. exists ((48 + value mod 10) :: ds). split_and!; [exact E| | |done|].
  - rewrite reverse_cons, dec_value_app, Hval. simpl. mod_lia.
  - constructor; [unfold digit_char; mod_lia|done].
  - intros [|k] Hk; [simpl in Hk; lia|]. simpl length. rewrite Nat2Z.inj_succ, Z.pow_succ_r in Hk by lia.
    enough ((length ds <= k)%nat) by lia. apply Hlen. apply Z.div_lt_upper_bound; lia.
Qed.

(** The text of an integer printed with [%d]. *)
Lemma printf_d_text n : in_s32 n →
  ∃ ds, vprintf [37; 100] [I32 n] = Ok ((if n <? 0 then [45] else []) ++ ds) ∧ dec_value ds = Z.abs n ∧ Forall digit_char ds ∧ ds ≠ [].
Proof.
  intros Hn. unfold vprintf. cbn [length __vprintf negb Z.eqb Pos.eqb peek head default from_option tail].
  set (c := mk_conv false false false false false false 0 (-1) INT).
  assert (Ep : parse_conversion [100] [I32 n] = Ok (c, [100], [I32 n])) by reflexivity.
  change (negb (37 =? 37)) with false. cbv iota. change (peek [100] =? 37) with false. cbv iota. rewrite Ep. cbn [rbind].
  assert (Ec : convert (peek [100]) c [I32 n] = rbind (format_integer (Z.abs n) true (n <? 0) base_d c) (λ out, Ok (out, []))).
  { unfold convert. cbn [peek head]. change ((default 0 (Some 100) =? 100) || (default 0 (Some 100) =? 105)) with true. cbn [take_arg rbind signed_arg type_ c].
    rewrite s32_id by done. replace (u64 (if n <? 0 then - n else n)) with (Z.abs n); [done|].
    destruct (Z.ltb_spec n 0); rewrite u64_id by (unfold in_s32, in_u64 in *; lia); lia. }
  rewrite Ec. unfold format_integer, digit_buffer.
  destruct (digit_loop_dec 64 (Z.abs n) 0 []) as (ds & E & Hval & Hds & Hne & Hlen); [unfold in_s32 in Hn; simpl; lia|].
  change (GROUP c) with false. rewrite E. cbn [rbind app]. change (if precision c <? 0 then 1 else precision c) with 1.
  change (POUND c && _ && _) with false. cbv iota.
  assert (Hl : (length ds <= 32)%nat) by (apply Hlen; unfold in_s32 in Hn; simpl; lia).
  assert (Hpad : ∃ ds', pad_zeros ds 1 = ds' ∧ dec_value (reverse ds') = Z.abs n ∧ Forall digit_char ds' ∧ ds' ≠ [] ∧ (length ds' <= 32)%nat).
  { eexists. split; [done|]. unfold pad_zeros. destruct ds as [|d ds].
    - simpl. destruct (decide (0 < Z.abs n)) as [Hp|Hp]; [by destruct (Hne Hp)|]. split; [unfold dec_value; simpl; lia|].
      split; [repeat constructor; lia|]. split; [done|]. lia.
    - replace (Z.to_nat (Z.min 1 63 - Z.of_nat (length (d :: ds)))) with O by (simpl; lia). rewrite app_nil_r. done. }
  destruct Hpad as (ds' & -> & Hval' & Hds' & Hne' & Hl'). rewrite (proj2 (Z.leb_le _ 64)) by lia. cbn [rbind].
  exists (reverse ds'). split; [|split; [done|split; [by apply Forall_reverse|]]].
  - change (width c) with 0. rewrite Z.max_l by (repeat destruct (_ =? 0); lia).
    unfold sign_of. cbn [PLUS SPACE MINUS ZERO POUND c]. cbn [orb andb output_dup]. change (output_dup 32 0) with (@nil Z). simpl app.
    rewrite !app_nil_r. by destruct (n <? 0).
  - intros Hnil. apply Hne'. by rewrite <- (reverse_involutive ds'), Hnil.
Qed.

(** ** Reading a printed integer back *)

Lemma isdigit_char d : digit_char d → isdigit d = true.
Proof. intros [H1 H2]. unfold isdigit. by rewrite (proj2 (Z.leb_le 48 d)), (proj2 (Z.leb_le d 57)). Qed.

Lemma fold_dec_mono ds a : Forall digit_char ds → 0 <= a → a <= fold_left (λ acc d, acc * 10 + (d - 48)) ds a.
Proof.
  intros Hd. revert a. induction Hd as [|d ds Hd _ IH]; intros a Ha; simpl; [lia|]. unfold digit_char in Hd.
  etransitivity; [|apply IH; lia]. lia.
Qed.

(** The digits are accumulated as a negative number. *)
Lemma parse_digits_spec fuel p ds a m :
  str m p ds → Forall digit_char ds → 0 <= a → fold_left (λ acc d, acc * 10 + (d - 48)) ds a <= 2 ^ 31 → (length ds < fuel)%nat →
  parse_digits fuel p (- a) m = Ok (- fold_left (λ acc d, acc * 10 + (d - 48)) ds a, m).
Proof.
  revert p ds a. induction fuel as [|fuel IH]; intros p ds a Hs Hd Ha Hb Hf; [lia|]. cbn [parse_digits]. destruct ds as [|d ds]; simpl in Hs.
  - rewrite (bind_ok _ _ _ _ _ (load_ok _ _ _ Hs)). done.
  - destruct Hs as (Hl & _ & Hs). apply Forall_cons in Hd as [Hd Hds]. rewrite (bind_ok _ _ _ _ _ (load_ok _ _ _ Hl)), isdigit_char by done.
    simpl in Hb, Hf. unfold digit_char in Hd. pose proof (fold_dec_mono ds (a * 10 + (d - 48)) Hds ltac:(lia)) as Hm.
    unfold in_int at 1. rewrite (proj2 (Z.leb_le (- 2 ^ 31) (- a * 10))), (proj2 (Z.ltb_lt (- a * 10) (2 ^ 31))) by lia. cbn [andb].
    erewrite bind_ok by reflexivity. unfold in_int. rewrite (proj2 (Z.leb_le (- 2 ^ 31) _)), (proj2 (Z.ltb_lt _ (2 ^ 31))) by lia. cbn [andb].
    erewrite bind_ok by reflexivity. replace (- a * 10 - (d - 48)) with (- (a * 10 + (d - 48))) by lia.
    apply (IH (p + 1) ds (a * 10 + (d - 48))); try done; lia.
Qed.

(** Every [int] printed with [%d] is read back unchanged by [atoi], including the
    smallest one, whose absolute value is not an [int]; no step overflows. *)
Theorem printf_atoi_roundtrip n p m :
  in_s32 n → p ≠ null → ∃ text, vprintf [37; 100] [I32 n] = Ok text ∧ (str m p text → atoi p m = Ok (n, m)).
Proof.
  intros Hn Hp. destruct (printf_d_text n Hn) as (ds & E & Hval & Hds & Hne). eexists. split; [exact E|]. intros Hs.
  unfold atoi. rewrite (bind_ok _ _ _ _ _ (assert_nonnull_ok p m Hp)), (bind_ok _ _ _ _ _ (rounds_ok m)). pose proof (str_size m p _ Hs) as Hsz.
  assert (Hfold : fold_left (λ acc d, acc * 10 + (d - 48)) ds 0 = Z.abs n) by exact Hval.
  destruct ds as [|d ds]; [done|]. destruct (Z.ltb_spec n 0) as [Hneg|Hpos]; simpl app in *.
  - destruct Hs as (Hl & _ & Hs). rewrite (bind_ok _ _ _ p m) by (cbn [skip_space]; by rewrite (bind_ok _ _ _ _ _ (load_ok _ _ _ Hl))).
    rewrite (bind_ok _ _ _ _ _ (load_ok _ _ _ Hl)). change ((45 =? 43) || (45 =? 45)) with true. change (45 =? 45) with true. cbv iota.
    pose proof (parse_digits_spec (S (size m)) (p + 1) (d :: ds) 0 m Hs Hds ltac:(lia)) as Hpd. rewrite Hfold in Hpd.
    change (- 0) with 0 in Hpd. rewrite (bind_ok _ _ _ _ _ (Hpd ltac:(unfold in_s32 in Hn; lia) ltac:(simpl in *; lia))).
    unfold ret. do 2 f_equal. lia.
  - pose proof Hs as (Hl & _ & _). pose proof (proj1 (proj1 (Forall_cons _ _ _) Hds)) as Hd. unfold digit_char in Hd.
    rewrite (bind_ok _ _ _ p m).
    2: { cbn [skip_space]. rewrite (bind_ok _ _ _ _ _ (load_ok _ _ _ Hl)). unfold isspace.
         repeat match goal with |- context [d =? ?k] => destruct (Z.eqb_spec d k); [lia|] end. done. }
    rewrite (bind_ok _ _ _ _ _ (load_ok _ _ _ Hl)). destruct (Z.eqb_spec d 43); [lia|]. destruct (Z.eqb_spec d 45); [lia|]. cbn [orb].
    pose proof (parse_digits_spec (S (size m)) p (d :: ds) 0 m Hs Hds ltac:(lia)) as Hpd. rewrite Hfold in Hpd.
    change (- 0) with 0 in Hpd. rewrite (bind_ok _ _ _ _ _ (Hpd ltac:(unfold in_s32 in Hn; lia) ltac:(simpl in *; lia))).
    unfold in_int. unfold in_s32 in Hn. rewrite (proj2 (Z.leb_le _ _)), (proj2 (Z.ltb_lt _ _)) by lia. cbn [andb]. unfold ret. do 2 f_equal. lia.
Qed.

Lemma printf_atoi_roundtrip_witness :
  let m := list_to_map (zip (seqZ 10 12) [45; 50; 49; 52; 55; 52; 56; 51; 54; 52; 56; 0]) : bytes_mem in
  ∃ text, vprintf [37; 100] [I32 (- 2 ^ 31)] = Ok text ∧ atoi 10 m = Ok (- 2 ^ 31, m).
Proof.
  intros m. destruct (printf_atoi_roundtrip (- 2 ^ 31) 10 m) as (text & E & H); [split; lia|done|].
  exists text. split; [exact E|]. apply H. vm_compute in E. injection E as <-. by repeat split.
Defined.

(** A negative [*] width sets the MINUS flag without clearing ZERO, so the field is
    padded twice: "%0*d" with width -4 gives "0007   ". *)
Lemma negative_width_pads_twice : vprintf [37; 48; 42; 100] [I32 (-4); I32 7] = Ok [48; 48; 48; 55; 32; 32; 32].
Proof. reflexivity. Qed.

(** A format that ends in a percent sign makes [__vprintf] run past its terminator. *)
Lemma trailing_percent_undefined : vprintf [97; 37] [] = Fail Undef.
Proof. reflexivity. Qed.

(** The messages for unsupported conversions are what [__printf] makes of their
    formats. *)
Lemma message_texts ch :
  vprintf [60; 60; 110; 111; 32; 37; 37; 37; 99; 32; 105; 110; 32; 107; 101; 114; 110; 101; 108; 62; 62] [I32 ch] = Ok (no_kernel_text (u8 (s32 ch))) ∧
  vprintf [60; 60; 110; 111; 32; 37; 37; 37; 99; 32; 99; 111; 110; 118; 101; 114; 115; 105; 111; 110; 62; 62] [I32 ch] = Ok (no_conversion_text (u8 (s32 ch))).
Proof. split; reflexivity. Qed.

Example hex_dump_line :
  hex_dump 3 4 [72; 105; 10] true =
    Ok [48; 48; 48; 48; 48; 48; 48; 48; 32; 32; 32; 32; 32; 32; 32; 32; 32; 32; 32; 32; 32; 32; 52; 56; 32; 54; 57; 32; 48; 97; 32;
        32; 32; 32; 32; 32; 32; 32; 32; 32; 32; 32; 32; 32; 32; 32; 32; 32; 32; 32; 32; 32; 32; 32; 32; 32; 32; 32;
        124; 32; 32; 32; 32; 72; 105; 46; 32; 32; 32; 32; 32; 32; 32; 32; 32; 124; 10].
Proof. vm_compute. reflexivity. Qed.
