(* ===== verification/Random.v ===== *)
(** * Pseudo-random numbers (src/lib/random.c)

    The RC4 generator: a permutation of the 256 bytes and two indexes.  The invariant is
    that the array stays a permutation; it makes every access of the generator fall
    inside the array and every output a byte. *)

From S2P Require Import Prelude.
Local Open Scope Z_scope.

Record rc4 := mk_rc4 { s_ : list Z; s_i : Z; s_j : Z; inited : bool }.

(** [s[i]] *)
Definition get (s : list Z) (i : Z) : res Z := rneed (s !! Z.to_nat i).

Definition swap_byte (s : list Z) (a b : Z) : res (list Z) :=
  let? x := get s a in
  let? y := get s b in
  Ok (<[Z.to_nat b := x]> (<[Z.to_nat a := y]> s)).

(** [for (i = j = 0; i < 256; i++)]; [n] rounds are left. *)
Fixpoint init_loop (n : nat) (seedp : list Z) (s : list Z) (i j : Z) : res (list Z) :=
  match n with
  | O => Ok s
  | S n' =>
      let? x := get s i in
      let? k := get seedp (i mod 4) in
      let j := u8 (j + (x + k)) in
      let? s := swap_byte s i j in
      init_loop n' seedp s (i + 1) j
  end.

Definition random_init (seed : Z) : res rc4 :=
  let? s := init_loop 256 (le32 (u32 seed)) (seqZ 0 256) 0 0 in
  Ok (mk_rc4 s 0 0 true).

Definition next_byte (r : rc4) : res (Z * rc4) :=
  let i := u8 (s_i r + 1) in
  let? x := get (s_ r) i in
  let j := u8 (s_j r + x) in
  let? s := swap_byte (s_ r) i j in
  let? a := get s i in
  let? b := get s j in
  let? out := get s (u8 (a + b)) in
  Ok (out, mk_rc4 s i j (inited r)).

Fixpoint next_bytes (n : nat) (r : rc4) : res (list Z * rc4) :=
  match n with
  | O => Ok ([], r)
  | S n' =>
      let? (b, r) := next_byte r in
      let? (rest, r) := next_bytes n' r in
      Ok (b :: rest, r)
  end.

Definition random_bytes (size : Z) (r : rc4) : res (list Z * rc4) :=
  let? r := (if inited r then Ok r else random_init 0) in
  next_bytes (Z.to_nat size) r.

Definition random_ulong (r : rc4) : res (Z * rc4) :=
  let? (bytes, r) := random_bytes 4 r in Ok (from_le32 bytes, r).

(** ** The array stays a permutation of the bytes *)

Definition is_perm (s : list Z) : Prop := s ≡ₚ seqZ 0 256.
Record rc4_ok (r : rc4) : Prop := {
  ro_perm : is_perm (s_ r);
  ro_i : 0 <= s_i r < 256;
  ro_j : 0 <= s_j r < 256
}.

Lemma get_ok s i : is_perm s → 0 <= i < 256 → ∃ x, get s i = Ok x ∧ s !! Z.to_nat i = Some x ∧ 0 <= x < 256.
Proof.
  intros Hp Hi. destruct (lookup_lt_is_Some_2 s (Z.to_nat i)) as [x Hx].
  { unfold is_perm in Hp. rewrite Hp, length_seqZ. lia. }
  exists x. unfold get. rewrite Hx. split_and!; [done|done|..]; assert (Hin : x ∈ seqZ 0 256) by (unfold is_perm in Hp; rewrite <- Hp; by eapply list_elem_of_lookup_2);
    apply elem_of_seqZ in Hin; lia.
Qed.

Lemma swap_byte_ok s a b : is_perm s → 0 <= a < 256 → 0 <= b < 256 → ∃ s', swap_byte s a b = Ok s' ∧ is_perm s'.
Proof.
  intros Hp Ha Hb. destruct (get_ok s a Hp Ha) as (x & Ex & Hx & _), (get_ok s b Hp Hb) as (y & Ey & Hy & _).
  unfold swap_byte. rewrite Ex, Ey. cbn [rbind]. eexists. split; [done|]. unfold is_perm. by rewrite (list_swap_perm s _ _ x y).
Qed.

Lemma u8_range x : 0 <= u8 x < 256.
Proof. mod_lia. Qed.

Lemma init_loop_ok n seed s i j :
  is_perm s → 0 <= i → i + Z.of_nat n <= 256 → 0 <= j < 256 → ∃ s', init_loop n (le32 seed) s i j = Ok s' ∧ is_perm s'.
Proof.
  revert s i j. induction n as [|n IH]; intros s i j Hp Hi Hn Hj; cbn [init_loop]; [by exists s|].
  destruct (get_ok s i Hp ltac:(lia)) as (x & Ex & _). rewrite Ex. cbn [rbind].
  destruct (lookup_lt_is_Some_2 (le32 seed) (Z.to_nat (i mod 4))) as [k Hk]; [simpl; mod_lia|].
  unfold get at 1. rewrite Hk. cbn [rneed rbind].
  destruct (swap_byte_ok s i (u8 (j + (x + k))) Hp ltac:(lia) (u8_range _)) as (s1 & -> & Hp1). cbn [rbind].
  apply IH; [done|lia|lia|apply u8_range].
Qed.

Lemma random_init_ok seed : ∃ r, random_init seed = Ok r ∧ rc4_ok r.
Proof.
  unfold random_init. destruct (init_loop_ok 256 (u32 seed) (seqZ 0 256) 0 0) as (s & -> & Hp); [by unfold is_perm|lia..|].
  cbn [rbind]. eexists. split; [done|]. split; simpl; [done|lia|lia].
Qed.

Lemma next_byte_ok r : rc4_ok r → ∃ b r', next_byte r = Ok (b, r') ∧ rc4_ok r' ∧ 0 <= b < 256.
Proof.
  intros [Hp Hi Hj]. unfold next_byte. destruct (get_ok (s_ r) (u8 (s_i r + 1)) Hp (u8_range _)) as (x & -> & _). cbn [rbind].
  destruct (swap_byte_ok (s_ r) (u8 (s_i r + 1)) (u8 (s_j r + x)) Hp (u8_range _) (u8_range _)) as (s1 & -> & Hp1). cbn [rbind].
  destruct (get_ok s1 (u8 (s_i r + 1)) Hp1 (u8_range _)) as (a & -> & _). cbn [rbind].
  destruct (get_ok s1 (u8 (s_j r + x)) Hp1 (u8_range _)) as (b & -> & _). cbn [rbind].
  destruct (get_ok s1 (u8 (a + b)) Hp1 (u8_range _)) as (out & -> & _ & Hout). cbn [rbind].
  do 2 eexists. split; [done|]. split; [|done]. split; simpl; [done|apply u8_range|apply u8_range].
Qed.

Lemma next_bytes_ok n r : rc4_ok r →
  ∃ bs r', next_bytes n r = Ok (bs, r') ∧ rc4_ok r' ∧ length bs = n ∧ Forall (λ b, 0 <= b < 256) bs.
Proof.
  revert r. induction n as [|n IH]; intros r Hr; cbn [next_bytes]; [by exists [], r|].
  destruct (next_byte_ok r Hr) as (b & r1 & -> & Hr1 & Hb). cbn [rbind].
  destruct (IH r1 Hr1) as (bs & r2 & -> & Hr2 & Hl & Hbs). cbn [rbind]. exists (b :: bs), r2. split_and!; [done|done|simpl; lia|by constructor].
Qed.

(** After any seeding, and from any state that seeding and earlier calls lead to
    (or the state of a generator that was never seeded), [random_bytes] returns exactly
    [size] bytes without ever indexing outside its array, and the array stays a
    permutation of the 256 byte values. *)
Theorem random_bytes_invariant r size :
  rc4_ok r ∨ inited r = false → 0 <= size →
  ∃ bs r', random_bytes size r = Ok (bs, r') ∧ rc4_ok r' ∧ Z.of_nat (length bs) = size ∧ Forall (λ b, 0 <= b < 256) bs ∧
    (∀ seed, ∃ r0, random_init seed = Ok r0 ∧ rc4_ok r0).
Proof.
  intros Hr Hs. unfold random_bytes.
  assert (Hgo : ∃ r0, (if inited r then Ok r else random_init 0) = Ok r0 ∧ rc4_ok r0).
  { destruct (inited r); [destruct Hr; [by exists r|done]|apply random_init_ok]. }
  destruct Hgo as (r0 & -> & Hr0). cbn [rbind]. destruct (next_bytes_ok (Z.to_nat size) r0 Hr0) as (bs & r' & -> & Hr' & Hl & Hb).
  exists bs, r'. split_and!; [done|done|lia|done|]. intros seed. apply random_init_ok.
Qed.

Lemma random_bytes_invariant_witness :
  ∃ bs r', random_bytes 3 (mk_rc4 [] 0 0 false) = Ok (bs, r') ∧ rc4_ok r' ∧ Z.of_nat (length bs) = 3.
Proof.
  destruct (random_bytes_invariant (mk_rc4 [] 0 0 false) 3) as (bs & r' & E & H1 & H2 & _); [by right|lia|]. eauto.
Defined.
