(* ===== verification/Ustar.v ===== *)
(** * Tar archives (src/lib/ustar.c)

    A header is its 512 bytes; a file name is the bytes of a C string without the
    terminator. *)

From S2P Require Import Prelude Stdio StdioSpec.
Local Open Scope Z_scope.

Definition USTAR_HEADER_SIZE : Z := 512.
Definition USTAR_REGULAR : Z := 48.
Definition USTAR_DIRECTORY : Z := 53.
Definition USTAR_EOF : Z := -1.

(** The fields of [struct ustar_header]: offset and size. *)
Definition f_name := (0, 100).
Definition f_mode := (100, 8).
Definition f_uid := (108, 8).
Definition f_gid := (116, 8).
Definition f_size := (124, 12).
Definition f_mtime := (136, 12).
Definition f_chksum := (148, 8).
Definition f_typeflag := (156, 1).
Definition f_magic := (257, 6).
Definition f_version := (263, 2).
Definition f_uname := (265, 32).
Definition f_gname := (297, 32).
Definition f_prefix := (345, 155).

Definition field (f : Z * Z) (h : list Z) : list Z := take (Z.to_nat f.2) (drop (Z.to_nat f.1) h).
(** Stores bytes from the start of a field on. *)
Definition put (f : Z * Z) (bs : list Z) (h : list Z) : list Z :=
  take (Z.to_nat f.1) h ++ bs ++ drop (Z.to_nat f.1 + length bs) h.

(** The characters up to a terminator. *)
Fixpoint c_string (bs : list Z) : list Z := match bs with [] => [] | b :: r => if b =? 0 then [] else b :: c_string r end.

(** [strlcpy] and [snprintf] into a field. *)
Definition strlcpy (f : Z * Z) (s : list Z) (h : list Z) : list Z := put f (take (Z.to_nat (f.2 - 1)) s ++ [0]) h.
Definition snprintf (f : Z * Z) (size : Z) (format : list Z) (args : list arg) (h : list Z) : res (list Z) :=
  let? (bs, _) := vsnprintf size format args in Ok (put f bs h).

Fixpoint chksum_loop (i : Z) (h : list Z) (chksum : Z) : Z :=
  match h with
  | [] => chksum
  | b :: r =>
      let in_chksum_field := (f_chksum.1 <=? i) && (i <? f_chksum.1 + f_chksum.2) in
      chksum_loop (i + 1) r (u32 (chksum + (if in_chksum_field then 32 else b)))
  end.

Definition calculate_chksum (h : list Z) : Z := chksum_loop 0 h 0.

(** [strchr (s, '/') + 1]; the loop's condition makes sure that there is a slash. *)
Fixpoint after_slash (s : list Z) : res (list Z) :=
  match s with
  | [] => Fail Undef
  | c :: r => if c =? 47 then Ok r else after_slash r
  end.

Definition antisocial (s : list Z) : bool :=
  match s with
  | 47 :: _ => true
  | 46 :: 47 :: _ => true
  | 46 :: 46 :: 47 :: _ => true
  | _ => false
  end.

(** Each round removes at least one character. *)
Fixpoint strip_loop (fuel : nat) (s : list Z) : res (list Z) :=
  match fuel with
  | O => Fail NoFuel
  | S fuel => if antisocial s then let? s := after_slash s in strip_loop fuel s else Ok s
  end.

Definition strip_antisocial_prefixes (file_name : list Z) : res (list Z) :=
  let? s := strip_loop (S (length file_name)) file_name in
  Ok (if bool_decide (s = []) || bool_decide (s = [46; 46]) then [46] else s).

Definition oct7 : list Z := [37; 48; 55; 111].
Definition oct11 : list Z := [37; 48; 49; 49; 111].
Definition zeros7 : list Z := [48; 48; 48; 48; 48; 48; 48].
Definition ustar_text : list Z := [117; 115; 116; 97; 114].
Definition root_text : list Z := [114; 111; 111; 116].

(** [None] when the name is too long; the message printed then is left out. *)
Definition ustar_make_header (file_name : list Z) (type size : Z) : res (option (list Z)) :=
  rassert ((type =? USTAR_REGULAR) || (type =? USTAR_DIRECTORY)) ;;?
  let? file_name := strip_antisocial_prefixes file_name in
  if 99 <? Z.of_nat (length file_name) then Ok None else
  let h := replicate (Z.to_nat USTAR_HEADER_SIZE) 0 in
  let h := strlcpy f_name file_name h in
  let? h := snprintf f_mode f_mode.2 oct7 [I32 (if type =? USTAR_REGULAR then 420 else 493)] h in
  let h := strlcpy f_uid zeros7 h in
  let h := strlcpy f_gid zeros7 h in
  let? h := snprintf f_size f_size.2 oct11 [I32 size] h in
  let? h := snprintf f_mtime f_size.2 oct11 [I32 1136102400] h in
  let h := put f_typeflag [u8 type] h in
  let h := strlcpy f_magic ustar_text h in
  let h := put f_version [48; 48] h in
  let h := strlcpy f_gname root_text h in
  let h := strlcpy f_uname root_text h in
  let? h := snprintf f_chksum f_chksum.2 oct7 [I32 (calculate_chksum h)] h in
  Ok (Some h).

Fixpoint parse_octal_loop (s : list Z) (ofs value : Z) : option Z :=
  match s with
  | [] => None
  | c :: r =>
      if (48 <=? c) && (c <=? 55) then
        if (2 ^ 32 - 1) / 8 <? value then None else parse_octal_loop r (ofs + 1) (u32 (c - 48 + value * 8))
      else if (c =? 32) || (c =? 0) then (if 0 <? ofs then Some value else None)
      else None
  end.

Definition parse_octal_field (s : list Z) : option Z := parse_octal_loop s 0 0.

Definition is_all_zeros (block : list Z) : bool := forallb (λ b, b =? 0) block.

(** The messages, and what is stored on success: name, type and size. *)
Inductive parsed :=
| Not_ustar | Invalid_version | Corrupt_chksum | Checksum_mismatch | Name_too_long | Unimplemented_type | Corrupt_size | Too_large
| Entry (file_name : option (list Z)) (type size : Z).

Definition ustar_parse_header (header : list Z) : res parsed :=
  if is_all_zeros header then Ok (Entry None USTAR_EOF 0)
  else if negb (bool_decide (field f_magic header = ustar_text ++ [0])) then Ok Not_ustar
  else if negb (bool_decide (field f_version header = [48; 48])) then Ok Invalid_version
  else
    match parse_octal_field (field f_chksum header) with
    | None => Ok Corrupt_chksum
    | Some chksum =>
        let typeflag := nth 0 (field f_typeflag header) 0 in
        if negb (chksum =? calculate_chksum header) then Ok Checksum_mismatch
        else if negb (nth 99 (field f_name header) 0 =? 0) || negb (nth 0 (field f_prefix header) 0 =? 0) then Ok Name_too_long
        else if negb (typeflag =? USTAR_REGULAR) && negb (typeflag =? USTAR_DIRECTORY) then Ok Unimplemented_type
        else
          let success size_ul :=
            let? name := strip_antisocial_prefixes (c_string (field f_name header)) in
            Ok (Entry (Some name) typeflag size_ul) in
          if typeflag =? USTAR_REGULAR then
            match parse_octal_field (field f_size header) with
            | None => Ok Corrupt_size
            | Some size_ul => if 2 ^ 31 - 1 <? size_ul then Ok Too_large else success size_ul
            end
          else success 0
    end.

Example make_parse : ∃ h, ustar_make_header [47; 46; 46; 47; 97; 47; 98] USTAR_REGULAR 1000 = Ok (Some h) ∧ length h = 512%nat ∧
  ustar_parse_header h = Ok (Entry (Some [97; 47; 98]) USTAR_REGULAR 1000).
Proof. eexists. split; [vm_compute; reflexivity|]. vm_compute. done. Qed.
