(* ===== verification/UstarSpec.v ===== *)
(** * What tar headers promise (src/lib/ustar.c)

    A header that was made is parsed back; a header with a changed byte is rejected; and
    the names of an archive stay inside the directory it is extracted to. *)

From S2P Require Import Prelude Stdio StdioSpec Ustar.
Local Open Scope Z_scope.

(** ** Names *)

(** A name that is not empty, not [..], and does not start with [/], [./] or [../]. *)
Definition safe_name (s : list Z) : Prop := antisocial s = false ∧ s ≠ [] ∧ s ≠ [46; 46].

Lemma antisocial_slash s : antisocial s = true → ∃ r, after_slash s = Ok r ∧ (length r < length s)%nat ∧ ∃ p, s = p ++ r.
Proof.
  intros H. assert (Hc : (∃ r, s = 47 :: r) ∨ (∃ r, s = 46 :: 47 :: r) ∨ ∃ r, s = 46 :: 46 :: 47 :: r).
  { unfold antisocial in H. repeat (case_match; try discriminate); subst; eauto 6. }
  destruct Hc as [[r ->]|[[r ->]|[r ->]]]; exists r; (split; [done|]; split; [simpl; lia|]); [by exists [47]|by exists [46; 47]|by exists [46; 46; 47]].
Qed.

Lemma strip_loop_total fuel s : (length s < fuel)%nat → ∃ r, strip_loop fuel s = Ok r ∧ antisocial r = false ∧ ∃ p, s = p ++ r.
Proof.
  revert s. induction fuel as [|fuel IH]; intros s Hf; [lia|]. cbn [strip_loop]. destruct (antisocial s) eqn:Ea.
  - destruct (antisocial_slash s Ea) as (r & -> & Hr & p & ->). cbn [rbind]. destruct (IH r) as (r' & -> & Hr' & p' & ->); [lia|].
    exists r'. split; [done|]. split; [done|]. exists (p ++ p'). by rewrite app_assoc.
  - exists s. split; [done|]. split; [done|]. by exists [].
Qed.

Lemma strip_total s : ∃ r, strip_antisocial_prefixes s = Ok r ∧ safe_name r ∧ (r = [46] ∨ ∃ p, s = p ++ r).
Proof.
  unfold strip_antisocial_prefixes. destruct (strip_loop_total (S (length s)) s) as (r & -> & Hr & Hp); [lia|]. cbn [rbind].
  eexists. split; [reflexivity|]. destruct (bool_decide_reflect (r = [])); [by repeat split; auto|].
  destruct (bool_decide_reflect (r = [46; 46])); [by repeat split; auto|]. by repeat split; auto.
Qed.

Lemma strip_safe s : safe_name s → strip_antisocial_prefixes s = Ok s.
Proof.
  intros (H1 & H2 & H3). unfold strip_antisocial_prefixes. cbn [strip_loop]. rewrite H1. cbn [rbind]. by rewrite !bool_decide_eq_false_2.
Qed.

(** ** Octal numbers *)

(** The [k] lowest octal digits of [v]. *)
Fixpoint oct (k : nat) (v : Z) : list Z := match k with O => [] | S k' => oct k' (v / 8) ++ [48 + v mod 8] end.

Lemma oct_length k v : length (oct k v) = k.
Proof. revert v. induction k as [|k IH]; intros v; [done|]. simpl. rewrite length_app, IH. simpl. lia. Qed.

Lemma oct_zero k : oct k 0 = replicate k 48.
Proof. induction k as [|k IH]; [done|]. cbn [oct]. change (0 / 8) with 0. rewrite IH. by rewrite <- replicate_cons_app. Qed.

Lemma base_o_digit k : 0 <= k < 8 → digits base_o !! Z.to_nat k = Some (48 + k).
Proof.
  intros Hk. assert (k = 0 ∨ k = 1 ∨ k = 2 ∨ k = 3 ∨ k = 4 ∨ k = 5 ∨ k = 6 ∨ k = 7) as Hc by lia.
  repeat (destruct Hc as [->|Hc]; [reflexivity|]). by subst k.
Qed.

Lemma digit_loop_oct w fuel value cnt buf : 0 <= value < 8 ^ Z.of_nat w → (w < fuel)%nat →
  ∃ ds, digit_loop fuel base_o false value cnt buf = Ok (buf ++ ds) ∧ (length ds <= w)%nat ∧ replicate (w - length ds) 48 ++ reverse ds = oct w value.
Proof.
  revert fuel value cnt buf. induction w as [|w IH]; intros fuel value cnt buf Hv Hf; (destruct fuel as [|fuel]; [lia|]); cbn [digit_loop].
  - assert (value = 0) as -> by (simpl in Hv; lia). exists []. by rewrite app_nil_r.
  - destruct (Z.ltb_spec 0 value).
    + change (base_ base_o) with 8. rewrite base_o_digit by mod_lia. cbn [rneed rbind andb].
      destruct (IH fuel (value / 8) (cnt + 1) (buf ++ [48 + value mod 8])) as (ds & E & Hl & Hd); [|lia|].
      { rewrite Nat2Z.inj_succ, Z.pow_succ_r in Hv by lia. split; [mod_lia|]. apply Z.div_lt_upper_bound; lia. }
      exists ((48 + value mod 8) :: ds). rewrite <- app_assoc in E. split; [exact E|]. simpl length. split; [lia|].
      rewrite reverse_cons, app_assoc. cbn [oct Nat.sub]. by rewrite Hd.
    + assert (value = 0) as -> by lia. exists []. rewrite app_nil_r. split; [done|]. split; [simpl; lia|]. cbn [length Nat.sub]. rewrite oct_zero.
      by rewrite reverse_nil, app_nil_r.
Qed.

(** A number printed with zeros in front, in [w] places. *)
Lemma format_octal w v : (0 < w <= 21)%nat → 0 <= v < 8 ^ Z.of_nat w →
  format_integer v false false base_o (mk_conv false false false false true false (Z.of_nat w) (-1) INT) = Ok (oct w v).
Proof.
  intros Hw Hv. unfold format_integer, digit_buffer. destruct (digit_loop_oct w 65 v 0 [] Hv) as (ds & E & Hl & Hd); [lia|].
  cbn [GROUP POUND precision width MINUS ZERO]. rewrite E. cbn [rbind app andb]. change (if -1 <? 0 then 1 else -1) with 1. cbv iota.
  unfold pad_zeros. change (Z.min 1 63) with 1. change (0 =? 0) with true. cbv iota. cbn [orb sign_of].
  destruct ds as [|d ds].
  - rewrite <- Hd. cbn. change (Z.to_nat (1 - Z.of_nat 0)) with 1%nat. cbn [replicate length]. change (Z.of_nat 1 <=? 64) with true. cbn [rbind length].
    rewrite !app_nil_r. change (reverse [48]) with (replicate 1 48). unfold output_dup. rewrite <- replicate_add. do 2 f_equal. lia.
  - replace (Z.to_nat (1 - Z.of_nat (length (d :: ds)))) with O by (simpl; lia). rewrite app_nil_r.
    rewrite (proj2 (Z.leb_le _ 64)) by lia. cbn [rbind]. change (0 =? 0) with true. cbv iota. rewrite app_nil_r. f_equal. rewrite <- Hd. cbn [app].
    unfold output_dup. do 2 f_equal. lia.
Qed.

Lemma printf_oct7 v : 0 <= v < 8 ^ 7 → vprintf oct7 [I32 v] = Ok (oct 7 v).
Proof.
  intros Hv. unfold vprintf, oct7. cbn [length __vprintf]. change (negb (37 =? 37)) with false. cbv iota. change (peek [48; 55; 111] =? 37) with false. cbv iota.
  change (parse_conversion [48; 55; 111] [I32 v]) with (Ok (mk_conv false false false false true false 7 (-1) INT, [111], [I32 v])). cbn [rbind].
  unfold convert. change (peek [111]) with 111. cbn [Z.eqb Pos.eqb orb take_arg rbind unsigned_arg type_]. rewrite u32_id by (unfold in_u32; lia).
  pose proof (format_octal 7 v ltac:(lia) Hv) as E. change (Z.of_nat 7) with 7 in E. rewrite E. cbn [rbind]. by rewrite app_nil_r.
Qed.

Lemma printf_oct11 v : 0 <= v < 2 ^ 32 → vprintf oct11 [I32 v] = Ok (oct 11 v).
Proof.
  intros Hv. unfold vprintf, oct11. cbn [length __vprintf]. change (negb (37 =? 37)) with false. cbv iota. change (peek [48; 49; 49; 111] =? 37) with false. cbv iota.
  change (parse_conversion [48; 49; 49; 111] [I32 v]) with (Ok (mk_conv false false false false true false 11 (-1) INT, [111], [I32 v])). cbn [rbind].
  unfold convert. change (peek [111]) with 111. cbn [Z.eqb Pos.eqb orb take_arg rbind unsigned_arg type_]. rewrite u32_id by (unfold in_u32; lia).
  pose proof (format_octal 11 v ltac:(lia) ltac:(simpl; lia)) as E. change (Z.of_nat 11) with 11 in E. rewrite E. cbn [rbind]. by rewrite app_nil_r.
Qed.

(** The text and its terminator fit the field. *)
Lemma snprintf_fits f size format args h out : vprintf format args = Ok out → Z.of_nat (length out) < size →
  snprintf f size format args h = Ok (put f (out ++ [0]) h).
Proof.
  intros E Hl. unfold snprintf, vsnprintf. rewrite E. cbn [rbind]. destruct (Z.ltb_spec 0 size); [|lia].
  rewrite helper_fold by (simpl; lia). cbn [Stdio.written app rbind]. rewrite take_ge by lia. done.
Qed.

(** Digits that are read back. *)
Lemma parse_octal_oct k v rest ofs acc : 0 <= acc → 0 <= v < 8 ^ Z.of_nat k → acc * 8 ^ Z.of_nat k + v < 2 ^ 32 →
  parse_octal_loop (oct k v ++ rest) ofs acc = parse_octal_loop rest (ofs + Z.of_nat k) (acc * 8 ^ Z.of_nat k + v).
Proof.
  revert v rest. induction k as [|k IH]; intros v rest Ha Hv Hb; cbn [oct app].
  - f_equal; simpl in *; lia.
  - rewrite Nat2Z.inj_succ, Z.pow_succ_r in * by lia. rewrite <- app_assoc. cbn [app].
    assert (Hp : 0 < 8 ^ Z.of_nat k) by lia. rewrite IH; [|done|split; [mod_lia|apply Z.div_lt_upper_bound; lia]|mod_lia].
    cbn [parse_octal_loop]. assert (Hm : 0 <= v mod 8 < 8) by mod_lia.
    rewrite (proj2 (Z.leb_le 48 (48 + v mod 8))), (proj2 (Z.leb_le (48 + v mod 8) 55)) by lia. cbn [andb].
    assert (Hs : 48 + v mod 8 - 48 + (acc * 8 ^ Z.of_nat k + v / 8) * 8 = acc * (8 * 8 ^ Z.of_nat k) + v) by mod_lia.
    rewrite (proj2 (Z.ltb_ge _ _)) by (change ((2 ^ 32 - 1) / 8) with 536870911; mod_lia).
    rewrite Hs, u32_id by (split; nia). f_equal. lia.
Qed.

Lemma parse_octal_field_oct k v rest : (0 < k)%nat → 0 <= v < 8 ^ Z.of_nat k → v < 2 ^ 32 → parse_octal_field (oct k v ++ 0 :: rest) = Some v.
Proof.
  intros Hk Hv Hb. unfold parse_octal_field. rewrite parse_octal_oct by lia. cbn [parse_octal_loop]. change ((48 <=? 0) && (0 <=? 55)) with false.
  change ((0 =? 32) || (0 =? 0)) with true. cbv iota. destruct (Z.ltb_spec 0 (0 + Z.of_nat k)); [|lia]. done.
Qed.

(** ** Fields *)

Lemma length_put f bs h : 0 <= f.1 → f.1 + Z.of_nat (length bs) <= Z.of_nat (length h) → length (put f bs h) = length h.
Proof. intros H0 H. unfold put. rewrite !length_app, length_take, length_drop. lia. Qed.

Lemma lookup_put f bs h i : 0 <= f.1 → f.1 + Z.of_nat (length bs) <= Z.of_nat (length h) →
  put f bs h !! i = if decide (Z.to_nat f.1 <= i < Z.to_nat f.1 + length bs)%nat then bs !! (i - Z.to_nat f.1)%nat else h !! i.
Proof.
  intros H0 H. unfold put. destruct (decide _) as [Hi|Hi].
  - rewrite lookup_app_r by (rewrite length_take; lia). rewrite length_take_le by lia. by rewrite lookup_app_l by lia.
  - destruct (decide (i < Z.to_nat f.1)%nat).
    + rewrite lookup_app_l by (rewrite length_take; lia). by rewrite lookup_take_lt.
    + rewrite lookup_app_r by (rewrite length_take; lia). rewrite length_take_le, lookup_app_r by lia. rewrite lookup_drop. f_equal. lia.
Qed.

Lemma lookup_field f h i : field f h !! i = if decide (i < Z.to_nat f.2)%nat then h !! (Z.to_nat f.1 + i)%nat else None.
Proof.
  unfold field. destruct (decide _); [by rewrite lookup_take_lt, lookup_drop|]. by rewrite lookup_take_ge by lia.
Qed.

(** A store elsewhere, and a store that fills the field. *)
Lemma field_put_other f g bs h : 0 <= f.1 → 0 <= f.2 → 0 <= g.1 → g.1 + Z.of_nat (length bs) <= Z.of_nat (length h) →
  f.1 + f.2 <= g.1 ∨ g.1 + Z.of_nat (length bs) <= f.1 → field f (put g bs h) = field f h.
Proof.
  intros ???? Hd. apply list_eq. intros i. rewrite !lookup_field. destruct (decide _); [|done]. rewrite lookup_put by done.
  destruct (decide _); [lia|done].
Qed.

Lemma field_put_same f bs h : 0 <= f.1 → f.1 + Z.of_nat (length bs) <= Z.of_nat (length h) → Z.of_nat (length bs) = f.2 → field f (put f bs h) = bs.
Proof.
  intros H0 H1 H2. apply list_eq. intros i. rewrite lookup_field. destruct (decide _).
  - rewrite lookup_put by done. destruct (decide _); [f_equal; lia|lia].
  - symmetry. apply lookup_ge_None. lia.
Qed.

(** ** The checksum *)

Definition in_chksum (i : Z) : bool := (f_chksum.1 <=? i) && (i <? f_chksum.1 + f_chksum.2).
Definition is_byte (b : Z) : Prop := 0 <= b < 256.

Fixpoint csum (i : Z) (h : list Z) : Z := match h with [] => 0 | b :: r => (if in_chksum i then 32 else b) + csum (i + 1) r end.

Lemma csum_bound i h : Forall is_byte h → 0 <= csum i h <= 255 * Z.of_nat (length h).
Proof.
  intros H. revert i. induction H as [|b h Hb H IH]; intros i; cbn [csum length]; [lia|]. specialize (IH (i + 1)). unfold is_byte in Hb. destruct (in_chksum i); lia.
Qed.

Lemma chksum_loop_csum i h c : Forall is_byte h → 0 <= c → c + 255 * Z.of_nat (length h) < 2 ^ 32 → chksum_loop i h c = c + csum i h.
Proof.
  intros H. revert i c. induction H as [|b h Hb H IH]; intros i c Hc Hl; cbn [chksum_loop csum length] in *; [lia|]. unfold is_byte in Hb.
  change ((f_chksum.1 <=? i) && (i <? f_chksum.1 + f_chksum.2)) with (in_chksum i).
  rewrite u32_id by (unfold in_u32; destruct (in_chksum i); lia). rewrite IH by (destruct (in_chksum i); lia). lia.
Qed.

Lemma chksum_csum h : Forall is_byte h → length h = 512%nat → calculate_chksum h = csum 0 h.
Proof. intros H Hl. unfold calculate_chksum. rewrite chksum_loop_csum by (done || lia). lia. Qed.

Lemma csum_ext i h h' : length h = length h' → (∀ k, in_chksum (i + Z.of_nat k) = false → h !! k = h' !! k) → csum i h = csum i h'.
Proof.
  revert i h'. induction h as [|b h IH]; intros i [|b' h'] Hl He; try done. cbn [csum].
  rewrite (IH (i + 1) h'); [|by injection Hl|].
  - destruct (in_chksum i) eqn:Ei; [done|]. specialize (He O). rewrite Z.add_0_r in He. specialize (He Ei) as [= ->]. done.
  - intros k Hk. apply (He (S k)). rewrite <- Hk. f_equal. lia.
Qed.

(** A change of one byte outside the checksum field changes the sum by as much. *)
Lemma csum_insert i h k b b' : h !! k = Some b → in_chksum (i + Z.of_nat k) = false → csum i (<[k := b']> h) = csum i h - b + b'.
Proof.
  revert i k. induction h as [|x h IH]; intros i [|k] Hk Hi; try done; cbn in Hk.
  - injection Hk as ->. rewrite Z.add_0_r in Hi. cbn [csum insert list_insert]. rewrite Hi. lia.
  - change (<[S k := b']> (x :: h)) with (x :: <[k := b']> h). cbn [csum]. rewrite (IH (i + 1) k) by (done || (rewrite <- Hi; f_equal; lia)). lia.
Qed.

Lemma csum_put_chksum bs h : length h = 512%nat → length bs = 8%nat → csum 0 (put f_chksum bs h) = csum 0 h.
Proof.
  intros Hh Hb. apply csum_ext; [apply length_put; cbn; lia|]. intros k Hk. rewrite lookup_put by (cbn; lia). destruct (decide _) as [Hd|]; [|done].
  exfalso. unfold in_chksum in Hk. cbn in *. apply andb_false_iff in Hk as [Hk|Hk]; [apply Z.leb_gt in Hk|apply Z.ltb_ge in Hk]; lia.
Qed.

Lemma put_byte f bs h : Forall is_byte bs → Forall is_byte h → Forall is_byte (put f bs h).
Proof. intros. unfold put. repeat apply Forall_app_2; auto using Forall_take, Forall_drop. Qed.

Lemma oct_byte k v : Forall is_byte (oct k v).
Proof. revert v. induction k as [|k IH]; intros v; [constructor|]. cbn [oct]. apply Forall_app_2; [done|]. constructor; [unfold is_byte; mod_lia|constructor]. Qed.

(** ** The header that is made *)

Definition text (s : list Z) : list Z := s ++ [0].

(** The header before the checksum is filled in, and after. *)
Definition body (name : list Z) (type size : Z) : list Z :=
  put f_uname (text root_text) (put f_gname (text root_text) (put f_version [48; 48] (put f_magic (text ustar_text) (put f_typeflag [type]
    (put f_mtime (text (oct 11 1136102400)) (put f_size (text (oct 11 size)) (put f_gid (text zeros7) (put f_uid (text zeros7)
      (put f_mode (text (oct 7 (if type =? USTAR_REGULAR then 420 else 493))) (put f_name (text name) (replicate 512 0))))))))))).
Definition header (name : list Z) (type size : Z) : list Z :=
  put f_chksum (text (oct 7 (calculate_chksum (body name type size)))) (body name type size).

Definition regular_or_dir (type : Z) : Prop := type = USTAR_REGULAR ∨ type = USTAR_DIRECTORY.

Ltac fit := unfold text; rewrite ?length_app, ?oct_length; cbn; lia.

Lemma length_put512 f bs h : length h = 512%nat → 0 <= f.1 ∧ f.1 + Z.of_nat (length bs) <= 512 → length (put f bs h) = 512%nat.
Proof. intros Hh [? ?]. rewrite length_put; lia. Qed.

Lemma body_length name type size : (length name <= 99)%nat → length (body name type size) = 512%nat.
Proof. intros Hn. unfold body. repeat (apply length_put512; [|fit]). apply length_replicate. Qed.

Lemma header_length name type size : (length name <= 99)%nat → length (header name type size) = 512%nat.
Proof. intros Hn. apply length_put512; [by apply body_length|fit]. Qed.

Ltac bytes := repeat first [apply Forall_nil_2 | apply Forall_cons_2; [first [assumption | unfold is_byte; lia]|]].

Lemma body_bytes name type size : Forall is_byte name → regular_or_dir type → Forall is_byte (body name type size).
Proof.
  intros Hn Ht. assert (Hz : is_byte 0) by (unfold is_byte; lia).
  assert (Htext : ∀ s, Forall is_byte s → Forall is_byte (text s)). { intros s Hs. apply Forall_app_2; [done|]. by constructor. }
  assert (Hy : is_byte type) by (destruct Ht as [-> | ->]; unfold is_byte, USTAR_REGULAR, USTAR_DIRECTORY; lia).
  unfold body. repeat (apply put_byte; [first [apply Htext; first [apply oct_byte | exact Hn | unfold zeros7, root_text, ustar_text; bytes] | bytes]|]).
  by apply Forall_replicate.
Qed.

Lemma make_header_eq s name type size : strip_antisocial_prefixes s = Ok name → Forall is_byte name → (length name <= 99)%nat → regular_or_dir type →
  0 <= size < 2 ^ 32 → ustar_make_header s type size = Ok (Some (header name type size)).
Proof.
  intros Es Hn Hl Ht Hz. unfold ustar_make_header.
  assert (Ea : (type =? USTAR_REGULAR) || (type =? USTAR_DIRECTORY) = true) by (by destruct Ht as [-> | ->]).
  rewrite Ea. cbn [rassert rbind]. rewrite Es. cbn [rbind]. destruct (Z.ltb_spec 99 (Z.of_nat (length name))); [lia|].
  assert (Em : vprintf oct7 [I32 (if type =? USTAR_REGULAR then 420 else 493)] = Ok (oct 7 (if type =? USTAR_REGULAR then 420 else 493))).
  { apply printf_oct7. destruct (type =? USTAR_REGULAR); lia. }
  rewrite (snprintf_fits _ _ _ _ _ _ Em) by fit. cbn [rbind]. rewrite (snprintf_fits _ _ _ _ _ _ (printf_oct11 size Hz)) by fit. cbn [rbind].
  rewrite (snprintf_fits _ _ _ _ _ _ (printf_oct11 1136102400 ltac:(lia))) by fit. cbn [rbind]. unfold strlcpy.
  rewrite !(take_ge name) by (cbn; lia). replace (u8 type) with type by (destruct Ht as [-> | ->]; reflexivity).
  match goal with |- context [snprintf f_chksum _ _ [I32 (calculate_chksum ?b)] _] => change b with (body name type size) end.
  rewrite (snprintf_fits _ _ _ _ _ (oct 7 (calculate_chksum (body name type size)))); [reflexivity| |fit].
  apply printf_oct7. rewrite chksum_csum by (by apply body_bytes || by apply body_length).
  pose proof (csum_bound 0 _ (body_bytes name type size Hn Ht)) as Hb. rewrite body_length in Hb by done. simpl. lia.
Qed.

Section Header.
Context (name : list Z) (type size : Z).
Hypothesis name_fits : (length name <= 99)%nat.

Ltac side := first [ fit | unfold text; rewrite ?length_app, ?oct_length; repeat (rewrite length_put512; [|repeat (apply length_put512; [|fit]); apply length_replicate|fit]);
                     rewrite ?length_replicate; cbn; lia ].
Ltac other := rewrite field_put_other; [|cbn; lia|cbn; lia|cbn; lia|side|side].
Ltac same := rewrite field_put_same; [|cbn; lia|side|side].

Lemma header_put (f : Z * Z) : 0 <= f.1 → 0 <= f.2 → f.1 + f.2 <= 148 ∨ 156 <= f.1 → field f (header name type size) = field f (body name type size).
Proof. intros ?? Hd. apply field_put_other; [done|done|cbn; lia|rewrite body_length by done; fit|revert Hd; fit]. Qed.

Lemma header_magic : field f_magic (header name type size) = ustar_text ++ [0].
Proof. rewrite header_put by (cbn; lia). unfold body. do 3 other. same. done. Qed.
Lemma header_version : field f_version (header name type size) = [48; 48].
Proof. rewrite header_put by (cbn; lia). unfold body. do 2 other. same. done. Qed.
Lemma header_typeflag : field f_typeflag (header name type size) = [type].
Proof. rewrite header_put by (cbn; lia). unfold body. do 4 other. same. done. Qed.
Lemma header_size : field f_size (header name type size) = oct 11 size ++ [0].
Proof. rewrite header_put by (cbn; lia). unfold body. do 6 other. same. done. Qed.
Lemma header_prefix : field f_prefix (header name type size) = replicate 155 0.
Proof. rewrite header_put by (cbn; lia). unfold body. do 11 other. done. Qed.
Lemma header_name : field f_name (header name type size) = name ++ replicate (100 - length name) 0.
Proof.
  rewrite header_put by (cbn; lia). unfold body. do 10 other. unfold field, put, text. cbn [f_name fst snd Z.to_nat Pos.to_nat Pos.iter_op].
  rewrite drop_0, take_0. cbn [app]. rewrite length_app, drop_replicate. cbn [length].
  rewrite <- app_assoc, take_app. f_equal; [apply take_ge; lia|].
  change ([0] ++ ?l) with (0 :: l). rewrite <- replicate_S, take_replicate. f_equal. lia.
Qed.
Lemma header_chksum : field f_chksum (header name type size) = oct 7 (calculate_chksum (body name type size)) ++ [0].
Proof. unfold header. rewrite field_put_same; [done|cbn; lia|rewrite body_length by done; fit|fit]. Qed.
End Header.

Lemma c_string_name name n : Forall (λ b, b ≠ 0) name → (0 < n)%nat → c_string (name ++ replicate n 0) = name.
Proof.
  intros H Hn. induction H as [|b name Hb H IH]; [by destruct n|]. cbn. destruct (Z.eqb_spec b 0); [done|]. by rewrite IH.
Qed.

Lemma parse_header_eq name type size : Forall is_byte name → Forall (λ b, b ≠ 0) name → safe_name name → (length name <= 99)%nat → regular_or_dir type →
  0 <= size < 2 ^ 31 →
  ustar_parse_header (header name type size) = Ok (Entry (Some name) type (if type =? USTAR_REGULAR then size else 0)).
Proof.
  intros Hb Hz Hs Hl Ht Hsz. unfold ustar_parse_header.
  assert (E0 : is_all_zeros (header name type size) = false).
  { destruct (is_all_zeros _) eqn:E; [|done]. unfold is_all_zeros in E. rewrite forallb_forall in E.
    assert (Hm : field f_magic (header name type size) !! O = Some 117) by (by rewrite header_magic). rewrite lookup_field in Hm.
    destruct (decide _) in Hm; [|done]. apply list_elem_of_lookup_2, list_elem_of_In, E in Hm. done. }
  rewrite E0, header_magic, header_version, header_chksum, header_name, header_prefix, header_typeflag, header_size by done.
  rewrite !bool_decide_eq_true_2 by done. cbn [negb].
  assert (Hc : 0 <= calculate_chksum (body name type size) < 8 ^ 7).
  { rewrite chksum_csum by (by apply body_bytes || by apply body_length). pose proof (csum_bound 0 _ (body_bytes name type size Hb Ht)) as Hc.
    rewrite body_length in Hc by done. simpl. lia. }
  rewrite (parse_octal_field_oct 7 _ []) by (lia || exact Hc).
  assert (Ec : calculate_chksum (header name type size) = calculate_chksum (body name type size)).
  { rewrite !chksum_csum; [apply csum_put_chksum; [by apply body_length|fit]|by apply body_bytes|by apply body_length| |by apply header_length].
    apply put_byte; [|by apply body_bytes]. apply Forall_app_2; [apply oct_byte|bytes]. }
  rewrite Ec, Z.eqb_refl. cbn [negb nth orb].
  assert (En : nth 99 (name ++ replicate (100 - length name) 0) 0 = 0).
  { rewrite app_nth2 by lia. rewrite nth_lookup. destruct (replicate _ _ !! _) eqn:E; [|done]. by apply lookup_replicate in E as [-> _]. }
  rewrite En. change (nth 0 (replicate 155 0) 0) with 0. change (0 =? 0) with true. cbn [negb orb].
  rewrite c_string_name by (done || lia). rewrite strip_safe by done. cbn [rbind].
  destruct Ht as [-> | ->]; [|done]. change (USTAR_REGULAR =? USTAR_REGULAR) with true. cbn [negb andb].
  rewrite (parse_octal_field_oct 11 _ []) by (lia || (simpl; lia)). destruct (Z.ltb_spec (2 ^ 31 - 1) size); [lia|]. done.
Qed.

(** A header made for a file is parsed back: [ustar_make_header] succeeds exactly when
    the name without its dangerous prefixes has at most 99 characters, its header has 512
    bytes, and [ustar_parse_header] returns that name, the type, and the size of a regular
    file. *)
Theorem ustar_roundtrip s type size :
  Forall (λ b, 0 < b < 256) s → regular_or_dir type → 0 <= size < 2 ^ 31 →
  ∃ name, strip_antisocial_prefixes s = Ok name ∧
    if decide (length name <= 99)%nat
    then ∃ h, ustar_make_header s type size = Ok (Some h) ∧ length h = 512%nat ∧
           ustar_parse_header h = Ok (Entry (Some name) type (if type =? USTAR_REGULAR then size else 0))
    else ustar_make_header s type size = Ok None.
Proof.
  intros Hs Ht Hz. destruct (strip_total s) as (name & En & Hsafe & Hp). exists name. split; [done|].
  assert (Hn : Forall (λ b, 0 < b < 256) name).
  { destruct Hp as [-> |[p ->]]; [repeat constructor; lia|]. by apply Forall_app in Hs as [_ ?]. }
  assert (Hb : Forall is_byte name) by (eapply Forall_impl; [exact Hn|]; cbv beta; unfold is_byte; lia).
  assert (Hnz : Forall (λ b, b ≠ 0) name) by (eapply Forall_impl; [exact Hn|]; cbv beta; lia).
  destruct (decide _) as [Hl|Hl].
  - exists (header name type size). split; [by apply make_header_eq; try done; lia|]. split; [by apply header_length|]. by apply parse_header_eq.
  - unfold ustar_make_header. assert (Ea : (type =? USTAR_REGULAR) || (type =? USTAR_DIRECTORY) = true) by (by destruct Ht as [-> | ->]).
    rewrite Ea. cbn [rassert rbind]. rewrite En. cbn [rbind]. destruct (Z.ltb_spec 99 (Z.of_nat (length name))); [done|lia].
Qed.

(** The name is /../a/b. *)
Lemma ustar_roundtrip_witness : ∃ name, strip_antisocial_prefixes [47; 46; 46; 47; 97; 47; 98] = Ok name ∧
  if decide (length name <= 99)%nat
  then ∃ h, ustar_make_header [47; 46; 46; 47; 97; 47; 98] USTAR_REGULAR 1000 = Ok (Some h) ∧ length h = 512%nat ∧
         ustar_parse_header h = Ok (Entry (Some name) USTAR_REGULAR 1000)
  else ustar_make_header [47; 46; 46; 47; 97; 47; 98] USTAR_REGULAR 1000 = Ok None.
Proof. apply (ustar_roundtrip [47; 46; 46; 47; 97; 47; 98] USTAR_REGULAR 1000); [repeat constructor; lia|by left|lia]. Defined.

Lemma parse_entry_inv h n t z : ustar_parse_header h = Ok (Entry n t z) →
  (is_all_zeros h = true ∧ n = None) ∨
  (field f_magic h = ustar_text ++ [0] ∧ parse_octal_field (field f_chksum h) = Some (calculate_chksum h) ∧ ∃ name, n = Some name ∧ safe_name name).
Proof.
  unfold ustar_parse_header. destruct (is_all_zeros h) eqn:E0; [intros [= <- _ _]; by left|]. intros H. right.
  destruct (bool_decide_reflect (field f_magic h = ustar_text ++ [0])) as [Hm|]; [|done]. cbn [negb] in H.
  destruct (negb _) in H; [done|]. destruct (parse_octal_field (field f_chksum h)) as [c|]; [|done].
  destruct (Z.eqb_spec c (calculate_chksum h)) as [Ec|]; [|done]. cbn [negb] in H. split; [done|]. split; [by rewrite Ec|].
  destruct (negb _ || negb _) in H; [done|]. destruct (negb _ && negb _) in H; [done|].
  destruct (strip_total (c_string (field f_name h))) as (name & En & Hs & _). rewrite En in H. cbn [rbind] in H. exists name. split; [|done].
  destruct (_ =? USTAR_REGULAR) in H; [|congruence]. destruct (parse_octal_field _) as [v|] in H; [|done]. destruct (2 ^ 31 - 1 <? v) in H; [done|congruence].
Qed.

(** Whatever a header holds, a name that is accepted from it stays inside the directory it
    is relative to, as far as its prefixes go. *)
Theorem ustar_names_safe h name type size : ustar_parse_header h = Ok (Entry (Some name) type size) → safe_name name.
Proof. intros H. apply parse_entry_inv in H as [[_ ?]|(_ & _ & n & [= <-] & ?)]; done. Qed.

Lemma field_insert f h k b : 0 <= f.1 → 0 <= f.2 → ¬ (f.1 <= Z.of_nat k < f.1 + f.2) → field f (<[k := b]> h) = field f h.
Proof.
  intros ?? Hk. apply list_eq. intros i. rewrite !lookup_field. destruct (decide _); [|done]. apply list_lookup_insert_ne. lia.
Qed.

(** A header of which one byte outside the checksum field was changed is not accepted:
    if it was an entry of an archive before, it is rejected after. *)
Theorem ustar_detects_change h k b b' name type size :
  length h = 512%nat → Forall is_byte h → ustar_parse_header h = Ok (Entry (Some name) type size) →
  h !! k = Some b → is_byte b' → b' ≠ b → in_chksum (Z.of_nat k) = false →
  ∀ n t z, ustar_parse_header (<[k := b']> h) ≠ Ok (Entry n t z).
Proof.
  intros Hl Hb H Hk Hb' Hne Hi n t z H'. apply parse_entry_inv in H as [[_ ?]|(Hm & Hc & _)]; [done|].
  assert (Hk' : ¬ (148 <= Z.of_nat k < 156)).
  { unfold in_chksum in Hi. cbn in Hi. apply andb_false_iff in Hi as [Hi|Hi]; [apply Z.leb_gt in Hi|apply Z.ltb_ge in Hi]; lia. }
  apply parse_entry_inv in H' as [[H0 _]|(_ & Hc' & _)].
  - unfold is_all_zeros in H0. rewrite forallb_forall in H0.
    assert (Hz : ∀ i v, field f_magic h !! i = Some v → (Z.to_nat 257 + i)%nat ≠ k → v = 0).
    { intros i v Hv Hik. rewrite lookup_field in Hv. destruct (decide _) in Hv; [|done]. apply Z.eqb_eq, H0, list_elem_of_In.
      apply (list_elem_of_lookup_2 _ (Z.to_nat 257 + i)). by rewrite list_lookup_insert_ne. }
    rewrite Hm in Hz. destruct (decide (k = Z.to_nat 257)) as [->|Hk2].
    + discriminate (Hz 1%nat 115 eq_refl). lia.
    + discriminate (Hz O 117 eq_refl). lia.
  - rewrite (field_insert f_chksum) in Hc' by (cbn; lia). rewrite Hc in Hc'. injection Hc' as Hc'.
    rewrite !chksum_csum in Hc'; [|by apply Forall_insert|by rewrite length_insert|done|done].
    rewrite (csum_insert 0 h k b b') in Hc' by done. lia.
Qed.

Lemma ustar_detects_change_witness :
  let h := header [97; 47; 98] USTAR_REGULAR 1000 in
  ∀ n t z, ustar_parse_header (<[131%nat := 54]> h) ≠ Ok (Entry n t z).
Proof.
  apply (ustar_detects_change _ _ 49 _ [97; 47; 98] USTAR_REGULAR 1000);
    [vm_compute; reflexivity| |vm_compute; reflexivity|vm_compute; reflexivity|unfold is_byte; lia|lia|reflexivity].
  apply put_byte; [apply Forall_app_2; [apply oct_byte|bytes]|]. apply body_bytes; [bytes|by left].
Defined.
