(* ===== verification/Rtc.v ===== *)
(** * The real-time clock (src/devices/rtc.c)

    The clock's registers change while they are read: the state is the sequence of
    register contents that the successive reads find. *)

From S2P Require Import Prelude.
Local Open Scope Z_scope.

Notation R := (M (list (Z → Z))).

Definition RTC_REG_SEC : Z := 0.
Definition RTC_REG_MIN : Z := 2.
Definition RTC_REG_HOUR : Z := 4.
Definition RTC_REG_MDAY : Z := 7.
Definition RTC_REG_MON : Z := 8.
Definition RTC_REG_YEAR : Z := 9.

Definition cmos_read (index : Z) : R Z := λ regs,
  match regs with
  | [] => Fail NoFuel
  | r :: rest => Ok (u8 (r index), rest)
  end.

Definition bcd_to_bin (x : Z) : Z := Z.land x 15 + Z.shiftr x 4 * 10.

Definition read_bcd (index : Z) : R Z := let* x := cmos_read index in ret (bcd_to_bin x).

Record components := mk_time { sec : Z; min : Z; hour : Z; mday : Z; mon : Z; year : Z }.

(** The [do] loop; [rounds] bounds the number of attempts. *)
Fixpoint read_stable (rounds : nat) : R components :=
  match rounds with
  | O => fail NoFuel
  | S rounds =>
      let* s := read_bcd RTC_REG_SEC in
      let* mi := read_bcd RTC_REG_MIN in
      let* h := read_bcd RTC_REG_HOUR in
      let* d := read_bcd RTC_REG_MDAY in
      let* mo := read_bcd RTC_REG_MON in
      let* y := read_bcd RTC_REG_YEAR in
      let* s' := read_bcd RTC_REG_SEC in
      if s =? s' then ret (mk_time s mi h d mo y) else read_stable rounds
  end.

(** An [int] expression, which must not overflow. *)
Definition int (v : Z) : res Z := if (- 2 ^ 31 <=? v) && (v <? 2 ^ 31) then Ok v else Fail Undef.

Definition days_per_month : list Z := [31; 28; 31; 30; 31; 30; 31; 31; 30; 31; 30; 31].

(** The loop over the months up to the current one. *)
Fixpoint add_months (n : nat) (i time : Z) : res Z :=
  match n with
  | O => Ok time
  | S n' =>
      let? d := rneed (if i - 1 <? 0 then None else days_per_month !! Z.to_nat (i - 1)) in
      add_months n' (i + 1) (u32 (time + d * 24 * 60 * 60))
  end.

(** [time_t] is an unsigned 32-bit type. *)
Definition seconds (t : components) : res Z :=
  let y := if year t <? 70 then year t + 100 else year t in
  let y := y - 70 in
  let? time := int ((y * 365 + Z.quot (y - 1) 4) * 24 * 60 * 60) in
  let? time := add_months (Z.to_nat (mon t)) 1 (u32 time) in
  let time := if (2 <? mon t) && (Z.rem y 4 =? 0) then u32 (time + 24 * 60 * 60) else time in
  let time := u32 (time + (mday t - 1) * 24 * 60 * 60) in
  let time := u32 (time + hour t * 60 * 60) in
  let time := u32 (time + min t * 60) in
  Ok (u32 (time + sec t)).

(** Seven reads of the registers are one attempt. *)
Definition rtc_get_time : R Z :=
  let* rounds := gets (λ regs, S (length regs / 7)) in
  let* t := read_stable rounds in lift (seconds t).

(** ** The calendar *)

Record date := mk_date { d_year : Z; d_month : Z; d_day : Z }.

Definition is_leap (y : Z) : bool := (y mod 4 =? 0) && (negb (y mod 100 =? 0) || (y mod 400 =? 0)).
Definition month_length (y m : Z) : Z := if (m =? 2) && is_leap y then 29 else nth (Z.to_nat (m - 1)) days_per_month 0.

Definition next_date (d : date) : date :=
  if d_day d <? month_length (d_year d) (d_month d) then mk_date (d_year d) (d_month d) (d_day d + 1)
  else if d_month d <? 12 then mk_date (d_year d) (d_month d + 1) 1
  else mk_date (d_year d + 1) 1 1.

(** The date [n] days after January 1, 1970. *)
Fixpoint date_after (n : nat) : date := match n with O => mk_date 1970 1 1 | S n' => next_date (date_after n') end.

Definition to_bcd (x : Z) : Z := 16 * (x / 10) + x mod 10.

(** The registers at [t] seconds after midnight of [d]. *)
Definition registers (d : date) (t : Z) (index : Z) : Z :=
  if index =? RTC_REG_SEC then to_bcd (t mod 60)
  else if index =? RTC_REG_MIN then to_bcd (t / 60 mod 60)
  else if index =? RTC_REG_HOUR then to_bcd (t / 3600)
  else if index =? RTC_REG_MDAY then to_bcd (d_day d)
  else if index =? RTC_REG_MON then to_bcd (d_month d)
  else to_bcd (d_year d mod 100).

(** ** What the clock says *)

Lemma bcd_roundtrip x : 0 <= x < 100 → bcd_to_bin (u8 (to_bcd x)) = x.
Proof.
  intros Hx. assert (H : forallb (λ x, bcd_to_bin (u8 (to_bcd x)) =? x) (seqZ 0 100) = true) by (vm_compute; reflexivity).
  rewrite forallb_forall in H. apply Z.eqb_eq, H, list_elem_of_In, elem_of_seqZ. lia.
Qed.

(** A date at midnight, as the components that the clock reads. *)
Definition midnight (d : date) : components := mk_time 0 0 0 (d_day d) (d_month d) (d_year d mod 100).

(** [n] is the number of the first day of the month. *)
Definition month_ok (n y m : Z) : bool :=
  (1970 <=? y) && (y <=? 2038) && (1 <=? m) && (m <=? 12) && (28 <=? month_length y m) && (month_length y m <=? 31) &&
  match seconds (midnight (mk_date y m 1)) with
  | Ok v => (v mod 86400 =? 0) && (27 <=? v / 86400 - n) && (v / 86400 - n <=? 32) && (v <? 2 ^ 32 - 2 ^ 23)
  | Fail _ => false
  end.

Definition next_month (n y m : Z) : Z * Z * Z :=
  (n + month_length y m, if m <? 12 then y else y + 1, if m <? 12 then m + 1 else 1).

(** The first days of the months that follow, with their numbers. *)
Fixpoint months (k : nat) (c : Z * Z * Z) : list (Z * Z * Z) :=
  match k with O => [] | S k' => c :: months k' (next_month c.1.1 c.1.2 c.2) end.

Fixpoint month_after (k : nat) (c : Z * Z * Z) : Z * Z * Z :=
  match k with O => c | S k' => month_after k' (next_month c.1.1 c.1.2 c.2) end.

Lemma iter_within y m i : Z.of_nat i < month_length y m → Nat.iter i next_date (mk_date y m 1) = mk_date y m (1 + Z.of_nat i).
Proof.
  induction i as [|i IH]; intros Hi; [done|]. rewrite Nat.iter_succ, IH by lia. unfold next_date. cbn [d_day d_year d_month].
  destruct (Z.ltb_spec (1 + Z.of_nat i) (month_length y m)); [f_equal|]; lia.
Qed.

Lemma iter_month y m : 0 < month_length y m →
  Nat.iter (Z.to_nat (month_length y m)) next_date (mk_date y m 1) = mk_date (if m <? 12 then y else y + 1) (if m <? 12 then m + 1 else 1) 1.
Proof.
  intros Hl. replace (Z.to_nat (month_length y m)) with (S (Z.to_nat (month_length y m - 1))) by lia.
  rewrite Nat.iter_succ, iter_within by lia. unfold next_date. cbn [d_day d_year d_month].
  destruct (Z.ltb_spec (1 + Z.of_nat (Z.to_nat (month_length y m - 1))) (month_length y m)); [lia|]. by destruct (m <? 12).
Qed.

(** A day that is [i] days after the first of a month lies in one of the months that follow. *)
Lemma months_cover k n y m i :
  forallb (λ c, month_ok c.1.1 c.1.2 c.2) (months k (n, y, m)) = true → n + Z.of_nat i < (month_after k (n, y, m)).1.1 →
  ∃ n' y' m' j, month_ok n' y' m' = true ∧ 0 <= j < month_length y' m' ∧ n + Z.of_nat i = n' + j ∧
    Nat.iter i next_date (mk_date y m 1) = mk_date y' m' (1 + j).
Proof.
  revert n y m i. induction k as [|k IH]; intros n y m i H Hi; [cbn in Hi; lia|]. cbn [months forallb fst snd month_after] in H, Hi. apply andb_true_iff in H as [Hm H].
  assert (Hl : 28 <= month_length y m). { unfold month_ok in Hm. rewrite !andb_true_iff, !Z.leb_le in Hm. tauto. }
  destruct (Z.lt_ge_cases (Z.of_nat i) (month_length y m)) as [Hlt|Hge].
  - exists n, y, m, (Z.of_nat i). rewrite iter_within by done. repeat split; try done; lia.
  - replace i with ((i - Z.to_nat (month_length y m)) + Z.to_nat (month_length y m))%nat by lia.
    rewrite Nat.iter_add, iter_month by lia.
    destruct (IH _ _ _ (i - Z.to_nat (month_length y m))%nat H) as (n' & y' & m' & j & ? & ? & ? & ?).
    { replace (n + month_length y m + Z.of_nat (i - Z.to_nat (month_length y m))) with (n + Z.of_nat i) by lia. exact Hi. }
    exists n', y', m', j. repeat split; try done; lia.
Qed.

Lemma seconds_day y m j v : seconds (midnight (mk_date y m 1)) = Ok v → 0 <= j < 31 → v < 2 ^ 32 - 2 ^ 23 →
  seconds (midnight (mk_date y m (1 + j))) = Ok (v + 86400 * j).
Proof.
  unfold seconds, midnight. cbn [sec min hour mday mon year d_day d_month d_year]. intros H Hj Hv. destruct (int _) as [a|]; [|done].
  cbn [rbind] in *. destruct (add_months _ _ _) as [b|]; [|done]. cbn [rbind] in *. injection H as <-. f_equal.
  match goal with |- context [if ?c then u32 (b + ?e) else b] => generalize dependent (if c then u32 (b + e) else b) end. intros c Hv. mod_lia.
Qed.

Lemma date_after_iter n : date_after n = Nat.iter n next_date (mk_date 1970 1 1).
Proof. induction n as [|n IH]; [done|]. simpl. by rewrite IH. Qed.

(** The clock at midnight, on all days before January 19, 2038, where a signed 32-bit
    count of seconds ends. *)
Lemma all_days_ok n : 0 <= n < 24855 →
  ∃ y m d v, date_after (Z.to_nat n) = mk_date y m d ∧ seconds (midnight (mk_date y m d)) = Ok v ∧ v mod 86400 = 0 ∧
    27 <= v / 86400 - n <= 32 ∧ 1 <= m <= 12 ∧ 1 <= d <= 31.
Proof.
  intros Hn.
  destruct (months_cover 817 0 1970 1 (Z.to_nat n)) as (n' & y & m & j & Hm & Hj & En & Ed); [vm_compute; reflexivity| |].
  { replace (month_after _ _).1.1 with 24868 by (vm_compute; reflexivity). lia. }
  unfold month_ok in Hm. destruct (seconds _) as [v|] eqn:Ev; [|by rewrite !andb_false_r in Hm].
  rewrite !andb_true_iff, !Z.leb_le, Z.ltb_lt, Z.eqb_eq in Hm. destruct Hm as ([[[[[? ?] ?] ?] ?] ?] & [[? ?] ?] & ?).
  exists y, m, (1 + j), (v + 86400 * j). rewrite date_after_iter, Ed, (seconds_day _ _ _ v) by (done || lia). split_and!; done || mod_lia.
Qed.

Lemma seconds_tod d s mi h v : seconds (midnight d) = Ok v → 0 <= s → 0 <= mi → 0 <= h → s + 60 * mi + 3600 * h < 2 ^ 20 → v + 2 ^ 20 < 2 ^ 32 →
  seconds (mk_time s mi h (d_day d) (d_month d) (d_year d mod 100)) = Ok (v + (s + 60 * mi + 3600 * h)).
Proof.
  unfold seconds, midnight. cbn [sec min hour mday mon year]. intros H Hs Hm Hh Ht Hv. destruct (int _) as [a|]; [|done]. cbn [rbind] in *.
  destruct (add_months _ _ _) as [b|]; [|done]. cbn [rbind] in *. injection H as <-. f_equal.
  generalize dependent (if (2 <? d_month d) && (Z.rem ((if d_year d mod 100 <? 70 then d_year d mod 100 + 100 else d_year d mod 100) - 70) 4 =? 0)
    then u32 (b + 24 * 60 * 60) else b). intros c. generalize ((d_day d - 1) * 24 * 60 * 60). intros e Hv. mod_lia.
Qed.

(** Reading registers that stand still takes one attempt. *)
Lemma read_stable_run rounds r rest :
  read_stable (S rounds) (replicate 7 r ++ rest) =
    Ok (mk_time (bcd_to_bin (u8 (r RTC_REG_SEC))) (bcd_to_bin (u8 (r RTC_REG_MIN))) (bcd_to_bin (u8 (r RTC_REG_HOUR)))
          (bcd_to_bin (u8 (r RTC_REG_MDAY))) (bcd_to_bin (u8 (r RTC_REG_MON))) (bcd_to_bin (u8 (r RTC_REG_YEAR))), rest).
Proof. cbn. by rewrite Z.eqb_refl. Qed.

(** Read at [t] seconds after midnight, [n] days after January 1, 1970, the clock
    gives a time that is 27 to 32 whole days ahead in every year up to 2038: the loop over
    the months adds the days of the current month too, and leap days are counted from
    1970 as if that were a leap year. *)
Theorem rtc_get_time_off n t rest :
  0 <= n < 24855 → 0 <= t < 86400 →
  ∃ days, rtc_get_time (replicate 7 (registers (date_after (Z.to_nat n)) t) ++ rest) = Ok (86400 * (n + days) + t, rest) ∧ 27 <= days <= 32.
Proof.
  intros Hn Ht. destruct (all_days_ok n Hn) as (y & m & d & v & -> & Ev & Hv & Hk & Hm & Hd).
  exists (v / 86400 - n). split; [|lia].
  unfold rtc_get_time, gets. erewrite bind_ok by reflexivity. rewrite (bind_ok _ _ _ _ _ (read_stable_run _ _ _)).
  unfold registers. cbn [Z.eqb Pos.eqb RTC_REG_SEC RTC_REG_MIN RTC_REG_HOUR RTC_REG_MDAY RTC_REG_MON RTC_REG_YEAR d_year d_month d_day].
  rewrite !bcd_roundtrip by mod_lia.
  unfold lift. rewrite (seconds_tod (mk_date y m d) _ _ _ v) by (done || mod_lia). do 2 f_equal. mod_lia.
Qed.

Lemma rtc_get_time_off_witness : ∃ days,
  rtc_get_time (replicate 7 (registers (mk_date 2000 3 1) 45000) ++ []) = Ok (86400 * (11017 + days) + 45000, []) ∧ 27 <= days <= 32.
Proof.
  destruct (rtc_get_time_off 11017 45000 []) as (days & E & H); [lia|lia|]. exists days. split; [|exact H].
  replace (date_after (Z.to_nat 11017)) with (mk_date 2000 3 1) in E by (vm_compute; reflexivity). exact E.
Defined.

(** On January 1, 1970 the clock gives February 1. *)
Example epoch_off : rtc_get_time (replicate 7 (registers (mk_date 1970 1 1) 0)) = Ok (31 * 86400, []).
Proof. vm_compute. reflexivity. Qed.
