(* ===== verification/Intq.v ===== *)
(** * The interrupt queue (src/devices/intq.c)

    A queue is shared by threads, which may sleep in it, and by interrupt handlers.  Its
    functions run with interrupts off, so what interleaves is what lies between two
    points where a thread sleeps or yields: a thread that is inside [intq_getc] or
    [intq_putc] has a place in it, and an action runs one thread from its place to the
    next such point, or one handler. *)

From S2P Require Import Prelude.
Local Open Scope Z_scope.

Definition INTQ_BUFSIZE : Z := 64.

(** A lock is a semaphore with a holder (threads/synch.h). *)
Record lock := mk_lock { holder : option nat; value : Z; waiters : list nat }.
Record intq := mk_intq { q_lock : lock; not_full : option nat; not_empty : option nat; buf : list Z; head : Z; tail : Z }.

Inductive call := Get | Put (byte : Z).

(** Where a thread is: before the test of the [while] loop, asleep in [lock_acquire], or
    back from [thread_block] in [wait]. *)
Inductive place := Loop (c : call) | InLock (c : call) | Woken (c : call).
Definition call_of (p : place) : call := match p with Loop c | InLock c | Woken c => c end.
Record thread := mk_thread { at_ : place; blocked : bool }.

Record sys := mk_sys { q : intq; threads : gmap nat thread; current : nat; intr_off : bool; in_context : bool }.

Notation I := (M sys).

Definition upd_q (f : intq → intq) : I unit := modify (λ s, mk_sys (f (q s)) (threads s) (current s) (intr_off s) (in_context s)).
Definition upd_threads (f : gmap nat thread → gmap nat thread) : I unit :=
  modify (λ s, mk_sys (q s) (f (threads s)) (current s) (intr_off s) (in_context s)).
Definition set_buf b h (x : intq) := mk_intq (q_lock x) (not_full x) (not_empty x) b h (tail x).
Definition set_tail t (x : intq) := mk_intq (q_lock x) (not_full x) (not_empty x) (buf x) (head x) t.
Definition set_lock l (x : intq) := mk_intq l (not_full x) (not_empty x) (buf x) (head x) (tail x).

Definition intq_init (x : intq) : intq := mk_intq (mk_lock None 1 []) None None (buf x) 0 0.

Definition next (pos : Z) : Z := Z.rem (pos + 1) INTQ_BUFSIZE.

Definition q_empty (x : intq) : bool := head x =? tail x.
Definition q_full (x : intq) : bool := next (head x) =? tail x.

Definition intq_empty : I bool := let* o := gets intr_off in assert o ;;; gets (λ s, q_empty (q s)).
Definition intq_full : I bool := let* o := gets intr_off in assert o ;;; gets (λ s, q_full (q s)).

(** The condition that a call waits for to become false, and the field it waits in:
    [&q->not_empty] for [intq_getc], [&q->not_full] for [intq_putc]. *)
Definition must_wait (c : call) : I bool := match c with Get => intq_empty | Put _ => intq_full end.
Definition waiter (c : call) (x : intq) : option nat := match c with Get => not_empty x | Put _ => not_full x end.
Definition set_waiter (c : call) (w : option nat) (x : intq) : intq :=
  match c with
  | Get => mk_intq (q_lock x) (not_full x) w (buf x) (head x) (tail x)
  | Put _ => mk_intq (q_lock x) w (not_empty x) (buf x) (head x) (tail x)
  end.

Definition goto (p : place) (b : bool) : I unit := let* t := gets current in upd_threads <[t := mk_thread p b]>.
Definition return_ : I unit := let* t := gets current in upd_threads (delete t).

(** [thread_block] as the last thing before the thread resumes at [p]. *)
Definition thread_block (p : place) : I unit :=
  let* c := gets in_context in assert (negb c) ;;;
  let* o := gets intr_off in assert o ;;; goto p true.

Definition thread_unblock (t : nat) : I unit :=
  let* th := gets threads in
  match th !! t with
  | Some (mk_thread p b) => assert b ;;; upd_threads <[t := mk_thread p false]>
  | None => fail AssertFailed
  end.

Definition wait (c : call) : I unit :=
  let* x := gets in_context in assert (negb x) ;;;
  let* o := gets intr_off in assert o ;;;
  let* w := must_wait c in assert w ;;;
  let* t := gets current in
  upd_q (set_waiter c (Some t)) ;;;
  thread_block (Woken c).

Definition other (c : call) : call := match c with Get => Put 0 | Put _ => Get end.

(** [signal] wakes the thread that waits for the other condition than [c]'s: the call
    [c] that has just succeeded made it true. *)
Definition signal (c : call) : I unit :=
  let* o := gets intr_off in assert o ;;;
  let* w := must_wait (other c) in assert (negb w) ;;;
  let* x := gets q in
  match waiter (other c) x with
  | Some t => thread_unblock t ;;; upd_q (set_waiter (other c) None)
  | None => ret tt
  end.

(** [intq_getc] and [intq_putc] after their loops; the byte that was moved. *)
Definition finish (c : call) : I Z :=
  let* x := gets q in
  match c with
  | Get =>
      let* byte := need (if tail x <? 0 then None else buf x !! Z.to_nat (tail x)) in
      upd_q (set_tail (next (tail x))) ;;; signal Get ;;; ret byte
  | Put byte =>
      need (if head x <? 0 then None else buf x !! Z.to_nat (head x)) ;;;
      upd_q (set_buf (<[Z.to_nat (head x) := byte]> (buf x)) (next (head x))) ;;; signal (Put byte) ;;; ret byte
  end.

Section Threads.
(** Priorities of the threads, and whether [sema_up] yields (it does in the kernel
    built without USERPROG). *)
Context (prio : nat → Z) (yields : bool).

(** [list_insert_ordered] with [list_compare_priority]. *)
Fixpoint insert_ordered (t : nat) (l : list nat) : list nat :=
  match l with
  | [] => [t]
  | x :: r => if prio x <? prio t then t :: l else x :: insert_ordered t r
  end.

(** [sema_down] from the test of its loop, in [lock_acquire], then [wait]. *)
Definition down_wait (c : call) : I unit :=
  let* t := gets current in
  let* x := gets q in
  let l := q_lock x in
  if value l =? 0 then
    upd_q (set_lock (mk_lock (holder l) 0 (insert_ordered t (waiters l)))) ;;; thread_block (InLock c)
  else
    upd_q (set_lock (mk_lock (Some t) (value l - 1) (waiters l))) ;;; wait c.

(** One round of the [while] loop; the byte that was moved, if the call returns. *)
Definition loop (c : call) : I (option Z) :=
  let* w := must_wait c in
  if w then
    let* x := gets in_context in assert (negb x) ;;;
    let* t := gets current in
    let* l := gets (λ s, q_lock (q s)) in
    assert (negb (bool_decide (holder l = Some t))) ;;;
    down_wait c ;;; ret None
  else let* b := finish c in return_ ;;; ret (Some b).

(** [lock_release], up to the yield. *)
Definition lock_release : I unit :=
  let* t := gets current in
  let* x := gets q in
  let l := q_lock x in
  assert (bool_decide (holder l = Some t)) ;;;
  match waiters l with
  | [] => upd_q (set_lock (mk_lock None (value l + 1) []))
  | w :: r => thread_unblock w ;;; upd_q (set_lock (mk_lock None (value l + 1) r))
  end.

Definition run_at (p : place) : I (option Z) :=
  match p with
  | Loop c => loop c
  | InLock c => down_wait c ;;; ret None
  | Woken c => lock_release ;;; if yields then goto (Loop c) false ;;; ret None else loop c
  end.

(** A thread enters a call, a thread that is not asleep runs, or a handler makes a
    call.  Handlers test first ([input_full] in kbd.c, the conditions of the loops in
    serial.c). *)
Inductive action := Enter (t : nat) (c : call) | Run (t : nat) | Irq (c : call).

Definition set_mode (t : nat) (off ctx : bool) : I unit := modify (λ s, mk_sys (q s) (threads s) t off ctx).

(** What an action does: the calls that completed, each with the byte it moved.
    Actions that are not possible do nothing. *)
Definition act (a : action) : I (list (call * Z)) :=
  match a with
  | Enter t c =>
      let* th := gets threads in
      match th !! t with
      | Some _ => ret []
      | None =>
          set_mode t true false ;;; goto (Loop c) false ;;;
          let* o := loop c in ret (match o with Some b => [(c, b)] | None => [] end)
      end
  | Run t =>
      let* th := gets threads in
      match th !! t with
      | Some (mk_thread p false) =>
          set_mode t true false ;;;
          let* o := run_at p in
          ret (match o with Some b => [(call_of p, b)] | None => [] end)
      | _ => ret []
      end
  | Irq c =>
      let* t := gets current in
      set_mode t true true ;;;
      let* w := must_wait c in
      if w then ret [] else let* b := finish c in ret [(c, b)]
  end.

Fixpoint acts (l : list action) : I (list (call * Z)) :=
  match l with
  | [] => ret []
  | a :: r => let* e := act a in let* e' := acts r in ret (e ++ e')
  end.
End Threads.

Definition must_wait_q (c : call) (x : intq) : bool := match c with Get => q_empty x | Put _ => q_full x end.

(** ** The queue as a sequence *)

Definition wf (x : intq) : Prop :=
  length (buf x) = Z.to_nat INTQ_BUFSIZE ∧ 0 <= head x < INTQ_BUFSIZE ∧ 0 <= tail x < INTQ_BUFSIZE.

Definition byte_at (x : intq) (i : Z) : Z := nth (Z.to_nat ((tail x + i) mod INTQ_BUFSIZE)) (buf x) 0.
Definition contents (x : intq) : list Z := byte_at x <$> seqZ 0 ((head x - tail x) mod INTQ_BUFSIZE).

Definition gets_of (e : list (call * Z)) : list Z := omap (λ e, match e.1 with Get => Some e.2 | Put _ => None end) e.
Definition puts_of (e : list (call * Z)) : list Z := omap (λ e, match e.1 with Get => None | Put b => Some b end) e.

Lemma next_range pos : 0 <= pos < INTQ_BUFSIZE → 0 <= next pos < INTQ_BUFSIZE.
Proof. unfold next, INTQ_BUFSIZE. intros H. rewrite Z.rem_mod_nonneg by lia. mod_lia. Qed.

Lemma next_mod pos : 0 <= pos < INTQ_BUFSIZE → next pos = (pos + 1) mod INTQ_BUFSIZE.
Proof. unfold next, INTQ_BUFSIZE. intros H. by rewrite Z.rem_mod_nonneg by lia. Qed.

Lemma contents_put x b : wf x → q_full x = false →
  contents (set_buf (<[Z.to_nat (head x) := b]> (buf x)) (next (head x)) x) = contents x ++ [b].
Proof.
  intros (Hl & Hh & Ht) Hf. unfold q_full in Hf. rewrite next_mod, Z.eqb_neq in Hf by done.
  unfold contents, set_buf. cbn [head tail]. rewrite next_mod by done.
  assert (E : ((head x + 1) mod INTQ_BUFSIZE - tail x) mod INTQ_BUFSIZE = (head x - tail x) mod INTQ_BUFSIZE + 1) by (unfold INTQ_BUFSIZE in *; mod_lia).
  rewrite E, seqZ_app by (unfold INTQ_BUFSIZE; mod_lia). rewrite fmap_app. f_equal.
  - apply list_fmap_ext. intros i n Hn%lookup_seqZ. unfold byte_at. cbn [tail buf]. unfold INTQ_BUFSIZE in *.
    rewrite !nth_lookup, list_lookup_insert_ne; [done|]. mod_lia.
  - change (seqZ (0 + (head x - tail x) mod INTQ_BUFSIZE) 1) with [0 + 0 + (0 + (head x - tail x) mod INTQ_BUFSIZE)].
    cbn [fmap list_fmap]. unfold byte_at. cbn [tail buf]. rewrite nth_lookup.
    replace ((tail x + (0 + 0 + (0 + (head x - tail x) mod INTQ_BUFSIZE))) mod INTQ_BUFSIZE) with (head x) by (unfold INTQ_BUFSIZE in *; mod_lia).
    rewrite list_lookup_insert_eq; [done|]. rewrite Hl. lia.
Qed.

Lemma contents_get x : wf x → q_empty x = false → contents x = byte_at x 0 :: contents (set_tail (next (tail x)) x).
Proof.
  intros (Hl & Hh & Ht) Hf. unfold q_empty in Hf. rewrite Z.eqb_neq in Hf.
  unfold contents at 1. rewrite seqZ_cons by (unfold INTQ_BUFSIZE in *; mod_lia). cbn [fmap list_fmap]. f_equal.
  unfold contents, set_tail. cbn [head tail]. rewrite next_mod by done.
  replace ((head x - (tail x + 1) mod INTQ_BUFSIZE) mod INTQ_BUFSIZE) with (Z.pred ((head x - tail x) mod INTQ_BUFSIZE))
    by (unfold INTQ_BUFSIZE in *; mod_lia).
  replace (Z.succ 0) with (1 + 0) by lia. rewrite <- fmap_add_seqZ, <- list_fmap_compose. apply list_fmap_ext. intros i n _.
  unfold byte_at, compose. cbn [tail buf]. do 2 f_equal. unfold INTQ_BUFSIZE in *. mod_lia.
Qed.

Lemma put_nonempty x b : wf x → q_full x = false → q_empty (set_buf (<[Z.to_nat (head x) := b]> (buf x)) (next (head x)) x) = false.
Proof. unfold q_full, q_empty. cbn. done. Qed.

Lemma get_nonfull x : wf x → q_empty x = false → q_full (set_tail (next (tail x)) x) = false.
Proof.
  intros (Hl & Hh & Ht). unfold q_full, q_empty. cbn. rewrite !next_mod, !Z.eqb_neq by done. unfold INTQ_BUFSIZE in *. mod_lia.
Qed.

(** ** First in, first out, whatever the interleaving *)

Definition data (x : intq) : list Z * Z * Z := (buf x, head x, tail x).

(** A computation that does not change the bytes. *)
Definition keeps {A} (m : I A) : Prop := ∀ s a s', m s = Ok (a, s') → data (q s') = data (q s).

Lemma q_keeps_bind {A B} (m : I A) (k : A → I B) : keeps m → (∀ a, keeps (k a)) → keeps (bind m k).
Proof. intros Hm Hk s b s' H. run_inv. rewrite (Hk _ _ _ _ H). eauto. Qed.
Lemma q_keeps_ret {A} (a : A) : keeps (ret a).
Proof. intros s b s' H. by run_inv. Qed.
Lemma q_keeps_fail {A} f : keeps (@fail sys A f).
Proof. intros s b s' H. done. Qed.
Lemma keeps_gets {A} (f : sys → A) : keeps (gets f).
Proof. intros s b s' H. unfold gets in H. by run_inv. Qed.
Lemma q_keeps_assert b : keeps (assert b).
Proof. destruct b; [apply q_keeps_ret|apply q_keeps_fail]. Qed.
Lemma keeps_upd_q f : (∀ x, data (f x) = data x) → keeps (upd_q f).
Proof. intros Hf s a s' H. unfold upd_q, modify in H. run_inv. apply Hf. Qed.
Lemma keeps_upd_threads f : keeps (upd_threads f).
Proof. intros s a s' H. unfold upd_threads, modify in H. by run_inv. Qed.
Lemma keeps_set_mode t o c : keeps (set_mode t o c).
Proof. intros s a s' H. unfold set_mode, modify in H. by run_inv. Qed.

Create HintDb keeps.
#[export] Hint Resolve q_keeps_ret q_keeps_fail keeps_gets q_keeps_assert keeps_upd_threads keeps_set_mode : keeps.

Ltac keeps :=
  repeat first
    [ solve [auto with keeps] | simple apply q_keeps_bind; [|intros ?] | apply keeps_upd_q; intros ?; done
    | match goal with |- keeps (match ?x with _ => _ end) => destruct x end ].

Lemma keeps_must_wait c : keeps (must_wait c).
Proof. destruct c; unfold must_wait, intq_empty, intq_full; keeps. Qed.
Lemma keeps_thread_block p : keeps (thread_block p).
Proof. unfold thread_block, goto. keeps. Qed.
Lemma keeps_thread_unblock t : keeps (thread_unblock t).
Proof. unfold thread_unblock. keeps. Qed.
#[export] Hint Resolve keeps_must_wait keeps_thread_block keeps_thread_unblock : keeps.
Lemma keeps_set_waiter c w : keeps (upd_q (set_waiter c w)).
Proof. apply keeps_upd_q. by destruct c. Qed.
#[export] Hint Resolve keeps_set_waiter : keeps.
Lemma keeps_wait c : keeps (wait c).
Proof. unfold wait. keeps. Qed.
Lemma keeps_signal c : keeps (signal c).
Proof. unfold signal. keeps. Qed.
#[export] Hint Resolve keeps_wait keeps_signal : keeps.
Lemma keeps_down_wait prio c : keeps (down_wait prio c).
Proof. unfold down_wait. keeps. Qed.
Lemma keeps_goto p b : keeps (goto p b).
Proof. unfold goto. keeps. Qed.
Lemma keeps_return : keeps return_.
Proof. unfold return_. keeps. Qed.
Lemma keeps_lock_release : keeps lock_release.
Proof. unfold lock_release. keeps. Qed.
#[export] Hint Resolve keeps_down_wait keeps_goto keeps_return keeps_lock_release : keeps.

Lemma contents_data x y : data x = data y → contents x = contents y.
Proof. unfold data. intros [= E1 E2 E3]. unfold contents, byte_at. by rewrite E1, E2, E3. Qed.
Lemma wf_data x y : data x = data y → wf x → wf y.
Proof. unfold data. intros [= E1 E2 E3]. unfold wf. by rewrite E1, E2, E3. Qed.

(** What is in the queue, and what has gone through it. *)
Definition fifo (s : sys) (e : list (call * Z)) (s' : sys) : Prop :=
  wf (q s') ∧ contents (q s) ++ puts_of e = gets_of e ++ contents (q s').

Lemma fifo_keeps {A} (m : I A) s a s' : keeps m → m s = Ok (a, s') → wf (q s) → fifo s [] s'.
Proof.
  intros Hm H Hw. apply Hm in H. split; [by eapply wf_data|]. cbn. by rewrite app_nil_r, (contents_data _ _ H).
Qed.

Lemma fifo_refl s : wf (q s) → fifo s [] s.
Proof. by apply (fifo_keeps (ret tt) s tt s), eq_refl; apply q_keeps_ret. Qed.

Lemma fifo_trans s1 e1 s2 e2 s3 : fifo s1 e1 s2 → fifo s2 e2 s3 → fifo s1 (e1 ++ e2) s3.
Proof.
  intros [_ H1] [Hw H2]. split; [done|]. unfold puts_of, gets_of in *. rewrite !omap_app, app_assoc, H1, <- app_assoc, H2. by rewrite app_assoc.
Qed.

Lemma must_wait_val c s w s' : must_wait c s = Ok (w, s') → s' = s ∧ w = must_wait_q c (q s).
Proof. destruct c; cbn; unfold intq_empty, intq_full; intros H; run_inv; apply assert_inv in E as [_ ->]; unfold gets in *; by run_inv. Qed.

Lemma fifo_finish c s b s' : finish c s = Ok (b, s') → wf (q s) →
  must_wait_q c (q s) = false → fifo s [(c, b)] s'.
Proof.
  intros H Hw Hc. destruct (Hw) as (Hl & Hh & Ht). unfold finish in H. apply bind_inv in H as (x & s1 & E & H). unfold gets in E. run_inv.
  destruct c as [|b0].
  - destruct (Z.ltb_spec (tail (q s1)) 0); [lia|]. apply bind_inv in H as (b1 & s2 & E & H).
    destruct (buf (q s1) !! _) as [b2|] eqn:Eb; [|done]. injection E as <- <-. run_inv. pose proof (keeps_signal _ _ _ _ E0) as Hk.
    unfold upd_q, modify in E. run_inv. cbn [q] in Hk. split.
    + eapply wf_data; [symmetry; exact Hk|]. unfold wf. cbn. by refine (conj Hl (conj Hh (next_range _ Ht))).
    + cbn. rewrite app_nil_r, (contents_data _ _ Hk), contents_get by done. f_equal. unfold byte_at. rewrite nth_lookup, Z.add_0_r, Z.mod_small by done.
      by rewrite Eb.
  - destruct (Z.ltb_spec (head (q s1)) 0); [lia|]. run_inv. unfold upd_q, modify in E0. run_inv. destruct (buf (q s1) !! _); [|done]. injection E as <- <-.
    pose proof (keeps_signal _ _ _ _ E1) as Hk. cbn [q] in Hk. split.
    + eapply wf_data; [symmetry; exact Hk|]. unfold wf. cbn. rewrite length_insert. by refine (conj Hl (conj (next_range _ Hh) Ht)).
    + cbn. by rewrite (contents_data _ _ Hk), contents_put.
Qed.

(** A put moves the byte it was given. *)
Lemma finish_put_byte b0 s b s' : finish (Put b0) s = Ok (b, s') → b = b0.
Proof. unfold finish. intros H. by run_inv. Qed.
Lemma loop_put_byte prio b0 s b s' : loop prio (Put b0) s = Ok (Some b, s') → b = b0.
Proof.
  unfold loop. intros H. apply bind_inv in H as ([|] & s1 & E & H); run_inv; [done|by eapply finish_put_byte].
Qed.
Lemma run_at_put_byte prio yields p b0 s b s' : run_at prio yields p s = Ok (Some b, s') → call_of p = Put b0 → b = b0.
Proof.
  intros H Hc. destruct p as [c|c|c]; cbn in Hc; subst c; cbn [run_at] in H; [by eapply loop_put_byte|by run_inv|].
  apply bind_inv in H as (u & s2 & E1 & H). destruct yields; [by run_inv|by eapply loop_put_byte].
Qed.

(** A call that goes to sleep, or yields, has not changed the bytes. *)
Lemma loop_none prio c s s' : loop prio c s = Ok (None, s') → data (q s') = data (q s).
Proof.
  unfold loop. intros H. apply bind_inv in H as (w & s1 & E & H). apply keeps_must_wait in E. destruct w; [|by run_inv].
  rewrite <- E. revert H. assert (Hk : keeps (let* x := gets in_context in assert (negb x) ;;; let* t := gets current in
    let* l := gets (λ s, q_lock (q s)) in assert (negb (bool_decide (holder l = Some t))) ;;; down_wait prio c ;;; ret (@None Z))) by keeps.
  apply Hk.
Qed.
Lemma run_at_none prio yields p s s' : run_at prio yields p s = Ok (None, s') → data (q s') = data (q s).
Proof.
  intros H. destruct p as [c|c|c]; cbn [run_at] in H; [by eapply loop_none|run_inv; by eapply keeps_down_wait|].
  apply bind_inv in H as (u & s2 & E1 & H). apply keeps_lock_release in E1. rewrite <- E1.
  destruct yields; [run_inv; by eapply keeps_goto|by eapply loop_none].
Qed.

Lemma fifo_loop prio c s o s' : loop prio c s = Ok (o, s') → wf (q s) → fifo s (match o with Some b => [(c, b)] | None => [] end) s'.
Proof.
  intros H Hw. unfold loop in H. apply bind_inv in H as (w & s1 & E & H). apply must_wait_val in E as [-> E].
  destruct w.
  - assert (Hk : fifo s [] s'); [|by run_inv]. revert H Hw. apply fifo_keeps. keeps.
  - run_inv. eapply (fifo_trans _ [_] _ []); [by eapply fifo_finish|]. eapply fifo_keeps; [apply keeps_return|done|].
    by eapply fifo_finish.
Qed.

Lemma fifo_run_at prio yields p s o s' : run_at prio yields p s = Ok (o, s') → wf (q s) →
  fifo s (match o with Some b => [(call_of p, b)] | None => [] end) s'.
Proof.
  intros H Hw. destruct p as [c|c|c]; cbn [run_at] in H.
  - by eapply fifo_loop.
  - run_inv. eapply fifo_keeps; [apply keeps_down_wait|done|done].
  - apply bind_inv in H as (u & s2 & E1 & H). assert (H2 : fifo s [] s2). { by eapply fifo_keeps; [apply keeps_lock_release| |]. }
    eapply (fifo_trans _ []); [done|]. destruct yields.
    + run_inv. eapply fifo_keeps; [apply keeps_goto|done|apply H2].
    + eapply fifo_loop; [done|apply H2].
Qed.

Lemma fifo_act prio yields a s e s' : act prio yields a s = Ok (e, s') → wf (q s) → fifo s e s'.
Proof.
  intros H Hw. destruct a as [t c|t|c]; cbn [act] in H.
  - apply bind_inv in H as (th & s1 & E & H). unfold gets in E. run_inv. destruct (_ !! t); [run_inv; by apply fifo_refl|].
    run_inv. assert (H1 : fifo s1 [] st). { by eapply fifo_keeps; [apply keeps_set_mode| |]. }
    assert (H2 : fifo st [] st0). { eapply fifo_keeps; [apply keeps_goto| |apply H1]; done. }
    eapply (fifo_trans _ []); [done|]. eapply (fifo_trans _ []); [done|]. eapply fifo_loop; [done|apply H2].
  - apply bind_inv in H as (th & s1 & E & H). unfold gets in E. run_inv.
    destruct (_ !! t) as [[p [|]]|]; try (run_inv; by apply fifo_refl).
    run_inv. assert (H1 : fifo s1 [] st). { by eapply fifo_keeps; [apply keeps_set_mode| |]. }
    eapply (fifo_trans _ []); [done|]. eapply fifo_run_at; [done|apply H1].
  - run_inv. unfold gets in E. run_inv. assert (H1 : fifo st [] st0). { by eapply fifo_keeps; [apply keeps_set_mode| |]. }
    eapply (fifo_trans _ []); [done|]. destruct H1 as [Hw1 _]. apply must_wait_val in E1 as [-> E1]. destruct a1.
    + run_inv. by apply fifo_refl.
    + run_inv. by eapply fifo_finish.
Qed.

(** C20: under every interleaving of threads that call [intq_getc] and [intq_putc] and of
    interrupt handlers, the bytes come out in the order they went in, none twice and none
    lost: what was in the queue and what was put is what was taken and what is still in. *)
Theorem intq_is_fifo prio yields l s e s' :
  acts prio yields l s = Ok (e, s') → wf (q s) →
  wf (q s') ∧ contents (q s) ++ puts_of e = gets_of e ++ contents (q s').
Proof.
  revert s e. induction l as [|a l IH]; intros s e H Hw; cbn [acts] in H.
  - run_inv. by apply fifo_refl.
  - run_inv. pose proof (fifo_act _ _ _ _ _ _ E Hw) as H1. eapply fifo_trans; [exact H1|]. eapply IH; [done|apply H1].
Qed.

(** ** One thread at a time *)

Lemma must_wait_run c s : intr_off s = true → must_wait c s = Ok (must_wait_q c (q s), s).
Proof. intros H. destruct c; cbn; unfold intq_empty, intq_full, bind, gets; by rewrite H. Qed.

(** The queue after the byte was moved, and before [signal]. *)
Definition moved (c : call) (x : intq) : intq :=
  match c with
  | Get => set_tail (next (tail x)) x
  | Put b => set_buf (<[Z.to_nat (head x) := b]> (buf x)) (next (head x)) x
  end.

Lemma moved_other c x : wf x → must_wait_q c x = false → must_wait_q (other c) (moved c x) = false.
Proof. destruct c; cbn; [apply get_nonfull|apply put_nonempty]. Qed.

Lemma moved_wf c x : wf x → wf (moved c x).
Proof.
  intros (Hl & Hh & Ht). destruct c; unfold wf; cbn; rewrite ?length_insert.
  - exact (conj Hl (conj Hh (next_range _ Ht))).
  - exact (conj Hl (conj (next_range _ Hh) Ht)).
Qed.

(** The byte that a call moves. *)
Definition byte_of (c : call) (x : intq) : Z := match c with Get => byte_at x 0 | Put b => b end.

Lemma finish_run c s : wf (q s) → intr_off s = true → must_wait_q c (q s) = false →
  finish c s = (signal c ;;; ret (byte_of c (q s))) (mk_sys (moved c (q s)) (threads s) (current s) (intr_off s) (in_context s)).
Proof.
  intros (Hl & Hh & Ht) Ho Hc. unfold finish, gets. erewrite bind_ok by reflexivity.
  destruct c as [|b].
  - destruct (Z.ltb_spec (tail (q s)) 0); [lia|]. destruct (lookup_lt_is_Some_2 (buf (q s)) (Z.to_nat (tail (q s)))) as [v Hv]; [rewrite Hl; lia|].
    rewrite Hv. erewrite bind_ok by reflexivity. unfold upd_q. erewrite bind_ok by reflexivity. cbn [byte_of]. unfold byte_at.
    by rewrite nth_lookup, Z.add_0_r, Z.mod_small, Hv.
  - destruct (Z.ltb_spec (head (q s)) 0); [lia|]. destruct (lookup_lt_is_Some_2 (buf (q s)) (Z.to_nat (head (q s)))) as [v Hv]; [rewrite Hl; lia|].
    rewrite Hv. erewrite bind_ok by reflexivity. unfold upd_q. by erewrite bind_ok by reflexivity.
Qed.

Lemma moved_waiter c c' x : waiter c' (moved c x) = waiter c' x.
Proof. by destruct c, c'. Qed.

Lemma signal_run c s : intr_off s = true → must_wait_q (other c) (q s) = false →
  signal c s =
    match waiter (other c) (q s) with
    | Some t => (thread_unblock t ;;; upd_q (set_waiter (other c) None)) s
    | None => Ok (tt, s)
    end.
Proof.
  intros Ho Hw. unfold signal, gets. erewrite bind_ok by reflexivity. rewrite Ho. erewrite bind_ok by reflexivity.
  rewrite (bind_ok _ _ _ _ _ (must_wait_run _ _ Ho)), Hw. erewrite bind_ok by reflexivity. erewrite bind_ok by reflexivity. by destruct (waiter _ _).
Qed.

Lemma finish_none c s : wf (q s) → intr_off s = true → must_wait_q c (q s) = false → waiter (other c) (q s) = None →
  finish c s = Ok (byte_of c (q s), mk_sys (moved c (q s)) (threads s) (current s) (intr_off s) (in_context s)).
Proof.
  intros Hw Ho Hc Hn. rewrite finish_run by done. unfold bind. rewrite signal_run by (done || by apply moved_other). cbn [q].
  by rewrite moved_waiter, Hn.
Qed.

Lemma finish_some c s t p : wf (q s) → intr_off s = true → must_wait_q c (q s) = false → waiter (other c) (q s) = Some t →
  threads s !! t = Some (mk_thread p true) →
  finish c s = Ok (byte_of c (q s), mk_sys (set_waiter (other c) None (moved c (q s))) (<[t := mk_thread p false]> (threads s)) (current s) (intr_off s) (in_context s)).
Proof.
  intros Hw Ho Hc Hn Ht. rewrite finish_run by done. unfold bind at 1. rewrite signal_run by (done || by apply moved_other). cbn [q].
  rewrite moved_waiter, Hn. unfold thread_unblock, gets, bind. cbn [threads]. by rewrite Ht.
Qed.

(** The states that one thread [t] and the handlers reach: nobody waits and the lock is
    free; or [t] sleeps, and what it waits for has not happened; or it was woken. *)
Definition exclusive (t : nat) (s : sys) : Prop :=
  wf (q s) ∧
  ((threads s = ∅ ∨ ∃ c, threads s = {[t := mk_thread (Loop c) false]}) ∧ q_lock (q s) = mk_lock None 1 [] ∧ not_full (q s) = None ∧ not_empty (q s) = None
   ∨ (∃ c, threads s = {[t := mk_thread (Woken c) false]}) ∧ q_lock (q s) = mk_lock (Some t) 0 [] ∧ not_full (q s) = None ∧ not_empty (q s) = None
   ∨ (∃ c, threads s = {[t := mk_thread (Woken c) true]} ∧ waiter c (q s) = Some t ∧ waiter (other c) (q s) = None ∧ must_wait_q c (q s) = true) ∧
     q_lock (q s) = mk_lock (Some t) 0 []).

Lemma wait_run c s : intr_off s = true → in_context s = false → must_wait_q c (q s) = true →
  wait c s = Ok (tt, mk_sys (set_waiter c (Some (current s)) (q s)) (<[current s := mk_thread (Woken c) true]> (threads s)) (current s) true false).
Proof.
  intros Ho Hx Hw. unfold wait, thread_block, goto, upd_q, upd_threads, bind, gets, modify. rewrite Hx. cbn [negb assert ret]. rewrite Ho. cbn [assert ret].
  rewrite must_wait_run, Hw by done. cbn. by rewrite Hx, Ho.
Qed.

Lemma must_wait_set_lock c l x : must_wait_q c (set_lock l x) = must_wait_q c x.
Proof. by destruct c. Qed.
Lemma must_wait_set_waiter c c' w x : must_wait_q c (set_waiter c' w x) = must_wait_q c x.
Proof. by destruct c, c'. Qed.

Lemma down_wait_free prio c s : intr_off s = true → in_context s = false → q_lock (q s) = mk_lock None 1 [] → must_wait_q c (q s) = true →
  down_wait prio c s = Ok (tt, mk_sys (set_waiter c (Some (current s)) (set_lock (mk_lock (Some (current s)) 0 []) (q s)))
    (<[current s := mk_thread (Woken c) true]> (threads s)) (current s) true false).
Proof.
  intros Ho Hx Hl Hw. unfold down_wait, gets. do 2 erewrite bind_ok by reflexivity. cbn zeta. rewrite Hl. cbn [value holder waiters Z.eqb].
  unfold upd_q. erewrite bind_ok by reflexivity. rewrite wait_run; [done|done|done|]. cbn [q]. by rewrite must_wait_set_lock.
Qed.

Lemma loop_exclusive prio t c s : wf (q s) → (threads s = ∅ ∨ ∃ th, threads s = {[t := th]}) → current s = t → intr_off s = true → in_context s = false →
  q_lock (q s) = mk_lock None 1 [] → not_full (q s) = None → not_empty (q s) = None →
  ∃ o s', loop prio c s = Ok (o, s') ∧ exclusive t s'.
Proof.
  intros Hw Hth Hc Ho Hx Hl Hf He. unfold loop. rewrite (bind_ok _ _ _ _ _ (must_wait_run _ _ Ho)). destruct (must_wait_q c (q s)) eqn:Ec.
  - unfold gets. erewrite bind_ok by reflexivity. rewrite Hx. do 3 erewrite bind_ok by reflexivity. rewrite Hl. erewrite bind_ok by reflexivity.
    rewrite (bind_ok _ _ _ _ _ (down_wait_free _ _ _ Ho Hx Hl Ec)). eexists _, _. split; [reflexivity|]. split; [by destruct c|].
    do 2 right. split; [|by destruct c; cbn; rewrite Hc]. exists c. cbn [threads q]. rewrite Hc, must_wait_set_waiter, must_wait_set_lock. split_and!.
    + destruct Hth as [->|[th ->]]; [done|]. apply insert_singleton_eq.
    + by destruct c.
    + by destruct c.
    + done.
  - assert (Hn : waiter (other c) (q s) = None) by by destruct c.
    rewrite (bind_ok _ _ _ _ _ (finish_none _ _ Hw Ho Ec Hn)). eexists _, _. split; [reflexivity|]. split; [by apply moved_wf|].
    left. cbn. split; [left|by destruct c]. rewrite Hc. destruct Hth as [->|[th ->]]; [apply delete_empty|apply delete_singleton_eq].
Qed.

Lemma enter_exclusive prio yields t c s : exclusive t s → ∃ e s', act prio yields (Enter t c) s = Ok (e, s') ∧ exclusive t s'.
Proof.
  intros (Hw & Hs). cbn [act]. unfold gets. erewrite bind_ok by reflexivity. destruct (threads s !! t) eqn:Et; [exists [], s; by split|].
  destruct Hs as [([Hth|[c' Hth]] & Hl & Hf & He)|[([c' Hth] & _)|((c' & Hth & _) & _)]];
    try (rewrite Hth, lookup_singleton_eq in Et; discriminate Et).
  unfold set_mode, goto, upd_threads, gets. erewrite bind_ok by reflexivity. rewrite bind_assoc. do 2 erewrite bind_ok by reflexivity.
  cbn [q threads current intr_off in_context].
  destruct (loop_exclusive prio t c (mk_sys (q s) (<[t := mk_thread (Loop c) false]> (threads s)) t true false)) as (o & s' & E & Hx); try done.
  - right. exists (mk_thread (Loop c) false). cbn. by rewrite Hth.
  - rewrite (bind_ok _ _ _ _ _ E). by eexists _, _.
Qed.

Lemma run_exclusive prio yields t t' s : exclusive t s → ∃ e s', act prio yields (Run t') s = Ok (e, s') ∧ exclusive t s'.
Proof.
  intros (Hw & Hs). cbn [act]. unfold gets. erewrite bind_ok by reflexivity.
  destruct (threads s !! t') as [[p [|]]|] eqn:Et; [exists [], s; by split| |exists [], s; by split].
  unfold set_mode. erewrite bind_ok by reflexivity.
  destruct Hs as [([Hth|[c' Hth]] & Hl & Hf & He)|[([c' Hth] & Hl & Hf & He)|((c' & Hth & _) & _)]]; rewrite Hth in Et;
    [done| | |]; apply lookup_singleton_Some in Et as [<- [=]]; subst; cbn [run_at].
  - destruct (loop_exclusive prio t c' (mk_sys (q s) (threads s) t true false)) as (o & s' & E & Hx); try done.
    { right. by eexists. }
    rewrite (bind_ok _ _ _ _ _ E). by eexists _, _.
  - assert (E : lock_release (mk_sys (q s) (threads s) t true false) = Ok (tt, mk_sys (set_lock (mk_lock None 1 []) (q s)) (threads s) t true false)).
    { unfold lock_release, gets. do 2 erewrite bind_ok by reflexivity. cbn [q current]. rewrite Hl. cbn [holder waiters value]. by rewrite bool_decide_eq_true_2. }
    rewrite bind_assoc, (bind_ok _ _ _ _ _ E). destruct yields.
    + unfold goto, gets, upd_threads. rewrite !bind_assoc. erewrite bind_ok by reflexivity. erewrite bind_ok by reflexivity.
      eexists _, _. split; [reflexivity|]. split; [done|]. left. split; [|done]. right. exists c'. cbn. by rewrite Hth, insert_singleton_eq.
    + destruct (loop_exclusive prio t c' (mk_sys (set_lock (mk_lock None 1 []) (q s)) (threads s) t true false)) as (o & s' & E' & Hx); try done.
      { right. by eexists. }
      rewrite (bind_ok _ _ _ _ _ E'). by eexists _, _.
Qed.

Lemma finish_exclusive t c s : exclusive t s → intr_off s = true → must_wait_q c (q s) = false →
  ∃ s', finish c s = Ok (byte_of c (q s), s') ∧ exclusive t s' ∧ intr_off s' = true.
Proof.
  intros (Hw & Hs) Ho Ec. destruct (waiter (other c) (q s)) as [w|] eqn:Ew.
  - destruct Hs as [(_ & _ & Hf & He)|[(_ & _ & Hf & He)|((c' & Hth & Hc & Hn & Hm) & Hl)]]; try (destruct c; cbn in Ew; congruence).
    assert (w = t) as -> by (destruct c, c'; cbn in *; congruence).
    rewrite (finish_some c _ t (Woken c')); [|done..|by rewrite Hth, lookup_singleton_eq].
    eexists. split; [reflexivity|]. split; [|done]. split; [destruct c; by apply moved_wf|]. right. left. cbn. rewrite Hth.
    split; [exists c'; apply insert_singleton_eq|]. destruct c, c'; cbn in *; split_and?; congruence.
  - rewrite finish_none by done. eexists. split; [reflexivity|]. split; [|done]. split; [by apply moved_wf|]. cbn.
    destruct Hs as [(H & Hl & Hf & He)|[(H & Hl & Hf & He)|((c' & Hth & Hc & Hn & Hm) & Hl)]].
    + left. by destruct c.
    + right. left. by destruct c.
    + exfalso. destruct c, c'; cbn in *; congruence.
Qed.

Lemma irq_exclusive prio yields t c s : exclusive t s → ∃ e s', act prio yields (Irq c) s = Ok (e, s') ∧ exclusive t s'.
Proof.
  intros Hs. cbn [act]. unfold gets, set_mode. do 2 erewrite bind_ok by reflexivity.
  rewrite (bind_ok _ _ _ _ _ (must_wait_run c (mk_sys (q s) (threads s) (current s) true true) eq_refl)). cbn [q].
  destruct (must_wait_q c (q s)) eqn:Ec; [by eexists _, _|].
  destruct (finish_exclusive t c (mk_sys (q s) (threads s) (current s) true true) Hs eq_refl Ec) as (s' & E & H' & _).
  rewrite (bind_ok _ _ _ _ _ E). by eexists _, _.
Qed.

Lemma act_exclusive prio yields t a s : exclusive t s → (∀ t' c, a = Enter t' c → t' = t) →
  ∃ e s', act prio yields a s = Ok (e, s') ∧ exclusive t s'.
Proof.
  intros Hs Ha. destruct a as [t' c|t'|c].
  - rewrite (Ha t' c eq_refl). by apply enter_exclusive.
  - by apply run_exclusive.
  - by apply irq_exclusive.
Qed.

Definition empty_queue : intq := intq_init (mk_intq (mk_lock None 0 []) None None (replicate 64 0) 0 0).
Definition start : sys := mk_sys empty_queue ∅ 0 false false.

(** C21: when only one thread ever calls the queue's functions besides the interrupt
    handlers, no assertion fails, under any interleaving, and no wake-up is lost: while
    the thread sleeps in [intq_getc] the queue is empty, and while it sleeps in
    [intq_putc] the queue is full. *)
Theorem intq_exclusive_safe prio yields t l :
  Forall (λ a, ∀ t' c, a = Enter t' c → t' = t) l →
  ∃ e s', acts prio yields l start = Ok (e, s') ∧
    ∀ t' p, threads s' !! t' = Some (mk_thread p true) →
      (p = Woken Get ∧ contents (q s') = []) ∨ (∃ b, p = Woken (Put b)) ∧ length (contents (q s')) = 63%nat.
Proof.
  intros Hl. assert (Hs : exclusive t start). { split; [by cbn|]. left. repeat split; auto. }
  assert (H : ∃ e s', acts prio yields l start = Ok (e, s') ∧ exclusive t s').
  { revert Hs. generalize start. induction Hl as [|a l Ha Hl IH]; intros s Hs; cbn [acts]; [by eexists _, _|].
    destruct (act_exclusive prio yields t a s Hs Ha) as (e & s1 & E & H1). rewrite (bind_ok _ _ _ _ _ E).
    destruct (IH s1 H1) as (e' & s2 & E' & H2). rewrite (bind_ok _ _ _ _ _ E'). by eexists _, _. }
  destruct H as (e & s' & E & Hw & Hx). exists e, s'. split; [done|]. intros t' p Ht.
  destruct Hx as [([Hth|[c Hth]] & _)|[([c Hth] & _)|((c & Hth & _ & _ & Hm) & _)]]; rewrite Hth in Ht; [done| | |];
    apply lookup_singleton_Some in Ht as [<- [=]]; subst.
  destruct Hw as (_ & Hh & Ht). unfold contents. rewrite length_fmap, length_seqZ. unfold INTQ_BUFSIZE in *. destruct c as [|b]; [left|right].
  - split; [done|]. cbn in Hm. unfold q_empty in Hm. apply Z.eqb_eq in Hm. by rewrite Hm, Z.sub_diag.
  - split; [by eexists|]. cbn in Hm. unfold q_full in Hm. rewrite next_mod in Hm by done. apply Z.eqb_eq in Hm. unfold INTQ_BUFSIZE in *. mod_lia.
Qed.

(** A reader sleeps, two bytes arrive, the reader takes the first and comes back for the
    second. *)
Definition reader_schedule : list action := [Enter 1 Get; Irq (Put 65); Irq (Put 66); Run 1; Run 1; Enter 1 Get; Run 1].

Lemma intq_is_fifo_witness : ∃ e s', acts (λ _, 31) true reader_schedule start = Ok (e, s') ∧ gets_of e = [65; 66] ∧
  wf (q s') ∧ contents (q start) ++ puts_of e = gets_of e ++ contents (q s').
Proof.
  destruct (acts (λ _, 31) true reader_schedule start) as [[e s']|] eqn:E; [|exfalso; revert E; vm_compute; discriminate].
  exists e, s'. split; [done|]. split; [revert E; vm_compute; intros [= <- _]; reflexivity|].
  apply (intq_is_fifo (λ _, 31) true reader_schedule start); [exact E|by cbn].
Defined.

Lemma intq_exclusive_safe_witness : ∃ e s', acts (λ _, 31) true reader_schedule start = Ok (e, s') ∧
  ∀ t' p, threads s' !! t' = Some (mk_thread p true) →
    (p = Woken Get ∧ contents (q s') = []) ∨ (∃ b, p = Woken (Put b)) ∧ length (contents (q s')) = 63%nat.
Proof. apply (intq_exclusive_safe (λ _, 31) true 1). repeat constructor; intros t' c [=]; congruence. Defined.

(** Two readers: the second one sleeps in [lock_acquire] while the first one waits.  When
    two bytes arrive before the first one runs, the second one gets the lock while a byte
    is left, and [wait] insists that the queue is empty. *)
Example two_readers_panic :
  acts (λ _, 31) false [Enter 1 Get; Enter 2 Get; Irq (Put 65); Irq (Put 66); Run 1; Run 2] start = Fail AssertFailed.
Proof. vm_compute. reflexivity. Qed.

(** When [sema_up] yields, one byte is enough. *)
Example two_readers_yield_panic : acts (λ _, 31) true [Enter 1 Get; Enter 2 Get; Irq (Put 65); Run 1; Run 2] start = Fail AssertFailed.
Proof. vm_compute. reflexivity. Qed.
