(* ===== verification/Serial.v ===== *)
(** * The serial port, the input buffer and the keyboard
      (src/devices/serial.c, input.c, kbd.c)

    The three share two interrupt queues: the bytes to be transmitted, and the keys that
    were received.  A thread that sleeps in [serial_putc] or [input_getc] sleeps in one of
    the queues, and what follows the queue's call runs when that returns. *)

From S2P Require Import Prelude StdlibC Intq.
Local Open Scope Z_scope.

Inductive serial_mode := UNINIT | POLL | QUEUE.
#[global] Instance serial_mode_eq : EqDecision serial_mode.
Proof. solve_decision. Defined.

(** The states of the shift keys and the number of keys pressed. *)
Record kbd := mk_kbd {
  left_shift : bool; right_shift : bool; left_alt : bool; right_alt : bool; left_ctrl : bool; right_ctrl : bool;
  caps_lock : bool; key_cnt : Z }.

(** [lsr], [rbr] and [data_reg] are what the next reads of the line status, receiver buffer and
    keyboard data registers give; reads beyond them give 0 (an idle line).  [regs] are the
    writes of the set-up registers, [sent] the bytes written to the transmitter, and [ier]
    the interrupt enable register. *)
Record machine := mk_machine {
  mode : serial_mode; txq : Intq.sys; buffer : Intq.sys; keys : kbd;
  ier : Z; regs : list (Z * Z); sent : list Z; lsr : list Z; rbr : list Z; data_reg : list Z }.

Notation D := (M machine).

Definition upd_mode v := modify (λ m, mk_machine v (txq m) (buffer m) (keys m) (ier m) (regs m) (sent m) (lsr m) (rbr m) (data_reg m)).
Definition upd_keys f := modify (λ m, mk_machine (mode m) (txq m) (buffer m) (f (keys m)) (ier m) (regs m) (sent m) (lsr m) (rbr m) (data_reg m)).
Definition outb_ier v := modify (λ m, mk_machine (mode m) (txq m) (buffer m) (keys m) v (regs m) (sent m) (lsr m) (rbr m) (data_reg m)).
Definition outb_thr v := modify (λ m, mk_machine (mode m) (txq m) (buffer m) (keys m) (ier m) (regs m) (sent m ++ [v]) (lsr m) (rbr m) (data_reg m)).
Definition outb (port v : Z) := modify (λ m, mk_machine (mode m) (txq m) (buffer m) (keys m) (ier m) (regs m ++ [(port, v)]) (sent m) (lsr m) (rbr m) (data_reg m)).
Definition inb_lsr : D Z := λ m,
  Ok (hd 0 (lsr m), mk_machine (mode m) (txq m) (buffer m) (keys m) (ier m) (regs m) (sent m) (tl (lsr m)) (rbr m) (data_reg m)).
Definition inb_rbr : D Z := λ m,
  Ok (u8 (hd 0 (rbr m)), mk_machine (mode m) (txq m) (buffer m) (keys m) (ier m) (regs m) (sent m) (lsr m) (tl (rbr m)) (data_reg m)).
Definition inb_data : D Z := λ m,
  Ok (u8 (hd 0 (data_reg m)), mk_machine (mode m) (txq m) (buffer m) (keys m) (ier m) (regs m) (sent m) (lsr m) (rbr m) (tl (data_reg m))).

(** The functions of a queue, on one of the two. *)
Definition on_txq {A} (f : Intq.I A) : D A := λ m,
  match f (txq m) with
  | Ok (a, s) => Ok (a, mk_machine (mode m) s (buffer m) (keys m) (ier m) (regs m) (sent m) (lsr m) (rbr m) (data_reg m))
  | Fail e => Fail e
  end.
Definition on_buffer {A} (f : Intq.I A) : D A := λ m,
  match f (buffer m) with
  | Ok (a, s) => Ok (a, mk_machine (mode m) (txq m) s (keys m) (ier m) (regs m) (sent m) (lsr m) (rbr m) (data_reg m))
  | Fail e => Fail e
  end.

Definition IER_RECV : Z := 1.
Definition IER_XMIT : Z := 2.
Definition LSR_DR : Z := 1.
Definition LSR_THRE : Z := 32.

Definition input_full : D bool := on_buffer intq_full.

Definition write_ier : D unit :=
  let* o := gets (λ m, intr_off (txq m)) in assert o ;;;
  let* e := on_txq intq_empty in
  let ier := if negb e then Z.lor 0 IER_XMIT else 0 in
  let* f := input_full in
  let ier := if negb f then Z.lor ier IER_RECV else ier in
  outb_ier ier.

Definition serial_notify : D unit :=
  let* o := gets (λ m, intr_off (txq m)) in assert o ;;;
  let* md := gets mode in
  if decide (md = QUEUE) then write_ier else ret tt.

(** [set_serial]; [Z.quot] is the division of [int]s. *)
Definition set_serial (bps : Z) : D unit :=
  let base_rate := Z.quot 1843200 16 in
  let* divisor := need (if bps =? 0 then None else Some (u16 (Z.quot base_rate bps))) in
  assert ((300 <=? bps) && (bps <=? 115200)) ;;;
  outb 1019 (Z.lor 3 128) ;;;
  outb 1016 (Z.land divisor 255) ;;;
  outb 1017 (Z.shiftr divisor 8) ;;;
  outb 1019 3.

Definition init_poll : D unit :=
  let* md := gets mode in
  assert (bool_decide (md = UNINIT)) ;;;
  outb_ier 0 ;;;
  outb 1018 0 ;;;
  set_serial 9600 ;;;
  outb 1020 8 ;;;
  on_txq (upd_q intq_init) ;;;
  upd_mode POLL.

(** The busy wait reads the line status until the transmitter is empty; [rounds] reads at
    most. *)
Fixpoint poll_ready (rounds : nat) : D unit :=
  match rounds with
  | O => fail NoFuel
  | S r => let* v := inb_lsr in if Z.land v LSR_THRE =? 0 then poll_ready r else ret tt
  end.

Definition putc_poll (byte : Z) : D unit :=
  let* o := gets (λ m, intr_off (txq m)) in assert o ;;;
  let* rounds := gets (λ m, S (length (lsr m))) in
  poll_ready rounds ;;; outb_thr byte.

(** [serial_init_queue], less the registration of the handler. *)
Definition serial_init_queue : D unit :=
  let* md := gets mode in
  (if decide (md = UNINIT) then init_poll else ret tt) ;;;
  let* md := gets mode in
  assert (bool_decide (md = POLL)) ;;;
  upd_mode QUEUE ;;;
  write_ier.

(** Each thread or handler that starts to run sets who runs, and in which mode. *)
Definition running (t : nat) (off ctx : bool) : D unit := on_txq (Intq.set_mode t off ctx) ;;; on_buffer (Intq.set_mode t off ctx).

(** Calls of [intq_getc] and [intq_putc] that do not sleep, from a handler or after the
    caller tested the queue. *)
Definition getc_now : Intq.I Z := let* w := must_wait Get in assert (negb w) ;;; finish Get.
Definition putc_now (byte : Z) : Intq.I Z := let* w := must_wait (Put byte) in assert (negb w) ;;; finish (Put byte).

Definition input_putc (key : Z) : D unit :=
  let* o := gets (λ m, intr_off (buffer m)) in assert o ;;;
  let* f := input_full in
  assert (negb f) ;;;
  on_buffer (putc_now key) ;;;
  serial_notify.

(** ** The keyboard *)

Definition invariant_keymap : list (Z * list Z) :=
  [(1, [27]); (14, [8]); (15, 9 :: chars "QWERTYUIOP"); (28, [13]); (30, chars "ASDFGHJKL"); (44, chars "ZXCVBNM"); (55, chars "*");
   (57, chars " "); (83, [127]); (0, [])].
Definition unshifted_keymap : list (Z * list Z) :=
  [(2, chars "1234567890-="); (26, chars "[]"); (39, chars ";'`"); (43, [92]); (51, chars ",./"); (0, [])].
Definition shifted_keymap : list (Z * list Z) :=
  [(2, chars "!@#$%^&*()_+"); (26, chars "{}"); (39, [58; 34; 126]); (43, chars "|"); (51, chars "<>?"); (0, [])].

Fixpoint map_key (k : list (Z * list Z)) (scancode : Z) : option Z :=
  match k with
  | [] => None
  | (first, cs) :: r =>
      if first =? 0 then None
      else if (first <=? scancode) && (scancode <? first + Z.of_nat (length cs)) then cs !! Z.to_nat (scancode - first)
      else map_key r scancode
  end.

Definition isupper (c : Z) : bool := (65 <=? c) && (c <=? 90).
Definition tolower (c : Z) : Z := if isupper c then c - 65 + 97 else c.

Definition set_caps b k := mk_kbd (left_shift k) (right_shift k) (left_alt k) (right_alt k) (left_ctrl k) (right_ctrl k) b (key_cnt k).
Definition set_cnt n k := mk_kbd (left_shift k) (right_shift k) (left_alt k) (right_alt k) (left_ctrl k) (right_ctrl k) (caps_lock k) n.

Definition shift_keys : list (Z * (bool → kbd → kbd)) :=
  [(42, λ b k, mk_kbd b (right_shift k) (left_alt k) (right_alt k) (left_ctrl k) (right_ctrl k) (caps_lock k) (key_cnt k));
   (54, λ b k, mk_kbd (left_shift k) b (left_alt k) (right_alt k) (left_ctrl k) (right_ctrl k) (caps_lock k) (key_cnt k));
   (56, λ b k, mk_kbd (left_shift k) (right_shift k) b (right_alt k) (left_ctrl k) (right_ctrl k) (caps_lock k) (key_cnt k));
   (57400, λ b k, mk_kbd (left_shift k) (right_shift k) (left_alt k) b (left_ctrl k) (right_ctrl k) (caps_lock k) (key_cnt k));
   (29, λ b k, mk_kbd (left_shift k) (right_shift k) (left_alt k) (right_alt k) b (right_ctrl k) (caps_lock k) (key_cnt k));
   (57373, λ b k, mk_kbd (left_shift k) (right_shift k) (left_alt k) (right_alt k) (left_ctrl k) b (caps_lock k) (key_cnt k))].

Fixpoint scan_shift (l : list (Z * (bool → kbd → kbd))) (code : Z) (down : bool) (k : kbd) : kbd :=
  match l with
  | [] => k
  | (c, set) :: r => if c =? code then set down k else scan_shift r code down k
  end.

(** The lookups in the key maps, in the order of the [||]. *)
Definition find_key (shift : bool) (code : Z) : option Z :=
  match map_key invariant_keymap code with
  | Some c => Some c
  | None => if negb shift then map_key unshifted_keymap code else map_key shifted_keymap code
  end.

(** The character for a key that is pressed; [None] reboots. *)
Definition key_char (shift alt ctrl caps : bool) (c : Z) : option Z :=
  if (c =? 127) && ctrl && alt then None
  else
    let c := if ctrl && (64 <=? c) && (c <? 96) then u8 (c - 64) else if eqb shift caps then u8 (tolower c) else c in
    Some (if alt then u8 (c + 128) else c).

(** What a handler did: the characters it received, and whether it reboots the machine. *)
Inductive io := Received (b : Z) | Accepted (b : Z) | Got (b : Z) | Reboot.

Definition keyboard_interrupt : D (list io) :=
  let* k := gets keys in
  let shift := left_shift k || right_shift k in
  let alt := left_alt k || right_alt k in
  let ctrl := left_ctrl k || right_ctrl k in
  let* code := inb_data in
  let* code := (if code =? 224 then let* b := inb_data in ret (Z.lor (Z.shiftl code 8) b) else ret code) in
  let release := negb (Z.land code 128 =? 0) in
  let code := Z.ldiff code 128 in
  if code =? 58 then
    (if negb release then upd_keys (λ k, set_caps (negb (caps_lock k)) k) else ret tt) ;;; ret []
  else
    match find_key shift code with
    | Some c =>
        if negb release then
          match key_char shift alt ctrl (caps_lock k) c with
          | None => ret [Reboot]
          | Some c =>
              let* f := input_full in
              if negb f then upd_keys (λ k, set_cnt (s64 (key_cnt k + 1)) k) ;;; input_putc c ;;; ret [Received c] else ret []
          end
        else ret []
    | None => upd_keys (scan_shift shift_keys code (negb release)) ;;; ret []
    end.

(** ** The serial interrupt *)

Fixpoint receive_loop (rounds : nat) : D (list io) :=
  match rounds with
  | O => fail NoFuel
  | S r =>
      let* f := input_full in
      if f then ret [] else
      let* v := inb_lsr in
      if Z.land v LSR_DR =? 0 then ret [] else
      let* b := inb_rbr in
      input_putc b ;;;
      let* l := receive_loop r in ret (Received b :: l)
  end.

Fixpoint transmit_loop (rounds : nat) : D unit :=
  match rounds with
  | O => fail NoFuel
  | S r =>
      let* e := on_txq intq_empty in
      if e then ret tt else
      let* v := inb_lsr in
      if Z.land v LSR_THRE =? 0 then ret tt else
      let* b := on_txq getc_now in
      outb_thr b ;;; transmit_loop r
  end.

(** A queue of 64 places ends each loop after at most 64 tests.  The value read from
    [IIR_REG] first is not used, and the read changes nothing of the modelled state. *)
Definition serial_interrupt : D (list io) :=
  let* l := receive_loop 64 in
  transmit_loop 64 ;;;
  write_ier ;;;
  ret l.

Fixpoint flush_loop (rounds : nat) : D unit :=
  match rounds with
  | O => fail NoFuel
  | S r =>
      let* e := on_txq intq_empty in
      if e then ret tt else
      let* b := on_txq getc_now in
      putc_poll b ;;; flush_loop r
  end.

Definition serial_flush : D unit := flush_loop 64.

(** ** What threads call *)

Section Threads.
Context (prio : nat → Z) (yields : bool).

(** [serial_putc] of thread [t], from a handler when [ctx], with interrupts off before
    when [old_off]. *)
Definition serial_putc (t : nat) (old_off ctx : bool) (byte : Z) : D (list io) :=
  running t true ctx ;;;
  let* md := gets mode in
  if negb (bool_decide (md = QUEUE)) then
    (if bool_decide (md = UNINIT) then init_poll else ret tt) ;;;
    putc_poll byte ;;; ret [Accepted byte]
  else
    let* f := on_txq intq_full in
    (if old_off && f then let* b := on_txq getc_now in putc_poll b else ret tt) ;;;
    let* o := on_txq (if ctx then let* b := putc_now byte in ret (Some b) else goto (Loop (Put byte)) false ;;; loop prio (Put byte)) in
    match o with
    | Some _ => write_ier ;;; ret [Accepted byte]
    | None => ret []
    end.

(** A thread that was asleep in [serial_putc]. *)
Definition serial_putc_resume (t : nat) : D (list io) :=
  let* s := gets txq in
  match threads s !! t with
  | Some (mk_thread p false) =>
      match call_of p with
      | Put byte =>
          running t true false ;;;
          let* o := on_txq (run_at prio yields p) in
          match o with
          | Some _ => write_ier ;;; ret [Accepted byte]
          | None => ret []
          end
      | Get => ret []
      end
  | _ => ret []
  end.

Definition input_getc (t : nat) : D (list io) :=
  running t true false ;;;
  let* o := on_buffer (goto (Loop Get) false ;;; loop prio Get) in
  match o with
  | Some b => serial_notify ;;; ret [Got b]
  | None => ret []
  end.

Definition input_getc_resume (t : nat) : D (list io) :=
  let* s := gets buffer in
  match threads s !! t with
  | Some (mk_thread p false) =>
      match call_of p with
      | Get =>
          running t true false ;;;
          let* o := on_buffer (run_at prio yields p) in
          match o with
          | Some b => serial_notify ;;; ret [Got b]
          | None => ret []
          end
      | Put _ => ret []
      end
  | _ => ret []
  end.

(** What can happen: actions that are not possible do nothing (a thread that sleeps
    makes no new call, and threads sleep in [serial_putc] in queued mode only). *)
Inductive happening :=
| Putc (t : nat) (old_off ctx : bool) (byte : Z) | Resume_putc (t : nat) | Getc (t : nat) | Resume_getc (t : nat)
| Serial_irq | Key_irq | Flush | Init_queue.

Definition idle_thread (t : nat) (m : machine) : bool := bool_decide (threads (txq m) !! t = None) && bool_decide (threads (buffer m) !! t = None).

Definition happen (h : happening) : D (list io) :=
  let* m := gets id in
  let t := current (txq m) in
  match h with
  | Putc t off ctx b => if ctx || idle_thread t m then serial_putc t off ctx b else ret []
  | Resume_putc t => if bool_decide (mode m = QUEUE) then serial_putc_resume t else ret []
  | Getc t => if idle_thread t m then input_getc t else ret []
  | Resume_getc t => input_getc_resume t
  | Serial_irq => running t true true ;;; serial_interrupt
  | Key_irq => running t true true ;;; keyboard_interrupt
  | Flush => running t true false ;;; serial_flush ;;; ret []
  | Init_queue => running t true false ;;; serial_init_queue ;;; ret []
  end.

Fixpoint happens (l : list happening) : D (list io) :=
  match l with
  | [] => ret []
  | h :: r => let* e := happen h in let* e' := happens r in ret (e ++ e')
  end.
End Threads.
