(* ===== verification/SerialSpec.v ===== *)
(** * What the serial port and the keyboard do (src/devices/serial.c, input.c, kbd.c)

    Bytes leave and arrive in order, and the interrupt enable register follows the queues. *)

From S2P Require Import Prelude StdlibC Intq Serial.
Local Open Scope Z_scope.

(** [Q] holds after every run of [c] from a state with [P]. *)
Definition triple {A} (P : machine → Prop) (c : D A) (Q : A → machine → Prop) : Prop :=
  ∀ m a m', P m → c m = Ok (a, m') → Q a m'.

Lemma triple_bind {A B} P (c : D A) (k : A → D B) Q R : triple P c Q → (∀ a, triple (Q a) (k a) R) → triple P (bind c k) R.
Proof. intros Hc Hk m b m' HP H. run_inv. eapply Hk; [eapply Hc|]; eauto. Qed.
Lemma triple_ret {A} (a : A) (Q : A → machine → Prop) : triple (Q a) (ret a) Q.
Proof. intros m b m' HP H. by run_inv. Qed.
Lemma triple_pre {A} (P P' : machine → Prop) (c : D A) Q : (∀ m, P m → P' m) → triple P' c Q → triple P c Q.
Proof. intros HP Hc m a m' Hm H. eauto. Qed.
Lemma triple_gets {A} P (f : machine → A) : triple P (gets f) (λ a m, P m ∧ a = f m).
Proof. intros m a m' HP H. unfold gets in H. by run_inv. Qed.
Lemma triple_assert P b : triple P (assert b) (λ _ m, P m ∧ b = true).
Proof. intros m a m' HP H. by apply assert_inv in H as [? ->]. Qed.
Lemma triple_fail {A} P f Q : triple P (@fail _ A f) Q.
Proof. intros m a m' HP H. done. Qed.

Definition accepted (e : list io) : list Z := omap (λ e, match e with Accepted b => Some b | _ => None end) e.
Definition received (e : list io) : list Z := omap (λ e, match e with Received b => Some b | _ => None end) e.
Definition got (e : list io) : list Z := omap (λ e, match e with Got b => Some b | _ => None end) e.

Definition well_formed (m : machine) : Prop :=
  wf (q (txq m)) ∧ wf (q (buffer m)) ∧ (mode m ≠ QUEUE → contents (q (txq m)) = []).

(** What went through the port since [m0], and through the buffer; [p] was taken from the
    queue and is not yet sent. *)
Definition trace (m0 : machine) (e : list io) (p : list Z) (m : machine) : Prop :=
  well_formed m ∧
  sent m0 ++ contents (q (txq m0)) ++ accepted e = sent m ++ p ++ contents (q (txq m)) ∧
  contents (q (buffer m0)) ++ received e = got e ++ contents (q (buffer m)).

(** Changes that the trace does not see. *)
Definition same (m m' : machine) : Prop :=
  data (q (txq m')) = data (q (txq m)) ∧ data (q (buffer m')) = data (q (buffer m)) ∧ sent m' = sent m ∧ (mode m' = QUEUE ↔ mode m = QUEUE).

Definition keeps_trace {A} (c : D A) : Prop := ∀ m a m', c m = Ok (a, m') → same m m'.

Lemma trace_same m0 e p m m' : same m m' → trace m0 e p m → trace m0 e p m'.
Proof.
  intros (E1 & E2 & E3 & E4) ((W1 & W2 & W3) & H1 & H2). split; [split_and!; [by eapply wf_data|by eapply wf_data|]|split].
  - intros Hm. rewrite (contents_data _ _ E1). apply W3. tauto.
  - by rewrite E3, (contents_data _ _ E1).
  - by rewrite (contents_data _ _ E2).
Qed.

Lemma trace_keeps {A} (c : D A) m0 e p : keeps_trace c → triple (trace m0 e p) c (λ _, trace m0 e p).
Proof. intros Hc m a m' Hm H. eapply trace_same; eauto. Qed.

Lemma same_refl m : same m m.
Proof. by repeat split. Qed.
Lemma same_trans m1 m2 m3 : same m1 m2 → same m2 m3 → same m1 m3.
Proof. intros (A1 & A2 & A3 & A4) (B1 & B2 & B3 & B4). unfold same. split_and!; try congruence; tauto. Qed.

Lemma kt_bind {A B} (c : D A) (k : A → D B) : keeps_trace c → (∀ a, keeps_trace (k a)) → keeps_trace (bind c k).
Proof. intros Hc Hk m b m' H. run_inv. eapply same_trans; [eapply Hc|eapply Hk]; eauto. Qed.
Lemma kt_ret {A} (a : A) : keeps_trace (ret a).
Proof. intros m b m' H. run_inv. apply same_refl. Qed.
Lemma kt_fail {A} f : keeps_trace (@fail _ A f).
Proof. intros m b m' H. done. Qed.
Lemma kt_gets {A} (f : machine → A) : keeps_trace (gets f).
Proof. intros m b m' H. unfold gets in H. run_inv. apply same_refl. Qed.
Lemma kt_assert b : keeps_trace (assert b).
Proof. destruct b; [apply kt_ret|apply kt_fail]. Qed.
Lemma kt_on_txq {A} (f : Intq.I A) : keeps f → keeps_trace (on_txq f).
Proof. intros Hf m a m' H. unfold on_txq in H. destruct (f _) as [[b s]|] eqn:E; [|done]. run_inv. apply Hf in E. by repeat split. Qed.
Lemma kt_on_buffer {A} (f : Intq.I A) : keeps f → keeps_trace (on_buffer f).
Proof. intros Hf m a m' H. unfold on_buffer in H. destruct (f _) as [[b s]|] eqn:E; [|done]. run_inv. apply Hf in E. by repeat split. Qed.
Lemma kt_upd_keys f : keeps_trace (upd_keys f).
Proof. intros m a m' H. unfold upd_keys, modify in H. run_inv. by repeat split. Qed.
Lemma kt_outb_ier v : keeps_trace (outb_ier v).
Proof. intros m a m' H. unfold outb_ier, modify in H. run_inv. by repeat split. Qed.
Lemma kt_outb p v : keeps_trace (outb p v).
Proof. intros m a m' H. unfold outb, modify in H. run_inv. by repeat split. Qed.
Lemma kt_inb_lsr : keeps_trace inb_lsr.
Proof. intros m a m' H. unfold inb_lsr in H. run_inv. by repeat split. Qed.
Lemma kt_inb_rbr : keeps_trace inb_rbr.
Proof. intros m a m' H. unfold inb_rbr in H. run_inv. by repeat split. Qed.
Lemma kt_inb_data : keeps_trace inb_data.
Proof. intros m a m' H. unfold inb_data in H. run_inv. by repeat split. Qed.

#[export] Hint Resolve kt_ret kt_fail kt_gets kt_assert kt_on_txq kt_on_buffer kt_upd_keys kt_outb_ier kt_outb kt_inb_lsr kt_inb_rbr kt_inb_data : keeps.

Ltac kt :=
  repeat first
    [ solve [auto with keeps] | simple apply kt_bind; [|intros ?]
    | match goal with |- keeps_trace (match ?x with _ => _ end) => destruct x end ].

Lemma kt_input_full : keeps_trace input_full.
Proof. apply kt_on_buffer, (keeps_must_wait (Put 0)). Qed.
Lemma kt_txq_empty : keeps_trace (on_txq intq_empty).
Proof. apply kt_on_txq, (keeps_must_wait Get). Qed.
Lemma kt_txq_full : keeps_trace (on_txq intq_full).
Proof. apply kt_on_txq, (keeps_must_wait (Put 0)). Qed.
#[export] Hint Resolve kt_input_full kt_txq_empty kt_txq_full : keeps.
Lemma kt_write_ier : keeps_trace write_ier.
Proof. unfold write_ier. kt. Qed.
#[export] Hint Resolve kt_write_ier : keeps.
Lemma kt_serial_notify : keeps_trace serial_notify.
Proof. unfold serial_notify. kt. Qed.
Lemma kt_set_serial n : keeps_trace (set_serial n).
Proof. unfold set_serial, need. kt. Qed.
Lemma kt_running t o c : keeps_trace (running t o c).
Proof. unfold running. kt. Qed.
Lemma kt_poll_ready n : keeps_trace (poll_ready n).
Proof. induction n as [|n IH]; cbn [poll_ready]; kt. Qed.
#[export] Hint Resolve kt_serial_notify kt_set_serial kt_running kt_poll_ready : keeps.

(** ** Bytes in order *)

Lemma now_fifo c s b s' : (let* w := must_wait c in assert (negb w) ;;; finish c) s = Ok (b, s') → wf (q s) → fifo s [(c, b)] s'.
Proof.
  intros H Hw. run_inv. apply must_wait_val in E as [-> ->]. apply assert_inv in E0 as [Hn ->]. eapply fifo_finish; [done|done|by apply negb_true_iff].
Qed.

Lemma accepted_app e1 e2 : accepted (e1 ++ e2) = accepted e1 ++ accepted e2.
Proof. apply omap_app. Qed.
Lemma received_app e1 e2 : received (e1 ++ e2) = received e1 ++ received e2.
Proof. apply omap_app. Qed.
Lemma got_app e1 e2 : got (e1 ++ e2) = got e1 ++ got e2.
Proof. apply omap_app. Qed.

(** Calls on the queues, as the trace sees them. *)
Lemma trace_txq {A} (f : Intq.I A) m0 e (ev : A → list (call * Z)) (e' : A → list io) :
  (∀ s a s', f s = Ok (a, s') → wf (q s) → fifo s (ev a) s') →
  (∀ a, gets_of (ev a) = [] ∧ accepted (e' a) = puts_of (ev a) ∧ received (e' a) = [] ∧ got (e' a) = []) →
  triple (λ m, trace m0 e [] m ∧ mode m = QUEUE) (on_txq f) (λ a, trace m0 (e ++ e' a) []).
Proof.
  intros Hf He m a m' [((W1 & W2 & W3) & H1 & H2) Hm] H. unfold on_txq in H. destruct (f _) as [[b s]|] eqn:E; [|done]. run_inv.
  destruct (Hf _ _ _ E W1) as [W Hc]. destruct (He a) as (E1 & E2 & E3 & E4). rewrite E1 in Hc. cbn in Hc.
  split; [split_and!; cbn; [done|done|done]|]. cbn. rewrite accepted_app, received_app, got_app, E2, E3, E4, !app_nil_r. split; [|done].
  cbn in H1. by rewrite <- Hc, (app_assoc (sent m)), <- H1, <- !app_assoc.
Qed.

Lemma trace_getc m0 e : triple (trace m0 e []) (on_txq getc_now) (λ b, trace m0 e [b]).
Proof.
  intros m b m' ((W1 & W2 & W3) & H1 & H2) H. unfold on_txq in H. destruct (getc_now _) as [[b' s]|] eqn:E; [|done]. run_inv.
  destruct (now_fifo _ _ _ _ E W1) as [W Hc]. cbn in Hc. rewrite app_nil_r in Hc. rewrite Hc in W3, H1.
  split; [split_and!; cbn; [done|done|intros Hm; by specialize (W3 Hm)]|]. split; [exact H1|exact H2].
Qed.

Lemma trace_outb_thr m0 e b : triple (trace m0 e [b]) (outb_thr b) (λ _, trace m0 e []).
Proof.
  intros m a m' (W & H1 & H2) H. unfold outb_thr, modify in H. run_inv. split; [done|]. split; [|done]. cbn in *. by rewrite H1, <- app_assoc.
Qed.

Lemma trace_putc_poll m0 e b : triple (trace m0 e [b]) (putc_poll b) (λ _, trace m0 e []).
Proof.
  unfold putc_poll. do 3 (eapply triple_bind; [apply trace_keeps; solve [auto with keeps]|intros ?]).
  eapply triple_bind; [apply trace_keeps, kt_poll_ready|intros ?]. apply trace_outb_thr.
Qed.

(** A byte that is sent at once, while the queue is empty. *)
Lemma trace_accept m0 e b m : trace m0 e [] m → mode m ≠ QUEUE → trace m0 (e ++ [Accepted b]) [b] m.
Proof.
  intros (W & H1 & H2) Hm. split; [done|]. rewrite accepted_app, received_app, got_app, !app_nil_r. split; [|done].
  rewrite !app_assoc, <- (app_assoc (sent m0)), H1. destruct W as (_ & _ & W). by rewrite (W Hm), !app_nil_r.
Qed.

(** Puts and gets on the input buffer. *)
Lemma trace_buffer {A} (f : Intq.I A) m0 e (ev : A → list (call * Z)) (e' : A → list io) :
  (∀ s a s', f s = Ok (a, s') → wf (q s) → fifo s (ev a) s') →
  (∀ a, received (e' a) = puts_of (ev a) ∧ got (e' a) = gets_of (ev a) ∧ accepted (e' a) = []) →
  triple (trace m0 e []) (on_buffer f) (λ a, trace m0 (e ++ e' a) []).
Proof.
  intros Hf He m a m' ((W1 & W2 & W3) & H1 & H2) H. unfold on_buffer in H. destruct (f _) as [[b s]|] eqn:E; [|done]. run_inv.
  destruct (Hf _ _ _ E W2) as [W Hc]. destruct (He a) as (E1 & E2 & E3). rewrite <- E1, <- E2 in Hc.
  split; [by split_and!|]. cbn. rewrite accepted_app, received_app, got_app, E3, app_nil_r. split; [done|].
  by rewrite app_assoc, H2, <- app_assoc, Hc, app_assoc.
Qed.

(** The operation [c] adds what it returns to the trace. *)
Definition traces (c : D (list io)) : Prop := ∀ m0 e, triple (trace m0 e []) c (λ l, trace m0 (e ++ l) []).

Ltac tk := eapply triple_bind; [apply trace_keeps; solve [auto with keeps]|intros ?].

Lemma triple_ret' {A} (a : A) P (Q : A → machine → Prop) : (∀ m, P m → Q a m) → triple P (ret a) Q.
Proof. intros H m b m' HP E. run_inv. auto. Qed.

Lemma traces_nil (c : D (list io)) : (∀ m0 e, triple (trace m0 e []) c (λ l m, l = [] ∧ trace m0 e [] m)) → traces c.
Proof. intros H m0 e m l m' HT E. destruct (H m0 e _ _ _ HT E) as [-> ?]. by rewrite app_nil_r. Qed.

Lemma trace_ret_nil m0 e : triple (trace m0 e []) (ret []) (λ l, trace m0 (e ++ l) []).
Proof. apply triple_ret'. intros m. by rewrite app_nil_r. Qed.

Lemma trace_input_putc m0 e b : triple (trace m0 e []) (input_putc b) (λ _, trace m0 (e ++ [Received b]) []).
Proof.
  unfold input_putc. do 4 tk. eapply triple_bind; [|intros ?; apply trace_keeps, kt_serial_notify].
  apply (trace_buffer _ m0 e (λ _, [(Put b, b)]) (λ _, [Received b])); [|done]. intros s v s' H Hw. pose proof (now_fifo (Put b) _ _ _ H Hw) as HF.
  enough (v = b) by congruence. unfold putc_now in H. run_inv. by eapply finish_put_byte.
Qed.

Lemma traces_keyboard : traces keyboard_interrupt.
Proof.
  intros m0 e. unfold keyboard_interrupt. tk. tk.
  eapply triple_bind; [apply trace_keeps; kt|intros code]. cbv zeta. destruct (Z.ldiff code 128 =? 58).
  - destruct (negb _); tk; apply trace_ret_nil.
  - destruct (find_key _ _) as [c|]; [|tk; apply trace_ret_nil]. destruct (negb _); [|apply trace_ret_nil].
    destruct (key_char _ _ _ _ _) as [c'|].
    + tk. destruct (negb _); [|apply trace_ret_nil]. tk. eapply triple_bind; [apply trace_input_putc|intros ?]. by apply triple_ret'.
    + apply triple_ret'. intros m (W & H1 & H2). split; [done|]. by rewrite accepted_app, received_app, got_app, !app_nil_r.
Qed.

Lemma traces_receive n : traces (receive_loop n).
Proof.
  induction n as [|n IH]; intros m0 e; cbn [receive_loop]; [apply triple_fail|]. tk. destruct a; [apply trace_ret_nil|].
  tk. destruct (_ =? 0); [apply trace_ret_nil|]. tk. eapply triple_bind; [apply trace_input_putc|intros ?].
  eapply triple_bind; [apply IH|intros l]. apply triple_ret'. intros m. by rewrite <- app_assoc.
Qed.

Lemma trace_transmit n m0 e : triple (trace m0 e []) (transmit_loop n) (λ _, trace m0 e []).
Proof.
  induction n as [|n IH]; cbn [transmit_loop]; [apply triple_fail|]. tk. destruct a; [by apply triple_ret'|].
  tk. destruct (_ =? 0); [by apply triple_ret'|]. eapply triple_bind; [apply trace_getc|intros b].
  eapply triple_bind; [apply trace_outb_thr|intros ?]. apply IH.
Qed.

Lemma traces_serial_interrupt : traces serial_interrupt.
Proof.
  intros m0 e. unfold serial_interrupt. eapply triple_bind; [apply traces_receive|intros l].
  eapply triple_bind; [apply trace_transmit|intros ?]. tk. by apply triple_ret'.
Qed.

Lemma trace_flush n m0 e : triple (trace m0 e []) (flush_loop n) (λ _, trace m0 e []).
Proof.
  induction n as [|n IH]; cbn [flush_loop]; [apply triple_fail|]. tk. destruct a; [by apply triple_ret'|].
  eapply triple_bind; [apply trace_getc|intros b]. eapply triple_bind; [apply trace_putc_poll|intros ?]. apply IH.
Qed.

(** Before the queue is used. *)
Definition unqueued (m0 : machine) (e : list io) (m : machine) : Prop := trace m0 e [] m ∧ mode m ≠ QUEUE.

Lemma unqueued_keeps {A} (c : D A) m0 e : keeps_trace c → triple (unqueued m0 e) c (λ _, unqueued m0 e).
Proof. intros Hc m a m' [HT Hm] H. pose proof (Hc _ _ _ H) as Hs. split; [by eapply trace_same|]. destruct Hs as (_ & _ & _ & ?). tauto. Qed.

Lemma unqueued_init m0 e : triple (unqueued m0 e) (on_txq (upd_q intq_init)) (λ _, unqueued m0 e).
Proof.
  intros m a m' [((W1 & W2 & W3) & H1 & H2) Hm] H. unfold on_txq, upd_q, modify in H. run_inv. rewrite (W3 Hm) in H1.
  split; [|done]. split; [split_and!|]; cbn; [|done|done|].
  - destruct W1 as (? & _ & _). unfold wf, INTQ_BUFSIZE. cbn. split; [done|lia].
  - done.
Qed.

Lemma unqueued_mode m0 e md : md ≠ QUEUE → triple (unqueued m0 e) (upd_mode md) (λ _, unqueued m0 e).
Proof. intros Hmd m a m' [((W1 & W2 & W3) & H1 & H2) Hm] H. unfold upd_mode, modify in H. run_inv. split; [|done]. split; [|done]. split_and!; cbn; auto. Qed.

Ltac uk := eapply triple_bind; [apply unqueued_keeps; solve [auto with keeps]|intros ?].

Lemma unqueued_init_poll m0 e : triple (unqueued m0 e) init_poll (λ _, unqueued m0 e).
Proof. unfold init_poll. do 6 uk. eapply triple_bind; [apply unqueued_init|intros ?]. by apply unqueued_mode. Qed.

Lemma traces_init_queue : traces (serial_init_queue ;;; ret []).
Proof.
  apply traces_nil. intros m0 e. unfold serial_init_queue.
  eapply (triple_bind _ _ _ (λ _, trace m0 e [])); [|intros ?; by apply triple_ret'].
  eapply triple_bind; [apply triple_gets|intros md].
  eapply (triple_bind _ _ _ (λ _, trace m0 e [])).
  { destruct (decide (md = UNINIT)) as [->|].
    - eapply triple_pre; [|intros m a m' Hm H; exact (proj1 (unqueued_init_poll m0 e m a m' Hm H))]. intros m [? E]. split; [done|]. by rewrite <- E.
    - apply triple_ret'. tauto. }
  intros _. eapply triple_bind; [apply triple_gets|intros md']. eapply triple_bind; [apply triple_assert|intros ?].
  eapply (triple_bind _ _ _ (λ _, trace m0 e [])); [|intros ?; apply trace_keeps, kt_write_ier].
  intros m v m' [[((W1 & W2 & W3) & H1 & H2) ->] Hp] H. unfold upd_mode, modify in H. run_inv. split; [|done]. by split_and!.
Qed.

Lemma loop_fifo_put prio t b s o s' : (goto t false ;;; loop prio (Put b)) s = Ok (o, s') → wf (q s) →
  fifo s (if o is Some _ then [(Put b, b)] else []) s'.
Proof.
  intros H Hw. apply bind_inv in H as (u & s1 & E & H). assert (H1 : fifo s [] s1) by (by eapply fifo_keeps; [apply keeps_goto| |]).
  eapply (fifo_trans _ []); [done|]. pose proof (fifo_loop _ _ _ _ _ H (proj1 H1)) as H2. destruct o as [v|]; [|done].
  by rewrite (loop_put_byte _ _ _ _ _ H) in H2.
Qed.

(** In queued mode. *)
Definition stays {A} (c : D A) : Prop := ∀ m a m', c m = Ok (a, m') → mode m = QUEUE → mode m' = QUEUE.

Lemma stays_keeps {A} (c : D A) : keeps_trace c → stays c.
Proof. intros Hc m a m' H. destruct (Hc _ _ _ H) as (_ & _ & _ & ?). tauto. Qed.
Lemma stays_on_txq {A} (f : Intq.I A) : stays (on_txq f).
Proof. intros m a m' H Hm. unfold on_txq in H. destruct (f _) as [[? ?]|]; [|done]. by run_inv. Qed.
Lemma stays_bind {A B} (c : D A) (k : A → D B) : stays c → (∀ a, stays (k a)) → stays (bind c k).
Proof. intros Hc Hk m b m' H Hm. run_inv. eapply Hk; [done|]. by eapply Hc. Qed.
Lemma stays_putc_poll b : stays (putc_poll b).
Proof.
  unfold putc_poll. repeat (apply stays_bind; [apply stays_keeps; solve [auto with keeps]|intros ?]).
  intros m a' m' H Hm. unfold outb_thr, modify in H. by run_inv.
Qed.

Lemma queued {A} (c : D A) P Q : triple P c Q → stays c → triple (λ m, P m ∧ mode m = QUEUE) c (λ a m, Q a m ∧ mode m = QUEUE).
Proof. intros Hc Hs m a m' [HP Hm] H. eauto. Qed.

Lemma traces_poll m0 e b (init : bool) :
  triple (unqueued m0 e) ((if init then init_poll else ret tt) ;;; putc_poll b ;;; ret [Accepted b]) (λ l, trace m0 (e ++ l) []).
Proof.
  eapply (triple_bind _ _ _ (λ _, unqueued m0 e)). { destruct init; [apply unqueued_init_poll|by apply triple_ret']. }
  intros _. eapply (triple_bind _ _ _ (λ _, trace m0 (e ++ [Accepted b]) [])); [|intros ?; by apply triple_ret'].
  eapply triple_pre; [|apply trace_putc_poll]. intros m [HT Hm]. by apply trace_accept.
Qed.

Lemma trace_make_room m0 e (c : bool) :
  triple (λ m, trace m0 e [] m ∧ mode m = QUEUE) (if c then let* b := on_txq getc_now in putc_poll b else ret tt) (λ _ m, trace m0 e [] m ∧ mode m = QUEUE).
Proof.
  destruct c; [|by apply triple_ret'].
  eapply triple_bind; [apply (queued _ _ (λ b, trace m0 e [b])); [apply trace_getc|apply stays_on_txq]|intros b].
  apply queued; [apply trace_putc_poll|apply stays_putc_poll].
Qed.

Definition accept_of (b : Z) (o : option Z) : list io := match o with Some _ => [Accepted b] | None => [] end.

(** The end of [serial_putc], once the queue's function returned or went to sleep. *)
Lemma trace_accepted m0 e b (o : option Z) :
  triple (trace m0 (e ++ accept_of b o) []) (match o with Some _ => write_ier ;;; ret [Accepted b] | None => ret [] end) (λ l, trace m0 (e ++ l) []).
Proof.
  destruct o; cbn [accept_of].
  - eapply triple_bind; [apply trace_keeps, kt_write_ier|intros ?]. by apply triple_ret'.
  - by apply triple_ret'.
Qed.

Lemma traces_serial_putc prio t off ctx b : traces (serial_putc prio t off ctx b).
Proof.
  intros m0 e. unfold serial_putc. tk. eapply triple_bind; [apply triple_gets|intros md].
  destruct (bool_decide_reflect (md = QUEUE)) as [Hq|Hq]; cbn [negb].
  - eapply (triple_pre _ (λ m, trace m0 e [] m ∧ mode m = QUEUE)); [intros m [? ->]; done|].
    eapply triple_bind; [apply (queued _ _ (λ _, trace m0 e [])); [apply trace_keeps, kt_txq_full|apply stays_on_txq]|intros f].
    eapply triple_bind; [apply trace_make_room|intros ?].
    eapply triple_bind; [|intros o; apply trace_accepted].
    apply (trace_txq _ m0 e (λ o, if o is Some _ then [(Put b, b)] else []) (accept_of b)); [|by intros [|]].
    intros s o s' H Hw. destruct ctx; [|by eapply loop_fifo_put].
    run_inv. pose proof (now_fifo (Put b) _ _ _ E Hw) as HF. enough (a1 = b) by congruence. unfold putc_now in E. run_inv. by eapply finish_put_byte.
  - eapply triple_pre; [|apply traces_poll]. intros m [? ->]. done.
Qed.

Lemma trace_putc_resume prio yields t m0 e :
  triple (λ m, trace m0 e [] m ∧ mode m = QUEUE) (serial_putc_resume prio yields t) (λ l, trace m0 (e ++ l) []).
Proof.
  assert (Hn : triple (λ m, trace m0 e [] m ∧ mode m = QUEUE) (ret []) (λ l, trace m0 (e ++ l) [])).
  { eapply triple_pre; [|apply trace_ret_nil]. tauto. }
  unfold serial_putc_resume. eapply triple_bind; [apply (queued _ _ (λ _, trace m0 e [])); [apply trace_keeps, kt_gets|apply stays_keeps, kt_gets]|intros s].
  destruct (threads s !! t) as [[p [|]]|]; [done| |done]. destruct (call_of p) as [|b] eqn:Ec; [done|].
  eapply triple_bind; [apply (queued _ _ (λ _, trace m0 e [])); [apply trace_keeps, kt_running|apply stays_keeps, kt_running]|intros ?].
  eapply triple_bind; [|intros o; apply trace_accepted].
  apply (trace_txq _ m0 e (λ o, if o is Some _ then [(Put b, b)] else []) (accept_of b)); [|by intros [|]].
  intros s1 o s2 H Hw. pose proof (fifo_run_at _ _ _ _ _ _ H Hw) as HF. rewrite Ec in HF. destruct o as [v|]; [|done].
  by rewrite (run_at_put_byte _ _ _ _ _ _ _ H Ec) in HF.
Qed.

Definition got_of (o : option Z) : list io := match o with Some b => [Got b] | None => [] end.

Lemma trace_got m0 e (o : option Z) :
  triple (trace m0 (e ++ got_of o) []) (match o with Some b => serial_notify ;;; ret [Got b] | None => ret [] end) (λ l, trace m0 (e ++ l) []).
Proof.
  destruct o as [b|]; cbn [got_of].
  - eapply triple_bind; [apply trace_keeps, kt_serial_notify|intros ?]. by apply triple_ret'.
  - by apply triple_ret'.
Qed.

Lemma traces_input_getc prio t : traces (input_getc prio t).
Proof.
  intros m0 e. unfold input_getc. tk. eapply triple_bind; [|intros o; apply trace_got].
  apply (trace_buffer _ m0 e (λ o, if o is Some b then [(Get, b)] else []) got_of); [|by intros [|]].
  intros s o s' H Hw. apply bind_inv in H as (u & s1 & E & H). assert (H1 : fifo s [] s1) by (by eapply fifo_keeps; [apply keeps_goto| |]).
  eapply (fifo_trans _ []); [done|]. exact (fifo_loop _ _ _ _ _ H (proj1 H1)).
Qed.

Lemma traces_getc_resume prio yields t : traces (input_getc_resume prio yields t).
Proof.
  intros m0 e. unfold input_getc_resume. tk. destruct (threads a !! t) as [[p [|]]|]; [apply trace_ret_nil| |apply trace_ret_nil].
  destruct (call_of p) as [|b] eqn:Ec; [|apply trace_ret_nil]. tk. eapply triple_bind; [|intros o; apply trace_got].
  apply (trace_buffer _ m0 e (λ o, if o is Some b then [(Get, b)] else []) got_of); [|by intros [|]].
  intros s o s' H Hw. pose proof (fifo_run_at _ _ _ _ _ _ H Hw) as HF. by rewrite Ec in HF.
Qed.

Lemma traces_happen prio yields h : traces (happen prio yields h).
Proof.
  intros m0 e. unfold happen. eapply triple_bind; [apply triple_gets|intros m]. apply (triple_pre _ (λ m', trace m0 e [] m' ∧ m' = m)); [intros m' [? ->]; done|].
  assert (Hp : ∀ c : D (list io), traces c → triple (λ m', trace m0 e [] m' ∧ m' = m) c (λ l, trace m0 (e ++ l) [])).
  { intros c Hc. eapply triple_pre; [|apply Hc]. tauto. }
  destruct h as [t off ctx b|t|t|t| | | |].
  - destruct (_ || _); apply Hp; [apply traces_serial_putc|intros ??; apply trace_ret_nil].
  - destruct (bool_decide_reflect (mode m = QUEUE)); [|apply Hp; intros ??; apply trace_ret_nil].
    eapply triple_pre; [|apply trace_putc_resume]. intros m' [? ->]. done.
  - destruct (idle_thread _ _); apply Hp; [apply traces_input_getc|intros ??; apply trace_ret_nil].
  - apply Hp, traces_getc_resume.
  - apply Hp. intros ??. tk. apply traces_serial_interrupt.
  - apply Hp. intros ??. tk. apply traces_keyboard.
  - apply Hp. intros ??. tk. eapply triple_bind; [apply trace_flush|intros ?]. apply trace_ret_nil.
  - apply Hp. intros ??. tk. apply traces_init_queue.
Qed.

(** C22: whatever threads and interrupt handlers do, the bytes given to [serial_putc] leave
    the port in order, none twice and none lost: what was sent and queued before, and what
    was accepted since, is what is sent and queued now; and the keys that [input_getc]
    returns are those that the keyboard and the port delivered, in order. *)
Theorem serial_in_order prio yields l m e m' :
  happens prio yields l m = Ok (e, m') → well_formed m →
  sent m ++ contents (q (txq m)) ++ accepted e = sent m' ++ contents (q (txq m')) ∧
  contents (q (buffer m)) ++ received e = got e ++ contents (q (buffer m')) ∧ well_formed m'.
Proof.
  intros H Hw. assert (Ht : traces (happens prio yields l)).
  { clear. induction l as [|h l IH]; intros m0 e; cbn [happens]; [apply trace_ret_nil|]. eapply triple_bind; [apply traces_happen|intros e1].
    eapply triple_bind; [apply IH|intros e2]. apply triple_ret'. intros m. by rewrite app_assoc. }
  destruct (Ht m [] m e m') as (W & H1 & H2); [|done|done]. split; [done|]. by rewrite !app_nil_r.
Qed.

(** ** The interrupt enable register *)

(** In queued mode transmit interrupts are on while there is something to transmit, and
    receive interrupts are on exactly while there is room. *)
Definition ier_ok (m : machine) : Prop :=
  mode m = QUEUE →
  (q_empty (q (txq m)) = true ∨ Z.testbit (ier m) 1 = true) ∧ Z.testbit (ier m) 0 = negb (q_full (q (buffer m))).

(** A computation that touches neither the queues, the mode nor the register. *)
Definition quiet {A} (c : D A) : Prop := ∀ m a m', c m = Ok (a, m') →
  data (q (txq m')) = data (q (txq m)) ∧ data (q (buffer m')) = data (q (buffer m)) ∧ (mode m' = QUEUE ↔ mode m = QUEUE) ∧ ier m' = ier m.

Lemma q_empty_data x y : data x = data y → q_empty x = q_empty y.
Proof. unfold data, q_empty. by intros [= _ -> ->]. Qed.
Lemma q_full_data x y : data x = data y → q_full x = q_full y.
Proof. unfold data, q_full. by intros [= _ -> ->]. Qed.

Lemma ier_quiet {A} (c : D A) : quiet c → triple ier_ok c (λ _, ier_ok).
Proof.
  intros Hc m a m' Hm H. destruct (Hc _ _ _ H) as (E1 & E2 & E3 & E4). intros Hq. rewrite E4, (q_empty_data _ _ E1), (q_full_data _ _ E2). apply Hm. tauto.
Qed.

Lemma quiet_bind {A B} (c : D A) (k : A → D B) : quiet c → (∀ a, quiet (k a)) → quiet (bind c k).
Proof.
  intros Hc Hk m b m' H. run_inv. destruct (Hc _ _ _ E) as (? & ? & ? & ?), (Hk _ _ _ _ H) as (? & ? & ? & ?). split_and!; try congruence; tauto.
Qed.
Lemma quiet_ret {A} (a : A) : quiet (ret a).
Proof. intros m b m' H. by run_inv. Qed.
Lemma quiet_fail {A} f : quiet (@fail _ A f).
Proof. intros m b m' H. done. Qed.
Lemma quiet_gets {A} (f : machine → A) : quiet (gets f).
Proof. intros m b m' H. unfold gets in H. by run_inv. Qed.
Lemma quiet_assert b : quiet (assert b).
Proof. destruct b; [apply quiet_ret|apply quiet_fail]. Qed.
Lemma quiet_on_txq {A} (f : Intq.I A) : keeps f → quiet (on_txq f).
Proof. intros Hf m a m' H. unfold on_txq in H. destruct (f _) as [[b s]|] eqn:E; [|done]. run_inv. apply Hf in E. done. Qed.
Lemma quiet_on_buffer {A} (f : Intq.I A) : keeps f → quiet (on_buffer f).
Proof. intros Hf m a m' H. unfold on_buffer in H. destruct (f _) as [[b s]|] eqn:E; [|done]. run_inv. apply Hf in E. done. Qed.
Lemma quiet_upd_keys f : quiet (upd_keys f).
Proof. intros m a m' H. unfold upd_keys, modify in H. by run_inv. Qed.
Lemma quiet_outb_thr v : quiet (outb_thr v).
Proof. intros m a m' H. unfold outb_thr, modify in H. by run_inv. Qed.
Lemma quiet_inb_lsr : quiet inb_lsr.
Proof. intros m a m' H. unfold inb_lsr in H. by run_inv. Qed.
Lemma quiet_inb_data : quiet inb_data.
Proof. intros m a m' H. unfold inb_data in H. by run_inv. Qed.
Lemma quiet_input_full : quiet input_full.
Proof. apply quiet_on_buffer, (keeps_must_wait (Put 0)). Qed.
Lemma quiet_txq_empty : quiet (on_txq intq_empty).
Proof. apply quiet_on_txq, (keeps_must_wait Get). Qed.
Lemma quiet_txq_full : quiet (on_txq intq_full).
Proof. apply quiet_on_txq, (keeps_must_wait (Put 0)). Qed.
#[export] Hint Resolve quiet_ret quiet_fail quiet_gets quiet_assert quiet_on_txq quiet_on_buffer quiet_upd_keys quiet_outb_thr
  quiet_inb_lsr quiet_inb_data quiet_input_full quiet_txq_empty quiet_txq_full : keeps.
Lemma quiet_poll_ready n : quiet (poll_ready n).
Proof.
  induction n as [|n IH]; cbn [poll_ready]; [apply quiet_fail|]. apply quiet_bind; [apply quiet_inb_lsr|intros v]. destruct (_ =? 0); auto with keeps.
Qed.
Lemma quiet_running t o c : quiet (running t o c).
Proof. unfold running. apply quiet_bind; auto with keeps. Qed.
#[export] Hint Resolve quiet_poll_ready quiet_running : keeps.
Lemma quiet_putc_poll b : quiet (putc_poll b).
Proof. unfold putc_poll. repeat (apply quiet_bind; [solve [auto with keeps]|intros ?]). apply quiet_outb_thr. Qed.
#[export] Hint Resolve quiet_putc_poll : keeps.

Lemma write_ier_ok P : triple P write_ier (λ _, ier_ok).
Proof.
  intros m a m' _ H. unfold write_ier in H. run_inv. unfold gets in *. run_inv. apply assert_inv in E0 as [Ho ->].
  unfold on_txq in E1. destruct (intq_empty (txq st)) as [[b s1]|] eqn:Ee; [|done]. run_inv. apply (must_wait_val Get) in Ee as [-> ->].
  unfold input_full, on_buffer in E2. cbn [buffer] in E2. destruct (intq_full (buffer st)) as [[b s2]|] eqn:Ef; [|done]. run_inv.
  apply (must_wait_val (Put 0)) in Ef as [-> ->]. unfold outb_ier, modify in H. run_inv. intros _. cbn.
  destruct (q_empty _), (q_full _); cbn; auto.
Qed.

Lemma serial_notify_ok P : triple P serial_notify (λ _, ier_ok).
Proof.
  unfold serial_notify. eapply triple_bind; [apply triple_gets|intros o]. eapply triple_bind; [apply triple_assert|intros ?].
  eapply triple_bind; [apply triple_gets|intros md]. destruct (decide (md = QUEUE)); [apply write_ier_ok|]. apply triple_ret'. intros m [_ ->] ?. done.
Qed.

Lemma ier_getc : triple ier_ok (on_txq getc_now) (λ _, ier_ok).
Proof.
  intros m b m' Hm H. unfold on_txq in H. destruct (getc_now _) as [[b' s]|] eqn:E; [|done]. run_inv. unfold getc_now in E. run_inv.
  apply must_wait_val in E0 as [-> ->]. apply assert_inv in E1 as [Hn ->]. apply negb_true_iff in Hn. cbn in Hn.
  intros Hq. destruct (Hm Hq) as [[H1|H1] H2]; [congruence|]. cbn. auto.
Qed.

(** Operations after which the register is right, if it was before. *)
Definition sets_ier {A} (c : D A) : Prop := triple ier_ok c (λ _, ier_ok).

Lemma si_bind {A B} (c : D A) (k : A → D B) : sets_ier c → (∀ a, sets_ier (k a)) → sets_ier (bind c k).
Proof. intros Hc Hk. by eapply triple_bind. Qed.
(** Whatever ran before: the last step sets the register. *)
Lemma si_last {A B} (c : D A) (k : A → D B) : (∀ a, triple (λ _, True) (k a) (λ _, ier_ok)) → triple (λ _, True) (bind c k) (λ _, ier_ok).
Proof. intros Hk m b m' _ H. run_inv. by eapply Hk. Qed.
Lemma si_any {A} (c : D A) : triple (λ _, True) c (λ _, ier_ok) → sets_ier c.
Proof. apply triple_pre. done. Qed.
Lemma si_then_ret {A B} (c : D A) (b : B) P : triple P c (λ _, ier_ok) → triple P (c ;;; ret b) (λ _, ier_ok).
Proof. intros Hc. eapply triple_bind; [exact Hc|intros ?]. by apply triple_ret'. Qed.

Lemma si_quiet {A} (c : D A) : quiet c → sets_ier c.
Proof. apply ier_quiet. Qed.
Lemma si_write_ier : sets_ier write_ier.
Proof. apply write_ier_ok. Qed.
Lemma si_notify : sets_ier serial_notify.
Proof. apply serial_notify_ok. Qed.
#[export] Hint Resolve si_quiet si_write_ier si_notify ier_getc : keeps.

Ltac si := repeat first [ solve [auto with keeps] | simple apply si_bind; [|intros ?] | match goal with |- sets_ier (match ?x with _ => _ end) => destruct x end ].

Lemma si_input_putc b : sets_ier (input_putc b).
Proof. unfold input_putc. apply si_any. do 5 (apply si_last; intros ?). apply serial_notify_ok. Qed.
#[export] Hint Resolve si_input_putc : keeps.

Lemma si_keyboard : sets_ier keyboard_interrupt.
Proof. unfold keyboard_interrupt. cbv zeta. si. Qed.

Lemma si_serial_interrupt : sets_ier serial_interrupt.
Proof. unfold serial_interrupt. apply si_any. do 2 (apply si_last; intros ?). apply si_then_ret, write_ier_ok. Qed.

Lemma si_flush n : sets_ier (flush_loop n).
Proof. induction n as [|n IH]; cbn [flush_loop]; si; apply ier_getc. Qed.

Lemma si_init_queue : sets_ier (serial_init_queue ;;; ret (@nil io)).
Proof. apply si_any, si_then_ret. unfold serial_init_queue. do 5 (apply si_last; intros ?). apply write_ier_ok. Qed.

Definition not_queued (m : machine) : Prop := mode m ≠ QUEUE.

Lemma nq_quiet {A} (c : D A) : quiet c → triple not_queued c (λ _, not_queued).
Proof. intros Hc m a m' Hm H. destruct (Hc _ _ _ H) as (_ & _ & ? & _). unfold not_queued in *. tauto. Qed.

Lemma nq_init_poll P : triple P init_poll (λ _, not_queued).
Proof. intros m a m' _ H. unfold init_poll in H. run_inv. unfold upd_mode, modify in H. run_inv. done. Qed.

Lemma nq_poll b (init : bool) : triple not_queued ((if init then init_poll else ret tt) ;;; putc_poll b ;;; ret [Accepted b]) (λ _, ier_ok).
Proof.
  eapply (triple_bind _ _ _ (λ _, not_queued)). { destruct init; [apply nq_init_poll|by apply triple_ret']. }
  intros _. eapply triple_bind; [apply nq_quiet, quiet_putc_poll|intros ?]. apply triple_ret'. intros m Hm ?. done.
Qed.

(** A call of a queue function that sleeps leaves the register right; one that returns is
    followed by an update. *)
Lemma si_txq_call (f : Intq.I (option Z)) (l : list io) :
  (∀ s s', f s = Ok (None, s') → data (q s') = data (q s)) →
  sets_ier (let* o := on_txq f in match o with Some _ => write_ier ;;; ret l | None => ret [] end).
Proof.
  intros Hf m r m' Hm H. run_inv. destruct a as [v|]; [by eapply (si_then_ret _ _ _ (write_ier_ok (λ _, True)))|]. run_inv.
  unfold on_txq in E. destruct (f _) as [[o s]|] eqn:Ef; [|done]. run_inv. apply Hf in Ef. intros Hq. cbn. rewrite (q_empty_data _ _ Ef). by apply Hm.
Qed.

Lemma si_buffer_call (f : Intq.I (option Z)) (l : Z → list io) :
  (∀ s s', f s = Ok (None, s') → data (q s') = data (q s)) →
  sets_ier (let* o := on_buffer f in match o with Some b => serial_notify ;;; ret (l b) | None => ret [] end).
Proof.
  intros Hf m r m' Hm H. run_inv. destruct a as [v|]; [by eapply (si_then_ret _ _ _ (serial_notify_ok (λ _, True)))|]. run_inv.
  unfold on_buffer in E. destruct (f _) as [[o s]|] eqn:Ef; [|done]. run_inv. apply Hf in Ef. intros Hq. cbn. rewrite (q_full_data _ _ Ef). by apply Hm.
Qed.

Lemma goto_loop_none prio p c s s' : (goto p false ;;; loop prio c) s = Ok (None, s') → data (q s') = data (q s).
Proof. intros H. apply bind_inv in H as (u & s1 & E & H). apply keeps_goto in E. apply loop_none in H. congruence. Qed.

Lemma si_serial_putc prio t off ctx b : sets_ier (serial_putc prio t off ctx b).
Proof.
  unfold serial_putc. apply si_bind; [auto with keeps|intros ?]. eapply triple_bind; [apply triple_gets|intros md].
  destruct (bool_decide_reflect (md = QUEUE)) as [Hq|Hq]; cbn [negb].
  - eapply triple_pre; [intros m [Hm _]; exact Hm|]. apply si_bind; [auto with keeps|intros f]. apply si_bind; [|intros ?].
    + destruct (off && f); [|auto with keeps]. apply si_bind; [apply ier_getc|auto with keeps].
    + apply si_txq_call. intros s s' H. destruct ctx; [by run_inv|by eapply goto_loop_none].
  - eapply triple_pre; [|apply nq_poll]. intros m [_ ->]. done.
Qed.

Lemma si_resume_putc prio yields t : sets_ier (serial_putc_resume prio yields t).
Proof.
  unfold serial_putc_resume. apply si_bind; [auto with keeps|intros s]. destruct (threads s !! t) as [[p [|]]|]; [auto with keeps| |auto with keeps].
  destruct (call_of p); [auto with keeps|]. apply si_bind; [auto with keeps|intros ?]. apply si_txq_call. intros ? ?. apply run_at_none.
Qed.

Lemma si_input_getc prio t : sets_ier (input_getc prio t).
Proof. unfold input_getc. apply si_bind; [auto with keeps|intros ?]. apply (si_buffer_call _ (λ b, [Got b])). intros ? ?. apply goto_loop_none. Qed.

Lemma si_resume_getc prio yields t : sets_ier (input_getc_resume prio yields t).
Proof.
  unfold input_getc_resume. apply si_bind; [auto with keeps|intros s]. destruct (threads s !! t) as [[p [|]]|]; [auto with keeps| |auto with keeps].
  destruct (call_of p); [|auto with keeps]. apply si_bind; [auto with keeps|intros ?]. apply (si_buffer_call _ (λ b, [Got b])). intros ? ?. apply run_at_none.
Qed.

#[export] Hint Resolve si_keyboard si_serial_interrupt si_init_queue si_serial_putc si_resume_putc si_input_getc si_resume_getc si_flush : keeps.

(** C23: in queued mode, whatever threads and interrupt handlers do, the port's transmit
    interrupt is on while bytes wait to be sent, and its receive interrupt is on exactly
    while the input buffer has room. *)
Theorem serial_interrupts_on prio yields l m e m' :
  happens prio yields l m = Ok (e, m') → ier_ok m → mode m' = QUEUE →
  (q_empty (q (txq m')) = true ∨ Z.testbit (ier m') 1 = true) ∧ Z.testbit (ier m') 0 = negb (q_full (q (buffer m'))).
Proof.
  intros H Hm. assert (Hs : sets_ier (happens prio yields l)); [|exact (Hs m e m' Hm H)]. clear.
  induction l as [|h l IH]; cbn [happens]; [auto with keeps|]. apply si_bind; [|intros ?; apply si_bind; [exact IH|intros ?; auto with keeps]].
  unfold happen. apply si_bind; [auto with keeps|intros m]. destruct h; unfold serial_flush; si.
Qed.

(** ** The handlers return *)

(** One thread reads the input buffer and one writes to the port; interrupts are off. *)
Definition two_users (t t' : nat) (m : machine) : Prop :=
  exclusive t (txq m) ∧ exclusive t' (buffer m) ∧ intr_off (txq m) = true ∧ intr_off (buffer m) = true.

Lemma now_exclusive t c s : exclusive t s → intr_off s = true → must_wait_q c (q s) = false →
  ∃ s', (let* w := must_wait c in assert (negb w) ;;; finish c) s = Ok (byte_of c (q s), s') ∧ exclusive t s' ∧ intr_off s' = true.
Proof.
  intros Hs Ho Hw. rewrite (bind_ok _ _ _ _ _ (must_wait_run _ _ Ho)), Hw. erewrite bind_ok by reflexivity. by apply finish_exclusive.
Qed.

Lemma input_full_run t t' m : two_users t t' m → input_full m = Ok (q_full (q (buffer m)), m).
Proof. intros (_ & _ & _ & H). unfold input_full, on_buffer. rewrite (must_wait_run (Put 0) _ H : intq_full _ = _). by destruct m. Qed.
Lemma txq_empty_run t t' m : two_users t t' m → on_txq intq_empty m = Ok (q_empty (q (txq m)), m).
Proof. intros (_ & _ & H & _). unfold on_txq. rewrite (must_wait_run Get _ H : intq_empty _ = _). by destruct m. Qed.

Lemma write_ier_run t t' m : two_users t t' m → ∃ m', write_ier m = Ok (tt, m') ∧ two_users t t' m' ∧ q (buffer m') = q (buffer m) ∧ q (txq m') = q (txq m).
Proof.
  intros Hm. unfold write_ier, gets. erewrite bind_ok by reflexivity. destruct (Hm) as (H1 & H2 & H3 & H4). rewrite H3. erewrite bind_ok by reflexivity.
  rewrite (bind_ok _ _ _ _ _ (txq_empty_run _ _ _ Hm)), (bind_ok _ _ _ _ _ (input_full_run _ _ _ Hm)). eexists. split; [reflexivity|]. done.
Qed.

Lemma notify_run t t' m : two_users t t' m → ∃ m', serial_notify m = Ok (tt, m') ∧ two_users t t' m' ∧ q (buffer m') = q (buffer m) ∧ q (txq m') = q (txq m).
Proof.
  intros Hm. unfold serial_notify, gets. erewrite bind_ok by reflexivity. destruct (Hm) as (H1 & H2 & H3 & H4). rewrite H3. do 2 erewrite bind_ok by reflexivity.
  destruct (decide _); [by apply (write_ier_run t t')|]. by exists m.
Qed.

Lemma input_putc_run t t' m b : two_users t t' m → q_full (q (buffer m)) = false →
  ∃ m', input_putc b m = Ok (tt, m') ∧ two_users t t' m' ∧ contents (q (buffer m')) = contents (q (buffer m)) ++ [b].
Proof.
  intros Hm Hf. unfold input_putc, gets. erewrite bind_ok by reflexivity. destruct (Hm) as (H1 & H2 & H3 & H4). rewrite H4. erewrite bind_ok by reflexivity.
  rewrite (bind_ok _ _ _ _ _ (input_full_run _ _ _ Hm)), Hf. erewrite bind_ok by reflexivity.
  destruct (now_exclusive t' (Put b) (buffer m) H2 H4 Hf) as (s' & E & Hs' & Ho'). pose proof (now_fifo (Put b) _ _ _ E (proj1 H2)) as [_ Hc].
  assert (E1 : on_buffer (putc_now b) m = Ok (b, mk_machine (mode m) (txq m) s' (keys m) (ier m) (regs m) (sent m) (lsr m) (rbr m) (data_reg m))).
  { unfold on_buffer, putc_now. by rewrite E. }
  rewrite (bind_ok _ _ _ _ _ E1). destruct (notify_run t t' (mk_machine (mode m) (txq m) s' (keys m) (ier m) (regs m) (sent m) (lsr m) (rbr m) (data_reg m)))
    as (m' & E2 & H' & Hb & _); [done|]. exists m'. split; [done|]. split; [done|]. rewrite Hb. cbn in *. by rewrite <- Hc.
Qed.

Lemma contents_bound x : wf x → (length (contents x) <= 63)%nat.
Proof. intros (_ & Hh & Ht). unfold contents. rewrite length_fmap, length_seqZ. unfold INTQ_BUFSIZE in *. mod_lia. Qed.

Lemma receive_run t t' n m : two_users t t' m → (63 - length (contents (q (buffer m))) < n)%nat →
  ∃ l m', receive_loop n m = Ok (l, m') ∧ two_users t t' m'.
Proof.
  revert m. induction n as [|n IH]; intros m Hm Hn; [lia|]. cbn [receive_loop]. rewrite (bind_ok _ _ _ _ _ (input_full_run _ _ _ Hm)).
  destruct (q_full _) eqn:Ef; [by eexists _, _|]. erewrite bind_ok by reflexivity. destruct (_ =? 0); [by eexists _, _|]. erewrite bind_ok by reflexivity.
  match goal with |- ∃ l m', bind (input_putc ?b) _ ?m1 = _ ∧ _ => destruct (input_putc_run t t' m1 b) as (m2 & E & H2 & Hc); [done|done|] end.
  rewrite (bind_ok _ _ _ _ _ E). cbn [buffer] in Hc. pose proof (contents_bound _ (proj1 (proj1 (proj2 H2)))) as Hb.
  rewrite Hc, length_app in Hb. destruct (IH m2 H2) as (l & m3 & E3 & H3); [rewrite Hc, length_app; cbn in *; lia|].
  rewrite (bind_ok _ _ _ _ _ E3). by eexists _, _.
Qed.

Lemma transmit_run t t' n m : two_users t t' m → (length (contents (q (txq m))) < n)%nat →
  ∃ m', transmit_loop n m = Ok (tt, m') ∧ two_users t t' m'.
Proof.
  revert m. induction n as [|n IH]; intros m Hm Hn; [lia|]. cbn [transmit_loop]. rewrite (bind_ok _ _ _ _ _ (txq_empty_run _ _ _ Hm)).
  destruct (q_empty _) eqn:Ef; [by eexists|]. erewrite bind_ok by reflexivity. destruct (_ =? 0); [by eexists|].
  destruct Hm as (H1 & H2 & H3 & H4). destruct (now_exclusive t Get (txq m) H1 H3 Ef) as (s' & E & Hs' & Ho').
  pose proof (now_fifo Get _ _ _ E (proj1 H1)) as [_ Hc].
  erewrite bind_ok; [|unfold on_txq, getc_now; cbn [txq]; rewrite E; reflexivity]. unfold outb_thr. erewrite bind_ok by reflexivity.
  apply IH; [done|]. cbn in Hc |- *. rewrite app_nil_r in Hc. rewrite Hc in Hn. cbn in Hn. lia.
Qed.

(** While one thread reads the input buffer and one writes to the port, the serial
    interrupt handler returns, whatever the port's registers say: both its loops end, and
    no assertion fails. *)
Theorem serial_interrupt_returns t t' m : two_users t t' m → ∃ l m', serial_interrupt m = Ok (l, m') ∧ two_users t t' m'.
Proof.
  intros Hm. unfold serial_interrupt. destruct (receive_run t t' 64 m Hm) as (l & m1 & E1 & H1); [lia|]. rewrite (bind_ok _ _ _ _ _ E1).
  destruct (transmit_run t t' 64 m1 H1) as (m2 & E2 & H2). { pose proof (contents_bound _ (proj1 (proj1 H1))). lia. }
  rewrite (bind_ok _ _ _ _ _ E2). destruct (write_ier_run t t' m2 H2) as (m3 & E3 & H3 & _). rewrite (bind_ok _ _ _ _ _ E3). by eexists _, _.
Qed.

(** ** Examples *)

Definition boot_keys : kbd := mk_kbd false false false false false false false 0.
(** The machine at start-up, with what its registers will read. *)
Definition boot (lsr rbr codes : list Z) : machine := mk_machine UNINIT Intq.start Intq.start boot_keys 0 [] [] lsr rbr codes.

(** A byte is sent by polling, two are queued, a reader waits, the port sends both and
    receives one. *)
Definition session : list happening :=
  [Putc 1 false false 72; Init_queue; Putc 1 false false 105; Putc 1 false false 33; Getc 2; Serial_irq; Resume_getc 2; Resume_getc 2].
Definition session_start : machine := boot [0; 32; 1; 32; 32; 32] [120] [].

Lemma serial_in_order_witness : ∃ e m', happens (λ _, 31) true session session_start = Ok (e, m') ∧ sent m' = [72; 105; 33] ∧ got e = [120] ∧
  sent session_start ++ contents (q (txq session_start)) ++ accepted e = sent m' ++ contents (q (txq m')) ∧
  contents (q (buffer session_start)) ++ received e = got e ++ contents (q (buffer m')) ∧ well_formed m'.
Proof.
  destruct (happens (λ _, 31) true session session_start) as [[e m']|] eqn:E; [|exfalso; revert E; vm_compute; discriminate].
  exists e, m'. split; [done|]. split; [revert E; vm_compute; intros [= _ <-]; reflexivity|]. split; [revert E; vm_compute; intros [= <- _]; reflexivity|].
  apply (serial_in_order (λ _, 31) true session session_start); [exact E|]. repeat split; done.
Defined.

Lemma serial_interrupts_on_witness : ∃ e m', happens (λ _, 31) true session session_start = Ok (e, m') ∧
  (q_empty (q (txq m')) = true ∨ Z.testbit (ier m') 1 = true) ∧ Z.testbit (ier m') 0 = negb (q_full (q (buffer m'))).
Proof.
  destruct (happens (λ _, 31) true session session_start) as [[e m']|] eqn:E; [|exfalso; revert E; vm_compute; discriminate].
  exists e, m'. split; [done|]. apply (serial_interrupts_on (λ _, 31) true session session_start e); [exact E|by intros [=]|].
  revert E. vm_compute. intros [= _ <-]. reflexivity.
Defined.

Lemma serial_interrupt_returns_witness :
  let s := mk_sys empty_queue ∅ 0 true true in
  ∃ l m', serial_interrupt (mk_machine QUEUE s s boot_keys 0 [] [] [33; 1; 33] [65; 66; 67] []) = Ok (l, m') ∧ two_users 1 2 m'.
Proof.
  apply (serial_interrupt_returns 1 2). assert (H : ∀ t, exclusive t (mk_sys empty_queue ∅ 0 true true)).
  { intros t. split; [by cbn|]. left. repeat split; auto. }
  repeat split; try done; apply H.
Defined.

(** The keys that type a character: the key alone, or with the left shift key held down. *)
Definition plain_code (c : Z) : option Z := find (λ code, bool_decide ((find_key false code ≫= key_char false false false false) = Some c)) (seqZ 1 83).
Definition shift_code (c : Z) : option Z := find (λ code, bool_decide ((find_key true code ≫= key_char true false false false) = Some c)) (seqZ 1 83).
Definition keystrokes (c : Z) : list Z :=
  match plain_code c, shift_code c with
  | Some code, _ => [code; code + 128]
  | None, Some code => [42; code; code + 128; 170]
  | None, None => []
  end.

(** Every printable character can be typed, and typing it leaves the shift keys up. *)
Definition typed (c : Z) : bool :=
  match happens (λ _, 31) true ((λ _, Key_irq) <$> keystrokes c) (boot [] [] (keystrokes c)) with
  | Ok (e, m) => bool_decide (received e = [c]) && bool_decide (data_reg m = []) &&
      negb (left_shift (keys m) || right_shift (keys m) || left_ctrl (keys m) || left_alt (keys m)) && (key_cnt (keys m) =? 1)
  | Fail _ => false
  end.

Theorem printable_typed c : 32 <= c < 127 → typed c = true.
Proof.
  intros Hc. assert (H : forallb typed (seqZ 32 95) = true) by (vm_compute; reflexivity).
  rewrite forallb_forall in H. apply H, list_elem_of_In, elem_of_seqZ. lia.
Qed.
