(* ===== verification/Vga.v ===== *)
(** * The text display (src/devices/vga.c)

    The frame buffer is its 4000 bytes, 25 rows of 80 characters with their attributes; a
    store outside it is undefined here.  Calls run with interrupts off, so they do not
    interleave; only the bell lets others run, and it is counted.  The display is
    shown to be a terminal: a screen of cells and a cursor that stays on it. *)

From S2P Require Import Prelude.
Local Open Scope Z_scope.

Definition COL_CNT : Z := 80.
Definition ROW_CNT : Z := 25.
Definition GRAY_ON_BLACK : Z := 7.

(** [cursor] is the position register of the hardware, [beeps] counts the sounds. *)
Record vga := mk_vga { cx : Z; cy : Z; fb : list Z; inited : bool; cursor : Z; beeps : Z }.

Notation V := (M vga).

Definition set_cx x : V unit := modify (λ v, mk_vga x (cy v) (fb v) (inited v) (cursor v) (beeps v)).
Definition set_cy y : V unit := modify (λ v, mk_vga (cx v) y (fb v) (inited v) (cursor v) (beeps v)).
Definition set_fb b : V unit := modify (λ v, mk_vga (cx v) (cy v) b (inited v) (cursor v) (beeps v)).

(** [fb[y][x][i] = c] *)
Definition offset (y x i : Z) : Z := (y * COL_CNT + x) * 2 + i.
Definition put_fb (y x i c : Z) : V unit :=
  let* b := gets fb in
  need (if offset y x i <? 0 then None else b !! Z.to_nat (offset y x i)) ;;;
  set_fb (<[Z.to_nat (offset y x i) := u8 c]> b).

(** Writes of the index and data registers at once. *)
Definition outw_crtc (w : Z) : V unit :=
  let w := u16 w in
  let index := Z.land w 255 in
  let data := Z.shiftr w 8 in
  modify (λ v, mk_vga (cx v) (cy v) (fb v) (inited v)
    (if index =? 14 then Z.lor (Z.shiftl data 8) (Z.land (cursor v) 255)
     else if index =? 15 then Z.lor (Z.land (cursor v) 65280) data else cursor v) (beeps v)).

Definition move_cursor : V unit :=
  let* v := gets id in
  let cp := u16 (cx v + COL_CNT * cy v) in
  outw_crtc (Z.lor 14 (Z.land cp 65280)) ;;;
  outw_crtc (Z.lor 15 (Z.shiftl cp 8)).

Definition find_cursor : V (Z * Z) :=
  let* c := gets cursor in
  let cp := u16 (Z.shiftl (u8 (Z.shiftr c 8)) 8) in
  let cp := Z.lor cp (u8 c) in
  ret (Z.rem cp COL_CNT, Z.quot cp COL_CNT).

Definition init : V unit :=
  let* i := gets inited in
  if i then ret tt else
  let* (x, y) := find_cursor in
  set_cx x ;;; set_cy y ;;;
  modify (λ v, mk_vga (cx v) (cy v) (fb v) true (cursor v) (beeps v)).

Definition clear_row (y : Z) : V unit :=
  for_range (Z.to_nat COL_CNT) 0 (λ x, put_fb y x 0 32 ;;; put_fb y x 1 GRAY_ON_BLACK).

(** [memmove] of the rows from the second on to the first. *)
Definition scroll (b : list Z) : list Z :=
  let n := Z.to_nat (COL_CNT * 2 * (ROW_CNT - 1)) in
  take n (drop (Z.to_nat (COL_CNT * 2)) b) ++ drop n b.

Definition newline : V unit :=
  set_cx 0 ;;;
  let* y := gets cy in
  set_cy (u32 (y + 1)) ;;;
  if ROW_CNT <=? u32 (y + 1) then
    set_cy (ROW_CNT - 1) ;;;
    let* b := gets fb in
    set_fb (scroll b) ;;;
    clear_row (ROW_CNT - 1)
  else ret tt.

Definition cls : V unit :=
  for_range (Z.to_nat ROW_CNT) 0 clear_row ;;;
  set_cx 0 ;;; set_cy 0 ;;;
  move_cursor.

Definition ROUND_UP (x step : Z) : Z := u32 ((x + step - 1) / step * step).

Definition speaker_beep : V unit := modify (λ v, mk_vga (cx v) (cy v) (fb v) (inited v) (cursor v) (beeps v + 1)).

Definition vga_putc (c : Z) : V unit :=
  init ;;;
  let* x := gets cx in
  let* y := gets cy in
  (if c =? 10 then newline
   else if c =? 12 then cls
   else if c =? 8 then (if 0 <? x then set_cx (x - 1) else ret tt)
   else if c =? 13 then set_cx 0
   else if c =? 9 then
     set_cx (ROUND_UP (x + 1) 8) ;;;
     if COL_CNT <=? ROUND_UP (x + 1) 8 then newline else ret tt
   else if c =? 7 then speaker_beep
   else
     put_fb y x 0 c ;;;
     put_fb y x 1 GRAY_ON_BLACK ;;;
     set_cx (u32 (x + 1)) ;;;
     if COL_CNT <=? u32 (x + 1) then newline else ret tt) ;;;
  move_cursor.

(** ** The terminal *)

(** Cells are a character with its attribute; [scr y x] is the one in row [y]. *)
Record terminal := mk_term { scr : Z → Z → Z * Z; tx : Z; ty : Z }.

Definition blank : Z * Z := (32, GRAY_ON_BLACK).
Definition t_newline (t : terminal) : terminal :=
  if ty t + 1 <? ROW_CNT then mk_term (scr t) 0 (ty t + 1)
  else mk_term (λ y x, if y + 1 <? ROW_CNT then scr t (y + 1) x else blank) 0 (ROW_CNT - 1).
Definition t_advance (t : terminal) (x : Z) : terminal := if x <? COL_CNT then mk_term (scr t) x (ty t) else t_newline t.
Definition t_putc (c : Z) (t : terminal) : terminal :=
  if c =? 10 then t_newline t
  else if c =? 12 then mk_term (λ _ _, blank) 0 0
  else if c =? 8 then mk_term (scr t) (Z.max 0 (tx t - 1)) (ty t)
  else if c =? 13 then mk_term (scr t) 0 (ty t)
  else if c =? 9 then t_advance t (8 * (tx t / 8 + 1))
  else if c =? 7 then t
  else t_advance (mk_term (λ y x, if (y =? ty t) && (x =? tx t) then (u8 c, GRAY_ON_BLACK) else scr t y x) (tx t) (ty t)) (tx t + 1).

Definition on_screen (y x : Z) : Prop := 0 <= y < ROW_CNT ∧ 0 <= x < COL_CNT.

(** The bytes of the frame buffer are the cells of the screen. *)
Definition shows (b : list Z) (s : Z → Z → Z * Z) : Prop :=
  length b = 4000%nat ∧ ∀ y x, on_screen y x → b !! Z.to_nat (offset y x 0) = Some (s y x).1 ∧ b !! Z.to_nat (offset y x 1) = Some (s y x).2.

Definition refines (v : vga) (t : terminal) : Prop :=
  shows (fb v) (scr t) ∧ cx v = tx t ∧ cy v = ty t ∧ on_screen (ty t) (tx t) ∧ inited v = true.

(** The hardware's cursor is where the terminal's is. *)
Definition cursor_shown (v : vga) (t : terminal) : Prop := cursor v = COL_CNT * ty t + tx t.

Example hello : ∃ v, (vga_putc 72 ;;; vga_putc 105 ;;; vga_putc 10 ;;; vga_putc 33) (mk_vga 0 0 (replicate 4000 0) false 79 0) = Ok (tt, v) ∧
  cx v = 1 ∧ cy v = 2 ∧ cursor v = 161.
Proof. eexists. split; [vm_compute; reflexivity|]. vm_compute. done. Qed.

(** ** The display is a terminal *)

Definition with_fb (b : list Z) (v : vga) : vga := mk_vga (cx v) (cy v) b (inited v) (cursor v) (beeps v).

Lemma offset_range y x i : on_screen y x → 0 <= i <= 1 → 0 <= offset y x i < 4000.
Proof. unfold on_screen, offset, ROW_CNT, COL_CNT. lia. Qed.

Lemma offset_inj y x i y' x' i' : on_screen y x → on_screen y' x' → 0 <= i <= 1 → 0 <= i' <= 1 → offset y x i = offset y' x' i' → y = y' ∧ x = x' ∧ i = i'.
Proof. unfold on_screen, offset, ROW_CNT, COL_CNT. lia. Qed.

Lemma put_fb_run y x i c v : length (fb v) = 4000%nat → on_screen y x → 0 <= i <= 1 →
  put_fb y x i c v = Ok (tt, with_fb (<[Z.to_nat (offset y x i) := u8 c]> (fb v)) v).
Proof.
  intros Hl Hs Hi. pose proof (offset_range y x i Hs Hi). unfold put_fb, gets. erewrite bind_ok by reflexivity.
  destruct (Z.ltb_spec (offset y x i) 0); [lia|]. destruct (lookup_lt_is_Some_2 (fb v) (Z.to_nat (offset y x i))) as [w Hw]; [lia|]. by rewrite Hw.
Qed.

Lemma shows_put b s y x c : shows b s → on_screen y x →
  shows (<[Z.to_nat (offset y x 1) := GRAY_ON_BLACK]> (<[Z.to_nat (offset y x 0) := u8 c]> b))
    (λ y' x', if (y' =? y) && (x' =? x) then (u8 c, GRAY_ON_BLACK) else s y' x').
Proof.
  intros [Hl Hb] Hs. split; [by rewrite !length_insert|]. intros y' x' Hs'.
  assert (Hr : ∀ y x i, on_screen y x → 0 <= i <= 1 → 0 <= offset y x i < 4000) by (intros; by apply offset_range).
  pose proof (Hr y x 0 Hs ltac:(lia)). pose proof (Hr y x 1 Hs ltac:(lia)). pose proof (Hr y' x' 0 Hs' ltac:(lia)). pose proof (Hr y' x' 1 Hs' ltac:(lia)).
  destruct (decide (y' = y ∧ x' = x)) as [[-> ->]|Hne].
  - rewrite !Z.eqb_refl. cbn [andb fst snd]. split.
    + rewrite list_lookup_insert_ne by (unfold offset in *; lia). by rewrite list_lookup_insert_eq by (rewrite Hl; lia).
    + by rewrite list_lookup_insert_eq by (rewrite length_insert, Hl; lia).
  - replace ((y' =? y) && (x' =? x)) with false.
    2: { symmetry. apply andb_false_iff. rewrite !Z.eqb_neq. destruct (decide (y' = y)); [right|left]; naive_solver. }
    assert (Hd : ∀ i i', 0 <= i <= 1 → 0 <= i' <= 1 → Z.to_nat (offset y x i) ≠ Z.to_nat (offset y' x' i')).
    { intros i i' Hi Hi' E. pose proof (Hr y x i Hs Hi). pose proof (Hr y' x' i' Hs' Hi'). apply Z2Nat.inj in E; [|lia|lia].
      apply offset_inj in E as (? & ? & ?); try done. naive_solver. }
    rewrite !list_lookup_insert_ne by (apply Hd; lia). by apply Hb.
Qed.

(** Both bytes of a cell. *)
Lemma put_cell_run y x c v s : shows (fb v) s → on_screen y x →
  ∃ b, (put_fb y x 0 c ;;; put_fb y x 1 GRAY_ON_BLACK) v = Ok (tt, with_fb b v) ∧
    shows b (λ y' x', if (y' =? y) && (x' =? x) then (u8 c, GRAY_ON_BLACK) else s y' x').
Proof.
  intros Hb Hs. eexists. split; [|by apply shows_put]. destruct Hb as [Hl _].
  rewrite (bind_ok _ _ _ _ _ (put_fb_run y x 0 c v Hl Hs ltac:(lia))). rewrite put_fb_run; [done| |done|lia]. cbn. by rewrite length_insert.
Qed.

Lemma shows_ext b s s' : (∀ y x, on_screen y x → s y x = s' y x) → shows b s → shows b s'.
Proof. intros He [Hl Hb]. split; [done|]. intros y x Hs. rewrite <- He by done. by apply Hb. Qed.

Lemma clear_cols n x0 y v s : shows (fb v) s → 0 <= y < ROW_CNT → 0 <= x0 → x0 + Z.of_nat n <= COL_CNT →
  ∃ b, for_range n x0 (λ x, put_fb y x 0 32 ;;; put_fb y x 1 GRAY_ON_BLACK) v = Ok (tt, with_fb b v) ∧
    shows b (λ y' x', if (y' =? y) && (x0 <=? x') && (x' <? x0 + Z.of_nat n) then blank else s y' x').
Proof.
  revert x0 v s. induction n as [|n IH]; intros x0 v s Hb Hy H0 Hn; cbn [for_range].
  - exists (fb v). split; [by destruct v|]. eapply shows_ext; [|exact Hb]. intros y' x' _. cbv beta.
    destruct (y' =? y), (Z.leb_spec x0 x'), (Z.ltb_spec x' (x0 + Z.of_nat 0)); cbn; try done; lia.
  - destruct (put_cell_run y x0 32 v s Hb) as (b & E & Hb'); [unfold on_screen; lia|]. rewrite (bind_ok _ _ _ _ _ E).
    destruct (IH (x0 + 1) (with_fb b v) _ Hb') as (b2 & E2 & Hb2); [done|lia|lia|]. exists b2. split; [exact E2|].
    eapply shows_ext; [|exact Hb2]. intros y' x' _. cbv beta. change (u8 32) with 32.
    destruct (Z.eqb_spec y' y), (Z.eqb_spec x' x0), (Z.leb_spec x0 x'), (Z.leb_spec (x0 + 1) x'),
      (Z.ltb_spec x' (x0 + 1 + Z.of_nat n)), (Z.ltb_spec x' (x0 + Z.of_nat (S n))); cbn; try done; lia.
Qed.

Lemma clear_row_run y v s : shows (fb v) s → 0 <= y < ROW_CNT →
  ∃ b, clear_row y v = Ok (tt, with_fb b v) ∧ shows b (λ y' x', if y' =? y then blank else s y' x').
Proof.
  intros Hb Hy. destruct (clear_cols (Z.to_nat COL_CNT) 0 y v s Hb Hy) as (b & E & Hb'); [lia|unfold COL_CNT; lia|].
  exists b. split; [exact E|]. eapply shows_ext; [|exact Hb']. intros y' x' [_ Hx]. cbv beta. unfold COL_CNT in *.
  destruct (y' =? y), (Z.leb_spec 0 x'), (Z.ltb_spec x' (0 + Z.of_nat (Z.to_nat 80))); cbn; try done; lia.
Qed.

Lemma clear_rows n y0 v s : shows (fb v) s → 0 <= y0 → y0 + Z.of_nat n <= ROW_CNT →
  ∃ b, for_range n y0 clear_row v = Ok (tt, with_fb b v) ∧ shows b (λ y' x', if (y0 <=? y') && (y' <? y0 + Z.of_nat n) then blank else s y' x').
Proof.
  revert y0 v s. induction n as [|n IH]; intros y0 v s Hb H0 Hn; cbn [for_range].
  - exists (fb v). split; [by destruct v|]. eapply shows_ext; [|exact Hb]. intros y' x' _. cbv beta.
    destruct (Z.leb_spec y0 y'), (Z.ltb_spec y' (y0 + Z.of_nat 0)); cbn; try done; lia.
  - destruct (clear_row_run y0 v s Hb) as (b & E & Hb'); [lia|]. rewrite (bind_ok _ _ _ _ _ E).
    destruct (IH (y0 + 1) (with_fb b v) _ Hb') as (b2 & E2 & Hb2); [lia|lia|]. exists b2. split; [exact E2|].
    eapply shows_ext; [|exact Hb2]. intros y' x' _. cbv beta.
    destruct (Z.eqb_spec y' y0), (Z.leb_spec y0 y'), (Z.leb_spec (y0 + 1) y'), (Z.ltb_spec y' (y0 + 1 + Z.of_nat n)), (Z.ltb_spec y' (y0 + Z.of_nat (S n)));
      cbn; try done; lia.
Qed.

Lemma scroll_lookup b i : length b = 4000%nat → (i < 4000)%nat → scroll b !! i = if decide (i < 3840)%nat then b !! (i + 160)%nat else b !! i.
Proof.
  intros Hl Hi. unfold scroll. change (Z.to_nat (COL_CNT * 2 * (ROW_CNT - 1))) with 3840%nat. change (Z.to_nat (COL_CNT * 2)) with 160%nat.
  destruct (decide _).
  - rewrite lookup_app_l by (rewrite length_take, length_drop; lia). rewrite lookup_take_lt by done. rewrite lookup_drop. f_equal. lia.
  - rewrite lookup_app_r by (rewrite length_take, length_drop; lia). rewrite length_take, length_drop, lookup_drop. f_equal. lia.
Qed.

Lemma shows_scroll b s : shows b s → shows (scroll b) (λ y x, if y + 1 <? ROW_CNT then s (y + 1) x else s y x).
Proof.
  intros [Hl Hb]. split.
  { unfold scroll. rewrite length_app, length_take, !length_drop. change (Z.to_nat (COL_CNT * 2 * (ROW_CNT - 1))) with 3840%nat. change (Z.to_nat (COL_CNT * 2)) with 160%nat. lia. }
  intros y x Hs. pose proof (offset_range y x 0 Hs ltac:(lia)). pose proof (offset_range y x 1 Hs ltac:(lia)). rewrite !scroll_lookup by lia.
  destruct Hs as [Hy Hx]. unfold ROW_CNT, COL_CNT in *. destruct (Z.ltb_spec (y + 1) 25).
  - destruct (Hb (y + 1) x) as [Hc0 Hc1]; [unfold on_screen, ROW_CNT, COL_CNT; lia|]. rewrite !decide_True by (unfold offset, COL_CNT in *; lia).
    replace (Z.to_nat (offset y x 0) + 160)%nat with (Z.to_nat (offset (y + 1) x 0)) by (unfold offset, COL_CNT in *; lia).
    replace (Z.to_nat (offset y x 1) + 160)%nat with (Z.to_nat (offset (y + 1) x 1)) by (unfold offset, COL_CNT in *; lia). done.
  - rewrite !decide_False by (unfold offset, COL_CNT in *; lia). apply Hb. unfold on_screen, ROW_CNT, COL_CNT. lia.
Qed.

Lemma newline_run v t : shows (fb v) (scr t) → cy v = ty t → 0 <= ty t < ROW_CNT → inited v = true →
  ∃ v', newline v = Ok (tt, v') ∧ refines v' (t_newline t) ∧ beeps v' = beeps v.
Proof.
  intros Hb Hy Ht Hi. unfold newline, set_cx, set_cy, gets. do 3 erewrite bind_ok by reflexivity. cbn [cy]. rewrite Hy, u32_id by (unfold in_u32, ROW_CNT in *; lia).
  unfold t_newline. destruct (Z.leb_spec ROW_CNT (ty t + 1)).
  - do 2 erewrite bind_ok by reflexivity. unfold set_fb. erewrite bind_ok by reflexivity. cbn [fb cx cy inited cursor beeps].
    destruct (clear_row_run (ROW_CNT - 1) (mk_vga 0 (ROW_CNT - 1) (scroll (fb v)) (inited v) (cursor v) (beeps v)) _ (shows_scroll _ _ Hb)) as (b & E & Hb').
    { unfold ROW_CNT. lia. }
    rewrite E. eexists. split; [reflexivity|]. destruct (Z.ltb_spec (ty t + 1) ROW_CNT); [lia|]. split; [|done].
    split; [|split; [done|split; [done|split; [|done]]]].
    + eapply shows_ext; [|exact Hb']. intros y x [Hy' _]. cbv beta. cbn [scr]. unfold ROW_CNT in *.
      destruct (Z.eqb_spec y (25 - 1)), (Z.ltb_spec (y + 1) 25); try done; lia.
    + unfold on_screen, ROW_CNT, COL_CNT. cbn. lia.
  - destruct (Z.ltb_spec (ty t + 1) ROW_CNT); [|lia]. eexists. split; [reflexivity|]. split; [|done].
    split; [done|]. split; [done|]. split; [done|]. split; [|done]. unfold on_screen, ROW_CNT, COL_CNT in *. cbn. lia.
Qed.

Lemma newline_refines v t : refines v t → ∃ v', newline v = Ok (tt, v') ∧ refines v' (t_newline t) ∧ beeps v' = beeps v.
Proof. intros (Hb & Hx & Hy & Hs & Hi). apply newline_run; [done|done|apply Hs|done]. Qed.

(** Both halves of the cursor's position. *)
Lemma cursor_halves cp : 0 <= cp < 2000 →
  let w1 := u16 (Z.lor 14 (Z.land (u16 cp) 65280)) in let w2 := u16 (Z.lor 15 (Z.shiftl (u16 cp) 8)) in
  Z.land w1 255 = 14 ∧ Z.land w2 255 = 15 ∧ Z.lor (Z.land (Z.shiftl (Z.shiftr w1 8) 8) 65280) (Z.shiftr w2 8) = cp.
Proof.
  intros Hc. set (f := λ cp, let w1 := u16 (Z.lor 14 (Z.land (u16 cp) 65280)) in let w2 := u16 (Z.lor 15 (Z.shiftl (u16 cp) 8)) in
    (Z.land w1 255 =? 14) && (Z.land w2 255 =? 15) && (Z.lor (Z.land (Z.shiftl (Z.shiftr w1 8) 8) 65280) (Z.shiftr w2 8) =? cp)).
  assert (H : forallb f (seqZ 0 2000) = true) by (vm_compute; reflexivity). rewrite forallb_forall in H.
  assert (E : f cp = true) by (apply H, list_elem_of_In, elem_of_seqZ; lia). unfold f in E. cbv zeta in E |- *.
  rewrite !andb_true_iff, !Z.eqb_eq in E. tauto.
Qed.

Lemma move_cursor_run v t : refines v t → ∃ v', move_cursor v = Ok (tt, v') ∧ refines v' t ∧ cursor_shown v' t ∧ beeps v' = beeps v.
Proof.
  intros (Hb & Hx & Hy & Hs & Hi). unfold move_cursor, gets, id. erewrite bind_ok by reflexivity. unfold outw_crtc. erewrite bind_ok by reflexivity.
  eexists. split; [reflexivity|]. split; [done|]. split; [|done]. unfold cursor_shown. cbn [cursor cx cy]. rewrite Hx, Hy.
  destruct (cursor_halves (tx t + COL_CNT * ty t)) as (E1 & E2 & E3); [unfold on_screen, ROW_CNT, COL_CNT in *; lia|]. cbv zeta in *. rewrite E1, E2.
  cbn [Z.eqb Pos.eqb]. rewrite Z.land_lor_distr_l, <- (Z.land_assoc (cursor v)). change (Z.land 255 65280) with 0. rewrite Z.land_0_r, Z.lor_0_r, E3. lia.
Qed.

Lemma cls_run v t : refines v t → ∃ v', cls v = Ok (tt, v') ∧ refines v' (mk_term (λ _ _, blank) 0 0) ∧ beeps v' = beeps v.
Proof.
  intros (Hb & Hx & Hy & Hs & Hi). unfold cls. destruct (clear_rows (Z.to_nat ROW_CNT) 0 v _ Hb) as (b & E & Hb'); [lia|unfold ROW_CNT; lia|].
  rewrite (bind_ok _ _ _ _ _ E). unfold set_cx, set_cy. do 2 erewrite bind_ok by reflexivity. cbn [cx cy fb inited cursor beeps with_fb].
  destruct (move_cursor_run (mk_vga 0 0 b (inited v) (cursor v) (beeps v)) (mk_term (λ _ _, blank) 0 0)) as (v' & E' & Hv' & _ & Hbp).
  - split; [|split; [done|split; [done|split; [|done]]]].
    + eapply shows_ext; [|exact Hb']. intros y x [Hy' _]. cbv beta. cbn [scr]. unfold ROW_CNT in *.
      destruct (Z.leb_spec 0 y), (Z.ltb_spec y (0 + Z.of_nat (Z.to_nat 25))); cbn; try done; lia.
    + unfold on_screen, ROW_CNT, COL_CNT. cbn. lia.
  - exists v'. done.
Qed.

(** The cursor moves on to column [x], or to the next line. *)
Lemma advance_run v t x : shows (fb v) (scr t) → cy v = ty t → 0 <= ty t < ROW_CNT → inited v = true → 0 <= x →
  ∃ v', (set_cx x ;;; if COL_CNT <=? x then newline else ret tt) v = Ok (tt, v') ∧ refines v' (t_advance t x) ∧ beeps v' = beeps v.
Proof.
  intros Hb Hy Ht Hi Hx. unfold set_cx. erewrite bind_ok by reflexivity. unfold t_advance. destruct (Z.leb_spec COL_CNT x), (Z.ltb_spec x COL_CNT); [lia| | |lia].
  - by apply (newline_run (mk_vga x (cy v) (fb v) (inited v) (cursor v) (beeps v)) t).
  - eexists. split; [reflexivity|]. split; [|done]. split; [done|]. split; [done|]. split; [done|]. split; [|done]. unfold on_screen. cbn. lia.
Qed.

Lemma round_up_8 x : 0 <= x < 80 → ROUND_UP (x + 1) 8 = 8 * (x / 8 + 1).
Proof. intros Hx. unfold ROUND_UP. rewrite u32_id by mod_lia. mod_lia. Qed.

(** C31: the display is a terminal: a character shows where the cursor is, control
    characters move the cursor or clear the screen, lines scroll up at the bottom, the
    cursor never leaves the screen, and the hardware's cursor follows it. *)
Theorem vga_putc_refines c v t :
  refines v t → ∃ v', vga_putc c v = Ok (tt, v') ∧ refines v' (t_putc c t) ∧ cursor_shown v' (t_putc c t) ∧ beeps v' = beeps v + (if c =? 7 then 1 else 0).
Proof.
  intros Hr. destruct (Hr) as (Hb & Hx & Hy & Hs & Hi). destruct Hs as [Hsy Hsx]. unfold vga_putc, init, gets. rewrite bind_assoc. erewrite bind_ok by reflexivity.
  rewrite Hi. do 3 erewrite bind_ok by reflexivity. rewrite Hx, Hy.
  match goal with |- context [bind ?m (λ _, move_cursor) v] =>
    enough (H : ∃ v', m v = Ok (tt, v') ∧ refines v' (t_putc c t) ∧ beeps v' = beeps v + (if c =? 7 then 1 else 0)) end.
  { destruct H as (v1 & E1 & H1 & B1). rewrite (bind_ok _ _ _ _ _ E1). destruct (move_cursor_run _ _ H1) as (v2 & E2 & H2 & C2 & B2).
    exists v2. split; [done|]. split; [done|]. split; [done|]. congruence. }
  unfold t_putc. destruct (Z.eqb_spec c 10) as [->|]; [cbn [Z.eqb Pos.eqb]; rewrite Z.add_0_r; by apply newline_refines|].
  destruct (Z.eqb_spec c 12) as [->|]; [cbn [Z.eqb Pos.eqb]; rewrite Z.add_0_r; by apply (cls_run v t)|].
  destruct (Z.eqb_spec c 8) as [->|].
  { cbn [Z.eqb Pos.eqb]. rewrite Z.add_0_r. destruct (Z.ltb_spec 0 (tx t)).
    - eexists. split; [reflexivity|]. split; [|done]. rewrite Z.max_r by lia. split; [done|]. split; [done|]. split; [done|]. split; [|done].
      unfold on_screen. cbn. lia.
    - exists v. split; [done|]. split; [|done]. rewrite Z.max_l by lia. split; [done|]. split; [cbn; lia|]. split; [done|]. split; [|done].
      unfold on_screen. cbn. unfold COL_CNT. lia. }
  destruct (Z.eqb_spec c 13) as [->|].
  { cbn [Z.eqb Pos.eqb]. rewrite Z.add_0_r. eexists. split; [reflexivity|]. split; [|done]. split; [done|]. split; [done|]. split; [done|]. split; [|done].
    unfold on_screen. cbn. unfold COL_CNT. lia. }
  destruct (Z.eqb_spec c 9) as [->|].
  { cbn [Z.eqb Pos.eqb]. rewrite Z.add_0_r, round_up_8 by (unfold COL_CNT in Hsx; lia). apply advance_run; try done. mod_lia. }
  destruct (Z.eqb_spec c 7) as [->|].
  { eexists. split; [reflexivity|]. done. }
  rewrite Z.add_0_r, (u32_id (tx t + 1)) by (unfold in_u32, COL_CNT in *; lia).
  destruct (put_cell_run (ty t) (tx t) c v _ Hb) as (b & E & Hb'); [done|]. rewrite <- bind_assoc, (bind_ok _ _ _ _ _ E).
  destruct (advance_run (with_fb b v) (mk_term (λ y x, if (y =? ty t) && (x =? tx t) then (u8 c, GRAY_ON_BLACK) else scr t y x) (tx t) (ty t)) (tx t + 1))
    as (v' & E' & H'); try done; [lia|]. by exists v'.
Qed.

(** The first character finds the cursor where the hardware has it. *)
Lemma init_refines v s : shows (fb v) s → inited v = false → 0 <= cursor v < 2000 →
  ∃ v', init v = Ok (tt, v') ∧ refines v' (mk_term s (cursor v mod COL_CNT) (cursor v / COL_CNT)).
Proof.
  intros Hb Hi Hc. unfold init, gets. erewrite bind_ok by reflexivity. rewrite Hi. unfold find_cursor, gets.
  rewrite bind_assoc. erewrite bind_ok by reflexivity. erewrite bind_ok by reflexivity. cbn [fst snd].
  assert (E : Z.lor (u16 (Z.shiftl (u8 (Z.shiftr (cursor v) 8)) 8)) (u8 (cursor v)) = cursor v).
  { assert (H : forallb (λ c, Z.lor (u16 (Z.shiftl (u8 (Z.shiftr c 8)) 8)) (u8 c) =? c) (seqZ 0 2000) = true) by (vm_compute; reflexivity).
    rewrite forallb_forall in H. apply Z.eqb_eq, H, list_elem_of_In, elem_of_seqZ. lia. }
  rewrite E. unfold set_cx, set_cy. do 2 erewrite bind_ok by reflexivity. eexists. split; [reflexivity|]. cbn.
  rewrite Z.rem_mod_nonneg, Z.quot_div_nonneg by (unfold COL_CNT; lia). split; [done|]. split; [done|]. split; [done|]. split; [|done].
  unfold on_screen, COL_CNT, ROW_CNT. cbn. mod_lia.
Qed.

Lemma vga_putc_refines_witness :
  let v := mk_vga 79 24 (replicate 4000 0) true 0 0 in
  let t := mk_term (λ _ _, (0, 0)) 79 24 in
  ∃ v', vga_putc 65 v = Ok (tt, v') ∧ refines v' (t_putc 65 t) ∧ cursor_shown v' (t_putc 65 t) ∧ beeps v' = 0.
Proof.
  intros v t. apply (vga_putc_refines 65 v t). split; [|split; [done|split; [done|split; [|done]]]].
  - split; [apply length_replicate|]. intros y x Hs. pose proof (offset_range y x 0 Hs ltac:(lia)). pose proof (offset_range y x 1 Hs ltac:(lia)).
    split; apply lookup_replicate_2; lia.
  - unfold on_screen, ROW_CNT, COL_CNT. cbn. lia.
Defined.
