(* ===== verification/Block.v ===== *)
(** * Block devices and partitions (src/devices/block.c, partition.c)

    The registry of block devices is the list of their descriptors in the order they were
    registered; the address of a descriptor is its place in the list.  A device is served
    by a driver, whose disk is a list of sectors, or is a partition of another device. *)

From S2P Require Import Prelude Stdio.
Local Open Scope Z_scope.

Definition BLOCK_SECTOR_SIZE : Z := 512.

Inductive btype := BLOCK_KERNEL | BLOCK_FILESYS | BLOCK_SCRATCH | BLOCK_SWAP | BLOCK_RAW | BLOCK_FOREIGN.
#[global] Instance btype_eq : EqDecision btype.
Proof. solve_decision. Defined.
Definition type_no (t : btype) : Z :=
  match t with BLOCK_KERNEL => 0 | BLOCK_FILESYS => 1 | BLOCK_SCRATCH => 2 | BLOCK_SWAP => 3 | BLOCK_RAW => 4 | BLOCK_FOREIGN => 5 end.
Definition BLOCK_ROLE_CNT : Z := 4.

(** [ops] and [aux]: a driver with its disk, or [partition_operations] with a partition. *)
Record partition := mk_part { p_block : nat; p_start : Z }.
Inductive operations := Driver (disk : nat) | Partition (p : partition).

Record block := mk_block { b_name : list Z; b_type : btype; b_size : Z; b_ops : operations; read_cnt : Z; write_cnt : Z }.

(** [mem] says which of the next calls of [malloc] succeed (all of them when it ends);
    [printed] is the output. *)
Record registry := mk_reg {
  all_blocks : list block; block_by_role : list (option nat); disks : list (list (list Z)); mem : list bool; printed : list Z }.

Notation R := (M registry).

Definition upd_blocks f : R unit := modify (λ r, mk_reg (f (all_blocks r)) (block_by_role r) (disks r) (mem r) (printed r)).
Definition upd_disks f : R unit := modify (λ r, mk_reg (all_blocks r) (block_by_role r) (f (disks r)) (mem r) (printed r)).
Definition malloc : R bool := λ r, Ok (hd true (mem r), mk_reg (all_blocks r) (block_by_role r) (disks r) (tl (mem r)) (printed r)).
(** Where a failing [malloc] is a panic. *)
Definition malloc_or_panic : R unit := let* ok := malloc in if ok then ret tt else fail Panicked.
Definition print (s : list Z) : R unit := modify (λ r, mk_reg (all_blocks r) (block_by_role r) (disks r) (mem r) (printed r ++ s)).
Definition printf (format : list Z) (args : list arg) : R unit := let* s := lift (vprintf format args) in print s.

Definition get_block (b : nat) : R block := let* l := gets all_blocks in need (l !! b).

Definition block_type_name (t : btype) : list Z :=
  match t with
  | BLOCK_KERNEL => chars "kernel" | BLOCK_FILESYS => chars "filesys" | BLOCK_SCRATCH => chars "scratch"
  | BLOCK_SWAP => chars "swap" | BLOCK_RAW => chars "raw" | BLOCK_FOREIGN => chars "foreign"
  end.

Definition block_get_role (role : btype) : R (option nat) :=
  assert (type_no role <? BLOCK_ROLE_CNT) ;;;
  let* l := gets block_by_role in need (l !! Z.to_nat (type_no role)).
Definition block_set_role (role : btype) (b : option nat) : R unit :=
  assert (type_no role <? BLOCK_ROLE_CNT) ;;;
  modify (λ r, mk_reg (all_blocks r) (<[Z.to_nat (type_no role) := b]> (block_by_role r)) (disks r) (mem r) (printed r)).

(** [list_elem_to_block]: a place at the end of the list is a null pointer. *)
Definition list_elem_to_block (b : nat) : R (option nat) := let* l := gets all_blocks in ret (if decide (b < length l)%nat then Some b else None).
Definition block_first : R (option nat) := list_elem_to_block 0.
Definition block_next (b : nat) : R (option nat) := get_block b ;;; list_elem_to_block (S b).

Fixpoint find_name (name : list Z) (l : list block) (i : nat) : option nat :=
  match l with
  | [] => None
  | b :: r => if bool_decide (name = b_name b) then Some i else find_name name r (S i)
  end.
Definition block_get_by_name (name : list Z) : R (option nat) := gets (λ r, find_name name (all_blocks r) 0).

Definition check_sector (b : nat) (sector : Z) : R unit :=
  let* d := get_block b in
  if b_size d <=? sector then fail Panicked else ret tt.

Definition count_read (d : block) := mk_block (b_name d) (b_type d) (b_size d) (b_ops d) (u64 (read_cnt d + 1)) (write_cnt d).
Definition count_write (d : block) := mk_block (b_name d) (b_type d) (b_size d) (b_ops d) (read_cnt d) (u64 (write_cnt d + 1)).

(** The drivers: a disk holds what was written last. *)
Definition driver_read (disk : nat) (sector : Z) : R (list Z) := let* l := gets disks in need (l !! disk ≫= λ d, d !! Z.to_nat sector).
Definition driver_write (disk : nat) (sector : Z) (buffer : list Z) : R unit :=
  let* l := gets disks in
  let* d := need (l !! disk) in
  need (d !! Z.to_nat sector) ;;;
  upd_disks <[disk := <[Z.to_nat sector := buffer]> d]>.

(** [block_read] and [partition_read], [block_write] and [partition_write] call each other:
    a partition passes on to the device it is on.  [depth] bounds how often. *)
Fixpoint block_read_at (depth : nat) (b : nat) (sector : Z) : R (list Z) :=
  match depth with
  | O => fail NoFuel
  | S depth =>
      check_sector b sector ;;;
      let* d := get_block b in
      let* buffer := match b_ops d with
                     | Driver disk => driver_read disk sector
                     | Partition p => block_read_at depth (p_block p) (u32 (p_start p + sector))
                     end in
      upd_blocks (alter count_read b) ;;; ret buffer
  end.

Fixpoint block_write_at (depth : nat) (b : nat) (sector : Z) (buffer : list Z) : R unit :=
  match depth with
  | O => fail NoFuel
  | S depth =>
      check_sector b sector ;;;
      let* d := get_block b in
      assert (negb (bool_decide (b_type d = BLOCK_FOREIGN))) ;;;
      match b_ops d with
      | Driver disk => driver_write disk sector buffer
      | Partition p => block_write_at depth (p_block p) (u32 (p_start p + sector)) buffer
      end ;;;
      upd_blocks (alter count_write b)
  end.

Definition block_read (b : nat) (sector : Z) : R (list Z) := let* n := gets (λ r, length (all_blocks r)) in block_read_at (S n) b sector.
Definition block_write (b : nat) (sector : Z) (buffer : list Z) : R unit :=
  let* n := gets (λ r, length (all_blocks r)) in block_write_at (S n) b sector buffer.

Definition block_size (b : nat) : R Z := let* d := get_block b in ret (b_size d).
Definition block_name (b : nat) : R (list Z) := let* d := get_block b in ret (b_name d).
Definition block_type (b : nat) : R btype := let* d := get_block b in ret (b_type d).

Fixpoint print_stats (l : list (option nat)) : R unit :=
  match l with
  | [] => ret tt
  | None :: r => print_stats r
  | Some b :: r =>
      let* d := get_block b in
      printf (chars "%s (%s): %llu reads, %llu writes" ++ [10])
        [Str (Some (b_name d)); Str (Some (block_type_name (b_type d))); I64 (read_cnt d); I64 (write_cnt d)] ;;;
      print_stats r
  end.
Definition block_print_stats : R unit := let* l := gets block_by_role in print_stats l.

(** The message at the end of [block_register]. *)
Definition announce (name : list Z) (size : Z) (extra_info : option (list Z)) : R unit :=
  printf (chars "%s: %'u sectors (") [Str (Some name); I32 size] ;;;
  let* s := lift (print_human_readable_size (u64 (size * BLOCK_SECTOR_SIZE))) in
  print s ;;;
  printf (chars ")") [] ;;;
  match extra_info with
  | Some e => printf (chars ", %s") [Str (Some e)]
  | None => ret tt
  end ;;;
  printf [10] [].

Definition block_register (name : list Z) (type : btype) (extra_info : option (list Z)) (size : Z) (ops : operations) : R nat :=
  malloc_or_panic ;;;
  let* b := gets (λ r, length (all_blocks r)) in
  upd_blocks (λ l, l ++ [mk_block (take 15 name) type size ops 0 0]) ;;;
  announce (take 15 name) size extra_info ;;;
  ret b.

(** ** Partitions *)

(** The names that [partition_type_name] knows. *)
Definition type_names : list (Z * String.string) :=
  [(0, "Empty"); (1, "FAT12"); (2, "XENIX root"); (3, "XENIX usr"); (4, "FAT16 <32M"); (5, "Extended"); (6, "FAT16");
   (7, "HPFS/NTFS"); (8, "AIX"); (9, "AIX bootable"); (10, "OS/2 Boot Manager"); (11, "W95 FAT32");
   (12, "W95 FAT32 (LBA)"); (14, "W95 FAT16 (LBA)"); (15, "W95 Ext'd (LBA)"); (16, "OPUS"); (17, "Hidden FAT12");
   (18, "Compaq diagnostics"); (20, "Hidden FAT16 <32M"); (22, "Hidden FAT16"); (23, "Hidden HPFS/NTFS");
   (24, "AST SmartSleep"); (27, "Hidden W95 FAT32"); (28, "Hidden W95 FAT32 (LBA)"); (30, "Hidden W95 FAT16 (LBA)");
   (32, "Pintos OS kernel"); (33, "Pintos file system"); (34, "Pintos scratch"); (35, "Pintos swap");
   (36, "NEC DOS"); (57, "Plan 9"); (60, "PartitionMagic recovery"); (64, "Venix 80286"); (65, "PPC PReP Boot");
   (66, "SFS"); (77, "QNX4.x"); (78, "QNX4.x 2nd part"); (79, "QNX4.x 3rd part"); (80, "OnTrack DM");
   (81, "OnTrack DM6 Aux1"); (82, "CP/M"); (83, "OnTrack DM6 Aux3"); (84, "OnTrackDM6"); (85, "EZ-Drive");
   (86, "Golden Bow"); (92, "Priam Edisk"); (97, "SpeedStor"); (99, "GNU HURD or SysV"); (100, "Novell Netware 286");
   (101, "Novell Netware 386"); (112, "DiskSecure Multi-Boot"); (117, "PC/IX"); (128, "Old Minix");
   (129, "Minix / old Linux"); (130, "Linux swap / Solaris"); (131, "Linux"); (132, "OS/2 hidden C: drive");
   (133, "Linux extended"); (134, "NTFS volume set"); (135, "NTFS volume set"); (136, "Linux plaintext");
   (142, "Linux LVM"); (147, "Amoeba"); (148, "Amoeba BBT"); (159, "BSD/OS"); (160, "IBM Thinkpad hibernation");
   (165, "FreeBSD"); (166, "OpenBSD"); (167, "NeXTSTEP"); (168, "Darwin UFS"); (169, "NetBSD"); (171, "Darwin boot");
   (183, "BSDI fs"); (184, "BSDI swap"); (187, "Boot Wizard hidden"); (190, "Solaris boot"); (191, "Solaris");
   (193, "DRDOS/sec (FAT-12)"); (196, "DRDOS/sec (FAT-16 < 32M)"); (198, "DRDOS/sec (FAT-16)"); (199, "Syrinx");
   (218, "Non-FS data"); (219, "CP/M / CTOS / ..."); (222, "Dell Utility"); (223, "BootIt"); (225, "DOS access");
   (227, "DOS R/O"); (228, "SpeedStor"); (235, "BeOS fs"); (238, "EFI GPT"); (239, "EFI (FAT-12/16/32)");
   (240, "Linux/PA-RISC boot"); (241, "SpeedStor"); (244, "SpeedStor"); (242, "DOS secondary");
   (253, "Linux raid autodetect"); (254, "LANstep"); (255, "BBT")]%string.

Definition partition_type_name (type : Z) : list Z :=
  match find (λ e, e.1 =? type) type_names with Some (_, n) => chars n | None => chars "Unknown" end.

(** A sector as [struct partition_table]; words are little-endian. *)
Record entry := mk_entry { e_type : Z; e_offset : Z; e_size : Z }.
Definition entry_of (s : list Z) (i : nat) : entry :=
  let e := drop (446 + 16 * i) s in
  mk_entry (u8 (nth 4 e 0)) (u32 (from_le32 (drop 8 e))) (u32 (from_le32 (drop 12 e))).
Definition signature (s : list Z) : Z := nth 510 s 0 + 256 * nth 511 s 0.

Definition is_extended (type : Z) : bool := (type =? 5) || (type =? 15) || (type =? 133) || (type =? 197).

Definition partition_btype (part_type : Z) : btype :=
  if part_type =? 32 then BLOCK_KERNEL
  else if part_type =? 33 then BLOCK_FILESYS
  else if part_type =? 34 then BLOCK_SCRATCH
  else if part_type =? 35 then BLOCK_SWAP
  else BLOCK_FOREIGN.

Definition found_partition (b : nat) (part_type start size part_nr : Z) : R unit :=
  let* dev := block_size b in
  let* name := block_name b in
  let stop := u32 (start + size) in
  if dev <=? start then
    printf (chars "%s%d: Partition starts past end of device (sector %u)" ++ [10]) [Str (Some name); I32 part_nr; I32 start]
  else if (stop <? start) || (dev <? stop) then
    printf (chars "%s%d: Partition end (%u) past end of device (%u)" ++ [10]) [Str (Some name); I32 part_nr; I32 stop; I32 dev]
  else
    malloc_or_panic ;;;
    let* (pname, _) := lift (vsnprintf 16 (chars "%s%d") [Str (Some name); I32 part_nr]) in
    let* (info, _) := lift (vsnprintf 128 (chars "%s (%02x)") [Str (Some (partition_type_name part_type)); I32 part_type]) in
    block_register (removelast pname) (partition_btype part_type) (Some (removelast info)) size (Partition (mk_part b start)) ;;; ret tt.

(** The loop over the four entries; [table] is the recursive call.  The number of
    partitions so far is passed along. *)
Fixpoint parse_entries (table : Z → Z → Z → R Z) (b : nat) (sector primary : Z) (es : list entry) (part_nr : Z) : R Z :=
  match es with
  | [] => ret part_nr
  | e :: r =>
      if (e_size e =? 0) || (e_type e =? 0) then parse_entries table b sector primary r part_nr
      else if is_extended (e_type e) then
        let* name := block_name b in
        printf (chars "%s: Extended partition in sector %u" ++ [10]) [Str (Some name); I32 sector] ;;;
        let* part_nr := (if sector =? 0 then table (e_offset e) (e_offset e) part_nr
                         else table (u32 (e_offset e + primary)) primary part_nr) in
        parse_entries table b sector primary r part_nr
      else
        let part_nr := part_nr + 1 in
        found_partition b (e_type e) (u32 (e_offset e + sector)) (e_size e) part_nr ;;;
        parse_entries table b sector primary r part_nr
  end.

(** [depth] bounds the nesting of the calls. *)
Fixpoint read_partition_table (depth : nat) (b : nat) (sector primary part_nr : Z) : R Z :=
  match depth with
  | O => fail NoFuel
  | S depth =>
      let* size := block_size b in
      let* name := block_name b in
      if size <=? sector then
        printf (chars "%s: Partition table at sector %u past end of device." ++ [10]) [Str (Some name); I32 sector] ;;; ret part_nr
      else
        malloc_or_panic ;;;
        let* pt := block_read b 0 in
        if signature pt =? 43605 then parse_entries (read_partition_table depth b) b sector primary (entry_of pt <$> seq 0 4) part_nr
        else
          (if primary =? 0 then printf (chars "%s: Invalid partition table signature" ++ [10]) [Str (Some name)]
           else printf (chars "%s: Invalid extended partition table in sector %u" ++ [10]) [Str (Some name); I32 sector]) ;;;
          ret part_nr
  end.

Definition partition_scan (depth : nat) (b : nat) : R unit :=
  let* part_nr := read_partition_table depth b 0 0 0 in
  if part_nr =? 0 then let* name := block_name b in printf (chars "%s: Device contains no partitions" ++ [10]) [Str (Some name)] else ret tt.
