(* ===== verification/BlockSpec.v ===== *)
(** * What the block layer and the partition scan promise (src/devices/block.c, partition.c) *)

From S2P Require Import Prelude Stdio Block.
Local Open Scope Z_scope.

(** ** The registry's invariant *)

(** A descriptor without its statistics. *)
Record shape := mk_shape { s_name : list Z; s_type : btype; s_size : Z; s_ops : operations }.
Definition shape_of (d : block) : shape := mk_shape (b_name d) (b_type d) (b_size d) (b_ops d).
Definition shapes (r : registry) : list shape := shape_of <$> all_blocks r.

(** A device with a driver is as large as its disk; a partition lies inside a device that
    was registered before it. *)
Definition device_ok (ss : list shape) (ds : list (list (list Z))) (i : nat) (s : shape) : Prop :=
  0 <= s_size s < 2 ^ 32 ∧
  match s_ops s with
  | Driver k => ∃ disk, ds !! k = Some disk ∧ Z.of_nat (length disk) = s_size s
  | Partition p => (p_block p < i)%nat ∧ 0 <= p_start p ∧ ∃ s', ss !! p_block p = Some s' ∧ p_start p + s_size s <= s_size s'
  end.
Definition registry_ok (r : registry) : Prop := ∀ i s, shapes r !! i = Some s → device_ok (shapes r) (disks r) i s.

(** Computations that change neither devices nor disks. *)
Definition same (r r' : registry) : Prop := shapes r' = shapes r ∧ disks r' = disks r.
Definition calm {A} (c : R A) : Prop := ∀ r a r', c r = Ok (a, r') → same r r'.

Lemma disk_same_refl r : same r r.
Proof. done. Qed.
Lemma disk_same_trans r1 r2 r3 : same r1 r2 → same r2 r3 → same r1 r3.
Proof. intros [A1 A2] [B1 B2]. split; congruence. Qed.
Lemma same_ok r r' : same r r' → registry_ok r → registry_ok r'.
Proof. intros [E1 E2]. unfold registry_ok. by rewrite E1, E2. Qed.

Lemma calm_bind {A B} (c : R A) (k : A → R B) : calm c → (∀ a, calm (k a)) → calm (bind c k).
Proof. intros Hc Hk r b r' H. run_inv. eapply disk_same_trans; [by eapply Hc|by eapply Hk]. Qed.
Lemma calm_ret {A} (a : A) : calm (ret a).
Proof. intros r b r' H. by run_inv. Qed.
Lemma calm_fail {A} f : calm (@fail registry A f).
Proof. intros r b r' H. done. Qed.
Lemma calm_gets {A} (f : registry → A) : calm (gets f).
Proof. intros r b r' H. unfold gets in H. by run_inv. Qed.
Lemma calm_lift {A} (x : res A) : calm (lift x).
Proof. intros r b r' H. by apply lift_inv in H as [_ ->]. Qed.
Lemma calm_need {A} (x : option A) : calm (need x).
Proof. destruct x; [apply calm_ret|apply calm_fail]. Qed.
Lemma calm_print s : calm (print s).
Proof. intros r b r' H. unfold print, modify in H. by run_inv. Qed.
Lemma calm_malloc : calm malloc.
Proof. intros r b r' H. unfold malloc in H. by run_inv. Qed.

Lemma calm_malloc_or_panic : calm malloc_or_panic.
Proof. intros r b r' H. unfold malloc_or_panic in H. apply bind_inv in H as (ok & r1 & E & H). apply calm_malloc in E. by destruct ok; run_inv. Qed.

Create HintDb calm.
#[export] Hint Resolve calm_ret calm_fail calm_gets calm_lift calm_need calm_print calm_malloc calm_malloc_or_panic : calm.
Ltac calm := repeat first [ solve [auto with calm] | simple apply calm_bind; [|intros ?]
  | match goal with |- calm (match ?x with _ => _ end) => destruct x end ].

Lemma calm_printf f args : calm (printf f args).
Proof. unfold printf. calm. Qed.
Lemma calm_get_block b : calm (get_block b).
Proof. unfold get_block. calm. Qed.
#[export] Hint Resolve calm_printf calm_get_block : calm.
Lemma calm_block_size b : calm (block_size b).
Proof. unfold block_size. calm. Qed.
Lemma calm_block_name b : calm (block_name b).
Proof. unfold block_name. calm. Qed.
Lemma calm_check_sector b n : calm (check_sector b n).
Proof. unfold check_sector. calm. Qed.
#[export] Hint Resolve calm_block_size calm_block_name calm_check_sector : calm.

(** Statistics are not part of the shape. *)
Lemma shapes_alter (f : block → block) (b : nat) (l : list block) : (∀ d, shape_of (f d) = shape_of d) → shape_of <$> alter f b l = shape_of <$> l.
Proof.
  intros Hf. apply list_eq. intros j. rewrite !list_lookup_fmap. destruct (decide (j = b)) as [->|].
  - rewrite list_lookup_alter_eq. destruct (l !! b); cbn; by rewrite ?Hf.
  - by rewrite list_lookup_alter_ne.
Qed.

Lemma calm_count (f : block → block) b : (∀ d, shape_of (f d) = shape_of d) → calm (upd_blocks (alter f b)).
Proof. intros Hf r u r' H. unfold upd_blocks, modify in H. run_inv. split; [|done]. by apply shapes_alter. Qed.

Lemma calm_read_at depth b n : calm (block_read_at depth b n).
Proof.
  revert b n. induction depth as [|depth IH]; intros b n; cbn [block_read_at]; [apply calm_fail|]. apply calm_bind; [auto with calm|intros _].
  apply calm_bind; [auto with calm|intros d]. apply calm_bind; [destruct (b_ops d); unfold driver_read; calm; apply IH|intros buf].
  apply calm_bind; [by apply calm_count|auto with calm].
Qed.
Lemma calm_read b n : calm (block_read b n).
Proof. unfold block_read. apply calm_bind; [auto with calm|intros ?]. apply calm_read_at. Qed.
#[export] Hint Resolve calm_read : calm.

(** ** Reads and writes *)

Lemma shape_block r b s : shapes r !! b = Some s → ∃ d, all_blocks r !! b = Some d ∧ shape_of d = s.
Proof. unfold shapes. rewrite list_lookup_fmap. intros H. by apply fmap_Some in H as (d & ? & ->); exists d. Qed.

Lemma get_block_run r b d : all_blocks r !! b = Some d → get_block b r = Ok (d, r).
Proof. intros H. unfold get_block, gets. erewrite bind_ok by reflexivity. by rewrite H. Qed.

Lemma check_sector_run r b d n : all_blocks r !! b = Some d → check_sector b n r = if b_size d <=? n then Fail Panicked else Ok (tt, r).
Proof. intros H. unfold check_sector. rewrite (bind_ok _ _ _ _ _ (get_block_run _ _ _ H)). by destruct (_ <=? _). Qed.

(** Where the sector of a device is on a disk. *)
Fixpoint locate (depth : nat) (ss : list shape) (b : nat) (sector : Z) : option (nat * Z) :=
  match depth with
  | O => None
  | S depth => s ← ss !! b; match s_ops s with Driver k => Some (k, sector) | Partition p => locate depth ss (p_block p) (p_start p + sector) end
  end.

(** The same, with the device on which it is. *)
Lemma read_at_run depth b sector s r : registry_ok r → shapes r !! b = Some s → 0 <= sector < s_size s → (b < depth)%nat →
  ∃ k n buf r', locate depth (shapes r) b sector = Some (k, n) ∧ (disks r !! k ≫= λ d, d !! Z.to_nat n) = Some buf ∧
    block_read_at depth b sector r = Ok (buf, r').
Proof.
  revert b sector s. induction depth as [|depth IH]; intros b sector s Hr Hs Hn Hd; [lia|]. cbn [block_read_at locate]. rewrite Hs. cbn [option_bind mbind].
  destruct (shape_block _ _ _ Hs) as (d & Hb & <-). cbn in Hn. unfold bind at 1. rewrite (check_sector_run _ _ _ _ Hb).
  destruct (Z.leb_spec (b_size d) sector); [lia|]. rewrite (bind_ok _ _ _ _ _ (get_block_run _ _ _ Hb)).
  destruct (Hr _ _ Hs) as [Hsz Ho]. cbn in Hsz, Ho |- *. destruct (b_ops d) as [k|p].
  - destruct Ho as (disk & Hk & Hl). destruct (lookup_lt_is_Some_2 disk (Z.to_nat sector)) as [buf Hbuf]; [lia|].
    exists k, sector, buf. unfold driver_read, gets. rewrite !bind_assoc. erewrite bind_ok by reflexivity. cbn. rewrite Hk. cbn. rewrite Hbuf. cbn.
    eexists. split_and!; [done|done|]. reflexivity.
  - destruct Ho as (Hp & H0 & s' & Hs' & Hle). rewrite (u32_id (p_start p + sector)).
    2: { destruct (Hr _ _ Hs') as [? _]. unfold in_u32. lia. }
    destruct (IH (p_block p) (p_start p + sector) s' Hr Hs') as (k & n & buf & r' & Hl & Hbuf & E); [lia|lia|].
    exists k, n, buf. rewrite (bind_ok _ _ _ _ _ E). eexists. split_and!; [done|done|reflexivity].
Qed.

(** No device on the way is of a foreign type. *)
Fixpoint writable (depth : nat) (ss : list shape) (b : nat) : bool :=
  match depth, ss !! b with
  | S depth, Some s => negb (bool_decide (s_type s = BLOCK_FOREIGN)) && match s_ops s with Driver _ => true | Partition p => writable depth ss (p_block p) end
  | _, _ => false
  end.

Lemma block_write_run depth b sector s buf r : registry_ok r → shapes r !! b = Some s → 0 <= sector < s_size s → (b < depth)%nat → writable depth (shapes r) b = true →
  ∃ k n disk r', locate depth (shapes r) b sector = Some (k, n) ∧ disks r !! k = Some disk ∧ (Z.to_nat n < length disk)%nat ∧
    block_write_at depth b sector buf r = Ok (tt, r') ∧ shapes r' = shapes r ∧ disks r' = <[k := <[Z.to_nat n := buf]> disk]> (disks r).
Proof.
  revert b sector s. induction depth as [|depth IH]; intros b sector s Hr Hs Hn Hd Hw; [lia|]. cbn [block_write_at locate writable] in *. rewrite Hs in *.
  cbn [option_bind mbind]. apply andb_true_iff in Hw as [Hf Hw].
  destruct (shape_block _ _ _ Hs) as (d & Hb & <-). cbn in Hn, Hf, Hw. unfold bind at 1. rewrite (check_sector_run _ _ _ _ Hb).
  destruct (Z.leb_spec (b_size d) sector); [lia|]. rewrite (bind_ok _ _ _ _ _ (get_block_run _ _ _ Hb)), Hf. erewrite bind_ok by reflexivity.
  destruct (Hr _ _ Hs) as [Hsz Ho]. cbn in Hsz, Ho |- *. destruct (b_ops d) as [k|p].
  - destruct Ho as (disk & Hk & Hl). destruct (lookup_lt_is_Some_2 disk (Z.to_nat sector)) as [old Hold]; [lia|].
    exists k, sector, disk. unfold driver_write, gets. rewrite !bind_assoc. erewrite bind_ok by reflexivity. cbn. rewrite Hk, bind_assoc. erewrite bind_ok by reflexivity.
    rewrite bind_assoc. rewrite Hold. erewrite bind_ok by reflexivity. unfold upd_disks. erewrite bind_ok by reflexivity. eexists.
    split_and!; [done|done|lia|reflexivity| |reflexivity]. by apply shapes_alter.
  - destruct Ho as (Hp & H0 & s' & Hs' & Hle). rewrite (u32_id (p_start p + sector)).
    2: { destruct (Hr _ _ Hs') as [? _]. unfold in_u32. lia. }
    destruct (IH (p_block p) (p_start p + sector) s' Hr Hs') as (k & n & disk & r' & Hl & Hk & Hnl & E & E1 & E2); [lia|lia|done|].
    exists k, n, disk. rewrite (bind_ok _ _ _ _ _ E). eexists. split_and!; [done|done|done|reflexivity| |].
    + rewrite <- E1. by apply shapes_alter.
    + exact E2.
Qed.

Lemma locate_depth d1 d2 r b n : registry_ok r → (b < d1)%nat → (b < d2)%nat → locate d1 (shapes r) b n = locate d2 (shapes r) b n.
Proof.
  revert d2 b n. induction d1 as [|d1 IH]; intros [|d2] b n Hr H1 H2; [lia..|]. cbn [locate]. destruct (shapes r !! b) as [s|] eqn:Hs; [|done].
  cbn. destruct (s_ops s) as [k|p] eqn:Eo; [done|]. destruct (Hr _ _ Hs) as [_ Ho]. rewrite Eo in Ho. destruct Ho as (? & _). apply IH; [done|lia|lia].
Qed.

Lemma locate_partition d ss b s p n : ss !! b = Some s → s_ops s = Partition p → locate (S d) ss b n = locate d ss (p_block p) (p_start p + n).
Proof. intros Hs Ho. cbn [locate]. rewrite Hs. cbn. by rewrite Ho. Qed.

(** Where a sector of a device is: the disk and the sector on it. *)
Definition location (r : registry) (b : nat) (n : Z) : option (nat * Z) := locate (S (length (shapes r))) (shapes r) b n.
Definition may_write (r : registry) (b : nat) : bool := writable (S (length (shapes r))) (shapes r) b.

Lemma write_ok r r' k n buf disk : registry_ok r → disks r !! k = Some disk → shapes r' = shapes r → disks r' = <[k := <[n := buf]> disk]> (disks r) → registry_ok r'.
Proof.
  intros Hr Hk E1 E2 i s Hs. rewrite E1 in *. destruct (Hr _ _ Hs) as [Hz Ho]. split; [done|]. rewrite E2. destruct (s_ops s) as [k'|p]; [|done].
  destruct Ho as (disk' & Hk' & Hl). destruct (decide (k' = k)) as [->|].
  - exists (<[n := buf]> disk). rewrite list_lookup_insert_eq by (by eapply lookup_lt_Some). rewrite length_insert. split; [done|congruence].
  - exists disk'. by rewrite list_lookup_insert_ne.
Qed.

(** Sector [i] of a partition is sector [start + i] of the device it is on: reads
    return what is there and change nothing, writes change exactly that sector of the disk
    and are read back; sectors beyond the partition stop the kernel. *)
Theorem partition_io r b s p i buf :
  registry_ok r → shapes r !! b = Some s → s_ops s = Partition p → 0 <= i →
  if decide (i < s_size s) then
    ∃ k n disk old, location r b i = Some (k, n) ∧ location r (p_block p) (p_start p + i) = Some (k, n) ∧
      disks r !! k = Some disk ∧ disk !! Z.to_nat n = Some old ∧
      (∃ r', block_read b i r = Ok (old, r') ∧ same r r') ∧
      (may_write r b = true → ∃ r', block_write b i buf r = Ok (tt, r') ∧ shapes r' = shapes r ∧ registry_ok r' ∧
         disks r' = <[k := <[Z.to_nat n := buf]> disk]> (disks r) ∧ ∃ r'', block_read b i r' = Ok (buf, r''))
  else block_read b i r = Fail Panicked ∧ block_write b i buf r = Fail Panicked.
Proof.
  intros Hr Hs Ho Hi. pose proof (lookup_lt_Some _ _ _ Hs) as Hlt.
  assert (Hlen : length (shapes r) = length (all_blocks r)) by apply length_fmap.
  unfold block_read, block_write, gets. erewrite bind_ok by reflexivity. erewrite bind_ok by reflexivity. destruct (decide _) as [Hd|Hd].
  - destruct (read_at_run (S (length (all_blocks r))) b i s r) as (k & n & old & r' & Hl & Hold & E); [done|done|lia|lia|].
    destruct (disks r !! k) as [disk|] eqn:Hk; [|done]. cbn in Hold. exists k, n, disk, old. unfold location. rewrite Hlen.
    destruct (Hr _ _ Hs) as [_ Hp]. rewrite Ho in Hp. destruct Hp as (Hp & _).
    split; [done|]. split.
    { rewrite <- Hl, (locate_partition _ _ _ _ _ _ Hs Ho). apply locate_depth; [done|lia|lia]. }
    split; [done|]. split; [done|]. split; [exists r'; split; [done|by eapply calm_read_at]|]. intros Hw. unfold may_write in Hw. rewrite Hlen in Hw.
    destruct (block_write_run (S (length (all_blocks r))) b i s buf r) as (k' & n' & disk' & r1 & Hl' & Hk' & Hn' & E1 & Es & Ed); [done|done|lia|lia|done|].
    rewrite Hl in Hl'. injection Hl' as <- <-. rewrite Hk in Hk'. injection Hk' as <-. exists r1.
    assert (Hr1 : registry_ok r1) by (eapply write_ok; [exact Hr|exact Hk|done|done]).
    split; [done|]. split; [done|]. split; [done|]. split; [done|]. assert (Hlen1 : length (all_blocks r1) = length (all_blocks r)).
    { rewrite <- Hlen, <- Es. symmetry. apply length_fmap. }
    destruct (read_at_run (S (length (all_blocks r))) b i s r1) as (k' & n' & old' & r2 & Hl' & Hold' & E2); [done|by rewrite Es|lia|lia|].
    rewrite Es, Hl in Hl'. injection Hl' as <- <-. exists r2. erewrite bind_ok by reflexivity. rewrite Hlen1, E2. do 2 f_equal.
    rewrite Ed, list_lookup_insert_eq in Hold' by (by eapply lookup_lt_Some). cbn in Hold'.
    rewrite list_lookup_insert_eq in Hold' by done. by injection Hold'.
  - destruct (shape_block _ _ _ Hs) as (d & Hb & <-). cbn in Hd. cbn [block_read_at block_write_at].
    assert (E : check_sector b i r = Fail Panicked) by (rewrite (check_sector_run _ _ _ _ Hb); destruct (Z.leb_spec (b_size d) i); [done|lia]).
    unfold bind at 1. rewrite E. split; [done|]. unfold bind at 1. by rewrite E.
Qed.

(** ** The partition scan *)

(** What a scan of [b] leaves: the disks and the devices there were, and partitions of [b]. *)
Definition grown (b : nat) (r r' : registry) : Prop :=
  registry_ok r' ∧ disks r' = disks r ∧
  ∃ new, shapes r' = shapes r ++ new ∧ Forall (λ s, ∃ start, s_ops s = Partition (mk_part b start)) new.
Definition grows {A} (b : nat) (c : R A) : Prop := ∀ r a r', registry_ok r → c r = Ok (a, r') → grown b r r'.

Lemma grown_trans b r1 r2 r3 : grown b r1 r2 → grown b r2 r3 → grown b r1 r3.
Proof.
  intros (_ & A2 & n1 & A3 & A4) (B1 & B2 & n2 & B3 & B4). split; [done|]. split; [congruence|]. exists (n1 ++ n2).
  rewrite B3, A3, app_assoc. split; [done|]. by apply Forall_app_2.
Qed.
Lemma grows_calm {A} b (c : R A) : calm c → grows b c.
Proof. intros Hc r a r' Hr H. pose proof (Hc _ _ _ H) as Hs. split; [by eapply same_ok|]. destruct Hs as [E1 E2]. split; [done|]. exists []. by rewrite app_nil_r. Qed.
Lemma grows_bind {A B} b (c : R A) (k : A → R B) : grows b c → (∀ a, grows b (k a)) → grows b (bind c k).
Proof. intros Hc Hk r x r' Hr H. run_inv. pose proof (Hc _ _ _ Hr E) as H1. eapply grown_trans; [exact H1|]. eapply Hk; [apply H1|done]. Qed.

Lemma grown_lookup b r r' i s : grown b r r' → shapes r !! i = Some s → shapes r' !! i = Some s.
Proof. intros (_ & _ & new & -> & _). apply lookup_app_l_Some. Qed.

Lemma calm_announce name size extra : calm (announce name size extra).
Proof. unfold announce. calm. Qed.

Lemma register_inv name type extra size ops r i r' : block_register name type extra size ops r = Ok (i, r') →
  shapes r' = shapes r ++ [mk_shape (take 15 name) type size ops] ∧ disks r' = disks r.
Proof.
  unfold block_register. intros H. apply bind_inv in H as (u1 & r1 & E1 & H). apply calm_malloc_or_panic in E1 as [S1 D1].
  apply bind_inv in H as (n & r2 & E2 & H). unfold gets in E2. injection E2 as <- <-.
  apply bind_inv in H as (u & r3 & E3 & H). unfold upd_blocks, modify in E3. injection E3 as <- <-.
  apply bind_inv in H as (u' & r4 & E4 & H). apply calm_announce in E4 as [S2 D2]. unfold ret in H. injection H as <- <-.
  rewrite S2, D2. cbn. unfold shapes in *. cbn. by rewrite fmap_app, S1.
Qed.

Lemma block_size_inv b r z r' : block_size b r = Ok (z, r') → r' = r ∧ ∃ s, shapes r !! b = Some s ∧ z = s_size s.
Proof.
  unfold block_size, get_block, gets. intros H. run_inv. destruct (all_blocks st0 !! b) as [d|] eqn:Hb; [|done]. unfold need, ret in *. run_inv.
  split; [done|]. eexists. unfold shapes. rewrite list_lookup_fmap, Hb. done.
Qed.

Lemma grows_found b type start size nr : 0 <= size < 2 ^ 32 → 0 <= start → grows b (found_partition b type start size nr).
Proof.
  intros Hz H0 r u r' Hr H. unfold found_partition in H. apply bind_inv in H as (dev & r1 & E & H). apply block_size_inv in E as (-> & s & Hs & ->).
  apply bind_inv in H as (name & r2 & E2 & H). pose proof (calm_block_name _ _ _ _ E2) as S2. destruct (Hr _ _ Hs) as [Hsz _].
  destruct (Z.leb_spec (s_size s) start); [eapply grown_trans; [by eapply grows_calm; [apply calm_block_name| |]|eapply grows_calm; [apply calm_printf|by eapply same_ok|done]]|].
  destruct ((u32 (start + size) <? start) || (s_size s <? u32 (start + size))) eqn:Eo.
  { eapply grown_trans; [by eapply grows_calm; [apply calm_block_name| |]|eapply grows_calm; [apply calm_printf|by eapply same_ok|done]]. }
  apply orb_false_iff in Eo as [E3 E4]. apply Z.ltb_ge in E3, E4. assert (Hin : start + size <= s_size s) by mod_lia.
  apply bind_inv in H as (u3 & r3 & F3 & H). apply calm_malloc_or_panic in F3.
  apply bind_inv in H as ([pname len] & r4 & F4 & H). apply calm_lift in F4. apply bind_inv in H as ([info len'] & r5 & F5 & H). apply calm_lift in F5.
  apply bind_inv in H as (i & r6 & F6 & H). unfold ret in H. injection H as _ <-.
  assert (Sa : same r r5) by (eauto using disk_same_trans). destruct Sa as [Sa Da]. apply register_inv in F6 as [Sb Db]. rewrite Sa in Sb. rewrite Da in Db.
  split; [|split; [done|eexists; split; [exact Sb|]; constructor; [by eexists|done]]].
  intros j sj Hj. rewrite Sb, Db in *. apply lookup_app_Some in Hj as [Hj|[Hge Hj]].
  - destruct (Hr _ _ Hj) as [? Ho]. split; [done|]. destruct (s_ops sj) as [k|p]; [done|]. destruct Ho as (? & ? & s' & Hs' & ?).
    split; [done|]. split; [done|]. exists s'. split; [by apply lookup_app_l_Some|done].
  - apply list_lookup_singleton_Some in Hj as [Hj <-]. split; [done|]. cbn. pose proof (lookup_lt_Some _ _ _ Hs).
    split; [lia|]. split; [done|]. exists s. split; [by apply lookup_app_l_Some|done].
Qed.

Definition entries_u32 (es : list entry) : Prop := Forall (λ e, 0 <= e_size e < 2 ^ 32) es.

Lemma grows_entries table b sector primary es nr : (∀ x y z, grows b (table x y z)) → entries_u32 es → grows b (parse_entries table b sector primary es nr).
Proof.
  intros Ht He. revert nr. induction He as [|e es He _ IH]; intros nr; cbn [parse_entries]; [apply grows_calm, calm_ret|].
  destruct (_ || _); [apply IH|]. destruct (is_extended _).
  - apply grows_bind; [apply grows_calm, calm_block_name|intros name]. apply grows_bind; [apply grows_calm, calm_printf|intros _].
    apply grows_bind; [by destruct (sector =? 0)|intros nr']. apply IH.
  - apply grows_bind; [|intros _; apply IH]. apply grows_found; [done|]. apply (proj1 (u32_range _)).
Qed.

Lemma entries_of_u32 pt : entries_u32 (entry_of pt <$> seq 0 4).
Proof. unfold entries_u32. apply Forall_fmap, Forall_true. intros i. apply u32_range. Qed.

Lemma grows_table depth b sector primary nr : grows b (read_partition_table depth b sector primary nr).
Proof.
  revert sector primary nr. induction depth as [|depth IH]; intros sector primary nr; cbn [read_partition_table]; [apply grows_calm, calm_fail|].
  apply grows_bind; [apply grows_calm, calm_block_size|intros size]. apply grows_bind; [apply grows_calm, calm_block_name|intros name].
  destruct (size <=? sector); [apply grows_calm; calm|]. apply grows_bind; [apply grows_calm, calm_malloc_or_panic|intros _].
  apply grows_bind; [apply grows_calm, calm_read|intros pt]. destruct (signature pt =? 43605); [|apply grows_calm; calm].
  apply grows_entries; [done|apply entries_of_u32].
Qed.

(** A partition scan keeps every device and disk as it was, and every partition that it
    adds lies inside the device that was scanned. *)
Theorem partition_scan_inside depth b r r' :
  registry_ok r → partition_scan depth b r = Ok (tt, r') →
  registry_ok r' ∧ disks r' = disks r ∧
  ∃ new, shapes r' = shapes r ++ new ∧
    ∀ s, s ∈ new → ∃ start dev, s_ops s = Partition (mk_part b start) ∧ shapes r !! b = Some dev ∧ 0 <= start ∧ start + s_size s <= s_size dev.
Proof.
  intros Hr H. assert (Hg : grown b r r' ∧ ∃ dev, shapes r !! b = Some dev).
  { unfold partition_scan in H. apply bind_inv in H as (nr & r1 & E & H). pose proof (grows_table _ _ _ _ _ _ _ _ Hr E) as H1. split.
    - eapply grown_trans; [exact H1|]. eapply grows_calm; [|apply H1|exact H]. destruct (nr =? 0); calm.
    - destruct depth; [done|]. cbn [read_partition_table] in E. apply bind_inv in E as (z & r2 & E & _). apply block_size_inv in E as (_ & s & Hs & _). eauto. }
  destruct Hg as ((Hok & Hd & new & Hn & Hp) & dev & Hdev). split; [done|]. split; [done|]. exists new. split; [done|]. intros s Hs.
  rewrite Forall_forall in Hp. destruct (Hp s Hs) as [start Ho]. apply list_elem_of_lookup in Hs as [i Hi].
  destruct (Hok (length (shapes r) + i)%nat s) as [_ H1]; [rewrite Hn, lookup_app_r by lia; by rewrite Nat.add_comm, Nat.add_sub|].
  rewrite Ho in H1. destruct H1 as (H2 & H3 & dev' & H4 & H5). exists start, dev. rewrite Hn in H4. cbn in H4.
  rewrite (lookup_app_l_Some _ _ _ _ Hdev) in H4. injection H4 as <-. done.
Qed.

(** Takes a run of the loop over the entries apart, up to an extended entry. *)
Lemma parse_entries_reaches table b sector primary es nr r nr' r' e :
  (∀ x y z, grows b (table x y z)) → entries_u32 es → registry_ok r → parse_entries table b sector primary es nr r = Ok (nr', r') →
  e ∈ es → e_size e ≠ 0 → is_extended (e_type e) = true →
  ∃ r1 nr1 nr2 r2, grown b r r1 ∧
    (if sector =? 0 then table (e_offset e) (e_offset e) nr1 else table (u32 (e_offset e + primary)) primary nr1) r1 = Ok (nr2, r2).
Proof.
  intros Ht He. revert nr r. induction He as [|e' es He' Hes IH]; intros nr r Hr H Hin Hz Hx; [by apply not_elem_of_nil in Hin|].
  cbn [parse_entries] in H. apply elem_of_cons in Hin as [->|Hin].
  - destruct (Z.eqb_spec (e_size e') 0); [done|]. destruct (Z.eqb_spec (e_type e') 0) as [E|]; [by rewrite E in Hx|]. cbn [orb] in H. rewrite Hx in H.
    apply bind_inv in H as (name & r1 & E1 & H). apply bind_inv in H as (u & r2 & E2 & H). apply bind_inv in H as (nr1 & r3 & E3 & H).
    exists r2, nr, nr1, r3. split; [|done].
    pose proof (grows_calm b _ (calm_block_name b) _ _ _ Hr E1) as G1. eapply grown_trans; [exact G1|]. eapply grows_calm; [apply calm_printf|apply G1|done].
  - destruct ((e_size e' =? 0) || (e_type e' =? 0)); [by eapply IH|]. destruct (is_extended (e_type e')).
    + apply bind_inv in H as (name & r1 & E1 & H). apply bind_inv in H as (u & r2 & E2 & H). apply bind_inv in H as (nr1 & r3 & E3 & H).
      assert (G : grown b r r3).
      { pose proof (grows_calm b _ (calm_block_name b) _ _ _ Hr E1) as G1. eapply grown_trans; [exact G1|].
        pose proof (grows_calm b _ (calm_printf _ _) _ _ _ (proj1 G1) E2) as G2. eapply grown_trans; [exact G2|].
        destruct (sector =? 0); eapply Ht; [apply G2|done|apply G2|done]. }
      destruct (IH _ _ (proj1 G) H Hin Hz Hx) as (r4 & a1 & a2 & r5 & G4 & E4). exists r4, a1, a2, r5. split; [by eapply grown_trans|done].
    + apply bind_inv in H as (u & r3 & E3 & H). assert (G : grown b r r3).
      { eapply (grows_found b _ (u32 (e_offset e' + sector))); [exact He'|destruct (u32_range (e_offset e' + sector)); lia|done|exact E3]. }
      destruct (IH _ _ (proj1 G) H Hin Hz Hx) as (r4 & a1 & a2 & r5 & G4 & E4). exists r4, a1, a2, r5. split; [by eapply grown_trans|done].
Qed.

(** The device [b] is a drive, and [pt] is what its first sector holds. *)
Definition first_sector (b : nat) (z : Z) (pt : list Z) (r : registry) : Prop :=
  registry_ok r ∧ ∃ s k disk, shapes r !! b = Some s ∧ s_size s = z ∧ s_ops s = Driver k ∧ disks r !! k = Some disk ∧ disk !! O = Some pt.

Lemma first_sector_grown b z pt r r' : first_sector b z pt r → grown b r r' → first_sector b z pt r'.
Proof.
  intros (Hr & s & k & disk & H1 & H2 & H3 & H4 & H5) Hg. split; [apply Hg|]. exists s, k, disk.
  split; [by eapply grown_lookup|]. destruct Hg as (_ & -> & _). done.
Qed.

(** Whatever sector a table is looked for in, it is the first sector that is read. *)
Lemma read_zero b z pt r buf r' : first_sector b z pt r → 0 < z → block_read b 0 r = Ok (buf, r') → buf = pt.
Proof.
  intros (Hr & s & k & disk & H1 & H2 & H3 & H4 & H5) Hz H. unfold block_read, gets in H. erewrite bind_ok in H by reflexivity.
  assert (Hlen : length (shapes r) = length (all_blocks r)) by apply length_fmap. pose proof (lookup_lt_Some _ _ _ H1).
  destruct (read_at_run (S (length (all_blocks r))) b 0 s r) as (k' & n & buf' & r1 & Hl & Hb & E); [done|done|lia|lia|].
  rewrite E in H. injection H as <- <-. cbn [locate] in Hl. rewrite H1 in Hl. cbn in Hl. rewrite H3 in Hl. injection Hl as <- <-.
  rewrite H4 in Hb. change (disk !! O = Some buf') in Hb. congruence.
Qed.

Lemma table_reaches depth b z pt e sector primary nr r nr' r' :
  first_sector b z pt r → signature pt = 43605 → e ∈ entry_of pt <$> seq 0 4 → e_size e ≠ 0 → is_extended (e_type e) = true → 0 <= sector < z →
  read_partition_table depth b sector primary nr r = Ok (nr', r') →
  ∃ depth' r1 nr1 nr2 r2, (depth' < depth)%nat ∧ first_sector b z pt r1 ∧
    (if sector =? 0 then read_partition_table depth' b (e_offset e) (e_offset e) nr1
     else read_partition_table depth' b (u32 (e_offset e + primary)) primary nr1) r1 = Ok (nr2, r2).
Proof.
  intros Hf Hsig He Hz Hx Hs H. destruct depth as [|depth]; [done|].
  assert (Hstep : ∀ {A} (c : R A) r a r1, calm c → first_sector b z pt r → c r = Ok (a, r1) → first_sector b z pt r1).
  { intros A c r0 a r1 Hc Hf0 E. eapply first_sector_grown; [exact Hf0|]. eapply grows_calm; [exact Hc|apply Hf0|exact E]. }
  cbn [read_partition_table] in H. apply bind_inv in H as (size & r1 & E1 & H).
  assert (Hsize : size = z). { apply block_size_inv in E1 as (_ & s & Hs' & ->). destruct Hf as (_ & s2 & k & disk & H1 & <- & _). congruence. }
  pose proof (Hstep _ _ _ _ _ (calm_block_size b) Hf E1) as F1. apply bind_inv in H as (name & r2 & E2 & H).
  pose proof (Hstep _ _ _ _ _ (calm_block_name b) F1 E2) as F2. subst size. destruct (Z.leb_spec z sector); [lia|].
  apply bind_inv in H as (u & r3 & E3 & H). pose proof (Hstep _ _ _ _ _ calm_malloc_or_panic F2 E3) as F3.
  apply bind_inv in H as (buf & r4 & E4 & H). pose proof (Hstep _ _ _ _ _ (calm_read b 0) F3 E4) as F4.
  apply (read_zero b z pt) in E4; [|done|lia]. subst buf. destruct (Z.eqb_spec (signature pt) 43605); [|done].
  destruct (parse_entries_reaches _ _ _ _ _ _ _ _ _ e (grows_table depth b) (entries_of_u32 pt) (proj1 F4) H He Hz Hx) as (r5 & a1 & a2 & r6 & G & E5).
  exists depth, r5, a1, a2, r6. split; [lia|]. split; [by eapply first_sector_grown|exact E5].
Qed.

Lemma nested_table_diverges depth b z pt e sector primary nr r nr' r' :
  first_sector b z pt r → signature pt = 43605 → e ∈ entry_of pt <$> seq 0 4 → e_size e ≠ 0 → is_extended (e_type e) = true →
  0 < e_offset e → e_offset e + primary < z → 0 < primary → 0 < sector < z →
  read_partition_table depth b sector primary nr r ≠ Ok (nr', r').
Proof.
  intros Hf Hsig He Hz Hx Ho Hin Hp Hs. revert sector nr r nr' r' Hf Hs. induction depth as [depth IH] using lt_wf_ind. intros sector nr r nr' r' Hf Hs H.
  assert (Hzr : z < 2 ^ 32). { destruct Hf as (Hr & s & k & disk & H1 & <- & _). destruct (Hr _ _ H1) as [? _]. lia. }
  destruct (table_reaches depth b z pt e sector primary nr r nr' r') as (depth' & r1 & a1 & a2 & r2 & Hd & F & E); try done; [lia|].
  destruct (Z.eqb_spec sector 0); [lia|]. rewrite u32_id in E by (unfold in_u32; lia). revert E. apply IH; [done|done|lia].
Qed.

(** C26: the scan of a drive whose partition table, in its first sector, is signed and has an
    extended partition that is not empty and starts after sector 0 and in the first half of
    the drive ([2 * offset < size]) never returns, at any depth of recursion: every nested
    table is read from the first sector again, where the extended partition is found again,
    and its sector, [offset + offset], is always inside the drive.  (For a partition that
    starts in the second half that sector is past the end, and the recursion stops there.) *)
Theorem extended_scan_diverges b z pt e r :
  first_sector b z pt r → signature pt = 43605 → e ∈ entry_of pt <$> seq 0 4 → e_size e ≠ 0 → is_extended (e_type e) = true →
  0 < e_offset e → 2 * e_offset e < z → ∀ depth r', partition_scan depth b r ≠ Ok (tt, r').
Proof.
  intros Hf Hsig He Hz Hx Ho H2 depth r' H. unfold partition_scan in H. apply bind_inv in H as (nr & r1 & E & _).
  destruct (table_reaches depth b z pt e 0 0 0 r nr r1) as (depth' & r2 & a1 & a2 & r3 & _ & F & E2); try done; [lia|].
  revert E2. by apply (nested_table_diverges depth' b z pt e); try done; lia.
Qed.

(** ** Examples *)

(** A drive of eight sectors; its first sector is a partition table. *)
Definition table_entry (type offset size : Z) : list Z := [0; 0; 0; 0; type; 0; 0; 0] ++ le32 offset ++ le32 size.
Definition table (es : list (list Z)) : list Z :=
  replicate 446 0 ++ concat es ++ replicate (64 - 16 * length es) 0 ++ [85; 170].
Definition drive (es : list (list Z)) : registry :=
  mk_reg [mk_block (chars "hda") BLOCK_RAW 8 (Driver 0) 0 0] [None; None; None; None] [table es :: replicate 7 (replicate 512 7)] [] [].

Lemma drive_ok es : registry_ok (drive es).
Proof. intros [|i] s Hs; [|by destruct i]. injection Hs as <-. split; [cbn; lia|]. cbn. eexists. split; [reflexivity|done]. Qed.

(** A file system in sectors 2 to 5 and a swap partition that ends beyond the drive. *)
Definition plain_drive : registry := drive [table_entry 33 2 4; table_entry 35 6 9].

Example scan_text : ∃ r, partition_scan 1 0 plain_drive = Ok (tt, r) ∧
  shapes r = shapes plain_drive ++ [mk_shape (chars "hda1") BLOCK_FILESYS 4 (Partition (mk_part 0 2))] ∧
  printed r = chars "hda1: 4 sectors (2 kB), Pintos file system (21)" ++ [10] ++ chars "hda2: Partition end (15) past end of device (8)" ++ [10].
Proof. eexists. split; [vm_compute; reflexivity|]. vm_compute. done. Qed.

Lemma partition_scan_inside_witness : ∃ r', partition_scan 1 0 plain_drive = Ok (tt, r') ∧ registry_ok r' ∧ disks r' = disks plain_drive ∧
  ∃ new, shapes r' = shapes plain_drive ++ new ∧
    ∀ s, s ∈ new → ∃ start dev, s_ops s = Partition (mk_part 0 start) ∧ shapes plain_drive !! O = Some dev ∧ 0 <= start ∧ start + s_size s <= s_size dev.
Proof.
  destruct (partition_scan 1 0 plain_drive) as [[[] r']|] eqn:E; [|exfalso; revert E; vm_compute; discriminate].
  exists r'. split; [done|]. apply (partition_scan_inside 1 0 plain_drive r'); [apply drive_ok|exact E].
Defined.

Lemma extended_scan_diverges_witness : signature (table [table_entry 5 2 3]) = 43605 ∧
  ∀ depth r', partition_scan depth 0 (drive [table_entry 5 2 3]) ≠ Ok (tt, r').
Proof.
  assert (He : entry_of (table [table_entry 5 2 3]) <$> seq 0 4 = [mk_entry 5 2 3; mk_entry 0 0 0; mk_entry 0 0 0; mk_entry 0 0 0]) by (vm_compute; reflexivity).
  assert (Hs : signature (table [table_entry 5 2 3]) = 43605) by (vm_compute; reflexivity).
  assert (Hf : first_sector 0 8 (table [table_entry 5 2 3]) (drive [table_entry 5 2 3])).
  { split; [apply drive_ok|]. by exists (mk_shape (chars "hda") BLOCK_RAW 8 (Driver 0)), O, (table [table_entry 5 2 3] :: replicate 7 (replicate 512 7)). }
  split; [exact Hs|]. apply (extended_scan_diverges 0 8 (table [table_entry 5 2 3]) (mk_entry 5 2 3) (drive [table_entry 5 2 3]) Hf Hs);
    [rewrite He; apply list_elem_of_here|cbn; lia|reflexivity|cbn; lia|cbn; lia].
Defined.

Lemma partition_io_witness :
  let r := mk_reg [mk_block (chars "hda") BLOCK_RAW 8 (Driver 0) 0 0; mk_block (chars "hda1") BLOCK_FILESYS 4 (Partition (mk_part 0 2)) 0 0]
             [None; None; None; None] [replicate 8 (replicate 512 7)] [] [] in
  ∃ k n disk old, location r 1 3 = Some (k, n) ∧ location r 0 (2 + 3) = Some (k, n) ∧ disks r !! k = Some disk ∧ disk !! Z.to_nat n = Some old ∧
    (∃ r', block_read 1 3 r = Ok (old, r') ∧ same r r') ∧
    (may_write r 1 = true → ∃ r', block_write 1 3 (replicate 512 9) r = Ok (tt, r') ∧ shapes r' = shapes r ∧ registry_ok r' ∧
       disks r' = <[k := <[Z.to_nat n := replicate 512 9]> disk]> (disks r) ∧ ∃ r'', block_read 1 3 r' = Ok (replicate 512 9, r'')).
Proof.
  intros r. assert (Hr : registry_ok r).
  { intros [|[|i]] s Hs; [| |by destruct i]; injection Hs as <-; (split; [cbn; lia|]); cbn; [eexists; split; [reflexivity|done]|].
    split; [lia|]. split; [lia|]. eexists. split; [reflexivity|cbn; lia]. }
  exact (partition_io r 1 _ (mk_part 0 2) 3 (replicate 512 9) Hr eq_refl eq_refl ltac:(lia)).
Defined.
