(* ===== verification/Cmdline.v ===== *)
(** * The kernel's command line (src/threads/init.c and loader.h)

    [read_command_line] works on the loader's bytes in memory.  [parse_options] and
    [run_actions] take the words as byte strings; the conditional parts of the code depend
    on the [config] the kernel was built with. *)

From S2P Require Import Prelude Rtc Random Stdio Strings StringSpec StdlibC.
Local Open Scope Z_scope.

(** ** Words of the command line *)

Definition LOADER_PHYS_BASE : Z := 3221225472.
Definition LOADER_END : Z := 32256.
Definition LOADER_SIG : Z := LOADER_END - 2.
Definition LOADER_PARTS : Z := LOADER_SIG - 64.
Definition LOADER_ARGS_LEN : Z := 128.
Definition LOADER_ARGS : Z := LOADER_PARTS - LOADER_ARGS_LEN.
Definition LOADER_ARG_CNT : Z := LOADER_ARGS - 4.

Definition load32 (a : Z) : B Z :=
  let* b0 := load a in let* b1 := load (a + 1) in let* b2 := load (a + 2) in let* b3 := load (a + 3) in
  ret (from_le32 [b0; b1; b2; b3]).

(** [argv[i] = p] *)
Definition put (argv : list Z) (i p : Z) : B (list Z) :=
  if (0 <=? i) && (i <? Z.of_nat (length argv)) then ret (<[Z.to_nat i := p]> argv) else fail Undef.

(** The loop over the arguments; [n] of them are left. *)
Fixpoint split_args (n : nat) (i p stop : Z) (argv : list Z) : B (list Z) :=
  match n with
  | O => ret argv
  | S n' =>
      if stop <=? p then fail Panicked
      else
        let* argv := put argv i p in
        let* l := strnlen p (stop - p) in
        split_args n' (i + 1) (p + (l + 1)) stop argv
  end.

(** What [%s] prints for a pointer. *)
Fixpoint string_loop (fuel : nat) (p : Z) : B (list Z) :=
  match fuel with
  | O => fail NoFuel
  | S fuel => let* x := load p in if x =? 0 then ret [] else let* r := string_loop fuel (p + 1) in ret (x :: r)
  end.
Definition string_at (p : Z) : B (list Z) := let* n := rounds in string_loop n p.

(** The loop that prints the arguments. *)
Fixpoint print_args (n : nat) (i : Z) (argv : list Z) : B (list Z) :=
  match n with
  | O => ret []
  | S n' =>
      let* p := need (argv !! Z.to_nat i) in
      let* space := strchr p 32 in
      let* s := string_at p in
      let* out := lift (vprintf (if space =? null then chars " %s" else chars " '%s'") [Str (Some s)]) in
      let* more := print_args n' (i + 1) argv in
      ret (out ++ more)
  end.

(** Returns [argv] and the line that is printed. *)
Definition read_command_line : B (list Z * list Z) :=
  let* cnt := load32 (LOADER_PHYS_BASE + LOADER_ARG_CNT) in
  let argc := s32 cnt in
  let p := LOADER_PHYS_BASE + LOADER_ARGS in
  let* argv := split_args (Z.to_nat argc) 0 p (p + LOADER_ARGS_LEN) (replicate 65 null) in
  let* argv := put argv argc null in
  let* out := print_args (Z.to_nat argc) 0 argv in
  ret (argv, chars "Kernel command line:" ++ out ++ [10]).

(** ** Options *)

Record config := mk_config { FILESYS : bool; VM : bool; USERPROG : bool }.

Inductive shutdown_type := SHUTDOWN_NONE | SHUTDOWN_POWER_OFF | SHUTDOWN_REBOOT.

(** [clock] holds what the next accesses to the real-time clock find. *)
Record options := mk_options {
  how : shutdown_type;
  format_filesys : bool;
  filesys_bdev_name : option (list Z); scratch_bdev_name : option (list Z); swap_bdev_name : option (list Z);
  thread_mlfqs : bool; thread_prior_aging : bool;
  user_page_limit : Z;
  rand : option rc4;
  clock : list (Z → Z)
}.

Notation O := (M options).

Definition shutdown_configure t : O unit := modify (λ o, mk_options t (format_filesys o) (filesys_bdev_name o) (scratch_bdev_name o)
  (swap_bdev_name o) (thread_mlfqs o) (thread_prior_aging o) (user_page_limit o) (rand o) (clock o)).
Definition set_format : O unit := modify (λ o, mk_options (how o) true (filesys_bdev_name o) (scratch_bdev_name o)
  (swap_bdev_name o) (thread_mlfqs o) (thread_prior_aging o) (user_page_limit o) (rand o) (clock o)).
Definition set_filesys x : O unit := modify (λ o, mk_options (how o) (format_filesys o) x (scratch_bdev_name o)
  (swap_bdev_name o) (thread_mlfqs o) (thread_prior_aging o) (user_page_limit o) (rand o) (clock o)).
Definition set_scratch x : O unit := modify (λ o, mk_options (how o) (format_filesys o) (filesys_bdev_name o) x
  (swap_bdev_name o) (thread_mlfqs o) (thread_prior_aging o) (user_page_limit o) (rand o) (clock o)).
Definition set_swap x : O unit := modify (λ o, mk_options (how o) (format_filesys o) (filesys_bdev_name o) (scratch_bdev_name o)
  x (thread_mlfqs o) (thread_prior_aging o) (user_page_limit o) (rand o) (clock o)).
Definition set_mlfqs : O unit := modify (λ o, mk_options (how o) (format_filesys o) (filesys_bdev_name o) (scratch_bdev_name o)
  (swap_bdev_name o) true (thread_prior_aging o) (user_page_limit o) (rand o) (clock o)).
Definition set_aging : O unit := modify (λ o, mk_options (how o) (format_filesys o) (filesys_bdev_name o) (scratch_bdev_name o)
  (swap_bdev_name o) (thread_mlfqs o) true (user_page_limit o) (rand o) (clock o)).
Definition set_limit x : O unit := modify (λ o, mk_options (how o) (format_filesys o) (filesys_bdev_name o) (scratch_bdev_name o)
  (swap_bdev_name o) (thread_mlfqs o) (thread_prior_aging o) x (rand o) (clock o)).
Definition seed_with (seed : Z) : O unit :=
  let* r := lift (random_init seed) in
  modify (λ o, mk_options (how o) (format_filesys o) (filesys_bdev_name o) (scratch_bdev_name o)
    (swap_bdev_name o) (thread_mlfqs o) (thread_prior_aging o) (user_page_limit o) (Some r) (clock o)).

Definition read_clock : O Z := λ o,
  match rtc_get_time (clock o) with
  | Ok (t, c) => Ok (t, mk_options (how o) (format_filesys o) (filesys_bdev_name o) (scratch_bdev_name o)
      (swap_bdev_name o) (thread_mlfqs o) (thread_prior_aging o) (user_page_limit o) (rand o) c)
  | Fail f => Fail f
  end.

(** [strtok_r] on a string: the token and what is left after it. *)
Definition strtok (d s : list Z) : option (list Z * list Z) :=
  match skip d s with [] => None | s' => Some (word d s', drop (S (length (word d s'))) s') end.

(** [atoi] of a string, or of a null pointer. *)
Definition atoi_value (value : option (list Z)) : res Z :=
  match value with
  | None => let? (n, _) := atoi null ∅ in Ok n
  | Some s => let? (n, _) := atoi 1 (list_to_map (zip (seqZ 1 (Z.of_nat (length s) + 1)) (s ++ [0]))) in Ok n
  end.

Definition named (name : list Z) (s : String.string) : bool := bool_decide (name = chars s).
Arguments named name s%_string.

Section parsing.
Context (c : config).

(** The chain of comparisons; false when [usage] has powered the machine off. *)
Definition apply_option (name : list Z) (value : option (list Z)) : O bool :=
  if named name "-h" then ret false
  else if named name "-q" then shutdown_configure SHUTDOWN_POWER_OFF ;;; ret true
  else if named name "-r" then shutdown_configure SHUTDOWN_REBOOT ;;; ret true
  else if FILESYS c && named name "-f" then set_format ;;; ret true
  else if FILESYS c && named name "-filesys" then set_filesys value ;;; ret true
  else if FILESYS c && named name "-scratch" then set_scratch value ;;; ret true
  else if FILESYS c && VM c && named name "-swap" then set_swap value ;;; ret true
  else if named name "-rs" then let* n := lift (atoi_value value) in seed_with n ;;; ret true
  else if named name "-mlfqs" then set_mlfqs ;;; ret true
  else if negb (USERPROG c) && named name "-aging" then set_aging ;;; ret true
  else if USERPROG c && named name "-ul" then let* n := lift (atoi_value value) in set_limit (u32 n) ;;; ret true
  else fail Panicked.

(** Returns the words after the options, or nothing when the machine was powered off. *)
Fixpoint parse_words (argv : list (list Z)) : O (option (list (list Z))) :=
  match argv with
  | [] => ret (Some [])
  | a :: argv' =>
      if bool_decide (head a = Some 45) then
        match strtok (chars "=") a with
        | None => fail AssertFailed
        | Some (name, rest) =>
            let* go := apply_option name (fst <$> strtok [] rest) in
            if go then parse_words argv' else ret None
        end
      else ret (Some argv)
  end.

Definition parse_options (argv : list (list Z)) : O (option (list (list Z))) :=
  let* rest := parse_words argv in
  match rest with
  | None => ret None
  | Some argv => let* t := read_clock in seed_with t ;;; ret (Some argv)
  end.

(** ** Actions *)

(** The table of actions: the name and the number of words. *)
Definition actions : list (String.string * nat) :=
  [("run"%string, 2%nat)] ++
  (if FILESYS c then [("ls"%string, 1%nat); ("cat"%string, 2%nat); ("rm"%string, 2%nat); ("extract"%string, 1%nat); ("append"%string, 2%nat)] else []).

Definition find_action (name : list Z) : option nat := snd <$> find (λ a, named name a.1) actions.

(** [perform argv] is the call of the action's function; its words are the only ones it
    looks at.  Every round takes at least one word. *)
Fixpoint run_actions {S} (perform : list (list Z) → M S unit) (fuel : nat) (argv : list (list Z)) : M S unit :=
  match fuel with
  | Datatypes.O => fail NoFuel
  | Datatypes.S fuel =>
      match argv with
      | [] => ret tt
      | a :: _ =>
          match find_action a with
          | None => fail Panicked
          | Some argc =>
              if (length argv <? argc)%nat then fail Panicked
              else perform (take argc argv) ;;; run_actions perform fuel (drop argc argv)
          end
      end
  end.
End parsing.

Definition sample_options : options := mk_options SHUTDOWN_NONE false None None None false false (2 ^ 32 - 1) None (replicate 7 (registers (date_after 10) 5)).

Example options_parsed : ∃ o,
  parse_options (mk_config true true true) [chars "-q"; chars "-filesys=hda1"; chars "-ul=20"; chars "run"; chars "-x"] sample_options = Ok (Some [chars "run"; chars "-x"], o) ∧
  how o = SHUTDOWN_POWER_OFF ∧ filesys_bdev_name o = Some (chars "hda1") ∧ user_page_limit o = 20.
Proof. eexists. split; [vm_compute; reflexivity|]. vm_compute. done. Qed.
