(* ===== verification/CmdlineSpec.v ===== *)
(** * The command line is understood as documented

    The words the loader left in memory reach [argv], the options among them set exactly
    what they name, and the remaining words are performed as a sequence of actions. *)

From S2P Require Import Prelude Rtc Random Stdio Strings StringSpec StdlibC StdioSpec Cmdline.
Local Open Scope Z_scope.

(** ** Words of the command line *)

Definition bytes_at (m : bytes_mem) (a : Z) (bs : list Z) : Prop := ∀ i b, bs !! i = Some b → m !! (a + Z.of_nat i) = Some b.

(** How the loader stores words: each with its terminator. *)
Definition encode (ws : list (list Z)) : list Z := concat ((λ w, w ++ [0]) <$> ws).
Definition word_ok (w : list Z) : Prop := Forall (λ b, b ≠ 0) w.

Definition quoted (w : list Z) : list Z := if mem_of 32 w then chars " '" ++ w ++ chars "'" else 32 :: w.

Definition loaded (m : bytes_mem) (ws : list (list Z)) : Prop :=
  bytes_at m (LOADER_PHYS_BASE + LOADER_ARG_CNT) (le32 (Z.of_nat (length ws))) ∧
  bytes_at m (LOADER_PHYS_BASE + LOADER_ARGS) (encode ws).

Lemma bytes_at_app m a l1 l2 : bytes_at m a (l1 ++ l2) → bytes_at m a l1 ∧ bytes_at m (a + len l1) l2.
Proof.
  intros H. split; intros i b Hi.
  - apply H. by apply lookup_app_l_Some.
  - replace (a + len l1 + Z.of_nat i) with (a + Z.of_nat (length l1 + i)) by lia. apply H.
    rewrite lookup_app_r by lia. by replace (length l1 + i - length l1)%nat with i by lia.
Qed.

Lemma bytes_at_str m p w : bytes_at m p (w ++ [0]) → word_ok w → str m p w.
Proof.
  intros H Hw. revert p H. induction Hw as [|b w Hb Hw IH]; intros p H; cbn.
  - specialize (H 0%nat 0 eq_refl). by rewrite Z.add_0_r in H.
  - split; [specialize (H 0%nat b eq_refl); by rewrite Z.add_0_r in H|]. split; [done|]. apply IH. intros i x Hi.
    specialize (H (S i) x Hi). by replace (p + 1 + Z.of_nat i) with (p + Z.of_nat (S i)) by lia.
Qed.

Lemma strnlen_str m p l maxlen : str m p l → len l <= maxlen → strnlen p maxlen m = Ok (len l, m).
Proof.
  intros Hs Hm. unfold strnlen. rewrite (bind_ok _ _ _ _ _ (rounds_ok m)). pose proof (str_size m p l Hs) as Hsz.
  assert (H : ∀ fuel k, 0 <= k <= len l → len l - k < Z.of_nat fuel → strnlen_loop fuel p maxlen k m = Ok (len l, m)); [|apply H; lia].
  pose proof (str_nonzero m p l Hs) as Hnz. induction fuel as [|fuel IH]; intros k Hk Hf; [lia|]. cbn [strnlen_loop].
  rewrite (bind_ok _ _ _ _ _ (load_ok _ _ _ (str_lookup m p l k Hs Hk))). destruct (decide (k = len l)) as [->|Hne].
  - rewrite nth_overflow by lia. done.
  - rewrite (proj2 (Z.ltb_lt k maxlen)) by lia. destruct (Z.eqb_spec (nth (Z.to_nat k) l 0) 0) as [E|]; [|apply IH; lia].
    exfalso. rewrite Forall_forall in Hnz. apply (Hnz (nth (Z.to_nat k) l 0)); [|done].
    apply list_elem_of_lookup. exists (Z.to_nat k). rewrite nth_lookup. destruct (lookup_lt_is_Some_2 l (Z.to_nat k)) as [x ->]; [lia|done].
Qed.

Lemma put_ok argv i p m : 0 <= i < len argv → put argv i p m = Ok (<[Z.to_nat i := p]> argv, m).
Proof. intros Hi. unfold put. rewrite (proj2 (Z.leb_le _ _)), (proj2 (Z.ltb_lt _ _)) by lia. done. Qed.

Lemma put_outside argv i p m : len argv <= i → put argv i p m = Fail Undef.
Proof. intros Hi. unfold put. rewrite andb_false_intro2; [done|]. by apply Z.ltb_ge. Qed.

(** The array holds the words from [i] on. *)
Definition holds (m : bytes_mem) (argv : list Z) (i : nat) (ws : list (list Z)) : Prop :=
  ∀ j w, ws !! j = Some w → ∃ q, argv !! (i + j)%nat = Some q ∧ placed_str m q w.

Lemma split_step n m ws w i p stop argv : bytes_at m p (encode (w :: ws)) → word_ok w → 0 < p → p + len (encode (w :: ws)) <= stop → 0 <= i < len argv →
  placed_str m p w ∧ bytes_at m (p + (len w + 1)) (encode ws) ∧ p + (len w + 1) + len (encode ws) <= stop ∧
  split_args (S n) i p stop argv m = split_args n (i + 1) (p + (len w + 1)) stop (<[Z.to_nat i := p]> argv) m.
Proof.
  intros Hb Hw Hp Hstop Hi. unfold encode in *. cbn [fmap list_fmap concat] in *.
  apply bytes_at_app in Hb as [Hb1 Hb2]. rewrite length_app in Hstop. rewrite length_app in Hb2, Hstop. cbn [length] in *.
  pose proof (bytes_at_str m p w Hb1 Hw) as Hs. split; [done|]. split; [by replace (len w + 1) with (Z.of_nat (length w + 1)) by lia|]. split; [lia|].
  cbn [split_args]. rewrite (proj2 (Z.leb_gt _ _)) by lia. rewrite (bind_ok _ _ _ _ _ (put_ok argv i p m Hi)).
  by rewrite (bind_ok _ _ _ _ _ (strnlen_str m p w (stop - p) Hs ltac:(lia))).
Qed.

Lemma split_args_run m stop ws : Forall word_ok ws → ∀ i p argv,
  bytes_at m p (encode ws) → 0 < p → p + len (encode ws) <= stop → 0 <= i → i + len ws <= len argv →
  ∃ argv', split_args (length ws) i p stop argv m = Ok (argv', m) ∧ length argv' = length argv ∧ holds m argv' (Z.to_nat i) ws ∧
    (∀ j, (j < Z.to_nat i)%nat → argv' !! j = argv !! j).
Proof.
  induction 1 as [|w ws Hw Hws IH]; intros i p argv Hb Hp Hstop Hi Hn; cbn [length] in Hn.
  - exists argv. split; [done|]. split; [done|]. split; [|done]. intros j w Hj. done.
  - cbn [length]. destruct (split_step (length ws) m ws w i p stop argv Hb Hw Hp Hstop) as (Hs & Hb' & Hstop' & ->); [lia|].
    destruct (IH (i + 1) (p + (len w + 1)) (<[Z.to_nat i := p]> argv) Hb') as (argv' & E & Hl & Hh & Hk);
      [lia|lia|lia|rewrite length_insert; lia|]. rewrite length_insert in Hl.
    exists argv'. split; [exact E|]. split; [done|]. replace (Z.to_nat (i + 1)) with (S (Z.to_nat i)) in * by lia. split.
    + intros [|j] w' Hj.
      * injection Hj as <-. exists p. split; [|done]. rewrite Nat.add_0_r, Hk by lia. apply list_lookup_insert_eq. lia.
      * destruct (Hh j w' Hj) as (q & Hq & Hs'). exists q. split; [|done]. by replace (Z.to_nat i + S j)%nat with (S (Z.to_nat i) + j)%nat by lia.
    + intros j Hj. rewrite Hk by lia. apply list_lookup_insert_ne. lia.
Qed.

(** More words than the array has room for. *)
Lemma split_args_overflow m stop ws : Forall word_ok ws → ∀ i p argv,
  bytes_at m p (encode ws) → 0 < p → p + len (encode ws) <= stop → 0 <= i <= len argv → len argv < i + len ws →
  split_args (length ws) i p stop argv m = Fail Undef.
Proof.
  induction 1 as [|w ws Hw Hws IH]; intros i p argv Hb Hp Hstop Hi Hn; cbn [length] in Hn; [lia|].
  cbn [length]. destruct (decide (i = len argv)) as [->|].
  - cbn [split_args]. unfold encode in Hstop. cbn [fmap list_fmap concat] in Hstop. rewrite !length_app in Hstop. cbn [length] in Hstop.
    rewrite (proj2 (Z.leb_gt _ _)) by lia. unfold bind at 1. by rewrite put_outside by lia.
  - destruct (split_step (length ws) m ws w i p stop argv Hb Hw Hp Hstop) as (_ & Hb' & Hstop' & ->); [lia|].
    apply IH; try done; rewrite ?length_insert; lia.
Qed.

Lemma string_at_run m p l : str m p l → string_at p m = Ok (l, m).
Proof.
  intros Hs. unfold string_at. rewrite (bind_ok _ _ _ _ _ (rounds_ok m)). pose proof (str_size m p l Hs).
  assert (H' : (length l < S (size m))%nat) by lia. clear H. revert p l Hs H'. induction (S (size m)) as [|fuel IH]; intros p l Hs Hf; [lia|]. cbn [string_loop].
  destruct l as [|b l]; cbn in Hs.
  - by rewrite (bind_ok _ _ _ _ _ (load_ok _ _ _ Hs)).
  - destruct Hs as (Hb & Hb0 & Hs). rewrite (bind_ok _ _ _ _ _ (load_ok _ _ _ Hb)), (proj2 (Z.eqb_neq _ _) Hb0).
    rewrite (bind_ok _ _ _ _ _ (IH _ _ Hs ltac:(cbn in Hf; lia))). done.
Qed.

Lemma print_quoted w : vprintf (if negb (mem_of 32 w) then chars " %s" else chars " '%s'") [Str (Some w)] = Ok (quoted w).
Proof.
  unfold quoted. change (chars " %s") with [32; 37; 115]. change (chars " '%s'") with [32; 39; 37; 115; 39].
  change (chars " '") with [32; 39]. change (chars "'") with [39].
  destruct (mem_of 32 w); cbn [negb]; print_format.
Qed.

Lemma print_args_run m argv ws : ∀ i, 0 <= i → holds m argv (Z.to_nat i) ws → print_args (length ws) i argv m = Ok (concat (quoted <$> ws), m).
Proof.
  induction ws as [|w ws IH]; intros i Hi Hh; [done|]. cbn [length print_args]. destruct (Hh 0%nat w eq_refl) as (q & Hq & Hs). rewrite Nat.add_0_r in Hq.
  rewrite Hq. cbn [need]. erewrite bind_ok by reflexivity. destruct (strchr_spec q w 32 m Hs ltac:(lia)) as (r & Er & Hr).
  rewrite (bind_ok _ _ _ _ _ Er), (bind_ok _ _ _ _ _ (string_at_run m q w (proj1 Hs))), Hr. cbn [Z.eqb orb]. rewrite print_quoted.
  unfold lift. erewrite bind_ok by reflexivity. assert (Hh' : holds m argv (Z.to_nat (i + 1)) ws).
  { intros j w' Hj. destruct (Hh (S j) w' Hj) as (q' & Hq' & Hs'). exists q'. split; [|done].
    by replace (Z.to_nat (i + 1) + j)%nat with (Z.to_nat i + S j)%nat by lia. }
  by rewrite (bind_ok _ _ _ _ _ (IH (i + 1) ltac:(lia) Hh')).
Qed.

Lemma load32_run m a n : bytes_at m a (le32 n) → 0 <= n < 2 ^ 32 → load32 a m = Ok (n, m).
Proof.
  intros H Hn. assert (Hl : ∀ i b, le32 n !! i = Some b → load (a + Z.of_nat i) m = Ok (b, m)) by (intros i b Hi; apply load_ok, H, Hi).
  unfold load32. rewrite <- (Z.add_0_r a) at 1.
  rewrite (bind_ok _ _ _ _ _ (Hl 0%nat _ eq_refl)), (bind_ok _ _ _ _ _ (Hl 1%nat _ eq_refl)), (bind_ok _ _ _ _ _ (Hl 2%nat _ eq_refl)), (bind_ok _ _ _ _ _ (Hl 3%nat _ eq_refl)).
  unfold ret. do 2 f_equal. unfold from_le32. cbn. unfold u8. mod_lia.
Qed.

(** Words that fit into the loader's 128 bytes reach argv one by one, followed by a
    null pointer, and are printed with quotes around those that contain a space; with 65
    words or more, which fit when they are empty or short, argv is overrun. *)
Theorem read_command_line_correct m ws :
  loaded m ws → Forall word_ok ws → len (encode ws) <= LOADER_ARGS_LEN →
  if bool_decide (length ws <= 64)%nat then
    ∃ argv, read_command_line m = Ok ((argv, chars "Kernel command line:" ++ concat (quoted <$> ws) ++ [10]), m) ∧
      holds m argv 0 ws ∧ argv !! length ws = Some null
  else read_command_line m = Fail Undef.
Proof.
  intros [Hc Hb] Hw Hl. assert (Hn : 0 <= len ws <= 128).
  { assert (∀ l, (length l <= length (encode l))%nat) as H by (intros l; unfold encode; induction l as [|w l IH]; cbn; rewrite ?length_app; cbn; lia).
    specialize (H ws). unfold LOADER_ARGS_LEN in Hl. lia. }
  assert (Ec : s32 (len ws) = len ws) by (unfold s32; mod_lia).
  set (p := LOADER_PHYS_BASE + LOADER_ARGS) in *. assert (Hp : 0 < p) by done.
  unfold read_command_line. fold p. rewrite (bind_ok _ _ _ _ _ (load32_run _ _ _ Hc ltac:(lia))). cbv zeta. rewrite Ec, Nat2Z.id.
  case_bool_decide as H64.
  - destruct (split_args_run m (p + LOADER_ARGS_LEN) ws Hw 0 p (replicate 65 null) Hb Hp) as (argv & E & Hla & Hh & _); [lia|done|rewrite length_replicate; lia|].
    rewrite length_replicate in Hla. rewrite (bind_ok _ _ _ _ _ E), (bind_ok _ _ _ _ _ (put_ok argv (len ws) null m ltac:(lia))), Nat2Z.id.
    assert (Hh' : holds m (<[length ws := null]> argv) 0 ws).
    { intros j w Hj. destruct (Hh j w Hj) as (q & Hq & Hs). exists q. split; [|done]. rewrite list_lookup_insert_ne; [done|]. apply lookup_lt_Some in Hj. lia. }
    exists (<[length ws := null]> argv). rewrite (bind_ok _ _ _ _ _ (print_args_run m _ ws 0 ltac:(lia) Hh')). split; [done|]. split; [done|].
    apply list_lookup_insert_eq. lia.
  - destruct (decide (length ws = 65%nat)) as [E65|].
    + destruct (split_args_run m (p + LOADER_ARGS_LEN) ws Hw 0 p (replicate 65 null) Hb Hp) as (argv & E & Hla & _); [lia|done|rewrite length_replicate; lia|].
      rewrite length_replicate in Hla. rewrite (bind_ok _ _ _ _ _ E). unfold bind at 1. by rewrite put_outside by lia.
    + unfold bind at 1. by rewrite (split_args_overflow m (p + LOADER_ARGS_LEN) ws Hw 0 p (replicate 65 null) Hb Hp ltac:(lia)) by (rewrite length_replicate; lia).
Qed.

Lemma bytes_at_nil m a : bytes_at m a [].
Proof. done. Qed.
Lemma bytes_at_cons m a b bs : m !! a = Some b → bytes_at m (a + 1) bs → bytes_at m a (b :: bs).
Proof.
  intros Hb H [|i] x Hi; [injection Hi as <-; by rewrite Z.add_0_r|]. replace (a + Z.of_nat (S i)) with (a + 1 + Z.of_nat i) by lia. by apply H.
Qed.

Definition sample_words : list (list Z) := [chars "-q"; chars "run"; chars "a b"].
Definition sample_loader : bytes_mem :=
  list_to_map (zip (seqZ (LOADER_PHYS_BASE + LOADER_ARG_CNT) 15) (le32 3 ++ encode sample_words)).

Lemma read_command_line_correct_witness :
  ∃ argv, read_command_line sample_loader = Ok ((argv, chars "Kernel command line: -q run 'a b'" ++ [10]), sample_loader) ∧ argv !! 3%nat = Some null.
Proof.
  destruct (read_command_line_correct sample_loader sample_words) as (argv & E & _ & Hn).
  - split; repeat (apply bytes_at_cons; [vm_compute; reflexivity|]); apply bytes_at_nil.
  - repeat constructor; vm_compute; discriminate.
  - vm_compute. discriminate.
  - exists argv. split; [exact E|exact Hn].
Defined.

(** ** Options *)

(** A word as the name and the value of an option. *)
Definition split_option (a : list Z) : list Z * option (list Z) :=
  match strtok (chars "=") a with Some (name, rest) => (name, fst <$> strtok [] rest) | None => ([], None) end.
Definition is_option (a : list Z) : bool := bool_decide (head a = Some 45).

Notation setting := (list Z * option (list Z))%type.
(** The last of the options [os] that is called [name]. *)
Definition latest (name : String.string) (os : list setting) : option setting := last (List.filter (λ o, named o.1 name) os).
Arguments latest name%_string os.
Definition given (name : String.string) (os : list setting) : bool := existsb (λ o, named o.1 name) os.
Arguments given name%_string os.

Section parsing.
Context (c : config).

(** The options of a kernel built as [c], besides [-h]. *)
Definition plain_options : list String.string := "-q"%string :: "-r"%string :: "-mlfqs"%string :: (if USERPROG c then [] else ["-aging"%string]).
Definition naming_options : list String.string :=
  if FILESYS c then "-f"%string :: "-filesys"%string :: "-scratch"%string :: (if VM c then ["-swap"%string] else []) else [].
Definition number_options : list String.string := "-rs"%string :: (if USERPROG c then ["-ul"%string] else []).

Definition among (name : list Z) (l : list String.string) : bool := existsb (named name) l.

(** What goes wrong with an option, if anything. *)
Definition objection (o : setting) : option failure :=
  if among o.1 number_options then match atoi_value o.2 with Ok _ => None | Fail f => Some f end
  else if among o.1 (plain_options ++ naming_options) then None
  else Some Panicked.

Definition shutdown_of (os : list setting) (h : shutdown_type) : shutdown_type :=
  match last (List.filter (λ o, among o.1 ["-q"%string; "-r"%string]) os) with
  | Some (name, _) => if named name "-q" then SHUTDOWN_POWER_OFF else SHUTDOWN_REBOOT
  | None => h
  end.
Definition device_of (name : String.string) (os : list setting) (d : option (list Z)) : option (list Z) :=
  match latest name os with Some (_, value) => value | None => d end.
Definition limit_of (os : list setting) (l : Z) : Z :=
  match latest "-ul" os with Some (_, value) => match atoi_value value with Ok n => u32 n | Fail _ => 0 end | None => l end.

(** The settings that the options [os] ask for; the generator and the clock are left out. *)
Definition configured (os : list setting) (o o' : options) : Prop :=
  how o' = shutdown_of os (how o) ∧
  format_filesys o' = format_filesys o || (FILESYS c && given "-f" os) ∧
  filesys_bdev_name o' = (if FILESYS c then device_of "-filesys" os (filesys_bdev_name o) else filesys_bdev_name o) ∧
  scratch_bdev_name o' = (if FILESYS c then device_of "-scratch" os (scratch_bdev_name o) else scratch_bdev_name o) ∧
  swap_bdev_name o' = (if FILESYS c && VM c then device_of "-swap" os (swap_bdev_name o) else swap_bdev_name o) ∧
  thread_mlfqs o' = thread_mlfqs o || given "-mlfqs" os ∧
  thread_prior_aging o' = thread_prior_aging o || (negb (USERPROG c) && given "-aging" os) ∧
  user_page_limit o' = (if USERPROG c then limit_of os (user_page_limit o) else user_page_limit o).

End parsing.

Lemma last_filter_cons {A} (f : A → bool) x l :
  last (List.filter f (x :: l)) = match last (List.filter f l) with Some y => Some y | None => if f x then Some x else None end.
Proof. cbn [List.filter]. destruct (f x); [apply last_cons|]. by destruct (last _). Qed.

(** One option after the other. *)
Lemma configured_cons c x os o o1 o2 : configured c [x] o o1 → configured c os o1 o2 → configured c (x :: os) o o2.
Proof.
  intros (A1 & A2 & A3 & A4 & A5 & A6 & A7 & A8) (B1 & B2 & B3 & B4 & B5 & B6 & B7 & B8). unfold configured.
  rewrite B1, B2, B3, B4, B5, B6, B7, B8, A1, A2, A3, A4, A5, A6, A7, A8. clear.
  unfold shutdown_of, device_of, limit_of, latest, given. rewrite !last_filter_cons. cbn [last List.filter existsb].
  split_and!.
  - destruct (last (List.filter _ os)) as [[]|]; [done|]. destruct (among _ _); [|done]. by destruct x.
  - destruct (FILESYS c), (format_filesys o), (named _ _); done.
  - destruct (FILESYS c); [|done]. destruct (last (List.filter _ os)) as [[]|]; [done|]. destruct (named _ _); [|done]. by destruct x.
  - destruct (FILESYS c); [|done]. destruct (last (List.filter _ os)) as [[]|]; [done|]. destruct (named _ _); [|done]. by destruct x.
  - destruct (FILESYS c && VM c); [|done]. destruct (last (List.filter _ os)) as [[]|]; [done|]. destruct (named _ _); [|done]. by destruct x.
  - destruct (thread_mlfqs o), (named _ _); done.
  - destruct (USERPROG c), (thread_prior_aging o), (named _ _); done.
  - destruct (USERPROG c); [|done]. destruct (last (List.filter _ os)) as [[]|]; [done|]. destruct (named _ _); [|done]. by destruct x.
Qed.

Lemma seed_run n o : ∃ r, random_init n = Ok r ∧
  seed_with n o = Ok (tt, mk_options (how o) (format_filesys o) (filesys_bdev_name o) (scratch_bdev_name o)
    (swap_bdev_name o) (thread_mlfqs o) (thread_prior_aging o) (user_page_limit o) (Some r) (clock o)).
Proof. destruct (random_init_ok n) as (r & E & _). exists r. split; [done|]. unfold seed_with, lift, bind. by rewrite E. Qed.

Lemma among_true name l : among name l = true → ∃ s, In s l ∧ name = chars s.
Proof. unfold among. rewrite existsb_exists. intros (s & Hs & Hn). exists s. split; [done|]. by apply bool_decide_eq_true in Hn. Qed.

Lemma apply_number c name value o n : among name (number_options c) = true → atoi_value value = Ok n →
  ∃ o', apply_option c name value o = Ok (true, o') ∧ configured c [(name, value)] o o' ∧ clock o' = clock o.
Proof.
  intros (s & Hs & ->)%among_true Ev. destruct Hs as [<-|Hs].
  - assert (E : apply_option c (chars "-rs") value = (let* n := lift (atoi_value value) in seed_with n ;;; ret true)) by (destruct c as [[] [] []]; reflexivity).
    rewrite E. unfold lift, bind. rewrite Ev. destruct (seed_run n o) as (r & _ & ->). eexists. split; [reflexivity|]. split; [|reflexivity].
    unfold configured. cbn. rewrite !andb_false_r, !orb_false_r. destruct c as [[] [] []]; done.
  - destruct (USERPROG c) eqn:Eu; [|done]. destruct Hs as [<-|[]].
    assert (E : apply_option c (chars "-ul") value = (let* n := lift (atoi_value value) in set_limit (u32 n) ;;; ret true))
      by (destruct c as [[] [] []]; (reflexivity || done)).
    rewrite E. unfold lift, bind. rewrite Ev. eexists. split; [reflexivity|]. split; [|reflexivity].
    assert (El : limit_of [(chars "-ul", value)] (user_page_limit o) = u32 n)
      by (unfold limit_of; change (latest "-ul" [(chars "-ul", value)]) with (Some (chars "-ul", value)); cbv beta iota; by rewrite Ev).
    unfold configured. rewrite El. cbn. rewrite !andb_false_r, !orb_false_r. destruct c as [[] [] []]; done.
Qed.

Lemma apply_known c name value o : among name (plain_options c ++ naming_options c) = true →
  ∃ o', apply_option c name value o = Ok (true, o') ∧ configured c [(name, value)] o o' ∧ clock o' = clock o.
Proof.
  intros (s & Hs & ->)%among_true. unfold plain_options, naming_options in Hs.
  destruct c as [[] [] []]; cbn in Hs; repeat destruct Hs as [<-|Hs]; try done;
    (eexists; split; [reflexivity|]; split; [|reflexivity]; destruct o as [? [] ? ? ? [] [] ? ? ?]; repeat split; vm_compute; reflexivity).
Qed.

Lemma apply_ok c name value o : objection c (name, value) = None →
  ∃ o', apply_option c name value o = Ok (true, o') ∧ configured c [(name, value)] o o' ∧ clock o' = clock o.
Proof.
  unfold objection. cbn [fst snd]. destruct (among name (number_options c)) eqn:Enum.
  - destruct (atoi_value value) as [n|f] eqn:Ev; [|done]. intros _. by eapply apply_number.
  - destruct (among name (plain_options c ++ naming_options c)) eqn:Ek; [|done]. intros _. by apply apply_known.
Qed.

Lemma apply_bad c name value o f : objection c (name, value) = Some f → named name "-h" = false → apply_option c name value o = Fail f.
Proof.
  unfold objection. cbn [fst snd]. intros Hf Hh. destruct (among name (number_options c)) eqn:Enum.
  - destruct (atoi_value value) as [n|f'] eqn:Ev; [done|]. injection Hf as <-. apply among_true in Enum as (s & Hs & ->). destruct Hs as [<-|Hs].
    + assert (E : apply_option c (chars "-rs") value = (let* n := lift (atoi_value value) in seed_with n ;;; ret true)) by (destruct c as [[] [] []]; reflexivity).
      rewrite E. unfold lift, bind. by rewrite Ev.
    + destruct (USERPROG c) eqn:Eu; [|done]. destruct Hs as [<-|[]].
      assert (E : apply_option c (chars "-ul") value = (let* n := lift (atoi_value value) in set_limit (u32 n) ;;; ret true))
        by (destruct c as [[] [] []]; (reflexivity || done)).
      rewrite E. unfold lift, bind. by rewrite Ev.
  - destruct (among name (plain_options c ++ naming_options c)) eqn:Ek; [done|]. injection Hf as <-. unfold apply_option. rewrite Hh.
    unfold among, plain_options, naming_options, number_options in *. rewrite existsb_app in Ek. apply orb_false_iff in Ek as [Ek1 Ek2].
    destruct c as [[] [] []]; cbn [existsb FILESYS VM USERPROG app] in *; repeat rewrite ?orb_false_iff in *; destruct_and?; cbn [negb andb];
      repeat match goal with H : named name _ = false |- _ => rewrite H; clear H end; done.
Qed.

Lemma option_split a : is_option a = true → ∃ name rest, strtok (chars "=") a = Some (name, rest) ∧ split_option a = (name, fst <$> strtok [] rest).
Proof.
  unfold is_option, split_option. rewrite bool_decide_eq_true. destruct a as [|b a]; [done|]. intros [= ->].
  change (strtok (chars "=") (45 :: a)) with (Some (word (chars "=") (45 :: a), drop (S (length (word (chars "=") (45 :: a)))) (45 :: a))). eauto.
Qed.

(** An option that stops the parsing. *)
Definition stops (c : config) (x : setting) : bool := named x.1 "-h" || match objection c x with Some _ => true | None => false end.

Definition argv_rest (rest : list (list Z)) : bool := match rest with [] => true | a :: _ => negb (is_option a) end.

Lemma parse_words_run c rest ws : argv_rest rest = true → Forall (λ a, is_option a = true) ws → ∀ o,
  match find (stops c) (split_option <$> ws) with
  | None => ∃ o', parse_words c (ws ++ rest) o = Ok (Some rest, o') ∧ configured c (split_option <$> ws) o o' ∧ clock o' = clock o
  | Some x => if named x.1 "-h" then ∃ o', parse_words c (ws ++ rest) o = Ok (None, o')
              else ∃ f, objection c x = Some f ∧ parse_words c (ws ++ rest) o = Fail f
  end.
Proof.
  intros Hr. induction 1 as [|a ws Ha Hws IH]; intros o.
  - cbn [fmap list_fmap find app]. exists o. split.
    + destruct rest as [|a rest]; [done|]. cbn in Hr |- *. unfold is_option in Hr. apply negb_true_iff in Hr. by rewrite Hr.
    + split; [|done]. repeat split; cbn; rewrite ?andb_false_r, ?orb_false_r; try done; repeat case_match; done.
  - destruct (option_split a Ha) as (name & r & Et & Es). cbn [fmap list_fmap find app parse_words]. unfold is_option in Ha. rewrite Ha, Et, Es.
    unfold stops at 1. cbn [fst]. destruct (named name "-h") eqn:Eh.
    + cbn [orb fst]. rewrite Eh. exists o. unfold apply_option. rewrite Eh. done.
    + cbn [orb]. destruct (objection c (name, fst <$> strtok [] r)) as [f|] eqn:Eo.
      * cbn [fst]. rewrite Eh. exists f. split; [done|]. unfold bind at 1. by rewrite (apply_bad _ _ _ _ _ Eo Eh).
      * destruct (apply_ok c name _ o Eo) as (o1 & E1 & C1 & K1). rewrite (bind_ok _ _ _ _ _ E1). specialize (IH o1).
        destruct (find (stops c) (split_option <$> ws)) as [x|] eqn:Ef; [exact IH|].
        destruct IH as (o2 & E2 & C2 & K2). exists o2. split; [exact E2|]. split; [by eapply configured_cons|]. by rewrite K2.
Qed.

(** The leading words that start with a dash are parsed one by one.  When none of them
    is objectionable, every setting has the value its last option gives it, other settings
    are unchanged, and the rest of the words is returned; the generator is always seeded
    from the clock, also when [-rs] asked for another seed.  The first [-h] powers the
    machine off, the first option that is unknown or lacks its number stops the kernel. *)
Theorem parse_options_correct c ws rest o t clk :
  argv_rest rest = true → Forall (λ a, is_option a = true) ws → rtc_get_time (clock o) = Ok (t, clk) →
  match find (stops c) (split_option <$> ws) with
  | None => ∃ o' r, parse_options c (ws ++ rest) o = Ok (Some rest, o') ∧ configured c (split_option <$> ws) o o' ∧
              random_init t = Ok r ∧ rand o' = Some r ∧ clock o' = clk
  | Some x => if named x.1 "-h" then ∃ o', parse_options c (ws ++ rest) o = Ok (None, o')
              else ∃ f, objection c x = Some f ∧ parse_options c (ws ++ rest) o = Fail f
  end.
Proof.
  intros Hr Hw Hclk. pose proof (parse_words_run c rest ws Hr Hw o) as H. unfold parse_options.
  destruct (find (stops c) (split_option <$> ws)) as [x|].
  - destruct (named x.1 "-h").
    + destruct H as (o' & E). exists o'. by rewrite (bind_ok _ _ _ _ _ E).
    + destruct H as (f & Ho & E). exists f. split; [done|]. unfold bind at 1. by rewrite E.
  - destruct H as (o1 & E & C & K). rewrite (bind_ok _ _ _ _ _ E). unfold read_clock.
    unfold bind at 1. rewrite K, Hclk. match goal with |- context [(seed_with t ;;; _) ?o2] => destruct (seed_run t o2) as (r & Er & Es) end.
    rewrite (bind_ok _ _ _ _ _ Es). do 2 eexists. split; [reflexivity|]. split; [exact C|]. by split.
Qed.

Lemma parse_options_correct_witness :
  ∃ o' r, parse_options (mk_config true true true) ([chars "-rs=7"; chars "-f"; chars "-swap=hdb1"; chars "-swap=hdb2"] ++ [chars "run"; chars "-q"]) sample_options
      = Ok (Some [chars "run"; chars "-q"], o') ∧
    format_filesys o' = true ∧ swap_bdev_name o' = Some (chars "hdb2") ∧ random_init 3542405 = Ok r ∧ rand o' = Some r.
Proof.
  assert (Hclk : rtc_get_time (clock sample_options) = Ok (3542405, [])) by (vm_compute; reflexivity).
  pose proof (parse_options_correct (mk_config true true true) [chars "-rs=7"; chars "-f"; chars "-swap=hdb1"; chars "-swap=hdb2"] [chars "run"; chars "-q"]
    sample_options 3542405 [] ltac:(vm_compute; reflexivity) ltac:(repeat constructor; vm_compute; reflexivity) Hclk) as H.
  assert (Ef : find (stops (mk_config true true true)) (split_option <$> [chars "-rs=7"; chars "-f"; chars "-swap=hdb1"; chars "-swap=hdb2"]) = None) by (vm_compute; reflexivity).
  rewrite Ef in H. destruct H as (o' & r & E & C & Er & Eo & _). exists o', r. split; [exact E|].
  destruct C as (_ & C2 & _ & _ & C5 & _). split; [rewrite C2; vm_compute; reflexivity|]. split; [rewrite C5; vm_compute; reflexivity|]. by split.
Defined.

(** ** Actions *)

(** An action with its arguments, and words that begin with none. *)
Definition action_ok (c : config) (g : list (list Z)) : Prop := match g with a :: _ => find_action c a = Some (length g) | [] => False end.
Definition no_action (c : config) (tail : list (list Z)) : Prop :=
  match tail with a :: _ => ∀ n, find_action c a = Some n → (length tail < n)%nat | [] => False end.

Fixpoint perform_all {S} (perform : list (list Z) → M S unit) (gs : list (list (list Z))) : M S unit :=
  match gs with [] => ret tt | g :: gs' => perform g ;;; perform_all perform gs' end.

Lemma find_action_pos c a n : find_action c a = Some n → (0 < n)%nat.
Proof.
  unfold find_action. destruct (find _ _) as [[s k]|] eqn:E; [|done]. intros [= <-]. apply find_some in E as [Hin _].
  unfold actions in Hin. destruct (FILESYS c); cbn in Hin; repeat destruct Hin as [[= <- <-]|Hin]; try done; cbn; lia.
Qed.

Lemma split_actions c k argv : (length argv <= k)%nat →
  ∃ gs tail, argv = concat gs ++ tail ∧ Forall (action_ok c) gs ∧ (tail ≠ [] → no_action c tail).
Proof.
  revert argv. induction k as [|k IH]; intros argv Hk; destruct argv as [|a argv]; try (exists [], []; split; [done|]; split; [constructor|done]); [cbn in Hk; lia|].
  destruct (find_action c a) as [n|] eqn:Ea.
  2: { exists [], (a :: argv). split; [done|]. split; [constructor|]. intros _ n. by rewrite Ea. }
  destruct (decide (length (a :: argv) < n)%nat) as [Hs|Hs].
  { exists [], (a :: argv). split; [done|]. split; [constructor|]. intros _ n'. rewrite Ea. by intros [= <-]. }
  pose proof (find_action_pos c a n Ea) as Hn. destruct n as [|n]; [lia|].
  destruct (IH (drop n argv)) as (gs & tail & E & Hg & Ht); [rewrite length_drop; cbn in Hk; lia|].
  exists ((a :: take n argv) :: gs), tail. split; [|split; [|done]].
  - cbn. f_equal. rewrite <- app_assoc, <- E. by rewrite take_drop.
  - constructor; [|done]. cbn [action_ok length]. rewrite Ea, length_take. cbn in Hs. do 2 f_equal. lia.
Qed.

Lemma run_actions_seq {S} c (perform : list (list Z) → M S unit) tail gs : (tail ≠ [] → no_action c tail) → Forall (action_ok c) gs →
  ∀ fuel s, (length (concat gs ++ tail) < fuel)%nat →
  run_actions c perform fuel (concat gs ++ tail) s = (perform_all perform gs ;;; if decide (tail = []) then ret tt else fail Panicked) s.
Proof.
  intros Ht. induction 1 as [|g gs Hg Hgs IH]; intros fuel s Hf; (destruct fuel as [|fuel]; [lia|]).
  - cbn [concat app perform_all]. erewrite bind_ok by reflexivity. destruct tail as [|a tail]; [done|]. cbn [run_actions].
    rewrite decide_False by done. destruct (find_action c a) as [n|] eqn:Ea; [|done]. specialize (Ht ltac:(done) n Ea).
    by rewrite (proj2 (Nat.ltb_lt _ _)).
  - destruct g as [|a g]; [done|]. cbn [action_ok] in Hg. cbn [concat perform_all app]. rewrite <- app_assoc. cbn [run_actions]. rewrite Hg.
    rewrite (proj2 (Nat.ltb_ge _ _)) by (cbn [length]; rewrite length_app; lia).
    replace (take (length (a :: g)) (a :: g ++ concat gs ++ tail)) with (a :: g) by (cbn; by rewrite take_app_length).
    replace (drop (length (a :: g)) (a :: g ++ concat gs ++ tail)) with (concat gs ++ tail) by (cbn; by rewrite drop_app_length).
    rewrite bind_assoc. unfold bind in IH |- *. destruct (perform (a :: g) s) as [[[] s1]|f]; [|done]. apply IH.
    cbn [concat app length] in Hf. rewrite !length_app in Hf. rewrite length_app. lia.
Qed.

(** Every command line is a sequence of actions, each with as many words as it needs,
    followed by a rest that is no action; the actions are performed in this order, and
    unless the rest is empty the kernel then panics, after their effects. *)
Theorem run_actions_correct c argv :
  ∃ gs tail, argv = concat gs ++ tail ∧ Forall (action_ok c) gs ∧ (tail ≠ [] → no_action c tail) ∧
    ∀ S (perform : list (list Z) → M S unit) s,
      run_actions c perform (Datatypes.S (length argv)) argv s = (perform_all perform gs ;;; if decide (tail = []) then ret tt else fail Panicked) s.
Proof.
  destruct (split_actions c (length argv) argv) as (gs & tail & -> & Hg & Ht); [done|]. exists gs, tail. split_and!; try done.
  intros S perform s. by apply run_actions_seq; [| |lia].
Qed.
