(* ===== verification/Roles.v ===== *)
(** * The roles of block devices (locate_block_devices of src/threads/init.c)

    The file system, scratch and swap devices are those named on the command line, or else
    the first ones of their type in the order of registration. *)

From S2P Require Import Prelude Stdio StdioSpec Block Cmdline.
Local Open Scope Z_scope.

(** The loop over the devices; every round goes to a later one. *)
Fixpoint first_of_type (fuel : nat) (role : btype) (block : option nat) : R (option nat) :=
  match block with
  | None => ret None
  | Some b =>
      match fuel with
      | Datatypes.O => fail NoFuel
      | Datatypes.S fuel =>
          let* t := block_type b in
          if bool_decide (t = role) then ret (Some b)
          else let* next := block_next b in first_of_type fuel role next
      end
  end.

Definition locate_block_device (role : btype) (name : option (list Z)) : R unit :=
  let* block :=
    (match name with
     | Some n =>
         let* b := block_get_by_name n in
         match b with Some _ => ret b | None => fail Panicked end
     | None =>
         let* fuel := gets (λ r, length (all_blocks r)) in
         let* first := block_first in
         first_of_type fuel role first
     end) in
  match block with
  | Some b =>
      let* name := block_name b in
      printf (chars "%s: using %s" ++ [10]) [Str (Some (block_type_name role)); Str (Some name)] ;;;
      block_set_role role block
  | None => ret tt
  end.

Definition locate_block_devices (c : config) (filesys scratch swap : option (list Z)) : R unit :=
  locate_block_device BLOCK_FILESYS filesys ;;;
  locate_block_device BLOCK_SCRATCH scratch ;;;
  if VM c then locate_block_device BLOCK_SWAP swap else ret tt.

(** ** What is chosen *)

Definition first_where (P : block → bool) (l : list block) : option nat := fst <$> list_find (λ b, P b = true) l.
Definition chosen (l : list block) (role : btype) (name : option (list Z)) : option nat :=
  match name with
  | Some n => first_where (λ b, bool_decide (n = b_name b)) l
  | None => first_where (λ b, bool_decide (b_type b = role)) l
  end.
Definition unknown (l : list block) (name : option (list Z)) : bool :=
  match name with Some n => negb (existsb (λ b, bool_decide (n = b_name b)) l) | None => false end.

Lemma first_where_cons P b l : first_where P (b :: l) = if P b then Some 0%nat else S <$> first_where P l.
Proof. unfold first_where. cbn. destruct (decide (P b = true)) as [E|E], (P b); try done. by destruct (list_find _ l) as [[]|]. Qed.

Lemma first_where_lookup P l i : first_where P l = Some i → ∃ b, l !! i = Some b ∧ P b = true.
Proof. unfold first_where. destruct (list_find _ l) as [[j b]|] eqn:E; [|done]. intros [= <-]. apply list_find_Some in E as (H1 & H2 & _). eauto. Qed.

Lemma find_name_spec n l i : find_name n l i = Nat.add i <$> first_where (λ b, bool_decide (n = b_name b)) l.
Proof.
  revert i. induction l as [|b l IH]; intros i; [done|]. cbn [find_name]. rewrite first_where_cons. case_bool_decide; [cbn; f_equal; lia|].
  rewrite IH. destruct (first_where _ l); [|done]. cbn. f_equal. lia.
Qed.

Lemma unknown_spec n l : unknown l (Some n) = true ↔ first_where (λ b, bool_decide (n = b_name b)) l = None.
Proof.
  cbn [unknown]. rewrite negb_true_iff. induction l as [|b l IH]; [done|]. cbn [existsb]. rewrite first_where_cons. case_bool_decide; [done|].
  cbn [orb]. rewrite IH. by destruct (first_where _ l).
Qed.

Lemma first_of_type_run role r n : ∀ b, (length (all_blocks r) - b <= n)%nat → (b <= length (all_blocks r))%nat →
  first_of_type n role (if decide (b < length (all_blocks r))%nat then Some b else None) r =
  Ok (Nat.add b <$> first_where (λ d, bool_decide (b_type d = role)) (drop b (all_blocks r)), r).
Proof.
  induction n as [|n IH]; intros b Hn Hb; destruct (decide _) as [Hlt|Hge]; try (rewrite drop_ge by lia; done); [lia|].
  destruct (lookup_lt_is_Some_2 (all_blocks r) b Hlt) as [d Hd]. cbn [first_of_type].
  assert (Hg : get_block b r = Ok (d, r)) by (unfold get_block, gets, bind; by rewrite Hd).
  unfold block_type, block_next. rewrite bind_assoc, (bind_ok _ _ _ _ _ Hg). erewrite bind_ok by reflexivity.
  rewrite (drop_S _ _ _ Hd), first_where_cons. case_bool_decide as Et; [cbn; unfold ret; do 3 f_equal; lia|].
  rewrite bind_assoc, (bind_ok _ _ _ _ _ Hg). unfold list_elem_to_block, gets. rewrite bind_assoc. do 2 erewrite bind_ok by reflexivity.
  rewrite IH by lia. destruct (first_where _ _); [|done]. cbn. do 3 f_equal. lia.
Qed.

Lemma using_text a b : vprintf (chars "%s: using %s" ++ [10]) [Str (Some a); Str (Some b)] = Ok (a ++ chars ": using " ++ b ++ [10]).
Proof.
  change (chars "%s: using %s" ++ [10]) with [37; 115; 58; 32; 117; 115; 105; 110; 103; 32; 37; 115; 10]. change (chars ": using ") with [58; 32; 117; 115; 105; 110; 103; 32].
  print_format.
Qed.

(** The registry after the device [b] has been given the role. *)
Definition assigned (role : btype) (b : option nat) (r : registry) : registry :=
  match b with
  | Some i => mk_reg (all_blocks r) (<[Z.to_nat (type_no role) := b]> (block_by_role r)) (disks r) (mem r)
                (printed r ++ block_type_name role ++ chars ": using " ++ match all_blocks r !! i with Some d => b_name d | None => [] end ++ [10])
  | None => r
  end.

Lemma locate_run role name r : type_no role < BLOCK_ROLE_CNT →
  locate_block_device role name r =
  if unknown (all_blocks r) name then Fail Panicked else Ok (tt, assigned role (chosen (all_blocks r) role name) r).
Proof.
  intros Hrole. set (o := chosen (all_blocks r) role name).
  assert (Hfind : (match name with
     | Some n => let* b := block_get_by_name n in match b with Some _ => ret b | None => fail Panicked end
     | None => let* fuel := gets (λ r, length (all_blocks r)) in let* first := block_first in first_of_type fuel role first
     end) r = if unknown (all_blocks r) name then Fail Panicked else Ok (o, r)).
  { subst o. destruct name as [n|].
    - unfold block_get_by_name, gets. erewrite bind_ok by reflexivity. rewrite find_name_spec. cbn [chosen].
      pose proof (unknown_spec n (all_blocks r)) as Hu. destruct (first_where _ _) as [i|], (unknown _ _); cbn; try done; [by discriminate (proj1 Hu eq_refl)|by discriminate (proj2 Hu eq_refl)].
    - unfold gets, block_first, list_elem_to_block. erewrite bind_ok by reflexivity. unfold gets. rewrite bind_assoc. do 2 erewrite bind_ok by reflexivity.
      rewrite first_of_type_run by lia. cbn [unknown chosen]. rewrite drop_0. by destruct (first_where _ _). }
  unfold locate_block_device. unfold bind at 1. rewrite Hfind. destruct (unknown (all_blocks r) name); [done|].
  destruct o as [i|] eqn:Eo; [|done]. assert (Hi : ∃ d, all_blocks r !! i = Some d).
  { subst o. destruct name; cbn in Eo; apply first_where_lookup in Eo as (d & Hd & _); eauto. }
  destruct Hi as (d & Hd). unfold block_name, get_block, gets. rewrite !bind_assoc. do 1 erewrite bind_ok by reflexivity. rewrite Hd.
  do 2 erewrite bind_ok by reflexivity. unfold printf, lift. rewrite using_text. rewrite bind_assoc. do 2 erewrite bind_ok by reflexivity.
  unfold block_set_role, assert. rewrite (proj2 (Z.ltb_lt _ _) Hrole). erewrite bind_ok by reflexivity. unfold modify, assigned. rewrite Hd. done.
Qed.

(** The name on the command line for a role, when the kernel looks for a device at all. *)
Definition wanted (c : config) (filesys scratch swap : option (list Z)) (role : btype) : option (option (list Z)) :=
  match role with
  | BLOCK_FILESYS => Some filesys
  | BLOCK_SCRATCH => Some scratch
  | BLOCK_SWAP => if VM c then Some swap else None
  | _ => None
  end.

Lemma assigned_role role b r role' : length (block_by_role r) = 4%nat → type_no role < 4 → type_no role' < 4 →
  length (block_by_role (assigned role b r)) = 4%nat ∧
  block_by_role (assigned role b r) !! Z.to_nat (type_no role') =
  if decide (role' = role) then match b with Some _ => Some b | None => block_by_role r !! Z.to_nat (type_no role') end
  else block_by_role r !! Z.to_nat (type_no role').
Proof.
  intros Hl Hr Hr'. destruct b as [i|]; cbn [assigned block_by_role]; [|by destruct (decide _)]. rewrite length_insert. split; [done|].
  destruct (decide _) as [->|Hne]; [rewrite list_lookup_insert_eq; [done|]; destruct role; cbn in *; lia|].
  apply list_lookup_insert_ne. destruct role, role'; cbn in *; lia || done.
Qed.

Lemma assigned_blocks role b r : all_blocks (assigned role b r) = all_blocks r ∧ disks (assigned role b r) = disks r.
Proof. by destruct b. Qed.

(** The file system, the scratch and (in a kernel with virtual memory) the swap role go
    to the device with the given name, or without a name to the first device of that type
    if there is one; a name that no device has stops the kernel; other roles, the devices
    and their disks stay as they are. *)
Theorem locate_block_devices_correct c filesys scratch swap r :
  length (block_by_role r) = 4%nat →
  let l := all_blocks r in
  if unknown l filesys || unknown l scratch || (VM c && unknown l swap) then locate_block_devices c filesys scratch swap r = Fail Panicked
  else ∃ r', locate_block_devices c filesys scratch swap r = Ok (tt, r') ∧ all_blocks r' = l ∧ disks r' = disks r ∧
    ∀ role, type_no role < BLOCK_ROLE_CNT →
      block_by_role r' !! Z.to_nat (type_no role) =
      match wanted c filesys scratch swap role ≫= chosen l role with
      | Some b => Some (Some b)
      | None => block_by_role r !! Z.to_nat (type_no role)
      end.
Proof.
  intros Hl l. set (r1 := assigned BLOCK_FILESYS (chosen l BLOCK_FILESYS filesys) r). set (r2 := assigned BLOCK_SCRATCH (chosen l BLOCK_SCRATCH scratch) r1).
  set (r3 := if VM c then assigned BLOCK_SWAP (chosen l BLOCK_SWAP swap) r2 else r2).
  assert (B1 : all_blocks r1 = l ∧ disks r1 = disks r) by apply assigned_blocks.
  assert (B2 : all_blocks r2 = l ∧ disks r2 = disks r) by (rewrite <- (proj1 B1), <- (proj2 B1); apply assigned_blocks).
  assert (E : locate_block_devices c filesys scratch swap r =
    if unknown l filesys || unknown l scratch || (VM c && unknown l swap) then Fail Panicked else Ok (tt, r3)).
  { unfold locate_block_devices. unfold bind at 1. rewrite locate_run by done. fold l r1. destruct (unknown l filesys); [done|]. cbn [orb].
    unfold bind at 1. rewrite locate_run by done. rewrite (proj1 B1). fold r2. destruct (unknown l scratch); [done|]. cbn [orb].
    subst r3. destruct (VM c); [|done]. rewrite locate_run by done. by rewrite (proj1 B2). }
  rewrite E. destruct (unknown l filesys || _ || _); [done|]. exists r3. split; [done|]. clear E.
  assert (B3 : all_blocks r3 = l ∧ disks r3 = disks r).
  { subst r3. destruct (VM c); [|done]. rewrite <- (proj1 B2), <- (proj2 B2). apply assigned_blocks. }
  split; [apply B3|]. split; [apply B3|]. intros role Hrole. change BLOCK_ROLE_CNT with 4 in Hrole.
  destruct (assigned_role BLOCK_FILESYS (chosen l BLOCK_FILESYS filesys) r role Hl ltac:(done) Hrole) as [L1 R1]. fold r1 in L1, R1.
  destruct (assigned_role BLOCK_SCRATCH (chosen l BLOCK_SCRATCH scratch) r1 role L1 ltac:(done) Hrole) as [L2 R2]. fold r2 in L2, R2.
  destruct (assigned_role BLOCK_SWAP (chosen l BLOCK_SWAP swap) r2 role L2 ltac:(done) Hrole) as [_ R3]. subst r3.
  destruct (VM c) eqn:Evm; destruct role; cbn [type_no] in Hrole; try lia; cbn [wanted]; rewrite ?Evm; cbn [mbind option_bind];
    rewrite ?R3, ?R2, ?R1; repeat (rewrite decide_True by done || rewrite decide_False by done); by repeat case_match.
Qed.

Definition sample_registry : registry :=
  mk_reg [mk_block (chars "hda") BLOCK_RAW 100 (Driver 0) 0 0; mk_block (chars "hda1") BLOCK_FILESYS 40 (Partition (mk_part 0 10)) 0 0;
          mk_block (chars "hda2") BLOCK_SWAP 20 (Partition (mk_part 0 60)) 0 0] [None; None; None; None] [replicate 100 (replicate 512 0)] [] [].

Lemma locate_block_devices_correct_witness :
  ∃ r', locate_block_devices (mk_config true true true) None (Some (chars "hda")) None sample_registry = Ok (tt, r') ∧
    block_by_role r' !! 1%nat = Some (Some 1%nat) ∧ block_by_role r' !! 2%nat = Some (Some 0%nat) ∧ block_by_role r' !! 3%nat = Some (Some 2%nat).
Proof.
  destruct (locate_block_devices_correct (mk_config true true true) None (Some (chars "hda")) None sample_registry eq_refl) as (r' & E & _ & _ & Hr).
  exists r'. split; [exact E|]. split; [exact (Hr BLOCK_FILESYS eq_refl)|]. split; [exact (Hr BLOCK_SCRATCH eq_refl)|exact (Hr BLOCK_SWAP eq_refl)].
Defined.
