(* ===== verification/Bitmap.v ===== *)
(** * Bitmaps (src/lib/kernel/bitmap.c)

    An array of bits kept in 32-bit words.  [bm_bit] reads one bit of the array;
    the theorems describe every operation by its effect on these bits. *)

From S2P Require Import Prelude.
Local Open Scope Z_scope.

(** [elem_type] is [unsigned long], 32 bits on the i386. *)
Definition ELEM_BITS : Z := 32.
Definition BITMAP_ERROR : Z := 2 ^ 32 - 1.

Record bitmap := mk_bitmap { bit_cnt : Z; bits : list Z }.

#[global] Instance bitmap_eq_dec : EqDecision bitmap.
Proof. solve_decision. Defined.

Definition elem_idx (bit_idx : Z) : Z := bit_idx / ELEM_BITS.
Definition bit_mask (bit_idx : Z) : Z := u32 (Z.shiftl 1 (bit_idx mod ELEM_BITS)).
Definition elem_cnt (bit_cnt : Z) : Z := u32 (u32 (bit_cnt + ELEM_BITS) - 1) / ELEM_BITS.
Definition byte_cnt (bit_cnt : Z) : Z := u32 (4 * elem_cnt bit_cnt).
Definition last_mask (b : bitmap) : Z :=
  let last_bits := bit_cnt b mod ELEM_BITS in
  if last_bits =? 0 then 2 ^ 32 - 1 else u32 (u32 (Z.shiftl 1 last_bits) - 1).

Definition bitmap_size (b : bitmap) : Z := bit_cnt b.

(** [b->bits[idx] = f (b->bits[idx])] *)
Definition alter_elem (f : Z → Z) (b : bitmap) (idx : Z) : res bitmap :=
  match bits b !! Z.to_nat idx with
  | Some w => Ok (mk_bitmap (bit_cnt b) (<[Z.to_nat idx := f w]> (bits b)))
  | None => Fail Undef
  end.

Definition bitmap_mark (b : bitmap) (bit_idx : Z) : res bitmap :=
  alter_elem (λ w, Z.lor w (bit_mask bit_idx)) b (elem_idx bit_idx).
Definition bitmap_reset (b : bitmap) (bit_idx : Z) : res bitmap :=
  alter_elem (λ w, Z.land w (u32 (Z.lnot (bit_mask bit_idx)))) b (elem_idx bit_idx).
Definition bitmap_flip (b : bitmap) (bit_idx : Z) : res bitmap :=
  alter_elem (λ w, Z.lxor w (bit_mask bit_idx)) b (elem_idx bit_idx).

Definition bitmap_set (b : bitmap) (idx : Z) (value : bool) : res bitmap :=
  rassert (idx <? bit_cnt b) ;;?
  if value then bitmap_mark b idx else bitmap_reset b idx.

Definition bitmap_test (b : bitmap) (idx : Z) : res bool :=
  rassert (idx <? bit_cnt b) ;;?
  let? w := rneed (bits b !! Z.to_nat (elem_idx idx)) in
  Ok (negb (Z.land w (bit_mask idx) =? 0)).

(** The [for] loops over [i = 0 .. cnt - 1]; [n] counts the rounds left. *)
Fixpoint set_loop (n : nat) (b : bitmap) (start i : Z) (value : bool) : res bitmap :=
  match n with
  | O => Ok b
  | S n' => let? b' := bitmap_set b (u32 (start + i)) value in set_loop n' b' start (i + 1) value
  end.

Definition check_range (b : bitmap) (start cnt : Z) : res unit :=
  rassert (start <=? bit_cnt b) ;;? rassert (u32 (start + cnt) <=? bit_cnt b).

Definition bitmap_set_multiple (b : bitmap) (start cnt : Z) (value : bool) : res bitmap :=
  check_range b start cnt ;;? set_loop (Z.to_nat cnt) b start 0 value.

Definition bitmap_set_all (b : bitmap) (value : bool) : res bitmap :=
  bitmap_set_multiple b 0 (bitmap_size b) value.

Fixpoint count_loop (n : nat) (b : bitmap) (start i : Z) (value : bool) (value_cnt : Z) : res Z :=
  match n with
  | O => Ok value_cnt
  | S n' =>
      let? t := bitmap_test b (u32 (start + i)) in
      count_loop n' b start (i + 1) value (if eqb t value then value_cnt + 1 else value_cnt)
  end.

Definition bitmap_count (b : bitmap) (start cnt : Z) (value : bool) : res Z :=
  check_range b start cnt ;;? count_loop (Z.to_nat cnt) b start 0 value 0.

Fixpoint contains_loop (n : nat) (b : bitmap) (start i : Z) (value : bool) : res bool :=
  match n with
  | O => Ok false
  | S n' =>
      let? t := bitmap_test b (u32 (start + i)) in
      if eqb t value then Ok true else contains_loop n' b start (i + 1) value
  end.

Definition bitmap_contains (b : bitmap) (start cnt : Z) (value : bool) : res bool :=
  check_range b start cnt ;;? contains_loop (Z.to_nat cnt) b start 0 value.

Definition bitmap_any (b : bitmap) (start cnt : Z) : res bool :=
  bitmap_contains b start cnt true.
Definition bitmap_none (b : bitmap) (start cnt : Z) : res bool :=
  let? c := bitmap_contains b start cnt true in Ok (negb c).
Definition bitmap_all (b : bitmap) (start cnt : Z) : res bool :=
  let? c := bitmap_contains b start cnt false in Ok (negb c).

(** [for (i = start; i <= last; i++)]; [n] counts the rounds left. *)
Fixpoint scan_loop (n : nat) (b : bitmap) (i cnt : Z) (value : bool) : res Z :=
  match n with
  | O => Ok BITMAP_ERROR
  | S n' =>
      let? c := bitmap_contains b i cnt (negb value) in
      if c then scan_loop n' b (i + 1) cnt value else Ok i
  end.

Definition bitmap_scan (b : bitmap) (start cnt : Z) (value : bool) : res Z :=
  rassert (start <=? bit_cnt b) ;;?
  if cnt <=? bit_cnt b
  then scan_loop (Z.to_nat (bit_cnt b - cnt + 1 - start)) b start cnt value
  else Ok BITMAP_ERROR.

Definition bitmap_scan_and_flip (b : bitmap) (start cnt : Z) (value : bool) : res (Z * bitmap) :=
  let? idx := bitmap_scan b start cnt value in
  if idx =? BITMAP_ERROR then Ok (idx, b)
  else let? b' := bitmap_set_multiple b idx cnt (negb value) in Ok (idx, b').

(** [bitmap_create]: the two allocations may fail; [junk] is what the fresh word
    array holds. *)
Definition bitmap_create (b_ok bits_ok : bool) (junk : list Z) (n : Z) : res (option bitmap) :=
  if b_ok then
    if bits_ok || (n =? 0)
    then let? b := bitmap_set_all (mk_bitmap n (take (Z.to_nat (elem_cnt n)) junk)) false in
         Ok (Some b)
    else Ok None
  else Ok None.

Definition bitmap_buf_size (n : Z) : Z := u32 (8 + byte_cnt n).

(** [bitmap_create_in_buf] on a block of [block_size] bytes whose words after the
    two-word header are [junk]. *)
Definition bitmap_create_in_buf (n : Z) (junk : list Z) (block_size : Z) : res bitmap :=
  rassert (bitmap_buf_size n <=? block_size) ;;?
  bitmap_set_all (mk_bitmap n (take (Z.to_nat (elem_cnt n)) junk)) false.

Definition bitmap_file_size (b : bitmap) : Z := byte_cnt (bit_cnt b).

(** ** Well-formed bitmaps and their bits *)

Definition bm_word (b : bitmap) (i : Z) : Z := default 0 (bits b !! Z.to_nat (i / 32)).
Definition bm_bit (b : bitmap) (i : Z) : bool := Z.testbit (bm_word b i) (i mod 32).

Record bm_wf (b : bitmap) : Prop := {
  wf_cnt : 0 <= bit_cnt b < 2 ^ 31;
  wf_len : Z.of_nat (length (bits b)) = (bit_cnt b + 31) / 32;
  wf_words : Forall in_u32 (bits b)
}.

Lemma bm_word_lookup b i :
  bm_wf b → 0 <= i < bit_cnt b →
  bits b !! Z.to_nat (i / 32) = Some (bm_word b i) ∧ in_u32 (bm_word b i).
Proof.
  intros [Hc Hl Hw] Hi.
  destruct (lookup_lt_is_Some_2 (bits b) (Z.to_nat (i / 32))) as [w Hlk]; [mod_lia|].
  unfold bm_word. rewrite Hlk. split; [done|]. simpl. by eapply Forall_lookup_1.
Qed.

Lemma bit_mask_pow i : bit_mask i = 2 ^ (i mod 32).
Proof.
  unfold bit_mask, ELEM_BITS. pose proof (Z.mod_pos_bound i 32 ltac:(lia)).
  rewrite Z.shiftl_mul_pow2, Z.mul_1_l by lia. apply u32_id. split.
  - apply Z.pow_nonneg. lia.
  - apply Z.pow_lt_mono_r; lia.
Qed.

Lemma testbit_high w n : in_u32 w → 32 <= n → Z.testbit w n = false.
Proof.
  intros [H0 H1] Hn. destruct (Z.eq_dec w 0) as [->|]; [apply Z.bits_0|].
  apply Z.bits_above_log2; [lia|]. enough (Z.log2 w < 32) by lia. apply Z.log2_lt_pow2; lia.
Qed.

Lemma in_u32_testbit w :
  0 <= w → (∀ n, 32 <= n → Z.testbit w n = false) → in_u32 w.
Proof.
  intros H0 H. split; [done|]. destruct (Z.lt_ge_cases w (2 ^ 32)) as [|Hge]; [done|].
  exfalso. assert (Hw : w ≠ 0) by lia.
  pose proof (Z.bit_log2 w ltac:(lia)) as Hb. rewrite H in Hb; [done|].
  apply Z.log2_le_pow2; lia.
Qed.

Lemma testbit_u32 x n : 0 <= n → Z.testbit (u32 x) n = (n <? 32) && Z.testbit x n.
Proof.
  intros Hn. unfold u32. destruct (Z.ltb_spec n 32); simpl.
  - by apply Z.mod_pow2_bits_low.
  - apply Z.mod_pow2_bits_high. lia.
Qed.

(** The value of one bit after each of the three single-bit instructions. *)
Lemma word_ops_testbit w i n :
  in_u32 w → 0 <= n < 32 →
  let m := bit_mask i in
  Z.testbit (Z.lor w m) n = (Z.testbit w n || (n =? i mod 32)) ∧
  Z.testbit (Z.land w (u32 (Z.lnot m))) n = (Z.testbit w n && negb (n =? i mod 32)) ∧
  Z.testbit (Z.lxor w m) n = xorb (Z.testbit w n) (n =? i mod 32).
Proof.
  intros Hw Hn m. unfold m. rewrite bit_mask_pow.
  pose proof (Z.mod_pos_bound i 32 ltac:(lia)).
  rewrite Z.lor_spec, Z.land_spec, Z.lxor_spec, testbit_u32, Z.lnot_spec by lia.
  rewrite Z.pow2_bits_eqb by lia. rewrite (Z.eqb_sym (i mod 32) n).
  destruct (Z.ltb_spec n 32); [done|lia].
Qed.

Lemma word_ops_range w i :
  in_u32 w → let m := bit_mask i in
  in_u32 (Z.lor w m) ∧ in_u32 (Z.land w (u32 (Z.lnot m))) ∧ in_u32 (Z.lxor w m).
Proof.
  intros Hw m. assert (Hm : in_u32 m) by apply u32_range.
  pose proof (u32_range (Z.lnot m)) as Hn.
  repeat split.
  all: try (apply Z.lor_nonneg || apply Z.land_nonneg || apply Z.lxor_nonneg);
    unfold in_u32 in *; try lia.
  all: apply in_u32_testbit;
    [ (apply Z.lor_nonneg || apply Z.land_nonneg || apply Z.lxor_nonneg); lia
    | intros n Hnn; rewrite ?Z.lor_spec, ?Z.land_spec, ?Z.lxor_spec;
      rewrite (testbit_high w n) by (done || lia);
      rewrite ?(testbit_high m n) by (done || lia); done ].
Qed.

(** One lemma for the three single-bit updates: [f] changes bit [i] of a word by
    [g] and leaves the others. *)
Lemma alter_elem_spec f g b i :
  bm_wf b → 0 <= i < bit_cnt b →
  (∀ w, in_u32 w → in_u32 (f w)) →
  (∀ w n, in_u32 w → 0 <= n < 32 →
     Z.testbit (f w) n = if n =? i mod 32 then g (Z.testbit w n) else Z.testbit w n) →
  ∃ b', alter_elem f b (elem_idx i) = Ok b' ∧ bm_wf b' ∧ bit_cnt b' = bit_cnt b ∧
        ∀ j, 0 <= j < bit_cnt b → bm_bit b' j = if j =? i then g (bm_bit b j) else bm_bit b j.
Proof.
  intros Hwf Hi Hr Hf. destruct (bm_word_lookup b i Hwf Hi) as [Hlk Hw].
  unfold alter_elem, elem_idx, ELEM_BITS. rewrite Hlk. eexists; split; [reflexivity|].
  destruct Hwf as [Hc Hl Hws]. split; [split; simpl|split; [done|]].
  - done.
  - by rewrite length_insert.
  - apply Forall_insert; auto.
  - intros j Hj. unfold bm_bit, bm_word. simpl.
    destruct (decide (Z.to_nat (j / 32) = Z.to_nat (i / 32))) as [E|E].
    + rewrite E. rewrite list_lookup_insert_eq by (eapply lookup_lt_Some; eauto).
      rewrite Hlk. simpl. rewrite Hf by (done || mod_lia).
      assert (j / 32 = i / 32) by mod_lia.
      destruct (Z.eqb_spec (j mod 32) (i mod 32)), (Z.eqb_spec j i); try done; mod_lia.
    + rewrite list_lookup_insert_ne by done.
      destruct (Z.eqb_spec j i) as [->|]; [done|done].
Qed.

Lemma bitmap_set_spec b i v :
  bm_wf b → 0 <= i < bit_cnt b →
  ∃ b', bitmap_set b i v = Ok b' ∧ bm_wf b' ∧ bit_cnt b' = bit_cnt b ∧
        ∀ j, 0 <= j < bit_cnt b → bm_bit b' j = if j =? i then v else bm_bit b j.
Proof.
  intros Hwf Hi. unfold bitmap_set, rassert. destruct (Z.ltb_spec i (bit_cnt b)); [|lia]. simpl.
  destruct v.
  - apply (alter_elem_spec _ (λ _, true)); try done; intros; [by apply word_ops_range|].
    destruct (word_ops_testbit w i n) as [-> _]; [done..|].
    destruct (n =? i mod 32); [apply orb_true_r|apply orb_false_r].
  - apply (alter_elem_spec _ (λ _, false)); try done; intros; [by apply word_ops_range|].
    destruct (word_ops_testbit w i n) as [_ [-> _]]; [done..|].
    destruct (n =? i mod 32); [apply andb_false_r|apply andb_true_r].
Qed.

Lemma bitmap_flip_spec b i :
  bm_wf b → 0 <= i < bit_cnt b →
  ∃ b', bitmap_flip b i = Ok b' ∧ bm_wf b' ∧ bit_cnt b' = bit_cnt b ∧
        ∀ j, 0 <= j < bit_cnt b → bm_bit b' j = if j =? i then negb (bm_bit b j) else bm_bit b j.
Proof.
  intros Hwf Hi. apply (alter_elem_spec _ negb); try done; intros; [by apply word_ops_range|].
  destruct (word_ops_testbit w i n) as [_ [_ ->]]; [done..|].
  destruct (n =? i mod 32); [apply xorb_true_r|apply xorb_false_r].
Qed.

Lemma bitmap_test_spec b i :
  bm_wf b → 0 <= i < bit_cnt b → bitmap_test b i = Ok (bm_bit b i).
Proof.
  intros Hwf Hi. destruct (bm_word_lookup b i Hwf Hi) as [Hlk Hw].
  unfold bitmap_test, rassert. destruct (Z.ltb_spec i (bit_cnt b)); [|lia]. simpl.
  unfold elem_idx, ELEM_BITS. rewrite Hlk. simpl. f_equal. unfold bm_bit.
  rewrite bit_mask_pow. pose proof (Z.mod_pos_bound i 32 ltac:(lia)).
  set (w := bm_word b i) in *. set (n := i mod 32) in *.
  destruct (Z.eqb_spec (Z.land w (2 ^ n)) 0) as [E|E].
  - assert (Hn : Z.testbit (Z.land w (2 ^ n)) n = false) by (rewrite E; apply Z.bits_0).
    rewrite Z.land_spec, Z.pow2_bits_true, andb_true_r in Hn by lia. by rewrite Hn.
  - destruct (Z.testbit w n) eqn:Ht; [done|]. exfalso. apply E. apply Z.bits_inj_0. intros k.
    rewrite Z.land_spec. rewrite Z.pow2_bits_eqb by lia.
    destruct (Z.eqb_spec n k) as [<-|]; [by rewrite Ht|apply andb_false_r].
Qed.

(** Outside the bitmap the operations stop at their assertion. *)
Lemma bitmap_set_out_of_range b i v :
  bit_cnt b <= i → bitmap_set b i v = Fail AssertFailed ∧ bitmap_test b i = Fail AssertFailed.
Proof.
  intros Hi. unfold bitmap_set, bitmap_test, rassert.
  destruct (Z.ltb_spec i (bit_cnt b)); [lia|done].
Qed.

(** ** Ranges of bits *)

Definition in_range (start cnt j : Z) : bool := (start <=? j) && (j <? start + cnt).
Definition all_bits (b : bitmap) (start cnt : Z) (v : bool) : Prop :=
  ∀ j, start <= j < start + cnt → bm_bit b j = v.

Lemma check_range_ok b start cnt :
  bm_wf b → 0 <= start → 0 <= cnt → start + cnt <= bit_cnt b → check_range b start cnt = Ok tt.
Proof.
  intros [Hc _ _] Hs Hn Hr. unfold check_range, rassert.
  destruct (Z.leb_spec start (bit_cnt b)); [|lia]. simpl. rewrite u32_id by int_lia.
  destruct (Z.leb_spec (start + cnt) (bit_cnt b)); [done|lia].
Qed.

Lemma set_loop_spec n b start i v :
  bm_wf b → 0 <= start → 0 <= i → start + i + Z.of_nat n <= bit_cnt b →
  ∃ b', set_loop n b start i v = Ok b' ∧ bm_wf b' ∧ bit_cnt b' = bit_cnt b ∧
        ∀ j, 0 <= j < bit_cnt b →
          bm_bit b' j = if in_range (start + i) (Z.of_nat n) j then v else bm_bit b j.
Proof.
  revert b i. induction n as [|n IH]; intros b i Hwf Hs Hi Hr; simpl.
  - exists b. repeat split; try done; try apply Hwf.
    intros j Hj. unfold in_range.
    z_cases.
  - pose proof (wf_cnt _ Hwf). rewrite u32_id by int_lia.
    destruct (bitmap_set_spec b (start + i) v Hwf) as (b1 & -> & Hwf1 & Hc1 & Hb1); [lia|]. simpl.
    destruct (IH b1 (i + 1) Hwf1) as (b2 & -> & Hwf2 & Hc2 & Hb2); [lia..|].
    exists b2. split; [done|]. split; [done|]. split; [congruence|].
    intros j Hj. rewrite Hb2, Hb1 by lia. unfold in_range.
    z_cases.
Qed.

Lemma bitmap_set_multiple_spec b start cnt v :
  bm_wf b → 0 <= start → 0 <= cnt → start + cnt <= bit_cnt b →
  ∃ b', bitmap_set_multiple b start cnt v = Ok b' ∧ bm_wf b' ∧ bit_cnt b' = bit_cnt b ∧
        ∀ j, 0 <= j < bit_cnt b → bm_bit b' j = if in_range start cnt j then v else bm_bit b j.
Proof.
  intros Hwf Hs Hn Hr. unfold bitmap_set_multiple. rewrite check_range_ok by done. simpl.
  destruct (set_loop_spec (Z.to_nat cnt) b start 0 v) as (b' & ? & ? & ? & Hb); [done|lia..|].
  exists b'. repeat split; try done; try apply H0. intros j Hj. rewrite Hb by done.
  by rewrite Z.add_0_r, Z2Nat.id by lia.
Qed.

Lemma contains_loop_spec n b start i v :
  bm_wf b → 0 <= start → 0 <= i → start + i + Z.of_nat n <= bit_cnt b →
  ∃ r, contains_loop n b start i v = Ok r ∧
       (r = false ↔ all_bits b (start + i) (Z.of_nat n) (negb v)).
Proof.
  intros Hwf Hs. revert i. induction n as [|n IH]; intros i Hi Hr; cbn [contains_loop].
  - exists false. split; [done|]. split; [|done]. intros _ j Hj. lia.
  - pose proof (wf_cnt _ Hwf). rewrite u32_id by int_lia.
    rewrite bitmap_test_spec by (done || lia). cbn [rbind].
    destruct (eqb _ v) eqn:E.
    + apply eqb_prop in E. exists true. split; [done|]. split; [done|].
      intros Hall. specialize (Hall (start + i) ltac:(lia)). rewrite E in Hall. by destruct v.
    + destruct (IH (i + 1)) as (r & -> & Hiff); [lia..|]. exists r. split; [done|].
      rewrite Hiff. unfold all_bits. split; intros Hall j Hj.
      * destruct (Z.eq_dec j (start + i)) as [->|]; [|apply Hall; lia].
        destruct (bm_bit b (start + i)), v; done.
      * apply Hall. lia.
Qed.

Lemma bitmap_contains_spec b start cnt v :
  bm_wf b → 0 <= start → 0 <= cnt → start + cnt <= bit_cnt b →
  ∃ r, bitmap_contains b start cnt v = Ok r ∧ (r = false ↔ all_bits b start cnt (negb v)).
Proof.
  intros Hwf Hs Hn Hr. unfold bitmap_contains. rewrite check_range_ok by done. simpl.
  destruct (contains_loop_spec (Z.to_nat cnt) b start 0 v) as (r & -> & Hiff); [done|lia..|].
  exists r. split; [done|]. by rewrite Hiff, Z.add_0_r, Z2Nat.id by lia.
Qed.

Lemma bitmap_all_spec b start cnt :
  bm_wf b → 0 <= start → 0 <= cnt → start + cnt <= bit_cnt b →
  ∃ r, bitmap_all b start cnt = Ok r ∧ (r = true ↔ all_bits b start cnt true).
Proof.
  intros Hwf Hs Hn Hr. unfold bitmap_all.
  destruct (bitmap_contains_spec b start cnt false) as (r & -> & Hiff); [done..|]. simpl.
  exists (negb r). split; [done|]. rewrite negb_true_iff. apply Hiff.
Qed.

Definition scan_result (b : bitmap) (start cnt : Z) (v : bool) (r : Z) : Prop :=
  (r = BITMAP_ERROR ∧ ∀ s, start <= s <= bit_cnt b - cnt → ¬ all_bits b s cnt v) ∨
  (start <= r <= bit_cnt b - cnt ∧ all_bits b r cnt v ∧
   ∀ s, start <= s < r → ¬ all_bits b s cnt v).

Lemma scan_loop_spec n b i cnt v :
  bm_wf b → 0 <= i → 0 <= cnt → (n ≠ 0%nat → i + Z.of_nat n = bit_cnt b - cnt + 1) →
  (n = 0%nat → bit_cnt b - cnt < i) →
  ∃ r, scan_loop n b i cnt v = Ok r ∧ scan_result b i cnt v r.
Proof.
  intros Hwf. revert i. induction n as [|n IH]; intros i Hi Hc Hn Hn0; cbn [scan_loop].
  - exists BITMAP_ERROR. split; [done|]. left. split; [done|]. intros s Hs. lia.
  - destruct (bitmap_contains_spec b i cnt (negb v)) as (c & -> & Hiff); [done|lia..|]. cbn [rbind].
    rewrite negb_involutive in Hiff. destruct c.
    + assert (Hnot : ¬ all_bits b i cnt v) by (intros Ha; by apply Hiff in Ha).
      destruct (IH (i + 1)) as (r & -> & Hres); [lia..|]. exists r. split; [done|].
      destruct Hres as [[-> Hno]|(Hr & Hall & Hno)]; [left|right]; (split; [done || lia|]).
      * intros s Hs. destruct (Z.eq_dec s i) as [->|]; [done|apply Hno; lia].
      * split; [done|]. intros s Hs. destruct (Z.eq_dec s i) as [->|]; [done|apply Hno; lia].
    + exists i. split; [done|]. right. split; [lia|]. split; [by apply Hiff|]. intros s Hs. lia.
Qed.

Lemma bitmap_scan_spec b start cnt v :
  bm_wf b → 0 <= start <= bit_cnt b → 0 <= cnt →
  ∃ r, bitmap_scan b start cnt v = Ok r ∧ scan_result b start cnt v r.
Proof.
  intros Hwf Hs Hc. unfold bitmap_scan, rassert.
  destruct (Z.leb_spec start (bit_cnt b)); [|lia]. cbn [rbind].
  destruct (Z.leb_spec cnt (bit_cnt b)).
  - apply scan_loop_spec; [done|lia..].
  - exists BITMAP_ERROR. split; [done|]. left. split; [done|]. lia.
Qed.

Lemma bitmap_scan_and_flip_spec b start cnt v :
  bm_wf b → 0 <= start <= bit_cnt b → 0 <= cnt →
  ∃ r b', bitmap_scan_and_flip b start cnt v = Ok (r, b') ∧ scan_result b start cnt v r ∧
    bm_wf b' ∧ bit_cnt b' = bit_cnt b ∧
    ∀ j, 0 <= j < bit_cnt b →
      bm_bit b' j = if negb (r =? BITMAP_ERROR) && in_range r cnt j then negb v else bm_bit b j.
Proof.
  intros Hwf Hs Hc. unfold bitmap_scan_and_flip. pose proof (wf_cnt _ Hwf).
  destruct (bitmap_scan_spec b start cnt v) as (r & -> & Hres); [done..|]. cbn [rbind].
  destruct (Z.eqb_spec r BITMAP_ERROR) as [->|Hne].
  - exists BITMAP_ERROR, b. repeat split; try done; try apply Hwf.
  - destruct Hres as [[? _]|(Hr & Hall & Hno)]; [done|].
    destruct (bitmap_set_multiple_spec b r cnt (negb v)) as (b' & -> & Hwf' & Hc' & Hb'); [done|lia..|].
    cbn [rbind]. exists r, b'. split; [done|]. split; [by right|]. split; [done|]. split; [done|]. by rewrite (proj2 (Z.eqb_neq _ _) Hne).
Qed.

Lemma bm_wf_make n junk :
  0 <= n < 2 ^ 31 → Z.of_nat (length junk) = (n + 31) / 32 → Forall in_u32 junk →
  bm_wf (mk_bitmap n (take (Z.to_nat (elem_cnt n)) junk)) ∧ elem_cnt n = (n + 31) / 32.
Proof.
  intros Hn Hl Hj.
  assert (E : elem_cnt n = (n + 31) / 32).
  { unfold elem_cnt, ELEM_BITS. rewrite (u32_id (n + 32)), u32_id by int_lia. f_equal. lia. }
  rewrite E, <- Hl, Nat2Z.id, firstn_all. done.
Qed.

Lemma bitmap_create_spec n junk :
  0 <= n < 2 ^ 31 → Z.of_nat (length junk) = (n + 31) / 32 → Forall in_u32 junk →
  ∃ b, bitmap_create true true junk n = Ok (Some b) ∧ bm_wf b ∧ bit_cnt b = n ∧ all_bits b 0 n false.
Proof.
  intros Hn Hl Hj. destruct (bm_wf_make n junk Hn Hl Hj) as [Hwf _].
  unfold bitmap_create, bitmap_set_all, bitmap_size. simpl (bit_cnt _). cbn [orb].
  destruct (bitmap_set_multiple_spec _ 0 n false Hwf) as (b & -> & Hwf' & Hc & Hb); [simpl; lia..|].
  cbn [rbind]. exists b. split; [done|]. split; [done|]. split; [done|].
  intros j Hjr. rewrite Hb by (simpl; lia). unfold in_range.
  z_cases.
Qed.

Fixpoint count_spec (b : bitmap) (start : Z) (n : nat) (v : bool) : Z :=
  match n with
  | O => 0
  | S n' => (if eqb (bm_bit b start) v then 1 else 0) + count_spec b (start + 1) n' v
  end.

Lemma count_loop_spec n b start i v acc :
  bm_wf b → 0 <= start → 0 <= i → start + i + Z.of_nat n <= bit_cnt b →
  count_loop n b start i v acc = Ok (acc + count_spec b (start + i) n v).
Proof.
  intros Hwf Hs. revert i acc. induction n as [|n IH]; intros i acc Hi Hr; cbn [count_loop count_spec].
  - by rewrite Z.add_0_r.
  - pose proof (wf_cnt _ Hwf). rewrite u32_id by int_lia.
    rewrite bitmap_test_spec by (done || lia). cbn [rbind].
    rewrite IH by lia. f_equal. rewrite Z.add_assoc. destruct (eqb _ v); lia.
Qed.

Lemma bitmap_count_one b i v :
  bm_wf b → 0 <= i < bit_cnt b →
  bitmap_count b i 1 v = Ok (if eqb (bm_bit b i) v then 1 else 0).
Proof.
  intros Hwf Hi. unfold bitmap_count. rewrite check_range_ok by (done || lia). cbn [rbind].
  rewrite (count_loop_spec 1) by (done || lia). simpl. by rewrite !Z.add_0_r.
Qed.

(** ** Properties *)

(** [bitmap_set_multiple] changes exactly the [cnt] bits from [start] to the
    given value; every other bit, the size and well-formedness are kept. *)
Theorem bitmap_set_multiple_bits (b : bitmap) (start cnt : Z) (v : bool) :
  bm_wf b → 0 <= start → 0 <= cnt → start + cnt <= bit_cnt b →
  ∃ b', bitmap_set_multiple b start cnt v = Ok b' ∧ bm_wf b' ∧ bit_cnt b' = bit_cnt b ∧
        ∀ j, 0 <= j < bit_cnt b →
          bitmap_test b' j = Ok (if in_range start cnt j then v else bm_bit b j).
Proof.
  intros Hwf Hs Hc Hr.
  destruct (bitmap_set_multiple_spec b start cnt v) as (b' & E & Hwf' & Hc' & Hb); [done..|].
  exists b'. split; [done|]. split; [done|]. split; [done|].
  intros j Hj. rewrite bitmap_test_spec by (done || lia). by rewrite Hb.
Qed.

Lemma bitmap_set_multiple_bits_witness :
  ∃ b', bitmap_set_multiple (mk_bitmap 40 [0; 0]) 30 5 true = Ok b' ∧ bm_wf b' ∧ bit_cnt b' = 40 ∧
        ∀ j, 0 <= j < 40 →
          bitmap_test b' j = Ok (if in_range 30 5 j then true else bm_bit (mk_bitmap 40 [0; 0]) j).
Proof.
  apply (bitmap_set_multiple_bits (mk_bitmap 40 [0; 0]) 30 5 true); [|simpl; lia..].
  split; [simpl; lia|done|repeat constructor; done].
Defined.

(** [bitmap_scan_and_flip] finds the lowest group of [cnt] equal bits: it
    returns [BITMAP_ERROR] and leaves the bitmap alone exactly when there is no
    such group, and otherwise flips precisely the first group. *)
Theorem bitmap_scan_and_flip_first (b : bitmap) (start cnt : Z) (v : bool) :
  bm_wf b → 0 <= start <= bit_cnt b → 0 <= cnt →
  ∃ r b', bitmap_scan_and_flip b start cnt v = Ok (r, b') ∧ bm_wf b' ∧ bit_cnt b' = bit_cnt b ∧
    (r = BITMAP_ERROR →
       b' = b ∧ ∀ s, start <= s <= bit_cnt b - cnt → ¬ all_bits b s cnt v) ∧
    (r ≠ BITMAP_ERROR →
       start <= r <= bit_cnt b - cnt ∧ all_bits b r cnt v ∧
       (∀ s, start <= s < r → ¬ all_bits b s cnt v) ∧
       ∀ j, 0 <= j < bit_cnt b →
         bm_bit b' j = if in_range r cnt j then negb v else bm_bit b j).
Proof.
  intros Hwf Hs Hc.
  destruct (bitmap_scan_and_flip_spec b start cnt v) as (r & b' & E & Hres & Hwf' & Hc' & Hb); [done..|].
  exists r, b'. split; [done|]. split; [done|]. split; [done|]. pose proof (wf_cnt _ Hwf).
  destruct Hres as [[-> Hno]|(Hr & Hall & Hno)]; split; intros Hre; try done.
  - split; [|done]. unfold bitmap_scan_and_flip in E. run_inv.
    destruct (Z.eqb_spec a BITMAP_ERROR); run_inv; done.
  - unfold BITMAP_ERROR in Hre. lia.
  - split; [done|]. split; [done|]. split; [done|]. intros j Hj. rewrite Hb by done.
    by rewrite (proj2 (Z.eqb_neq _ _) Hre).
Qed.

Lemma bitmap_scan_and_flip_first_witness :
  ∃ r b', bitmap_scan_and_flip (mk_bitmap 8 [5]) 0 2 false = Ok (r, b') ∧ r = 3.
Proof.
  destruct (bitmap_scan_and_flip_first (mk_bitmap 8 [5]) 0 2 false)
    as (r & b' & E & _); [split; [simpl; lia|done|repeat constructor; done]|simpl; lia..|].
  exists r, b'. split; [done|]. vm_compute in E. by injection E as <- _.
Defined.
