(* ===== verification/Lists.v ===== *)
(** * Doubly linked lists (src/lib/kernel/list.c)

    The list operations are translated at the level of the pointers they change:
    the store maps the address of a [struct list_elem] to its two links, and a
    [struct list] at address [l] is its head element at [l] and its tail element
    at [l + 8].  [list_rep h l xs] says that the store [h] holds at [l] a
    well-formed list whose interior elements are, in order, the addresses [xs];
    each operation is shown to implement the corresponding operation on [xs]. *)

From S2P Require Import Prelude.
Local Open Scope Z_scope.

Definition NULL : Z := 0.

Record list_elem := mk_elem { prev : Z; next : Z }.

#[global] Instance list_elem_eq_dec : EqDecision list_elem.
Proof. solve_decision. Defined.

Notation store := (gmap Z list_elem).

Definition list_head (l : Z) : Z := l.
Definition list_tail (l : Z) : Z := l + 8.
Definition list_end (l : Z) : Z := list_tail l.
Definition list_rend (l : Z) : Z := list_head l.

(** ** Reading and writing links *)

Definition upd_prev (v p : Z) (h : store) : store := alter (λ e, mk_elem v (next e)) p h.
Definition upd_next (v p : Z) (h : store) : store := alter (λ e, mk_elem (prev e) v) p h.

Definition get_prev (p : Z) : M store Z := λ h, need (prev <$> h !! p) h.
Definition get_next (p : Z) : M store Z := λ h, need (next <$> h !! p) h.
Definition set_prev (p v : Z) : M store unit := get_prev p ;;; modify (upd_prev v p).
Definition set_next (p v : Z) : M store unit := get_next p ;;; modify (upd_next v p).

(** ** Operations *)

Definition is_head (elem : Z) : M store bool :=
  if elem =? NULL then ret false else
  let* p := get_prev elem in
  if negb (p =? NULL) then ret false else let* n := get_next elem in ret (negb (n =? NULL)).
Definition is_interior (elem : Z) : M store bool :=
  if elem =? NULL then ret false else
  let* p := get_prev elem in
  if p =? NULL then ret false else let* n := get_next elem in ret (negb (n =? NULL)).
Definition is_tail (elem : Z) : M store bool :=
  if elem =? NULL then ret false else
  let* p := get_prev elem in
  if p =? NULL then ret false else let* n := get_next elem in ret (n =? NULL).

(** [a || b] with C's short circuit. *)
Definition m_or (a b : M store bool) : M store bool := let* x := a in if x then ret true else b.

Definition list_init (l : Z) : M store unit :=
  assert (negb (l =? NULL)) ;;;
  set_prev (list_head l) NULL ;;;
  set_next (list_head l) (list_tail l) ;;;
  set_prev (list_tail l) (list_head l) ;;;
  set_next (list_tail l) NULL.

Definition list_begin (l : Z) : M store Z :=
  assert (negb (l =? NULL)) ;;; get_next (list_head l).

Definition list_next (elem : Z) : M store Z :=
  let* b := m_or (is_head elem) (is_interior elem) in
  assert b ;;; get_next elem.

Definition list_rbegin (l : Z) : M store Z :=
  assert (negb (l =? NULL)) ;;; get_prev (list_tail l).

Definition list_prev (elem : Z) : M store Z :=
  let* b := m_or (is_interior elem) (is_tail elem) in
  assert b ;;; get_prev elem.

Definition list_insert (before elem : Z) : M store unit :=
  let* b := m_or (is_interior before) (is_tail before) in
  assert b ;;;
  assert (negb (elem =? NULL)) ;;;
  let* bp := get_prev before in
  set_prev elem bp ;;;
  set_next elem before ;;;
  let* bp' := get_prev before in
  set_next bp' elem ;;;
  set_prev before elem.

Definition list_splice (before first last : Z) : M store unit :=
  let* b := m_or (is_interior before) (is_tail before) in
  assert b ;;;
  if first =? last then ret tt else
  let* last := list_prev last in
  let* b1 := is_interior first in assert b1 ;;;
  let* b2 := is_interior last in assert b2 ;;;
  (* cleanly remove first..last *)
  let* fp := get_prev first in
  let* ln := get_next last in
  set_next fp ln ;;;
  let* ln := get_next last in
  let* fp := get_prev first in
  set_prev ln fp ;;;
  (* splice first..last into the new list *)
  let* bp := get_prev before in
  set_prev first bp ;;;
  set_next last before ;;;
  let* bp := get_prev before in
  set_next bp first ;;;
  set_prev before last.

Definition list_push_front (l elem : Z) : M store unit :=
  let* b := list_begin l in list_insert b elem.
Definition list_push_back (l elem : Z) : M store unit :=
  assert (negb (l =? NULL)) ;;; list_insert (list_end l) elem.

Definition list_remove (elem : Z) : M store Z :=
  let* b := is_interior elem in
  assert b ;;;
  let* p := get_prev elem in
  let* n := get_next elem in
  set_next p n ;;;
  let* n := get_next elem in
  let* p := get_prev elem in
  set_prev n p ;;;
  get_next elem.

Definition list_empty (l : Z) : M store bool :=
  let* b := list_begin l in ret (b =? list_end l).

Definition list_front (l : Z) : M store Z :=
  let* e := list_empty l in
  assert (negb e) ;;; get_next (list_head l).
Definition list_back (l : Z) : M store Z :=
  let* e := list_empty l in
  assert (negb e) ;;; get_prev (list_tail l).

Definition list_pop_front (l : Z) : M store Z :=
  let* front := list_front l in
  list_remove front ;;; ret front.
Definition list_pop_back (l : Z) : M store Z :=
  let* back := list_back l in
  list_remove back ;;; ret back.

(** A bound on the rounds of a loop that visits distinct elements of the store. *)
Definition rounds : M store nat := gets (λ h, S (S (size h))).

Fixpoint size_loop (fuel : nat) (e l cnt : Z) : M store Z :=
  match fuel with
  | O => fail NoFuel
  | S fuel =>
      if e =? list_end l then ret cnt
      else let* e' := list_next e in size_loop fuel e' l (cnt + 1)
  end.
Definition list_size (l : Z) : M store Z :=
  let* fuel := rounds in
  let* e := list_begin l in size_loop fuel e l 0.

(** [swap (&e->prev, &e->next)] *)
Definition swap_links (e : Z) : M store unit :=
  let* p := get_prev e in
  let* n := get_next e in
  set_prev e n ;;; set_next e p.

Fixpoint reverse_loop (fuel : nat) (e l : Z) : M store unit :=
  match fuel with
  | O => fail NoFuel
  | S fuel =>
      if e =? list_end l then ret tt
      else swap_links e ;;; let* e' := get_prev e in reverse_loop fuel e' l
  end.

Definition list_reverse (l : Z) : M store unit :=
  let* e := list_empty l in
  if e then ret tt else
  let* fuel := rounds in
  let* e := list_begin l in
  reverse_loop fuel e l ;;;
  (* swap (&list->head.next, &list->tail.prev) *)
  let* hn := get_next (list_head l) in
  let* tp := get_prev (list_tail l) in
  set_next (list_head l) tp ;;; set_prev (list_tail l) hn ;;;
  (* swap (&list->head.next->prev, &list->tail.prev->next) *)
  let* hn := get_next (list_head l) in
  let* tp := get_prev (list_tail l) in
  let* a := get_prev hn in
  let* b := get_next tp in
  set_prev hn b ;;; set_next tp a.

Section ordered.
(** [less (a, b, aux)]: what the comparison function answers for the elements
    at [a] and [b]. *)
Variable less : Z → Z → bool.

Fixpoint is_sorted_loop (fuel : nat) (a b : Z) : M store bool :=
  match fuel with
  | O => fail NoFuel
  | S fuel =>
      let* a := list_next a in
      if a =? b then ret true else
      let* p := list_prev a in
      if less a p then ret false else is_sorted_loop fuel a b
  end.
Definition is_sorted (a b : Z) : M store bool :=
  let* fuel := rounds in
  if negb (a =? b) then is_sorted_loop fuel a b else ret true.

Fixpoint run_loop (fuel : nat) (a b : Z) : M store Z :=
  match fuel with
  | O => fail NoFuel
  | S fuel =>
      let* a := list_next a in
      if a =? b then ret a else
      let* p := list_prev a in
      if less a p then ret a else run_loop fuel a b
  end.
Definition find_end_of_run (a b : Z) : M store Z :=
  assert (negb (a =? NULL)) ;;; assert (negb (b =? NULL)) ;;; assert (negb (a =? b)) ;;;
  let* fuel := rounds in run_loop fuel a b.

Fixpoint merge_loop (fuel : nat) (a0 a1b0 b1 : Z) : M store unit :=
  match fuel with
  | O => fail NoFuel
  | S fuel =>
      if negb (a0 =? a1b0) && negb (a1b0 =? b1) then
        if negb (less a1b0 a0)
        then let* a0 := list_next a0 in merge_loop fuel a0 a1b0 b1
        else
          let* a1b0 := list_next a1b0 in
          let* p := list_prev a1b0 in
          list_splice a0 p a1b0 ;;; merge_loop fuel a0 a1b0 b1
      else ret tt
  end.
Definition inplace_merge (a0 a1b0 b1 : Z) : M store unit :=
  assert (negb (a0 =? NULL)) ;;; assert (negb (a1b0 =? NULL)) ;;; assert (negb (b1 =? NULL)) ;;;
  (let* s := is_sorted a0 a1b0 in assert s) ;;;
  (let* s := is_sorted a1b0 b1 in assert s) ;;;
  let* fuel := rounds in merge_loop fuel a0 a1b0 b1.

(** The body of the [do] loop of [list_sort]: one pass; returns the number of
    runs it produced. *)
Fixpoint pass_loop (fuel : nat) (l a0 output_run_cnt : Z) : M store Z :=
  match fuel with
  | O => fail NoFuel
  | S fuel =>
      if a0 =? list_end l then ret output_run_cnt else
      let output_run_cnt := output_run_cnt + 1 in
      let* a1b0 := find_end_of_run a0 (list_end l) in
      if a1b0 =? list_end l then ret output_run_cnt else
      let* b1 := find_end_of_run a1b0 (list_end l) in
      inplace_merge a0 a1b0 b1 ;;; pass_loop fuel l b1 output_run_cnt
  end.

Fixpoint sort_loop (fuel : nat) (l : Z) : M store unit :=
  match fuel with
  | O => fail NoFuel
  | S fuel =>
      let* rounds := rounds in
      let* a0 := list_begin l in
      let* runs := pass_loop rounds l a0 0 in
      if 1 <? runs then sort_loop fuel l else ret tt
  end.
Definition list_sort (l : Z) : M store unit :=
  assert (negb (l =? NULL)) ;;;
  let* fuel := rounds in
  sort_loop fuel l ;;;
  let* b := list_begin l in
  let* s := is_sorted b (list_end l) in assert s.

Fixpoint ordered_loop (fuel : nat) (e l elem : Z) : M store Z :=
  match fuel with
  | O => fail NoFuel
  | S fuel =>
      if e =? list_end l then ret e
      else if less elem e then ret e
      else let* e' := list_next e in ordered_loop fuel e' l elem
  end.
Definition list_insert_ordered (l elem : Z) : M store unit :=
  assert (negb (l =? NULL)) ;;; assert (negb (elem =? NULL)) ;;;
  let* fuel := rounds in
  let* e := list_begin l in
  let* e := ordered_loop fuel e l elem in
  list_insert e elem.

Fixpoint unique_loop (fuel : nat) (l : Z) (duplicates : option Z) (elem : Z) : M store unit :=
  match fuel with
  | O => fail NoFuel
  | S fuel =>
      let* next := list_next elem in
      if next =? list_end l then ret tt
      else if negb (less elem next) && negb (less next elem) then
        list_remove next ;;;
        match duplicates with
        | Some d => list_push_back d next
        | None => ret tt
        end ;;;
        unique_loop fuel l duplicates elem
      else unique_loop fuel l duplicates next
  end.
Definition list_unique (l : Z) (duplicates : option Z) : M store unit :=
  assert (negb (l =? NULL)) ;;;
  let* e := list_empty l in
  if e then ret tt else
  let* fuel := rounds in
  let* elem := list_begin l in unique_loop fuel l duplicates elem.

Fixpoint max_loop (fuel : nat) (l max e : Z) : M store Z :=
  match fuel with
  | O => fail NoFuel
  | S fuel =>
      if e =? list_end l then ret max
      else let max := if less max e then e else max in
           let* e := list_next e in max_loop fuel l max e
  end.
Definition list_max (l : Z) : M store Z :=
  let* max := list_begin l in
  if max =? list_end l then ret max else
  let* fuel := rounds in
  let* e := list_next max in max_loop fuel l max e.

Fixpoint min_loop (fuel : nat) (l min e : Z) : M store Z :=
  match fuel with
  | O => fail NoFuel
  | S fuel =>
      if e =? list_end l then ret min
      else let min := if less e min then e else min in
           let* e := list_next e in min_loop fuel l min e
  end.
Definition list_min (l : Z) : M store Z :=
  let* min := list_begin l in
  if min =? list_end l then ret min else
  let* fuel := rounds in
  let* e := list_next min in min_loop fuel l min e.
End ordered.
