(* ===== verification/ListSpec.v ===== *)
(** * Doubly linked lists: representation and functional behaviour

    [list_rep] relates the pointer store to a sequence of addresses; the lemmas
    show what each operation of src/lib/kernel/list.c does to that sequence. *)

From S2P Require Import Prelude Lists.
Local Open Scope Z_scope.

Definition nxt (h : store) (x : Z) : option Z := next <$> h !! x.
Definition prv (h : store) (x : Z) : option Z := prev <$> h !! x.

(** Consecutive addresses of [ps] point at each other. *)
Fixpoint linked (h : store) (ps : list Z) : Prop :=
  match ps with
  | a :: ((b :: _) as r) => nxt h a = Some b ∧ prv h b = Some a ∧ linked h r
  | _ => True
  end.

Definition ring (l : Z) (xs : list Z) : list Z := l :: xs ++ [list_tail l].

Record list_rep (h : store) (l : Z) (xs : list Z) : Prop := {
  rep_nodup : NoDup (ring l xs);
  rep_nonnull : NULL ∉ ring l xs;
  rep_linked : linked h (ring l xs);
  rep_head : prv h l = Some NULL;
  rep_tail : nxt h (list_tail l) = Some NULL
}.

(** The address of the element at the start of [xs], the tail when there is none. *)
Definition pos (l : Z) (xs : list Z) : Z := hd (list_tail l) xs.

(** ** Links after an update *)

Lemma nxt_upd_next v p h x :
  nxt (upd_next v p h) x = if decide (x = p) then (λ _, v) <$> nxt h x else nxt h x.
Proof.
  unfold nxt, upd_next. rewrite lookup_alter. repeat case_decide; subst; try congruence; try done.
  by destruct (h !! _).
Qed.
Lemma prv_upd_prev v p h x :
  prv (upd_prev v p h) x = if decide (x = p) then (λ _, v) <$> prv h x else prv h x.
Proof.
  unfold prv, upd_prev. rewrite lookup_alter. repeat case_decide; subst; try congruence; try done.
  by destruct (h !! _).
Qed.
Lemma prv_upd_next v p h x : prv (upd_next v p h) x = prv h x.
Proof. unfold prv, upd_next. rewrite lookup_alter. case_decide; subst; [|done]. by destruct (h !! _). Qed.
Lemma nxt_upd_prev v p h x : nxt (upd_prev v p h) x = nxt h x.
Proof. unfold nxt, upd_prev. rewrite lookup_alter. case_decide; subst; [|done]. by destruct (h !! _). Qed.

Lemma dom_upd_next v p h : dom (upd_next v p h) = dom h.
Proof. unfold upd_next. apply dom_alter_L. Qed.
Lemma dom_upd_prev v p h : dom (upd_prev v p h) = dom h.
Proof. unfold upd_prev. apply dom_alter_L. Qed.
Lemma lookup_upd_next_ne v p h x : x ≠ p → upd_next v p h !! x = h !! x.
Proof. intros. unfold upd_next. by apply lookup_alter_ne. Qed.
Lemma lookup_upd_prev_ne v p h x : x ≠ p → upd_prev v p h !! x = h !! x.
Proof. intros. unfold upd_prev. by apply lookup_alter_ne. Qed.

Lemma nxt_dom h x y : nxt h x = Some y → x ∈ dom h.
Proof. unfold nxt. rewrite elem_of_dom. destruct (h !! x); [eauto|done]. Qed.
Lemma prv_dom h x y : prv h x = Some y → x ∈ dom h.
Proof. unfold prv. rewrite elem_of_dom. destruct (h !! x); [eauto|done]. Qed.
Lemma dom_nxt h x : x ∈ dom h → is_Some (nxt h x).
Proof. unfold nxt. rewrite elem_of_dom. intros [e ->]. eauto. Qed.
Lemma dom_prv h x : x ∈ dom h → is_Some (prv h x).
Proof. unfold prv. rewrite elem_of_dom. intros [e ->]. eauto. Qed.

Create HintDb links.
#[export] Hint Rewrite nxt_upd_next prv_upd_prev prv_upd_next nxt_upd_prev dom_upd_next dom_upd_prev
  : links.

(** Computes a link of an updated store, knowing which addresses differ. *)
Ltac links :=
  autorewrite with links;
  repeat (case_decide; subst; try congruence; try done);
  repeat match goal with
  | H : nxt ?h ?x = Some _ |- context [nxt ?h ?x] => rewrite H
  | H : prv ?h ?x = Some _ |- context [prv ?h ?x] => rewrite H
  end; try congruence; try done.

(** ** Running single accesses *)

Lemma get_next_run h p v : nxt h p = Some v → get_next p h = Ok (v, h).
Proof. unfold nxt, get_next. intros E. by rewrite E. Qed.
Lemma get_prev_run h p v : prv h p = Some v → get_prev p h = Ok (v, h).
Proof. unfold prv, get_prev. intros E. by rewrite E. Qed.
Lemma set_next_run h p v : p ∈ dom h → set_next p v h = Ok (tt, upd_next v p h).
Proof.
  intros [y Hy]%dom_nxt. unfold set_next. by rewrite (bind_ok _ _ _ _ _ (get_next_run _ _ _ Hy)).
Qed.
Lemma set_prev_run h p v : p ∈ dom h → set_prev p v h = Ok (tt, upd_prev v p h).
Proof.
  intros [y Hy]%dom_prv. unfold set_prev. by rewrite (bind_ok _ _ _ _ _ (get_prev_run _ _ _ Hy)).
Qed.

Lemma is_interior_run h e p n :
  e ≠ NULL → prv h e = Some p → nxt h e = Some n →
  is_interior e h = Ok (negb (p =? NULL) && negb (n =? NULL), h).
Proof.
  intros He Hp Hn. unfold is_interior. destruct (Z.eqb_spec e NULL); [done|].
  rewrite (bind_ok _ _ _ _ _ (get_prev_run _ _ _ Hp)). destruct (p =? NULL); [done|].
  by rewrite (bind_ok _ _ _ _ _ (get_next_run _ _ _ Hn)).
Qed.
Lemma is_tail_run h e p n :
  e ≠ NULL → prv h e = Some p → nxt h e = Some n →
  is_tail e h = Ok (negb (p =? NULL) && (n =? NULL), h).
Proof.
  intros He Hp Hn. unfold is_tail. destruct (Z.eqb_spec e NULL); [done|].
  rewrite (bind_ok _ _ _ _ _ (get_prev_run _ _ _ Hp)). destruct (p =? NULL); [done|].
  by rewrite (bind_ok _ _ _ _ _ (get_next_run _ _ _ Hn)).
Qed.
Lemma is_head_run h e p n :
  e ≠ NULL → prv h e = Some p → nxt h e = Some n →
  is_head e h = Ok ((p =? NULL) && negb (n =? NULL), h).
Proof.
  intros He Hp Hn. unfold is_head. destruct (Z.eqb_spec e NULL); [done|].
  rewrite (bind_ok _ _ _ _ _ (get_prev_run _ _ _ Hp)). destruct (p =? NULL); cbn [negb]; [|done].
  by rewrite (bind_ok _ _ _ _ _ (get_next_run _ _ _ Hn)).
Qed.

(** An element with a predecessor is an interior element or a tail. *)
Lemma interior_or_tail_run h e p n :
  e ≠ NULL → p ≠ NULL → prv h e = Some p → nxt h e = Some n →
  m_or (is_interior e) (is_tail e) h = Ok (true, h).
Proof.
  intros He Hp0 Hp Hn. unfold m_or.
  rewrite (bind_ok _ _ _ _ _ (is_interior_run _ _ _ _ He Hp Hn)).
  apply Z.eqb_neq in Hp0. rewrite Hp0. destruct (n =? NULL) eqn:E; [|done]. cbn [negb andb].
  rewrite (is_tail_run _ _ _ _ He Hp Hn). by rewrite Hp0, E.
Qed.
Lemma head_or_interior_run h e p n :
  e ≠ NULL → n ≠ NULL → prv h e = Some p → nxt h e = Some n →
  m_or (is_head e) (is_interior e) h = Ok (true, h).
Proof.
  intros He Hn0 Hp Hn. unfold m_or.
  rewrite (bind_ok _ _ _ _ _ (is_head_run _ _ _ _ He Hp Hn)).
  apply Z.eqb_neq in Hn0. rewrite Hn0. destruct (p =? NULL) eqn:E; [done|]. cbn [negb andb].
  rewrite (is_interior_run _ _ _ _ He Hp Hn). by rewrite Hn0, E.
Qed.

(** Runs one step of a computation whose result is given by [lem]. *)
Ltac step lem := erewrite bind_ok; [|eapply lem]; cbv beta.
Tactic Notation "step" uconstr(lem) "by" tactic3(tac) :=
  erewrite bind_ok; [|eapply lem; tac]; cbv beta.
Tactic Notation "last_step" uconstr(lem) "by" tactic3(tac) :=
  erewrite lem by tac.

Lemma assert_run {S} (b : bool) (s : S) : b = true → assert b s = Ok (tt, s).
Proof. by intros ->. Qed.

Lemma assert_nonnull {S} p (s : S) : p ≠ NULL → assert (negb (p =? NULL)) s = Ok (tt, s).
Proof. intros H. apply Z.eqb_neq in H. by rewrite H. Qed.

Lemma list_next_run h e p n :
  e ≠ NULL → n ≠ NULL → prv h e = Some p → nxt h e = Some n → list_next e h = Ok (n, h).
Proof.
  intros He Hn0 Hp Hn. unfold list_next.
  step head_or_interior_run by eassumption. step assert_run by done. by apply get_next_run.
Qed.
Lemma list_prev_run h e p n :
  e ≠ NULL → p ≠ NULL → prv h e = Some p → nxt h e = Some n → list_prev e h = Ok (p, h).
Proof.
  intros He Hn0 Hp Hn. unfold list_prev.
  step interior_or_tail_run by eassumption. step assert_run by done. by apply get_prev_run.
Qed.

(** ** Chains of links *)

Lemma linked_cons2 h a b r :
  linked h (a :: b :: r) ↔ nxt h a = Some b ∧ prv h b = Some a ∧ linked h (b :: r).
Proof. done. Qed.

Lemma linked_app h A x B :
  linked h (A ++ x :: B) ↔ linked h (A ++ [x]) ∧ linked h (x :: B).
Proof.
  induction A as [|a A IH]; simpl; [by destruct B; naive_solver|].
  destruct A as [|a' A]; simpl in *; [by destruct B; naive_solver|]. rewrite IH. naive_solver.
Qed.

Lemma linked_pair h A a b B :
  linked h (A ++ a :: b :: B) → nxt h a = Some b ∧ prv h b = Some a.
Proof. rewrite linked_app. simpl. naive_solver. Qed.

Lemma linked_frame_l h h' A x :
  (∀ y, y ∈ A → nxt h' y = nxt h y) → (∀ y, y ∈ tl (A ++ [x]) → prv h' y = prv h y) →
  linked h (A ++ [x]) → linked h' (A ++ [x]).
Proof.
  induction A as [|a A IH]; simpl; [done|]. intros Hn Hp.
  destruct A as [|a' A]; simpl in *.
  - intros (H1 & H2 & _). rewrite Hn, Hp by set_solver. done.
  - intros (H1 & H2 & H3). rewrite Hn, Hp by set_solver. split; [done|]. split; [done|].
    apply IH; [set_solver..|done].
Qed.

Lemma linked_frame_r h h' x B :
  (∀ y, y ∈ x :: B → nxt h' y = nxt h y) → (∀ y, y ∈ B → prv h' y = prv h y) →
  linked h (x :: B) → linked h' (x :: B).
Proof.
  revert x. induction B as [|b B IH]; intros x Hn Hp; [done|].
  intros (H1 & H2 & H3). split; [rewrite Hn by set_solver; done|].
  split; [rewrite Hp by set_solver; done|]. apply IH; [set_solver..|done].
Qed.

Lemma linked_frame h h' ps :
  (∀ y, y ∈ ps → h' !! y = h !! y) → linked h ps → linked h' ps.
Proof.
  destruct ps as [|x B]; [done|]. intros H.
  apply linked_frame_r; intros y Hy; unfold nxt, prv; rewrite H; set_solver.
Qed.

(** Links of an element at a known place of a list. *)
Lemma rep_split h l xs1 xs2 :
  list_rep h l (xs1 ++ xs2) →
  ∃ A p b B, l :: xs1 = A ++ [p] ∧ xs2 ++ [list_tail l] = b :: B ∧ b = pos l xs2 ∧
    ring l (xs1 ++ xs2) = A ++ p :: b :: B.
Proof.
  intros _. destruct (exists_last (l := l :: xs1)) as (A & p & E); [done|].
  destruct xs2 as [|b xs2]; simpl.
  - exists A, p, (list_tail l), []. split; [done|]. split; [done|]. split; [done|].
    unfold ring. rewrite app_nil_r, app_comm_cons, E, <- app_assoc. done.
  - exists A, p, b, (xs2 ++ [list_tail l]). split; [done|]. split; [done|]. split; [done|].
    unfold ring. rewrite <- app_assoc, app_comm_cons, E, <- app_assoc. done.
Qed.

Lemma NoDup_mid (A : list Z) p b B :
  NoDup (A ++ p :: b :: B) →
  p ≠ b ∧ p ∉ A ∧ b ∉ A ∧ p ∉ B ∧ b ∉ B ∧ (∀ x, x ∈ A → x ∉ B).
Proof. rewrite NoDup_app, !NoDup_cons. set_solver. Qed.

Lemma NoDup_middle (A : list Z) e B : NoDup (A ++ e :: B) ↔ e ∉ A ++ B ∧ NoDup (A ++ B).
Proof. by rewrite <- Permutation_middle, NoDup_cons. Qed.

(** What an operation leaves alone: every element outside [ps], and the set of
    allocated addresses. *)
Definition frame (h h' : store) (ps : list Z) : Prop :=
  dom h' = dom h ∧ ∀ y, y ∉ ps → h' !! y = h !! y.

Lemma frame_refl h ps : frame h h ps.
Proof. done. Qed.
Lemma frame_trans h1 h2 h3 ps qs rs :
  frame h1 h2 ps → frame h2 h3 qs → ps ⊆ rs → qs ⊆ rs → frame h1 h3 rs.
Proof.
  intros [D1 F1] [D2 F2] S1 S2. split; [congruence|]. intros y Hy.
  rewrite F2, F1 by set_solver. done.
Qed.
Lemma frame_weaken h h' ps qs : frame h h' ps → ps ⊆ qs → frame h h' qs.
Proof. intros [D F] HS. split; [done|]. intros y Hy. apply F. set_solver. Qed.

(** A list disjoint from what changed is still there. *)
Lemma list_rep_frame h h' l xs ps :
  frame h h' ps → list_rep h l xs → (∀ y, y ∈ ring l xs → y ∉ ps) → list_rep h' l xs.
Proof.
  intros [_ F] [H1 H2 H3 H4 H5] Hd. split; try done.
  - eapply linked_frame; [|done]. intros y Hy. apply F, Hd, Hy.
  - unfold prv. rewrite F; [done|]. apply Hd. set_solver.
  - unfold nxt. rewrite F; [done|]. apply Hd. unfold ring. set_solver.
Qed.

(** Every element of the ring has both links. *)
Lemma linked_dom h A x B y :
  linked h (A ++ x :: B) → (A ≠ [] ∨ B ≠ []) → y = x → y ∈ dom h.
Proof.
  intros Hl [HA|HB] ->.
  - destruct (exists_last HA) as (A' & a & ->). rewrite <- app_assoc in Hl. simpl in Hl.
    apply linked_pair in Hl as [_ Hp]. by eapply prv_dom.
  - destruct B as [|b B]; [done|]. apply linked_pair in Hl as [Hn _]. by eapply nxt_dom.
Qed.

Lemma rep_dom h l xs y : list_rep h l xs → y ∈ ring l xs → y ∈ dom h.
Proof.
  intros Hr Hy. apply list_elem_of_split in Hy as (A & B & E).
  pose proof (rep_linked _ _ _ Hr) as Hl. rewrite E in Hl.
  eapply linked_dom; [done| |done]. destruct A; [|by left]. destruct B; [|by right].
  unfold ring in E. destruct xs; simplify_eq/=.
Qed.

(** The two links of the element [b] that follows the elements [xs1]. *)
Lemma rep_links h l A p b B xs :
  list_rep h l xs → ring l xs = A ++ p :: b :: B →
  nxt h p = Some b ∧ prv h b = Some p ∧ p ≠ NULL ∧ b ≠ NULL ∧ p ∈ dom h ∧ b ∈ dom h ∧
  is_Some (nxt h b) ∧ is_Some (prv h p).
Proof.
  intros Hr E. pose proof (rep_linked _ _ _ Hr) as Hl. rewrite E in Hl.
  apply linked_pair in Hl as [Hn Hp].
  pose proof (rep_nonnull _ _ _ Hr) as H0. rewrite E in H0.
  assert (p ∈ dom h) by (eapply nxt_dom; eauto). assert (b ∈ dom h) by (eapply prv_dom; eauto).
  repeat split; try done; [set_solver..|by apply dom_nxt|by apply dom_prv].
Qed.

(** ** Insertion *)

Lemma linked_insert h A p b B e :
  linked h (A ++ p :: b :: B) → NoDup (A ++ p :: b :: B) → e ∉ A ++ p :: b :: B → e ∈ dom h →
  linked (upd_prev e b (upd_next e p (upd_next b e (upd_prev p e h)))) (A ++ p :: e :: b :: B).
Proof.
  intros Hl Hnd He Hd. destruct (NoDup_mid _ _ _ _ Hnd) as (Hpb & HpA & HbA & HpB & HbB & HAB).
  pose proof (linked_pair _ _ _ _ _ Hl) as [Hn Hp].
  apply linked_app in Hl as [HlA Hl]. apply linked_app. split.
  - eapply linked_frame_l; [..|exact HlA]; intros y Hy; autorewrite with links.
    + rewrite !decide_False by set_solver. done.
    + assert (y ∈ A ++ [p]) by (destruct A; set_solver). rewrite !decide_False by set_solver. done.
  - destruct (dom_nxt _ _ Hd) as [ne Hne]. destruct (dom_prv _ _ Hd) as [pe Hpe].
    apply linked_cons2 in Hl as (_ & _ & Hl). rewrite !linked_cons2.
    assert (p ≠ e ∧ e ≠ b) as [Hpe' Heb] by set_solver.
    split; [links|]. split; [links|]. split; [links|]. split; [links|].
    eapply (linked_frame_r h); [..|exact Hl]; intros y Hy; autorewrite with links;
      rewrite !decide_False by set_solver; done.
Qed.

Lemma list_insert_rep h l xs1 xs2 e :
  list_rep h l (xs1 ++ xs2) → e ∈ dom h → e ≠ NULL → e ∉ ring l (xs1 ++ xs2) →
  ∃ h', list_insert (pos l xs2) e h = Ok (tt, h') ∧ list_rep h' l (xs1 ++ e :: xs2) ∧
        frame h h' (ring l (xs1 ++ e :: xs2)).
Proof.
  intros Hr Hd He0 He. destruct (rep_split _ _ _ _ Hr) as (A & p & b & B & E1 & E2 & Eb & E).
  rewrite <- Eb. destruct (rep_links _ _ _ _ _ _ _ Hr E) as (Hn & Hp & Hp0 & Hb0 & Hpd & Hbd & [nb Hnb] & _).
  destruct Hr as [Hnd Hnn Hl Hh Ht]. rewrite E in Hnd, Hnn, Hl, He.
  destruct (NoDup_mid _ _ _ _ Hnd) as (Hpb & HpA & HbA & HpB & HbB & HAB).
  assert (Hlm : l ∈ A ++ [p]) by (rewrite <- E1; set_solver).
  assert (Htm : list_tail l ∈ b :: B) by (rewrite <- E2; set_solver).
  assert (l ≠ e ∧ l ≠ b) as [Hle Hlb] by (clear - Hlm He HbA Hpb; set_solver).
  assert (list_tail l ≠ e ∧ list_tail l ≠ p) as [Hte Htp] by (clear - Htm He HpB Hpb; set_solver).
  assert (ER : ring l (xs1 ++ e :: xs2) = A ++ p :: e :: b :: B).
  { unfold ring. rewrite <- app_assoc, app_comm_cons, E1. simpl. rewrite E2, <- app_assoc. done. }
  exists (upd_prev e b (upd_next e p (upd_next b e (upd_prev p e h)))).
  split.
  { unfold list_insert. step (interior_or_tail_run _ b p nb) by done. step assert_run by done.
    step assert_nonnull by done.
    step get_prev_run by eassumption. step set_prev_run by done.
    step set_next_run by (by rewrite dom_upd_prev).
    step get_prev_run by (autorewrite with links; rewrite decide_False by set_solver; exact Hp).
    step set_next_run by (by autorewrite with links). apply set_prev_run. by autorewrite with links. }
  split; [split|].
  - rewrite ER, (cons_middle p A), app_assoc. apply NoDup_middle. by rewrite <- app_assoc.
  - rewrite ER. clear - Hnn He0. set_solver.
  - rewrite ER. by apply linked_insert.
  - links.
  - links.
  - rewrite ER. split; [by autorewrite with links|]. intros y Hy.
    assert (y ≠ p ∧ y ≠ b ∧ y ≠ e) as (? & ? & ?) by (clear - Hy; set_solver).
    by rewrite lookup_upd_prev_ne, lookup_upd_next_ne, lookup_upd_next_ne, lookup_upd_prev_ne.
Qed.

(** ** Removal *)

Lemma list_remove_rep h l xs1 xs2 e :
  list_rep h l (xs1 ++ e :: xs2) →
  ∃ h', list_remove e h = Ok (pos l xs2, h') ∧ list_rep h' l (xs1 ++ xs2) ∧
        frame h h' (ring l (xs1 ++ xs2)) ∧ h' !! e = h !! e.
Proof.
  intros Hr. destruct (rep_split _ _ _ _ Hr) as (A & p & e' & B & E1 & E2 & Eb & E).
  simpl in E2, Eb. subst e'. injection E2 as E2.
  destruct B as [|b B]; [by destruct xs2|].
  assert (Eb : pos l xs2 = b) by (destruct xs2; simplify_eq/=; done). rewrite Eb.
  destruct (rep_links _ _ _ _ _ _ _ Hr E) as (Hn & Hp & Hp0 & He0 & Hpd & Hed & _ & _).
  assert (E' : ring l (xs1 ++ e :: xs2) = (A ++ [p]) ++ e :: b :: B) by (rewrite E, <- app_assoc; done).
  destruct (rep_links _ _ _ _ _ _ _ Hr E') as (Hne & Hpb & _ & Hb0 & _ & Hbd & _ & _).
  assert (ER : ring l (xs1 ++ xs2) = A ++ p :: b :: B).
  { unfold ring. rewrite <- app_assoc, app_comm_cons, E1, E2, <- app_assoc. done. }
  destruct Hr as [Hnd Hnn Hl Hh Ht]. rewrite E in Hnn, Hl. rewrite E' in Hnd.
  apply NoDup_middle in Hnd as [Hein Hnd]. rewrite <- app_assoc in Hein, Hnd. simpl in Hein, Hnd.
  destruct (NoDup_mid _ _ _ _ Hnd) as (Hpb' & HpA & HbA & HpB & HbB & HAB).
  assert (Hlm : l ∈ A ++ [p]) by (rewrite <- E1; set_solver).
  assert (Htm : list_tail l ∈ b :: B) by (rewrite <- E2; set_solver).
  assert (p ≠ e ∧ e ≠ b) as [Hpe Heb] by (clear - Hein; set_solver).
  assert (l ≠ b) by (clear - Hlm HbA Hpb'; set_solver).
  assert (list_tail l ≠ p) by (clear - Htm HpB Hpb'; set_solver).
  exists (upd_prev p b (upd_next b p h)). split.
  { unfold list_remove. step (is_interior_run _ e p b) by done.
    rewrite (proj2 (Z.eqb_neq _ _) Hp0), (proj2 (Z.eqb_neq _ _) Hb0).
    step assert_run by done. step get_prev_run by done. step get_next_run by done.
    step set_next_run by done.
    step (get_next_run _ e b) by links. step (get_prev_run _ e p) by links.
    step set_prev_run by (by autorewrite with links). apply get_next_run. links. }
  split; [split|split].
  - by rewrite ER.
  - rewrite ER. clear - Hnn. set_solver.
  - rewrite ER. apply linked_app in Hl as [HlA Hl].
    rewrite !linked_cons2 in Hl. destruct Hl as (_ & _ & _ & _ & Hl).
    apply linked_app. split.
    + eapply linked_frame_l; [..|exact HlA]; intros y Hy; autorewrite with links.
      * rewrite decide_False by set_solver. done.
      * assert (y ∈ A ++ [p]) by (destruct A; set_solver). rewrite decide_False by set_solver. done.
    + rewrite linked_cons2. split; [links|]. split; [links|].
      eapply (linked_frame_r h); [..|exact Hl]; intros y Hy; autorewrite with links;
        rewrite decide_False by set_solver; done.
  - links.
  - links.
  - rewrite ER. split; [by autorewrite with links|]. intros y Hy.
    assert (y ≠ p ∧ y ≠ b) as [? ?] by (clear - Hy; set_solver).
    by rewrite lookup_upd_prev_ne, lookup_upd_next_ne.
  - by rewrite lookup_upd_prev_ne, lookup_upd_next_ne by done.
Qed.

(** ** Positions and iteration *)

Lemma rep_nonnull_l h l xs : list_rep h l xs → l ≠ NULL.
Proof. intros Hr. pose proof (rep_nonnull _ _ _ Hr). set_solver. Qed.

Lemma pos_end h l xs1 xs2 :
  list_rep h l (xs1 ++ xs2) → (pos l xs2 =? list_end l) = bool_decide (xs2 = []).
Proof.
  intros Hr. pose proof (rep_nodup _ _ _ Hr) as Hnd. unfold ring in Hnd.
  destruct xs2 as [|x xs2]; simpl; [by rewrite Z.eqb_refl|].
  apply Z.eqb_neq. intros ->. rewrite NoDup_cons, <- app_assoc, NoDup_app in Hnd.
  destruct Hnd as (_ & _ & _ & Hnd). simpl in Hnd. rewrite NoDup_cons in Hnd.
  destruct Hnd as [Hnd _]. apply Hnd. unfold list_end. set_solver.
Qed.

Lemma list_begin_rep h l xs : list_rep h l xs → list_begin l h = Ok (pos l xs, h).
Proof.
  intros Hr. unfold list_begin. step assert_nonnull by (by eapply rep_nonnull_l).
  apply get_next_run. pose proof (rep_linked _ _ _ Hr) as Hl. unfold ring in Hl.
  destruct xs as [|x xs]; simpl in *; naive_solver.
Qed.

Lemma list_next_rep h l xs1 x xs2 :
  list_rep h l (xs1 ++ x :: xs2) → list_next x h = Ok (pos l xs2, h).
Proof.
  intros Hr. destruct (rep_split h l (xs1 ++ [x]) xs2) as (A & p & b & B & E1 & E2 & -> & E);
    [by rewrite <- app_assoc|].
  assert (p = x) as ->.
  { apply (f_equal last) in E1. rewrite app_comm_cons, !last_snoc in E1. by injection E1. }
  rewrite <- app_assoc in E. simpl in E.
  destruct (rep_links _ _ _ _ _ _ _ Hr E) as (Hn & _ & Hx0 & Hb0 & _ & _ & _ & [p Hp]).
  by eapply list_next_run.
Qed.

Lemma list_prev_rep h l xs1 x xs2 :
  list_rep h l (xs1 ++ x :: xs2) → list_prev (pos l xs2) h = Ok (x, h).
Proof.
  intros Hr. destruct (rep_split h l (xs1 ++ [x]) xs2) as (A & p & b & B & E1 & E2 & -> & E);
    [by rewrite <- app_assoc|].
  assert (p = x) as ->.
  { apply (f_equal last) in E1. rewrite app_comm_cons, !last_snoc in E1. by injection E1. }
  rewrite <- app_assoc in E. simpl in E.
  destruct (rep_links _ _ _ _ _ _ _ Hr E) as (_ & Hp & Hx0 & Hb0 & _ & _ & [n Hn] & _).
  by eapply list_prev_run.
Qed.

Lemma rep_size h l xs : list_rep h l xs → (length xs + 2 <= size h)%nat.
Proof.
  intros Hr. assert (H : (length (ring l xs) <= size (dom h))%nat).
  { rewrite <- (size_list_to_set (C := gset Z)) by apply Hr. apply subseteq_size.
    intros y Hy. apply elem_of_list_to_set in Hy. by eapply rep_dom. }
  rewrite size_dom in H. unfold ring in H. simpl in H. rewrite length_app in H. simpl in H. lia.
Qed.

Lemma list_empty_rep h l xs : list_rep h l xs → list_empty l h = Ok (bool_decide (xs = []), h).
Proof.
  intros Hr. unfold list_empty. step list_begin_rep by done.
  unfold ret. by rewrite (pos_end h l [] xs).
Qed.

Lemma list_front_rep h l x xs : list_rep h l (x :: xs) → list_front l h = Ok (x, h).
Proof.
  intros Hr. unfold list_front. step list_empty_rep by done. step assert_run by done.
  apply get_next_run. by destruct (rep_linked _ _ _ Hr).
Qed.

Lemma list_back_rep h l x xs : list_rep h l (xs ++ [x]) → list_back l h = Ok (x, h).
Proof.
  intros Hr. unfold list_back. step list_empty_rep by done.
  rewrite bool_decide_eq_false_2 by (by destruct xs). step assert_run by done.
  apply get_prev_run. pose proof (rep_linked _ _ _ Hr) as Hl. unfold ring in Hl.
  rewrite <- app_assoc in Hl. by apply (linked_pair h (l :: xs) x (list_tail l) []) in Hl as [_ ->].
Qed.

Lemma list_push_front_rep h l xs e :
  list_rep h l xs → e ∈ dom h → e ≠ NULL → e ∉ ring l xs →
  ∃ h', list_push_front l e h = Ok (tt, h') ∧ list_rep h' l (e :: xs) ∧ frame h h' (ring l (e :: xs)).
Proof.
  intros Hr Hd H0 He. unfold list_push_front. step list_begin_rep by done.
  by apply (list_insert_rep h l [] xs).
Qed.

Lemma list_push_back_rep h l xs e :
  list_rep h l xs → e ∈ dom h → e ≠ NULL → e ∉ ring l xs →
  ∃ h', list_push_back l e h = Ok (tt, h') ∧ list_rep h' l (xs ++ [e]) ∧ frame h h' (ring l (xs ++ [e])).
Proof.
  intros Hr Hd H0 He. unfold list_push_back.
  step assert_nonnull by (by eapply rep_nonnull_l). change (list_end l) with (pos l []).
  rewrite <- (app_nil_r xs) in Hr, He. by apply (list_insert_rep h l xs []).
Qed.

Lemma list_pop_front_rep h l x xs :
  list_rep h l (x :: xs) →
  ∃ h', list_pop_front l h = Ok (x, h') ∧ list_rep h' l xs ∧ frame h h' (ring l xs).
Proof.
  intros Hr. unfold list_pop_front. step list_front_rep by done.
  destruct (list_remove_rep h l [] xs x Hr) as (h' & Hrun & Hr' & Hf & _).
  exists h'. split; [|done]. by rewrite (bind_ok _ _ _ _ _ Hrun).
Qed.

Lemma list_pop_back_rep h l x xs :
  list_rep h l (xs ++ [x]) →
  ∃ h', list_pop_back l h = Ok (x, h') ∧ list_rep h' l xs ∧ frame h h' (ring l xs).
Proof.
  intros Hr. unfold list_pop_back. step list_back_rep by done.
  destruct (list_remove_rep h l xs [] x Hr) as (h' & Hrun & Hr' & Hf & _).
  rewrite app_nil_r in Hr', Hf. exists h'. split; [|done]. by rewrite (bind_ok _ _ _ _ _ Hrun).
Qed.

Lemma size_loop_rep fuel h l xs1 xs2 cnt :
  list_rep h l (xs1 ++ xs2) → (length xs2 < fuel)%nat →
  size_loop fuel (pos l xs2) l cnt h = Ok (cnt + Z.of_nat (length xs2), h).
Proof.
  revert xs1 xs2 cnt. induction fuel as [|fuel IH]; intros xs1 xs2 cnt Hr Hf; [lia|].
  cbn [size_loop]. rewrite (pos_end _ _ _ _ Hr). destruct xs2 as [|x xs2]; simpl in *.
  - unfold ret. do 2 f_equal. lia.
  - step (list_next_rep h l xs1 x xs2) by done.
    rewrite (IH (xs1 ++ [x])) by (rewrite <- ?app_assoc; done || lia). do 2 f_equal. lia.
Qed.

Lemma list_size_rep h l xs : list_rep h l xs → list_size l h = Ok (Z.of_nat (length xs), h).
Proof.
  intros Hr. unfold list_size, rounds. unfold gets. erewrite bind_ok by reflexivity.
  step list_begin_rep by done. pose proof (rep_size _ _ _ Hr).
  by rewrite (size_loop_rep _ h l [] xs) by (done || lia).
Qed.

(** ** Ordered insertion *)

Section ordered.
Variable less : Z → Z → bool.

(** Where [list_insert_ordered] puts an element: before the first one it is less
    than. *)
Fixpoint insert_before (e : Z) (xs : list Z) : list Z :=
  match xs with
  | [] => [e]
  | x :: xs' => if less e x then e :: xs else x :: insert_before e xs'
  end.

Lemma insert_before_split e xs :
  ∃ xs1 xs2, xs = xs1 ++ xs2 ∧ insert_before e xs = xs1 ++ e :: xs2 ∧
             Forall (λ x, less e x = false) xs1 ∧ (∀ x, head xs2 = Some x → less e x = true).
Proof.
  induction xs as [|x xs IH]; simpl; [by exists [], []|].
  destruct (less e x) eqn:E.
  - exists [], (x :: xs). repeat split; [constructor|]. by intros ? [= <-].
  - destruct IH as (xs1 & xs2 & -> & -> & H1 & H2). exists (x :: xs1), xs2.
    repeat split; [by constructor|done].
Qed.

Lemma insert_before_perm e xs : insert_before e xs ≡ₚ e :: xs.
Proof.
  destruct (insert_before_split e xs) as (xs1 & xs2 & -> & -> & _). by rewrite Permutation_middle.
Qed.

Lemma ordered_loop_rep fuel h l e xs1 xs2 :
  list_rep h l (xs1 ++ xs2) → (length xs2 < fuel)%nat →
  ∃ ys1 ys2, xs2 = ys1 ++ ys2 ∧ insert_before e xs2 = ys1 ++ e :: ys2 ∧
    ordered_loop less fuel (pos l xs2) l e h = Ok (pos l ys2, h).
Proof.
  revert xs1 xs2. induction fuel as [|fuel IH]; intros xs1 xs2 Hr Hf; [lia|].
  cbn [ordered_loop]. rewrite (pos_end _ _ _ _ Hr). destruct xs2 as [|x xs2]; simpl in *.
  - by exists [], [].
  - destruct (less e x) eqn:E; [by exists [], (x :: xs2)|].
    step (list_next_rep h l xs1 x xs2) by done.
    destruct (IH (xs1 ++ [x]) xs2) as (ys1 & ys2 & E1 & E2 & ->); [by rewrite <- app_assoc|lia|].
    exists (x :: ys1), ys2. split; [by rewrite E1|]. split; [by rewrite E2|done].
Qed.

Lemma list_insert_ordered_rep h l xs e :
  list_rep h l xs → e ∈ dom h → e ≠ NULL → e ∉ ring l xs →
  ∃ h', list_insert_ordered less l e h = Ok (tt, h') ∧ list_rep h' l (insert_before e xs) ∧
        frame h h' (ring l (e :: xs)).
Proof.
  intros Hr Hd H0 He. unfold list_insert_ordered.
  step assert_nonnull by (by eapply rep_nonnull_l). step assert_nonnull by done.
  unfold rounds, gets. erewrite bind_ok by reflexivity. step list_begin_rep by done.
  pose proof (rep_size _ _ _ Hr).
  destruct (ordered_loop_rep (S (S (size h))) h l e [] xs) as (ys1 & ys2 & -> & E & Hrun); [done|lia|].
  rewrite (bind_ok _ _ _ _ _ Hrun).
  destruct (list_insert_rep h l ys1 ys2 e) as (h' & -> & Hr' & Hf); [done..|].
  exists h'. rewrite E. split; [done|]. split; [done|].
  eapply frame_weaken; [done|]. unfold ring. intros y. set_solver.
Qed.
End ordered.
