(* ===== verification/ListSort.v ===== *)
(** * The in-place merge sort of src/lib/kernel/list.c

    [list_sort] is proved to terminate and to leave a sorted permutation of the
    list, at the level of the pointers it relinks. *)

From S2P Require Import Prelude Lists ListSpec.
Local Open Scope Z_scope.

(** ** Moving one element *)

Lemma get_prev_inv h p v h' : get_prev p h = Ok (v, h') → h' = h ∧ prv h p = Some v.
Proof. unfold get_prev, prv, need. destruct (prev <$> h !! p); intros [=]; by subst. Qed.
Lemma get_next_inv h p v h' : get_next p h = Ok (v, h') → h' = h ∧ nxt h p = Some v.
Proof. unfold get_next, nxt, need. destruct (next <$> h !! p); intros [=]; by subst. Qed.
Lemma is_interior_inv h p b h' : is_interior p h = Ok (b, h') → h' = h.
Proof.
  unfold is_interior. case_match; [intros ?; run_inv; done|]. intros Hrun. run_inv.
  apply get_prev_inv in E as [-> _]. case_match; run_inv; [done|].
  apply get_next_inv in E as [-> _]. by simplify_eq.
Qed.
Lemma is_tail_inv h p b h' : is_tail p h = Ok (b, h') → h' = h.
Proof.
  unfold is_tail. case_match; [intros ?; run_inv; done|]. intros Hrun. run_inv.
  apply get_prev_inv in E as [-> _]. case_match; run_inv; [done|].
  apply get_next_inv in E as [-> _]. by simplify_eq.
Qed.
Lemma interior_or_tail_inv h p b h' : m_or (is_interior p) (is_tail p) h = Ok (b, h') → h' = h.
Proof.
  unfold m_or. intros Hrun. run_inv. apply is_interior_inv in E as ->.
  case_match; run_inv; [done|by eapply is_tail_inv].
Qed.

Ltac peel H :=
  let a := fresh "a" in let s := fresh "s" in let E := fresh "E" in
  apply bind_inv in H as (a & s & E & H); cbv beta in H;
  first [ apply get_prev_inv in E as [-> E] | apply get_next_inv in E as [-> E]
        | apply assert_inv in E as [E ->] | apply is_interior_inv in E as ->
        | (pose proof (interior_or_tail_inv _ _ _ _ E); subst s) | idtac ].

(** Splicing a single element is removing it and inserting it again. *)
Lemma list_splice_single h before e last h1 n h2 :
  list_remove e h = Ok (n, h1) → list_insert before e h1 = Ok (tt, h2) →
  m_or (is_interior before) (is_tail before) h = Ok (true, h) →
  is_interior e h = Ok (true, h) → list_prev last h = Ok (e, h) → e ≠ last →
  list_splice before e last h = Ok (tt, h2).
Proof.
  intros Hrem Hins Hbef Hint Hprev Hne. unfold list_splice.
  rewrite (bind_ok _ _ _ _ _ Hbef). step assert_run by done.
  rewrite (proj2 (Z.eqb_neq _ _) Hne).
  rewrite (bind_ok _ _ _ _ _ Hprev).
  rewrite (bind_ok _ _ _ _ _ Hint). step assert_run by done.
  rewrite (bind_ok _ _ _ _ _ Hint). step assert_run by done.
  unfold list_remove in Hrem. rewrite (bind_ok _ _ _ _ _ Hint) in Hrem.
  peel Hrem. peel Hrem. peel Hrem. peel Hrem. peel Hrem. peel Hrem. peel Hrem.
  apply get_next_inv in Hrem as [<- _].
  unfold list_insert in Hins. peel Hins. peel Hins. peel Hins. peel Hins.
  repeat first
    [ erewrite bind_ok; [|eapply get_prev_run; eassumption]; cbv beta
    | erewrite bind_ok; [|eapply get_next_run; eassumption]; cbv beta
    | erewrite bind_ok; [|eassumption]; cbv beta ].
  exact Hins.
Qed.

Lemma interior_rep h l xs1 x xs2 :
  list_rep h l (xs1 ++ x :: xs2) →
  is_interior x h = Ok (true, h) ∧ m_or (is_interior x) (is_tail x) h = Ok (true, h).
Proof.
  intros Hr. destruct (rep_split h l xs1 (x :: xs2)) as (A & p & b & B & E1 & E2 & Eb & E); [done|].
  simpl in Eb. subst b. destruct (rep_links _ _ _ _ _ _ _ Hr E) as (_ & Hp & Hp0 & Hx0 & _ & _ & _ & _).
  injection E2 as E2. destruct B as [|b B]; [by destruct xs2|].
  assert (E' : ring l (xs1 ++ x :: xs2) = (A ++ [p]) ++ x :: b :: B) by (rewrite E, <- app_assoc; done).
  destruct (rep_links _ _ _ _ _ _ _ Hr E') as (Hn & _ & _ & Hb0 & _).
  split; [|by apply (interior_or_tail_run _ x p b)].
  rewrite (is_interior_run _ _ _ _ Hx0 Hp Hn).
  by rewrite (proj2 (Z.eqb_neq _ _) Hp0), (proj2 (Z.eqb_neq _ _) Hb0).
Qed.

Lemma pos_ne h l P A Q :
  list_rep h l (P ++ A ++ Q) → A ≠ [] → pos l (A ++ Q) ≠ pos l Q.
Proof.
  intros Hr HA E. destruct A as [|a A]; [done|]. simpl in E. subst a.
  pose proof (rep_nodup _ _ _ Hr) as Hnd. unfold ring in Hnd.
  rewrite NoDup_cons, <- app_assoc, NoDup_app in Hnd. destruct Hnd as (_ & _ & _ & Hnd).
  simpl in Hnd. rewrite NoDup_cons in Hnd. destruct Hnd as [Hnd _]. apply Hnd.
  destruct Q; simpl; set_solver.
Qed.

Lemma list_splice_rep h l P a A b Q :
  list_rep h l (P ++ a :: A ++ b :: Q) →
  ∃ h', list_splice a b (pos l Q) h = Ok (tt, h') ∧ list_rep h' l (P ++ b :: a :: A ++ Q) ∧
        frame h h' (ring l (P ++ a :: A ++ b :: Q)).
Proof.
  intros Hr.
  assert (Hr1 : list_rep h l ((P ++ a :: A) ++ b :: Q)) by (rewrite <- app_assoc; done).
  destruct (list_remove_rep h l (P ++ a :: A) Q b Hr1) as (h1 & Hrem & Hr2 & [D1 F1] & _).
  assert (Hb : b ∉ ring l ((P ++ a :: A) ++ Q) ∧ b ≠ NULL).
  { pose proof (rep_nodup _ _ _ Hr1) as Hnd. pose proof (rep_nonnull _ _ _ Hr1) as Hnn.
    unfold ring in *. rewrite <- (app_assoc (P ++ a :: A)), app_comm_cons in Hnd. simpl in Hnd.
    split; [|clear - Hnn; set_solver].
    apply (NoDup_middle (l :: P ++ a :: A)) in Hnd as [Hnd _].
    rewrite <- (app_assoc (P ++ a :: A)). exact Hnd. }
  rewrite <- app_assoc in Hr2. simpl in Hr2.
  destruct (list_insert_rep h1 l P (a :: A ++ Q) b) as (h2 & Hins & Hr3 & [D2 F2]).
  - done.
  - rewrite D1. eapply rep_dom; [exact Hr1|]. unfold ring. set_solver.
  - apply Hb.
  - destruct Hb as [Hb _]. rewrite <- app_assoc in Hb. exact Hb.
  - exists h2. split; [|split; [done|]].
    + simpl in Hins. eapply list_splice_single; [done..| | | |].
      * by eapply (interior_rep h l P a).
      * by eapply (interior_rep h l _ b).
      * by eapply list_prev_rep.
      * intros E. apply (pos_ne h l (P ++ a :: A) [b] Q); [done|done|exact E].
    + split; [congruence|]. intros y Hy. rewrite F2, F1; [done| |]; clear - Hy; unfold ring in *; set_solver.
Qed.

Lemma ring_perm l xs ys : xs ≡ₚ ys → ring l xs ⊆ ring l ys.
Proof. intros Hp z. unfold ring. by rewrite Hp. Qed.

(** ** Runs, merging and passes *)

(** The same algorithm on sequences: what the relinked list looks like. *)
Section functional.
Variable less : Z → Z → bool.

Fixpoint split_run (x : Z) (xs : list Z) : list Z * list Z :=
  match xs with
  | [] => ([x], [])
  | y :: ys =>
      if less y x then ([x], xs)
      else let '(A, X) := split_run y ys in (x :: A, X)
  end.

Fixpoint merge_fn (A : list Z) : list Z → list Z :=
  fix go (B : list Z) : list Z :=
    match A, B with
    | [], _ => B
    | _, [] => A
    | a :: A', b :: B' => if less b a then b :: go B' else a :: merge_fn A' B
    end.

Fixpoint pass_fn (n : nat) (xs : list Z) : list Z * nat :=
  match n, xs with
  | S n, x :: xs' =>
      match split_run x xs' with
      | (A, []) => (A, 1%nat)
      | (A, y :: ys) =>
          let '(B, X) := split_run y ys in
          let '(Y, k) := pass_fn n X in (merge_fn A B ++ Y, S k)
      end
  | _, _ => ([], 0%nat)
  end.

Fixpoint sort_fn (n : nat) (xs : list Z) : list Z :=
  match n with
  | O => xs
  | S n =>
      let '(ys, k) := pass_fn (length xs) xs in
      if (1 <? k)%nat then sort_fn n ys else ys
  end.

(** The sequence [list_sort] leaves. *)
Definition list_sort_fn (xs : list Z) : list Z := sort_fn (S (length xs)) xs.
End functional.

Section sort.
Variable less : Z → Z → bool.
Hypothesis less_asym : ∀ a b, less a b = true → less b a = false.

(** Number of places where an element is less than the one before it. *)
Fixpoint desc (xs : list Z) : nat :=
  match xs with
  | x :: ((y :: _) as r) => (if less y x then 1 else 0) + desc r
  | _ => 0
  end.

Lemma desc_cons2 x y r : desc (x :: y :: r) = ((if less y x then 1 else 0) + desc (y :: r))%nat.
Proof. done. Qed.

Lemma desc_app A B : (desc (A ++ B) <= desc A + 1 + desc B)%nat.
Proof.
  induction A as [|a A IH]; [simpl; lia|]. destruct A as [|a' A].
  - destruct B as [|b B]; [simpl; lia|]. cbn [app]. rewrite desc_cons2. cbn [desc]. destruct (less b a); lia.
  - cbn [app] in *. rewrite !desc_cons2. lia.
Qed.

Lemma desc_cons z C :
  desc C = 0%nat → (∀ c, head C = Some c → less c z = false) → desc (z :: C) = 0%nat.
Proof.
  intros HC Hz. destruct C as [|c C]; [done|]. rewrite desc_cons2, HC. by rewrite (Hz c).
Qed.

Lemma desc_tail x C : desc (x :: C) = 0%nat →
  desc C = 0%nat ∧ ∀ c, head C = Some c → less c x = false.
Proof.
  destruct C as [|c C]; [done|]. rewrite desc_cons2. intros H. split; [lia|].
  intros ? [= <-]. destruct (less c x); [lia|done].
Qed.

Lemma desc_length xs : (desc xs <= length xs)%nat.
Proof.
  induction xs as [|x xs IH]; [simpl; lia|]. destruct xs as [|y r]; [simpl; lia|].
  rewrite desc_cons2. cbn [length] in *. destruct (less y x); lia.
Qed.

(** *** The sequences *)

Lemma split_run_spec x xs A X :
  split_run less x xs = (A, X) →
  x :: xs = A ++ X ∧ (∃ A', A = x :: A') ∧ desc A = 0%nat ∧ (X = [] ∨ desc (x :: xs) = S (desc X)).
Proof.
  revert x A X. induction xs as [|y ys IH]; intros x A X; cbn [split_run].
  - intros [= <- <-]. split_and!; eauto.
  - destruct (less y x) eqn:E.
    + intros [= <- <-]. split_and!; eauto. right. by rewrite desc_cons2, E.
    + destruct (split_run less y ys) as [A' X'] eqn:Es. intros [= <- <-].
      destruct (IH _ _ _ Es) as (E1 & [A'' ->] & HA & HX). split_and!; eauto.
      * by rewrite E1.
      * by rewrite desc_cons2, E.
      * destruct HX as [->|HX]; [by left|right]. by rewrite desc_cons2, E, HX.
Qed.

Lemma merge_fn_spec A B :
  desc A = 0%nat → desc B = 0%nat →
  merge_fn less A B ≡ₚ A ++ B ∧ desc (merge_fn less A B) = 0%nat ∧
  (∀ c, head (merge_fn less A B) = Some c → head A = Some c ∨ head B = Some c).
Proof.
  revert B. induction A as [|a A IHA]; [intros B; destruct B; intros; split_and!; eauto|].
  induction B as [|b B IHB]; intros HA HB.
  { cbn. rewrite app_nil_r. split_and!; eauto. }
  apply desc_tail in HA as HA'. apply desc_tail in HB as HB'. cbn [merge_fn].
  destruct (less b a) eqn:E.
  - destruct (IHB HA (proj1 HB')) as (Hp & Hd & Hh). cbn [merge_fn] in Hp, Hd, Hh. split_and!.
    + rewrite Hp. apply Permutation_middle.
    + apply desc_cons; [done|]. intros c Hc. destruct (Hh c Hc) as [Hc'|Hc'].
      * simpl in Hc'. simplify_eq. by apply less_asym.
      * by apply HB'.
    + intros c Hc. by right.
  - destruct (IHA (b :: B) (proj1 HA') HB) as (Hp & Hd & Hh). split_and!.
    + by rewrite Hp.
    + apply desc_cons; [done|]. intros c Hc. destruct (Hh c Hc) as [Hc'|Hc'].
      * by apply HA'.
      * simpl in Hc'. by simplify_eq.
    + intros c Hc. by left.
Qed.

(** One pass turns the [m] runs of a sequence into at most [(m + 1) / 2] runs. *)
Lemma pass_fn_spec n X Y k :
  (length X <= n)%nat → pass_fn less n X = (Y, k) →
  Y ≡ₚ X ∧ (desc Y <= k - 1)%nat ∧ (2 * k <= desc X + 2)%nat ∧ (X = [] ↔ k = 0%nat).
Proof.
  revert X Y k. induction n as [|n IH]; intros X Y k Hn; (destruct X as [|x xs]; cbn [pass_fn]).
  { intros [= <- <-]. split_and!; simpl; lia || done. } { simpl in Hn. lia. }
  { intros [= <- <-]. split_and!; simpl; lia || done. }
  destruct (split_run less x xs) as [A X1] eqn:Es1.
  destruct (split_run_spec _ _ _ _ Es1) as (E1 & [A' HA'] & HA & HX1). destruct X1 as [|y ys].
  { intros [= <- <-]. rewrite E1, app_nil_r. split_and!; try done; [lia..|]. by rewrite HA'. }
  destruct (split_run less y ys) as [B X2] eqn:Es2.
  destruct (split_run_spec _ _ _ _ Es2) as (E2 & [B' HB'] & HB & HX2).
  destruct (pass_fn less n X2) as [Z k'] eqn:Ep. intros [= <- <-].
  assert (Hn2 : (length X2 <= n)%nat).
  { apply (f_equal length) in E1, E2. rewrite length_app in E1, E2. subst. simpl in *. lia. }
  destruct (IH X2 Z k' Hn2 Ep) as (HZ & Hk1 & Hk2 & Hk3).
  destruct (merge_fn_spec A B HA HB) as (Hm & Hmd & _). split.
  { by rewrite E1, E2, Hm, HZ, <- app_assoc. }
  destruct HX1 as [|HX1]; [done|]. rewrite HX1. pose proof (desc_app (merge_fn less A B) Z).
  destruct X2 as [|z X2].
  - apply Permutation_nil_r in HZ as ->. rewrite app_nil_r in *.
    rewrite (proj1 Hk3 eq_refl), E2, HB. split_and!; [lia..|done].
  - destruct HX2 as [|HX2]; [done|]. rewrite HX2.
    assert (k' ≠ 0%nat) by (intros ->; by pose proof (proj2 Hk3 eq_refl)). split_and!; [lia..|done].
Qed.

Lemma sort_fn_spec n xs :
  (desc xs < n)%nat → sort_fn less n xs ≡ₚ xs ∧ desc (sort_fn less n xs) = 0%nat.
Proof.
  revert xs. induction n as [|n IH]; intros xs Hn; [lia|]. cbn [sort_fn].
  destruct (pass_fn less (length xs) xs) as [ys k] eqn:Ep.
  destruct (pass_fn_spec _ _ _ _ (le_n _) Ep) as (Hp & Hk1 & Hk2 & _).
  destruct (Nat.ltb_spec 1 k).
  - destruct (IH ys) as [Hp' Hd]; [lia|]. split; [by etrans|done].
  - split; [done|lia].
Qed.

Lemma list_sort_fn_spec xs : list_sort_fn less xs ≡ₚ xs ∧ desc (list_sort_fn less xs) = 0%nat.
Proof. apply sort_fn_spec. pose proof (desc_length xs). lia. Qed.

(** *** The pointers *)

Lemma run_loop_rep fuel h l P x xs :
  list_rep h l (P ++ x :: xs) → (length xs < fuel)%nat →
  run_loop less fuel x (list_end l) h = Ok (pos l (split_run less x xs).2, h).
Proof.
  revert P x xs. induction fuel as [|fuel IH]; intros P x xs Hr Hf; [lia|]. cbn [run_loop].
  step (list_next_rep h l P x xs) by done.
  rewrite (pos_end h l (P ++ [x]) xs) by (rewrite <- app_assoc; done).
  destruct xs as [|y xs]; [done|]. cbn [pos hd split_run]. rewrite bool_decide_eq_false_2 by done.
  step (list_prev_rep h l P x (y :: xs)) by done. destruct (less y x) eqn:E; [done|].
  rewrite (IH (P ++ [x]) y xs) by (rewrite <- ?app_assoc; simpl in Hf; done || lia).
  by destruct (split_run less y xs).
Qed.

Lemma find_end_of_run_rep h l P x xs A X :
  list_rep h l (P ++ x :: xs) → split_run less x xs = (A, X) →
  find_end_of_run less x (list_end l) h = Ok (pos l X, h).
Proof.
  intros Hr Es. pose proof (rep_nonnull _ _ _ Hr) as Hnn. pose proof (rep_size _ _ _ Hr) as Hsz.
  rewrite length_app in Hsz. simpl in Hsz. unfold find_end_of_run.
  step assert_nonnull by (unfold ring in Hnn; clear - Hnn; set_solver).
  step assert_nonnull by (unfold ring, list_end in *; clear - Hnn; set_solver).
  assert (Hne : x ≠ list_end l) by (apply (pos_ne h l P (x :: xs) []); rewrite ?app_nil_r; done).
  rewrite (proj2 (Z.eqb_neq _ _) Hne). step assert_run by done.
  unfold rounds, gets. erewrite bind_ok by reflexivity.
  rewrite (run_loop_rep _ h l P x xs) by (done || lia). by rewrite Es.
Qed.

Lemma is_sorted_loop_rep fuel h l P x A Q :
  list_rep h l (P ++ x :: A ++ Q) → (length A < fuel)%nat → desc (x :: A) = 0%nat →
  is_sorted_loop less fuel x (pos l Q) h = Ok (true, h).
Proof.
  revert P x A. induction fuel as [|fuel IH]; intros P x A Hr Hf HA; [lia|]. cbn [is_sorted_loop].
  step (list_next_rep h l P x (A ++ Q)) by done. destruct A as [|y A].
  - by rewrite Z.eqb_refl.
  - apply desc_tail in HA as [HA Hy].
    assert (Hr' : list_rep h l ((P ++ [x]) ++ y :: A ++ Q)) by (rewrite <- app_assoc; done).
    rewrite (proj2 (Z.eqb_neq _ _) (pos_ne h l (P ++ [x]) (y :: A) Q Hr' ltac:(discriminate))).
    step (list_prev_rep h l P x (y :: A ++ Q)) by done. simpl (pos _ _).
    rewrite (Hy y) by done. simpl in Hf. apply (IH (P ++ [x]) y A); [done|lia|done].
Qed.

Lemma is_sorted_rep h l P A Q :
  list_rep h l (P ++ A ++ Q) → desc A = 0%nat →
  is_sorted less (pos l (A ++ Q)) (pos l Q) h = Ok (true, h).
Proof.
  intros Hr HA. unfold is_sorted, rounds, gets. erewrite bind_ok by reflexivity.
  destruct A as [|x A]; [by rewrite Z.eqb_refl|].
  rewrite (proj2 (Z.eqb_neq _ _) (pos_ne h l P (x :: A) Q Hr ltac:(discriminate))).
  pose proof (rep_size _ _ _ Hr) as Hsz. rewrite !length_app in Hsz. simpl in Hsz.
  apply (is_sorted_loop_rep _ h l P x A Q); [done|lia|done].
Qed.

Lemma merge_loop_rep fuel h l P A B Q :
  list_rep h l (P ++ A ++ B ++ Q) → (length A + length B < fuel)%nat →
  ∃ h', merge_loop less fuel (pos l (A ++ B ++ Q)) (pos l (B ++ Q)) (pos l Q) h = Ok (tt, h') ∧
    list_rep h' l (P ++ merge_fn less A B ++ Q) ∧ frame h h' (ring l (P ++ A ++ B ++ Q)).
Proof.
  revert h P A B. induction fuel as [|fuel IH]; intros h P A B Hr Hf; [lia|].
  cbn [merge_loop]. destruct A as [|a A].
  { cbn [app]. rewrite Z.eqb_refl. exists h. destruct B; done. }
  destruct B as [|b B].
  { cbn [app]. rewrite Z.eqb_refl, andb_false_r. by exists h. }
  rewrite (proj2 (Z.eqb_neq _ _) (pos_ne h l P (a :: A) ((b :: B) ++ Q) Hr ltac:(discriminate))).
  assert (Hr' : list_rep h l ((P ++ a :: A) ++ (b :: B) ++ Q)) by (rewrite <- app_assoc; done).
  rewrite (proj2 (Z.eqb_neq _ _) (pos_ne h l _ (b :: B) Q Hr' ltac:(discriminate))). cbn [negb andb].
  change (pos l ((b :: B) ++ Q)) with b. change (pos l ((a :: A) ++ (b :: B) ++ Q)) with a.
  simpl in Hf. cbn [merge_fn]. destruct (less b a) eqn:E; cbn [negb].
  - step (list_next_rep h l (P ++ a :: A) b (B ++ Q)) by done.
    step (list_prev_rep h l (P ++ a :: A) b (B ++ Q)) by done.
    destruct (list_splice_rep h l P a A b (B ++ Q) Hr) as (h1 & Hsp & Hr1 & F1).
    rewrite (bind_ok _ _ _ _ _ Hsp).
    destruct (IH h1 (P ++ [b]) (a :: A) B) as (h' & Hrun & Hr2 & F2);
      [rewrite <- app_assoc; done|simpl; lia|].
    exists h'. split; [exact Hrun|]. split; [rewrite <- app_assoc in Hr2; exact Hr2|].
    eapply frame_trans; [exact F1|exact F2|done|]. apply ring_perm. rewrite <- app_assoc. simpl.
    apply Permutation_app_head. rewrite <- (Permutation_middle A (B ++ Q) b). apply Permutation_swap.
  - step (list_next_rep h l P a (A ++ b :: B ++ Q)) by done.
    destruct (IH h (P ++ [a]) A (b :: B)) as (h' & Hrun & Hr2 & F2);
      [rewrite <- app_assoc; done|simpl; lia|].
    exists h'. split; [exact Hrun|]. split; [rewrite <- app_assoc in Hr2; exact Hr2|].
    rewrite <- app_assoc in F2. exact F2.
Qed.

Lemma inplace_merge_rep h l P A B Q :
  list_rep h l (P ++ A ++ B ++ Q) → desc A = 0%nat → desc B = 0%nat →
  ∃ h', inplace_merge less (pos l (A ++ B ++ Q)) (pos l (B ++ Q)) (pos l Q) h = Ok (tt, h') ∧
    list_rep h' l (P ++ merge_fn less A B ++ Q) ∧ frame h h' (ring l (P ++ A ++ B ++ Q)).
Proof.
  intros Hr HA HB. pose proof (rep_size _ _ _ Hr) as Hsz. rewrite !length_app in Hsz.
  destruct (merge_loop_rep (S (S (size h))) h l P A B Q) as (h' & Hrun & Hr' & F); [done|lia|].
  exists h'. split; [|done]. unfold inplace_merge.
  pose proof (rep_nonnull _ _ _ Hr) as Hnn. unfold ring in Hnn.
  assert (Hpos : ∀ X, (∃ Y, A ++ B ++ Q = Y ++ X) → pos l X ≠ NULL).
  { intros X [Y HY] E. apply Hnn. rewrite HY, <- E. destruct X; simpl; set_solver. }
  step assert_nonnull by (apply Hpos; by exists []).
  step assert_nonnull by (apply Hpos; by exists A).
  step assert_nonnull by (apply Hpos; exists (A ++ B); by rewrite app_assoc).
  erewrite bind_ok; [|step (is_sorted_rep h l P A (B ++ Q)) by done; by apply assert_run]. cbv beta.
  erewrite bind_ok;
    [|step (is_sorted_rep h l (P ++ A) B Q) by (rewrite <- ?app_assoc; done); by apply assert_run].
  cbv beta. unfold rounds, gets. erewrite bind_ok by reflexivity. exact Hrun.
Qed.

Lemma pass_loop_rep fuel n h l P X Y k cnt :
  list_rep h l (P ++ X) → (length X < fuel)%nat → (length X <= n)%nat → pass_fn less n X = (Y, k) →
  ∃ h', pass_loop less fuel l (pos l X) cnt h = Ok (cnt + Z.of_nat k, h') ∧
    list_rep h' l (P ++ Y) ∧ frame h h' (ring l (P ++ X)).
Proof.
  revert n h P X Y k cnt. induction fuel as [|fuel IH]; intros n h P X Y k cnt Hr Hf Hn; [lia|].
  cbn [pass_loop]. rewrite (pos_end h l P X) by done. destruct X as [|x xs].
  { destruct n; intros [= <- <-]; exists h; by rewrite Z.add_0_r. }
  destruct n as [|n]; [simpl in Hn; lia|]. cbn [pass_fn]. rewrite bool_decide_eq_false_2 by done.
  cbn [pos hd]. destruct (split_run less x xs) as [A X1] eqn:Es1.
  destruct (split_run_spec _ _ _ _ Es1) as (E1 & [A' HA'] & HA & _).
  rewrite (bind_ok _ _ _ _ _ (find_end_of_run_rep h l P x xs A X1 Hr Es1)).
  rewrite E1 in Hr, Hf, Hn |- *.
  assert (Hr1 : list_rep h l ((P ++ A) ++ X1)) by (rewrite <- app_assoc; done).
  rewrite (pos_end h l (P ++ A) X1) by done. destruct X1 as [|y ys].
  { rewrite bool_decide_eq_true_2 by done. intros [= <- <-]. exists h. by rewrite app_nil_r in *. }
  rewrite bool_decide_eq_false_2 by done. cbn [pos hd].
  destruct (split_run less y ys) as [B X2] eqn:Es2.
  destruct (split_run_spec _ _ _ _ Es2) as (E2 & [B' HB'] & HB & _).
  rewrite (bind_ok _ _ _ _ _ (find_end_of_run_rep h l (P ++ A) y ys B X2 Hr1 Es2)).
  destruct (pass_fn less n X2) as [Z0 k'] eqn:Ep. intros [= <- <-].
  rewrite E2 in Hr, Hf, Hn |- *.
  destruct (inplace_merge_rep h l P A B X2) as (h1 & Hm & Hr2 & F1); [done..|].
  assert (Epx : pos l (A ++ B ++ X2) = x ∧ pos l (B ++ X2) = y) by (by subst). destruct Epx as [Ex Ey].
  rewrite Ex, Ey in Hm. erewrite bind_ok; [|exact Hm]. cbv beta. rewrite app_assoc in Hr2.
  rewrite !length_app in Hf, Hn. subst A B. simpl in Hf, Hn.
  destruct (IH n h1 (P ++ merge_fn less (x :: A') (y :: B')) X2 Z0 k' (cnt + 1))
    as (h2 & Hp & Hr3 & F2); [done|lia|lia|done|].
  exists h2. split; [rewrite Hp; do 2 f_equal; lia|]. split; [by rewrite app_assoc|].
  eapply frame_trans; [exact F1|exact F2|done|]. apply ring_perm.
  by rewrite (proj1 (merge_fn_spec _ _ HA HB)), <- !app_assoc.
Qed.

Lemma sort_loop_rep fuel n h l xs :
  list_rep h l xs → (desc xs < fuel)%nat → (desc xs < n)%nat →
  ∃ h', sort_loop less fuel l h = Ok (tt, h') ∧ list_rep h' l (sort_fn less n xs) ∧
        frame h h' (ring l xs).
Proof.
  revert n h xs. induction fuel as [|fuel IH]; intros n h xs Hr Hf Hn; [lia|]. cbn [sort_loop].
  destruct n as [|n]; [lia|]. cbn [sort_fn].
  unfold rounds, gets. erewrite bind_ok by reflexivity. step list_begin_rep by done.
  pose proof (rep_size _ _ _ Hr).
  destruct (pass_fn less (length xs) xs) as [ys k] eqn:Ep.
  destruct (pass_fn_spec _ _ _ _ (le_n _) Ep) as (Hp & Hk1 & Hk2 & _).
  destruct (pass_loop_rep (S (S (size h))) (length xs) h l [] xs ys k 0) as (h1 & Hrun & Hr1 & F1);
    [done|lia|lia|done|].
  erewrite bind_ok; [|exact Hrun]. cbv beta. simpl in Hr1, F1.
  destruct (Z.ltb_spec 1 (0 + Z.of_nat k)), (Nat.ltb_spec 1 k); try lia.
  - destruct (IH n h1 ys Hr1) as (h2 & -> & Hr2 & F2); [lia..|].
    exists h2. split_and!; try done.
    eapply frame_trans; [exact F1|exact F2|done|]. by apply ring_perm.
  - by exists h1.
Qed.

Lemma list_sort_rep h l xs :
  list_rep h l xs →
  ∃ h', list_sort less l h = Ok (tt, h') ∧ list_rep h' l (list_sort_fn less xs) ∧
        frame h h' (ring l xs).
Proof.
  intros Hr. pose proof (rep_size _ _ _ Hr). pose proof (desc_length xs).
  destruct (sort_loop_rep (S (S (size h))) (S (length xs)) h l xs) as (h1 & Hrun & Hr1 & F); [done|lia|lia|].
  exists h1. split; [|done]. fold (list_sort_fn less xs) in Hr1. unfold list_sort.
  step assert_nonnull by (by eapply rep_nonnull_l).
  unfold rounds, gets. erewrite bind_ok by reflexivity.
  rewrite (bind_ok _ _ _ _ _ Hrun). step list_begin_rep by done.
  change (list_end l) with (pos l []). rewrite <- (app_nil_r (list_sort_fn less xs)) at 1.
  step (is_sorted_rep h1 l [] (list_sort_fn less xs) [])
    by (rewrite ?app_nil_r; done || apply list_sort_fn_spec).
  by apply assert_run.
Qed.

(** With a transitive order, no descents means sorted. *)
Lemma desc_sorted xs :
  (∀ a b c, less b a = false → less c b = false → less c a = false) →
  desc xs = 0%nat → StronglySorted (λ a b, less b a = false) xs.
Proof.
  intros Htr. induction xs as [|x xs IH]; [constructor|]. intros [Hd Hx]%desc_tail.
  constructor; [by apply IH|]. destruct xs as [|y ys]; [done|].
  specialize (IH Hd). inversion_clear IH as [|?? Hs Hf]. specialize (Hx y eq_refl).
  constructor; [done|]. eapply Forall_impl; [exact Hf|]. intros z Hz. eauto.
Qed.
End sort.

(** ** Properties *)

(** C39: for every strict weak order, [list_sort] terminates without a failing
    assertion and relinks the list into a sorted permutation of its elements;
    nothing outside the list changes. *)
Theorem list_sort_correct (less : Z → Z → bool) (h : store) (l : Z) (xs : list Z) :
  (∀ a b, less a b = true → less b a = false) →
  (∀ a b c, less b a = false → less c b = false → less c a = false) →
  list_rep h l xs →
  ∃ h', let ys := list_sort_fn less xs in
    list_sort less l h = Ok (tt, h') ∧ list_rep h' l ys ∧ ys ≡ₚ xs ∧
    StronglySorted (λ a b, less b a = false) ys ∧ frame h h' (ring l xs).
Proof.
  intros Has Htr Hr. destruct (list_sort_rep less Has h l xs Hr) as (h' & ? & ? & ?).
  destruct (list_sort_fn_spec less Has xs) as [Hp Hd].
  exists h'. split_and!; try done. by apply desc_sorted.
Qed.

(** A list at address 100 holding the elements 10, 30, 20 (sorted by address). *)
Definition sample : store :=
  list_to_map [(100, mk_elem 0 10); (10, mk_elem 100 30); (30, mk_elem 10 20); (20, mk_elem 30 108);
               (108, mk_elem 20 0)].
Lemma sample_rep : list_rep sample 100 [10; 30; 20].
Proof. by split; vm_compute; repeat (split || constructor || set_solver). Qed.

Lemma list_sort_correct_witness :
  ∃ h', let ys := [10; 20; 30] in
    list_sort Z.ltb 100 sample = Ok (tt, h') ∧ list_rep h' 100 ys ∧ ys ≡ₚ [10; 30; 20] ∧
    StronglySorted (λ a b, (b <? a) = false) ys ∧ frame sample h' (ring 100 [10; 30; 20]).
Proof.
  apply (list_sort_correct Z.ltb sample 100 [10; 30; 20]).
  - intros a b. rewrite Z.ltb_lt, Z.ltb_ge. lia.
  - intros a b c. rewrite !Z.ltb_ge. lia.
  - apply sample_rep.
Defined.
