(* ===== verification/Hash.v ===== *)
(** * Hash tables (src/lib/kernel/hash.c)

    A table is its array of buckets and its element count; a bucket is the sequence of
    the elements linked in it (the links themselves are the subject of Lists.v).
    Elements are pointers, so two of them are the same only when they are equal; the
    table compares elements by the client's [hash] and [less].  [HashClient] is what
    a client promises: [less] is a strict order on some key, and [hash] depends on the
    key only.  Against that promise the table is a finite map from keys to elements. *)

From S2P Require Import Prelude.
Local Open Scope Z_scope.

Record table (A : Type) := mk_table { elem_cnt : Z; buckets : list (list A) }.
Arguments mk_table {A} _ _.
Arguments elem_cnt {A} _.
Arguments buckets {A} _.

(** The functions [hash_init] is given. *)
Class HashFuncs (A : Type) := {
  hash : A → Z;
  less : A → A → bool
}.

Definition MIN_ELEMS_PER_BUCKET : Z := 1.
Definition BEST_ELEMS_PER_BUCKET : Z := 2.
Definition MAX_ELEMS_PER_BUCKET : Z := 4.

Definition bucket_cnt {A} (h : table A) : Z := Z.of_nat (length (buckets h)).

(** ** Sizes *)

Definition turn_off_least_1bit (x : Z) : Z := Z.land x (u32 (x - 1)).
Definition is_power_of_2 (x : Z) : bool := negb (x =? 0) && (turn_off_least_1bit x =? 0).

(** [while (!is_power_of_2 (n)) n = turn_off_least_1bit (n)]: every round clears one of
    the 32 bits. *)
Fixpoint power_loop (fuel : nat) (n : Z) : res Z :=
  match fuel with
  | O => Fail NoFuel
  | S fuel => if is_power_of_2 n then Ok n else power_loop fuel (turn_off_least_1bit n)
  end.

Definition new_bucket_cnt (elem_cnt : Z) : res Z :=
  let n := elem_cnt / BEST_ELEMS_PER_BUCKET in
  power_loop 32 (if n <? 4 then 4 else n).

(** ** Operations *)

Section hash_table.
Context {A : Type} `{EqDecision A} `{HashFuncs A}.

Definition bucket_idx (cnt : Z) (e : A) : nat := Z.to_nat (Z.land (hash e) (u32 (cnt - 1))).

(** [find_bucket] gives the index of the bucket. *)
Definition find_bucket (h : table A) (e : A) : nat := bucket_idx (bucket_cnt h) e.

Fixpoint find_elem (bucket : list A) (e : A) : option A :=
  match bucket with
  | [] => None
  | hi :: rest => if negb (less hi e) && negb (less e hi) then Some hi else find_elem rest e
  end.

(** [list_push_front (&buckets[i], e)] *)
Definition push_bucket (bs : list (list A)) (i : nat) (e : A) : res (list (list A)) :=
  match bs !! i with
  | Some b => Ok (<[i := e :: b]> bs)
  | None => Fail Undef
  end.

Definition insert_elem (h : table A) (i : nat) (e : A) : res (table A) :=
  let? bs := push_bucket (buckets h) i e in Ok (mk_table (u32 (elem_cnt h + 1)) bs).

(** [list_remove] takes the element out of whichever bucket it is in. *)
Definition remove_elem (h : table A) (e : A) : table A :=
  mk_table (u32 (elem_cnt h - 1)) (filter (λ x, x ≠ e) <$> buckets h).

Fixpoint move_elems (cnt : Z) (es : list A) (bs : list (list A)) : res (list (list A)) :=
  match es with
  | [] => Ok bs
  | e :: rest => let? bs' := push_bucket bs (bucket_idx cnt e) e in move_elems cnt rest bs'
  end.

Fixpoint move_buckets (cnt : Z) (olds : list (list A)) (bs : list (list A)) : res (list (list A)) :=
  match olds with
  | [] => Ok bs
  | b :: rest => let? bs' := move_elems cnt b bs in move_buckets cnt rest bs'
  end.

(** [mem] says whether the allocation of the new buckets succeeds. *)
Definition rehash (mem : bool) (h : table A) : res (table A) :=
  let? n := new_bucket_cnt (elem_cnt h) in
  if n =? bucket_cnt h then Ok h
  else if mem
  then let? bs := move_buckets n (buckets h) (replicate (Z.to_nat n) []) in Ok (mk_table (elem_cnt h) bs)
  else Ok h.

Definition hash_init (mem : bool) : bool * table A :=
  if mem then (true, mk_table 0 (replicate 4 [])) else (false, mk_table 0 []).

Definition get_bucket (h : table A) (i : nat) : res (list A) := rneed (buckets h !! i).

Definition hash_find (h : table A) (e : A) : res (option A) :=
  let? b := get_bucket h (find_bucket h e) in Ok (find_elem b e).

Definition hash_insert (mem : bool) (h : table A) (new : A) : res (option A * table A) :=
  let i := find_bucket h new in
  let? b := get_bucket h i in
  let old := find_elem b new in
  let? h := (match old with None => insert_elem h i new | Some _ => Ok h end) in
  let? h := rehash mem h in
  Ok (old, h).

Definition hash_replace (mem : bool) (h : table A) (new : A) : res (option A * table A) :=
  let i := find_bucket h new in
  let? b := get_bucket h i in
  let old := find_elem b new in
  let h := match old with Some o => remove_elem h o | None => h end in
  let? h := insert_elem h i new in
  let? h := rehash mem h in
  Ok (old, h).

Definition hash_delete (mem : bool) (h : table A) (e : A) : res (option A * table A) :=
  let? b := get_bucket h (find_bucket h e) in
  match find_elem b e with
  | Some found => let? h := rehash mem (remove_elem h found) in Ok (Some found, h)
  | None => Ok (None, h)
  end.

Definition hash_size (h : table A) : Z := elem_cnt h.
Definition hash_empty (h : table A) : bool := elem_cnt h =? 0.

(** Actions run over a state [S] of the client. *)
Section actions.
Context {St : Type}.

Fixpoint apply_bucket (action : A → M St unit) (b : list A) : M St unit :=
  match b with [] => ret tt | e :: rest => action e ;;; apply_bucket action rest end.
Fixpoint apply_buckets (action : A → M St unit) (bs : list (list A)) : M St unit :=
  match bs with [] => ret tt | b :: rest => apply_bucket action b ;;; apply_buckets action rest end.

Definition hash_apply (h : table A) (action : A → M St unit) : M St unit := apply_buckets action (buckets h).

Definition hash_clear (h : table A) (destructor : option (A → M St unit)) : M St (table A) :=
  (match destructor with Some f => apply_buckets f (buckets h) | None => ret tt end) ;;;
  ret (mk_table 0 ((λ _, []) <$> buckets h)).

Definition hash_destroy (h : table A) (destructor : option (A → M St unit)) : M St unit :=
  match destructor with Some _ => hash_clear h destructor ;;; ret tt | None => ret tt end.
End actions.

(** ** Iteration

    An iterator is what is left: the elements after the current one in its bucket and
    the buckets after that one.  [it_elem] is the current element, null at the end;
    moving on from null is undefined. *)
Record iterator := mk_iterator { it_elem : option A; it_started : bool; it_left : list A; it_more : list (list A) }.

Definition hash_first (h : table A) : res iterator :=
  match buckets h with
  | b :: bs => Ok (mk_iterator None false b bs)
  | [] => Fail Undef
  end.

Fixpoint next_bucket (bs : list (list A)) : iterator :=
  match bs with
  | [] => mk_iterator None true [] []
  | (e :: b) :: bs' => mk_iterator (Some e) true b bs'
  | [] :: bs' => next_bucket bs'
  end.

Definition hash_next (i : iterator) : res iterator :=
  match it_elem i, it_started i with
  | None, true => Fail Undef
  | _, _ => match it_left i with
            | e :: b => Ok (mk_iterator (Some e) true b (it_more i))
            | [] => Ok (next_bucket (it_more i))
            end
  end.

Definition hash_cur (i : iterator) : option A := it_elem i.
End hash_table.
Arguments iterator _ : clear implicits.

(** ** Sample hash functions *)

Definition FNV_32_PRIME : Z := 16777619.
Definition FNV_32_BASIS : Z := 2166136261.

Fixpoint fnv (h : Z) (bytes : list Z) : Z :=
  match bytes with
  | [] => h
  | b :: rest => fnv (Z.lxor (u32 (h * FNV_32_PRIME)) b) rest
  end.
Definition hash_bytes (bytes : list Z) : Z := fnv FNV_32_BASIS bytes.

(** [hash_string] stops at the null byte; running past the end is undefined. *)
Fixpoint fnv_string (h : Z) (s : list Z) : res Z :=
  match s with
  | [] => Fail Undef
  | b :: rest => if b =? 0 then Ok h else fnv_string (Z.lxor (u32 (h * FNV_32_PRIME)) b) rest
  end.
Definition hash_string (s : list Z) : res Z := fnv_string FNV_32_BASIS s.

Definition hash_int (i : Z) : Z := hash_bytes (le32 (u32 i)).
