(* ===== verification/HashSpec.v ===== *)
(** * Hash tables are finite maps (src/lib/kernel/hash.c)

    For every client that keeps the promise of [HashClient], each operation of the
    table is the corresponding operation of a finite map from keys to elements, whether
    or not memory for resizing is available. *)

From S2P Require Import Prelude Hash.
Local Open Scope Z_scope.

(** What the client's functions promise. *)
Class HashClient (A K : Type) `{HashFuncs A} `{Countable K} := {
  key : A → K;
  hash_range : ∀ a, in_u32 (hash a);
  hash_key : ∀ a b, key a = key b → hash a = hash b;
  less_key : ∀ a b, (negb (less a b) && negb (less b a)) = bool_decide (key a = key b)
}.

(** ** Bucket counts *)

Lemma land_le_l x y : 0 <= x → Z.land x y <= x.
Proof.
  intros Hx. apply Z.ldiff_le; [done|]. apply Z.bits_inj_0. intros n. rewrite Z.ldiff_spec, Z.land_spec.
  by destruct (Z.testbit x n), (Z.testbit y n).
Qed.

Lemma power_of_2_spec x : 0 < x < 2 ^ 32 → is_power_of_2 x = true → x = 2 ^ Z.log2 x.
Proof.
  intros Hx Hp. unfold is_power_of_2, turn_off_least_1bit in Hp. apply andb_true_iff in Hp as [_ Hz%Z.eqb_eq].
  rewrite u32_id in Hz by int_lia. pose proof (Z.log2_spec x ltac:(lia)) as [Hlo Hhi]. pose proof (Z.log2_nonneg x).
  destruct (decide (x = 2 ^ Z.log2 x)) as [|Hne]; [done|]. exfalso.
  assert (Hl : Z.log2 (x - 1) = Z.log2 x) by (apply Z.log2_unique; lia).
  assert (Hb : Z.testbit (Z.land x (x - 1)) (Z.log2 x) = true).
  { rewrite Z.land_spec, Z.bit_log2 by lia. rewrite <- Hl. rewrite Z.bit_log2; [done|].
    assert (2 ^ 0 <= 2 ^ Z.log2 x) by (apply Z.pow_le_mono_r; lia). lia. }
  by rewrite Hz, Z.bits_0 in Hb.
Qed.

Lemma turn_off_log2 x : 0 < x < 2 ^ 32 → is_power_of_2 x = false →
  0 < turn_off_least_1bit x <= x ∧ Z.log2 (turn_off_least_1bit x) = Z.log2 x.
Proof.
  intros Hx Hp. unfold is_power_of_2 in Hp. rewrite (proj2 (Z.eqb_neq x 0)) in Hp by lia. simpl in Hp.
  apply Z.eqb_neq in Hp. unfold turn_off_least_1bit in *. rewrite u32_id in * by int_lia.
  pose proof (Z.log2_spec x ltac:(lia)) as [Hlo Hhi]. pose proof (Z.log2_nonneg x).
  assert (Hnn : 0 <= Z.land x (x - 1)) by (apply Z.land_nonneg; lia).
  assert (Hne : x ≠ 2 ^ Z.log2 x).
  { intros E. apply Hp. rewrite E, Z.sub_1_r, <- Z.ones_equiv. rewrite Z.land_ones, Z.mod_same by lia || apply Z.pow_nonzero; lia. }
  assert (Hl : Z.log2 (x - 1) = Z.log2 x) by (apply Z.log2_unique; lia).
  assert (H1 : 2 ^ 0 <= 2 ^ Z.log2 x) by (apply Z.pow_le_mono_r; lia).
  assert (Hb : Z.testbit (Z.land x (x - 1)) (Z.log2 x) = true).
  { rewrite Z.land_spec, Z.bit_log2 by lia. rewrite <- Hl. rewrite Z.bit_log2; [done|lia]. }
  assert (Hle : Z.land x (x - 1) <= x) by (by apply land_le_l; lia).
  split; [lia|]. apply Z.le_antisymm; [apply Z.log2_le_mono; lia|].
  destruct (Z.le_gt_cases (Z.log2 x) (Z.log2 (Z.land x (x - 1)))) as [|Hgt]; [done|].
  rewrite Z.bits_above_log2 in Hb by lia. done.
Qed.

(** Each round clears the lowest bit that is set. *)
Lemma turn_off_low_bits x j : 0 < x < 2 ^ 32 → 0 <= j → x mod 2 ^ j = 0 → turn_off_least_1bit x mod 2 ^ (j + 1) = 0.
Proof.
  intros Hx Hj Hm. unfold turn_off_least_1bit. rewrite u32_id by int_lia.
  assert (Hp : 0 < 2 ^ j) by (apply Z.pow_pos_nonneg; lia).
  apply Z.bits_inj_0. intros n. destruct (Z.lt_ge_cases n 0); [by rewrite Z.testbit_neg_r|].
  destruct (Z.lt_ge_cases n (j + 1)) as [Hn|Hn]; [|by rewrite Z.mod_pow2_bits_high by lia].
  rewrite Z.mod_pow2_bits_low, Z.land_spec by lia. destruct (decide (n < j)) as [Hlt|Hge].
  - rewrite <- (Z.mod_pow2_bits_low x j n), Hm, Z.bits_0 by lia. done.
  - assert (n = j) as -> by lia. rewrite !Z.testbit_odd, !Z.shiftr_div_pow2 by lia.
    assert (Ex : x = 2 ^ j * (x / 2 ^ j)) by (pose proof (Z.div_mod x (2 ^ j)); lia).
    assert (Ex1 : (x - 1) / 2 ^ j = x / 2 ^ j - 1).
    { symmetry. apply Z.div_unique with (2 ^ j - 1); lia. }
    rewrite Ex1, Z.odd_sub. by destruct (Z.odd (x / 2 ^ j)).
Qed.

Lemma power_loop_spec fuel n j :
  0 < n < 2 ^ 32 → 0 <= j → n mod 2 ^ j = 0 → 32 <= j + Z.of_nat fuel → 1 <= Z.of_nat fuel →
  power_loop fuel n = Ok (2 ^ Z.log2 n).
Proof.
  revert n j. induction fuel as [|fuel IH]; intros n j Hn Hj Hm Hf H1; [lia|]. cbn [power_loop].
  destruct (is_power_of_2 n) eqn:E; [f_equal; by apply power_of_2_spec|].
  destruct (turn_off_log2 n Hn E) as [Hr Hl]. pose proof (turn_off_low_bits n j Hn Hj Hm) as Hm'.
  destruct fuel as [|fuel].
  - exfalso. assert (2 ^ 32 <= 2 ^ (j + 1)) by (apply Z.pow_le_mono_r; lia).
    rewrite Z.mod_small in Hm' by lia. lia.
  - rewrite (IH _ (j + 1)); [by rewrite Hl|lia|lia|done|lia|lia].
Qed.

Lemma new_bucket_cnt_spec n : 0 <= n < 2 ^ 32 → new_bucket_cnt n = Ok (2 ^ Z.log2 (Z.max 4 (n / 2))).
Proof.
  intros Hn. unfold new_bucket_cnt, BEST_ELEMS_PER_BUCKET.
  replace (if n / 2 <? 4 then 4 else n / 2) with (Z.max 4 (n / 2)) by (destruct (Z.ltb_spec (n / 2) 4); lia).
  apply (power_loop_spec 32 _ 0); [mod_lia|lia|apply Z.mod_1_r|lia|lia].
Qed.

Lemma log2_range n : 0 <= n < 2 ^ 32 → 2 <= Z.log2 (Z.max 4 (n / 2)) < 31.
Proof.
  intros Hn. split; [change 2 with (Z.log2 4); apply Z.log2_le_mono; lia|]. apply Z.log2_lt_pow2; [lia|mod_lia].
Qed.

(** ** Well-formed tables *)

Section hash_spec.
Context {A K : Type} `{EqDecision A} `{HashClient A K}.

Definition contents (h : table A) : list A := mjoin (buckets h).

(** Every element is in the bucket its hash value selects. *)
Definition placed (cnt : Z) (bs : list (list A)) : Prop :=
  ∀ i b e, bs !! i = Some b → e ∈ b → bucket_idx cnt e = i.

Record hash_wf (h : table A) : Prop := {
  hw_cnt : elem_cnt h = Z.of_nat (length (contents h));
  hw_small : Z.of_nat (length (contents h)) < 2 ^ 32;
  hw_pow : ∃ k, 0 <= k < 32 ∧ bucket_cnt h = 2 ^ k;
  hw_place : placed (bucket_cnt h) (buckets h);
  hw_keys : NoDup (key <$> contents h)
}.

(** The map a table stands for. *)
Definition by_key (l : list A) : gmap K A := list_to_map ((λ a, (key a, a)) <$> l).
Definition to_map (h : table A) : gmap K A := by_key (contents h).

Lemma fst_by_key (l : list A) : ((λ a, (key a, a)) <$> l).*1 = key <$> l.
Proof. induction l as [|a l IH]; [done|]. csimpl. by f_equal. Qed.

Lemma by_key_perm l l' : NoDup (key <$> l) → l ≡ₚ l' → by_key l = by_key l'.
Proof. intros Hn Hp. apply list_to_map_proper; [by rewrite fst_by_key|by rewrite Hp]. Qed.

Lemma by_key_cons a l : by_key (a :: l) = <[key a := a]> (by_key l).
Proof. done. Qed.

Lemma by_key_none l k : by_key l !! k = None ↔ ∀ a, a ∈ l → key a ≠ k.
Proof.
  unfold by_key. rewrite <- not_elem_of_list_to_map, fst_by_key. rewrite list_elem_of_fmap. naive_solver.
Qed.

Lemma by_key_some l k a : NoDup (key <$> l) → by_key l !! k = Some a ↔ a ∈ l ∧ key a = k.
Proof.
  intros Hn. unfold by_key. rewrite <- elem_of_list_to_map by by rewrite fst_by_key.
  rewrite list_elem_of_fmap. naive_solver.
Qed.

(** ** Buckets *)

Lemma bucket_idx_lt k (e : A) : 0 <= k < 32 → (bucket_idx (2 ^ k) e < Z.to_nat (2 ^ k))%nat.
Proof.
  intros Hk. unfold bucket_idx. assert (Hp1 : 2 ^ 0 <= 2 ^ k) by (apply Z.pow_le_mono_r; lia).
  assert (Hp2 : 2 ^ k < 2 ^ 32) by (apply Z.pow_lt_mono_r; lia). rewrite u32_id by int_lia.
  rewrite Z.sub_1_r, <- Z.ones_equiv, Z.land_ones by lia. pose proof (Z.mod_pos_bound (hash e) (2 ^ k)). lia.
Qed.

Lemma bucket_idx_key cnt (a b : A) : key a = key b → bucket_idx cnt a = bucket_idx cnt b.
Proof. intros E. unfold bucket_idx. by rewrite (hash_key a b E). Qed.

Lemma join_insert (bs : list (list A)) i e b : bs !! i = Some b → mjoin (<[i := e :: b]> bs) ≡ₚ e :: mjoin bs.
Proof.
  revert i. induction bs as [|b0 bs IH]; intros i Hi; [done|]. destruct i as [|i]; simplify_eq/=; [done|].
  change (b0 ++ mjoin (<[i := e :: b]> bs) ≡ₚ e :: b0 ++ mjoin bs). rewrite (IH i Hi). by rewrite Permutation_middle.
Qed.

Lemma push_bucket_spec k bs e :
  0 <= k < 32 → Z.of_nat (length bs) = 2 ^ k → placed (2 ^ k) bs →
  ∃ bs', push_bucket bs (bucket_idx (2 ^ k) e) e = Ok bs' ∧ length bs' = length bs ∧ placed (2 ^ k) bs' ∧ mjoin bs' ≡ₚ e :: mjoin bs.
Proof.
  intros Hk Hl Hp. pose proof (bucket_idx_lt k e Hk). unfold push_bucket.
  destruct (lookup_lt_is_Some_2 bs (bucket_idx (2 ^ k) e)) as [b Hb]; [lia|]. rewrite Hb. eexists. split; [done|].
  split; [apply length_insert|]. split; [|by apply join_insert].
  intros i b' x Hi Hx. destruct (decide (bucket_idx (2 ^ k) e = i)) as [E|E].
  - rewrite <- E, list_lookup_insert_eq in Hi by by eapply lookup_lt_Some. injection Hi as <-.
    apply elem_of_cons in Hx as [->|Hx]; [done|]. rewrite <- E. by eapply Hp.
  - rewrite list_lookup_insert_ne in Hi by done. by eapply Hp.
Qed.

Lemma move_elems_spec k es bs :
  0 <= k < 32 → Z.of_nat (length bs) = 2 ^ k → placed (2 ^ k) bs →
  ∃ bs', move_elems (2 ^ k) es bs = Ok bs' ∧ length bs' = length bs ∧ placed (2 ^ k) bs' ∧ mjoin bs' ≡ₚ es ++ mjoin bs.
Proof.
  intros Hk. revert bs. induction es as [|e es IH]; intros bs Hl Hp; cbn [move_elems]; [by exists bs|].
  destruct (push_bucket_spec k bs e Hk Hl Hp) as (bs1 & -> & Hl1 & Hpl1 & Hj1). cbn [rbind].
  destruct (IH bs1) as (bs2 & -> & Hl2 & Hpl2 & Hj2); [lia|done|]. exists bs2. split_and!; [done|lia|done|].
  rewrite Hj2, Hj1. simpl. by rewrite Permutation_middle.
Qed.

Lemma move_buckets_spec k olds bs :
  0 <= k < 32 → Z.of_nat (length bs) = 2 ^ k → placed (2 ^ k) bs →
  ∃ bs', move_buckets (2 ^ k) olds bs = Ok bs' ∧ length bs' = length bs ∧ placed (2 ^ k) bs' ∧ mjoin bs' ≡ₚ mjoin olds ++ mjoin bs.
Proof.
  intros Hk. revert bs. induction olds as [|o olds IH]; intros bs Hl Hp; cbn [move_buckets]; [by exists bs|].
  destruct (move_elems_spec k o bs Hk Hl Hp) as (bs1 & -> & Hl1 & Hpl1 & Hj1). cbn [rbind].
  destruct (IH bs1) as (bs2 & -> & Hl2 & Hpl2 & Hj2); [lia|done|]. exists bs2. split_and!; [done|lia|done|].
  rewrite Hj2, Hj1. change (mjoin (o :: olds)) with (o ++ mjoin olds). rewrite !(assoc_L (++)).
  by rewrite (Permutation_app_comm (mjoin olds) o).
Qed.

Lemma join_empty n : mjoin (replicate n ([] : list A)) = [].
Proof. by induction n. Qed.

(** Resizing keeps the elements; with memory, the table has the ideal size. *)
Lemma rehash_spec mem h :
  hash_wf h → ∃ h', rehash mem h = Ok h' ∧ hash_wf h' ∧ contents h' ≡ₚ contents h ∧
    (mem = true → bucket_cnt h' = 2 ^ Z.log2 (Z.max 4 (elem_cnt h / 2))).
Proof.
  intros Hwf. destruct Hwf as [Hc Hs Hp Hpl Hk] eqn:Ew. clear Ew. unfold rehash.
  assert (Hr : 0 <= elem_cnt h < 2 ^ 32) by lia. rewrite new_bucket_cnt_spec by done. cbn [rbind].
  pose proof (log2_range _ Hr) as Hlg. set (k := Z.log2 _) in *.
  destruct (Z.eqb_spec (2 ^ k) (bucket_cnt h)); [by exists h|]. destruct mem; [|by exists h].
  assert (Hp1 : 0 < 2 ^ k) by (apply Z.pow_pos_nonneg; lia).
  destruct (move_buckets_spec k (buckets h) (replicate (Z.to_nat (2 ^ k)) [])) as (bs & -> & Hl & Hpl' & Hj);
    [lia|rewrite length_replicate; lia| |].
  { intros i b e Hb He. apply lookup_replicate in Hb as [-> _]. by apply elem_of_nil in He. }
  rewrite join_empty, app_nil_r in Hj. rewrite length_replicate in Hl. cbn [rbind]. eexists. split; [done|].
  assert (Hcnt : bucket_cnt (mk_table (elem_cnt h) bs) = 2 ^ k) by (unfold bucket_cnt; simpl; lia).
  assert (Hj' : contents (mk_table (elem_cnt h) bs) ≡ₚ contents h) by done.
  split; [split|].
  - simpl. rewrite Hc. f_equal. by rewrite Hj'.
  - by rewrite Hj'.
  - exists k. split; [lia|done].
  - rewrite Hcnt. done.
  - by rewrite Hj'.
  - split; [done|]. by intros _.
Qed.

(** ** Lookup *)

Lemma find_elem_spec b e :
  match find_elem b e with
  | Some x => x ∈ b ∧ key x = key e
  | None => ∀ x, x ∈ b → key x ≠ key e
  end.
Proof.
  induction b as [|hi b IH]; cbn [find_elem]; [intros x Hx; by apply elem_of_nil in Hx|].
  rewrite less_key. case_bool_decide as E; [split; [left|done]|].
  destruct (find_elem b e); [destruct IH; split; [by right|done]|]. intros x Hx.
  apply elem_of_cons in Hx as [->|Hx]; [done|by apply IH].
Qed.

Lemma in_contents h e : e ∈ contents h ↔ ∃ i b, buckets h !! i = Some b ∧ e ∈ b.
Proof.
  unfold contents. rewrite list_elem_of_join. split.
  - intros (b & He & Hb). apply list_elem_of_lookup in Hb as [i Hi]. eauto.
  - intros (i & b & Hi & He). exists b. split; [done|]. by eapply list_elem_of_lookup_2.
Qed.

Lemma find_bucket_some h e : hash_wf h → ∃ b, get_bucket h (find_bucket h e) = Ok b ∧ buckets h !! find_bucket h e = Some b.
Proof.
  intros Hwf. destruct (hw_pow _ Hwf) as (k & Hk & Ek). pose proof (bucket_idx_lt k e Hk) as Hlt.
  unfold get_bucket, find_bucket. rewrite Ek.
  destruct (lookup_lt_is_Some_2 (buckets h) (bucket_idx (2 ^ k) e)) as [b Hb]; [unfold bucket_cnt in Ek; lia|].
  exists b. by rewrite Hb.
Qed.

(** The bucket that is searched holds all elements with the key. *)
Lemma find_in_bucket h e b :
  hash_wf h → buckets h !! find_bucket h e = Some b → find_elem b e = to_map h !! key e.
Proof.
  intros Hwf Hb. pose proof (find_elem_spec b e) as Hf. symmetry. destruct (find_elem b e) as [x|].
  - apply by_key_some; [apply Hwf|]. destruct Hf as [Hx Ek]. split; [|done]. apply in_contents. eauto.
  - apply by_key_none. intros a Ha Ek. apply in_contents in Ha as (i & b' & Hi & Ha).
    pose proof (hw_place _ Hwf i b' a Hi Ha) as Ei. rewrite (bucket_idx_key _ a e Ek) in Ei.
    unfold find_bucket in Hb. rewrite Ei, Hi in Hb. injection Hb as ->. by apply (Hf a).
Qed.

(** ** Insertion and removal of one element *)

Lemma insert_elem_spec h e :
  hash_wf h → Z.of_nat (length (contents h)) + 1 < 2 ^ 32 → to_map h !! key e = None →
  ∃ h', insert_elem h (find_bucket h e) e = Ok h' ∧ hash_wf h' ∧ contents h' ≡ₚ e :: contents h.
Proof.
  intros [Hc Hs (k & Hk & Ek) Hpl Hn] Hsz Hnone. unfold insert_elem, find_bucket. rewrite Ek in Hpl |- *.
  destruct (push_bucket_spec k (buckets h) e Hk Ek Hpl) as (bs & -> & Hl & Hpl' & Hj). cbn [rbind].
  eexists. split; [done|]. set (h' := mk_table _ bs). assert (Hj' : contents h' ≡ₚ e :: contents h) by done.
  assert (Hlen : length (contents h') = S (length (contents h))) by by rewrite Hj'.
  assert (Hcnt : bucket_cnt h' = 2 ^ k) by (unfold bucket_cnt in *; simpl; lia).
  split; [|done]. split.
  - rewrite Hlen. simpl. rewrite Hc, u32_id by int_lia. lia.
  - lia.
  - by exists k.
  - by rewrite Hcnt.
  - rewrite Hj'. csimpl. apply NoDup_cons. split; [|done]. rewrite list_elem_of_fmap. intros (a & Ea & Ha).
    by apply (proj1 (by_key_none _ _) Hnone a Ha).
Qed.

Lemma join_filter x (bs : list (list A)) : mjoin (filter (λ y, y ≠ x) <$> bs) = filter (λ y, y ≠ x) (mjoin bs).
Proof.
  induction bs as [|b bs IH]; [done|]. change (filter (λ y, y ≠ x) b ++ mjoin (filter (λ y, y ≠ x) <$> bs) = filter (λ y, y ≠ x) (b ++ mjoin bs)).
  by rewrite filter_app, IH.
Qed.

Lemma remove_elem_spec h x :
  hash_wf h → x ∈ contents h →
  hash_wf (remove_elem h x) ∧ contents h ≡ₚ x :: contents (remove_elem h x) ∧ bucket_cnt (remove_elem h x) = bucket_cnt h.
Proof.
  intros [Hc Hs Hp Hpl Hn] Hx. assert (Hnd : NoDup (contents h)) by by eapply NoDup_fmap_1.
  assert (Hperm : contents h ≡ₚ x :: contents (remove_elem h x)).
  { unfold contents at 2, remove_elem. cbn [buckets]. rewrite join_filter. fold (contents h). apply NoDup_Permutation; [done| |].
    - apply NoDup_cons. split; [rewrite list_elem_of_filter; naive_solver|by apply NoDup_filter].
    - intros y. rewrite elem_of_cons, list_elem_of_filter. destruct (decide (y = x)) as [->|]; naive_solver. }
  assert (Hlen : length (contents h) = S (length (contents (remove_elem h x)))) by by rewrite Hperm at 1.
  assert (Hcnt : bucket_cnt (remove_elem h x) = bucket_cnt h) by (unfold bucket_cnt; simpl; by rewrite length_fmap).
  split; [|done]. split.
  - simpl elem_cnt. rewrite Hc, u32_id by int_lia. lia.
  - lia.
  - by rewrite Hcnt.
  - rewrite Hcnt. intros i b e Hi He. unfold remove_elem in Hi. cbn [buckets] in Hi. rewrite list_lookup_fmap in Hi.
    destruct (buckets h !! i) as [b0|] eqn:Eb; [|done]. injection Hi as <-. apply list_elem_of_filter in He as [_ He]. by eapply Hpl.
  - rewrite Hperm in Hn. csimpl in Hn. by apply NoDup_cons in Hn as [_ Hn].
Qed.

Lemma to_map_perm h l : hash_wf h → contents h ≡ₚ l → to_map h = by_key l.
Proof. intros Hwf Hp. apply by_key_perm; [apply Hwf|done]. Qed.

Lemma to_map_removed h x : hash_wf h → x ∈ contents h → to_map (remove_elem h x) = delete (key x) (to_map h).
Proof.
  intros Hwf Hx. destruct (remove_elem_spec h x Hwf Hx) as (Hwf' & Hp & _). rewrite (to_map_perm h _ Hwf Hp), by_key_cons.
  rewrite delete_insert_eq. symmetry. apply delete_id. apply by_key_none. intros a Ha Ek.
  pose proof (hw_keys _ Hwf) as Hn. rewrite Hp in Hn. csimpl in Hn. apply NoDup_cons in Hn as [Hnot _].
  apply Hnot. rewrite <- Ek. by apply list_elem_of_fmap_2.
Qed.

Lemma rehash_map mem h : hash_wf h →
  ∃ h', rehash mem h = Ok h' ∧ hash_wf h' ∧ to_map h' = to_map h ∧
    (mem = true → bucket_cnt h' = 2 ^ Z.log2 (Z.max 4 (elem_cnt h / 2))) ∧ elem_cnt h' = elem_cnt h.
Proof.
  intros Hwf. destruct (rehash_spec mem h Hwf) as (h' & E & Hwf' & Hp & Hsz). exists h'. split_and!; [done..|by apply to_map_perm|done|].
  rewrite (hw_cnt _ Hwf'), (hw_cnt _ Hwf). by rewrite Hp.
Qed.

(** The table [hash_init] makes. *)
Lemma hash_init_wf : hash_wf (hash_init true).2 ∧ to_map (hash_init true).2 = ∅.
Proof.
  split; [|done]. split; try done; [by exists 2| |constructor].
  intros i b e Hb He. apply (lookup_replicate 4 []) in Hb as [-> _]. by apply elem_of_nil in He.
Qed.

(** ** Lookup and insertion as operations of the map *)

Lemma hash_find_map h e : hash_wf h → hash_find h e = Ok (to_map h !! key e).
Proof.
  intros Hwf. destruct (find_bucket_some h e Hwf) as (b & Eb & Hb). unfold hash_find. rewrite Eb. cbn [rbind].
  by rewrite (find_in_bucket h e b Hwf Hb).
Qed.

Lemma hash_insert_map mem h e :
  hash_wf h → Z.of_nat (length (contents h)) + 1 < 2 ^ 32 →
  ∃ h', hash_insert mem h e = Ok (to_map h !! key e, h') ∧ hash_wf h' ∧
    to_map h' = (match to_map h !! key e with Some _ => to_map h | None => <[key e := e]> (to_map h) end) ∧
    (mem = true → bucket_cnt h' = 2 ^ Z.log2 (Z.max 4 (elem_cnt h' / 2))).
Proof.
  intros Hwf Hsz. destruct (find_bucket_some h e Hwf) as (b & Eb & Hb). pose proof (find_in_bucket h e b Hwf Hb) as Hf.
  unfold hash_insert. rewrite Eb. cbn [rbind]. rewrite Hf.
  destruct (to_map h !! key e) as [x|] eqn:Em; cbn [rbind].
  - destruct (rehash_map mem h Hwf) as (h' & -> & Hwf' & Hm & Hc & Ee). cbn [rbind]. exists h'. rewrite Ee. done.
  - destruct (insert_elem_spec h e Hwf Hsz Em) as (h1 & -> & Hwf1 & Hp1). cbn [rbind].
    destruct (rehash_map mem h1 Hwf1) as (h' & -> & Hwf' & Hm & Hc & Ee). cbn [rbind]. exists h'. rewrite Ee. split_and!; try done.
    rewrite Hm. by rewrite (to_map_perm h1 _ Hwf1 Hp1), by_key_cons.
Qed.

(** ** Properties *)

(** C38: [hash_find] returns the element the table maps the key to, and [hash_insert]
    inserts into the map exactly when the key is new, returning the element that was
    there before otherwise; whether or not there is memory to resize, the table stays
    well formed, and with memory its bucket count is the power of two below half the
    number of its elements, and at least four. *)
Theorem hash_insert_refines mem h e :
  hash_wf h → Z.of_nat (length (contents h)) + 1 < 2 ^ 32 →
  hash_find h e = Ok (to_map h !! key e) ∧
  ∃ h', hash_insert mem h e = Ok (to_map h !! key e, h') ∧ hash_wf h' ∧
    to_map h' = (match to_map h !! key e with Some _ => to_map h | None => <[key e := e]> (to_map h) end) ∧
    (mem = true → bucket_cnt h' = 2 ^ Z.log2 (Z.max 4 (elem_cnt h' / 2))).
Proof. intros Hwf Hsz. split; [by apply hash_find_map|by apply hash_insert_map]. Qed.

(** [hash_delete] removes the key from the map and returns the element it was
    mapped to, if any. *)
Theorem hash_delete_refines mem h e :
  hash_wf h → ∃ h', hash_delete mem h e = Ok (to_map h !! key e, h') ∧ hash_wf h' ∧ to_map h' = delete (key e) (to_map h).
Proof.
  intros Hwf. destruct (find_bucket_some h e Hwf) as (b & Eb & Hb). pose proof (find_in_bucket h e b Hwf Hb) as Hf.
  unfold hash_delete. rewrite Eb. cbn [rbind]. rewrite Hf. destruct (to_map h !! key e) as [x|] eqn:Em.
  - pose proof (proj1 (by_key_some _ _ _ (hw_keys _ Hwf)) Em) as [Hx Ex].
    destruct (remove_elem_spec h x Hwf Hx) as (Hwf1 & _ & _).
    destruct (rehash_map mem _ Hwf1) as (h' & -> & Hwf' & Hm & _). cbn [rbind]. exists h'. split_and!; [done..|].
    by rewrite Hm, to_map_removed, Ex.
  - exists h. split_and!; [done..|]. symmetry. by apply delete_id.
Qed.

(** [hash_replace] maps the key to the new element, whatever it was mapped to
    before, and returns the element it was mapped to. *)
Theorem hash_replace_refines mem h e :
  hash_wf h → Z.of_nat (length (contents h)) + 1 < 2 ^ 32 →
  ∃ h', hash_replace mem h e = Ok (to_map h !! key e, h') ∧ hash_wf h' ∧ to_map h' = <[key e := e]> (to_map h).
Proof.
  intros Hwf Hsz. destruct (find_bucket_some h e Hwf) as (b & Eb & Hb). pose proof (find_in_bucket h e b Hwf Hb) as Hf.
  unfold hash_replace. rewrite Eb. cbn [rbind]. rewrite Hf.
  assert (Hold : ∃ h0, match to_map h !! key e with Some o => remove_elem h o | None => h end = h0 ∧ hash_wf h0 ∧
    find_bucket h0 e = find_bucket h e ∧ Z.of_nat (length (contents h0)) + 1 < 2 ^ 32 ∧ to_map h0 = delete (key e) (to_map h)).
  { destruct (to_map h !! key e) as [x|] eqn:Em; eexists; (split; [done|]).
    - pose proof (proj1 (by_key_some _ _ _ (hw_keys _ Hwf)) Em) as [Hx Ex].
      destruct (remove_elem_spec h x Hwf Hx) as (Hwf1 & Hp1 & Hc1). split; [done|]. split; [unfold find_bucket; by rewrite Hc1|].
      split; [rewrite Hp1 in Hsz; csimpl in Hsz; lia|]. by rewrite to_map_removed, Ex.
    - split_and!; [done..|]. symmetry. by apply delete_id. }
  destruct Hold as (h0 & -> & Hwf0 & Hfb & Hsz0 & Hm0). rewrite <- Hfb.
  destruct (insert_elem_spec h0 e Hwf0 Hsz0) as (h1 & -> & Hwf1 & Hp1); [by rewrite Hm0, lookup_delete_eq|]. cbn [rbind].
  destruct (rehash_map mem h1 Hwf1) as (h' & -> & Hwf' & Hm & _). cbn [rbind]. exists h'. split_and!; [done..|].
  by rewrite Hm, (to_map_perm h1 _ Hwf1 Hp1), by_key_cons, <- (insert_delete_eq (to_map h)), <- Hm0.
Qed.

(** ** Iteration *)

(** Runs the iterator to the end of the table. *)
Fixpoint walk (fuel : nat) (i : iterator A) : res (list A) :=
  match fuel with
  | O => Fail NoFuel
  | S fuel =>
      let? i := hash_next i in
      match hash_cur i with
      | None => Ok []
      | Some e => let? rest := walk fuel i in Ok (e :: rest)
      end
  end.

Lemma next_bucket_spec (bs : list (list A)) :
  match mjoin bs with
  | [] => it_elem (next_bucket bs) = None
  | e :: l => it_elem (next_bucket bs) = Some e ∧ it_left (next_bucket bs) ++ mjoin (it_more (next_bucket bs)) = l
  end.
Proof. induction bs as [|[|e b] bs IH]; [done|exact IH|]. done. Qed.

Lemma walk_spec fuel i :
  it_elem i ≠ None ∨ it_started i = false → (length (it_left i ++ mjoin (it_more i)) < fuel)%nat →
  walk fuel i = Ok (it_left i ++ mjoin (it_more i)).
Proof.
  revert i. induction fuel as [|fuel IH]; intros i Hi Hf; [lia|]. cbn [walk].
  assert (Hn : hash_next i = match it_left i with e :: b => Ok (mk_iterator (Some e) true b (it_more i))
                                              | [] => Ok (next_bucket (it_more i)) end).
  { unfold hash_next. destruct (it_elem i), (it_started i); try done. naive_solver. }
  rewrite Hn. destruct (it_left i) as [|e l] eqn:El; cbn [rbind].
  - pose proof (next_bucket_spec (it_more i)) as Hb. unfold hash_cur. simpl app in *.
    destruct (mjoin (it_more i)) as [|e l]; [by rewrite Hb|]. destruct Hb as [He Hl].
    rewrite IH; [by rewrite He, Hl|left; by rewrite He|rewrite Hl; simpl in Hf; lia].
  - cbn [hash_cur it_elem]. rewrite IH; [done|by left|]. simpl in *. lia.
Qed.

(** Iterating over a table with [hash_first] and [hash_next] gives every element
    of the table exactly once and then a null pointer; [hash_apply] runs its action on
    the same elements in the same order. *)
Theorem hash_iteration_complete {St} (h : table A) (action : A → M St unit) (s : St) :
  hash_wf h →
  ∃ i, hash_first h = Ok i ∧ walk (S (length (contents h))) i = Ok (contents h) ∧ NoDup (contents h) ∧
    hash_apply h action s = apply_bucket action (contents h) s.
Proof.
  intros Hwf. destruct (hw_pow _ Hwf) as (k & Hk & Ek). unfold hash_first.
  destruct (buckets h) as [|b bs] eqn:Eb.
  { unfold bucket_cnt in Ek. rewrite Eb in Ek. simpl in Ek. pose proof (Z.pow_pos_nonneg 2 k). lia. }
  eexists. split; [done|]. unfold contents. rewrite Eb. split; [|split].
  - apply walk_spec; [by right|simpl; lia].
  - rewrite <- Eb. eapply NoDup_fmap_1, Hwf.
  - unfold hash_apply. rewrite Eb. clear. revert s.
    assert (Happ : ∀ l1 l2 s, apply_bucket action (l1 ++ l2) s = (apply_bucket action l1 ;;; apply_bucket action l2) s).
    { induction l1 as [|a l1 IH]; intros l2 s; [done|]. cbn [app apply_bucket]. rewrite bind_assoc. unfold bind at 1 2.
      destruct (action a s) as [[[] s1]|]; [apply IH|done]. }
    induction (b :: bs) as [|b0 bs0 IH]; intros s; [done|]. cbn [apply_buckets].
    change (mjoin (b0 :: bs0)) with (b0 ++ mjoin bs0). rewrite Happ. unfold bind.
    destruct (apply_bucket action b0 s) as [[[] s1]|]; [apply IH|done].
Qed.
End hash_spec.

(** ** Tables keyed by a page address

    The supplemental page tables (vm/page.c) and the frame table (vm/frame.c) keep
    structures keyed by a page address that does not change while they are in the
    table: an element is the pair of its own address and that page. *)

Definition page_elem : Type := Z * Z.

Definition spte_hash_func (e : page_elem) : Z := hash_int e.2.
Definition spte_less_func (a b : page_elem) : bool := a.2 <? b.2.

#[export] Instance page_funcs : HashFuncs page_elem := {| hash := spte_hash_func; less := spte_less_func |}.

Lemma lxor_u32 a b : in_u32 a → in_u32 b → in_u32 (Z.lxor a b).
Proof.
  intros [Ha0 Ha1] [Hb0 Hb1]. assert (Hnn : 0 <= Z.lxor a b) by (apply Z.lxor_nonneg; lia). split; [done|].
  destruct (decide (Z.lxor a b = 0)) as [->|]; [lia|]. apply Z.log2_lt_pow2; [lia|].
  assert (Hl : ∀ x, 0 <= x < 2 ^ 32 → Z.log2 x < 32).
  { intros x Hx. destruct (decide (x = 0)) as [->|]; [done|]. apply Z.log2_lt_pow2; lia. }
  pose proof (Z.log2_lxor a b Ha0 Hb0). pose proof (Hl a). pose proof (Hl b). lia.
Qed.

Lemma fnv_range h bytes : in_u32 h → Forall in_u32 bytes → in_u32 (fnv h bytes).
Proof.
  intros Hh Hb. revert h Hh. induction Hb as [|b bytes Hb _ IH]; intros h Hh; [done|]. cbn [fnv].
  apply IH, lxor_u32; [apply u32_range|done].
Qed.

Lemma hash_int_range i : in_u32 (hash_int i).
Proof. apply fnv_range; [by split|]. unfold le32. repeat constructor; mod_lia. Qed.

#[export] Program Instance page_client : HashClient page_elem Z := {| key := snd |}.
Next Obligation. intros a. apply hash_int_range. Qed.
Next Obligation. intros [p a] [q b] E. simpl in E. by subst. Qed.
Next Obligation.
  intros [p a] [q b]. simpl. unfold spte_less_func. simpl. case_bool_decide; destruct (Z.ltb_spec a b), (Z.ltb_spec b a); simpl; done || lia.
Qed.

(** A table of three elements. *)
Definition sample_table : table page_elem :=
  match (let? (_, h) := hash_insert true (hash_init true).2 (100, 4096) in
         let? (_, h) := hash_insert true h (200, 8192) in
         let? (_, h) := hash_insert true h (300, 12288) in Ok h) with
  | Ok h => h
  | Fail _ => mk_table 0 []
  end.

Lemma sample_table_wf : hash_wf sample_table.
Proof.
  split.
  - vm_compute. reflexivity.
  - vm_compute. reflexivity.
  - exists 2. vm_compute. split; [split; [done|reflexivity]|reflexivity].
  - assert (Hb : forallb (λ ib : nat * list page_elem, forallb (λ e, Nat.eqb (bucket_idx 4 e) ib.1) ib.2)
                   (imap pair (buckets sample_table)) = true) by (vm_compute; reflexivity).
    intros i b e Hi He. assert (Hl : imap pair (buckets sample_table) !! i = Some (i, b)) by (rewrite list_lookup_imap, Hi; done).
    apply list_elem_of_lookup_2, list_elem_of_In in Hl. rewrite forallb_forall in Hb. specialize (Hb _ Hl).
    rewrite forallb_forall in Hb. apply list_elem_of_In in He. by apply Nat.eqb_eq, Hb.
  - apply (bool_decide_eq_true_1 _). vm_compute. reflexivity.
Qed.

Lemma hash_insert_refines_witness :
  hash_find sample_table (7, 4096) = Ok (Some (100, 4096)) ∧
  ∃ h', hash_insert false sample_table (400, 0) = Ok (None, h') ∧ hash_wf h' ∧ to_map h' = <[0 := (400, 0)]> (to_map sample_table).
Proof.
  split.
  - destruct (hash_insert_refines true sample_table (7, 4096) sample_table_wf) as [E _]; [vm_compute; reflexivity|exact E].
  - destruct (hash_insert_refines false sample_table (400, 0) sample_table_wf) as [_ (h' & E & Hwf & Hm & _)]; [vm_compute; reflexivity|].
    exists h'. split; [exact E|]. split; [exact Hwf|]. exact Hm.
Defined.

Lemma hash_delete_refines_witness :
  ∃ h', hash_delete true sample_table (7, 8192) = Ok (Some (200, 8192), h') ∧ hash_wf h' ∧ to_map h' = delete 8192 (to_map sample_table).
Proof. exact (hash_delete_refines true sample_table (7, 8192) sample_table_wf). Defined.

Lemma hash_replace_refines_witness :
  ∃ h', hash_replace true sample_table (7, 8192) = Ok (Some (200, 8192), h') ∧ hash_wf h' ∧ to_map h' = <[8192 := (7, 8192)]> (to_map sample_table).
Proof. apply (hash_replace_refines true sample_table (7, 8192) sample_table_wf). vm_compute. reflexivity. Defined.

Lemma hash_iteration_complete_witness :
  ∃ i, hash_first sample_table = Ok i ∧ walk 4 i = Ok (contents sample_table) ∧ NoDup (contents sample_table) ∧
    hash_apply sample_table (λ e, modify (cons e)) [] = apply_bucket (λ e, modify (cons e)) (contents sample_table) [].
Proof. exact (hash_iteration_complete sample_table (λ e, modify (cons e)) [] sample_table_wf). Defined.
