(* ===== verification/Palloc.v ===== *)
(** * Pages and the page allocator (src/threads/vaddr.h, pte.h, palloc.c)

    Virtual addresses are 32-bit unsigned integers.  The allocator keeps a kernel
    and a user pool, each a bitmap of used pages and a base address, and [ram]
    holds the words of the pages.  The pools' locks belong to the thread level
    (file Threads). *)

From S2P Require Import Prelude Bitmap.
Local Open Scope Z_scope.

(** ** Virtual addresses *)

Definition NULL : Z := 0.
Definition PGBITS : Z := 12.
Definition PGSIZE : Z := 4096.
Definition PGMASK : Z := 4095.
Definition PHYS_BASE : Z := 3221225472.

Definition pg_ofs (va : Z) : Z := Z.land va PGMASK.
Definition pg_no (va : Z) : Z := Z.shiftr va PGBITS.
Definition pg_round_up (va : Z) : Z := Z.land (u32 (va + PGSIZE - 1)) (u32 (Z.lnot PGMASK)).
Definition pg_round_down (va : Z) : Z := Z.land va (u32 (Z.lnot PGMASK)).
Definition is_user_vaddr (vaddr : Z) : bool := vaddr <? PHYS_BASE.
Definition is_kernel_vaddr (vaddr : Z) : bool := PHYS_BASE <=? vaddr.
Definition ptov (paddr : Z) : res Z := rassert (paddr <? PHYS_BASE) ;;? Ok (u32 (paddr + PHYS_BASE)).
Definition vtop (vaddr : Z) : res Z := rassert (is_kernel_vaddr vaddr) ;;? Ok (u32 (vaddr - PHYS_BASE)).

Lemma pg_ofs_mod va : pg_ofs va = va mod 4096.
Proof. unfold pg_ofs, PGMASK. change 4095 with (Z.ones 12). by rewrite Z.land_ones by lia. Qed.

Lemma pg_no_div va : pg_no va = va / 4096.
Proof. unfold pg_no, PGBITS. by rewrite Z.shiftr_div_pow2 by lia. Qed.

(** Clearing the low twelve bits of a 32-bit word. *)
Lemma land_page_mask x : in_u32 x → Z.land x (u32 (Z.lnot PGMASK)) = x - x mod 4096.
Proof.
  intros Hx. change (u32 (Z.lnot PGMASK)) with (Z.shiftl (Z.ones 20) 12).
  replace (x - x mod 4096) with (Z.shiftl (x / 4096) 12)
    by (rewrite Z.shiftl_mul_pow2 by lia; pose proof (Z.div_mod x 4096); lia).
  apply Z.bits_inj'. intros n Hn. rewrite Z.land_spec.
  destruct (Z.lt_ge_cases n 12).
  - by rewrite !Z.shiftl_spec_low, andb_false_r by lia.
  - rewrite !Z.shiftl_spec by lia. change 4096 with (2 ^ 12).
    rewrite <- Z.shiftr_div_pow2, Z.shiftr_spec, Z.sub_add by lia.
    destruct (Z.lt_ge_cases n 32).
    + by rewrite Z.ones_spec_low, andb_true_r by lia.
    + rewrite Z.ones_spec_high, andb_false_r by lia. symmetry. apply testbit_high; [done|lia].
Qed.

Lemma pg_round_down_spec va : in_u32 va → pg_round_down va = va - va mod 4096.
Proof. apply land_page_mask. Qed.

Lemma pg_round_up_spec va :
  0 <= va <= 2 ^ 32 - 4096 → pg_round_up va = (va + 4095) / 4096 * 4096.
Proof.
  intros H. unfold pg_round_up, PGSIZE. rewrite u32_id by int_lia.
  rewrite land_page_mask by int_lia. pose proof (Z.div_mod (va + 4096 - 1) 4096 ltac:(lia)).
  replace (va + 4095) with (va + 4096 - 1) by lia. lia.
Qed.

(** ** The page allocator *)

Definition PAL_ASSERT : Z := 1.
Definition PAL_ZERO : Z := 2.
Definition PAL_USER : Z := 4.

(** [flags & f] *)
Definition flag (flags f : Z) : bool := negb (Z.land flags f =? 0).

Record pool := mk_pool { used_map : bitmap; base : Z }.

Record palloc_state := mk_palloc {
  kernel_pool : pool;
  user_pool : pool;
  ram : gmap Z (list Z)           (* the 1024 words of each page, by page address *)
}.

Definition PAGE_WORDS : nat := 1024.

(** Writing the byte [b] over [n] pages starting at [page]. *)
Fixpoint fill_pages (n : nat) (page word : Z) (m : gmap Z (list Z)) : gmap Z (list Z) :=
  match n with
  | O => m
  | S n' => fill_pages n' (u32 (page + PGSIZE)) word (<[page := replicate PAGE_WORDS word]> m)
  end.

Definition set_pool (user : bool) (p : pool) (s : palloc_state) : palloc_state :=
  if user then mk_palloc (kernel_pool s) p (ram s) else mk_palloc p (user_pool s) (ram s).
Definition get_pool (user : bool) (s : palloc_state) : pool :=
  if user then user_pool s else kernel_pool s.
Definition set_ram (m : gmap Z (list Z)) (s : palloc_state) : palloc_state :=
  mk_palloc (kernel_pool s) (user_pool s) m.

(** The part of [palloc_get_multiple] between acquiring and releasing the lock. *)
Definition take_pages (user : bool) (page_cnt : Z) : M palloc_state Z :=
  let* p := gets (get_pool user) in
  let* (page_idx, used) := lift (bitmap_scan_and_flip (used_map p) 0 page_cnt false) in
  modify (set_pool user (mk_pool used (base p))) ;;;
  ret page_idx.

(** The part after it. *)
Definition deliver_pages (flags page_cnt page_idx : Z) : M palloc_state Z :=
  let* p := gets (get_pool (flag flags PAL_USER)) in
  let pages := if page_idx =? BITMAP_ERROR then NULL else u32 (base p + u32 (PGSIZE * page_idx)) in
  (if negb (pages =? NULL) then
     if flag flags PAL_ZERO
     then modify (λ s, set_ram (fill_pages (Z.to_nat page_cnt) pages 0 (ram s)) s)
     else ret tt
   else if flag flags PAL_ASSERT then fail Panicked else ret tt) ;;;
  ret pages.

Definition palloc_get_multiple (flags page_cnt : Z) : M palloc_state Z :=
  if page_cnt =? 0 then ret NULL
  else
    let* page_idx := take_pages (flag flags PAL_USER) page_cnt in
    deliver_pages flags page_cnt page_idx.

Definition palloc_get_page (flags : Z) : M palloc_state Z := palloc_get_multiple flags 1.

Definition page_from_pool (p : pool) (page : Z) : bool :=
  let page_no := pg_no page in
  let start_page := pg_no (base p) in
  let end_page := u32 (start_page + bitmap_size (used_map p)) in
  (start_page <=? page_no) && (page_no <? end_page).

Definition palloc_free_multiple (pages page_cnt : Z) : M palloc_state unit :=
  assert (pg_ofs pages =? 0) ;;;
  if (pages =? NULL) || (page_cnt =? 0) then ret tt
  else
    let* s := gets id in
    let* user := (if page_from_pool (kernel_pool s) pages then ret false
                  else if page_from_pool (user_pool s) pages then ret true
                  else fail Panicked) in
    let p := get_pool user s in
    let page_idx := u32 (pg_no pages - pg_no (base p)) in
    modify (λ s, set_ram (fill_pages (Z.to_nat page_cnt) pages 3435973836 (ram s)) s) ;;;
    let* all := lift (bitmap_all (used_map p) page_idx page_cnt) in
    assert all ;;;
    let* used := lift (bitmap_set_multiple (used_map p) page_idx page_cnt false) in
    modify (set_pool user (mk_pool used (base p))).

Definition palloc_free_page (page : Z) : M palloc_state unit := palloc_free_multiple page 1.

Definition DIV_ROUND_UP (x step : Z) : Z := u32 (u32 (x + step) - 1) / step.

(** [init_pool]: the bitmap is placed at the pool's base; [junk] is what those
    words hold before they are cleared. *)
Definition init_pool (base page_cnt : Z) (junk : list Z) : res pool :=
  let bm_pages := DIV_ROUND_UP (bitmap_buf_size page_cnt) PGSIZE in
  if page_cnt <? bm_pages then Fail Panicked
  else
    let page_cnt := u32 (page_cnt - bm_pages) in
    let? m := bitmap_create_in_buf page_cnt junk (u32 (bm_pages * PGSIZE)) in
    Ok (mk_pool m (u32 (base + u32 (bm_pages * PGSIZE)))).

Definition palloc_init (init_ram_pages user_page_limit : Z) (m : gmap Z (list Z))
    (junk_k junk_u : list Z) : res palloc_state :=
  let? free_start := ptov (1024 * 1024) in
  let? free_end := ptov (u32 (init_ram_pages * PGSIZE)) in
  let free_pages := (free_end - free_start) / PGSIZE in
  let user_pages := free_pages / 2 in
  let user_pages := if user_page_limit <? user_pages then user_page_limit else user_pages in
  let kernel_pages := u32 (free_pages - user_pages) in
  let? kp := init_pool free_start kernel_pages junk_k in
  let? up := init_pool (u32 (free_start + u32 (kernel_pages * PGSIZE))) user_pages junk_u in
  Ok (mk_palloc kp up m).

(** ** Well-formed pools and allocated pages *)

Record pool_wf (p : pool) : Prop := {
  pw_map : bm_wf (used_map p);
  pw_align : base p mod 4096 = 0;
  pw_low : 0 < base p;
  pw_high : base p + 4096 * bit_cnt (used_map p) <= 2 ^ 32 - 4096
}.

Record palloc_wf (s : palloc_state) : Prop := {
  aw_kernel : pool_wf (kernel_pool s);
  aw_user : pool_wf (user_pool s);
  aw_disjoint : base (kernel_pool s) + 4096 * bit_cnt (used_map (kernel_pool s)) <= base (user_pool s)
}.

Definition in_pages (pages cnt a : Z) : bool := (pages <=? a) && (a <? pages + 4096 * cnt).
Definition in_pool (p : pool) (a : Z) : bool := in_pages (base p) (bit_cnt (used_map p)) a.
Definition page_used (p : pool) (a : Z) : bool :=
  in_pool p a && bm_bit (used_map p) ((a - base p) / 4096).

(** The page that contains address [a] is in use. *)
Definition allocated (s : palloc_state) (a : Z) : bool :=
  page_used (kernel_pool s) a || page_used (user_pool s) a.

Lemma in_pages_iff pages cnt a : in_pages pages cnt a = true ↔ pages <= a < pages + 4096 * cnt.
Proof. unfold in_pages. rewrite andb_true_iff, Z.leb_le, Z.ltb_lt. done. Qed.

Lemma get_pool_wf s user : palloc_wf s → pool_wf (get_pool user s).
Proof. by intros []; destruct user. Qed.

Lemma set_pool_wf s user p :
  palloc_wf s → pool_wf p → base p = base (get_pool user s) →
  bit_cnt (used_map p) = bit_cnt (used_map (get_pool user s)) → palloc_wf (set_pool user p s).
Proof. intros [Hk Hu Hd] Hp Hb Hc. destruct user; simpl in *; split; simpl; by rewrite ?Hb, ?Hc. Qed.

(** Only the pages of the updated pool can change state. *)
Lemma allocated_set_pool s user p a (f : bool → bool) :
  palloc_wf s → base p = base (get_pool user s) →
  bit_cnt (used_map p) = bit_cnt (used_map (get_pool user s)) →
  (in_pool (get_pool user s) a = true → page_used p a = f (page_used (get_pool user s) a)) →
  (in_pool (get_pool user s) a = false → f (allocated s a) = allocated s a) →
  allocated (set_pool user p s) a = f (allocated s a).
Proof.
  intros [Hk Hu Hd] Hb Hc Hin Hout. unfold allocated, set_pool, get_pool in *.
  assert (Hx : in_pool (kernel_pool s) a = true → in_pool (user_pool s) a = false).
  { unfold in_pool. intros H%in_pages_iff. apply not_true_is_false. intros H2%in_pages_iff. lia. }
  assert (Hp : in_pool p a = in_pool (if user then user_pool s else kernel_pool s) a).
  { unfold in_pool. by rewrite Hb, Hc. }
  destruct user; simpl in *; unfold page_used in *; rewrite Hp in *;
    destruct (in_pool (kernel_pool s) a), (in_pool (user_pool s) a); simpl in *;
    rewrite ?orb_false_r in *; try (by rewrite Hin); try (by rewrite Hout);
    by specialize (Hx eq_refl).
Qed.

(** Setting the bits of a run of pages sets their state. *)
Lemma page_used_run p m i cnt v a :
  pool_wf p → bit_cnt m = bit_cnt (used_map p) → 0 <= i → 0 <= cnt →
  (∀ j, 0 <= j < bit_cnt (used_map p) →
     bm_bit m j = if in_range i cnt j then v else bm_bit (used_map p) j) →
  in_pool p a = true →
  page_used (mk_pool m (base p)) a =
    if in_pages (base p + 4096 * i) cnt a then v else page_used p a.
Proof.
  intros Hp Hc Hi Hn Hb Ha. unfold page_used, in_pool in *. simpl. rewrite Hc, Ha. simpl.
  apply in_pages_iff in Ha. rewrite Hb by mod_lia.
  replace (in_pages (base p + 4096 * i) cnt a) with (in_range i cnt ((a - base p) / 4096)); [done|].
  unfold in_pages, in_range. apply eq_true_iff_eq.
  rewrite !andb_true_iff, !Z.leb_le, !Z.ltb_lt. mod_lia.
Qed.

(** All [cnt] pages from [pages] on lie in the pool and are used. *)
Definition run_used (p : pool) (pages cnt : Z) : Prop :=
  pages mod 4096 = 0 ∧ base p <= pages ∧ pages + 4096 * cnt <= base p + 4096 * bit_cnt (used_map p) ∧
  all_bits (used_map p) ((pages - base p) / 4096) cnt true.

Lemma run_used_bits p m i cnt :
  pool_wf p → bit_cnt m = bit_cnt (used_map p) → 0 <= i ∧ i + cnt <= bit_cnt m →
  all_bits m i cnt true → run_used (mk_pool m (base p)) (base p + 4096 * i) cnt.
Proof.
  intros Hp Hm Hi Hall. pose proof (pw_align _ Hp). unfold run_used. simpl. split_and!; [mod_lia|lia|lia|].
  replace (base p + 4096 * i - base p) with (i * 4096) by lia. by rewrite Z.div_mul by lia.
Qed.

Lemma scan_and_flip_error b start cnt v m :
  bitmap_scan_and_flip b start cnt v = Ok (BITMAP_ERROR, m) → m = b.
Proof.
  unfold bitmap_scan_and_flip. intros H. apply rbind_inv in H as (i & _ & H).
  destruct (Z.eqb_spec i BITMAP_ERROR) as [|Ei]; [by injection H|].
  apply rbind_inv in H as (m' & _ & H). by injection H.
Qed.

Lemma take_pages_spec user cnt s :
  palloc_wf s → 0 < cnt →
  ∃ i s', take_pages user cnt s = Ok (i, s') ∧ palloc_wf s' ∧ ram s' = ram s ∧
    base (get_pool user s') = base (get_pool user s) ∧
    scan_result (used_map (get_pool user s)) 0 cnt false i ∧
    (i = BITMAP_ERROR → s' = s) ∧
    (i ≠ BITMAP_ERROR → run_used (get_pool user s') (base (get_pool user s) + 4096 * i) cnt) ∧
    ∀ a, allocated s' a =
      if negb (i =? BITMAP_ERROR) && in_pages (base (get_pool user s) + 4096 * i) cnt a
      then true else allocated s a.
Proof.
  intros Hw Hc. pose proof (get_pool_wf s user Hw) as Hp. set (p := get_pool user s) in *.
  pose proof (wf_cnt _ (pw_map _ Hp)).
  destruct (bitmap_scan_and_flip_spec (used_map p) 0 cnt false (pw_map _ Hp))
    as (i & m & E & Hr & Hm & Hmc & Hbits); [lia..|].
  exists i, (set_pool user (mk_pool m (base p)) s). unfold take_pages, gets.
  erewrite bind_ok by reflexivity. fold p. rewrite E. split; [done|].
  assert (Hpw : pool_wf (mk_pool m (base p))) by (destruct Hp; split; simpl; by rewrite ?Hmc).
  assert (Eg : get_pool user (set_pool user (mk_pool m (base p)) s) = mk_pool m (base p))
    by (by destruct user).
  split; [by apply set_pool_wf|]. split; [by destruct user|]. split; [by destruct user|].
  split; [done|]. split.
  { intros ->. apply scan_and_flip_error in E as ->. unfold p. by destruct s as [[] [] ?], user. }
  split.
  { intros Ei. rewrite Eg. apply run_used_bits; [done..|destruct Hr as [[]|]; [done|lia]|].
    intros j Hj. rewrite Hbits by (destruct Hr as [[]|]; [done|lia]).
    rewrite (proj2 (Z.eqb_neq _ _) Ei). unfold in_range. z_cases. }
  intros a.
  apply (allocated_set_pool s user _ a (λ b, if negb (i =? BITMAP_ERROR) && _ then true else b)); try done.
  - intros Ha. fold p in Ha |- *. destruct (Z.eqb_spec i BITMAP_ERROR) as [Ei|Ei]; simpl in Hbits |- *.
    + rewrite (page_used_run p m 0 0 true) by
        (done || (intros j Hj; rewrite Hbits by done; unfold in_range; z_cases)).
      unfold in_pages. z_cases.
    + destruct Hr as [[]|(? & ? & ?)]; [done|]. apply page_used_run; try done; lia.
  - intros Ha. fold p in Ha. destruct (Z.eqb_spec i BITMAP_ERROR) as [|Ei]; [done|].
    destruct Hr as [[]|(? & ? & ?)]; [done|]. simpl. replace (in_pages _ cnt a) with false; [done|].
    symmetry. apply not_true_is_false. intros Hin%in_pages_iff.
    apply not_true_iff_false in Ha. apply Ha. unfold in_pool. apply in_pages_iff. lia.
Qed.

Lemma fill_pages_lookup n page w m a :
  0 <= page → page + 4096 * Z.of_nat n < 2 ^ 32 → page mod 4096 = 0 → a mod 4096 = 0 →
  fill_pages n page w m !! a =
    if in_pages page (Z.of_nat n) a then Some (replicate PAGE_WORDS w) else m !! a.
Proof.
  revert page m. induction n as [|n IH]; intros page m H0 H1 Hal Ha; cbn [fill_pages].
  - unfold in_pages. z_cases.
  - unfold PGSIZE. rewrite u32_id by int_lia. rewrite IH by (mod_lia || lia).
    destruct (Z.eq_dec page a) as [<-|].
    + rewrite lookup_insert_eq. unfold in_pages. z_cases.
    + rewrite lookup_insert_ne by done. unfold in_pages. z_cases; mod_lia.
Qed.

Lemma page_from_pool_spec p a :
  pool_wf p → 0 <= a → a mod 4096 = 0 → page_from_pool p a = in_pool p a.
Proof.
  intros [Hm Hal Hl Hh] H0 Ha. pose proof (wf_cnt _ Hm).
  unfold page_from_pool, in_pool, in_pages, bitmap_size. rewrite !pg_no_div.
  rewrite u32_id by mod_lia. apply eq_true_iff_eq. rewrite !andb_true_iff, !Z.leb_le, !Z.ltb_lt. mod_lia.
Qed.

Lemma palloc_free_multiple_spec user pages cnt s :
  palloc_wf s → 0 < cnt → run_used (get_pool user s) pages cnt →
  ∃ s', palloc_free_multiple pages cnt s = Ok (tt, s') ∧ palloc_wf s' ∧
    ∀ a, allocated s' a = if in_pages pages cnt a then false else allocated s a.
Proof.
  intros Hw Hc (Hal & Hlo & Hhi & Hall).
  pose proof (get_pool_wf s user Hw) as Hp. pose proof (pw_low _ Hp). pose proof (pw_align _ Hp).
  pose proof (wf_cnt _ (pw_map _ Hp)). pose proof (pw_high _ Hp).
  assert (Hpick : (if page_from_pool (kernel_pool s) pages then ret false
                   else if page_from_pool (user_pool s) pages then ret true
                   else fail Panicked) = (ret user : M palloc_state bool)).
  { destruct Hw as [Hk Hu Hd]. rewrite !page_from_pool_spec by (done || lia).
    unfold in_pool, in_pages. destruct user; simpl in *; z_cases. }
  set (p := get_pool user s) in *. set (i := (pages - base p) / 4096) in *.
  assert (Hi : u32 (pg_no pages - pg_no (base p)) = i).
  { rewrite !pg_no_div. unfold i. rewrite u32_id; mod_lia. }
  assert (Hir : 0 <= i ∧ i + cnt <= bit_cnt (used_map p) ∧ pages = base p + 4096 * i) by (unfold i; mod_lia).
  destruct Hir as (Hi0 & Hi1 & Hi2).
  destruct (bitmap_all_spec (used_map p) i cnt (pw_map _ Hp)) as (r & Er & Hr); [lia..|].
  rewrite (proj2 Hr Hall) in Er.
  destruct (bitmap_set_multiple_spec (used_map p) i cnt false (pw_map _ Hp)) as (m & Em & Hm & Hmc & Hbits);
    [lia..|].
  assert (Hpw : pool_wf (mk_pool m (base p))) by (destruct Hp; split; simpl; by rewrite ?Hmc).
  exists (set_pool user (mk_pool m (base p)) (set_ram (fill_pages (Z.to_nat cnt) pages 3435973836 (ram s)) s)).
  split_and!.
  - unfold palloc_free_multiple. rewrite pg_ofs_mod, Hal. erewrite bind_ok by reflexivity.
    rewrite (proj2 (Z.eqb_neq pages NULL)), (proj2 (Z.eqb_neq cnt 0)) by (unfold NULL; lia). cbn [orb].
    unfold gets at 1. erewrite bind_ok by reflexivity. cbv beta. unfold id at 1 2. rewrite Hpick.
    erewrite bind_ok by reflexivity. cbv beta. change (get_pool user (id s)) with p. rewrite Hi.
    erewrite bind_ok by reflexivity. rewrite Er. erewrite bind_ok by reflexivity.
    erewrite bind_ok by reflexivity. rewrite Em. by erewrite bind_ok by reflexivity.
  - apply set_pool_wf; [by destruct Hw|done|by destruct user|by destruct user].
  - intros a. change (allocated s a) with (allocated (set_ram (fill_pages (Z.to_nat cnt) pages 3435973836 (ram s)) s) a).
    apply (allocated_set_pool _ user _ a (λ b, if in_pages pages cnt a then false else b)).
    + by destruct Hw.
    + by destruct user.
    + by destruct user.
    + intros Ha. replace (get_pool user (set_ram _ s)) with p in * by (by destruct user).
      rewrite (page_used_run p m i cnt false) by (done || lia). by rewrite <- Hi2.
    + intros Ha. replace (get_pool user (set_ram _ s)) with p in * by (by destruct user).
      replace (in_pages pages cnt a) with false; [done|]. symmetry. apply not_true_is_false.
      intros Hin%in_pages_iff. apply not_true_iff_false in Ha. apply Ha. unfold in_pool.
      apply in_pages_iff. lia.
Qed.

Lemma free_run_unallocated s user i cnt a :
  palloc_wf s → 0 <= i ∧ i + cnt <= bit_cnt (used_map (get_pool user s)) →
  all_bits (used_map (get_pool user s)) i cnt false →
  in_pages (base (get_pool user s) + 4096 * i) cnt a = true → allocated s a = false.
Proof.
  intros Hw Hi Hfree Hin%in_pages_iff.
  assert (Hbit : page_used (get_pool user s) a = false).
  { unfold page_used. rewrite Hfree, andb_false_r; [done|]. mod_lia. }
  assert (Hother : in_pool (get_pool (negb user) s) a = false).
  { apply not_true_is_false. intros Ho%in_pages_iff. destruct Hw as [? ? ?]. destruct user; simpl in *; lia. }
  unfold allocated. destruct user; simpl in *; rewrite Hbit; unfold page_used; by rewrite Hother.
Qed.

(** A free run of pages in a pool. *)
Definition run_free (p : pool) (cnt : Z) : Prop :=
  ∃ i, 0 <= i ∧ i + cnt <= bit_cnt (used_map p) ∧ all_bits (used_map p) i cnt false.

Lemma palloc_get_multiple_run flags cnt s :
  palloc_wf s → 0 < cnt →
  let user := flag flags PAL_USER in
  (∃ s' pages, palloc_get_multiple flags cnt s = Ok (pages, s') ∧ pages ≠ NULL ∧ palloc_wf s' ∧
     in_pool (get_pool user s) pages = true ∧ run_used (get_pool user s') pages cnt ∧
     (∀ a, allocated s' a = if in_pages pages cnt a then true else allocated s a) ∧
     (∀ a, in_pages pages cnt a = true → allocated s a = false) ∧
     (∀ a, flag flags PAL_ZERO = true → in_pages pages cnt a = true → a mod 4096 = 0 →
        ram s' !! a = Some (replicate PAGE_WORDS 0))) ∨
  (¬ run_free (get_pool user s) cnt ∧
   palloc_get_multiple flags cnt s =
     if flag flags PAL_ASSERT then Fail Panicked else Ok (NULL, s)).
Proof.
  intros Hw Hc user. pose proof (get_pool_wf s user Hw) as Hp.
  pose proof (pw_low _ Hp). pose proof (pw_align _ Hp). pose proof (wf_cnt _ (pw_map _ Hp)).
  pose proof (pw_high _ Hp).
  destruct (take_pages_spec user cnt s Hw Hc)
    as (i & s1 & E1 & Hw1 & Hram & Hb & Hr & Hsame & Hused & Hal).
  unfold palloc_get_multiple. rewrite (proj2 (Z.eqb_neq cnt 0)) by lia. fold user.
  rewrite (bind_ok _ _ _ _ _ E1). unfold deliver_pages, gets. fold user.
  erewrite bind_ok by reflexivity. rewrite Hb. destruct (Z.eqb_spec i BITMAP_ERROR) as [Ei|Ei].
  - right. split.
    + intros (j & Hj0 & Hj1 & Hall). destruct Hr as [[_ Hno]|[Hlt _]].
      * by apply (Hno j); [lia|].
      * unfold BITMAP_ERROR in *. lia.
    + rewrite (Hsame Ei). simpl. by destruct (flag flags PAL_ASSERT).
  - left. destruct Hr as [[]|(Hi & Hfree & _)]; [done|].
    set (pages := base (get_pool user s) + 4096 * i) in *.
    assert (Epg : u32 (base (get_pool user s) + u32 (PGSIZE * i)) = pages).
    { unfold pages, PGSIZE. rewrite (u32_id (4096 * i)) by int_lia. apply u32_id. int_lia. }
    rewrite Epg, (proj2 (Z.eqb_neq pages NULL)) by (unfold NULL, pages; lia). cbn [negb].
    simpl in Hal.
    pose proof (λ a, free_run_unallocated s user i cnt a Hw ltac:(lia) Hfree) as Hnew. simpl in Hnew. fold pages in Hnew.
    assert (Hwz : ∀ m, palloc_wf (set_ram m s1)) by (intros m; by destruct Hw1).
    specialize (Hused Ei).
    assert (Hin : in_pool (get_pool user s) pages = true) by (apply in_pages_iff; unfold pages; lia).
    destruct (flag flags PAL_ZERO) eqn:Ez.
    + exists (set_ram (fill_pages (Z.to_nat cnt) pages 0 (ram s1)) s1), pages. split_and!; try done.
      * unfold pages, NULL. lia.
      * intros a _ Ha Ham. simpl. rewrite fill_pages_lookup by (done || (unfold pages; mod_lia)).
        by rewrite Z2Nat.id, Ha by lia.
    + exists s1, pages. split_and!; try done. unfold pages, NULL. lia.
Qed.

Lemma init_pool_spec start page_cnt junk :
  0 < start → start mod 4096 = 0 → 2 <= page_cnt → start + 4096 * page_cnt <= 2 ^ 32 - 4096 →
  let bm_pages := DIV_ROUND_UP (bitmap_buf_size page_cnt) PGSIZE in
  Z.of_nat (length junk) = (page_cnt - bm_pages + 31) / 32 → Forall in_u32 junk →
  ∃ p, init_pool start page_cnt junk = Ok p ∧ pool_wf p ∧
    base p = start + 4096 * bm_pages ∧ bit_cnt (used_map p) = page_cnt - bm_pages ∧
    all_bits (used_map p) 0 (page_cnt - bm_pages) false.
Proof.
  intros H0 Hal Hc Hhi bm_pages Hl Hj.
  assert (Ebuf : ∀ n, 0 <= n < 2 ^ 20 → bitmap_buf_size n = 8 + 4 * ((n + 31) / 32)).
  { intros n Hn. unfold bitmap_buf_size, byte_cnt, elem_cnt, ELEM_BITS.
    rewrite (u32_id (n + 32)), (u32_id (n + 32 - 1)) by int_lia.
    replace (n + 32 - 1) with (n + 31) by lia.
    rewrite (u32_id (4 * _)) by mod_lia. apply u32_id. mod_lia. }
  assert (Ebm : bm_pages = (bitmap_buf_size page_cnt + 4095) / 4096).
  { unfold bm_pages, DIV_ROUND_UP, PGSIZE. rewrite Ebuf by int_lia.
    rewrite (u32_id (_ + 4096)), (u32_id (_ - 1)) by mod_lia. f_equal. lia. }
  assert (Hbm : 1 <= bm_pages <= page_cnt - 1) by (rewrite Ebm, Ebuf by int_lia; mod_lia).
  unfold init_pool. fold bm_pages. destruct (Z.ltb_spec page_cnt bm_pages); [lia|].
  unfold PGSIZE. rewrite (u32_id (page_cnt - bm_pages)), !(u32_id (bm_pages * 4096)), u32_id by int_lia.
  destruct (bm_wf_make (page_cnt - bm_pages) junk) as [Hwf _]; [int_lia|done|done|].
  unfold bitmap_create_in_buf, rassert. rewrite (proj2 (Z.leb_le _ _)); cycle 1.
  { rewrite Ebuf by int_lia. rewrite Ebm, Ebuf by int_lia. mod_lia. }
  cbn [rbind]. unfold bitmap_set_all, bitmap_size. simpl (bit_cnt _).
  destruct (bitmap_set_multiple_spec _ 0 (page_cnt - bm_pages) false Hwf)
    as (m & -> & Hm & Hmc & Hbits); [simpl; lia..|]. simpl in Hmc, Hbits.
  exists (mk_pool m (start + bm_pages * 4096)). cbn [rbind used_map base]. split_and!; try done; [|lia|].
  - split; simpl; [done|mod_lia|lia|lia].
  - intros j Hjr. rewrite Hbits by lia. unfold in_range. z_cases.
Qed.

(** ** Single pages of the kernel pool

    What the thread system relies on: taking a page yields one that was not in
    use, and freeing it takes exactly that page out of use. *)

Definition kpage (s : palloc_state) (a : Z) : Prop :=
  a mod 4096 = 0 ∧ page_used (kernel_pool s) a = true.

Lemma kpage_run s a : palloc_wf s → kpage s a ↔ run_used (kernel_pool s) a 1.
Proof.
  intros [[Hm Hal _ _] _ _]. unfold kpage, run_used, page_used, in_pool.
  rewrite andb_true_iff, in_pages_iff. split.
  - intros (Ha & Hin & Hb). split_and!; try mod_lia. intros j Hj.
    replace j with ((a - base (kernel_pool s)) / 4096) by lia. done.
  - intros (Ha & Hlo & Hhi & Hb). split_and!; try lia. apply Hb. lia.
Qed.

Lemma kpage_allocated s a :
  palloc_wf s → in_pool (kernel_pool s) a = true → a mod 4096 = 0 → kpage s a ↔ allocated s a = true.
Proof.
  intros [_ _ Hd] Hin Ha. unfold kpage, allocated. apply in_pages_iff in Hin as Hin'.
  assert (Hu : page_used (user_pool s) a = false).
  { unfold page_used. replace (in_pool (user_pool s) a) with false; [done|]. symmetry.
    apply not_true_is_false. intros H%in_pages_iff. lia. }
  rewrite Hu, orb_false_r. naive_solver.
Qed.

Lemma kpage_in_pool s a : kpage s a → in_pool (kernel_pool s) a = true.
Proof. intros [_ H]. unfold page_used in H. by apply andb_true_iff in H as [? _]. Qed.

Lemma in_pages_one p a : p mod 4096 = 0 → a mod 4096 = 0 → in_pages p 1 a = true ↔ a = p.
Proof. intros. rewrite in_pages_iff. mod_lia. Qed.

(** The pools keep their places. *)
Definition same_pools (s s' : palloc_state) : Prop :=
  base (kernel_pool s') = base (kernel_pool s) ∧
  bit_cnt (used_map (kernel_pool s')) = bit_cnt (used_map (kernel_pool s)).

Lemma same_pools_in s s' a :
  same_pools s s' → in_pool (kernel_pool s') a = in_pool (kernel_pool s) a.
Proof. intros [E1 E2]. unfold in_pool. by rewrite E1, E2. Qed.

Lemma set_multiple_cnt b start cnt v b' : bitmap_set_multiple b start cnt v = Ok b' → bit_cnt b' = bit_cnt b.
Proof.
  assert (Ha : ∀ f b i b', alter_elem f b i = Ok b' → bit_cnt b' = bit_cnt b).
  { intros f b0 i b1. unfold alter_elem. destruct (bits b0 !! _); [|done]. by intros [= <-]. }
  unfold bitmap_set_multiple. intros H. apply rbind_inv in H as (_ & _ & H). revert H. generalize 0.
  revert b. induction (Z.to_nat cnt) as [|n IH]; intros b i; cbn [set_loop]; [by intros [= <-]|].
  intros H. apply rbind_inv in H as (b1 & E & H). apply IH in H as ->.
  unfold bitmap_set in E. apply rbind_inv in E as (_ & _ & E). by destruct v; apply Ha in E.
Qed.

Lemma palloc_free_same_pools pages cnt s s' :
  palloc_free_multiple pages cnt s = Ok (tt, s') → same_pools s s'.
Proof.
  unfold palloc_free_multiple, bind, assert, gets, id, ret, modify, lift, fail.
  intros H. repeat case_match; simplify_eq; try by split.
  all: match goal with E : bitmap_set_multiple _ _ _ _ = Ok _ |- _ => apply set_multiple_cnt in E end.
  all: by split.
Qed.

Lemma take_page_kpage s i s' :
  palloc_wf s → take_pages false 1 s = Ok (i, s') →
  palloc_wf s' ∧ same_pools s s' ∧
  ((i = BITMAP_ERROR ∧ s' = s) ∨
   let p := base (kernel_pool s) + 4096 * i in
   i ≠ BITMAP_ERROR ∧ u32 (base (kernel_pool s) + u32 (PGSIZE * i)) = p ∧ 0 < p ∧ p mod 4096 = 0 ∧
   ¬ kpage s p ∧ ∀ a, kpage s' a ↔ kpage s a ∨ a = p).
Proof.
  intros Hw E. destruct (take_pages_spec false 1 s Hw ltac:(lia))
    as (i' & s1 & E1 & Hw1 & _ & Hb & Hr & Herr & Hrun & Hal).
  rewrite E in E1. injection E1 as <- <-. simpl in *.
  assert (Hsp : same_pools s s').
  { unfold take_pages, gets in E. erewrite bind_ok in E by reflexivity. simpl in E.
    destruct (bitmap_scan_and_flip_spec (used_map (kernel_pool s)) 0 1 false) as (j & m & Ef & _ & _ & Hc & _);
      [apply Hw|pose proof (wf_cnt _ (pw_map _ (aw_kernel _ Hw))); lia|lia|].
    rewrite Ef in E. unfold bind, lift, modify, ret in E. injection E as _ <-. by split. }
  split; [done|]. split; [done|]. destruct (decide (i = BITMAP_ERROR)) as [Ei|Ei]; [left; auto|right].
  rewrite (proj2 (Z.eqb_neq _ _) Ei) in Hal. simpl in Hal.
  destruct Hr as [[]|(Hi & Hfree & _)]; [done|]. destruct (aw_kernel _ Hw) as [Hm Hpal Hlo Hhi].
  pose proof (wf_cnt _ Hm). set (p := base (kernel_pool s) + 4096 * i) in *.
  assert (Hpin : in_pool (kernel_pool s) p = true) by (apply in_pages_iff; unfold p; lia).
  assert (Hpm : p mod 4096 = 0) by (unfold p; mod_lia).
  split_and!; try done.
  - unfold p, PGSIZE. rewrite (u32_id (4096 * i)) by int_lia. apply u32_id. int_lia.
  - unfold p. lia.
  - intros [_ Hpu]. unfold page_used in Hpu. rewrite Hpin in Hpu. simpl in Hpu. unfold p in Hpu.
    rewrite Hfree in Hpu; [done|]. mod_lia.
  - intros a. split.
    + intros Hka. pose proof (kpage_in_pool _ _ Hka) as Hin. rewrite (same_pools_in s s') in Hin by done.
      destruct (decide (a = p)) as [|Hne]; [by right|left]. pose proof (proj1 Hka) as Ham.
      apply (kpage_allocated s' a) in Hka; [|done|by rewrite (same_pools_in s s')|done].
      apply kpage_allocated; [done..|]. rewrite Hal in Hka.
      destruct (in_pages p 1 a) eqn:Ein; [|done]. by apply in_pages_one in Ein.
    + intros Hor. assert (Ham : a mod 4096 = 0 ∧ in_pool (kernel_pool s) a = true).
      { destruct Hor as [Hka| ->]; [split; [apply Hka|by apply kpage_in_pool]|by split]. }
      destruct Ham as [Ham Hin]. apply kpage_allocated; [done|by rewrite (same_pools_in s s')|done|].
      rewrite Hal. destruct Hor as [Hka| ->].
      * destruct (in_pages p 1 a); [done|]. by apply kpage_allocated.
      * replace (in_pages p 1 p) with true; [done|]. symmetry. apply in_pages_iff. lia.
Qed.
Lemma free_page_kpage s t :
  palloc_wf s → kpage s t →
  ∃ s', palloc_free_page t s = Ok (tt, s') ∧ palloc_wf s' ∧ same_pools s s' ∧
    ∀ a, kpage s' a ↔ kpage s a ∧ a ≠ t.
Proof.
  intros Hw Hk. pose proof (proj1 (kpage_run s t Hw) Hk) as Hrun.
  destruct (palloc_free_multiple_spec false t 1 s Hw ltac:(lia) Hrun) as (s' & E & Hw' & Hal).
  assert (Hsp : same_pools s s') by (by apply (palloc_free_same_pools t 1)).
  exists s'. split_and!; try done. intros a. split.
  - intros Hka. pose proof (kpage_in_pool _ _ Hka) as Hin. pose proof (proj1 Hka) as Ham.
    apply (kpage_allocated s' a) in Hka; [|done..]. rewrite Hal in Hka.
    rewrite (same_pools_in s s') in Hin by done.
    destruct (in_pages t 1 a) eqn:Ein; [done|]. split; [by apply kpage_allocated|]. intros ->.
    apply not_true_iff_false in Ein. apply Ein. apply in_pages_one; done || apply Hk.
  - intros [Hka Hne]. pose proof (kpage_in_pool _ _ Hka) as Hin. pose proof (proj1 Hka) as Ham.
    apply (kpage_allocated s' a); [done|by rewrite (same_pools_in s s')|done|]. rewrite Hal.
    destruct (in_pages t 1 a) eqn:Ein; [|by apply kpage_allocated].
    apply in_pages_one in Ein; done || apply Hk.
Qed.

(** ** Properties *)

(** C34: allocating [cnt] pages either returns a page-aligned run of the requested
    pool none of whose pages was in use, marks exactly that run, and zeroes it when
    asked; or there is no free run of that length in the pool and nothing changes
    (the machine panics under [PAL_ASSERT]). *)
Theorem palloc_get_multiple_correct (flags cnt : Z) (s : palloc_state) :
  palloc_wf s → 0 < cnt →
  let user := flag flags PAL_USER in
  (∃ s' pages, palloc_get_multiple flags cnt s = Ok (pages, s') ∧ pages ≠ NULL ∧ palloc_wf s' ∧
     in_pool (get_pool user s) pages = true ∧ run_used (get_pool user s') pages cnt ∧
     (∀ a, allocated s' a = if in_pages pages cnt a then true else allocated s a) ∧
     (∀ a, in_pages pages cnt a = true → allocated s a = false) ∧
     (∀ a, flag flags PAL_ZERO = true → in_pages pages cnt a = true → a mod 4096 = 0 →
        ram s' !! a = Some (replicate PAGE_WORDS 0))) ∨
  (¬ run_free (get_pool user s) cnt ∧
   palloc_get_multiple flags cnt s = if flag flags PAL_ASSERT then Fail Panicked else Ok (NULL, s)).
Proof. apply palloc_get_multiple_run. Qed.

(** A machine with two pools of four pages; two pages of the user pool are in use. *)
Definition sample_palloc : palloc_state :=
  mk_palloc (mk_pool (mk_bitmap 4 [0]) 3222274048) (mk_pool (mk_bitmap 4 [5]) 3223322624) ∅.
Lemma sample_palloc_wf : palloc_wf sample_palloc.
Proof.
  assert (Hb : ∀ w, in_u32 w → bm_wf (mk_bitmap 4 [w])).
  { intros w Hw. split; [simpl; lia|done|by apply Forall_singleton]. }
  split; [split|split|]; simpl; try lia; try done; by apply Hb.
Qed.

Lemma palloc_get_multiple_correct_witness :
  ∃ s', palloc_get_multiple (PAL_USER + PAL_ZERO) 1 sample_palloc = Ok (3223326720, s') ∧ palloc_wf s'.
Proof.
  destruct (palloc_get_multiple_correct (PAL_USER + PAL_ZERO) 1 sample_palloc sample_palloc_wf)
    as [(s' & pages & E & _ & Hw & _)|[_ E]]; [lia| |by vm_compute in E].
  exists s'. split; [|done]. rewrite E. vm_compute in E. by injection E as <- _.
Defined.

(** What [palloc_get_multiple] returned can be freed without a failing
    assertion, and freeing it gives back the state of every page. *)
Theorem palloc_get_free_roundtrip (flags cnt pages : Z) (s s1 : palloc_state) :
  palloc_wf s → 0 < cnt → palloc_get_multiple flags cnt s = Ok (pages, s1) → pages ≠ NULL →
  ∃ s2, palloc_free_multiple pages cnt s1 = Ok (tt, s2) ∧ palloc_wf s2 ∧
        ∀ a, allocated s2 a = allocated s a.
Proof.
  intros Hw Hc E Hne.
  destruct (palloc_get_multiple_run flags cnt s Hw Hc)
    as [(s' & pg & E' & _ & Hw' & _ & Hu & Hal & Hnew & _)|[_ E']].
  - rewrite E in E'. injection E' as -> ->.
    destruct (palloc_free_multiple_spec _ pg cnt s' Hw' Hc Hu) as (s2 & Ef & Hw2 & Hal2).
    exists s2. split_and!; try done. intros a. rewrite Hal2, Hal.
    destruct (in_pages pg cnt a) eqn:Hin; [by rewrite Hnew|done].
  - rewrite E in E'. destruct (flag flags PAL_ASSERT); [done|]. by injection E' as -> _.
Qed.

Lemma palloc_get_free_roundtrip_witness :
  ∃ s1 s2, palloc_get_multiple 0 2 sample_palloc = Ok (3222274048, s1) ∧
    palloc_free_multiple 3222274048 2 s1 = Ok (tt, s2) ∧ palloc_wf s2 ∧
    ∀ a, allocated s2 a = allocated sample_palloc a.
Proof.
  set (s1 := set_pool false (mk_pool (mk_bitmap 4 [3]) 3222274048) sample_palloc).
  assert (E1 : palloc_get_multiple 0 2 sample_palloc = Ok (3222274048, s1)) by (vm_compute; reflexivity).
  destruct (palloc_get_free_roundtrip 0 2 3222274048 sample_palloc s1 sample_palloc_wf
              ltac:(lia) E1 ltac:(done)) as (s2 & E & H).
  exists s1, s2. exact (conj E1 (conj E H)).
Defined.
