(* ===== verification/Malloc.v ===== *)
(** * The block allocator (src/threads/malloc.c)

    A descriptor has the size of its blocks and the list of those that are free; an arena
    is the header of the page (or pages) its blocks are in.  [mem] holds the bytes of the
    blocks; the links of the free lists are the sequences of the free blocks.  The links lie
    in the first bytes of free blocks, which no allocated block overlaps, so what they do to
    those bytes is not part of the contents of any allocated block.  The descriptors' locks
    belong to the thread level. *)

From S2P Require Import Prelude Bitmap Palloc.
Local Open Scope Z_scope.

Record desc := mk_desc { block_size_ : Z; blocks_per_arena : Z; free_list : list Z }.

(** [a_desc] is the index of the owning descriptor, none for a big block; [free_cnt] is
    the number of free blocks, or of the pages of a big block. *)
Record arena := mk_arena { magic : Z; a_desc : option nat; free_cnt : Z }.

Record heap := mk_heap { pages : palloc_state; descs : list desc; arenas : gmap Z arena; mem : gmap Z Z }.
Notation H := (M heap).

Definition ARENA_MAGIC : Z := 2589232877.
Definition ARENA_SIZE : Z := 12.        (* sizeof (struct arena) *)

Definition set_pages x h := mk_heap x (descs h) (arenas h) (mem h).
Definition set_descs x h := mk_heap (pages h) x (arenas h) (mem h).
Definition set_arenas x h := mk_heap (pages h) (descs h) x (mem h).
Definition set_mem x h := mk_heap (pages h) (descs h) (arenas h) x.

Definition in_pages_of {A} (m : M palloc_state A) : H A := λ h,
  match m (pages h) with Ok (a, p) => Ok (a, set_pages p h) | Fail f => Fail f end.
Definition get_desc (i : nat) : H desc := λ h, need (descs h !! i) h.
Definition set_free_list (i : nat) (l : list Z) : H unit :=
  let* d := get_desc i in modify (λ h, set_descs (<[i := mk_desc (block_size_ d) (blocks_per_arena d) l]> (descs h)) h).
Definition get_arena (a : Z) : H arena := λ h, need (arenas h !! a) h.
Definition put_arena (a : Z) (x : arena) : H unit := modify (λ h, set_arenas (<[a := x]> (arenas h)) h).

(** ** Initialization *)

(** [for (block_size = 16; block_size < PGSIZE / 2; block_size *= 2)]; the array has ten
    elements. *)
Fixpoint init_loop (fuel : nat) (block_size : Z) (ds : list desc) : res (list desc) :=
  if block_size <? PGSIZE / 2 then
    match fuel with
    | O => Fail AssertFailed
    | S fuel' => init_loop fuel' (block_size * 2) (ds ++ [mk_desc block_size ((PGSIZE - ARENA_SIZE) / block_size) []])
    end
  else Ok ds.

Definition malloc_init : H unit := let* ds := lift (init_loop 10 16 []) in modify (set_descs ds).

(** ** Blocks and arenas *)

Definition block_to_arena (b : Z) : H Z :=
  let a := pg_round_down b in
  assert (negb (a =? NULL)) ;;;
  let* x := get_arena a in
  assert (magic x =? ARENA_MAGIC) ;;;
  (match a_desc x with
   | Some i => let* d := get_desc i in assert (u32 (pg_ofs b - ARENA_SIZE) mod block_size_ d =? 0)
   | None => assert (pg_ofs b =? ARENA_SIZE)
   end) ;;;
  ret a.

Definition arena_to_block (a idx : Z) : H Z :=
  assert (negb (a =? NULL)) ;;;
  let* x := get_arena a in
  assert (magic x =? ARENA_MAGIC) ;;;
  let* i := need (a_desc x) in
  let* d := get_desc i in
  assert (idx <? blocks_per_arena d) ;;;
  ret (u32 (a + ARENA_SIZE + idx * block_size_ d)).

(** ** Allocation *)

Fixpoint find_desc (ds : list desc) (i : nat) (size : Z) : option nat :=
  match ds with
  | [] => None
  | d :: rest => if size <=? block_size_ d then Some i else find_desc rest (S i) size
  end.

(** Adds the blocks of a new arena to the free list; [n] are left. *)
Fixpoint push_blocks (n : nat) (i : nat) (a idx : Z) : H unit :=
  match n with
  | O => ret tt
  | S n' =>
      let* b := arena_to_block a idx in
      let* d := get_desc i in
      set_free_list i (free_list d ++ [b]) ;;;
      push_blocks n' i a (idx + 1)
  end.

(** The allocation of a new arena when the free list is empty: whether there is a block. *)
Definition refill (i : nat) : H bool :=
  let* d := get_desc i in
  match free_list d with
  | _ :: _ => ret true
  | [] =>
      let* a := in_pages_of (palloc_get_page 0) in
      if a =? NULL then ret false
      else
        put_arena a (mk_arena ARENA_MAGIC (Some i) (blocks_per_arena d)) ;;;
        push_blocks (Z.to_nat (blocks_per_arena d)) i a 0 ;;;
        ret true
  end.

Definition malloc (size : Z) : H Z :=
  if size =? 0 then ret NULL
  else
    let* ds := gets descs in
    match find_desc ds 0 size with
    | None =>
        let page_cnt := DIV_ROUND_UP (u32 (size + ARENA_SIZE)) PGSIZE in
        let* a := in_pages_of (palloc_get_multiple 0 page_cnt) in
        if a =? NULL then ret NULL
        else put_arena a (mk_arena ARENA_MAGIC None page_cnt) ;;; ret (u32 (a + ARENA_SIZE))
    | Some i =>
        let* ok := refill i in
        if negb ok then ret NULL
        else
          let* d := get_desc i in
          match free_list d with
          | [] => fail AssertFailed
          | b :: rest =>
              set_free_list i rest ;;;
              let* a := block_to_arena b in
              let* x := get_arena a in
              put_arena a (mk_arena (magic x) (a_desc x) (u32 (free_cnt x - 1))) ;;;
              ret b
          end
    end.

(** [memset] and [memcpy] on the bytes of blocks; a byte that was never written is
    copied as such. *)
Fixpoint store_all (bytes : list Z) (p : Z) (m : gmap Z Z) : gmap Z Z :=
  match bytes with [] => m | b :: rest => store_all rest (p + 1) (<[p := b]> m) end.
Fixpoint copy_all (n : nat) (dst src : Z) (m : gmap Z Z) : gmap Z Z :=
  match n with O => m | S n' => copy_all n' (dst + 1) (src + 1) (partial_alter (λ _, m !! src) dst m) end.
Definition fill (p n b : Z) : H unit := modify (λ h, set_mem (store_all (replicate (Z.to_nat n) b) p (mem h)) h).

Definition calloc (a b : Z) : H Z :=
  let size := u32 (a * b) in
  if (size <? a) || (size <? b) then ret NULL
  else
    let* p := malloc size in
    (if negb (p =? NULL) then fill p size 0 else ret tt) ;;;
    ret p.

Definition block_size (block : Z) : H Z :=
  let* a := block_to_arena block in
  let* x := get_arena a in
  match a_desc x with
  | Some i => let* d := get_desc i in ret (block_size_ d)
  | None => ret (u32 (u32 (PGSIZE * free_cnt x) - pg_ofs block))
  end.

(** ** Release *)

(** Removes the blocks of an unused arena from the free list; [n] are left.  Removing
    what is not in a list is undefined. *)
Fixpoint remove_blocks (n : nat) (i : nat) (a idx : Z) : H unit :=
  match n with
  | O => ret tt
  | S n' =>
      let* b := arena_to_block a idx in
      let* d := get_desc i in
      (if decide (b ∈ free_list d) then set_free_list i (filter (λ x, x ≠ b) (free_list d)) else fail Undef) ;;;
      remove_blocks n' i a (idx + 1)
  end.

(** The pages are gone: the header and what the blocks held. *)
Definition drop_arena (a cnt : Z) : H unit :=
  modify (λ h, mk_heap (pages h) (descs h) (delete a (arenas h)) (filter (λ kv, in_pages a cnt kv.1 = false) (mem h))).

Definition free (p : Z) : H unit :=
  if p =? NULL then ret tt
  else
    let* a := block_to_arena p in
    let* x := get_arena a in
    match a_desc x with
    | Some i =>
        let* d := get_desc i in
        fill p (block_size_ d) 204 ;;;
        set_free_list i (p :: free_list d) ;;;
        let n := u32 (free_cnt x + 1) in
        put_arena a (mk_arena (magic x) (a_desc x) n) ;;;
        if blocks_per_arena d <=? n then
          assert (n =? blocks_per_arena d) ;;;
          remove_blocks (Z.to_nat (blocks_per_arena d)) i a 0 ;;;
          in_pages_of (palloc_free_page a) ;;;
          drop_arena a 1
        else ret tt
    | None =>
        in_pages_of (palloc_free_multiple a (free_cnt x)) ;;;
        drop_arena a (free_cnt x)
    end.

Definition realloc (old_block new_size : Z) : H Z :=
  if new_size =? 0 then free old_block ;;; ret NULL
  else
    let* new_block := malloc new_size in
    (if negb (old_block =? NULL) && negb (new_block =? NULL) then
       let* old_size := block_size old_block in
       let min_size := if new_size <? old_size then new_size else old_size in
       modify (λ h, set_mem (copy_all (Z.to_nat min_size) new_block old_block (mem h)) h) ;;;
       free old_block
     else ret tt) ;;;
    ret new_block.
