(* ===== verification/MallocSpec.v ===== *)
(** * Blocks are allocated once and never overlap (src/threads/malloc.c)

    The abstract allocator is the set of its live blocks ([live]): [malloc] adds a block
    that overlaps none of them, [free] takes one away. *)

From S2P Require Import Prelude Bitmap Palloc Malloc.
Local Open Scope Z_scope.

(** ** Well-formed heaps *)

Definition arena_pages (x : arena) : Z := match a_desc x with Some _ => 1 | None => free_cnt x end.

(** Descriptor [i] has blocks of [2 ^ (i + 4)] bytes. *)
Definition desc_ok (i : nat) (d : desc) : Prop :=
  (i < 7)%nat ∧ block_size_ d = 2 ^ (Z.of_nat i + 4) ∧ blocks_per_arena d = 4084 / block_size_ d.

(** [b] is block [idx] of the arena at [a]. *)
Definition block_at (d : desc) (a idx b : Z) : Prop :=
  0 <= idx < blocks_per_arena d ∧ b = a + ARENA_SIZE + idx * block_size_ d.

(** A run of kernel pages that are in use. *)
Definition krun (s : palloc_state) (a cnt : Z) : Prop :=
  0 < cnt ∧ a mod 4096 = 0 ∧ base (kernel_pool s) <= a ∧ a + 4096 * cnt <= base (kernel_pool s) + 4096 * bit_cnt (used_map (kernel_pool s)) ∧
  ∀ c, in_pages a cnt c = true → allocated s c = true.

Record heap_wf (h : heap) : Prop := {
  hw_pal : palloc_wf (pages h);
  hw_length : length (descs h) = 7%nat;
  hw_descs : ∀ i d, descs h !! i = Some d → desc_ok i d;
  hw_run : ∀ a x, arenas h !! a = Some x → magic x = ARENA_MAGIC ∧ krun (pages h) a (arena_pages x);
  hw_desc : ∀ a x i, arenas h !! a = Some x → a_desc x = Some i → ∃ d, descs h !! i = Some d ∧
    free_cnt x = Z.of_nat (length (filter (λ b, in_pages a 1 b = true) (free_list d)));
  hw_free : ∀ i d b, descs h !! i = Some d → b ∈ free_list d → ∃ a x idx, arenas h !! a = Some x ∧ a_desc x = Some i ∧ block_at d a idx b;
  hw_nodup : ∀ i d, descs h !! i = Some d → NoDup (free_list d);
  hw_disjoint : ∀ a a' x x' c, arenas h !! a = Some x → arenas h !! a' = Some x' →
    in_pages a (arena_pages x) c = true → in_pages a' (arena_pages x') c = true → a = a'
}.

(** Between calls no arena is entirely unused. *)
Definition no_idle_arena (h : heap) : Prop :=
  ∀ a x i d, arenas h !! a = Some x → a_desc x = Some i → descs h !! i = Some d → free_cnt x < blocks_per_arena d.

(** The block at [p] of [n] bytes is allocated. *)
Definition live (h : heap) (p n : Z) : Prop :=
  ∃ a x, arenas h !! a = Some x ∧
    match a_desc x with
    | Some i => ∃ d idx, descs h !! i = Some d ∧ block_at d a idx p ∧ p ∉ free_list d ∧ n = block_size_ d
    | None => p = a + ARENA_SIZE ∧ n = 4096 * free_cnt x - ARENA_SIZE
    end.

(** ** Arithmetic of blocks *)

Lemma desc_sizes i d : desc_ok i d → 16 <= block_size_ d <= 1024 ∧ 3 <= blocks_per_arena d <= 255 ∧ blocks_per_arena d * block_size_ d <= 4084.
Proof.
  intros (Hi & Hb & ->). rewrite Hb. do 7 (destruct i as [|i]; [vm_compute; repeat split; discriminate|]). lia.
Qed.

Lemma block_range i d a idx b :
  desc_ok i d → block_at d a idx b → a + 12 <= b ∧ b + block_size_ d <= a + 4096.
Proof. intros Hd [Hi ->]. pose proof (desc_sizes i d Hd) as (? & ? & ?). unfold ARENA_SIZE. nia. Qed.

Lemma block_in_page i d a idx b : desc_ok i d → block_at d a idx b → in_pages a 1 b = true.
Proof. intros Hd Hb. pose proof (block_range i d a idx b Hd Hb). pose proof (desc_sizes i d Hd). apply in_pages_iff. lia. Qed.

Lemma block_idx_inj i d a idx idx' b : desc_ok i d → block_at d a idx b → block_at d a idx' b → idx = idx'.
Proof. intros Hd [_ E] [_ E']. pose proof (desc_sizes i d Hd). nia. Qed.

(** Two different blocks of one arena do not overlap. *)
Lemma blocks_apart i d a idx idx' b b' :
  desc_ok i d → block_at d a idx b → block_at d a idx' b' → b ≠ b' → b + block_size_ d <= b' ∨ b' + block_size_ d <= b.
Proof.
  intros Hd [_ E] [_ E'] Hne. pose proof (desc_sizes i d Hd). assert (idx ≠ idx') by (intros ->; congruence).
  destruct (Z.lt_ge_cases idx idx'); [left|right]; nia.
Qed.

Lemma krun_range s a cnt : palloc_wf s → krun s a cnt → 0 < a ∧ a + 4096 * cnt <= 2 ^ 32 - 4096.
Proof. intros Hw (Hc & _ & Hb & He & _). pose proof (pw_low _ (aw_kernel _ Hw)). pose proof (pw_high _ (aw_kernel _ Hw)). lia. Qed.

Lemma round_down_in a c : 0 < a → a mod 4096 = 0 → a + 4096 <= 2 ^ 32 → a <= c < a + 4096 → pg_round_down c = a ∧ pg_ofs c = c - a.
Proof. intros. rewrite pg_round_down_spec, pg_ofs_mod by int_lia. split; mod_lia. Qed.

Lemma filter_all {A} (P : A → Prop) `{∀ x, Decision (P x)} (l : list A) : (∀ x, x ∈ l → P x) → filter P l = l.
Proof.
  induction l as [|x l IH]; intros Hl; [done|]. rewrite filter_cons_True by (apply Hl; left). f_equal. apply IH. intros y Hy. apply Hl. by right.
Qed.

(** The blocks from [idx] on. *)
Definition blocks (d : desc) (a idx : Z) (n : nat) : list Z := (λ k, a + ARENA_SIZE + k * block_size_ d) <$> seqZ idx (Z.of_nat n).

Lemma elem_of_blocks d a idx n b : b ∈ blocks d a idx n ↔ ∃ k, idx <= k < idx + Z.of_nat n ∧ b = a + ARENA_SIZE + k * block_size_ d.
Proof.
  unfold blocks. rewrite list_elem_of_fmap. split.
  - intros (k & -> & Hk). apply elem_of_seqZ in Hk. eauto.
  - intros (k & Hk & ->). exists k. split; [done|]. by apply elem_of_seqZ.
Qed.

Lemma blocks_cons d a idx n : blocks d a idx (S n) = (a + ARENA_SIZE + idx * block_size_ d) :: blocks d a (idx + 1) n.
Proof. unfold blocks. rewrite Nat2Z.inj_succ, seqZ_cons by lia. rewrite fmap_cons. do 3 f_equal; lia. Qed.

Lemma all_blocks i d a b : desc_ok i d → b ∈ blocks d a 0 (Z.to_nat (blocks_per_arena d)) ↔ ∃ idx, block_at d a idx b.
Proof.
  intros Hd. pose proof (desc_sizes i d Hd). rewrite elem_of_blocks. unfold block_at.
  split; intros (k & Hk & E); exists k; (split; [lia|done]).
Qed.

Lemma NoDup_blocks i d a idx n : desc_ok i d → NoDup (blocks d a idx n).
Proof.
  intros Hd. pose proof (desc_sizes i d Hd). apply NoDup_fmap_2_strong; [|apply NoDup_seqZ]. intros x y _ _ E. nia.
Qed.

(** ** The page allocator, as the block allocator uses it *)

Lemma krun_used s a cnt : palloc_wf s → krun s a cnt ↔ 0 < cnt ∧ run_used (kernel_pool s) a cnt.
Proof.
  intros Hw. pose proof (pw_align _ (aw_kernel _ Hw)). unfold krun, run_used. split.
  - intros (Hc & Ha & Hb & He & Hal). split_and!; try done. intros j Hj. set (c := base (kernel_pool s) + 4096 * j).
    assert (Hin : in_pages a cnt c = true) by (apply in_pages_iff; unfold c; mod_lia).
    assert (Hk : in_pool (kernel_pool s) c = true) by (apply in_pages_iff; unfold c; apply in_pages_iff in Hin; mod_lia).
    apply (kpage_allocated s c Hw Hk ltac:(unfold c; mod_lia)), proj2 in Hal; [|done]. unfold page_used in Hal. rewrite Hk in Hal.
    replace ((c - base (kernel_pool s)) / 4096) with j in Hal by (unfold c; mod_lia). done.
  - intros (Hc & Ha & Hb & He & Hbits). split_and!; try done. intros c Hin%in_pages_iff. unfold allocated. apply orb_true_iff. left.
    unfold page_used, in_pool. rewrite (proj2 (in_pages_iff _ _ _)) by lia. apply Hbits. mod_lia.
Qed.

(** Taking pages: they were free, and no others change. *)
Lemma get_kpages cnt s :
  palloc_wf s → 0 < cnt →
  (∃ a s', palloc_get_multiple 0 cnt s = Ok (a, s') ∧ a ≠ NULL ∧ palloc_wf s' ∧ same_pools s s' ∧ krun s' a cnt ∧
     (∀ c, in_pages a cnt c = true → allocated s c = false) ∧
     (∀ c, allocated s c = true → allocated s' c = true)) ∨
  (¬ run_free (kernel_pool s) cnt ∧ palloc_get_multiple 0 cnt s = Ok (NULL, s)).
Proof.
  intros Hw Hc. destruct (palloc_get_multiple_run 0 cnt s Hw Hc) as [(s' & a & E & Hne & Hw' & Hin & Hused & Hal & Hnew & _)|[Hno E]]; [left|by right].
  change (flag 0 PAL_USER) with false in *. cbn [get_pool] in *. exists a, s'. split_and!; try done.
  - destruct (take_pages_spec false cnt s Hw Hc) as (i & s1 & E1 & _). unfold palloc_get_multiple in E.
    rewrite (proj2 (Z.eqb_neq cnt 0)) in E by lia. change (flag 0 PAL_USER) with false in E. rewrite (bind_ok _ _ _ _ _ E1) in E.
    assert (s1 = s') as <-. { unfold deliver_pages, bind, gets in E. change (flag 0 PAL_ZERO) with false in E. change (flag 0 PAL_ASSERT) with false in E.
      destruct (negb _) in E; by injection E. }
    unfold take_pages, bind, gets, lift, modify, ret in E1. cbn [get_pool] in E1.
    destruct (bitmap_scan_and_flip (used_map (kernel_pool s)) 0 cnt false) as [[j m]|] eqn:Eb; [|done]. injection E1 as _ <-.
    destruct (bitmap_scan_and_flip_spec (used_map (kernel_pool s)) 0 cnt false) as (j' & m' & Eb' & _ & _ & Hc' & _);
      [apply Hw|pose proof (wf_cnt _ (pw_map _ (aw_kernel _ Hw))); lia|lia|]. rewrite Eb in Eb'. injection Eb' as -> ->. by split.
  - apply krun_used; [done|]. by split.
  - intros c Hx. rewrite Hal, Hx. by destruct (in_pages a cnt c).
Qed.

Lemma free_kpages a cnt s :
  palloc_wf s → krun s a cnt →
  ∃ s', palloc_free_multiple a cnt s = Ok (tt, s') ∧ palloc_wf s' ∧ same_pools s s' ∧
    ∀ c, allocated s' c = if in_pages a cnt c then false else allocated s c.
Proof.
  intros Hw Hk. destruct (proj1 (krun_used s a cnt Hw) Hk) as [Hc Hr].
  destruct (palloc_free_multiple_spec false a cnt s Hw Hc Hr) as (s' & E & Hw' & Hal). exists s'. split_and!; try done; by apply (palloc_free_same_pools a cnt).
Qed.

(** Runs that stay in use stay runs. *)
Lemma krun_kept s s' a cnt :
  same_pools s s' → krun s a cnt → (∀ c, in_pages a cnt c = true → allocated s c = true → allocated s' c = true) → krun s' a cnt.
Proof. intros [E1 E2] (H1 & H2 & H3 & H4 & H5) Hk. unfold krun. rewrite E1, E2. split_and!; try done. intros c Hc. by apply Hk, H5. Qed.

(** ** Running the helpers *)

(** The arena at [a] has blocks of descriptor [i]. *)
Record arena_of (h : heap) (a : Z) (x : arena) (i : nat) (d : desc) : Prop := {
  ao_arena : arenas h !! a = Some x;
  ao_magic : magic x = ARENA_MAGIC;
  ao_desc : a_desc x = Some i;
  ao_d : descs h !! i = Some d;
  ao_ok : desc_ok i d;
  ao_page : 0 < a ∧ a mod 4096 = 0 ∧ a + 4096 <= 2 ^ 32
}.

Lemma arena_to_block_run h a x i d idx :
  arena_of h a x i d → 0 <= idx < blocks_per_arena d → arena_to_block a idx h = Ok (a + ARENA_SIZE + idx * block_size_ d, h).
Proof.
  intros [H1 H2 H3 H4 H5 H6] Hi. assert (Hb : block_at d a idx (a + ARENA_SIZE + idx * block_size_ d)) by by split.
  pose proof (block_range i d a idx _ H5 Hb). pose proof (desc_sizes i d H5).
  unfold arena_to_block, assert, bind, get_arena, get_desc. rewrite (proj2 (Z.eqb_neq a NULL)) by (unfold NULL; lia). cbn [negb]. unfold ret.
  rewrite H1. cbn [need]. unfold ret. rewrite H2. change (ARENA_MAGIC =? ARENA_MAGIC) with true. cbv iota. rewrite H3. cbn [need]. unfold ret. rewrite H4. cbn [need]. unfold ret.
  rewrite (proj2 (Z.ltb_lt _ _)) by lia. do 2 f_equal. apply u32_id. int_lia.
Qed.

Lemma block_to_arena_run h a x i d idx b :
  arena_of h a x i d → block_at d a idx b → block_to_arena b h = Ok (a, h).
Proof.
  intros [H1 H2 H3 H4 H5 H6] Hb. pose proof (block_range i d a idx b H5 Hb). pose proof (desc_sizes i d H5).
  destruct (round_down_in a b) as [E1 E2]; [lia..|].
  unfold block_to_arena. rewrite E1. unfold assert, bind, get_arena, get_desc. rewrite (proj2 (Z.eqb_neq a NULL)) by (unfold NULL; lia). cbn [negb]. unfold ret.
  rewrite H1. cbn [need]. unfold ret. rewrite H2. change (ARENA_MAGIC =? ARENA_MAGIC) with true. cbv iota. rewrite H3, H4. cbn [need]. unfold ret.
  replace (u32 (pg_ofs b - ARENA_SIZE) mod block_size_ d) with 0; [done|]. rewrite E2. destruct Hb as [Hi ->].
  replace (a + ARENA_SIZE + idx * block_size_ d - a - ARENA_SIZE) with (idx * block_size_ d) by lia.
  rewrite u32_id by (unfold ARENA_SIZE in *; int_lia). symmetry. apply Z.mod_mul. lia.
Qed.

Definition with_list (d : desc) (l : list Z) : desc := mk_desc (block_size_ d) (blocks_per_arena d) l.

Lemma set_free_list_run h i d l : descs h !! i = Some d → set_free_list i l h = Ok (tt, set_descs (<[i := with_list d l]> (descs h)) h).
Proof. intros E. unfold set_free_list, get_desc, bind, need. by rewrite E. Qed.

Lemma set_same_list h i d l : descs h !! i = Some d → l = free_list d → set_descs (<[i := with_list d l]> (descs h)) h = h.
Proof. intros E ->. destruct h as [p ds ar m], d as [bs bpa fl]. unfold set_descs, with_list. simpl in *. f_equal. by apply list_insert_id. Qed.

(** The arena after its descriptor's free list was replaced. *)
Lemma arena_of_list h a x i d l : arena_of h a x i d → arena_of (set_descs (<[i := with_list d l]> (descs h)) h) a x i (with_list d l).
Proof. intros [H1 H2 H3 H4 H5 H6]. split; try done. simpl. apply list_lookup_insert_eq. by eapply lookup_lt_Some. Qed.

Lemma push_blocks_run n h a x i d idx :
  arena_of h a x i d → 0 <= idx → idx + Z.of_nat n <= blocks_per_arena d →
  push_blocks n i a idx h = Ok (tt, set_descs (<[i := with_list d (free_list d ++ blocks d a idx n)]> (descs h)) h).
Proof.
  revert h d idx. induction n as [|n IH]; intros h d idx Ha Hi Hn; cbn [push_blocks].
  - rewrite set_same_list; [done|apply Ha|apply app_nil_r].
  - rewrite (bind_ok _ _ _ _ _ (arena_to_block_run h a x i d idx Ha ltac:(lia))).
    unfold get_desc. rewrite (bind_ok _ _ _ d h) by by rewrite (ao_d _ _ _ _ _ Ha).
    rewrite (bind_ok _ _ _ _ _ (set_free_list_run h i d _ (ao_d _ _ _ _ _ Ha))).
    rewrite (IH _ _ (idx + 1) (arena_of_list h a x i d _ Ha)) by (simpl; lia). rewrite blocks_cons.
    unfold set_descs. simpl. rewrite list_insert_insert_eq. unfold with_list at 1. simpl. rewrite <- app_assoc. done.
Qed.

Lemma remove_blocks_run n h a x i d idx :
  arena_of h a x i d → 0 <= idx → idx + Z.of_nat n <= blocks_per_arena d → (∀ b, b ∈ blocks d a idx n → b ∈ free_list d) →
  remove_blocks n i a idx h = Ok (tt, set_descs (<[i := with_list d (filter (λ b, b ∉ blocks d a idx n) (free_list d))]> (descs h)) h).
Proof.
  revert h d idx. induction n as [|n IH]; intros h d idx Ha Hi Hn Hin; cbn [remove_blocks].
  - rewrite set_same_list; [done|apply Ha|]. apply filter_all. intros y _. apply not_elem_of_nil.
  - rewrite (bind_ok _ _ _ _ _ (arena_to_block_run h a x i d idx Ha ltac:(lia))). set (b := a + ARENA_SIZE + idx * block_size_ d).
    unfold get_desc. rewrite (bind_ok _ _ _ d h) by by rewrite (ao_d _ _ _ _ _ Ha).
    rewrite decide_True by (apply Hin; rewrite blocks_cons; left).
    rewrite (bind_ok _ _ _ _ _ (set_free_list_run h i d _ (ao_d _ _ _ _ _ Ha))).
    rewrite (IH _ _ (idx + 1) (arena_of_list h a x i d _ Ha)); [|lia|simpl; lia|].
    + unfold set_descs. simpl. rewrite list_insert_insert_eq. unfold with_list. simpl. rewrite list_filter_filter.
      do 5 f_equal. apply list_filter_iff. intros y. rewrite blocks_cons. fold b. unfold blocks. simpl. rewrite not_elem_of_cons. tauto.
    + intros c Hc. simpl. apply list_elem_of_filter. split; [|apply Hin; rewrite blocks_cons; right; exact Hc].
      intros ->. assert (Hnd : NoDup (blocks d a idx (S n))) by (eapply NoDup_blocks; apply Ha). rewrite blocks_cons in Hnd.
      apply NoDup_cons in Hnd as [Hnot _]. by apply Hnot.
Qed.

(** ** Replacing a free list *)

(** Live blocks, with [l] in place of the free list of descriptor [i]. *)
Definition live_with (h : heap) (i : nat) (l : list Z) (p n : Z) : Prop :=
  ∃ a x, arenas h !! a = Some x ∧
    match a_desc x with
    | Some j => ∃ d idx, descs h !! j = Some d ∧ block_at d a idx p ∧ p ∉ (if decide (j = i) then l else free_list d) ∧ n = block_size_ d
    | None => p = a + ARENA_SIZE ∧ n = 4096 * free_cnt x - ARENA_SIZE
    end.

Lemma live_with_same h i d p n : descs h !! i = Some d → live h p n ↔ live_with h i (free_list d) p n.
Proof.
  intros Hd. unfold live, live_with. split; intros (a & x & Ha & Hx); exists a, x; (split; [done|]); destruct (a_desc x) as [j|]; try done;
    destruct Hx as (d' & idx & Hd' & Hb & Hf & Hn); exists d', idx; split_and!; try done; destruct (decide (j = i)) as [->|]; congruence.
Qed.

(** Descriptor [i] gets the free list [l], and the arena at [a] the count [cnt]. *)
Definition relist (i : nat) (d : desc) (a : Z) (x : arena) (l : list Z) (cnt : Z) (h : heap) : heap :=
  mk_heap (pages h) (<[i := with_list d l]> (descs h)) (<[a := mk_arena (magic x) (a_desc x) cnt]> (arenas h)) (mem h).

Lemma relist_descs (i : nat) d l (ds : list desc) (j : nat) e :
  ds !! i = Some d → <[i := with_list d l]> ds !! j = Some e → (j = i ∧ e = with_list d l) ∨ (j ≠ i ∧ ds !! j = Some e).
Proof.
  intros Hd He. destruct (decide (j = i)) as [->|]; [left|right; by rewrite list_lookup_insert_ne in He].
  rewrite list_lookup_insert_eq in He by by eapply lookup_lt_Some. by injection He as <-.
Qed.

Lemma relist_live i d a x l cnt h p n : arena_of h a x i d → live (relist i d a x l cnt h) p n ↔ live_with h i l p n.
Proof.
  intros Ha. unfold live, live_with, relist. cbn [arenas descs]. pose proof (ao_arena _ _ _ _ _ Ha) as Hx. pose proof (ao_desc _ _ _ _ _ Ha) as Hi.
  pose proof (ao_d _ _ _ _ _ Ha) as Hd. split.
  - intros (a' & x' & Ha' & Hx').
    assert (Hold : ∃ y, arenas h !! a' = Some y ∧ a_desc y = a_desc x' ∧ (a_desc x' = None → y = x')).
    { destruct (decide (a' = a)) as [->|]; [rewrite lookup_insert_eq in Ha'; injection Ha' as <-; exists x; simpl; rewrite Hi; done|].
      rewrite lookup_insert_ne in Ha' by done. eauto. }
    destruct Hold as (y & Hy & Ey & En). exists a', y. split; [done|]. rewrite Ey. destruct (a_desc x') as [j|]; [|by rewrite En].
    destruct Hx' as (e & idx & He & Hb & Hf & ->). apply (relist_descs i d) in He as [[-> ->]|[Hj He]]; [| |done].
    + exists d, idx. rewrite decide_True by done. split_and!; done.
    + exists e, idx. rewrite decide_False by done. split_and!; done.
  - intros (a' & y & Ha' & Hy).
    exists a', (if decide (a' = a) then mk_arena (magic x) (a_desc x) cnt else y).
    assert (Ey : a_desc (if decide (a' = a) then mk_arena (magic x) (a_desc x) cnt else y) = a_desc y).
    { destruct (decide (a' = a)) as [->|]; [|done]. simpl. congruence. }
    split. { destruct (decide (a' = a)) as [->|]; [by rewrite lookup_insert_eq|by rewrite lookup_insert_ne]. }
    rewrite Ey. destruct (a_desc y) as [j|] eqn:Ej.
    + destruct Hy as (e & idx & He & Hb & Hf & ->). destruct (decide (j = i)) as [->|Hj].
      * assert (e = d) as -> by congruence. exists (with_list d l), idx. rewrite list_lookup_insert_eq by by eapply lookup_lt_Some. done.
      * exists e, idx. rewrite list_lookup_insert_ne by done. done.
    + destruct (decide (a' = a)) as [->|]; [congruence|done].
Qed.

(** How many blocks of the page [a] a list has. *)
Definition count (a : Z) (l : list Z) : Z := Z.of_nat (length (filter (λ b, in_pages a 1 b = true) l)).

Lemma count_cons a b l : count a (b :: l) = (if in_pages a 1 b then 1 else 0) + count a l.
Proof. unfold count. rewrite filter_cons. destruct (in_pages a 1 b); [rewrite decide_True by done|rewrite decide_False by done]; simpl; lia. Qed.

Lemma relist_wf i d a x l h :
  heap_wf h → arena_of h a x i d → NoDup l →
  (∀ b, b ∈ l → ∃ a' x' idx, arenas h !! a' = Some x' ∧ a_desc x' = Some i ∧ block_at d a' idx b) →
  (∀ a' x', a' ≠ a → arenas h !! a' = Some x' → a_desc x' = Some i → count a' l = count a' (free_list d)) →
  heap_wf (relist i d a x l (count a l) h).
Proof.
  intros [W1 W2 W3 W4 W5 W6 W7 W8] Ha Hnd Hin Hcnt. destruct Ha as [A1 A2 A3 A4 A5 A6].
  assert (Hold : ∀ a' x', arenas (relist i d a x l (count a l) h) !! a' = Some x' →
    ∃ y, arenas h !! a' = Some y ∧ a_desc x' = a_desc y ∧ magic x' = magic y ∧ arena_pages x' = arena_pages y ∧ (a' = a ∧ free_cnt x' = count a l ∨ a' ≠ a ∧ x' = y)).
  { intros a' x' Hx'. simpl in Hx'. destruct (decide (a' = a)) as [->|]; [rewrite lookup_insert_eq in Hx'|rewrite lookup_insert_ne in Hx' by done; by eauto 10].
    injection Hx' as <-. exists x. unfold arena_pages. cbn [a_desc magic free_cnt]. rewrite A3. auto 10. }
  split; cbn [pages descs relist].
  - done.
  - by rewrite length_insert.
  - intros j e He. apply (relist_descs i d) in He as [[-> ->]|[_ He]]; [done|by apply W3|done].
  - intros a' x' (y & Hy & _ & -> & -> & _)%Hold. by apply W4.
  - intros a' x' j (y & Hy & Ey & _ & _ & Hcase)%Hold Hj. rewrite Ey in Hj. destruct (W5 a' y j Hy Hj) as (e & He & Hc).
    destruct (decide (j = i)) as [->|Hji].
    + assert (e = d) as -> by congruence. exists (with_list d l). rewrite list_lookup_insert_eq by by eapply lookup_lt_Some. split; [done|].
      destruct Hcase as [[-> ->]|[Hne ->]]; [done|]. rewrite Hc. symmetry. by apply (Hcnt a' y).
    + exists e. rewrite list_lookup_insert_ne by done. split; [done|]. destruct Hcase as [[-> _]|[_ ->]]; [congruence|done].
  - intros j e b He Hb. apply (relist_descs i d) in He as [[-> ->]|[Hji He]]; [| |done].
    + destruct (Hin b Hb) as (a' & y & idx & Hy & Ey & Hbl). destruct (decide (a' = a)) as [->|].
      * exists a, (mk_arena (magic x) (a_desc x) (count a l)), idx. simpl. by rewrite lookup_insert_eq.
      * exists a', y, idx. simpl. by rewrite lookup_insert_ne.
    + destruct (W6 j e b He Hb) as (a' & y & idx & Hy & Ey & Hbl). exists a', y, idx. simpl.
      rewrite lookup_insert_ne; [done|]. intros ->. congruence.
  - intros j e He. apply (relist_descs i d) in He as [[-> ->]|[_ He]]; [done|by eapply W7|done].
  - intros a1 a2 x1 x2 c (y1 & Hy1 & _ & _ & -> & _)%Hold (y2 & Hy2 & _ & _ & -> & _)%Hold. by apply (W8 a1 a2 y1 y2 c).
Qed.

Lemma arena_of_wf h a x i : heap_wf h → arenas h !! a = Some x → a_desc x = Some i → ∃ d, arena_of h a x i d.
Proof.
  intros Hwf Ha Hi. destruct (hw_desc _ Hwf a x i Ha Hi) as (d & Hd & _). destruct (hw_run _ Hwf a x Ha) as [Hm Hk].
  exists d. split; try done; [by apply (hw_descs _ Hwf)|]. pose proof (krun_range _ _ _ (hw_pal _ Hwf) Hk).
  unfold arena_pages in *. rewrite Hi in *. destruct Hk as (_ & ? & _). split_and!; lia.
Qed.

(** A page belongs to one arena. *)
Lemma block_arena h a x i d idx b a' x' :
  heap_wf h → arena_of h a x i d → block_at d a idx b → arenas h !! a' = Some x' → in_pages a' (arena_pages x') b = true → a' = a.
Proof.
  intros Hwf Ha Hb Ha' Hin. symmetry. apply (hw_disjoint _ Hwf a a' x x' b); [apply Ha|done| |done].
  unfold arena_pages. rewrite (ao_desc _ _ _ _ _ Ha). eapply block_in_page; [apply Ha|done].
Qed.

(** The free blocks in the page of an arena are blocks of that arena. *)
Lemma free_in_arena h a x i d c :
  heap_wf h → arena_of h a x i d → c ∈ filter (λ b, in_pages a 1 b = true) (free_list d) → c ∈ blocks d a 0 (Z.to_nat (blocks_per_arena d)).
Proof.
  intros Hwf Ha Hcin. apply list_elem_of_filter in Hcin as [Hpc Hcin]. pose proof (ao_d _ _ _ _ _ Ha) as Hd.
  destruct (hw_free _ Hwf i d c Hd Hcin) as (a' & x' & idx' & Hx' & Hi' & Hb'). apply (all_blocks i); [apply Ha|]. exists idx'.
  replace a with a'; [done|]. symmetry. destruct (arena_of_wf h a' x' i Hwf Hx' Hi') as (d2 & Ha2).
  assert (d2 = d) as -> by (pose proof (ao_d _ _ _ _ _ Ha2); congruence).
  apply (block_arena h a' x' i d idx' c a x Hwf Ha2 Hb'); [apply Ha|]. unfold arena_pages. by rewrite (ao_desc _ _ _ _ _ Ha).
Qed.

Lemma length_blocks i d a : desc_ok i d → Z.of_nat (length (blocks d a 0 (Z.to_nat (blocks_per_arena d)))) = blocks_per_arena d.
Proof. intros Hd. pose proof (desc_sizes i d Hd). unfold blocks. rewrite length_fmap, length_seqZ. lia. Qed.

Lemma count_le h a x i d : heap_wf h → arena_of h a x i d → count a (free_list d) <= blocks_per_arena d.
Proof.
  intros Hwf Ha. rewrite <- (length_blocks i d a) by apply Ha. apply Nat2Z.inj_le, submseteq_length, NoDup_submseteq.
  - apply NoDup_filter. eapply hw_nodup; [done|apply Ha].
  - intros c Hc. by eapply free_in_arena.
Qed.

(** ** Taking a block from a free list *)

(** The last steps of [malloc] for a small block. *)
Definition pop_block (i : nat) : H Z :=
  let* d := get_desc i in
  match free_list d with
  | [] => fail AssertFailed
  | b :: rest =>
      set_free_list i rest ;;;
      let* a := block_to_arena b in
      let* x := get_arena a in
      put_arena a (mk_arena (magic x) (a_desc x) (u32 (free_cnt x - 1))) ;;;
      ret b
  end.

Lemma pop_block_run h i d b rest :
  heap_wf h → descs h !! i = Some d → free_list d = b :: rest →
  ∃ a x, arena_of h a x i d ∧ (∃ idx, block_at d a idx b) ∧ free_cnt x = count a (free_list d) ∧
    pop_block i h = Ok (b, relist i d a x rest (count a rest) h) ∧ heap_wf (relist i d a x rest (count a rest) h) ∧
    (∀ p n, live (relist i d a x rest (count a rest) h) p n ↔ live h p n ∨ (p = b ∧ n = block_size_ d)).
Proof.
  intros Hwf Hd Hl. destruct (hw_free _ Hwf i d b Hd) as (a & x & idx & Hx & Hi & Hb); [rewrite Hl; left|].
  destruct (arena_of_wf h a x i Hwf Hx Hi) as (d' & Ha). assert (d' = d) as -> by (pose proof (ao_d _ _ _ _ _ Ha); congruence).
  pose proof (block_in_page i d a idx b (ao_ok _ _ _ _ _ Ha) Hb) as Hpage.
  destruct (hw_desc _ Hwf a x i Hx Hi) as (d' & Hd' & Hc). assert (d' = d) as -> by congruence. fold (count a (free_list d)) in Hc.
  pose proof (hw_nodup _ Hwf i d Hd) as Hnd. rewrite Hl in Hnd. apply NoDup_cons in Hnd as [Hnb Hnd].
  assert (Hc1 : count a (free_list d) = 1 + count a rest) by (rewrite Hl, count_cons, Hpage; done).
  exists a, x. split; [done|]. split; [by exists idx|]. split; [done|]. split_and!.
  - unfold pop_block, get_desc. rewrite (bind_ok _ _ _ d h) by by rewrite Hd. rewrite Hl.
    rewrite (bind_ok _ _ _ _ _ (set_free_list_run h i d rest Hd)).
    rewrite (bind_ok _ _ _ _ _ (block_to_arena_run _ a x i (with_list d rest) idx b (arena_of_list h a x i d rest Ha) Hb)).
    unfold get_arena. rewrite (bind_ok _ _ _ x (set_descs (<[i := with_list d rest]> (descs h)) h)) by (simpl; by rewrite Hx).
    unfold put_arena, modify, bind, ret. replace (u32 (free_cnt x - 1)) with (count a rest); [done|].
    pose proof (count_le h a x i d Hwf Ha). pose proof (desc_sizes i d (ao_ok _ _ _ _ _ Ha)). rewrite u32_id by (unfold count in *; int_lia). lia.
  - apply relist_wf; try done.
    + intros c Hcin. apply (hw_free _ Hwf i d c Hd). rewrite Hl. by right.
    + intros a' x' Hne Hx' Hi'. rewrite Hl, count_cons. replace (in_pages a' 1 b) with false; [done|]. symmetry. apply not_true_is_false. intros Hin.
      apply Hne. apply (block_arena h a x i d idx b a' x' Hwf Ha Hb Hx'). unfold arena_pages. by rewrite Hi'.
  - intros p n. rewrite (relist_live _ _ _ _ _ _ _ _ _ Ha), (live_with_same h i d) by done. rewrite Hl. unfold live_with. split.
    + intros (a' & x' & Hx' & Hm). destruct (a_desc x') as [j|] eqn:Ej; [|left; exists a', x'; by rewrite Ej].
      destruct Hm as (e & idx' & He & Hb' & Hf & ->). destruct (decide (j = i)) as [->|Hji].
      * assert (e = d) as -> by congruence. destruct (decide (p = b)) as [->|Hpb]; [by right|left]. exists a', x'. rewrite Ej. split; [done|].
        exists d, idx'. rewrite decide_True by done. rewrite not_elem_of_cons. done.
      * left. exists a', x'. rewrite Ej. split; [done|]. exists e, idx'. by rewrite decide_False.
    + intros [(a' & x' & Hx' & Hm)|[-> ->]].
      * exists a', x'. split; [done|]. destruct (a_desc x') as [j|]; [|done]. destruct Hm as (e & idx' & He & Hb' & Hf & ->). exists e, idx'.
        split_and!; try done. destruct (decide (j = i)); [|done]. by apply not_elem_of_cons in Hf as [_ ?].
      * exists a, x. rewrite Hi. split; [done|]. exists d, idx. by rewrite decide_True.
Qed.

(** ** A new arena *)

(** The pages of the new arena belong to no other one. *)
Lemma new_arena h p a cnt :
  heap_wf h → krun p a cnt → (∀ c, in_pages a cnt c = true → allocated (pages h) c = false) →
  arenas h !! a = None ∧ ∀ a' x' c, arenas h !! a' = Some x' → in_pages a' (arena_pages x') c = true → in_pages a cnt c = true → False.
Proof.
  intros Hwf Hk Hnew. assert (Hdis : ∀ a' x' c, arenas h !! a' = Some x' → in_pages a' (arena_pages x') c = true → in_pages a cnt c = true → False).
  { intros a' x' c Hx' Hin Hc. destruct (hw_run _ Hwf a' x' Hx') as [_ (_ & _ & _ & _ & Hal)]. specialize (Hal c Hin). by rewrite (Hnew c Hc) in Hal. }
  split; [|done]. destruct (arenas h !! a) as [x'|] eqn:E; [|done]. exfalso. apply (Hdis a x' a E); apply in_pages_iff; [|destruct Hk; lia].
  destruct (hw_run _ Hwf a x' E) as [_ [? _]]. lia.
Qed.

(** The heap with the arena [x] at [a] in pages taken from the allocator; a small arena
    brings its blocks into the (empty) free list of its descriptor. *)
Definition add_arena (p : palloc_state) (a : Z) (x : arena) (ds : list desc) (h : heap) : heap :=
  mk_heap p ds (<[a := x]> (arenas h)) (mem h).

Lemma run_kept_add h p a x :
  heap_wf h → same_pools (pages h) p → krun p a (arena_pages x) → magic x = ARENA_MAGIC → (∀ c, allocated (pages h) c = true → allocated p c = true) →
  ∀ a' x', <[a := x]> (arenas h) !! a' = Some x' → magic x' = ARENA_MAGIC ∧ krun p a' (arena_pages x').
Proof.
  intros Hwf Hs Hk Hm Hmono a' x' Hx'. destruct (decide (a' = a)) as [->|]; [rewrite lookup_insert_eq in Hx'; by injection Hx' as <-|].
  rewrite lookup_insert_ne in Hx' by done. destruct (hw_run _ Hwf a' x' Hx') as [H1 H2]. split; [done|]. eapply krun_kept; [done..|]. intros c _. apply Hmono.
Qed.

Lemma disjoint_add h p a x :
  heap_wf h → krun p a (arena_pages x) → (∀ c, in_pages a (arena_pages x) c = true → allocated (pages h) c = false) →
  ∀ a1 a2 x1 x2 c, <[a := x]> (arenas h) !! a1 = Some x1 → <[a := x]> (arenas h) !! a2 = Some x2 →
    in_pages a1 (arena_pages x1) c = true → in_pages a2 (arena_pages x2) c = true → a1 = a2.
Proof.
  intros Hwf Hk Hnew a1 a2 x1 x2 c H1 H2 Hc1 Hc2. destruct (new_arena h p a _ Hwf Hk Hnew) as [_ Hdis].
  destruct (decide (a1 = a)) as [->|], (decide (a2 = a)) as [->|]; rewrite ?lookup_insert_eq, ?lookup_insert_ne in * by done; try done.
  - injection H1 as <-. exfalso. by eapply Hdis.
  - injection H2 as <-. exfalso. by eapply Hdis.
  - by eapply (hw_disjoint _ Hwf a1 a2 x1 x2 c).
Qed.

Lemma live_add_small h p a x i d :
  heap_wf h → descs h !! i = Some d → free_list d = [] → arenas h !! a = None → a_desc x = Some i → desc_ok i d →
  (∀ a' x' c, arenas h !! a' = Some x' → in_pages a' (arena_pages x') c = true → in_pages a 1 c = true → False) →
  ∀ q n, live (add_arena p a x (<[i := with_list d (blocks d a 0 (Z.to_nat (blocks_per_arena d)))]> (descs h)) h) q n ↔ live h q n.
Proof.
  intros Hwf Hd Hl Hnone Hi Hok Hdis q n. unfold live, add_arena. cbn [arenas descs]. split.
  - intros (a' & x' & Hx' & Hm). destruct (decide (a' = a)) as [->|Hne].
    + exfalso. rewrite lookup_insert_eq in Hx'. injection Hx' as <-. rewrite Hi in Hm. destruct Hm as (e & idx & He & Hb & Hf & _).
      rewrite list_lookup_insert_eq in He by by eapply lookup_lt_Some. injection He as <-. apply Hf. simpl. apply (all_blocks i); [done|]. by exists idx.
    + rewrite lookup_insert_ne in Hx' by done. exists a', x'. split; [done|]. destruct (a_desc x') as [j|]; [|done].
      destruct Hm as (e & idx & He & Hb & Hf & ->). apply (relist_descs i d) in He as [[-> ->]|[_ He]]; [|by exists e, idx|done].
      exists d, idx. rewrite Hl. split_and!; try done. apply not_elem_of_nil.
  - intros (a' & x' & Hx' & Hm). exists a', x'. assert (a' ≠ a) by (intros ->; congruence). rewrite lookup_insert_ne by done. split; [done|].
    destruct (a_desc x') as [j|] eqn:Ej; [|done]. destruct Hm as (e & idx & He & Hb & Hf & ->). destruct (decide (j = i)) as [->|Hji].
    + assert (e = d) as -> by congruence. eexists _, idx. rewrite list_lookup_insert_eq by by eapply lookup_lt_Some. split; [done|]. split_and!; try done.
      intros Hin. apply (all_blocks i) in Hin as [idx' Hb']; [|done]. apply (Hdis a' x' q Hx'); [|by eapply block_in_page].
      unfold arena_pages. rewrite Ej. by eapply block_in_page.
    + exists e, idx. by rewrite list_lookup_insert_ne.
Qed.

Lemma filter_none {A} (P : A → Prop) `{∀ x, Decision (P x)} (l : list A) : (∀ x, x ∈ l → ¬ P x) → filter P l = [].
Proof.
  induction l as [|x l IH]; intros Hl; [done|]. rewrite filter_cons_False by (apply Hl; left). apply IH. intros y Hy. apply Hl. by right.
Qed.

Lemma wf_add_small h p a i d :
  heap_wf h → descs h !! i = Some d → free_list d = [] → palloc_wf p → same_pools (pages h) p → krun p a 1 →
  (∀ c, in_pages a 1 c = true → allocated (pages h) c = false) → (∀ c, allocated (pages h) c = true → allocated p c = true) →
  heap_wf (add_arena p a (mk_arena ARENA_MAGIC (Some i) (blocks_per_arena d)) (<[i := with_list d (blocks d a 0 (Z.to_nat (blocks_per_arena d)))]> (descs h)) h).
Proof.
  intros Hwf Hd Hl Hp Hs Hk Hnew Hmono. set (x := mk_arena _ _ _). pose proof (hw_descs _ Hwf i d Hd) as Hok.
  destruct (new_arena h p a 1 Hwf Hk Hnew) as [Hnone Hdis].
  split; cbn [pages descs arenas add_arena].
  - done.
  - rewrite length_insert. apply Hwf.
  - intros j e He. apply (relist_descs i d) in He as [[-> ->]|[_ He]]; [done|by apply (hw_descs _ Hwf)|done].
  - by apply (run_kept_add h).
  - intros a' x' j Hx' Hj. destruct (decide (a' = a)) as [->|Hne].
    + rewrite lookup_insert_eq in Hx'. injection Hx' as <-. injection Hj as <-. eexists. rewrite list_lookup_insert_eq by by eapply lookup_lt_Some.
      split; [done|]. simpl. rewrite filter_all, (length_blocks i); [done|done|]. intros b Hb. apply (all_blocks i) in Hb as [idx Hb]; [|done]. by eapply block_in_page.
    + rewrite lookup_insert_ne in Hx' by done. destruct (hw_desc _ Hwf a' x' j Hx' Hj) as (e & He & Hc). destruct (decide (j = i)) as [->|Hji].
      * assert (e = d) as -> by congruence. eexists. rewrite list_lookup_insert_eq by by eapply lookup_lt_Some. split; [done|]. simpl.
        rewrite filter_none, Hc, Hl; [done|]. intros b Hb Hin. apply (all_blocks i) in Hb as [idx Hb]; [|done].
        apply (Hdis a' x' b Hx'); [unfold arena_pages; by rewrite Hj|by eapply block_in_page].
      * exists e. by rewrite list_lookup_insert_ne.
  - intros j e b He Hb. apply (relist_descs i d) in He as [[-> ->]|[Hji He]]; [| |done].
    + simpl in Hb. apply (all_blocks i) in Hb as [idx Hb]; [|done]. exists a, x, idx. by rewrite lookup_insert_eq.
    + destruct (hw_free _ Hwf j e b He Hb) as (a' & x' & idx & Hx' & Hi' & Hb'). exists a', x', idx. rewrite lookup_insert_ne; [done|]. intros ->. congruence.
  - intros j e He. apply (relist_descs i d) in He as [[-> ->]|[_ He]]; [by eapply NoDup_blocks|by eapply hw_nodup|done].
  - by apply (disjoint_add h p).
Qed.

(** Getting a non-empty free list. *)
Lemma refill_run h i d :
  heap_wf h → descs h !! i = Some d →
  (∃ h' d', refill i h = Ok (true, h') ∧ heap_wf h' ∧ descs h' !! i = Some d' ∧ free_list d' ≠ [] ∧ block_size_ d' = block_size_ d ∧
     blocks_per_arena d' = blocks_per_arena d ∧ mem h' = mem h ∧ (∀ p n, live h' p n ↔ live h p n) ∧
     (h' = h ∨ ∃ a, free_list d' = blocks d a 0 (Z.to_nat (blocks_per_arena d)) ∧ arenas h !! a = None ∧
        arenas h' = <[a := mk_arena ARENA_MAGIC (Some i) (blocks_per_arena d)]> (arenas h) ∧ descs h' = <[i := d']> (descs h))) ∨
  (¬ run_free (kernel_pool (pages h)) 1 ∧ refill i h = Ok (false, h)).
Proof.
  intros Hwf Hd. unfold refill, get_desc. rewrite (bind_ok _ _ _ d h) by by rewrite Hd. destruct (free_list d) as [|b rest] eqn:El.
  2: { left. exists h, d. rewrite El. split_and!; try done. by left. }
  unfold in_pages_of, palloc_get_page. pose proof (hw_descs _ Hwf i d Hd) as Hok. pose proof (desc_sizes i d Hok).
  destruct (get_kpages 1 (pages h) (hw_pal _ Hwf) ltac:(lia)) as [(a & p & E & Hne & Hp & Hs & Hk & Hnew & Hmono)|[Hno E]].
  2: { right. split; [done|]. unfold bind. rewrite E. by destruct h. }
  left. rewrite (bind_ok _ _ _ a (set_pages p h)) by by rewrite E. rewrite (proj2 (Z.eqb_neq _ _) Hne).
  set (x := mk_arena ARENA_MAGIC (Some i) (blocks_per_arena d)). set (h1 := set_arenas (<[a := x]> (arenas h)) (set_pages p h)).
  assert (Ha : arena_of h1 a x i d).
  { split; try done; [apply lookup_insert_eq|]. pose proof (krun_range _ _ _ Hp Hk). destruct Hk as (_ & ? & _). lia. }
  assert (E1 : (put_arena a x ;;; push_blocks (Z.to_nat (blocks_per_arena d)) i a 0 ;;; ret true) (set_pages p h) =
    Ok (true, add_arena p a x (<[i := with_list d (blocks d a 0 (Z.to_nat (blocks_per_arena d)))]> (descs h)) h)).
  { rewrite (bind_ok _ _ _ tt h1) by done. rewrite (bind_ok _ _ _ _ _ (push_blocks_run (Z.to_nat (blocks_per_arena d)) h1 a x i d 0 Ha ltac:(lia) ltac:(lia))).
    unfold ret. rewrite El. done. }
  destruct (new_arena h p a 1 Hwf Hk Hnew) as [Hnone Hdis].
  eexists _, _. split; [exact E1|]. split; [by apply wf_add_small|]. split; [apply list_lookup_insert_eq; by eapply lookup_lt_Some|].
  split_and!; try done.
  - simpl. intros E0. apply (f_equal (λ l, Z.of_nat (length l))) in E0. rewrite (length_blocks i) in E0 by done. simpl in E0. lia.
  - by apply live_add_small.
  - right. exists a. done.
Qed.

Lemma add_big h p a cnt :
  heap_wf h → palloc_wf p → same_pools (pages h) p → krun p a cnt →
  (∀ c, in_pages a cnt c = true → allocated (pages h) c = false) → (∀ c, allocated (pages h) c = true → allocated p c = true) →
  let h' := add_arena p a (mk_arena ARENA_MAGIC None cnt) (descs h) h in
  heap_wf h' ∧ arenas h !! a = None ∧ ∀ q n, live h' q n ↔ live h q n ∨ (q = a + ARENA_SIZE ∧ n = 4096 * cnt - ARENA_SIZE).
Proof.
  intros Hwf Hp Hs Hk Hnew Hmono h'. destruct (new_arena h p a cnt Hwf Hk Hnew) as [Hnone Hdis]. split; [|split; [done|]].
  - assert (Hold : ∀ a' x' j, arenas h' !! a' = Some x' → a_desc x' = Some j → a' ≠ a ∧ arenas h !! a' = Some x').
    { intros a' x' j Hx' Hj. simpl in Hx'. destruct (decide (a' = a)) as [->|]; [rewrite lookup_insert_eq in Hx'; by injection Hx' as <-|].
      by rewrite lookup_insert_ne in Hx'. }
    destruct Hwf as [W1 W2 W3 W4 W5 W6 W7 W8] eqn:Ew. clear Ew. split; cbn [pages descs arenas add_arena h']; try done.
    + by apply (run_kept_add h).
    + intros a' x' j Hx' Hj. destruct (Hold a' x' j Hx' Hj) as [_ Hx]. by apply W5.
    + intros j e b He Hb. destruct (W6 j e b He Hb) as (a' & x' & idx & Hx' & Hi' & Hb'). exists a', x', idx.
      rewrite lookup_insert_ne; [done|]. intros ->. congruence.
    + by apply (disjoint_add h p).
  - intros q n. unfold live. cbn [arenas descs add_arena h']. split.
    + intros (a' & x' & Hx' & Hm). destruct (decide (a' = a)) as [->|]; [|rewrite lookup_insert_ne in Hx' by done; left; eauto].
      rewrite lookup_insert_eq in Hx'. injection Hx' as <-. by right.
    + intros [(a' & x' & Hx' & Hm)|[-> ->]].
      * exists a', x'. rewrite lookup_insert_ne by (intros ->; congruence). done.
      * exists a. eexists. rewrite lookup_insert_eq. done.
Qed.

(** ** Live blocks *)

Lemma arenas_apart h a a' x x' :
  heap_wf h → arenas h !! a = Some x → arenas h !! a' = Some x' → a ≠ a' → a + 4096 * arena_pages x <= a' ∨ a' + 4096 * arena_pages x' <= a.
Proof.
  intros Hwf Hx Hx' Hne. destruct (hw_run _ Hwf a x Hx) as [_ (Hc & _)], (hw_run _ Hwf a' x' Hx') as [_ (Hc' & _)].
  destruct (Z.le_gt_cases (a + 4096 * arena_pages x) a'); [by left|]. destruct (Z.le_gt_cases (a' + 4096 * arena_pages x') a); [by right|].
  exfalso. apply Hne. apply (hw_disjoint _ Hwf a a' x x' (Z.max a a') Hx Hx'); apply in_pages_iff; lia.
Qed.

(** A live block lies inside its arena. *)
Lemma live_inside h p n :
  heap_wf h → live h p n → ∃ a x, arenas h !! a = Some x ∧ a + ARENA_SIZE <= p ∧ p + n <= a + 4096 * arena_pages x ∧ 0 < n ∧
    match a_desc x with Some i => ∃ d idx, arena_of h a x i d ∧ block_at d a idx p ∧ p ∉ free_list d ∧ n = block_size_ d | None => p = a + ARENA_SIZE ∧ n = 4096 * free_cnt x - ARENA_SIZE end.
Proof.
  intros Hwf (a & x & Hx & Hm). exists a, x. split; [done|]. unfold arena_pages. destruct (a_desc x) as [i|] eqn:Ei.
  - destruct Hm as (d & idx & Hd & Hb & Hf & ->). destruct (arena_of_wf h a x i Hwf Hx Ei) as (d' & Ha).
    assert (d' = d) as -> by (pose proof (ao_d _ _ _ _ _ Ha); congruence).
    pose proof (block_range i d a idx p (ao_ok _ _ _ _ _ Ha) Hb). pose proof (desc_sizes i d (ao_ok _ _ _ _ _ Ha)). unfold ARENA_SIZE.
    split_and!; [lia..|]. by exists d, idx.
  - destruct Hm as [-> ->]. destruct (hw_run _ Hwf a x Hx) as [_ (Hc & _)]. unfold arena_pages in Hc. rewrite Ei in Hc. unfold ARENA_SIZE. split_and!; lia.
Qed.

Lemma live_disjoint h p n q m : heap_wf h → live h p n → live h q m → p ≠ q → p + n <= q ∨ q + m <= p.
Proof.
  intros Hwf Hp Hq Hne. destruct (live_inside h p n Hwf Hp) as (a & x & Hx & H1 & H2 & _ & Hm), (live_inside h q m Hwf Hq) as (a' & x' & Hx' & H1' & H2' & _ & Hm').
  destruct (decide (a = a')) as [<-|Haa]; [|destruct (arenas_apart h a a' x x' Hwf Hx Hx' Haa); unfold ARENA_SIZE in *; lia].
  assert (x' = x) as -> by congruence. destruct (a_desc x) as [i|]; [|destruct Hm, Hm'; congruence].
  destruct Hm as (d & idx & Ha & Hb & _ & ->), Hm' as (d' & idx' & Ha' & Hb' & _ & ->).
  assert (d' = d) as -> by (pose proof (ao_d _ _ _ _ _ Ha); pose proof (ao_d _ _ _ _ _ Ha'); congruence).
  eapply blocks_apart; [apply Ha|done..].
Qed.

Lemma free_not_live h i d b n : heap_wf h → descs h !! i = Some d → b ∈ free_list d → ¬ live h b n.
Proof.
  intros Hwf Hd Hb Hlive. destruct (hw_free _ Hwf i d b Hd Hb) as (a & x & idx & Hx & Hi & Hbl).
  destruct (arena_of_wf h a x i Hwf Hx Hi) as (d' & Ha). assert (d' = d) as -> by (pose proof (ao_d _ _ _ _ _ Ha); congruence).
  destruct (live_inside h b n Hwf Hlive) as (a' & x' & Hx' & H1 & H2 & Hn & Hm).
  assert (a' = a) as -> by (apply (block_arena h a x i d idx b a' x' Hwf Ha Hbl Hx'), in_pages_iff; unfold ARENA_SIZE in *; lia).
  assert (x' = x) as -> by congruence. rewrite Hi in Hm. destruct Hm as (d2 & idx2 & Ha2 & _ & Hf & _).
  assert (d2 = d) as -> by (pose proof (ao_d _ _ _ _ _ Ha2); congruence). done.
Qed.

(** ** [malloc] *)

Lemma find_desc_some ds k size i : find_desc ds k size = Some i → ∃ j d, i = (k + j)%nat ∧ ds !! j = Some d ∧ size <= block_size_ d.
Proof.
  revert k. induction ds as [|d ds IH]; intros k; cbn [find_desc]; [done|]. destruct (Z.leb_spec size (block_size_ d)).
  - intros [= <-]. exists 0%nat, d. split_and!; [lia|done|done].
  - intros (j & e & -> & He & Hs)%IH. exists (S j), e. split_and!; [lia|done|done].
Qed.

Lemma find_desc_none ds k size : find_desc ds k size = None → ∀ j d, ds !! j = Some d → block_size_ d < size.
Proof.
  revert k. induction ds as [|d ds IH]; intros k; cbn [find_desc]; [done|]. destruct (Z.leb_spec size (block_size_ d)); [done|].
  intros Hn [|j] e He; [by injection He as <-|]. by eapply IH.
Qed.

(** The pages a request needs: one for a small block, all of its own otherwise. *)
Definition wraps (size : Z) : bool := 2 ^ 32 - 12 <? size.
Definition pages_for (size : Z) : Z := if (size <=? 1024) || wraps size then 1 else (size + 12 + 4095) / 4096.

(** The page count the code computes in 32 bits.  When only the addition of the rounding
    wraps around it is 0, and no kernel pool could hold the pages. *)
Lemma big_pages size : 1024 < size < 2 ^ 32 →
  (DIV_ROUND_UP (u32 (size + ARENA_SIZE)) PGSIZE = pages_for size ∧ 0 < pages_for size ∧ (wraps size = false → size <= 4096 * pages_for size - 12)) ∨
  (DIV_ROUND_UP (u32 (size + ARENA_SIZE)) PGSIZE = 0 ∧ 2 ^ 20 <= pages_for size).
Proof.
  intros Hs. unfold pages_for, wraps, DIV_ROUND_UP, ARENA_SIZE, PGSIZE. rewrite (proj2 (Z.leb_gt size 1024)) by lia. cbn [orb].
  destruct (Z.ltb_spec (2 ^ 32 - 12) size).
  - left. unfold u32. split_and!; [|lia|done].
    replace ((size + 12) mod 2 ^ 32) with (size + 12 - 2 ^ 32) by mod_lia. mod_lia.
  - destruct (Z.lt_ge_cases size (2 ^ 32 - 4107)).
    + left. rewrite (u32_id (size + 12)) by int_lia. split_and!; [f_equal; mod_lia|mod_lia|intros _; mod_lia].
    + right. unfold u32. split; mod_lia.
Qed.

Lemma no_run_of_all p cnt : pool_wf p → 2 ^ 20 <= cnt → ¬ run_free p cnt.
Proof. intros Hp Hc (i & Hi). pose proof (pw_high _ Hp). pose proof (pw_low _ Hp). lia. Qed.

Lemma malloc_small h size i d :
  heap_wf h → no_idle_arena h → find_desc (descs h) 0 size = Some i → descs h !! i = Some d → size ≠ 0 →
  (∃ p h', malloc size h = Ok (p, h') ∧ heap_wf h' ∧ no_idle_arena h' ∧ mem h' = mem h ∧ p ≠ NULL ∧
     (∀ q m, live h' q m ↔ live h q m ∨ (q = p ∧ m = block_size_ d)) ∧ (∀ m, ¬ live h p m)) ∨
  (malloc size h = Ok (NULL, h) ∧ ¬ run_free (kernel_pool (pages h)) 1).
Proof.
  intros Hwf Hidle Hf Hd Hs. unfold malloc. rewrite (proj2 (Z.eqb_neq _ _) Hs). unfold gets. erewrite bind_ok by reflexivity. rewrite Hf.
  destruct (refill_run h i d Hwf Hd) as [(h1 & d1 & E1 & Hwf1 & Hd1 & Hne1 & Hbs1 & Hbpa1 & Hmem1 & Hlive1 & Hcase)|[Hno E1]]; rewrite (bind_ok _ _ _ _ _ E1); [left|by right].
  cbn [negb]. change (let* d := get_desc i in _) with (pop_block i). destruct (free_list d1) as [|b rest] eqn:El; [done|].
  destruct (pop_block_run h1 i d1 b rest Hwf1 Hd1 El) as (a & x & Ha & (idx & Hb) & Hcnt & E2 & Hwf2 & Hlive2).
  exists b. eexists. split; [exact E2|]. split; [done|].
  assert (Hb0 : b ∈ free_list d1) by (rewrite El; left).
  assert (Hnot : ∀ m, ¬ live h b m) by (intros m Hm; apply (free_not_live h1 i d1 b m Hwf1 Hd1 Hb0); by apply Hlive1).
  pose proof (block_range i d1 a idx b (ao_ok _ _ _ _ _ Ha) Hb). pose proof (ao_page _ _ _ _ _ Ha).
  split_and!; [|done|unfold NULL; lia|intros q m; by rewrite Hlive2, Hlive1, Hbs1|done].
  intros a' x' j e Hx' Hj He. simpl in Hx', He. destruct (decide (a' = a)) as [->|Hne].
  - rewrite lookup_insert_eq in Hx'. injection Hx' as <-. simpl in Hj |- *. rewrite (ao_desc _ _ _ _ _ Ha) in Hj. injection Hj as <-.
    apply (relist_descs i d1) in He as [[_ ->]|[? _]]; [|done|done]. simpl. pose proof (count_le h1 a x i d1 Hwf1 Ha) as Hle.
    rewrite El, count_cons, (block_in_page i d1 a idx b (ao_ok _ _ _ _ _ Ha) Hb) in Hle. lia.
  - rewrite lookup_insert_ne in Hx' by done.
    assert (Hx : arenas h !! a' = Some x').
    { destruct Hcase as [->|(a0 & Hl0 & Hn0 & Har0 & _)]; [done|]. assert (a0 = a) as ->.
      { apply (block_arena h1 a x i d1 idx b a0 (mk_arena ARENA_MAGIC (Some i) (blocks_per_arena d)) Hwf1 Ha Hb).
        - by rewrite Har0, lookup_insert_eq.
        - rewrite El, Hl0 in Hb0. apply (all_blocks i) in Hb0 as [k Hk]; [|by apply (hw_descs _ Hwf)].
          eapply block_in_page; [by apply (hw_descs _ Hwf)|exact Hk]. }
      rewrite Har0, lookup_insert_ne in Hx' by done. done. }
    assert (He' : ∃ e0, descs h !! j = Some e0 ∧ blocks_per_arena e0 = blocks_per_arena e).
    { apply (relist_descs i d1) in He as [[-> ->]|[Hji He]]; [by exists d|exists e|done]. destruct Hcase as [->|(a0 & _ & _ & _ & Hds)]; [done|].
      rewrite Hds, list_lookup_insert_ne in He by done. done. }
    destruct He' as (e0 & He0 & <-). by apply (Hidle a' x' j e0).
Qed.

(** ** Giving the pages of an arena back *)

(** The heap without the arena at [a], with the free list [l] for descriptor [i]. *)
Definition without_arena (p : palloc_state) (i : nat) (d : desc) (l : list Z) (a : Z) (m : gmap Z Z) (h : heap) : heap :=
  mk_heap p (<[i := with_list d l]> (descs h)) (delete a (arenas h)) m.

Lemma without_arena_wf h p i d l a x m :
  heap_wf h → arenas h !! a = Some x → descs h !! i = Some d → palloc_wf p → same_pools (pages h) p →
  (∀ c, allocated p c = if in_pages a (arena_pages x) c then false else allocated (pages h) c) →
  NoDup l → (∀ b, b ∈ l → b ∈ free_list d ∧ in_pages a (arena_pages x) b = false) →
  (∀ a' x', a' ≠ a → arenas h !! a' = Some x' → a_desc x' = Some i → count a' l = count a' (free_list d)) →
  (∀ j, a_desc x = Some j → j = i) →
  heap_wf (without_arena p i d l a m h).
Proof.
  intros Hwf Hx Hd Hp Hs Hal Hnd Hl Hcnt Hji.
  assert (Hold : ∀ a' x', delete a (arenas h) !! a' = Some x' → a' ≠ a ∧ arenas h !! a' = Some x').
  { intros a' x' Hx'. by apply lookup_delete_Some in Hx' as [? ?]. }
  split; cbn [pages descs arenas without_arena].
  - done.
  - rewrite length_insert. apply Hwf.
  - intros j e He. apply (relist_descs i d) in He as [[-> ->]|[_ He]]; [by apply (hw_descs _ Hwf i d)|by apply (hw_descs _ Hwf)|done].
  - intros a' x' [Hne Hx']%Hold. destruct (hw_run _ Hwf a' x' Hx') as [Hm Hk]. split; [done|]. eapply krun_kept; [done..|]. intros c Hc Hu.
    rewrite Hal. destruct (in_pages a (arena_pages x) c) eqn:Ein; [|done]. destruct Hne. by apply (hw_disjoint _ Hwf a' a x' x c).
  - intros a' x' j [Hne Hx']%Hold Hj. destruct (hw_desc _ Hwf a' x' j Hx' Hj) as (e & He & Hc). destruct (decide (j = i)) as [->|].
    + assert (e = d) as -> by congruence. eexists. rewrite list_lookup_insert_eq by by eapply lookup_lt_Some. split; [done|].
      rewrite Hc. symmetry. by apply (Hcnt a' x').
    + exists e. by rewrite list_lookup_insert_ne.
  - intros j e b He Hb. assert (Hgo : ∃ e0, descs h !! j = Some e0 ∧ b ∈ free_list e0 ∧ (∀ a' idx, block_at e0 a' idx b → block_at e a' idx b) ∧ (j = i → in_pages a (arena_pages x) b = false)).
    { apply (relist_descs i d) in He as [[-> ->]|[Hji' He]]; [exists d; destruct (Hl b Hb); done|exists e; done|done]. }
    destruct Hgo as (e0 & He0 & Hb0 & Hbl & Hout). destruct (hw_free _ Hwf j e0 b He0 Hb0) as (a' & x' & idx & Hx' & Hj & Hbb).
    exists a', x', idx. split_and!; [|done|by apply Hbl]. rewrite lookup_delete_ne; [done|]. intros <-. assert (x' = x) as -> by congruence.
    assert (Hf : in_pages a (arena_pages x) b = false) by (apply Hout; by apply Hji).
    unfold arena_pages in Hf. rewrite Hj in Hf. by rewrite (block_in_page j e0 a idx b (hw_descs _ Hwf j e0 He0) Hbb) in Hf.
  - intros j e He. apply (relist_descs i d) in He as [[-> ->]|[_ He]]; [done|by eapply hw_nodup|done].
  - intros a1 a2 x1 x2 c [_ H1]%Hold [_ H2]%Hold. by apply (hw_disjoint _ Hwf a1 a2 x1 x2 c).
Qed.

(** The live blocks are those outside the arena. *)
Lemma without_arena_live h p i d l a x m q n :
  heap_wf h → arenas h !! a = Some x → descs h !! i = Some d →
  (∀ b, b ∈ l ↔ b ∈ free_list d ∧ in_pages a (arena_pages x) b = false) →
  live (without_arena p i d l a m h) q n ↔ live h q n ∧ in_pages a (arena_pages x) q = false.
Proof.
  intros Hwf Hx Hd Hl. split.
  - intros (a' & x' & Hx' & Hm). simpl in Hx'. apply lookup_delete_Some in Hx' as [Hne Hx'].
    assert (Hlive : live h q n).
    { exists a', x'. split; [done|]. destruct (a_desc x') as [j|] eqn:Ej; [|done]. destruct Hm as (e & idx & He & Hb & Hf & ->).
      apply (relist_descs i d) in He as [[-> ->]|[_ He]]; [|by exists e, idx|done]. exists d, idx. split_and!; try done. intros Hin. apply Hf, Hl. split; [done|].
      apply not_true_is_false. intros Hpg. apply Hne. apply (hw_disjoint _ Hwf a a' x x' q Hx Hx' Hpg). unfold arena_pages. rewrite Ej. by eapply block_in_page; [apply (hw_descs _ Hwf)|]. }
    split; [done|]. apply not_true_is_false. intros Hpg. destruct (live_inside h q n Hwf Hlive) as (a2 & x2 & Hx2 & H1 & H2 & Hn & Hm2).
    assert (Ea2 : a = a2) by (apply (hw_disjoint _ Hwf a a2 x x2 q Hx Hx2 Hpg), in_pages_iff; unfold ARENA_SIZE in *; lia). subst a2.
    apply Hne. assert (Hin' : in_pages a' (arena_pages x') q = true).
    { apply in_pages_iff. unfold arena_pages. destruct (a_desc x') as [j|] eqn:Ej.
      - destruct Hm as (e & idx & He & Hb & _ & _). assert (Hok : desc_ok j e) by (apply (relist_descs i d) in He as [[-> ->]|[_ He]]; [apply (hw_descs _ Hwf i d Hd)|by apply (hw_descs _ Hwf)|done]).
        pose proof (block_range j e a' idx q Hok Hb). pose proof (desc_sizes j e Hok). lia.
      - destruct Hm as [-> _]. destruct (hw_run _ Hwf a' x' Hx') as [_ (Hc & _)]. unfold arena_pages in Hc. rewrite Ej in Hc. unfold ARENA_SIZE. lia. }
    by apply (hw_disjoint _ Hwf a a' x x' q).
  - intros [(a' & x' & Hx' & Hm) Hpg]. exists a', x'. simpl. assert (Hne : a ≠ a').
    { intros <-. assert (x' = x) as -> by congruence. apply not_true_iff_false in Hpg. apply Hpg.
      destruct (live_inside h q n Hwf) as (a2 & x2 & Hx2 & H1 & H2 & Hn & Hm2); [by exists a, x|].
      unfold arena_pages. destruct (a_desc x) as [j|] eqn:Ej.
      - destruct Hm as (e & idx & He & Hb & _ & _). eapply block_in_page; [by apply (hw_descs _ Hwf j e)|done].
      - destruct Hm as [-> _]. destruct (hw_run _ Hwf a x Hx) as [_ (Hc & _)]. unfold arena_pages in Hc. rewrite Ej in Hc. apply in_pages_iff. unfold ARENA_SIZE. lia. }
    rewrite lookup_delete_ne by done. split; [done|]. destruct (a_desc x') as [j|]; [|done]. destruct Hm as (e & idx & He & Hb & Hf & ->).
    destruct (decide (j = i)) as [->|].
    + assert (e = d) as -> by congruence. exists (with_list d l), idx. rewrite list_lookup_insert_eq by by eapply lookup_lt_Some. split_and!; try done. simpl. intros [Hin _]%Hl. by apply Hf.
    + exists e, idx. by rewrite list_lookup_insert_ne.
Qed.

(** ** [free] *)

Lemma mem_wf h m : heap_wf h → heap_wf (set_mem m h).
Proof. intros []. by split. Qed.

Lemma mem_live h m p n : live (set_mem m h) p n ↔ live h p n.
Proof. done. Qed.

Lemma arena_of_mem h m a x i d : arena_of h a x i d → arena_of (set_mem m h) a x i d.
Proof. intros []. by split. Qed.

Lemma not_in_page h a x i d idx b a' x' :
  heap_wf h → arena_of h a x i d → block_at d a idx b → a' ≠ a → arenas h !! a' = Some x' → a_desc x' = Some i → in_pages a' 1 b = false.
Proof.
  intros Hwf Ha Hb Hne Hx' Hi'. apply not_true_is_false. intros Hin. apply Hne, (block_arena h a x i d idx b a' x' Hwf Ha Hb Hx').
  unfold arena_pages. by rewrite Hi'.
Qed.

(** Putting a live block on its free list. *)
Lemma push_live h a x i d idx p n :
  heap_wf h → arena_of h a x i d → block_at d a idx p → p ∉ free_list d →
  let h1 := relist i d a x (p :: free_list d) (count a (p :: free_list d)) h in
  heap_wf h1 ∧ arena_of h1 a (mk_arena (magic x) (a_desc x) (count a (p :: free_list d))) i (with_list d (p :: free_list d)) ∧
  (live h1 p n → False) ∧ (∀ q m, live h1 q m ↔ live h q m ∧ q ≠ p).
Proof.
  intros Hwf Ha Hb Hf h1. pose proof (ao_d _ _ _ _ _ Ha) as Hd.
  assert (Hlive : ∀ q m, live h1 q m ↔ live h q m ∧ q ≠ p).
  { intros q m. unfold h1. rewrite (relist_live _ _ _ _ _ _ _ _ _ Ha), (live_with_same h i d) by done. split.
    - intros (a' & x' & Hx' & Hm).
      assert (Hl : live_with h i (free_list d) q m).
      { exists a', x'. split; [done|]. destruct (a_desc x') as [j|]; [|done]. destruct Hm as (e & idx' & He & Hb' & Hf' & ->). exists e, idx'.
        split_and!; try done. destruct (decide (j = i)); [|done]. by apply not_elem_of_cons in Hf' as [_ ?]. }
      split; [done|]. intros ->. destruct (live_inside h p m Hwf) as (a2 & x2 & Hx2 & H1 & H2 & Hn & Hm2); [by apply (live_with_same h i d)|].
      assert (Hin' : in_pages a' (arena_pages x') p = true).
      { apply in_pages_iff. unfold arena_pages. destruct (a_desc x') as [j|] eqn:Ej.
        - destruct Hm as (e & idx' & He & Hb' & _ & _). pose proof (hw_descs _ Hwf j e He) as Hok.
          pose proof (block_range j e a' idx' p Hok Hb'). pose proof (desc_sizes j e Hok). lia.
        - destruct Hm as [-> _]. destruct (hw_run _ Hwf a' x' Hx') as [_ (Hc & _)]. unfold arena_pages in Hc. rewrite Ej in Hc. unfold ARENA_SIZE. lia. }
      assert (a' = a) as -> by by apply (block_arena h a x i d idx p a' x'). assert (x' = x) as -> by (pose proof (ao_arena _ _ _ _ _ Ha); congruence).
      rewrite (ao_desc _ _ _ _ _ Ha) in Hm. destruct Hm as (e & idx' & _ & _ & Hf' & _). rewrite decide_True in Hf' by done. by apply not_elem_of_cons in Hf' as [? _].
    - intros [(a' & x' & Hx' & Hm) Hne]. exists a', x'. split; [done|]. destruct (a_desc x') as [j|]; [|done].
      destruct Hm as (e & idx' & He & Hb' & Hf' & ->). exists e, idx'. split_and!; try done. destruct (decide (j = i)); [|done]. by rewrite not_elem_of_cons. }
  split_and!; [| |by intros [_ ?]%Hlive|done].
  - apply relist_wf; try done.
    + constructor; [done|by eapply hw_nodup].
    + intros b Hbin. apply elem_of_cons in Hbin as [->|Hbin]; [exists a, x, idx; split_and!; try done; apply Ha|by apply (hw_free _ Hwf i d b Hd)].
    + intros a' x' Hne Hx' Hi'. rewrite count_cons. by rewrite (not_in_page h a x i d idx p a' x').
  - destruct Ha as [A1 A2 A3 A4 A5 A6]. split; try done; simpl; [apply lookup_insert_eq|]. apply list_lookup_insert_eq. by eapply lookup_lt_Some.
Qed.

Lemma push_no_idle h a x i d l :
  no_idle_arena h → arena_of h a x i d → count a l < blocks_per_arena d → no_idle_arena (relist i d a x l (count a l) h).
Proof.
  intros Hidle Ha Hlt a' x' j e Hx' Hj He. simpl in Hx', He.
  assert (He' : ∃ e0, descs h !! j = Some e0 ∧ blocks_per_arena e = blocks_per_arena e0).
  { apply (relist_descs i d) in He as [[-> ->]|[_ He]]; [exists d; split; [apply Ha|done]|by exists e|apply Ha]. }
  destruct He' as (e0 & He0 & ->). destruct (decide (a' = a)) as [->|].
  - rewrite lookup_insert_eq in Hx'. injection Hx' as <-. simpl in Hj |- *. rewrite (ao_desc _ _ _ _ _ Ha) in Hj. injection Hj as <-.
    assert (e0 = d) as -> by (pose proof (ao_d _ _ _ _ _ Ha); congruence). done.
  - rewrite lookup_insert_ne in Hx' by done. by apply (Hidle a' x' j e0).
Qed.

(** An arena with as many free blocks as it has blocks has them all in the free list. *)
Lemma idle_blocks h a x i d : heap_wf h → arena_of h a x i d → count a (free_list d) = blocks_per_arena d →
  ∀ b, b ∈ blocks d a 0 (Z.to_nat (blocks_per_arena d)) → b ∈ free_list d.
Proof.
  intros Hwf Ha Hc b Hb. pose proof (length_blocks i d a (ao_ok _ _ _ _ _ Ha)) as Hl.
  assert (Hp : filter (λ b, in_pages a 1 b = true) (free_list d) ≡ₚ blocks d a 0 (Z.to_nat (blocks_per_arena d))).
  { apply submseteq_length_Permutation; [|unfold count in Hc; lia]. apply NoDup_submseteq; [apply NoDup_filter; eapply hw_nodup; [done|apply Ha]|].
    intros c. by eapply free_in_arena. }
  rewrite <- Hp in Hb. by apply list_elem_of_filter in Hb as [_ ?].
Qed.

(** The bytes of other blocks are not touched. *)
Lemma store_all_other bs p m c : (c < p ∨ p + Z.of_nat (length bs) <= c) → store_all bs p m !! c = m !! c.
Proof.
  revert p m. induction bs as [|b bs IH]; intros p m Hc; cbn [store_all]; [done|]. cbn [length] in Hc. rewrite IH by lia.
  rewrite lookup_insert_ne; [done|lia].
Qed.

(** The arena of the block at [p] has a block in use after all, and no page changes state;
    or it has none, and exactly its pages are given back to the page allocator. *)
Definition pages_released (p : Z) (h h' : heap) : Prop :=
  ∃ a x, arenas h !! a = Some x ∧ in_pages a (arena_pages x) p = true ∧
    ((is_Some (arenas h' !! a) ∧ (∃ q m, live h' q m ∧ in_pages a (arena_pages x) q = true) ∧ pages h' = pages h) ∨
     (arenas h' !! a = None ∧ (∀ q m, live h' q m → in_pages a (arena_pages x) q = false) ∧
      ∀ c, allocated (pages h') c = if in_pages a (arena_pages x) c then false else allocated (pages h) c)).

(** An arena that is not idle has a block in use. *)
Lemma busy_live h a x i d :
  heap_wf h → arena_of h a x i d → count a (free_list d) < blocks_per_arena d → ∃ q m, live h q m ∧ in_pages a 1 q = true.
Proof.
  intros Hwf Ha Hc. pose proof (ao_ok _ _ _ _ _ Ha) as Hok. set (bs := blocks d a 0 (Z.to_nat (blocks_per_arena d))).
  destruct (decide (Forall (λ b, b ∈ free_list d) bs)) as [Hall|Hno].
  - pose proof (length_blocks i d a Hok) as Hl. assert (Hsub : bs ⊆+ filter (λ b, in_pages a 1 b = true) (free_list d)).
    { apply NoDup_submseteq; [by apply (NoDup_blocks i)|]. intros b Hb. apply list_elem_of_filter. split; [|by apply (proj1 (Forall_forall _ _) Hall)].
      apply (all_blocks i d) in Hb as [k Hk]; [|done]. by apply (block_in_page i d a k). }
    apply submseteq_length in Hsub. unfold count in Hc. fold bs in Hl. lia.
  - apply not_Forall_Exists in Hno; [|intros b; apply _]. apply Exists_exists in Hno as (b & Hb & Hf). apply (all_blocks i d) in Hb as [k Hk]; [|done].
    exists b, (block_size_ d). split; [|by apply (block_in_page i d a k)]. exists a, x. rewrite (ao_desc _ _ _ _ _ Ha).
    split; [apply Ha|]. exists d, k. split_and!; [apply Ha|done|exact Hf|done].
Qed.

(** What [free] leaves of a heap. *)
Record freed (p : Z) (h h' : heap) : Prop := {
  fd_wf : heap_wf h';
  fd_idle : no_idle_arena h';
  fd_live : ∀ q m, live h' q m ↔ live h q m ∧ q ≠ p;
  fd_mem : ∀ q m c, live h' q m → q <= c < q + m → mem h' !! c = mem h !! c;
  fd_pages : pages_released p h h'
}.

(** Live blocks are outside the pages of an idle arena. *)
Lemma live_outside_idle h a x i d q m c :
  heap_wf h → arena_of h a x i d → count a (free_list d) = blocks_per_arena d → live h q m → q <= c < q + m → in_pages a 1 c = false.
Proof.
  intros Hwf Ha Hc Hq Hcr. apply not_true_is_false. intros Hpc.
  destruct (live_inside h q m Hwf Hq) as (a2 & x2 & Hx2 & H1 & H2 & Hn & Hm2).
  assert (a = a2) as <-. { apply (hw_disjoint _ Hwf a a2 x x2 c (ao_arena _ _ _ _ _ Ha) Hx2); [unfold arena_pages; by rewrite (ao_desc _ _ _ _ _ Ha)|].
    apply in_pages_iff. unfold ARENA_SIZE in *. lia. }
  assert (x2 = x) as -> by (pose proof (ao_arena _ _ _ _ _ Ha); congruence). rewrite (ao_desc _ _ _ _ _ Ha) in Hm2.
  destruct Hm2 as (d2 & k & Ha2 & Hb2 & Hf2 & _). assert (d2 = d) as -> by (pose proof (ao_d _ _ _ _ _ Ha); pose proof (ao_d _ _ _ _ _ Ha2); congruence).
  apply Hf2, (idle_blocks h a x i d Hwf Ha Hc), (all_blocks i); [apply Ha|]. by exists k.
Qed.

(** Releasing an idle arena: no block is lost and no live block changes. *)
Lemma release_idle h a x i d :
  heap_wf h → arena_of h a x i d → count a (free_list d) = blocks_per_arena d →
  ∃ h' l, (remove_blocks (Z.to_nat (blocks_per_arena d)) i a 0 ;;; in_pages_of (palloc_free_page a) ;;; drop_arena a 1) h = Ok (tt, h') ∧
    heap_wf h' ∧ (∀ q m, live h' q m ↔ live h q m) ∧ (∀ q m c, live h q m → q <= c < q + m → mem h' !! c = mem h !! c) ∧
    arenas h' = delete a (arenas h) ∧ descs h' = <[i := with_list d l]> (descs h) ∧
    ∀ c, allocated (pages h') c = if in_pages a 1 c then false else allocated (pages h) c.
Proof.
  intros Hwf Ha Hc. pose proof (desc_sizes i d (ao_ok _ _ _ _ _ Ha)). pose proof (idle_blocks h a x i d Hwf Ha Hc) as Hall.
  rewrite (bind_ok _ _ _ _ _ (remove_blocks_run (Z.to_nat (blocks_per_arena d)) h a x i d 0 Ha ltac:(lia) ltac:(lia) Hall)).
  set (l := filter (λ b, b ∉ blocks d a 0 (Z.to_nat (blocks_per_arena d))) (free_list d)).
  destruct (hw_run _ Hwf a x (ao_arena _ _ _ _ _ Ha)) as [_ Hk]. pose proof (ao_desc _ _ _ _ _ Ha) as Hi. pose proof (ao_d _ _ _ _ _ Ha) as Hd.
  assert (Hpg : arena_pages x = 1) by (unfold arena_pages; by rewrite Hi). rewrite Hpg in Hk.
  destruct (free_kpages a 1 (pages h) (hw_pal _ Hwf) Hk) as (p & Ep & Hp & Hs & Hal).
  rewrite (bind_ok _ _ _ tt (set_pages p (set_descs (<[i := with_list d l]> (descs h)) h))) by (unfold in_pages_of, palloc_free_page; simpl pages; by rewrite Ep).
  set (m' := filter (λ kv, in_pages a 1 kv.1 = false) (mem h)). exists (without_arena p i d l a m' h), l. split; [done|].
  assert (Hl : ∀ b, b ∈ l ↔ b ∈ free_list d ∧ in_pages a (arena_pages x) b = false).
  { intros b. unfold l. rewrite Hpg, list_elem_of_filter. split.
    - intros [Hnb Hbl]. split; [done|]. apply not_true_is_false. intros Hpb. apply Hnb, (free_in_arena h a x i d); [done..|]. by apply list_elem_of_filter.
    - intros [Hbl Hpb]. split; [|done]. intros Hbb. apply (all_blocks i d) in Hbb as [k Hkb]; [|apply Ha].
      by rewrite (block_in_page i d a k b (ao_ok _ _ _ _ _ Ha) Hkb) in Hpb. }
  split_and!; try done.
  - apply (without_arena_wf h p i d l a x); try done; [apply Ha| | | | |].
    + intros c. by rewrite Hal, Hpg.
    + apply NoDup_filter. by eapply hw_nodup.
    + intros b Hb. by apply Hl.
    + intros a' x' Hne Hx' Hi'. unfold count, l. rewrite list_filter_filter_l; [done|]. intros y Hy Hyb.
      apply (all_blocks i d) in Hyb as [k Hkb]; [|apply Ha]. by rewrite (not_in_page h a x i d k y a' x') in Hy.
    + intros j Hj. congruence.
  - intros q m. rewrite (without_arena_live h p i d l a x m' q m Hwf (ao_arena _ _ _ _ _ Ha) Hd Hl). split; [tauto|]. intros Hq. split; [done|].
    rewrite Hpg. apply (live_outside_idle h a x i d q m q Hwf Ha Hc Hq). destruct (live_inside h q m Hwf Hq) as (? & ? & _ & _ & _ & ? & _). lia.
  - intros q m c Hq Hcr. cbn [mem without_arena]. unfold m'. apply option_eq. intros v. rewrite map_lookup_filter_Some. split; [tauto|].
    intros Hv. split; [done|]. by apply (live_outside_idle h a x i d q m c Hwf Ha Hc Hq).
Qed.

Lemma free_small h a x i d idx p :
  heap_wf h → no_idle_arena h → arena_of h a x i d → block_at d a idx p → p ∉ free_list d → ∃ h', free p h = Ok (tt, h') ∧ freed p h h'.
Proof.
  intros Hwf Hidle Ha Hb Hf. pose proof (block_range i d a idx p (ao_ok _ _ _ _ _ Ha) Hb) as Hr. pose proof (ao_page _ _ _ _ _ Ha) as Hpg.
  pose proof (desc_sizes i d (ao_ok _ _ _ _ _ Ha)) as Hsz. pose proof (block_in_page i d a idx p (ao_ok _ _ _ _ _ Ha) Hb) as Hin.
  assert (Hpgs : arena_pages x = 1) by (unfold arena_pages; by rewrite (ao_desc _ _ _ _ _ Ha)).
  set (m0 := store_all (replicate (Z.to_nat (block_size_ d)) 204) p (mem h)). set (h0 := set_mem m0 h).
  assert (Ha0 : arena_of h0 a x i d) by by apply arena_of_mem.
  destruct (hw_desc _ Hwf a x i (ao_arena _ _ _ _ _ Ha) (ao_desc _ _ _ _ _ Ha)) as (d' & Hd' & Hc).
  assert (d' = d) as -> by (pose proof (ao_d _ _ _ _ _ Ha); congruence). fold (count a (free_list d)) in Hc.
  destruct (push_live h0 a x i d idx p 0 (mem_wf h m0 Hwf) Ha0 Hb Hf) as (Hwf1 & Ha1 & _ & Hlive1).
  set (l := p :: free_list d) in *. set (h1 := relist i d a x l (count a l) h0) in *.
  pose proof (count_le h1 a _ i _ Hwf1 Ha1) as Hle. cbn [free_list with_list blocks_per_arena] in Hle.
  assert (Hcl : u32 (free_cnt x + 1) = count a l).
  { unfold l in *. rewrite count_cons, Hin in Hle |- *. rewrite u32_id; [lia|]. unfold count in *. int_lia. }
  assert (Hmem : ∀ q m c, live h q m ∧ q ≠ p → q <= c < q + m → m0 !! c = mem h !! c).
  { intros q m c [Hq Hne] Hcr. apply store_all_other. rewrite length_replicate.
    assert (Hp : live h p (block_size_ d)) by (exists a, x; rewrite (ao_desc _ _ _ _ _ Ha); split; [apply Ha|]; exists d, idx; done).
    destruct (live_disjoint h p (block_size_ d) q m Hwf Hp Hq); [by apply not_eq_sym|lia..]. }
  assert (E1 : free p h = (if blocks_per_arena d <=? count a l then
      assert (count a l =? blocks_per_arena d) ;;; remove_blocks (Z.to_nat (blocks_per_arena d)) i a 0 ;;; in_pages_of (palloc_free_page a) ;;; drop_arena a 1
    else ret tt) h1).
  { unfold free. rewrite (proj2 (Z.eqb_neq p NULL)) by (unfold NULL; lia). rewrite (bind_ok _ _ _ _ _ (block_to_arena_run h a x i d idx p Ha Hb)).
    unfold get_arena. rewrite (bind_ok _ _ _ x h) by by rewrite (ao_arena _ _ _ _ _ Ha). rewrite (ao_desc _ _ _ _ _ Ha).
    unfold get_desc. rewrite (bind_ok _ _ _ d h) by by rewrite (ao_d _ _ _ _ _ Ha). rewrite (bind_ok _ _ _ tt h0) by done.
    rewrite (bind_ok _ _ _ _ _ (set_free_list_run h0 i d l (ao_d _ _ _ _ _ Ha0))). rewrite Hcl. unfold h1, relist. rewrite (ao_desc _ _ _ _ _ Ha). done. }
  rewrite E1. destruct (Z.leb_spec (blocks_per_arena d) (count a l)) as [Hfull|Hpart].
  2: { exists h1. split; [done|]. split; [done|by apply push_no_idle|done| |].
       - intros q m c Hq%Hlive1. by apply (Hmem q m c).
       - exists a, x. rewrite Hpgs. split; [apply Ha|]. split; [done|left]. split; [eexists; apply Ha1|].
         split; [by apply (busy_live h1 a _ i _ Hwf1 Ha1)|done]. }
  assert (Heq : count a l = blocks_per_arena d) by lia. rewrite Heq, Z.eqb_refl. cbn [assert]. erewrite bind_ok by reflexivity.
  destruct (release_idle h1 a _ i _ Hwf1 Ha1 Heq) as (h' & l' & E & Hwf' & Hlive' & Hmem' & Har & Hds & Hal).
  exists h'. split; [exact E|]. split; [done| | | |].
  - intros a' x' j e Hx' Hj He. rewrite Har in Hx'. rewrite Hds in He. simpl in Hx', He. apply lookup_delete_Some in Hx' as [Hne Hx']. rewrite lookup_insert_ne in Hx' by done.
    rewrite list_insert_insert_eq in He. apply (relist_descs i d l') in He as [[-> ->]|[_ He]]; [|by apply (Hidle a' x' j e)|apply Ha].
    simpl. apply (Hidle a' x' i d); [done..|apply Ha].
  - intros q m. rewrite Hlive', Hlive1. done.
  - intros q m c Hq Hcr. rewrite (Hmem' q m c); [|by apply Hlive'|done]. apply (Hmem q m c); [|done]. by apply Hlive1, Hlive'.
  - exists a, x. rewrite Hpgs. split; [apply Ha|]. split; [done|right]. split; [rewrite Har; apply lookup_delete_eq|]. split; [|exact Hal].
    intros q m Hq%Hlive'. apply (live_outside_idle h1 a _ i _ q m q Hwf1 Ha1 Heq Hq). destruct (live_inside h1 q m Hwf1 Hq) as (? & ? & _ & _ & _ & ? & _). lia.
Qed.

Lemma free_big h a x p :
  heap_wf h → no_idle_arena h → arenas h !! a = Some x → a_desc x = None → p = a + ARENA_SIZE → ∃ h', free p h = Ok (tt, h') ∧ freed p h h'.
Proof.
  intros Hwf Hidle Hx Hi ->. destruct (hw_run _ Hwf a x Hx) as [Hmag Hk]. pose proof (krun_range _ _ _ (hw_pal _ Hwf) Hk) as Hr.
  assert (Hpg : arena_pages x = free_cnt x) by (unfold arena_pages; by rewrite Hi). rewrite Hpg in *. pose proof (proj1 Hk) as Hc0.
  destruct (round_down_in a (a + ARENA_SIZE)) as [E1 E2]; [lia|apply Hk|lia|unfold ARENA_SIZE; lia|].
  destruct (lookup_lt_is_Some_2 (descs h) 0) as [d0 Hd0]; [rewrite (hw_length _ Hwf); lia|].
  destruct (free_kpages a (free_cnt x) (pages h) (hw_pal _ Hwf) Hk) as (p' & Ep & Hp' & Hs' & Hal').
  set (m' := filter (λ kv, in_pages a (free_cnt x) kv.1 = false) (mem h)).
  assert (Hsmall : ∀ b, b ∈ free_list d0 → in_pages a (arena_pages x) b = false).
  { intros b Hb. apply not_true_is_false. intros Hpb. destruct (hw_free _ Hwf 0%nat d0 b Hd0 Hb) as (a' & x' & idx & Hx' & Hi' & Hbl).
    destruct (arena_of_wf h a' x' 0 Hwf Hx' Hi') as (d' & Ha'). assert (d' = d0) as -> by (pose proof (ao_d _ _ _ _ _ Ha'); congruence).
    assert (a = a') as <- by by apply (block_arena h a' x' 0 d0 idx b a x). congruence. }
  assert (Hl : ∀ b, b ∈ free_list d0 ↔ b ∈ free_list d0 ∧ in_pages a (arena_pages x) b = false) by (intros b; split; [intros Hb; split; [done|by apply Hsmall]|tauto]).
  exists (without_arena p' 0 d0 (free_list d0) a m' h). split.
  { unfold free. rewrite (proj2 (Z.eqb_neq _ NULL)) by (unfold NULL, ARENA_SIZE; lia).
    assert (Eb : block_to_arena (a + ARENA_SIZE) h = Ok (a, h)).
    { unfold block_to_arena. rewrite E1. unfold assert, bind, get_arena. rewrite (proj2 (Z.eqb_neq a NULL)) by (unfold NULL; lia). cbn [negb]. unfold ret.
      rewrite Hx. cbn [need]. unfold ret. rewrite Hmag. change (ARENA_MAGIC =? ARENA_MAGIC) with true. cbv iota. rewrite Hi, E2.
      replace (a + ARENA_SIZE - a) with ARENA_SIZE by lia. done. }
    rewrite (bind_ok _ _ _ _ _ Eb). unfold get_arena. rewrite (bind_ok _ _ _ x h) by by rewrite Hx. rewrite Hi.
    rewrite (bind_ok _ _ _ tt (set_pages p' h)) by (unfold in_pages_of; by rewrite Ep).
    unfold drop_arena, modify, without_arena. rewrite (list_insert_id (descs h)); [done|]. rewrite Hd0. by destruct d0. }
  assert (Hlive : ∀ q m, live (without_arena p' 0 d0 (free_list d0) a m' h) q m ↔ live h q m ∧ q ≠ a + ARENA_SIZE).
  { intros q m. rewrite (without_arena_live h p' 0 d0 (free_list d0) a x m' q m Hwf Hx Hd0 Hl). split.
    - intros [Hq Hout]. split; [done|]. intros ->. apply not_true_iff_false in Hout. apply Hout, in_pages_iff. rewrite Hpg. unfold ARENA_SIZE. lia.
    - intros [Hq Hne]. split; [done|]. apply not_true_is_false. intros Hpq. destruct (live_inside h q m Hwf Hq) as (a2 & x2 & Hx2 & H1 & H2 & Hn & Hm2).
      assert (a = a2) as <-. { apply (hw_disjoint _ Hwf a a2 x x2 q Hx Hx2 Hpq), in_pages_iff. unfold ARENA_SIZE in *. lia. }
      assert (x2 = x) as -> by congruence. rewrite Hi in Hm2. by destruct Hm2. }
  split; [| |done| |].
  - apply (without_arena_wf h p' 0 d0 (free_list d0) a x); try done.
    + by rewrite Hpg.
    + by eapply hw_nodup.
    + intros b. by apply Hl.
    + intros j Hj. congruence.
  - intros a' x' j e Hx' Hj He. simpl in Hx', He. apply lookup_delete_Some in Hx' as [_ Hx'].
    rewrite list_insert_id in He by (rewrite Hd0; by destruct d0). by apply (Hidle a' x' j e).
  - intros q m c Hq Hcr. apply Hlive in Hq as [Hq Hne]. cbn [mem without_arena]. unfold m'. apply option_eq. intros v. rewrite map_lookup_filter_Some. split; [tauto|].
    intros Hv. split; [done|]. cbn [fst]. apply not_true_is_false. intros Hpc. destruct (live_inside h q m Hwf Hq) as (a2 & x2 & Hx2 & H1 & H2 & Hn & Hm2).
    assert (a = a2) as <-. { apply (hw_disjoint _ Hwf a a2 x x2 c Hx Hx2); [by rewrite Hpg|]. apply in_pages_iff. unfold ARENA_SIZE in *. lia. }
    assert (x2 = x) as -> by congruence. rewrite Hi in Hm2. by destruct Hm2.
  - exists a, x. split; [done|]. split; [apply in_pages_iff; rewrite Hpg; unfold ARENA_SIZE; lia|right]. split; [apply lookup_delete_eq|].
    split; [|by rewrite Hpg]. intros q m Hq. by apply (without_arena_live h p' 0 d0 (free_list d0) a x m' q m Hwf Hx Hd0 Hl) in Hq as [_ ?].
Qed.

(** ** Properties *)

(** C15: For every request, [malloc] returns null only for zero bytes or when the kernel
    pool has no free run of the pages it needs, and then changes nothing; otherwise it
    returns a block that was not allocated and overlaps no allocated block, and the
    allocated blocks afterwards are those before and this one; it writes no byte of any
    block.  The block has at least the requested size, except for the eleven requests
    above [2 ^ 32 - 12], where adding the size of the header wraps around: those are
    granted one page, that is 4084 bytes. *)
Theorem malloc_correct h size :
  heap_wf h → no_idle_arena h → 0 <= size < 2 ^ 32 →
  ∃ p h', malloc size h = Ok (p, h') ∧ heap_wf h' ∧ no_idle_arena h' ∧ mem h' = mem h ∧
    ((p = NULL ∧ h' = h ∧ (size = 0 ∨ ¬ run_free (kernel_pool (pages h)) (pages_for size))) ∨
     (p ≠ NULL ∧ ∃ n, (if wraps size then n = 4084 else size <= n) ∧ (∀ q m, live h' q m ↔ live h q m ∨ (q = p ∧ m = n)) ∧
        ∀ q m, live h q m → p + n <= q ∨ q + m <= p)).
Proof.
  intros Hwf Hidle Hs. destruct (decide (size = 0)) as [->|Hs0]; [exists NULL, h; split_and!; try done; left; auto|].
  assert (Hapart : ∀ p n h', heap_wf h' → (∀ q m, live h' q m ↔ live h q m ∨ (q = p ∧ m = n)) → (∀ m, ¬ live h p m) →
    ∀ q m, live h q m → p + n <= q ∨ q + m <= p).
  { intros p n h' Hwf' Hl Hnot q m Hq. apply (live_disjoint h'); [done|apply Hl; by right|apply Hl; by left|]. intros ->. by eapply Hnot. }
  destruct (find_desc (descs h) 0 size) as [i|] eqn:Ef.
  - destruct (find_desc_some _ _ _ _ Ef) as (j & d & -> & Hd & Hle). simpl in Hd. pose proof (desc_sizes j d (hw_descs _ Hwf j d Hd)).
    destruct (malloc_small h size j d Hwf Hidle Ef Hd Hs0) as [(p & h' & E & Hwf' & Hi' & Hm & Hne & Hl & Hnot)|[E Hno]].
    + exists p, h'. split_and!; try done. right. split; [done|]. exists (block_size_ d). split_and!; [unfold wraps; rewrite (proj2 (Z.ltb_ge _ _)) by lia; done|done|]. by apply (Hapart p _ h').
    + exists NULL, h. split_and!; try done. left. split_and!; try done. right. unfold pages_for. rewrite (proj2 (Z.leb_le _ _)) by lia. done.
  - assert (Hbig : 1024 < size).
    { destruct (lookup_lt_is_Some_2 (descs h) 6) as [d Hd]; [rewrite (hw_length _ Hwf); lia|]. pose proof (find_desc_none _ _ _ Ef 6%nat d Hd) as Hlt.
      destruct (hw_descs _ Hwf 6%nat d Hd) as (_ & Hb & _). rewrite Hb in Hlt. simpl in Hlt. lia. }
    unfold malloc. rewrite (proj2 (Z.eqb_neq _ _) Hs0). unfold gets. erewrite bind_ok by reflexivity. rewrite Ef. cbv zeta. unfold in_pages_of.
    destruct (big_pages size ltac:(lia)) as [(Epc & Hpc & Hsize)|[Epc Hpc]]; rewrite Epc.
    2: { exists NULL, h. split_and!; try done; [by destruct h|]. left. split_and!; try done. right. apply no_run_of_all; [apply (aw_kernel _ (hw_pal _ Hwf))|done]. }
    destruct (get_kpages (pages_for size) (pages h) (hw_pal _ Hwf) ltac:(lia)) as [(a & p & E & Hne & Hp & Hsp & Hk & Hnew & Hmono)|[Hno E]].
    2: { exists NULL, h. unfold bind. rewrite E. split_and!; try done; [by destruct h|left; auto]. }
    rewrite (bind_ok _ _ _ a (set_pages p h)) by by rewrite E. rewrite (proj2 (Z.eqb_neq _ _) Hne). pose proof (krun_range _ _ _ Hp Hk) as Hr.
    destruct (add_big h p a (pages_for size) Hwf Hp Hsp Hk Hnew Hmono) as (Hwf' & Hnone & Hl).
    rewrite u32_id by (unfold ARENA_SIZE; int_lia). eexists _, _. split; [reflexivity|]. split; [exact Hwf'|]. split_and!; [|done|right].
    + intros a' x' j d Hx' Hj Hd. simpl in Hx', Hd. destruct (decide (a' = a)) as [->|]; [rewrite lookup_insert_eq in Hx'; by injection Hx' as <-|].
      rewrite lookup_insert_ne in Hx' by done. by apply (Hidle a' x' j d).
    + split; [unfold NULL, ARENA_SIZE; lia|]. exists (4096 * pages_for size - ARENA_SIZE).
      split_and!; [destruct (wraps size) eqn:Ewr; [unfold pages_for; by rewrite Ewr, orb_true_r|by apply Hsize]|exact Hl|].
      apply (Hapart _ _ _ Hwf' Hl). intros m Hm. destruct (live_inside h _ m Hwf Hm) as (a2 & x2 & Hx2 & H1 & H2 & Hn & _).
      destruct (new_arena h p a _ Hwf Hk Hnew) as [_ Hdis]. apply (Hdis a2 x2 (a + ARENA_SIZE) Hx2); apply in_pages_iff; unfold ARENA_SIZE in *; lia.
Qed.

(** C16: [free] of an allocated block succeeds and takes exactly that block away: all
    other allocated blocks stay allocated with their contents.  If the block's arena has
    another block in use, no page changes state; if it has none, the arena is gone and
    exactly its pages, those of the whole run for a big block, are free in the page
    allocator again. *)
Theorem free_correct h p n :
  heap_wf h → no_idle_arena h → live h p n →
  ∃ h', free p h = Ok (tt, h') ∧ heap_wf h' ∧ no_idle_arena h' ∧
    (∀ q m, live h' q m ↔ live h q m ∧ q ≠ p) ∧ (∀ q m c, live h' q m → q <= c < q + m → mem h' !! c = mem h !! c) ∧
    pages_released p h h'.
Proof.
  intros Hwf Hidle Hl. destruct (live_inside h p n Hwf Hl) as (a & x & Hx & _ & _ & _ & Hm). destruct (a_desc x) as [i|] eqn:Ei.
  - destruct Hm as (d & idx & Ha & Hb & Hf & _). destruct (free_small h a x i d idx p Hwf Hidle Ha Hb Hf) as (h' & E & []). exists h'. by split_and!.
  - destruct Hm as [-> _]. destruct (free_big h a x (a + ARENA_SIZE) Hwf Hidle Hx Ei eq_refl) as (h' & E & []). exists h'. by split_and!.
Qed.

(** ** A sample *)

Definition sample_heap : heap :=
  match malloc_init (mk_heap sample_palloc [] ∅ ∅) with Ok (_, h) => h | Fail _ => mk_heap sample_palloc [] ∅ ∅ end.

Lemma sample_heap_wf : heap_wf sample_heap ∧ no_idle_arena sample_heap.
Proof.
  assert (Hds : ∀ i d, descs sample_heap !! i = Some d → desc_ok i d ∧ free_list d = []).
  { intros i d Hd. do 7 (destruct i as [|i]; [vm_compute in Hd; injection Hd as <-; by repeat split; lia|]). by vm_compute in Hd. }
  assert (Har : ∀ a, arenas sample_heap !! a = None) by (intros a; exact (lookup_empty a)).
  split; [|intros a x i d Hx; by rewrite Har in Hx]. split.
  - exact sample_palloc_wf.
  - reflexivity.
  - intros i d Hd. by apply Hds.
  - intros a x Hx. by rewrite Har in Hx.
  - intros a x i Hx. by rewrite Har in Hx.
  - intros i d b Hd Hb. destruct (Hds i d Hd) as [_ E]. rewrite E in Hb. by apply elem_of_nil in Hb.
  - intros i d Hd. destruct (Hds i d Hd) as [_ ->]. constructor.
  - intros a a' x x' c Hx. by rewrite Har in Hx.
Qed.

Lemma malloc_correct_witness : ∃ p h' n, malloc 100 sample_heap = Ok (p, h') ∧ p ≠ NULL ∧ live h' p n ∧ 100 <= n.
Proof.
  destruct (malloc_correct sample_heap 100 (proj1 sample_heap_wf) (proj2 sample_heap_wf)) as (p & h' & E & _ & _ & _ & [(-> & _ & _)|(Hne & n & Hn & Hl & _)]); [lia|by vm_compute in E|].
  exists p, h', n. split; [exact E|]. split; [exact Hne|]. split; [|exact Hn]. apply Hl. right. split; reflexivity.
Defined.

(** The heap after one allocation. *)
Lemma used_heap : ∃ p h n, malloc 100 sample_heap = Ok (p, h) ∧ heap_wf h ∧ no_idle_arena h ∧ live h p n.
Proof.
  destruct sample_heap_wf as [Hwf Hidle]. destruct (lookup_lt_is_Some_2 (descs sample_heap) 3) as [d Hd]; [rewrite (hw_length _ Hwf); lia|].
  destruct (malloc_small sample_heap 100 3 d Hwf Hidle) as [(p & h & E & Hw & Hi & _ & _ & Hl & _)|[E _]]; [reflexivity|exact Hd|discriminate| |by vm_compute in E].
  exists p, h, (block_size_ d). split; [exact E|]. split; [exact Hw|]. split; [exact Hi|]. apply Hl. right. split; reflexivity.
Qed.

Lemma free_correct_witness : ∃ p h h', malloc 100 sample_heap = Ok (p, h) ∧ free p h = Ok (tt, h') ∧ (∀ m, ¬ live h' p m) ∧ pages_released p h h'.
Proof.
  destruct used_heap as (p & h & n & E & Hw & Hi & Hl). destruct (free_correct h p n Hw Hi Hl) as (h' & Ef & _ & _ & Hl' & _ & Hr).
  exists p, h, h'. split; [exact E|]. split; [exact Ef|]. split; [|exact Hr]. intros m Hm. apply Hl' in Hm as [_ Hne]. apply Hne. reflexivity.
Defined.

(** A request close to the size of the address space overflows when the header is added:
    it is granted a single page. *)
Example malloc_overflow :
  match malloc (2 ^ 32 - 8) sample_heap with Ok (p, h) => p ≠ NULL ∧ block_size p h = Ok (4084, h) | Fail _ => False end.
Proof. vm_compute. split; [discriminate|reflexivity]. Qed.
