(* ===== verification/Swap.v ===== *)
(** * Swap slots (src/vm/swap.c)

    The swap device holds one page in each group of eight sectors; [swap_available] has
    a bit per slot, set when the slot is free.  The state is the memory of the machine
    (the words of each page) and the swap device, whose sectors are kept as their 128
    little-endian words. *)

From S2P Require Import Prelude Bitmap Palloc.
Local Open Scope Z_scope.

Record swaps := mk_swaps {
  sw_sectors : gmap Z (list Z);
  sw_block_size : Z;              (* the device's size in sectors *)
  swap_available : bitmap;
  swap_size : Z
}.

Definition swap_state : Type := gmap Z (list Z) * swaps.
Notation W := (M swap_state).

Definition SECTORS_PER_PAGE : Z := 8.
Definition SECTOR_WORDS : nat := 128.

Definition set_available (b : bitmap) (s : swap_state) : swap_state :=
  (s.1, mk_swaps (sw_sectors s.2) (sw_block_size s.2) b (swap_size s.2)).

(** ** The device *)

Definition sw_check_sector (sec : Z) : W unit := λ s, if sec <? sw_block_size s.2 then Ok (tt, s) else Fail Panicked.

(** [block_write (swap_block, sec, page + 512 * i)] and [block_read]. *)
Definition sw_write (sec page : Z) (i : nat) : W unit :=
  sw_check_sector sec ;;;
  let* ws := (λ s, need (s.1 !! page) s) in
  modify (λ s, (s.1, mk_swaps (<[sec := take SECTOR_WORDS (drop (SECTOR_WORDS * i) ws)]> (sw_sectors s.2))
                       (sw_block_size s.2) (swap_available s.2) (swap_size s.2))).
Definition sw_read (sec page : Z) (i : nat) : W unit :=
  sw_check_sector sec ;;;
  let* ws := (λ s, need (s.1 !! page) s) in
  let* data := (λ s, need (sw_sectors s.2 !! sec) s) in
  modify (λ s, (<[page := take (SECTOR_WORDS * i) ws ++ data ++ drop (SECTOR_WORDS * S i) ws]> s.1, s.2)).

(** ** Operations *)

(** [block] is the size of the block device with the swap role, if there is one; the
    flags and [junk] are as for [bitmap_create], which returns null when an allocation
    fails, and then [bitmap_set_all] fails its assertion. *)
Definition swap_init (block : option Z) (b_ok bits_ok : bool) (junk : list Z) : W unit :=
  match block with
  | None => fail Panicked
  | Some size =>
      let swap_size := s32 (size / SECTORS_PER_PAGE) in
      let* o := lift (bitmap_create b_ok bits_ok junk (u32 swap_size)) in
      match o with
      | None => fail AssertFailed
      | Some b =>
          let* b := lift (bitmap_set_all b true) in
          modify (λ s, (s.1, mk_swaps (sw_sectors s.2) size b swap_size))
      end
  end.

(** [for (i = 0; i < SECTORS_PER_PAGE; i++)]; [n] rounds are left. *)
Fixpoint write_sectors (n : nat) (swap_index page : Z) (i : nat) : W unit :=
  match n with
  | O => ret tt
  | S n' =>
      sw_write (u32 (swap_index * SECTORS_PER_PAGE + Z.of_nat i)) page i ;;;
      write_sectors n' swap_index page (S i)
  end.
Fixpoint read_sectors (n : nat) (swap_index page : Z) (i : nat) : W unit :=
  match n with
  | O => ret tt
  | S n' =>
      sw_read (u32 (swap_index * SECTORS_PER_PAGE + Z.of_nat i)) page i ;;;
      read_sectors n' swap_index page (S i)
  end.

Definition swap_out (page : Z) : W Z :=
  assert (PHYS_BASE <=? page) ;;;
  let* avail := gets (λ s, swap_available s.2) in
  let* idx := lift (bitmap_scan avail 0 1 true) in
  let swap_index := s32 idx in
  write_sectors (Z.to_nat SECTORS_PER_PAGE) swap_index page 0 ;;;
  let* b := lift (bitmap_set avail (u32 swap_index) false) in
  modify (set_available b) ;;;
  ret swap_index.

Definition swap_in (swap_index page : Z) : W unit :=
  assert (PHYS_BASE <=? page) ;;;
  let* size := gets (λ s, swap_size s.2) in
  assert (swap_index <? size) ;;;
  let* avail := gets (λ s, swap_available s.2) in
  let* free := lift (bitmap_test avail (u32 swap_index)) in
  (if free : bool then fail Panicked else ret tt) ;;;
  read_sectors (Z.to_nat SECTORS_PER_PAGE) swap_index page 0 ;;;
  let* b := lift (bitmap_set avail (u32 swap_index) true) in
  modify (set_available b).

Definition swap_free (swap_index : Z) : W unit :=
  let* size := gets (λ s, swap_size s.2) in
  assert (swap_index <? size) ;;;
  let* avail := gets (λ s, swap_available s.2) in
  let* free := lift (bitmap_test avail (u32 swap_index)) in
  (if free : bool then fail Panicked else ret tt) ;;;
  let* b := lift (bitmap_set avail (u32 swap_index) true) in
  modify (set_available b).

(** ** Well-formed swap space *)

Record swap_wf (w : swaps) : Prop := {
  ww_map : bm_wf (swap_available w);
  ww_cnt : bit_cnt (swap_available w) = swap_size w;
  ww_size : 0 <= swap_size w < 2 ^ 28;
  ww_fits : 8 * swap_size w <= sw_block_size w
}.

Definition slot_free (w : swaps) (k : Z) : bool := bm_bit (swap_available w) k.

(** Slot [k] holds the page [ws]. *)
Definition slot_holds (w : swaps) (k : Z) (ws : list Z) : Prop :=
  ∀ i, (i < 8)%nat → sw_sectors w !! (8 * k + Z.of_nat i) = Some (take SECTOR_WORDS (drop (SECTOR_WORDS * i) ws)).

(** The state in which the first [i] sectors of slot [k] were written. *)
Fixpoint put_sectors (n : nat) (k : Z) (ws : list Z) (i : nat) (d : gmap Z (list Z)) : gmap Z (list Z) :=
  match n with
  | O => d
  | S n' => put_sectors n' k ws (S i) (<[8 * k + Z.of_nat i := take SECTOR_WORDS (drop (SECTOR_WORDS * i) ws)]> d)
  end.

Lemma put_sectors_lookup n k ws i d j :
  put_sectors n k ws i d !! j =
    if (8 * k + Z.of_nat i <=? j) && (j <? 8 * k + Z.of_nat (i + n))
    then Some (take SECTOR_WORDS (drop (SECTOR_WORDS * Z.to_nat (j - 8 * k)) ws)) else d !! j.
Proof.
  revert i d. induction n as [|n IH]; intros i d; cbn [put_sectors].
  - z_cases.
  - rewrite IH. destruct (decide (j = 8 * k + Z.of_nat i)) as [->|Hne].
    + rewrite lookup_insert_eq. replace (Z.to_nat (8 * k + Z.of_nat i - 8 * k)) with i by lia. z_cases.
    + rewrite lookup_insert_ne by done. z_cases.
Qed.

Lemma sector_number k i n : 0 <= k < 2 ^ 28 → 8 * (k + 1) <= n → (i < 8)%nat → u32 (k * SECTORS_PER_PAGE + Z.of_nat i) = 8 * k + Z.of_nat i ∧ 8 * k + Z.of_nat i < n.
Proof. intros Hk Hn Hi. unfold SECTORS_PER_PAGE. rewrite u32_id by int_lia. lia. Qed.

Lemma write_sectors_run n k page ws i m w :
  0 <= k < 2 ^ 28 → 8 * (k + 1) <= sw_block_size w → (i + n <= 8)%nat → m !! page = Some ws →
  write_sectors n k page i (m, w) =
    Ok (tt, (m, mk_swaps (put_sectors n k ws i (sw_sectors w)) (sw_block_size w) (swap_available w) (swap_size w))).
Proof.
  intros Hk. revert i w. induction n as [|n IH]; intros i w Hsz Hi Hp; cbn [write_sectors put_sectors]; [by destruct w|].
  destruct (sector_number k i _ Hk Hsz ltac:(lia)) as [-> Hlt].
  assert (E : sw_write (8 * k + Z.of_nat i) page i (m, w) =
    Ok (tt, (m, mk_swaps (<[8 * k + Z.of_nat i := take SECTOR_WORDS (drop (SECTOR_WORDS * i) ws)]> (sw_sectors w)) (sw_block_size w) (swap_available w) (swap_size w)))).
  { unfold sw_write, sw_check_sector, bind, need, modify. cbn [fst snd]. rewrite (proj2 (Z.ltb_lt _ _)) by done. cbn [fst snd]. by rewrite Hp. }
  rewrite (bind_ok _ _ _ _ _ E). rewrite IH; [done|done|lia|done].
Qed.

(** Reading back, sector by sector. *)
Lemma read_sectors_run n k page ws old m w i :
  0 <= k < 2 ^ 28 → 8 * (k + 1) <= sw_block_size w → (i + n = 8)%nat → slot_holds w k ws → length ws = 1024%nat → length old = 1024%nat →
  m !! page = Some (take (SECTOR_WORDS * i) ws ++ drop (SECTOR_WORDS * i) old) →
  read_sectors n k page i (m, w) = Ok (tt, (<[page := ws]> m, w)).
Proof.
  intros Hk Hsz. revert i m. induction n as [|n IH]; intros i m Hi Hh Hl Ho Hp; cbn [read_sectors].
  - assert (i = 8)%nat as -> by lia. unfold SECTOR_WORDS in Hp. rewrite take_ge, drop_ge, app_nil_r in Hp by lia. by rewrite insert_id.
  - destruct (sector_number k i _ Hk Hsz ltac:(lia)) as [-> Hlt]. set (cur := take (SECTOR_WORDS * S i) ws ++ drop (SECTOR_WORDS * S i) old).
    assert (Hcur : take (SECTOR_WORDS * i) (take (SECTOR_WORDS * i) ws ++ drop (SECTOR_WORDS * i) old) ++
      take SECTOR_WORDS (drop (SECTOR_WORDS * i) ws) ++ drop (SECTOR_WORDS * S i) (take (SECTOR_WORDS * i) ws ++ drop (SECTOR_WORDS * i) old) = cur).
    { unfold cur, SECTOR_WORDS. rewrite take_app_le, take_take, Nat.min_id by (rewrite length_take; lia).
      rewrite drop_app_ge by (rewrite length_take; lia). rewrite drop_drop, length_take, app_assoc. f_equal; [|f_equal; lia].
      rewrite <- (take_drop (128 * i) (take (128 * S i) ws)) at 1. rewrite take_take, take_drop_commute.
      replace (128 * i + 128)%nat with (128 * S i)%nat by lia. by rewrite Nat.min_l by lia. }
    assert (E : sw_read (8 * k + Z.of_nat i) page i (m, w) = Ok (tt, (<[page := cur]> m, w))).
    { unfold sw_read, sw_check_sector, bind, need, modify, ret. cbn [fst snd]. rewrite (proj2 (Z.ltb_lt _ _)) by done. cbn [fst snd].
      rewrite Hp. cbv beta iota. cbn [fst snd]. rewrite (Hh i) by lia. by rewrite Hcur. }
    rewrite (bind_ok _ _ _ _ _ E), (IH (S i)); [by rewrite insert_insert_eq|lia|done..|]. by rewrite lookup_insert_eq.
Qed.

(** ** The operations on a well-formed swap space *)

Lemma slot_number k : 0 <= k < 2 ^ 28 → u32 k = k ∧ s32 k = k.
Proof. intros. split; [apply u32_id|apply s32_id]; int_lia. Qed.

Lemma set_available_wf w k v :
  swap_wf w → 0 <= k < swap_size w →
  ∃ b, bitmap_set (swap_available w) k v = Ok b ∧
    (∀ d, swap_wf (mk_swaps d (sw_block_size w) b (swap_size w))) ∧
    ∀ j, 0 <= j < swap_size w → bm_bit b j = if j =? k then v else slot_free w j.
Proof.
  intros [H1 H2 H3 H4] Hk. destruct (bitmap_set_spec (swap_available w) k v H1 ltac:(lia)) as (b & E & Hwf & Hc & Hb).
  exists b. split; [done|]. split; [intros d; split; simpl; congruence || done|]. intros j Hj. rewrite Hb by lia. done.
Qed.

(** The state after a page was written to slot [k], and after it was read back. *)
Record swapped_out (k : Z) (ws : list Z) (w w' : swaps) : Prop := {
  so_wf : swap_wf w';
  so_size : swap_size w' = swap_size w;
  so_slot : 0 <= k < swap_size w;
  so_was_free : slot_free w k = true;
  so_free : ∀ j, 0 <= j < swap_size w → slot_free w' j = if j =? k then false else slot_free w j;
  so_holds : slot_holds w' k ws;
  so_others : ∀ j old, 0 <= j < swap_size w → j ≠ k → slot_holds w j old → slot_holds w' j old
}.

Lemma swap_out_run m w page ws :
  swap_wf w → PHYS_BASE <= page → m !! page = Some ws →
  (∃ k w', swap_out page (m, w) = Ok (k, (m, w')) ∧ swapped_out k ws w w') ∨
  ((∀ k, 0 <= k < swap_size w → slot_free w k = false) ∧ (sw_block_size w <= 2 ^ 32 - 8 → swap_out page (m, w) = Fail Panicked)).
Proof.
  intros Hwf Hpg Hm. destruct Hwf as [H1 H2 H3 H4] eqn:Ew. clear Ew.
  destruct (bitmap_scan_spec (swap_available w) 0 1 true H1) as (r & Er & Hr); [lia..|].
  unfold swap_out. rewrite (proj2 (Z.leb_le _ _) Hpg). unfold assert. erewrite bind_ok by reflexivity.
  erewrite bind_ok by (unfold gets; reflexivity). cbn [snd]. rewrite Er. erewrite bind_ok by reflexivity.
  destruct Hr as [[-> Hno]|(Hr & Hall & _)].
  - right. assert (Hnone : ∀ k, 0 <= k < swap_size w → slot_free w k = false).
    { intros k Hk. apply not_true_is_false. intros Hf. apply (Hno k); [lia|]. intros j Hj. by replace j with k by lia. }
    split; [done|]. intros Hb. cbv zeta. change (s32 BITMAP_ERROR) with (-1).
    assert (E : write_sectors (Z.to_nat SECTORS_PER_PAGE) (-1) page 0 (m, w) = Fail Panicked).
    { change (write_sectors (Z.to_nat SECTORS_PER_PAGE) (-1) page 0) with (sw_write (2 ^ 32 - 8) page 0 ;;; write_sectors 7 (-1) page 1).
      unfold bind, sw_write, sw_check_sector. unfold bind. cbn [snd]. by rewrite (proj2 (Z.ltb_ge _ _) Hb). }
    unfold bind at 1. by rewrite E.
  - left. assert (Hk : 0 <= r < swap_size w) by lia. destruct (slot_number r ltac:(lia)) as [Eu Es]. rewrite Es.
    pose proof (write_sectors_run 8 r page ws 0 m w ltac:(lia) ltac:(lia) ltac:(lia) Hm) as E. cbv zeta.
    change (Z.to_nat SECTORS_PER_PAGE) with 8%nat. rewrite (bind_ok _ _ _ _ _ E), Eu.
    destruct (set_available_wf w r false) as (b & -> & Hwf' & Hb); [done|done|]. do 2 erewrite bind_ok by reflexivity. unfold ret.
    exists r. eexists. split; [unfold set_available; reflexivity|]. cbn [fst snd sw_sectors sw_block_size swap_size].
    split; [apply Hwf'|done|done|apply Hall; lia|exact Hb| |].
    + intros i Hi. cbn [sw_sectors]. rewrite put_sectors_lookup. replace (Z.to_nat (8 * r + Z.of_nat i - 8 * r)) with i by lia. z_cases.
    + intros j old Hj Hne Hold i Hi. cbn [sw_sectors]. rewrite put_sectors_lookup, <- Hold by done. z_cases.
Qed.

Lemma swap_in_run m w k page ws old :
  swap_wf w → PHYS_BASE <= page → 0 <= k < swap_size w → slot_free w k = false → slot_holds w k ws →
  length ws = 1024%nat → m !! page = Some old → length old = 1024%nat →
  ∃ w', swap_in k page (m, w) = Ok (tt, (<[page := ws]> m, w')) ∧ swap_wf w' ∧ swap_size w' = swap_size w ∧
    sw_sectors w' = sw_sectors w ∧ ∀ j, 0 <= j < swap_size w → slot_free w' j = if j =? k then true else slot_free w j.
Proof.
  intros Hwf Hpg Hk Hf Hh Hl Hm Ho. destruct (slot_number k) as [Eu _]; [pose proof (ww_size _ Hwf); lia|].
  pose proof (ww_map _ Hwf). pose proof (ww_cnt _ Hwf). pose proof (ww_size _ Hwf). pose proof (ww_fits _ Hwf).
  unfold swap_in. rewrite (proj2 (Z.leb_le _ _) Hpg). unfold assert. erewrite bind_ok by reflexivity.
  erewrite bind_ok by (unfold gets; reflexivity). cbn [snd]. rewrite (proj2 (Z.ltb_lt _ _)) by lia. erewrite bind_ok by reflexivity.
  erewrite bind_ok by (unfold gets; reflexivity). cbn [snd]. rewrite Eu, bitmap_test_spec by (done || lia).
  unfold slot_free in Hf. rewrite Hf. do 2 erewrite bind_ok by reflexivity.
  assert (E : read_sectors 8 k page 0 (m, w) = Ok (tt, (<[page := ws]> m, w))).
  { apply (read_sectors_run 8 k page ws old); try done; lia. }
  change (Z.to_nat SECTORS_PER_PAGE) with 8%nat. rewrite (bind_ok _ _ _ _ _ E).
  destruct (set_available_wf w k true) as (b & -> & Hwf' & Hb); [done|done|]. erewrite bind_ok by reflexivity.
  eexists. split; [unfold modify, set_available; reflexivity|]. cbn [fst snd]. split_and!; [apply Hwf'|done|done|exact Hb].
Qed.

(** A slot that is not in use cannot be read or released. *)
Lemma swap_in_unassigned m w k page :
  swap_wf w → PHYS_BASE <= page → 0 <= k < swap_size w → slot_free w k = true →
  swap_in k page (m, w) = Fail Panicked ∧ swap_free k (m, w) = Fail Panicked.
Proof.
  intros Hwf Hpg Hk Hf. destruct (slot_number k) as [Eu _]; [pose proof (ww_size _ Hwf); lia|].
  assert (Ht : bitmap_test (swap_available w) (u32 k) = Ok true).
  { rewrite Eu, bitmap_test_spec; [by f_equal|apply Hwf|]. rewrite (ww_cnt _ Hwf). lia. }
  unfold swap_in, swap_free. rewrite (proj2 (Z.leb_le _ _) Hpg). unfold assert, gets. split.
  - do 2 erewrite bind_ok by reflexivity. cbn [snd]. rewrite (proj2 (Z.ltb_lt k (swap_size w))) by lia.
    do 2 erewrite bind_ok by reflexivity. cbn [snd]. by rewrite Ht.
  - erewrite bind_ok by reflexivity. cbn [snd]. rewrite (proj2 (Z.ltb_lt k (swap_size w))) by lia.
    do 2 erewrite bind_ok by reflexivity. cbn [snd]. by rewrite Ht.
Qed.

(** C35: while a slot is free, [swap_out] stores the page in a slot that was free,
    without touching memory or any other slot, and [swap_in] of that slot brings the same
    page back into whatever frame it is given then and makes the slot free again, so that
    every slot has the state and (unless it is that slot) the contents it had before;
    reading the slot a second time panics.  With no free slot [swap_out] panics. *)
Theorem swap_out_in_roundtrip m w page ws m' page' old :
  swap_wf w → sw_block_size w <= 2 ^ 32 - 8 → PHYS_BASE <= page → m !! page = Some ws → length ws = 1024%nat →
  PHYS_BASE <= page' → m' !! page' = Some old → length old = 1024%nat →
  (∃ k w1 w2, swap_out page (m, w) = Ok (k, (m, w1)) ∧ slot_free w k = true ∧ slot_free w1 k = false ∧
     swap_in k page' (m', w1) = Ok (tt, (<[page' := ws]> m', w2)) ∧ swap_wf w2 ∧
     (∀ j, 0 <= j < swap_size w → slot_free w2 j = slot_free w j) ∧
     (∀ j l, 0 <= j < swap_size w → j ≠ k → slot_holds w j l → slot_holds w1 j l ∧ slot_holds w2 j l) ∧
     swap_in k page' (m', w2) = Fail Panicked) ∨
  ((∀ k, 0 <= k < swap_size w → slot_free w k = false) ∧ swap_out page (m, w) = Fail Panicked).
Proof.
  intros Hwf Hsz Hp Hm Hl Hp' Hm' Hl'. destruct (swap_out_run m w page ws Hwf Hp Hm) as [(k & w1 & E & [S1 S2 S3 S4 S5 S6 S7])|[Hno E]]; [left|right; eauto].
  assert (Hf : slot_free w1 k = false) by (rewrite S5, Z.eqb_refl; done).
  destruct (swap_in_run m' w1 k page' ws old) as (w2 & E2 & Hwf2 & Hs2 & Hd2 & Hfree2); try done; [lia|].
  exists k, w1, w2. split_and!; try done.
  - intros j Hj. rewrite Hfree2, S5 by lia. destruct (Z.eqb_spec j k) as [->|]; done.
  - intros j l Hj Hne Hh. split; [by apply S7|]. intros i Hi. rewrite Hd2. by apply S7.
  - apply swap_in_unassigned; try done; [lia|]. rewrite Hfree2, Z.eqb_refl; [done|lia].
Qed.

(** Swap space of two slots, the first one in use. *)
Definition sample_swaps : swaps := mk_swaps ∅ 20 (mk_bitmap 2 [2]) 2.
Lemma sample_swaps_wf : swap_wf sample_swaps.
Proof. split; [split; [simpl; lia|done|by apply Forall_singleton]|done|simpl; lia|simpl; lia]. Qed.

Lemma swap_out_in_roundtrip_witness :
  ∃ w1 w2, swap_out PHYS_BASE ({[PHYS_BASE := replicate 1024 7]}, sample_swaps) = Ok (1, ({[PHYS_BASE := replicate 1024 7]}, w1)) ∧
    swap_in 1 (PHYS_BASE + 4096) ({[PHYS_BASE + 4096 := replicate 1024 0]}, w1) = Ok (tt, ({[PHYS_BASE + 4096 := replicate 1024 7]}, w2)).
Proof.
  destruct (swap_out_in_roundtrip {[PHYS_BASE := replicate 1024 7]} sample_swaps PHYS_BASE (replicate 1024 7)
    {[PHYS_BASE + 4096 := replicate 1024 0]} (PHYS_BASE + 4096) (replicate 1024 0) sample_swaps_wf)
    as [(k & w1 & w2 & E1 & Hk & _ & E2 & _)|[Hno _]].
  - simpl. lia.
  - lia.
  - apply lookup_singleton_eq.
  - apply length_replicate.
  - lia.
  - apply lookup_singleton_eq.
  - apply length_replicate.
  - assert (k = 1) as -> by (vm_compute in E1; congruence). exists w1, w2. split; [exact E1|]. rewrite insert_singleton_eq in E2. exact E2.
  - exfalso. by specialize (Hno 1 ltac:(simpl; lia)).
Defined.
