(* ===== verification/Pagedir.v ===== *)
(** * Page tables (src/threads/pte.h, src/userprog/pagedir.c)

    Page directories and page tables are pages of memory holding 1024 words.  [mmu]
    adds to the page allocator the page directory base register, the translations the
    processor may have cached (a TLB), the initial page directory and the number of
    pages of memory.  A pointer to a page table entry is its page and index. *)

From S2P Require Import Prelude Bitmap Palloc.
Local Open Scope Z_scope.

Record mmu := mk_mmu {
  pal : palloc_state;
  cr3 : Z;
  tlb : gmap Z Z;                 (* cached entries by virtual page *)
  init_page_dir : Z;
  init_ram_pages : Z
}.

Definition set_pal x s := mk_mmu x (cr3 s) (tlb s) (init_page_dir s) (init_ram_pages s).
Definition set_cr3 x t s := mk_mmu (pal s) x t (init_page_dir s) (init_ram_pages s).

Notation V := (M mmu).

(** Runs an operation of the page allocator. *)
Definition in_pal {A} (m : M palloc_state A) : V A := λ s,
  match m (pal s) with Ok (a, p) => Ok (a, set_pal p s) | Fail f => Fail f end.

(** ** Entries *)

Definition PTSHIFT : Z := 12.
Definition PTMASK : Z := 4190208.
Definition PDSHIFT : Z := 22.
Definition PTE_ADDR : Z := 4294963200.
Definition PTE_P : Z := 1.
Definition PTE_W : Z := 2.
Definition PTE_U : Z := 4.
Definition PTE_A : Z := 32.
Definition PTE_D : Z := 64.

Definition pt_no (va : Z) : Z := Z.shiftr (Z.land va PTMASK) PTSHIFT.
Definition pd_no (va : Z) : Z := Z.shiftr va PDSHIFT.

Definition pde_create (pt : Z) : res Z :=
  rassert (pg_ofs pt =? 0) ;;?
  let? p := vtop pt in Ok (Z.lor (Z.lor (Z.lor p PTE_U) PTE_P) PTE_W).
Definition pde_get_pt (pde : Z) : res Z :=
  rassert (flag pde PTE_P) ;;? ptov (Z.land pde PTE_ADDR).
Definition pte_create_kernel (page : Z) (writable : bool) : res Z :=
  rassert (pg_ofs page =? 0) ;;?
  let? p := vtop page in Ok (Z.lor (Z.lor p PTE_P) (if writable then PTE_W else 0)).
Definition pte_create_user (page : Z) (writable : bool) : res Z :=
  let? p := pte_create_kernel page writable in Ok (Z.lor p PTE_U).
Definition pte_get_page (pte : Z) : res Z := ptov (Z.land pte PTE_ADDR).

(** ** Words of memory *)

Definition read_word (page idx : Z) : V Z := λ s,
  match ram (pal s) !! page ≫= λ ws, ws !! Z.to_nat idx with
  | Some w => Ok (w, s)
  | None => Fail Undef
  end.
Definition write_word (page idx w : Z) : V unit := λ s,
  match ram (pal s) !! page with
  | Some ws =>
      if idx <? Z.of_nat (length ws)
      then Ok (tt, set_pal (set_ram (<[page := <[Z.to_nat idx := w]> ws]> (ram (pal s))) (pal s)) s)
      else Fail Undef
  | None => Fail Undef
  end.

(** ** Page directories *)

Definition active_pd : V Z := let* p := gets cr3 in lift (ptov p).

(** Loading the base register flushes the cached translations. *)
Definition pagedir_activate (pd : Z) : V unit :=
  let* init := gets init_page_dir in
  let* p := lift (vtop (if pd =? NULL then init else pd)) in
  modify (set_cr3 p ∅).

Definition invalidate_pagedir (pd : Z) : V unit :=
  let* a := active_pd in if a =? pd then pagedir_activate pd else ret tt.

Definition pagedir_create : V Z :=
  let* pd := in_pal (palloc_get_page 0) in
  if pd =? NULL then ret NULL
  else
    let* init := gets init_page_dir in
    let* ws := (λ s, need (ram (pal s) !! init) s) in
    modify (λ s, set_pal (set_ram (<[pd := ws]> (ram (pal s))) (pal s)) s) ;;; ret pd.

(** The entry for [vaddr]: null, or a page table and an index. *)
Definition lookup_page (pd vaddr : Z) (create : bool) : V (option (Z * Z)) :=
  assert (negb (pd =? NULL)) ;;;
  assert (negb create || is_user_vaddr vaddr) ;;;
  let* pde := read_word pd (pd_no vaddr) in
  let* there :=
    (if pde =? 0 then
       if create then
         let* pt := in_pal (palloc_get_page PAL_ZERO) in
         if pt =? NULL then ret false
         else
           let* e := lift (pde_create pt) in
           write_word pd (pd_no vaddr) e ;;; ret true
       else ret false
     else ret true) in
  if there then
    let* pde := read_word pd (pd_no vaddr) in
    let* pt := lift (pde_get_pt pde) in
    ret (Some (pt, pt_no vaddr))
  else ret None.

Definition pagedir_set_page (pd upage kpage : Z) (writable : bool) : V bool :=
  assert (pg_ofs upage =? 0) ;;;
  assert (pg_ofs kpage =? 0) ;;;
  assert (is_user_vaddr upage) ;;;
  let* p := lift (vtop kpage) in
  let* pages := gets init_ram_pages in
  assert (Z.shiftr p PTSHIFT <? pages) ;;;
  let* init := gets init_page_dir in
  assert (negb (pd =? init)) ;;;
  let* o := lookup_page pd upage true in
  match o with
  | Some (pt, i) =>
      let* pte := read_word pt i in
      assert (negb (flag pte PTE_P)) ;;;
      let* e := lift (pte_create_user kpage writable) in
      write_word pt i e ;;; ret true
  | None => ret false
  end.

Definition pagedir_get_page (pd uaddr : Z) : V Z :=
  assert (is_user_vaddr uaddr) ;;;
  let* o := lookup_page pd uaddr false in
  match o with
  | Some (pt, i) =>
      let* pte := read_word pt i in
      if flag pte PTE_P
      then let* page := lift (pte_get_page pte) in ret (u32 (page + pg_ofs uaddr))
      else ret NULL
  | None => ret NULL
  end.

Definition pagedir_clear_page (pd upage : Z) : V unit :=
  assert (pg_ofs upage =? 0) ;;;
  assert (is_user_vaddr upage) ;;;
  let* o := lookup_page pd upage false in
  match o with
  | Some (pt, i) =>
      let* pte := read_word pt i in
      if flag pte PTE_P
      then write_word pt i (Z.land pte (u32 (Z.lnot PTE_P))) ;;; invalidate_pagedir pd
      else ret tt
  | None => ret tt
  end.

(** [pagedir_is_dirty] and [pagedir_is_accessed] *)
Definition pagedir_test (f : Z) (pd vpage : Z) : V bool :=
  let* o := lookup_page pd vpage false in
  match o with
  | Some (pt, i) => let* pte := read_word pt i in ret (flag pte f)
  | None => ret false
  end.
Definition pagedir_is_dirty : Z → Z → V bool := pagedir_test PTE_D.
Definition pagedir_is_accessed : Z → Z → V bool := pagedir_test PTE_A.

(** [pagedir_set_dirty] and [pagedir_set_accessed] *)
Definition pagedir_put (f : Z) (pd vpage : Z) (value : bool) : V unit :=
  let* o := lookup_page pd vpage false in
  match o with
  | Some (pt, i) =>
      let* pte := read_word pt i in
      if value then write_word pt i (Z.lor pte f)
      else write_word pt i (Z.land pte (u32 (Z.lnot f))) ;;; invalidate_pagedir pd
  | None => ret tt
  end.
Definition pagedir_set_dirty : Z → Z → bool → V unit := pagedir_put PTE_D.
Definition pagedir_set_accessed : Z → Z → bool → V unit := pagedir_put PTE_A.

(** The loops of [pagedir_destroy] over the 1024 entries of a page table and the 768
    user entries of the directory. *)
Fixpoint free_entries (n : nat) (pt i : Z) : V unit :=
  match n with
  | O => ret tt
  | S n' =>
      let* pte := read_word pt i in
      (if flag pte PTE_P then let* page := lift (pte_get_page pte) in in_pal (palloc_free_page page) else ret tt) ;;;
      free_entries n' pt (i + 1)
  end.

Fixpoint free_tables (n : nat) (pd i : Z) : V unit :=
  match n with
  | O => ret tt
  | S n' =>
      let* pde := read_word pd i in
      (if flag pde PTE_P then
         let* pt := lift (pde_get_pt pde) in
         free_entries 1024 pt 0 ;;; in_pal (palloc_free_page pt)
       else ret tt) ;;;
      free_tables n' pd (i + 1)
  end.

Definition pagedir_destroy (pd : Z) : V unit :=
  if pd =? NULL then ret tt
  else
    let* init := gets init_page_dir in
    assert (negb (pd =? init)) ;;;
    free_tables (Z.to_nat (pd_no PHYS_BASE)) pd 0 ;;;
    in_pal (palloc_free_page pd).
