(* ===== verification/PagedirSpec.v ===== *)
(** * Page tables translate addresses (src/userprog/pagedir.c)

    A well-formed page directory gives every user page an entry ([entry_of], zero when
    there is no page table).  The theorems describe the operations by the entries and
    the translations they leave. *)

From S2P Require Import Prelude Bitmap Palloc Pagedir.
Local Open Scope Z_scope.

(** ** Bits *)

Lemma lor_flags a f : a mod 4096 = 0 → 0 <= a → 0 <= f < 4096 → Z.lor a f = a + f.
Proof.
  intros Ha Ha0 Hf. assert (Hl : Z.land a f = 0).
  { apply Z.bits_inj_0. intros n. rewrite Z.land_spec. destruct (Z.lt_ge_cases n 0); [by rewrite Z.testbit_neg_r|].
    destruct (Z.lt_ge_cases n 12).
    - rewrite <- (Z.mod_pow2_bits_low a 12 n) by lia. change (2 ^ 12) with 4096. by rewrite Ha, Z.bits_0.
    - rewrite (Z.bits_above_log2 f n), andb_false_r; [done|lia|].
      destruct (decide (f = 0)) as [->|]; [simpl; lia|]. apply Z.lt_le_trans with 12; [|lia]. apply Z.log2_lt_pow2; lia. }
  rewrite <- Z.lxor_lor, <- Z.add_nocarry_lxor by done. done.
Qed.

Lemma pd_no_div va : pd_no va = va / 2 ^ 22.
Proof. unfold pd_no, PDSHIFT. by rewrite Z.shiftr_div_pow2 by lia. Qed.

Lemma pt_no_mod va : pt_no va = va / 4096 mod 1024.
Proof.
  unfold pt_no, PTSHIFT. change PTMASK with (Z.shiftl (Z.ones 10) 12).
  rewrite Z.shiftr_land, Z.shiftr_shiftl_l by lia. change (12 - 12) with 0. rewrite Z.shiftl_0_r, Z.land_ones by lia.
  by rewrite Z.shiftr_div_pow2 by lia.
Qed.

Lemma land_pte_addr e : in_u32 e → Z.land e PTE_ADDR = e - e mod 4096.
Proof. apply land_page_mask. Qed.

Lemma vtop_ok va : PHYS_BASE <= va < 2 ^ 32 → vtop va = Ok (va - PHYS_BASE).
Proof.
  intros Hv. unfold vtop, is_kernel_vaddr, rassert. rewrite (proj2 (Z.leb_le _ _)) by lia. cbn [rbind].
  f_equal. apply u32_id. unfold PHYS_BASE in *. int_lia.
Qed.

Lemma ptov_ok pa : 0 <= pa < 2 ^ 32 - PHYS_BASE → ptov pa = Ok (pa + PHYS_BASE).
Proof.
  intros Hp. unfold ptov, rassert. rewrite (proj2 (Z.ltb_lt _ _)) by (unfold PHYS_BASE in *; lia). cbn [rbind].
  f_equal. apply u32_id. unfold PHYS_BASE in *. int_lia.
Qed.

Lemma flag_odd e : flag e PTE_P = Z.odd e.
Proof.
  unfold flag, PTE_P. change 1 with (Z.ones 1). rewrite Z.land_ones by lia. change (2 ^ 1) with 2.
  rewrite Zmod_odd. by destruct (Z.odd e).
Qed.

(** A kernel page, as page tables and frames are. *)
Definition kernel_page (a : Z) : Prop := PHYS_BASE <= a < 2 ^ 32 ∧ a mod 4096 = 0.

Lemma pde_create_ok pt : kernel_page pt → pde_create pt = Ok (pt - PHYS_BASE + 7).
Proof.
  intros [Hr Ha]. unfold pde_create, rassert. rewrite pg_ofs_mod, Ha. cbn [Z.eqb rbind]. rewrite vtop_ok by done. cbn [rbind].
  f_equal. rewrite <- !Z.lor_assoc. change (Z.lor PTE_U (Z.lor PTE_P PTE_W)) with 7. apply lor_flags; unfold PHYS_BASE in *; mod_lia.
Qed.

Lemma pde_get_pt_ok pt : kernel_page pt → pde_get_pt (pt - PHYS_BASE + 7) = Ok pt.
Proof.
  intros [Hr Ha]. unfold pde_get_pt, rassert. rewrite flag_odd.
  replace (Z.odd (pt - PHYS_BASE + 7)) with true.
  2: { symmetry. replace (pt - PHYS_BASE + 7) with (1 + 2 * ((pt - PHYS_BASE) / 2 + 3)) by (unfold PHYS_BASE in *; mod_lia).
       by rewrite Z.odd_add_mul_2. }
  cbn [rbind]. rewrite land_pte_addr by (unfold PHYS_BASE in *; int_lia).
  replace (_ - _ mod 4096) with (pt - PHYS_BASE) by (unfold PHYS_BASE in *; mod_lia). rewrite ptov_ok; [f_equal; lia|]. unfold PHYS_BASE in *. lia.
Qed.

(** The entry [pagedir_set_page] installs. *)
Definition user_entry (kpage : Z) (writable : bool) : Z := kpage - PHYS_BASE + (if writable then 7 else 5).

Lemma pte_create_user_ok kpage w : kernel_page kpage → pte_create_user kpage w = Ok (user_entry kpage w).
Proof.
  intros [Hr Ha]. unfold pte_create_user, pte_create_kernel, rassert. rewrite pg_ofs_mod, Ha. cbn [Z.eqb rbind].
  rewrite vtop_ok by done. cbn [rbind]. f_equal. rewrite <- !Z.lor_assoc. unfold user_entry. destruct w.
  - change (Z.lor PTE_P (Z.lor PTE_W PTE_U)) with 7. apply lor_flags; unfold PHYS_BASE in *; mod_lia.
  - change (Z.lor PTE_P (Z.lor 0 PTE_U)) with 5. apply lor_flags; unfold PHYS_BASE in *; mod_lia.
Qed.

(** ** Well-formed page directories *)

(** The page table a directory entry points to. *)
Definition pt_of (pde : Z) : Z := pde - pde mod 4096 + PHYS_BASE.

Definition table_of (m : gmap Z (list Z)) (pd va : Z) : option Z :=
  m !! pd ≫= λ ws, ws !! Z.to_nat (va / 2 ^ 22) ≫= λ pde, if pde =? 0 then None else Some (pt_of pde).
Definition entry_of (m : gmap Z (list Z)) (pd va : Z) : Z :=
  default 0 (table_of m pd va ≫= λ pt, m !! pt ≫= λ ws, ws !! Z.to_nat (va / 4096 mod 1024)).

(** An entry whose frame is within the memory that kernel addresses can reach. *)
Definition pte_valid (e : Z) : Prop := 0 <= e < 2 ^ 32 - PHYS_BASE.

Record table_ok (s : mmu) (pd pt : Z) : Prop := {
  to_page : kernel_page pt;
  to_pd : pt ≠ pd;
  to_used : allocated (pal s) pt = true;
  to_words : ∃ tws, ram (pal s) !! pt = Some tws ∧ length tws = 1024%nat ∧ Forall pte_valid tws
}.

Record pd_ok (s : mmu) (pd : Z) (ws : list Z) : Prop := {
  po_pal : palloc_wf (pal s);
  po_base : PHYS_BASE <= base (kernel_pool (pal s));
  po_cr3 : 0 <= cr3 s < 2 ^ 32 - PHYS_BASE;
  po_page : kernel_page pd;
  po_used : allocated (pal s) pd = true;
  po_words : ram (pal s) !! pd = Some ws;
  po_length : length ws = 1024%nat;
  po_entry : ∀ k w, 0 <= k < 768 → ws !! Z.to_nat k = Some w → w ≠ 0 → w = pt_of w - PHYS_BASE + 7 ∧ table_ok s pd (pt_of w);
  po_distinct : ∀ k k' w w', 0 <= k < 768 → 0 <= k' < 768 → ws !! Z.to_nat k = Some w → ws !! Z.to_nat k' = Some w' →
                  w ≠ 0 → w' ≠ 0 → pt_of w = pt_of w' → k = k'
}.

Definition user (va : Z) : Prop := 0 <= va < PHYS_BASE.

Lemma user_vaddr va : user va → is_user_vaddr va = true.
Proof. intros Hu. unfold is_user_vaddr. apply Z.ltb_lt, Hu. Qed.

Lemma user_pd_no va : user va → 0 <= va / 2 ^ 22 < 768.
Proof. unfold user, PHYS_BASE. intros. mod_lia. Qed.

Lemma dir_word s pd ws va : pd_ok s pd ws → user va → ∃ w, ws !! Z.to_nat (va / 2 ^ 22) = Some w.
Proof.
  intros H Hu. pose proof (user_pd_no va Hu). apply lookup_lt_is_Some_2. rewrite (po_length _ _ _ H). lia.
Qed.

Lemma table_of_word s pd ws va w : pd_ok s pd ws → ws !! Z.to_nat (va / 2 ^ 22) = Some w →
  table_of (ram (pal s)) pd va = if w =? 0 then None else Some (pt_of w).
Proof. intros H Hw. unfold table_of. rewrite (po_words _ _ _ H). simpl. by rewrite Hw. Qed.

Lemma read_word_ok s page idx ws w : ram (pal s) !! page = Some ws → ws !! Z.to_nat idx = Some w → read_word page idx s = Ok (w, s).
Proof. intros H1 H2. unfold read_word. rewrite H1. simpl. by rewrite H2. Qed.

(** What [lookup_page] does before a missing table is created. *)
Lemma lookup_page_found s pd ws va create w :
  pd_ok s pd ws → user va → ws !! Z.to_nat (va / 2 ^ 22) = Some w → w ≠ 0 →
  lookup_page pd va create s = Ok (Some (pt_of w, pt_no va), s).
Proof.
  intros H Hu Hw Hne. pose proof (user_pd_no va Hu) as Hk. destruct (po_entry _ _ _ H _ _ Hk Hw Hne) as [Ew Ht].
  assert (Hr : read_word pd (pd_no va) s = Ok (w, s)) by (rewrite pd_no_div; eapply read_word_ok; [apply H|done]).
  assert (Epg : pd ≠ NULL) by (destruct (po_page _ _ _ H); unfold NULL, PHYS_BASE in *; lia).
  unfold lookup_page. rewrite (proj2 (Z.eqb_neq _ _) Epg), user_vaddr, orb_true_r by done. cbn [negb assert].
  do 2 erewrite bind_ok by reflexivity. rewrite (bind_ok _ _ _ _ _ Hr), (proj2 (Z.eqb_neq _ _) Hne).
  erewrite bind_ok by reflexivity. cbv iota. rewrite (bind_ok _ _ _ _ _ Hr). rewrite Ew at 1. rewrite pde_get_pt_ok by apply Ht. done.
Qed.

Lemma lookup_page_spec s pd ws va :
  pd_ok s pd ws → user va →
  lookup_page pd va false s = Ok ((λ pt, (pt, pt_no va)) <$> table_of (ram (pal s)) pd va, s).
Proof.
  intros H Hu. destruct (dir_word s pd ws va H Hu) as [w Hw]. rewrite (table_of_word s pd ws va w H Hw).
  destruct (Z.eqb_spec w 0) as [->|Hne]; [|by rewrite (lookup_page_found s pd ws va false w)].
  assert (Hr : read_word pd (pd_no va) s = Ok (0, s)) by (rewrite pd_no_div; eapply read_word_ok; [apply H|done]).
  assert (Epg : pd ≠ NULL) by (destruct (po_page _ _ _ H); unfold NULL, PHYS_BASE in *; lia).
  unfold lookup_page. rewrite (proj2 (Z.eqb_neq _ _) Epg). cbn [negb assert orb].
  do 2 erewrite bind_ok by reflexivity. rewrite (bind_ok _ _ _ _ _ Hr). done.
Qed.

(** ** Reading and writing entries *)

Lemma entry_read s pd ws va pt :
  pd_ok s pd ws → user va → table_of (ram (pal s)) pd va = Some pt →
  table_ok s pd pt ∧ pte_valid (entry_of (ram (pal s)) pd va) ∧ read_word pt (pt_no va) s = Ok (entry_of (ram (pal s)) pd va, s).
Proof.
  intros H Hu Ht. destruct (dir_word s pd ws va H Hu) as [w Hw]. pose proof (table_of_word s pd ws va w H Hw) as Et.
  rewrite Ht in Et. destruct (Z.eqb_spec w 0) as [|Hne]; [done|]. injection Et as ->.
  destruct (po_entry _ _ _ H _ _ (user_pd_no va Hu) Hw Hne) as [_ Hok]. split; [done|].
  destruct (to_words _ _ _ Hok) as (tws & Hm & Hl & Hv). unfold entry_of. rewrite Ht. simpl. rewrite Hm. simpl.
  destruct (lookup_lt_is_Some_2 tws (Z.to_nat (va / 4096 mod 1024))) as [e He]; [rewrite Hl; mod_lia|].
  rewrite He. simpl. split; [by eapply Forall_lookup_1|]. rewrite pt_no_mod. by eapply read_word_ok.
Qed.

Lemma same_page va va' : va / 4096 = va' / 4096 ↔ va / 2 ^ 22 = va' / 2 ^ 22 ∧ va / 4096 mod 1024 = va' / 4096 mod 1024.
Proof. split; [intros|intros [H1 H2]]; mod_lia. Qed.

(** The state after one word of a page table was replaced. *)
Definition put_word (pt idx w : Z) (tws : list Z) (s : mmu) : mmu :=
  set_pal (set_ram (<[pt := <[Z.to_nat idx := w]> tws]> (ram (pal s))) (pal s)) s.

Lemma table_ok_put s pd pt pt' idx w tws :
  ram (pal s) !! pt = Some tws → length tws = 1024%nat → Forall pte_valid tws → pte_valid w →
  table_ok s pd pt' → table_ok (put_word pt idx w tws s) pd pt'.
Proof.
  intros Hm Hl Hv Hw [H1 H2 H3 (tws' & Hm' & Hl' & Hv')]. split; try done. simpl.
  destruct (decide (pt' = pt)) as [->|].
  - exists (<[Z.to_nat idx := w]> tws). rewrite lookup_insert_eq. split; [done|]. split; [by rewrite length_insert|by apply Forall_insert].
  - exists tws'. by rewrite lookup_insert_ne.
Qed.

Lemma entry_write s pd ws va pt w :
  pd_ok s pd ws → user va → table_of (ram (pal s)) pd va = Some pt → pte_valid w →
  ∃ s', write_word pt (pt_no va) w s = Ok (tt, s') ∧ pd_ok s' pd ws ∧ cr3 s' = cr3 s ∧ tlb s' = tlb s ∧
    (∀ va', user va' → table_of (ram (pal s')) pd va' = table_of (ram (pal s)) pd va') ∧
    (∀ va', user va' → entry_of (ram (pal s')) pd va' = if decide (va' / 4096 = va / 4096) then w else entry_of (ram (pal s)) pd va').
Proof.
  intros H Hu Ht Hw. destruct (entry_read s pd ws va pt H Hu Ht) as (Hok & _ & _).
  destruct (to_words _ _ _ Hok) as (tws & Hm & Hl & Hv).
  exists (put_word pt (pt_no va) w tws s). rewrite pt_no_mod. split.
  { unfold write_word. rewrite Hm, (proj2 (Z.ltb_lt _ _)) by (rewrite Hl; mod_lia). done. }
  assert (Hpd : ram (pal (put_word pt (va / 4096 mod 1024) w tws s)) !! pd = ram (pal s) !! pd).
  { simpl. rewrite lookup_insert_ne; [done|]. apply Hok. }
  assert (Htab : ∀ va', user va' → table_of (ram (pal (put_word pt (va / 4096 mod 1024) w tws s))) pd va' = table_of (ram (pal s)) pd va')
    by (intros va' _; unfold table_of; by rewrite Hpd).
  split_and!; try done.
  - destruct H as [H1 H2 H3 H4 H5 H6 H7 H8 H9]. split; try done; [by destruct H1|by rewrite Hpd|].
    intros k w0 Hk Hk0 Hne. destruct (H8 k w0 Hk Hk0 Hne) as [E Hto]. split; [done|]. by apply table_ok_put.
  - intros va' Hu'. unfold entry_of. rewrite Htab by done. destruct (table_of (ram (pal s)) pd va') as [pt'|] eqn:Et'; simpl.
    + destruct (decide (pt' = pt)) as [->|Hpt].
      * rewrite lookup_insert_eq, Hm. simpl. assert (Hdir : va' / 2 ^ 22 = va / 2 ^ 22).
        { destruct (dir_word s pd ws va H Hu) as [w1 Hw1]. destruct (dir_word s pd ws va' H Hu') as [w2 Hw2].
          rewrite (table_of_word s pd ws va w1 H Hw1) in Ht. rewrite (table_of_word s pd ws va' w2 H Hw2) in Et'.
          destruct (Z.eqb_spec w1 0), (Z.eqb_spec w2 0); try done.
          apply (po_distinct _ _ _ H _ _ w2 w1); try done; [by apply user_pd_no|by apply user_pd_no|congruence]. }
        destruct (decide (va' / 4096 = va / 4096)) as [E|E].
        -- rewrite E, list_lookup_insert_eq by (rewrite Hl; mod_lia). done.
        -- rewrite list_lookup_insert_ne; [done|]. intros E2. apply E, same_page. split; [done|]. mod_lia.
      * rewrite lookup_insert_ne by done. destruct (decide (va' / 4096 = va / 4096)) as [E|E]; [|done].
        exfalso. apply Hpt. apply same_page in E as [E _]. unfold table_of in Ht, Et'. rewrite E in Et'. congruence.
    + destruct (decide (va' / 4096 = va / 4096)) as [E|E]; [|done].
      exfalso. apply same_page in E as [E _]. unfold table_of in Ht, Et'. rewrite E in Et'. congruence.
Qed.

(** ** Creating a page table *)

Lemma take_pages_ram user cnt s i s1 : take_pages user cnt s = Ok (i, s1) → ram s1 = ram s.
Proof.
  unfold take_pages, bind, gets, modify, lift, ret. destruct (bitmap_scan_and_flip _ _ _ _) as [[idx used]|]; [|done].
  intros [= _ <-]. by destruct user.
Qed.

Lemma palloc_get_page_ram s pg s' : palloc_get_page PAL_ZERO s = Ok (pg, s') →
  ram s' = if pg =? NULL then ram s else <[pg := replicate PAGE_WORDS 0]> (ram s).
Proof.
  unfold palloc_get_page, palloc_get_multiple. intros E. cbn [Z.eqb] in E. apply bind_inv in E as (i & s1 & E1 & E2).
  rewrite <- (take_pages_ram _ _ _ _ _ E1). unfold deliver_pages, bind, gets in E2.
  change (flag PAL_ZERO PAL_ZERO) with true in E2. change (flag PAL_ZERO PAL_ASSERT) with false in E2.
  set (pages := if i =? BITMAP_ERROR then NULL else _) in E2. destruct (pages =? NULL) eqn:Ep; injection E2 as <- <-; by rewrite Ep.
Qed.

Lemma palloc_get_page_base s pg s' : palloc_get_page PAL_ZERO s = Ok (pg, s') → base (kernel_pool s') = base (kernel_pool s).
Proof.
  unfold palloc_get_page, palloc_get_multiple. intros E. cbn [Z.eqb] in E. apply bind_inv in E as (i & s1 & E1 & E2).
  assert (Hb : base (kernel_pool s1) = base (kernel_pool s)).
  { unfold take_pages, bind, gets, modify, lift, ret in E1. destruct (bitmap_scan_and_flip _ _ _ _) as [[idx used]|]; [|done]. by injection E1 as _ <-. }
  rewrite <- Hb. unfold deliver_pages, bind, gets in E2.
  change (flag PAL_ZERO PAL_ZERO) with true in E2. change (flag PAL_ZERO PAL_ASSERT) with false in E2.
  destruct (_ =? NULL) in E2; by injection E2 as <- <-.
Qed.

(** A zeroed page of the kernel pool: one that was free before. *)
Lemma new_page p :
  palloc_wf p → PHYS_BASE <= base (kernel_pool p) →
  (∃ p' pt, palloc_get_page PAL_ZERO p = Ok (pt, p') ∧ palloc_wf p' ∧ base (kernel_pool p') = base (kernel_pool p) ∧
     kernel_page pt ∧ allocated p pt = false ∧ allocated p' pt = true ∧
     (∀ a, allocated p a = true → allocated p' a = true) ∧ ram p' = <[pt := replicate PAGE_WORDS 0]> (ram p)) ∨
  (¬ run_free (kernel_pool p) 1 ∧ palloc_get_page PAL_ZERO p = Ok (NULL, p)).
Proof.
  intros Hwf0 Hb. destruct (palloc_get_multiple_run PAL_ZERO 1 p Hwf0 ltac:(lia))
    as [(p' & pt & E & Hne & Hwf & Hin & Hused & Hal & Hfree & _)|[Hno E]]; [left|by right].
  change (flag PAL_ZERO PAL_USER) with false in *. cbn [get_pool] in *. change (palloc_get_multiple PAL_ZERO 1) with (palloc_get_page PAL_ZERO) in E.
  assert (Hself : in_pages pt 1 pt = true) by (apply in_pages_iff; lia).
  apply in_pages_iff in Hin. pose proof (pw_high _ (aw_kernel _ Hwf0)) as Hhi.
  exists p', pt. split; [done|]. split; [done|]. split; [by eapply palloc_get_page_base|].
  split; [split; [lia|apply Hused]|].
  split; [by apply Hfree|]. split; [by rewrite Hal, Hself|]. split.
  - intros a Ha. rewrite Hal. by destruct (in_pages pt 1 a).
  - rewrite (palloc_get_page_ram _ _ _ E). by rewrite (proj2 (Z.eqb_neq _ _) Hne).
Qed.

(** A new page table. *)
Lemma new_table s pd ws :
  pd_ok s pd ws →
  (∃ p' pt, palloc_get_page PAL_ZERO (pal s) = Ok (pt, p') ∧ palloc_wf p' ∧ base (kernel_pool p') = base (kernel_pool (pal s)) ∧
     kernel_page pt ∧ allocated (pal s) pt = false ∧ allocated p' pt = true ∧
     (∀ a, allocated (pal s) a = true → allocated p' a = true) ∧ ram p' = <[pt := replicate PAGE_WORDS 0]> (ram (pal s))) ∨
  (¬ run_free (kernel_pool (pal s)) 1 ∧ palloc_get_page PAL_ZERO (pal s) = Ok (NULL, pal s)).
Proof. intros H. apply new_page; apply H. Qed.

Lemma pt_of_pde pt : kernel_page pt → pt_of (pt - PHYS_BASE + 7) = pt.
Proof. intros [Hr Ha]. unfold pt_of, PHYS_BASE in *. mod_lia. Qed.

(** The directory after a new table was entered at index [k]. *)
Lemma pd_ok_new_table s pd ws k p' pt :
  pd_ok s pd ws → 0 <= k < 768 → ws !! Z.to_nat k = Some 0 → palloc_wf p' → base (kernel_pool p') = base (kernel_pool (pal s)) →
  kernel_page pt → allocated (pal s) pt = false → allocated p' pt = true →
  (∀ a, allocated (pal s) a = true → allocated p' a = true) → ram p' = <[pt := replicate PAGE_WORDS 0]> (ram (pal s)) →
  let ws' := <[Z.to_nat k := pt - PHYS_BASE + 7]> ws in
  pd_ok (set_pal (set_ram (<[pd := ws']> (ram p')) p') s) pd ws'.
Proof.
  intros H Hk Hk0 Hwf Hbase Hpage Hfree Hused Hmono Hram ws'.
  assert (Hne : pt ≠ pd) by (intros ->; rewrite (po_used _ _ _ H) in Hfree; done).
  assert (Hold : ∀ t, table_ok s pd t → t ≠ pt) by (intros t [_ _ Ht _] ->; by rewrite Ht in Hfree).
  assert (Hlook : ∀ k' w, 0 <= k' < 768 → ws' !! Z.to_nat k' = Some w → (k' = k ∧ w = pt - PHYS_BASE + 7) ∨ (k' ≠ k ∧ ws !! Z.to_nat k' = Some w)).
  { intros k' w Hk' Hw. unfold ws' in Hw. destruct (decide (k' = k)) as [->|Hd].
    - rewrite list_lookup_insert_eq in Hw by by eapply lookup_lt_Some. left. by injection Hw as <-.
    - right. rewrite list_lookup_insert_ne in Hw by lia. done. }
  destruct H as [H1 H2 H3 H4 H5 H6 H7 H8 H9]. split; simpl; try done.
  - by destruct Hwf.
  - by rewrite Hbase.
  - by apply Hmono.
  - by rewrite lookup_insert_eq.
  - unfold ws'. by rewrite length_insert.
  - intros k' w Hk' Hw Hw0. destruct (Hlook k' w Hk' Hw) as [[-> ->]|[Hd Hw']].
    + rewrite pt_of_pde by done. split; [done|]. split; simpl; try done. exists (replicate PAGE_WORDS 0).
      rewrite lookup_insert_ne by done. rewrite Hram, lookup_insert_eq. split; [done|]. split; [apply length_replicate|].
      apply Forall_replicate. unfold pte_valid, PHYS_BASE. lia.
    + destruct (H8 k' w Hk' Hw' Hw0) as [E Ht]. split; [done|]. pose proof (Hold _ Ht). destruct Ht as [T1 T2 T3 T4].
      split; simpl; try done; [by apply Hmono|]. rewrite lookup_insert_ne by done. by rewrite Hram, lookup_insert_ne.
  - intros k1 k2 w1 w2 Hk1 Hk2 Hw1 Hw2 Hw0 Hn2 E. destruct (Hlook k1 w1 Hk1 Hw1) as [[-> ->]|[Hd1 Hw1']], (Hlook k2 w2 Hk2 Hw2) as [[-> ->]|[Hd2 Hw2']].
    + done.
    + exfalso. rewrite pt_of_pde in E by done. destruct (H8 k2 w2 Hk2 Hw2' Hn2) as [_ Ht]. by apply (Hold _ Ht).
    + exfalso. rewrite pt_of_pde in E by done. destruct (H8 k1 w1 Hk1 Hw1' Hw0) as [_ Ht]. by apply (Hold _ Ht).
    + by apply (H9 k1 k2 w1 w2).
Qed.

(** Everything but the new page is as it was. *)
Lemma lookup_page_create s pd ws va :
  pd_ok s pd ws → user va →
  (∃ s' ws' pt, lookup_page pd va true s = Ok (Some (pt, pt_no va), s') ∧ pd_ok s' pd ws' ∧ init_page_dir s' = init_page_dir s ∧
     table_of (ram (pal s')) pd va = Some pt ∧
     ∀ va', user va' → entry_of (ram (pal s')) pd va' = entry_of (ram (pal s)) pd va') ∨
  (¬ run_free (kernel_pool (pal s)) 1 ∧ lookup_page pd va true s = Ok (None, s)).
Proof.
  intros H Hu. destruct (dir_word s pd ws va H Hu) as [w Hw]. pose proof (table_of_word s pd ws va w H Hw) as Et.
  destruct (Z.eqb_spec w 0) as [->|Hne].
  2: { left. exists s, ws, (pt_of w). by rewrite (lookup_page_found s pd ws va true w). }
  assert (Hr : read_word pd (pd_no va) s = Ok (0, s)) by (rewrite pd_no_div; eapply read_word_ok; [apply H|done]).
  assert (Epg : pd ≠ NULL) by (destruct (po_page _ _ _ H); unfold NULL, PHYS_BASE in *; lia).
  unfold lookup_page. rewrite (proj2 (Z.eqb_neq _ _) Epg), user_vaddr by done. cbn [negb assert orb].
  unfold bind, ret. cbv beta iota. rewrite Hr. cbn [Z.eqb]. unfold in_pal.
  destruct (new_table s pd ws H) as [(p' & pt & E & Hwf & Hb & Hpg & Hf & Hus & Hmono & Hram)|[Hno E]]; rewrite E.
  2: { right. split; [done|]. simpl. by destruct s. }
  left. set (k := va / 2 ^ 22) in *. pose proof (user_pd_no va Hu) as Hk. fold k in Hk.
  assert (Hptne : pt ≠ pd) by (intros ->; rewrite (po_used _ _ _ H) in Hf; done).
  pose proof (pd_ok_new_table s pd ws k p' pt H Hk Hw Hwf Hb Hpg Hf Hus Hmono Hram) as Hok.
  set (ws' := <[Z.to_nat k := pt - PHYS_BASE + 7]> ws) in *. cbv zeta in Hok. set (s' := set_pal _ s) in Hok.
  assert (Hne : pt - PHYS_BASE + 7 ≠ 0) by (destruct Hpg; lia).
  assert (Hw' : ws' !! Z.to_nat k = Some (pt - PHYS_BASE + 7)) by (apply list_lookup_insert_eq; by eapply lookup_lt_Some).
  pose proof (table_of_word s' pd ws' va _ Hok Hw') as Ht. rewrite (proj2 (Z.eqb_neq _ _) Hne), pt_of_pde in Ht by done.
  exists s', ws', pt. split_and!; try done.
  - rewrite (proj2 (Z.eqb_neq pt NULL)) by (destruct Hpg; unfold NULL, PHYS_BASE in *; lia). rewrite pde_create_ok by done.
    cbn [lift]. rewrite pd_no_div. fold k.
    assert (Ew : write_word pd k (pt - PHYS_BASE + 7) (set_pal p' s) = Ok (tt, s')).
    { unfold write_word. simpl (ram _). rewrite Hram, lookup_insert_ne, (po_words _ _ _ H) by done.
      rewrite (proj2 (Z.ltb_lt _ _)) by (rewrite (po_length _ _ _ H); lia). unfold s', ws'. by rewrite <- Hram. }
    rewrite Ew. rewrite (read_word_ok s' pd k ws' _ (po_words _ _ _ Hok) Hw'). by rewrite pde_get_pt_ok.
  - intros va' Hu'. unfold entry_of. destruct (dir_word s pd ws va' H Hu') as [w1 Hw1].
    destruct (decide (va' / 2 ^ 22 = k)) as [Ek|Ek].
    + assert (Es : table_of (ram (pal s')) pd va' = Some pt) by (unfold table_of in *; by rewrite Ek).
      assert (Eo : table_of (ram (pal s)) pd va' = None) by (unfold table_of in *; by rewrite Ek).
      rewrite Es, Eo. cbn [mbind option_bind]. change (ram (pal s')) with (<[pd := ws']> (ram p')).
      rewrite lookup_insert_ne, Hram, lookup_insert_eq by done. cbn [mbind option_bind].
      by rewrite lookup_replicate_2 by (unfold PAGE_WORDS; mod_lia).
    + assert (Hw1' : ws' !! Z.to_nat (va' / 2 ^ 22) = Some w1).
      { unfold ws'. pose proof (user_pd_no va' Hu'). rewrite list_lookup_insert_ne by lia. done. }
      rewrite (table_of_word s' pd ws' va' w1 Hok Hw1'), (table_of_word s pd ws va' w1 H Hw1).
      destruct (Z.eqb_spec w1 0); [done|]. simpl.
      destruct (po_entry _ _ _ H _ _ (user_pd_no va' Hu') Hw1 ltac:(done)) as [_ [_ T2 T3 _]].
      rewrite lookup_insert_ne by done. rewrite Hram, lookup_insert_ne; [done|]. intros ->. by rewrite T3 in Hf.
Qed.

(** ** Translations *)

(** What the entries say about a user address. *)
Definition translate (m : gmap Z (list Z)) (pd va : Z) : Z :=
  let e := entry_of m pd va in
  if Z.odd e then e - e mod 4096 + PHYS_BASE + va mod 4096 else NULL.

Lemma entry_valid s pd ws va : pd_ok s pd ws → user va → pte_valid (entry_of (ram (pal s)) pd va).
Proof.
  intros H Hu. destruct (table_of (ram (pal s)) pd va) as [pt|] eqn:Et; [by eapply entry_read|].
  unfold entry_of. rewrite Et. simpl. unfold pte_valid, PHYS_BASE. lia.
Qed.

Lemma entry_no_table m pd va : table_of m pd va = None → entry_of m pd va = 0.
Proof. intros Et. unfold entry_of. by rewrite Et. Qed.

Lemma entry_page m pd va va' : va / 4096 = va' / 4096 → entry_of m pd va = entry_of m pd va'.
Proof. intros E. pose proof (proj1 (same_page va va') E) as [E1 E2]. unfold entry_of, table_of. by rewrite E1, E2. Qed.

Lemma get_page_run s pd ws ua :
  pd_ok s pd ws → user ua → pagedir_get_page pd ua s = Ok (translate (ram (pal s)) pd ua, s).
Proof.
  intros H Hu. unfold pagedir_get_page. rewrite user_vaddr by done. cbn [assert]. erewrite bind_ok by reflexivity.
  rewrite (bind_ok _ _ _ _ _ (lookup_page_spec s pd ws ua H Hu)). unfold translate.
  destruct (table_of (ram (pal s)) pd ua) as [pt|] eqn:Et; simpl; [|by rewrite entry_no_table].
  destruct (entry_read s pd ws ua pt H Hu Et) as (_ & Hv & Hr). rewrite (bind_ok _ _ _ _ _ Hr), flag_odd.
  destruct (Z.odd _); [|done]. set (e := entry_of _ _ _) in *. unfold pte_valid, PHYS_BASE in Hv.
  unfold pte_get_page. rewrite land_pte_addr by int_lia. rewrite ptov_ok by (unfold PHYS_BASE; mod_lia).
  unfold bind, lift, ret. rewrite pg_ofs_mod. do 2 f_equal. apply u32_id. unfold PHYS_BASE. mod_lia.
Qed.

Lemma user_entry_valid kpage w : kernel_page kpage → pte_valid (user_entry kpage w) ∧ Z.odd (user_entry kpage w) = true ∧
  user_entry kpage w - user_entry kpage w mod 4096 + PHYS_BASE = kpage.
Proof.
  intros [Hr Ha]. unfold pte_valid, user_entry, PHYS_BASE in *. split_and!; destruct w; try mod_lia.
  - apply Z.odd_spec. exists ((kpage - 3221225472) / 2 + 3). mod_lia.
  - apply Z.odd_spec. exists ((kpage - 3221225472) / 2 + 2). mod_lia.
Qed.

(** [pagedir_set_page] either maps the user page to the frame, so that every
    address of the page translates to the address at the same offset of the frame and
    every other user address translates as before, or fails, and then changes nothing
    and there is no free kernel page for a page table. *)
Theorem pagedir_set_page_correct s pd ws upage kpage writable :
  pd_ok s pd ws → user upage → upage mod 4096 = 0 → kernel_page kpage →
  (kpage - PHYS_BASE) / 4096 < init_ram_pages s → pd ≠ init_page_dir s →
  pagedir_get_page pd upage s = Ok (NULL, s) →
  (∃ s' ws', pagedir_set_page pd upage kpage writable s = Ok (true, s') ∧ pd_ok s' pd ws' ∧
     ∀ ua, user ua → ∃ v, pagedir_get_page pd ua s = Ok (v, s) ∧
       pagedir_get_page pd ua s' = Ok (if decide (ua / 4096 = upage / 4096) then kpage + ua mod 4096 else v, s')) ∨
  (¬ run_free (kernel_pool (pal s)) 1 ∧ pagedir_set_page pd upage kpage writable s = Ok (false, s)).
Proof.
  intros H Hu Hal Hk Hram Hinit Hnot.
  assert (Hodd : Z.odd (entry_of (ram (pal s)) pd upage) = false).
  { rewrite (get_page_run s pd ws) in Hnot by done. pose proof (entry_valid s pd ws upage H Hu) as Hv. unfold translate in Hnot.
    destruct (Z.odd _); [|done]. injection Hnot as Hnot. unfold pte_valid, NULL, PHYS_BASE in *. mod_lia. }
  destruct (user_entry_valid kpage writable Hk) as (Hev & Heo & Hep).
  unfold pagedir_set_page. rewrite !pg_ofs_mod, Hal, (proj2 Hk), user_vaddr, vtop_ok by (done || apply Hk).
  unfold bind, gets, lift. cbn [assert Z.eqb]. unfold ret. cbv beta iota.
  rewrite Z.shiftr_div_pow2 by (unfold PTSHIFT; lia). change (2 ^ PTSHIFT) with 4096.
  rewrite (proj2 (Z.ltb_lt _ _) Hram). cbv beta iota delta [assert ret]. rewrite (proj2 (Z.eqb_neq _ _) Hinit). cbn [negb]. cbv beta iota.
  destruct (lookup_page_create s pd ws upage H Hu) as [(s1 & ws1 & pt & E & H1 & _ & Ht & He)|[Hno E]]; rewrite E; [left|by right].
  destruct (entry_read s1 pd ws1 upage pt H1 Hu Ht) as (_ & _ & Hr). rewrite Hr, He, flag_odd, Hodd by done. cbn [negb]. cbv beta iota.
  rewrite pte_create_user_ok by done. destruct (entry_write s1 pd ws1 upage pt _ H1 Hu Ht Hev) as (s2 & Ew & H2 & _ & _ & _ & He2).
  rewrite Ew. exists s2, ws1. split; [done|]. split; [done|]. intros ua Hua.
  exists (translate (ram (pal s)) pd ua). split; [by eapply get_page_run|]. rewrite (get_page_run s2 pd ws1) by done.
  do 2 f_equal. unfold translate. rewrite He2, He by done. destruct (decide _); [|done]. by rewrite Heo, Hep.
Qed.

(** ** Single bits of an entry *)

Lemma flag_testbit e k : 0 <= k → flag e (2 ^ k) = Z.testbit e k.
Proof.
  intros Hk. unfold flag. destruct (Z.eqb_spec (Z.land e (2 ^ k)) 0) as [E|E]; simpl.
  - assert (Hb : Z.testbit (Z.land e (2 ^ k)) k = false) by (rewrite E; apply Z.bits_0).
    rewrite Z.land_spec, Z.pow2_bits_true, andb_true_r in Hb by lia. by rewrite Hb.
  - destruct (Z.testbit e k) eqn:Ht; [done|]. exfalso. apply E, Z.bits_inj_0. intros n. rewrite Z.land_spec, Z.pow2_bits_eqb by lia.
    destruct (Z.eqb_spec k n) as [<-|]; [by rewrite Ht|apply andb_false_r].
Qed.

(** [e |= 1 << k] and [e &= ~(1 << k)] *)
Definition put_bit (k : Z) (b : bool) (e : Z) : Z := if b then Z.lor e (2 ^ k) else Z.land e (u32 (Z.lnot (2 ^ k))).

Lemma valid_u32 e : pte_valid e → in_u32 e.
Proof. unfold pte_valid, PHYS_BASE. int_lia. Qed.

Lemma testbit_valid e n : pte_valid e → 30 <= n → Z.testbit e n = false.
Proof.
  intros [H0 H1] Hn. destruct (decide (e = 0)) as [->|]; [apply Z.bits_0|]. apply Z.bits_above_log2; [lia|].
  apply Z.lt_le_trans with 30; [|done]. apply Z.log2_lt_pow2; [lia|]. unfold PHYS_BASE in H1. lia.
Qed.

Lemma valid_bits e : 0 <= e → (∀ n, 30 <= n → Z.testbit e n = false) → pte_valid e.
Proof.
  intros H0 Hb. split; [done|]. change (2 ^ 32 - PHYS_BASE) with (2 ^ 30). destruct (Z.lt_ge_cases e (2 ^ 30)) as [|Hge]; [done|].
  assert (Hl : 30 <= Z.log2 e) by (apply Z.log2_le_pow2; lia). pose proof (Z.bit_log2 e ltac:(lia)) as Ht. by rewrite Hb in Ht.
Qed.

Lemma put_bit_spec k b e : 0 <= k < 30 → pte_valid e →
  pte_valid (put_bit k b e) ∧ ∀ n, 0 <= n → Z.testbit (put_bit k b e) n = if n =? k then b else Z.testbit e n.
Proof.
  intros Hk He. assert (Hp : 0 < 2 ^ k < 2 ^ 30) by (split; [apply Z.pow_pos_nonneg|apply Z.pow_lt_mono_r]; lia).
  assert (Hb : ∀ n, 0 <= n → Z.testbit (put_bit k b e) n = if n =? k then b else Z.testbit e n).
  { intros n Hn. unfold put_bit. rewrite (Z.eqb_sym n k). destruct b.
    - rewrite Z.lor_spec, Z.pow2_bits_eqb by lia. destruct (k =? n); [apply orb_true_r|apply orb_false_r].
    - rewrite Z.land_spec, testbit_u32, Z.lnot_spec, Z.pow2_bits_eqb by lia. destruct (Z.eqb_spec k n); simpl; [by rewrite !andb_false_r|].
      rewrite andb_true_r. destruct (Z.ltb_spec n 32); [apply andb_true_r|]. rewrite testbit_valid by (done || lia). done. }
  split; [|done]. apply valid_bits.
  - destruct He as [H0 _]. unfold put_bit. destruct b; [apply Z.lor_nonneg|apply Z.land_nonneg]; lia.
  - intros n Hn. rewrite Hb by lia. destruct (Z.eqb_spec n k); [lia|]. by apply testbit_valid.
Qed.

Lemma frame_of_bits e e' : pte_valid e → pte_valid e' → (∀ n, 12 <= n → Z.testbit e' n = Z.testbit e n) → e' - e' mod 4096 = e - e mod 4096.
Proof.
  intros He He' Hb. assert (E : e' / 4096 = e / 4096).
  { change 4096 with (2 ^ 12). rewrite <- !Z.shiftr_div_pow2 by lia. apply Z.bits_inj'. intros n Hn.
    rewrite !Z.shiftr_spec by lia. apply Hb. lia. }
  mod_lia.
Qed.

Lemma test_run s pd ws va f : pd_ok s pd ws → user va → pagedir_test f pd va s = Ok (flag (entry_of (ram (pal s)) pd va) f, s).
Proof.
  intros H Hu. unfold pagedir_test. rewrite (bind_ok _ _ _ _ _ (lookup_page_spec s pd ws va H Hu)).
  destruct (table_of (ram (pal s)) pd va) as [pt|] eqn:Et; simpl; [|by rewrite entry_no_table].
  destruct (entry_read s pd ws va pt H Hu Et) as (_ & _ & Hr). by rewrite (bind_ok _ _ _ _ _ Hr).
Qed.

(** Re-activating the directory when it is the active one. *)
Definition flushed (pd : Z) (s : mmu) : mmu := if cr3 s + PHYS_BASE =? pd then set_cr3 (cr3 s) ∅ s else s.

Lemma invalidate_run s pd ws : pd_ok s pd ws → invalidate_pagedir pd s = Ok (tt, flushed pd s) ∧ pd_ok (flushed pd s) pd ws ∧ pal (flushed pd s) = pal s.
Proof.
  intros H. pose proof (po_cr3 _ _ _ H) as Hc. unfold invalidate_pagedir, active_pd, flushed, bind, gets, lift. rewrite ptov_ok by done.
  destruct (Z.eqb_spec (cr3 s + PHYS_BASE) pd) as [E|E]; [|done].
  unfold pagedir_activate, bind, gets, lift. pose proof (proj1 (po_page _ _ _ H)) as Hr.
  rewrite (proj2 (Z.eqb_neq pd NULL)) by (unfold NULL, PHYS_BASE in *; lia). rewrite vtop_ok by done.
  replace (pd - PHYS_BASE) with (cr3 s) by lia. split_and!; [done| |done].
  destruct H as [H1 H2 H3 H4 H5 H6 H7 H8 H9]. split; try done. intros k w Hk Hw Hne.
  destruct (H8 k w Hk Hw Hne) as [Ew [T1 T2 T3 T4]]. split; [done|]. by split.
Qed.

(** The outcome of rewriting the entry of [va] (when there is a page table) with a
    flush of the cached translations or without it. *)
Lemma rewrite_entry s pd ws va pt e (flush : bool) :
  pd_ok s pd ws → user va → table_of (ram (pal s)) pd va = Some pt → pte_valid e →
  ∃ s', (write_word pt (pt_no va) e ;;; (if flush then invalidate_pagedir pd else ret tt)) s = Ok (tt, s') ∧ pd_ok s' pd ws ∧
    (flush = true → cr3 s + PHYS_BASE = pd → tlb s' = ∅) ∧
    ∀ va', user va' → entry_of (ram (pal s')) pd va' = if decide (va' / 4096 = va / 4096) then e else entry_of (ram (pal s)) pd va'.
Proof.
  intros H Hu Ht He. destruct (entry_write s pd ws va pt e H Hu Ht He) as (s1 & Ew & H1 & Ec & _ & _ & He1).
  rewrite (bind_ok _ _ _ _ _ Ew). destruct flush; [|exists s1; split_and!; done].
  destruct (invalidate_run s1 pd ws H1) as (Ei & H2 & Ep). exists (flushed pd s1). split; [done|]. split; [done|]. split.
  - intros _ E. unfold flushed. rewrite Ec, (proj2 (Z.eqb_eq _ _) E). done.
  - intros va' Hu'. rewrite Ep. by apply He1.
Qed.

(** After [pagedir_clear_page] no address of the page translates, so an access to
    it faults; all other user addresses translate as before, the dirty and accessed
    bits of every page (also of the cleared one) are kept, and when the page was
    mapped in the active directory no stale translation stays cached. *)
Theorem pagedir_clear_page_correct s pd ws upage :
  pd_ok s pd ws → user upage → upage mod 4096 = 0 →
  ∃ s', pagedir_clear_page pd upage s = Ok (tt, s') ∧ pd_ok s' pd ws ∧
    (∀ ua, user ua → ∃ v dirty accessed,
       (pagedir_get_page pd ua s = Ok (v, s) ∧ pagedir_is_dirty pd ua s = Ok (dirty, s) ∧ pagedir_is_accessed pd ua s = Ok (accessed, s)) ∧
       pagedir_get_page pd ua s' = Ok (if decide (ua / 4096 = upage / 4096) then NULL else v, s') ∧
       pagedir_is_dirty pd ua s' = Ok (dirty, s') ∧ pagedir_is_accessed pd ua s' = Ok (accessed, s')) ∧
    (translate (ram (pal s)) pd upage ≠ NULL → cr3 s + PHYS_BASE = pd → tlb s' = ∅).
Proof.
  intros H Hu Hal. set (e := entry_of (ram (pal s)) pd upage). pose proof (entry_valid s pd ws upage H Hu) as Hv. fold e in Hv.
  assert (Hmain : ∃ s', pagedir_clear_page pd upage s = Ok (tt, s') ∧ pd_ok s' pd ws ∧
    (Z.odd e = true → cr3 s + PHYS_BASE = pd → tlb s' = ∅) ∧
    ∀ va, user va → entry_of (ram (pal s')) pd va = if decide (va / 4096 = upage / 4096) then put_bit 0 false e else entry_of (ram (pal s)) pd va).
  { assert (Hsame : Z.odd e = false → ∀ va, user va →
      entry_of (ram (pal s)) pd va = if decide (va / 4096 = upage / 4096) then put_bit 0 false e else entry_of (ram (pal s)) pd va).
    { intros Ho va Hva. destruct (decide _) as [E|]; [|done]. rewrite (entry_page _ _ _ _ E). fold e.
      destruct (put_bit_spec 0 false e ltac:(lia) Hv) as [Hpv Hpb]. apply Z.bits_inj'. intros n Hn. rewrite Hpb by done.
      destruct (Z.eqb_spec n 0) as [->|]; [by rewrite Z.bit0_odd, Ho|done]. }
    unfold pagedir_clear_page. rewrite pg_ofs_mod, Hal, user_vaddr by done. cbn [assert Z.eqb]. do 2 erewrite bind_ok by reflexivity.
    rewrite (bind_ok _ _ _ _ _ (lookup_page_spec s pd ws upage H Hu)).
    destruct (table_of (ram (pal s)) pd upage) as [pt|] eqn:Et; simpl.
    - destruct (entry_read s pd ws upage pt H Hu Et) as (_ & _ & Hr). rewrite (bind_ok _ _ _ _ _ Hr), flag_odd. fold e.
      destruct (Z.odd e) eqn:Eo; [|exists s; split_and!; eauto; done].
      destruct (rewrite_entry s pd ws upage pt (put_bit 0 false e) true H Hu Et) as (s' & E & H' & Hf & He); [by apply put_bit_spec|].
      exists s'. split_and!; [exact E|done|by auto|done].
    - assert (e = 0) as E0 by by apply entry_no_table. rewrite E0 in Hsame |- *. exists s. split_and!; eauto; done. }
  destruct Hmain as (s' & E & H' & Hf & He). exists s'. split_and!; [done..| |].
  - intros ua Hua. exists (translate (ram (pal s)) pd ua). do 2 eexists. unfold pagedir_is_dirty, pagedir_is_accessed.
    rewrite !(test_run s pd ws), !(test_run s' pd ws), (get_page_run s pd ws), (get_page_run s' pd ws), He by done.
    destruct (put_bit_spec 0 false e ltac:(lia) Hv) as [Hpv Hpb]. split; [done|].
    unfold translate. rewrite He by done. destruct (decide (ua / 4096 = upage / 4096)) as [Ep|]; [|done].
    rewrite (entry_page _ _ _ _ Ep). fold e. rewrite <- Z.bit0_odd, Hpb by done. change PTE_D with (2 ^ 6). change PTE_A with (2 ^ 5).
    rewrite !flag_testbit, !Hpb by lia. done.
  - intros Ht. apply Hf. unfold translate in Ht. fold e in Ht. by destruct (Z.odd e).
Qed.

(** The accessed and dirty bits, by their position. *)
Definition status_bit (k : Z) : Prop := k = 5 ∨ k = 6.

Lemma put_run s pd ws va k b :
  pd_ok s pd ws → user va → 0 <= k < 30 →
  ∃ s', pagedir_put (2 ^ k) pd va b s = Ok (tt, s') ∧ pd_ok s' pd ws ∧
    ∀ va', user va' → entry_of (ram (pal s')) pd va' =
      if decide (va' / 4096 = va / 4096 ∧ table_of (ram (pal s)) pd va ≠ None)
      then put_bit k b (entry_of (ram (pal s)) pd va') else entry_of (ram (pal s)) pd va'.
Proof.
  intros H Hu Hk. unfold pagedir_put. rewrite (bind_ok _ _ _ _ _ (lookup_page_spec s pd ws va H Hu)).
  destruct (table_of (ram (pal s)) pd va) as [pt|] eqn:Et; simpl.
  - destruct (entry_read s pd ws va pt H Hu Et) as (_ & Hv & Hr). rewrite (bind_ok _ _ _ _ _ Hr).
    destruct (put_bit_spec k b _ Hk Hv) as [Hpv _].
    destruct (rewrite_entry s pd ws va pt _ (negb b) H Hu Et Hpv) as (s' & E & H' & _ & He).
    exists s'. split; [|split; [done|]].
    + rewrite <- E. destruct b; [|done]. unfold bind, ret, put_bit. by destruct (write_word _ _ _ s) as [[[] s1]|].
    + intros va' Hu'. rewrite He by done. destruct (decide (va' / 4096 = va / 4096)) as [Ep|Ep], (decide _) as [Hd|Hd]; try naive_solver.
      by rewrite (entry_page _ _ _ _ Ep).
  - exists s. split_and!; [done..|]. intros va' _. by destruct (decide _) as [[_ ?]|].
Qed.

(** Setting or clearing the accessed or the dirty bit of a page that has a page
    table makes the corresponding test return that value for the page; the other bit,
    the bits of all other pages and every translation stay as they were. *)
Theorem pagedir_status_bits_independent s pd ws va k b :
  pd_ok s pd ws → user va → status_bit k → table_of (ram (pal s)) pd va ≠ None →
  ∃ s', pagedir_put (2 ^ k) pd va b s = Ok (tt, s') ∧ pd_ok s' pd ws ∧
    (∀ ua, user ua → ∃ v, pagedir_get_page pd ua s = Ok (v, s) ∧ pagedir_get_page pd ua s' = Ok (v, s')) ∧
    (∀ ua j, user ua → status_bit j → ∃ old, pagedir_test (2 ^ j) pd ua s = Ok (old, s) ∧
       pagedir_test (2 ^ j) pd ua s' = Ok (if decide (ua / 4096 = va / 4096 ∧ j = k) then b else old, s')).
Proof.
  intros H Hu Hk Ht. destruct (put_run s pd ws va k b H Hu ltac:(destruct Hk; lia)) as (s' & E & H' & He).
  exists s'. split; [done|]. split; [done|]. split.
  - intros ua Hua. eexists. rewrite (get_page_run s pd ws), (get_page_run s' pd ws) by done. split; [done|].
    do 2 f_equal. unfold translate. rewrite He by done. destruct (decide _) as [_|]; [|done].
    pose proof (entry_valid s pd ws ua H Hua) as Hv. destruct (put_bit_spec k b _ ltac:(destruct Hk; lia) Hv) as [Hpv Hpb].
    rewrite <- !Z.bit0_odd, Hpb by done. destruct (Z.eqb_spec 0 k); [destruct Hk; lia|].
    rewrite (frame_of_bits _ _ Hv Hpv); [done|]. intros m Hm. rewrite Hpb by lia. destruct (Z.eqb_spec m k); [destruct Hk; lia|done].
  - intros ua j Hua Hj. eexists. rewrite (test_run s pd ws), (test_run s' pd ws), He by done. split; [done|]. do 2 f_equal.
    pose proof (entry_valid s pd ws ua H Hua) as Hv. destruct (put_bit_spec k b _ ltac:(destruct Hk; lia) Hv) as [_ Hpb].
    rewrite !flag_testbit by (destruct Hj; lia).
    destruct (decide (ua / 4096 = va / 4096 ∧ _)) as [[Hs _]|Hs], (decide (ua / 4096 = va / 4096 ∧ j = k)) as [[Hs' Hjk]|Hs'].
    + rewrite Hpb by (destruct Hj; lia). by rewrite (proj2 (Z.eqb_eq j k) Hjk).
    + rewrite Hpb by (destruct Hj; lia). destruct (Z.eqb_spec j k); [by destruct Hs'|done].
    + by destruct Hs.
    + done.
Qed.

(** ** A sample: kernel pool of four pages, the first of which is an empty directory. *)

Definition sample_pd : Z := 3222274048.
Definition sample_mmu : mmu :=
  mk_mmu (mk_palloc (mk_pool (mk_bitmap 4 [1]) sample_pd) (mk_pool (mk_bitmap 4 [5]) 3223322624) {[sample_pd := replicate 1024 0]})
    (sample_pd - PHYS_BASE) {[4096 := 1]} (PHYS_BASE + 4096) 1024.

Lemma sample_mmu_ok : pd_ok sample_mmu sample_pd (replicate 1024 0).
Proof.
  assert (Hb : ∀ w, in_u32 w → bm_wf (mk_bitmap 4 [w])) by (intros w Hw; split; [simpl; lia|done|by apply Forall_singleton]).
  split.
  - split; [split|split|]; cbn [kernel_pool user_pool used_map base bit_cnt pal sample_mmu]; unfold sample_pd; try lia; try done; by apply Hb.
  - vm_compute. discriminate.
  - vm_compute. split; [discriminate|reflexivity].
  - vm_compute. split; [split; [discriminate|reflexivity]|reflexivity].
  - vm_compute. reflexivity.
  - vm_compute. reflexivity.
  - vm_compute. reflexivity.
  - intros k w Hk Hw Hne. by apply lookup_replicate in Hw as [-> _].
  - intros k k' w w' Hk Hk' Hw Hw' Hne. by apply lookup_replicate in Hw as [-> _].
Qed.

Lemma pagedir_set_page_correct_witness :
  ∃ s' ws', pagedir_set_page sample_pd 8192 3223326720 true sample_mmu = Ok (true, s') ∧ pd_ok s' sample_pd ws' ∧
    pagedir_get_page sample_pd 8200 s' = Ok (3223326728, s').
Proof.
  destruct (pagedir_set_page_correct sample_mmu sample_pd (replicate 1024 0) 8192 3223326720 true sample_mmu_ok)
    as [(s' & ws' & E & H' & Hget)|[Hno _]];
    [by split|reflexivity|by repeat split|vm_compute; reflexivity|vm_compute; discriminate|vm_compute; reflexivity| |].
  - exists s', ws'. split; [done|]. split; [done|]. destruct (Hget 8200) as (v & _ & Ev); [by split|]. rewrite Ev. reflexivity.
  - exfalso. apply Hno. exists 1. split; [lia|]. split; [vm_compute; discriminate|]. intros j Hj. assert (j = 1) as -> by lia. reflexivity.
Defined.

(** The sample after a page was mapped. *)
Definition mapped_mmu : mmu :=
  match pagedir_set_page sample_pd 8192 3223326720 true sample_mmu with Ok (_, s) => s | Fail _ => sample_mmu end.

Lemma mapped_mmu_ok : ∃ ws, pd_ok mapped_mmu sample_pd ws.
Proof.
  destruct (lookup_page_create sample_mmu sample_pd _ 8192 sample_mmu_ok) as [(s1 & ws1 & pt & E & H1 & _ & Ht & _)|[_ E]]; [by split| |by vm_compute in E].
  destruct (user_entry_valid 3223326720 true) as (Hev & _); [by split|].
  destruct (entry_write s1 sample_pd ws1 8192 pt _ H1 ltac:(by split) Ht Hev) as (s2 & Ew & H2 & _).
  exists ws1. replace mapped_mmu with s2; [done|]. vm_compute in E. injection E as <- <-. vm_compute in Ew. injection Ew as <-. vm_compute. reflexivity.
Qed.

Lemma pagedir_clear_page_correct_witness :
  ∃ ws s', pd_ok mapped_mmu sample_pd ws ∧ pagedir_clear_page sample_pd 8192 mapped_mmu = Ok (tt, s') ∧
    pagedir_get_page sample_pd 8200 s' = Ok (NULL, s') ∧ tlb s' = ∅.
Proof.
  destruct mapped_mmu_ok as [ws H].
  destruct (pagedir_clear_page_correct mapped_mmu sample_pd ws 8192 H) as (s' & E & _ & Hget & Htlb); [by split|done|].
  exists ws, s'. split; [done|]. split; [done|]. split.
  - destruct (Hget 8200) as (v & d & a & _ & Ev & _); [by split|]. rewrite Ev. reflexivity.
  - apply Htlb; [|vm_compute; reflexivity]. vm_compute. discriminate.
Defined.

Lemma pagedir_status_bits_independent_witness :
  ∃ ws s', pd_ok mapped_mmu sample_pd ws ∧ pagedir_set_accessed sample_pd 8192 true mapped_mmu = Ok (tt, s') ∧
    pagedir_is_accessed sample_pd 8192 s' = Ok (true, s').
Proof.
  destruct mapped_mmu_ok as [ws H].
  destruct (pagedir_status_bits_independent mapped_mmu sample_pd ws 8192 5 true H) as (s' & E & _ & _ & Ht);
    [by split|by left|vm_compute; discriminate|].
  exists ws, s'. split; [done|]. split; [exact E|]. destruct (Ht 8192 5) as (old & _ & Et); [by split|by left|]. exact Et.
Defined.
