(* ===== verification/Paging.v ===== *)
(** * The kernel's page tables (paging_init of src/threads/init.c)

    The base page directory maps all of memory at [PHYS_BASE] and nothing below it, with
    the kernel's code read-only. *)

From S2P Require Import Prelude Bitmap Palloc Pagedir PagedirSpec.
Local Open Scope Z_scope.

Section Paging.
(** The linker's symbols [_start] and [_end_kernel_text]. *)
Context (text_start text_end : Z).

Definition in_kernel_text (vaddr : Z) : bool := (text_start <=? vaddr) && (vaddr <? text_end).

(** The loop of [paging_init], for [n] more pages; [pt] is the last page table. *)
Fixpoint paging_loop (n : nat) (page pd pt : Z) : V unit :=
  match n with
  | O => ret tt
  | S n' =>
      let paddr := u32 (page * PGSIZE) in
      let* vaddr := lift (ptov paddr) in
      let pde_idx := pd_no vaddr in
      let pte_idx := pt_no vaddr in
      let* pde := read_word pd pde_idx in
      let* pt :=
        (if pde =? 0 then
           let* pt := in_pal (palloc_get_page (Z.lor PAL_ASSERT PAL_ZERO)) in
           let* e := lift (pde_create pt) in
           write_word pd pde_idx e ;;; ret pt
         else ret pt) in
      let* e := lift (pte_create_kernel vaddr (negb (in_kernel_text vaddr))) in
      write_word pt pte_idx e ;;;
      paging_loop n' (page + 1) pd pt
  end.

Definition paging_init : V unit :=
  let* pd := in_pal (palloc_get_page (Z.lor PAL_ASSERT PAL_ZERO)) in
  modify (λ s, mk_mmu (pal s) (cr3 s) (tlb s) pd (init_ram_pages s)) ;;;
  let* pages := gets init_ram_pages in
  paging_loop (Z.to_nat pages) 0 pd NULL ;;;
  let* p := lift (vtop pd) in
  modify (set_cr3 p ∅).

(** ** The mapping *)

(** The entry for page [p] of memory. *)
Definition kernel_entry (p : Z) : Z := 4096 * p + (if in_kernel_text (4096 * p + PHYS_BASE) then 1 else 3).

(** The directory and its tables after the entries of the first [n] pages and the tables
    for the first [m]; [T] gives the page table for a directory index. *)
Record mapped (n m : Z) (T : Z → Z) (s : mmu) (pd : Z) (ws : list Z) : Prop := {
  mp_dir : pd_ok s pd ws;
  mp_words : ∀ k, 0 <= k < 1024 → ws !! Z.to_nat k = Some (if (768 <=? k) && (1024 * (k - 768) <? m) then T k - PHYS_BASE + 7 else 0);
  mp_table : ∀ k, 768 <= k < 1024 → 1024 * (k - 768) < m →
    kernel_page (T k) ∧ T k ≠ pd ∧ allocated (pal s) (T k) = true ∧
    ∃ tws, ram (pal s) !! T k = Some tws ∧ length tws = 1024%nat ∧
      ∀ j, 0 <= j < 1024 → tws !! Z.to_nat j = Some (if 1024 * (k - 768) + j <? n then kernel_entry (1024 * (k - 768) + j) else 0);
  mp_inj : ∀ k k', 768 <= k < 1024 → 768 <= k' < 1024 → 1024 * (k - 768) < m → 1024 * (k' - 768) < m → T k = T k' → k = k'
}.

Lemma pte_create_kernel_ok p : 0 <= p < 262144 →
  pte_create_kernel (4096 * p + PHYS_BASE) (negb (in_kernel_text (4096 * p + PHYS_BASE))) = Ok (kernel_entry p).
Proof.
  intros Hp. unfold pte_create_kernel. assert (E : pg_ofs (4096 * p + PHYS_BASE) = 0) by (rewrite pg_ofs_mod; unfold PHYS_BASE; mod_lia).
  rewrite E. cbn [Z.eqb rassert rbind]. rewrite vtop_ok by (unfold PHYS_BASE; lia). cbn [rbind].
  replace (4096 * p + PHYS_BASE - PHYS_BASE) with (4096 * p) by lia. f_equal. unfold kernel_entry. rewrite <- Z.lor_assoc.
  destruct (in_kernel_text _); cbn [negb]; [change (Z.lor PTE_P 0) with 1|change (Z.lor PTE_P PTE_W) with 3]; apply lor_flags; mod_lia.
Qed.

(** [palloc_get_page] that panics instead of returning null. *)
Lemma get_page_assert s pg s' : palloc_get_page PAL_ZERO s = Ok (pg, s') →
  palloc_get_page (Z.lor PAL_ASSERT PAL_ZERO) s = if pg =? NULL then Fail Panicked else Ok (pg, s').
Proof.
  unfold palloc_get_page, palloc_get_multiple. cbn [Z.eqb]. change (flag (Z.lor PAL_ASSERT PAL_ZERO) PAL_USER) with (flag PAL_ZERO PAL_USER). intros E.
  apply bind_inv in E as (i & s1 & E1 & E2). rewrite (bind_ok _ _ _ _ _ E1). unfold deliver_pages in *.
  change (flag (Z.lor PAL_ASSERT PAL_ZERO) PAL_USER) with (flag PAL_ZERO PAL_USER). unfold bind, gets in *.
  change (flag (Z.lor PAL_ASSERT PAL_ZERO) PAL_ZERO) with true. change (flag (Z.lor PAL_ASSERT PAL_ZERO) PAL_ASSERT) with true.
  change (flag PAL_ZERO PAL_ZERO) with true in E2. change (flag PAL_ZERO PAL_ASSERT) with false in E2.
  set (pages := if i =? BITMAP_ERROR then NULL else _) in *. destruct (pages =? NULL) eqn:En; injection E2 as <- <-; by rewrite En.
Qed.

(** The directory part of the invariant only speaks of user addresses, whose entries are
    empty. *)
Lemma dir_write s pd ws k e p' : pd_ok s pd ws → 768 <= k → (∀ k, 0 <= k < 768 → ws !! Z.to_nat k = Some 0) →
  palloc_wf p' → base (kernel_pool p') = base (kernel_pool (pal s)) → allocated p' pd = true →
  pd_ok (set_pal (set_ram (<[pd := <[Z.to_nat k := e]> ws]> (ram p')) p') s) pd (<[Z.to_nat k := e]> ws).
Proof.
  intros [H1 H2 H3 H4 H5 H6 H7 H8 H9] Hk Hz Hwf Hb Hu.
  assert (Hl : ∀ k' w, 0 <= k' < 768 → <[Z.to_nat k := e]> ws !! Z.to_nat k' = Some w → w = 0).
  { intros k' w Hk' Hw. rewrite list_lookup_insert_ne in Hw by lia. rewrite Hz in Hw by done. by injection Hw. }
  split; cbn; try done; [by destruct Hwf|by rewrite Hb|by rewrite lookup_insert_eq|by rewrite length_insert| |].
  - intros k' w Hk' Hw Hne. by apply Hl in Hw.
  - intros k1 k2 w1 w2 Hk1 Hk2 Hw1 Hw2 Hne. by apply Hl in Hw1.
Qed.

Lemma mapped_user n m T s pd ws : mapped n m T s pd ws → ∀ k, 0 <= k < 768 → ws !! Z.to_nat k = Some 0.
Proof. intros H k Hk. rewrite (mp_words _ _ _ _ _ _ H) by lia. by rewrite (proj2 (Z.leb_gt _ _)) by lia. Qed.

(** The table for page [n] exists, or is made. *)
Lemma table_step n T s pd ws pt : mapped n n T s pd ws → 0 <= n < 262144 → (0 < n → pt = T (768 + (n - 1) / 1024)) →
  let idx := pd_no (4096 * n + PHYS_BASE) in
  let make := (let* pde := read_word pd idx in
    if pde =? 0 then let* pt := in_pal (palloc_get_page (Z.lor PAL_ASSERT PAL_ZERO)) in let* e := lift (pde_create pt) in write_word pd idx e ;;; ret pt
    else ret pt) in
  make s = Fail Panicked ∨
  ∃ pt' s' ws' T', make s = Ok (pt', s') ∧ mapped n (n + 1) T' s' pd ws' ∧ pt' = T' (768 + n / 1024) ∧
    init_ram_pages s' = init_ram_pages s ∧ init_page_dir s' = init_page_dir s.
Proof.
  intros H Hn Hpt idx make. assert (Hi : idx = 768 + n / 1024) by (unfold idx; rewrite pd_no_div; unfold PHYS_BASE; mod_lia).
  pose proof (mp_dir _ _ _ _ _ _ H) as Hd. pose proof (mp_words _ _ _ _ _ _ H (768 + n / 1024) ltac:(mod_lia)) as Hw.
  assert (Hr : ∀ w, ws !! Z.to_nat (768 + n / 1024) = Some w → read_word pd idx s = Ok (w, s)).
  { intros w Hw'. rewrite Hi. eapply read_word_ok; [apply Hd|done]. }
  unfold make. rewrite (bind_ok _ _ _ _ _ (Hr _ Hw)). rewrite (proj2 (Z.leb_le 768 _)) by mod_lia. cbn [andb].
  replace (1024 * (768 + n / 1024 - 768) <? n) with (negb (n mod 1024 =? 0)).
  2: { destruct (Z.eqb_spec (n mod 1024) 0), (Z.ltb_spec (1024 * (768 + n / 1024 - 768)) n); try done; mod_lia. }
  destruct (Z.eqb_spec (n mod 1024) 0) as [Hm|Hm]; cbn [negb].
  - cbn [Z.eqb]. destruct (new_table s pd ws Hd) as [(p' & t & E & Hwf & Hb & Hpg & Hf & Hus & Hmono & Hram)|[_ E]].
    + right. set (k := 768 + n / 1024) in *. set (e := t - PHYS_BASE + 7). set (ws' := <[Z.to_nat k := e]> ws).
      set (s' := set_pal (set_ram (<[pd := ws']> (ram p')) p') s).
      assert (Ht0 : t ≠ NULL) by (destruct Hpg; unfold NULL, PHYS_BASE in *; lia). assert (Hne : t ≠ pd) by (intros ->; rewrite (po_used _ _ _ Hd) in Hf; done).
      assert (Hlen : (Z.to_nat k < length ws)%nat) by (rewrite (po_length _ _ _ Hd); unfold k; mod_lia).
      assert (Hk : 768 <= k < 1024) by (unfold k; mod_lia).
      exists t, s', ws', (λ x, if x =? k then t else T x). split.
      { unfold in_pal. unfold bind at 1. rewrite (get_page_assert _ _ _ E), (proj2 (Z.eqb_neq _ _) Ht0). unfold lift. rewrite pde_create_ok by done.
        erewrite bind_ok by reflexivity. rewrite Hi. fold k. unfold write_word, bind. cbn [pal set_pal]. rewrite Hram, lookup_insert_ne, (po_words _ _ _ Hd) by done.
        rewrite (proj2 (Z.ltb_lt _ _)) by lia. unfold s', ws', e. by rewrite <- Hram. }
      split; [|split; [by rewrite Z.eqb_refl|done]].
      assert (Hdir : pd_ok s' pd ws') by (apply dir_write; try done; [lia|by eapply mapped_user|by apply Hmono, (po_used _ _ _ Hd)]).
      assert (Hlt : ∀ x, 0 <= x < 1024 → 768 <= x → x ≠ k → (1024 * (x - 768) < n + 1 ↔ 1024 * (x - 768) < n)) by (intros; unfold k in *; mod_lia).
      split.
      * done.
      * intros x Hx. cbv beta. unfold ws'. destruct (Z.eqb_spec x k) as [->|Hxk].
        -- rewrite list_lookup_insert_eq by done. rewrite (proj2 (Z.leb_le _ _)), (proj2 (Z.ltb_lt _ _)) by (unfold k in *; mod_lia). done.
        -- rewrite list_lookup_insert_ne by lia. rewrite (mp_words _ _ _ _ _ _ H x Hx). destruct (Z.leb_spec 768 x); [|done]. cbn [andb].
           destruct (Z.ltb_spec (1024 * (x - 768)) n), (Z.ltb_spec (1024 * (x - 768)) (n + 1)); try done; specialize (Hlt x Hx ltac:(lia) Hxk); lia.
      * intros x Hx Hxn. cbv beta. destruct (Z.eqb_spec x k) as [->|Hxk].
        -- split; [done|]. split; [done|]. split; [done|]. exists (replicate PAGE_WORDS 0). cbn [pal set_pal set_ram ram s'].
           rewrite lookup_insert_ne, Hram, lookup_insert_eq by done. split; [done|]. split; [apply length_replicate|]. intros j Hj.
           rewrite lookup_replicate_2 by (unfold PAGE_WORDS; lia). destruct (Z.ltb_spec (1024 * (k - 768) + j) n); [unfold k in *; mod_lia|done].
        -- destruct (mp_table _ _ _ _ _ _ H x Hx) as (T1 & T2 & T3 & tws & T4 & T5 & T6); [apply (Hlt x); lia|].
           split; [done|]. split; [done|]. split; [by apply Hmono|]. exists tws. split; [|done]. cbn [pal set_pal set_ram ram s'].
           rewrite lookup_insert_ne, Hram, lookup_insert_ne; [done| |done]. intros Et. congruence.
      * intros x x' Hx Hx' Hxn Hxn' E'. cbv beta in E'. assert (Hold : ∀ y, 768 <= y < 1024 → y ≠ k → 1024 * (y - 768) < n + 1 → T y ≠ t).
        { intros y Hy Hyk Hyn Et. destruct (mp_table _ _ _ _ _ _ H y Hy) as (_ & _ & T3 & _); [apply (Hlt y); lia|]. rewrite Et in T3. by rewrite T3 in Hf. }
        destruct (Z.eqb_spec x k) as [->|Hxk], (Z.eqb_spec x' k) as [->|Hxk']; [done| | |].
        -- by destruct (Hold x' Hx' Hxk' Hxn').
        -- by destruct (Hold x Hx Hxk Hxn).
        -- apply (mp_inj _ _ _ _ _ _ H); try done; [apply (Hlt x)|apply (Hlt x')]; lia.
    + left. unfold in_pal. unfold bind at 1. by rewrite (get_page_assert _ _ _ E).
  - destruct (mp_table _ _ _ _ _ _ H (768 + n / 1024)) as (Hpg & _); [mod_lia|mod_lia|].
    destruct (Z.eqb_spec (T (768 + n / 1024) - PHYS_BASE + 7) 0) as [E|_]; [destruct Hpg; lia|]. right.
    exists pt, s, ws, T. split; [done|]. split; [|split; [rewrite Hpt by mod_lia; f_equal; mod_lia|done]].
    assert (Hlt : ∀ x, 1024 * (x - 768) < n + 1 ↔ 1024 * (x - 768) < n) by (intros; mod_lia). destruct H as [H1 H2 H3 H4]. split; [done| | |].
    + intros x Hx. rewrite H2 by done. destruct (Z.ltb_spec (1024 * (x - 768)) n), (Z.ltb_spec (1024 * (x - 768)) (n + 1)); try done; specialize (Hlt x); lia.
    + intros x Hx Hxn. apply H3; [done|]. by apply Hlt.
    + intros x x' Hx Hx' Hxn Hxn'. apply H4; try done; by apply Hlt.
Qed.

(** The entry for page [n] is written in the last table. *)
Lemma entry_step n T s pd ws : mapped n (n + 1) T s pd ws → 0 <= n < 262144 →
  ∃ s', write_word (T (768 + n / 1024)) (pt_no (4096 * n + PHYS_BASE)) (kernel_entry n) s = Ok (tt, s') ∧ mapped (n + 1) (n + 1) T s' pd ws ∧
    init_ram_pages s' = init_ram_pages s ∧ init_page_dir s' = init_page_dir s.
Proof.
  intros H Hn. set (k := 768 + n / 1024). destruct (mp_table _ _ _ _ _ _ H k) as (Hpg & Hne & Hus & tws & Hram & Hlen & Hws); [unfold k; mod_lia..|].
  assert (Hi : pt_no (4096 * n + PHYS_BASE) = n mod 1024) by (rewrite pt_no_mod; unfold PHYS_BASE; mod_lia). rewrite Hi.
  eexists. split; [unfold write_word; by rewrite Hram, (proj2 (Z.ltb_lt _ _)) by (rewrite Hlen; mod_lia)|]. split; [|done].
  pose proof (mapped_user _ _ _ _ _ _ H) as Hz. pose proof (mp_inj _ _ _ _ _ _ H) as Hinj. destruct H as [H1 H2 H3 H4]. split.
  - destruct H1 as [D1 D2 D3 D4 D5 D6 D7 D8 D9]. split; cbn; try done; [by destruct D1|by rewrite lookup_insert_ne|].
    intros x w Hx Hw Hw0. rewrite Hz in Hw by done. by injection Hw as <-.
  - done.
  - intros x Hx Hxn. destruct (H3 x Hx Hxn) as (T1 & T2 & T3 & tws' & T4 & T5 & T6). split; [done|]. split; [done|]. split; [done|].
    cbn [pal set_pal set_ram ram]. destruct (decide (x = k)) as [->|Hxk].
    + exists (<[Z.to_nat (n mod 1024) := kernel_entry n]> tws). rewrite lookup_insert_eq, length_insert. split; [done|]. split; [done|]. intros j Hj.
      destruct (decide (j = n mod 1024)) as [->|Hjn].
      * rewrite list_lookup_insert_eq by (rewrite Hlen; mod_lia). rewrite (proj2 (Z.ltb_lt _ _)) by (unfold k; mod_lia). do 2 f_equal. unfold k. mod_lia.
      * rewrite list_lookup_insert_ne by mod_lia. rewrite Hws by done.
        destruct (Z.ltb_spec (1024 * (k - 768) + j) n), (Z.ltb_spec (1024 * (k - 768) + j) (n + 1)); try done; unfold k in *; mod_lia.
    + exists tws'. rewrite lookup_insert_ne. 2: { intros E. apply Hxk. symmetry. apply Hinj; try done; unfold k; mod_lia. }
      split; [done|]. split; [done|]. intros j Hj. rewrite T6 by done.
      destruct (Z.ltb_spec (1024 * (x - 768) + j) n), (Z.ltb_spec (1024 * (x - 768) + j) (n + 1)); try done; unfold k in *; mod_lia.
  - done.
Qed.

(** One iteration of the loop. *)
Lemma loop_unfold c n pd pt s : 0 <= n < 262144 →
  paging_loop (S c) n pd pt s =
  (let idx := pd_no (4096 * n + PHYS_BASE) in
   let* pt' := (let* pde := read_word pd idx in
     if pde =? 0 then let* pt := in_pal (palloc_get_page (Z.lor PAL_ASSERT PAL_ZERO)) in let* e := lift (pde_create pt) in write_word pd idx e ;;; ret pt
     else ret pt) in
   write_word pt' (pt_no (4096 * n + PHYS_BASE)) (kernel_entry n) ;;; paging_loop c (n + 1) pd pt') s.
Proof.
  intros Hn. cbn [paging_loop]. cbv zeta. unfold PGSIZE. rewrite u32_id by int_lia. rewrite (Z.mul_comm n 4096), ptov_ok by (unfold PHYS_BASE; lia).
  unfold lift at 1. erewrite bind_ok by reflexivity. rewrite bind_assoc. rewrite pte_create_kernel_ok by lia. done.
Qed.

(** The loop maps the remaining pages, or panics for want of a page. *)
Lemma paging_loop_maps c : ∀ n T s pd ws pt, mapped n n T s pd ws → 0 <= n → n + Z.of_nat c <= 262144 → (0 < n → pt = T (768 + (n - 1) / 1024)) →
  paging_loop c n pd pt s = Fail Panicked ∨
  ∃ s' ws' T', paging_loop c n pd pt s = Ok (tt, s') ∧ mapped (n + Z.of_nat c) (n + Z.of_nat c) T' s' pd ws' ∧
    init_ram_pages s' = init_ram_pages s ∧ init_page_dir s' = init_page_dir s.
Proof.
  induction c as [|c IH]; intros n T s pd ws pt H Hn Hc Hpt.
  - right. exists s, ws, T. replace (n + Z.of_nat 0) with n by lia. done.
  - destruct (table_step n T s pd ws pt H ltac:(lia) Hpt) as [E|(pt' & s1 & ws1 & T1 & E & H1 & Ept & Er & Ei)].
    + left. rewrite loop_unfold by lia. unfold bind at 1. by rewrite E.
    + destruct (entry_step n T1 s1 pd ws1 H1 ltac:(lia)) as (s2 & E2 & H2 & Er2 & Ei2).
      assert (EL : paging_loop (S c) n pd pt s = paging_loop c (n + 1) pd (T1 (768 + n / 1024)) s2)
        by (rewrite loop_unfold, (bind_ok _ _ _ _ _ E), Ept by lia; by rewrite (bind_ok _ _ _ _ _ E2)).
      destruct (IH (n + 1) T1 s2 pd ws1 (T1 (768 + n / 1024)) H2) as [E3|(s3 & ws3 & T3 & E3 & H3 & Er3 & Ei3)]; [lia|lia|intros _; by replace (n + 1 - 1) with n by lia|left; congruence|].
      right. exists s3, ws3, T3. replace (n + Z.of_nat (S c)) with (n + 1 + Z.of_nat c) by lia. split; [congruence|]. split; [done|]. split; congruence.
Qed.

(** ** The whole of [paging_init] *)

(** The allocator as [palloc_init] leaves it, and the boot loader's page directory. *)
Record boots (s : mmu) : Prop := {
  bt_pal : palloc_wf (pal s);
  bt_base : PHYS_BASE <= base (kernel_pool (pal s));
  bt_cr3 : 0 <= cr3 s < 2 ^ 32 - PHYS_BASE;
  bt_pages : 0 <= init_ram_pages s <= 262144
}.

Lemma empty_directory s p' pd : boots s → palloc_wf p' → base (kernel_pool p') = base (kernel_pool (pal s)) → kernel_page pd → allocated p' pd = true →
  ram p' !! pd = Some (replicate PAGE_WORDS 0) →
  mapped 0 0 (λ _, NULL) (mk_mmu p' (cr3 s) (tlb s) pd (init_ram_pages s)) pd (replicate PAGE_WORDS 0).
Proof.
  intros [B1 B2 B3 B4] Hwf Hb Hpg Hus Hram. split.
  - split; cbn [pal cr3]; try done; [by rewrite Hb| |].
    + intros k w Hk Hw. by apply lookup_replicate in Hw as [-> _].
    + intros k k' w w' Hk Hk' Hw. by apply lookup_replicate in Hw as [-> _].
  - intros k Hk. rewrite lookup_replicate_2 by (unfold PAGE_WORDS; lia).
    destruct (Z.leb_spec 768 k), (Z.ltb_spec (1024 * (k - 768)) 0); try done; lia.
  - intros k Hk Hk'. lia.
  - intros k k' Hk Hk' Hn. lia.
Qed.

(** The entry the tables give an address. *)
Lemma mapped_entry n T s pd ws va : mapped n n T s pd ws → 0 <= va < 2 ^ 32 →
  entry_of (ram (pal s)) pd va = if (PHYS_BASE <=? va) && (va / 4096 - 786432 <? n) then kernel_entry (va / 4096 - 786432) else 0.
Proof.
  intros H Hva. unfold entry_of, table_of. rewrite (po_words _ _ _ (mp_dir _ _ _ _ _ _ H)). cbn [mbind option_bind].
  rewrite (mp_words _ _ _ _ _ _ H) by mod_lia. cbn [mbind option_bind]. set (k := va / 2 ^ 22).
  assert (Ek : (768 <=? k) = (PHYS_BASE <=? va)) by (destruct (Z.leb_spec 768 k), (Z.leb_spec PHYS_BASE va); unfold k, PHYS_BASE in *; try done; mod_lia).
  rewrite Ek. destruct (Z.leb_spec PHYS_BASE va) as [Hp|Hp]; [|done]. cbn [andb]. destruct (Z.ltb_spec (1024 * (k - 768)) n) as [Hn|Hn].
  - destruct (mp_table _ _ _ _ _ _ H k) as (Hpg & _ & _ & tws & Hram & _ & Hws); [unfold k, PHYS_BASE in *; mod_lia|done|].
    rewrite (proj2 (Z.eqb_neq _ _)) by (destruct Hpg; lia). cbn [mbind option_bind]. rewrite pt_of_pde, Hram by done. cbn [mbind option_bind].
    rewrite Hws by mod_lia. cbn [default]. replace (1024 * (k - 768) + va / 4096 mod 1024) with (va / 4096 - 786432) by (unfold k; mod_lia). done.
  - cbn [Z.eqb]. destruct (Z.ltb_spec (va / 4096 - 786432) n) as [Hn'|]; [unfold k in *; mod_lia|done].
Qed.

(** C32: paging_init either runs out of pages and panics, or loads a base page directory
    in which every page of memory is mapped at PHYS_BASE, present, writable exactly when
    it is outside the kernel's text and never accessible to user programs; no other
    address, in particular no user address, is mapped, and no cached translation is left. *)
Theorem paging_init_maps s : boots s →
  paging_init s = Fail Panicked ∨
  ∃ s' pd ws, paging_init s = Ok (tt, s') ∧ pd_ok s' pd ws ∧ init_page_dir s' = pd ∧ cr3 s' = pd - PHYS_BASE ∧ tlb s' = ∅ ∧
    ∀ va, 0 <= va < 2 ^ 32 → entry_of (ram (pal s')) pd va =
      if (PHYS_BASE <=? va) && (va <? PHYS_BASE + 4096 * init_ram_pages s)
      then (va - PHYS_BASE) / 4096 * 4096 + (if in_kernel_text (va / 4096 * 4096) then 1 else 3) else 0.
Proof.
  intros B. destruct (new_page (pal s) (bt_pal _ B) (bt_base _ B)) as [(p' & pd & E & Hwf & Hb & Hpg & _ & Hus & _ & Hram)|[_ E]].
  2: { left. unfold paging_init, in_pal. unfold bind at 1. by rewrite (get_page_assert _ _ _ E). }
  assert (H0 : pd ≠ NULL) by (destruct Hpg; unfold NULL, PHYS_BASE in *; lia). pose proof (bt_pages _ B) as Hpages. set (n := init_ram_pages s) in *.
  assert (EP : paging_init s = (paging_loop (Z.to_nat n) 0 pd NULL ;;; let* p := lift (vtop pd) in modify (set_cr3 p ∅)) (mk_mmu p' (cr3 s) (tlb s) pd n)).
  { unfold paging_init, in_pal. unfold bind at 1. by rewrite (get_page_assert _ _ _ E), (proj2 (Z.eqb_neq _ _) H0). }
  pose proof (empty_directory s p' pd B Hwf Hb Hpg Hus ltac:(by rewrite Hram, lookup_insert_eq)) as M0. fold n in M0. rewrite EP. clear EP.
  destruct (paging_loop_maps (Z.to_nat n) 0 _ _ _ _ NULL M0) as [E1|(s1 & ws1 & T1 & E1 & M1 & Er & Ei)]; [lia|lia|lia|left|right].
  { unfold bind at 1. by rewrite E1. }
  replace (0 + Z.of_nat (Z.to_nat n)) with n in M1 by lia. exists (set_cr3 (pd - PHYS_BASE) ∅ s1), pd, ws1. rewrite (bind_ok _ _ _ _ _ E1).
  rewrite vtop_ok by apply Hpg. split; [done|]. split.
  { destruct (mp_dir _ _ _ _ _ _ M1) as [D1 D2 D3 D4 D5 D6 D7 D8 D9]. destruct Hpg. split; cbn; try done; [unfold PHYS_BASE in *; lia|].
    intros k w Hk Hw Hw0. rewrite (mapped_user _ _ _ _ _ _ M1) in Hw by done. by injection Hw as <-. }
  split; [done|]. split; [done|]. split; [done|]. intros va Hva. cbn [pal set_cr3]. rewrite (mapped_entry _ _ _ _ _ _ M1 Hva).
  destruct (Z.leb_spec PHYS_BASE va) as [Hp|Hp]; [|done]. cbn [andb].
  replace (va / 4096 - 786432 <? n) with (va <? PHYS_BASE + 4096 * n).
  2: { destruct (Z.ltb_spec va (PHYS_BASE + 4096 * n)), (Z.ltb_spec (va / 4096 - 786432) n); unfold PHYS_BASE in *; try done; mod_lia. }
  destruct (_ <? _); [|done]. unfold kernel_entry. replace (4096 * (va / 4096 - 786432) + PHYS_BASE) with (va / 4096 * 4096) by (unfold PHYS_BASE; lia).
  f_equal. unfold PHYS_BASE. mod_lia.
Qed.
End Paging.

(** A machine with three pages of memory to map and one page of kernel text. *)
Definition sample_boot : mmu :=
  mk_mmu (mk_palloc (mk_pool (mk_bitmap 4 [0]) sample_pd) (mk_pool (mk_bitmap 4 [0]) 3223322624) ∅) 0 {[4096 := 1]} NULL 3.

Lemma sample_boots : boots sample_boot.
Proof.
  assert (Hb : ∀ w, in_u32 w → bm_wf (mk_bitmap 4 [w])) by (intros w Hw; split; [simpl; lia|done|by apply Forall_singleton]).
  split; [|vm_compute; discriminate|vm_compute; split; [discriminate|reflexivity]|vm_compute; split; discriminate].
  split; [split|split|]; cbn [kernel_pool user_pool used_map base bit_cnt pal sample_boot]; unfold sample_pd; try lia; try done; by apply Hb.
Qed.

Lemma paging_init_maps_witness :
  boots sample_boot ∧ ∃ s' pd, paging_init (PHYS_BASE + 4096) (PHYS_BASE + 8192) sample_boot = Ok (tt, s') ∧ init_page_dir s' = pd ∧
    entry_of (ram (pal s')) pd PHYS_BASE = 3 ∧ entry_of (ram (pal s')) pd (PHYS_BASE + 4096) = 4097 ∧ entry_of (ram (pal s')) pd 4096 = 0.
Proof.
  split; [apply sample_boots|]. destruct (paging_init_maps (PHYS_BASE + 4096) (PHYS_BASE + 8192) sample_boot sample_boots) as [E|(s' & pd & ws & E & _ & Ei & _ & _ & Hmap)].
  - exfalso. vm_compute in E. discriminate.
  - exists s', pd. split; [done|]. split; [done|]. rewrite !Hmap by (unfold PHYS_BASE; lia). split_and!; reflexivity.
Defined.
