(* ===== verification/Gdt.v ===== *)
(** * Segments and the task state (src/userprog/gdt.c, src/userprog/tss.c,
    src/threads/loader.h)

    The descriptor table is the list of its 64-bit entries; the task-state segment is the
    page the allocator gives for it, whose words are those of [struct tss].  A descriptor is
    read back the way the processor reads it, field by field. *)

From S2P Require Import Prelude Bits Bitmap Palloc Pagedir PagedirSpec Paging.
Local Open Scope Z_scope.

Definition SEL_NULL : Z := 0.
Definition SEL_KCSEG : Z := 8.
Definition SEL_KDSEG : Z := 16.
Definition SEL_UCSEG : Z := 27.
Definition SEL_UDSEG : Z := 35.
Definition SEL_TSS : Z := 40.
Definition SEL_CNT : Z := 6.

(** ** Descriptors *)

Inductive seg_class := CLS_SYSTEM | CLS_CODE_DATA.
Inductive seg_granularity := GRAN_BYTE | GRAN_PAGE.
Definition class_num (c : seg_class) : Z := match c with CLS_SYSTEM => 0 | CLS_CODE_DATA => 1 end.
Definition gran_num (g : seg_granularity) : Z := match g with GRAN_BYTE => 0 | GRAN_PAGE => 1 end.

Definition make_seg_desc (base limit : Z) (class : seg_class) (type dpl : Z) (granularity : seg_granularity) : res Z :=
  rassert (limit <=? 1048575) ;;?
  rassert ((0 <=? type) && (type <=? 15)) ;;?
  rassert ((0 <=? dpl) && (dpl <=? 3)) ;;?
  let e0 := Z.lor (Z.land limit 65535) (u32 (Z.shiftl base 16)) in
  let e1 := Z.lor (Z.lor (Z.lor (Z.lor (Z.lor (Z.lor (Z.lor (Z.lor
    (Z.land (Z.shiftr base 16) 255) (Z.shiftl type 8)) (Z.shiftl (class_num class) 12)) (Z.shiftl dpl 13))
    (Z.shiftl 1 15)) (Z.land limit 983040)) (Z.shiftl 1 22)) (Z.shiftl (gran_num granularity) 23))
    (Z.land base 4278190080) in
  Ok (Z.lor e0 (u64 (Z.shiftl e1 32))).

Definition make_code_desc (dpl : Z) : res Z := make_seg_desc 0 1048575 CLS_CODE_DATA 10 dpl GRAN_PAGE.
Definition make_data_desc (dpl : Z) : res Z := make_seg_desc 0 1048575 CLS_CODE_DATA 2 dpl GRAN_PAGE.
Definition make_tss_desc (laddr : Z) : res Z := make_seg_desc (u32 laddr) 103 CLS_SYSTEM 9 0 GRAN_BYTE.
Definition make_gdtr_operand (limit base : Z) : Z := Z.lor (u16 limit) (u64 (Z.shiftl (u32 base) 16)).

(** ** The state *)

(** [gdtr] and [tr] are the processor's registers, [running] the page of the running
    thread. *)
Record segments := mk_seg { mem : mmu; running : Z; tss : Z; gdt : list Z; gdtr : Z; tr : Z }.

Notation G := (M segments).

Definition set_mem x s := mk_seg x (running s) (tss s) (gdt s) (gdtr s) (tr s).
Definition set_running x s := mk_seg (mem s) x (tss s) (gdt s) (gdtr s) (tr s).
Definition set_tss x s := mk_seg (mem s) (running s) x (gdt s) (gdtr s) (tr s).
Definition set_gdt x s := mk_seg (mem s) (running s) (tss s) x (gdtr s) (tr s).
Definition set_gdtr x s := mk_seg (mem s) (running s) (tss s) (gdt s) x (tr s).
Definition set_tr x s := mk_seg (mem s) (running s) (tss s) (gdt s) (gdtr s) x.

Definition in_mem {A} (m : V A) : G A := λ s,
  match m (mem s) with Ok (a, v) => Ok (a, set_mem v s) | Fail f => Fail f end.

(** The members of [struct tss] as words of its page: [esp0] is word 1, [ss0] the low half
    of word 2 and [bitmap] the high half of word 25. *)
Definition put_esp0 (v : Z) : G unit := let* t := gets tss in in_mem (write_word t 1 v).
Definition put_ss0 (v : Z) : G unit :=
  let* t := gets tss in let* w := in_mem (read_word t 2) in in_mem (write_word t 2 (Z.lor (Z.land w 4294901760) v)).
Definition put_bitmap (v : Z) : G unit :=
  let* t := gets tss in let* w := in_mem (read_word t 25) in in_mem (write_word t 25 (Z.lor (Z.land w 65535) (Z.shiftl v 16))).

(** ** tss.c *)

Definition tss_get : G Z := let* t := gets tss in assert (negb (t =? NULL)) ;;; ret t.

Definition tss_update : G unit :=
  let* t := gets tss in assert (negb (t =? NULL)) ;;;
  let* cur := gets running in put_esp0 (u32 (cur + PGSIZE)).

Definition tss_init : G unit :=
  let* page := in_mem (in_pal (palloc_get_page (Z.lor PAL_ASSERT PAL_ZERO))) in
  modify (set_tss page) ;;;
  put_ss0 SEL_KDSEG ;;;
  put_bitmap 57343 ;;;
  tss_update.

(** ** gdt.c *)

(** [gdt[sel / sizeof *gdt] = d] *)
Definition put_gdt (sel d : Z) : G unit := modify (λ s, set_gdt (<[Z.to_nat (sel / 8) := d]> (gdt s)) s).

(** [gdt_addr] is the address of the table. *)
Definition gdt_init (gdt_addr : Z) : G unit :=
  put_gdt SEL_NULL 0 ;;;
  (let* d := lift (make_code_desc 0) in put_gdt SEL_KCSEG d) ;;;
  (let* d := lift (make_data_desc 0) in put_gdt SEL_KDSEG d) ;;;
  (let* d := lift (make_code_desc 3) in put_gdt SEL_UCSEG d) ;;;
  (let* d := lift (make_data_desc 3) in put_gdt SEL_UDSEG d) ;;;
  (let* t := tss_get in let* d := lift (make_tss_desc t) in put_gdt SEL_TSS d) ;;;
  modify (set_gdtr (make_gdtr_operand (8 * SEL_CNT - 1) gdt_addr)) ;;;
  modify (set_tr SEL_TSS).

(** ** The processor's view *)

Record descriptor := mk_desc {
  d_base : Z; d_limit : Z; d_type : Z; d_class : Z; d_dpl : Z; d_present : Z; d_big : Z; d_gran : Z
}.

Definition decode (d : Z) : descriptor :=
  mk_desc (bitfield 16 24 d + 2 ^ 24 * bitfield 56 8 d) (bitfield 0 16 d + 2 ^ 16 * bitfield 48 4 d)
    (bitfield 40 4 d) (bitfield 44 1 d) (bitfield 45 2 d) (bitfield 47 1 d) (bitfield 54 1 d) (bitfield 55 1 d).

(** The descriptor a selector names. *)
Definition segment (s : segments) (sel : Z) : option descriptor := decode <$> gdt s !! Z.to_nat (sel / 8).

(** The last offset of a segment. *)
Definition last_offset (d : descriptor) : Z := if d_gran d =? 1 then d_limit d * 4096 + 4095 else d_limit d.

(** The stack the processor switches to when it enters ring 0: selector and pointer, read
    from the segment the task register names. *)
Definition ring0_stack (s : segments) : option (Z * Z) :=
  segment s (tr s) ≫= λ d,
  ram (pal (mem s)) !! d_base d ≫= λ ws,
  ws !! 2%nat ≫= λ w2, ws !! 1%nat ≫= λ w1, Some (bitfield 0 16 w2, w1).

Example code_descriptors : make_code_desc 0 = Ok 58434644969848831 ∧ make_data_desc 3 = Ok 58531401993093119.
Proof. split; vm_compute; reflexivity. Qed.

(** ** Descriptors are read back *)

(** Turns the packing of a descriptor into a sum. *)
Lemma desc_sum base limit class type dpl g : in_u32 base → 0 <= limit <= 1048575 → 0 <= type <= 15 → 0 <= dpl <= 3 →
  make_seg_desc base limit class type dpl g = Ok
    (limit mod 2 ^ 16 + base mod 2 ^ 16 * 2 ^ 16 +
     (base / 2 ^ 16 mod 2 ^ 8 + type * 2 ^ 8 + class_num class * 2 ^ 12 + dpl * 2 ^ 13 + 2 ^ 15 +
      limit / 2 ^ 16 * 2 ^ 16 + 2 ^ 22 + gran_num g * 2 ^ 23 + base / 2 ^ 24 * 2 ^ 24) * 2 ^ 32).
Proof.
  intros Hb Hl Ht Hd. unfold make_seg_desc, rassert. rewrite (proj2 (Z.leb_le limit _)) by lia.
  rewrite !(proj2 (Z.leb_le 0 _)), (proj2 (Z.leb_le type _)), (proj2 (Z.leb_le dpl _)) by lia. cbn [andb rbind]. f_equal.
  assert (Hc : 0 <= class_num class <= 1) by (destruct class; cbn; lia). assert (Hg : 0 <= gran_num g <= 1) by (destruct g; cbn; lia).
  change 65535 with (Z.ones 16). change 255 with (Z.ones 8). change 983040 with (Z.shiftl (Z.ones 4) 16). change 4278190080 with (Z.shiftl (Z.ones 8) 24).
  rewrite !land_low, !land_field by lia. rewrite !Z.shiftl_mul_pow2, Z.shiftr_div_pow2 by lia.
  lor_step lor_above 16. lor_step lor_above 8. lor_step lor_above 12. lor_step lor_above 13. lor_step lor_above 15.
  lor_step lor_above 16. lor_step lor_above 22. lor_step lor_above 23. lor_step lor_above 24. lor_step lor_above 32. fields.
Qed.

Lemma decode_desc base limit class type dpl g : in_u32 base → 0 <= limit <= 1048575 → 0 <= type <= 15 → 0 <= dpl <= 3 →
  ∃ d, make_seg_desc base limit class type dpl g = Ok d ∧
    decode d = mk_desc base limit type (class_num class) dpl 1 1 (gran_num g).
Proof.
  intros Hb Hl Ht Hd. eexists. split; [by apply desc_sum|].
  assert (Hc : 0 <= class_num class <= 1) by (destruct class; cbn; lia). assert (Hg : 0 <= gran_num g <= 1) by (destruct g; cbn; lia).
  unfold decode. f_equal; fields.
Qed.

(** ** The table and the task state *)

(** A segment that covers all linear addresses at themselves. *)
Definition flat (type dpl : Z) : descriptor := mk_desc 0 1048575 type 1 dpl 1 1 1.

Lemma flat_covers type dpl a : in_u32 a → 0 <= a <= last_offset (flat type dpl) ∧ d_base (flat type dpl) + a = a.
Proof. intros H. cbn. int_lia. Qed.

(** The page at [t] holds a task state with the ring 0 stack pointer [esp]. *)
Definition tss_words (esp : Z) : list Z := <[1%nat := esp]> (<[25%nat := 57343 * 2 ^ 16]> (<[2%nat := SEL_KDSEG]> (replicate PAGE_WORDS 0))).

Lemma write_seg t i w ws s : ram (pal (mem s)) !! t = Some ws → 0 <= i < Z.of_nat (length ws) → tss s = t →
  ∃ m, in_mem (write_word t i w) s = Ok (tt, set_mem m s) ∧ ram (pal m) !! t = Some (<[Z.to_nat i := w]> ws).
Proof.
  intros Hr Hi _. eexists. unfold in_mem, write_word. rewrite Hr, (proj2 (Z.ltb_lt _ _)) by lia. split; [done|].
  cbn. by rewrite lookup_insert_eq.
Qed.

Lemma tss_update_run s ws : tss s ≠ NULL → ram (pal (mem s)) !! tss s = Some ws → length ws = 1024%nat →
  ∃ m, tss_update s = Ok (tt, set_mem m s) ∧ ram (pal m) !! tss s = Some (<[1%nat := u32 (running s + PGSIZE)]> ws).
Proof.
  intros Hn Hr Hl. unfold tss_update, put_esp0. unfold bind at 1, gets at 1. rewrite (proj2 (Z.eqb_neq _ _) Hn). cbn [negb assert].
  unfold bind, ret, gets. destruct (write_seg (tss s) 1 (u32 (running s + PGSIZE)) ws s Hr ltac:(lia) eq_refl) as (m & E & Hm).
  exists m. by rewrite E.
Qed.

Lemma tss_init_run s : palloc_wf (pal (mem s)) → PHYS_BASE <= base (kernel_pool (pal (mem s))) → run_free (kernel_pool (pal (mem s))) 1 →
  ∃ m t, tss_init s = Ok (tt, set_tss t (set_mem m s)) ∧ kernel_page t ∧
    ram (pal m) !! t = Some (tss_words (u32 (running s + PGSIZE))).
Proof.
  intros Hwf Hb Hfree. destruct (new_page (pal (mem s)) Hwf Hb) as [(p' & t & E & _ & _ & Ht & _ & _ & _ & Hram)|[H _]]; [|done].
  assert (Hn : t ≠ NULL) by (destruct Ht; unfold NULL, PHYS_BASE in *; lia).
  set (s1 := set_tss t (set_mem (set_pal p' (mem s)) s)). set (ws := replicate PAGE_WORDS 0).
  assert (Hr1 : ram (pal (mem s1)) !! t = Some ws) by (cbn; by rewrite Hram, lookup_insert_eq).
  destruct (write_seg t 2 SEL_KDSEG ws s1 Hr1 ltac:(vm_compute; done) eq_refl) as (m2 & E2 & Hr2). set (s2 := set_mem m2 s1) in *.
  change (Z.to_nat 2) with 2%nat in Hr2. set (ws2 := <[2%nat := SEL_KDSEG]> ws) in *.
  destruct (write_seg t 25 (57343 * 2 ^ 16) ws2 s2 Hr2 ltac:(vm_compute; done) eq_refl) as (m3 & E3 & Hr3). set (s3 := set_mem m3 s2) in *.
  destruct (tss_update_run s3 _ Hn Hr3 ltac:(by rewrite !length_insert)) as (m4 & E4 & Hr4).
  assert (Hw2 : in_mem (read_word t 2) s1 = Ok (0, s1)) by (unfold in_mem, read_word; rewrite Hr1; reflexivity).
  assert (Hw25 : in_mem (read_word t 25) s2 = Ok (0, s2)) by (unfold in_mem, read_word; cbn [mem set_mem s2]; rewrite Hr2; reflexivity).
  assert (P2 : put_ss0 SEL_KDSEG s1 = Ok (tt, s2)) by (unfold put_ss0; rewrite (bind_ok _ _ s1 t s1 eq_refl), (bind_ok _ _ _ _ _ Hw2); exact E2).
  assert (P25 : put_bitmap 57343 s2 = Ok (tt, s3)) by (unfold put_bitmap; rewrite (bind_ok _ _ s2 t s2 eq_refl), (bind_ok _ _ _ _ _ Hw25); exact E3).
  exists m4, t. split; [|done]. unfold tss_init.
  assert (P1 : in_mem (in_pal (palloc_get_page (Z.lor PAL_ASSERT PAL_ZERO))) s = Ok (t, set_mem (set_pal p' (mem s)) s)).
  { unfold in_mem, in_pal. by rewrite (get_page_assert _ _ _ E), (proj2 (Z.eqb_neq _ _) Hn). }
  rewrite (bind_ok _ _ _ _ _ P1), (bind_ok _ _ _ tt s1 eq_refl), (bind_ok _ _ _ _ _ P2), (bind_ok _ _ _ _ _ P25). exact E4.
Qed.

(** The table that [gdt_init] leaves, entry by entry. *)
Lemma gdt_init_run addr s : tss s ≠ NULL → in_u32 (tss s) → length (gdt s) = 6%nat →
  ∃ d, decode d = mk_desc (tss s) 103 9 0 0 1 1 0 ∧
    gdt_init addr s = Ok (tt, mk_seg (mem s) (running s) (tss s) [0; 58434644969848831; 58425848876826623; 58540198086115327; 58531401993093119; d]
      (make_gdtr_operand 47 addr) SEL_TSS).
Proof.
  intros Hn Ht Hl. destruct (decode_desc (tss s) 103 CLS_SYSTEM 9 0 GRAN_BYTE Ht ltac:(lia) ltac:(lia) ltac:(lia)) as (d & E & D).
  exists d. split; [done|]. destruct s as [m r t g gr tr0]. cbn [tss gdt mem running] in *.
  destruct g as [|g0 [|g1 [|g2 [|g3 [|g4 [|g5 [|]]]]]]]; try done.
  assert (Et : make_tss_desc t = Ok d) by (unfold make_tss_desc; by rewrite u32_id).
  unfold gdt_init, put_gdt, tss_get, bind, modify, lift, gets, assert, ret.
  change (make_code_desc 0) with (Ok 58434644969848831). change (make_data_desc 0) with (Ok 58425848876826623).
  change (make_code_desc 3) with (Ok 58540198086115327). change (make_data_desc 3) with (Ok 58531401993093119).
  cbn [set_gdt tss gdt mem running gdtr tr]. rewrite (proj2 (Z.eqb_neq _ _) Hn). cbn [negb]. rewrite Et. reflexivity.
Qed.

(** The processor finds the ring 0 stack in the task state. *)
Lemma ring0_stack_ok s ws d esp : segment s (tr s) = Some d → d_base d = tss s → ram (pal (mem s)) !! tss s = Some ws →
  ws !! 2%nat = Some SEL_KDSEG → ws !! 1%nat = Some esp → ring0_stack s = Some (SEL_KDSEG, esp).
Proof. intros H1 H2 H3 H4 H5. unfold ring0_stack. rewrite H1. cbn. rewrite H2, H3. cbn. by rewrite H4, H5. Qed.

Lemma gdtr_fields addr : in_u32 addr → bitfield 0 16 (make_gdtr_operand 47 addr) = 47 ∧ bitfield 16 32 (make_gdtr_operand 47 addr) = addr.
Proof.
  intros Ha. unfold make_gdtr_operand. rewrite Z.shiftl_mul_pow2 by lia. change (u16 47) with 47. rewrite u32_id by done.
  rewrite (lor_above 16) by mod_lia. split; fields.
Qed.

(** C29: after start-up every selector names a segment as the processor reads it: the four
    code and data segments map all of memory at itself, the user's with privilege level 3
    like its selectors, the kernel's with 0; the register holds the table's bounds; and when
    the processor enters the kernel it switches to the end of the running thread's page,
    then and after any later thread switch. *)
Theorem segments_correct addr s :
  palloc_wf (pal (mem s)) → PHYS_BASE <= base (kernel_pool (pal (mem s))) → run_free (kernel_pool (pal (mem s))) 1 →
  length (gdt s) = 6%nat → in_u32 addr →
  ∃ s', (tss_init ;;; gdt_init addr) s = Ok (tt, s') ∧
    segment s' SEL_KCSEG = Some (flat 10 0) ∧ segment s' SEL_KDSEG = Some (flat 2 0) ∧
    segment s' SEL_UCSEG = Some (flat 10 (SEL_UCSEG mod 4)) ∧ segment s' SEL_UDSEG = Some (flat 2 (SEL_UDSEG mod 4)) ∧
    (∃ d, segment s' SEL_NULL = Some d ∧ d_present d = 0) ∧
    bitfield 0 16 (gdtr s') = 8 * Z.of_nat (length (gdt s')) - 1 ∧ bitfield 16 32 (gdtr s') = addr ∧
    ring0_stack s' = Some (SEL_KDSEG, u32 (running s + PGSIZE)) ∧
    ∀ t, ∃ s'', tss_update (set_running t s') = Ok (tt, s'') ∧ gdt s'' = gdt s' ∧ ring0_stack s'' = Some (SEL_KDSEG, u32 (t + PGSIZE)).
Proof.
  intros Hwf Hb Hf Hl Ha. destruct (tss_init_run s Hwf Hb Hf) as (m & t & E & Ht & Hr). rewrite (bind_ok _ _ _ _ _ E).
  assert (Hn : t ≠ NULL) by (destruct Ht; unfold NULL, PHYS_BASE in *; lia).
  destruct (gdt_init_run addr (set_tss t (set_mem m s)) Hn ltac:(destruct Ht; unfold PHYS_BASE in *; cbn; int_lia) Hl) as (d & D & E2).
  rewrite E2. eexists. split; [reflexivity|]. cbn [mem running tss set_tss set_mem] in *. do 4 (split; [vm_compute; reflexivity|]).
  split; [by eexists|]. cbn [gdtr gdt length]. destruct (gdtr_fields addr Ha) as [-> ->]. split; [done|]. split; [done|]. split.
  - eapply ring0_stack_ok; [reflexivity|by rewrite D|cbn; exact Hr|reflexivity|reflexivity].
  - intros cur. edestruct tss_update_run as (m' & E3 & Hr3); [| |idtac|rewrite E3]; [exact Hn|cbn; exact Hr|reflexivity|].
    eexists. split; [reflexivity|]. split; [done|]. eapply ring0_stack_ok; [reflexivity|by rewrite D|cbn; exact Hr3|reflexivity|reflexivity].
Qed.

Definition sample_segments : segments := mk_seg sample_boot 3221262336 NULL (replicate 6 0) 0 0.

Lemma segments_correct_witness :
  let s := sample_segments in
  run_free (kernel_pool (pal (mem s))) 1 ∧
  ∃ s', (tss_init ;;; gdt_init 3221233664) s = Ok (tt, s') ∧ ring0_stack s' = Some (SEL_KDSEG, 3221266432) ∧
    segment s' SEL_UCSEG = Some (flat 10 3).
Proof.
  intros s. assert (Hf : run_free (kernel_pool (pal (mem s))) 1).
  { exists 0. split; [lia|]. split; [cbn; lia|]. intros i Hi. replace i with 0 by lia. vm_compute. reflexivity. }
  split; [done|].
  destruct (segments_correct 3221233664 s (bt_pal _ sample_boots) (bt_base _ sample_boots) Hf eq_refl ltac:(int_lia))
    as (s' & E & _ & _ & U & _ & _ & _ & _ & R & _).
  exists s'. split; [exact E|]. split; [exact R|exact U].
Defined.
