(* ===== verification/Intr.v ===== *)
(** * Interrupts (src/threads/interrupt.c, src/devices/pit.c, and the registrations of
    timer.c, kbd.c, serial.c, ide.c, exception.c and syscall.c)

    The tables are lists of 256 entries, [idt] of the gates as the code packs them.  Writes
    of ports are recorded in their order.  [W] is the rest of the kernel, on which the
    handlers run. *)

From S2P Require Import Prelude Bits Stdio StdioSpec.
Local Open Scope Z_scope.

Definition INTR_CNT : Z := 256.
Definition SEL_KCSEG : Z := 8.
Definition PIC0_CTRL : Z := 32.
Definition PIC0_DATA : Z := 33.
Definition PIC1_CTRL : Z := 160.
Definition PIC1_DATA : Z := 161.

(** The handlers of the kernel; ide.c calls its own [interrupt_handler]. *)
Inductive handler := timer_interrupt | keyboard_interrupt | serial_interrupt | interrupt_handler | kill | page_fault | syscall_handler.

#[global] Instance handler_eq_dec : EqDecision handler.
Proof. solve_decision. Defined.

(** ** Gates *)

Definition make_gate (function dpl type : Z) : res Z :=
  rassert (negb (function =? 0)) ;;?
  rassert ((0 <=? dpl) && (dpl <=? 3)) ;;?
  rassert ((0 <=? type) && (type <=? 15)) ;;?
  let e0 := Z.lor (Z.land (u32 function) 65535) (Z.shiftl SEL_KCSEG 16) in
  let e1 := Z.lor (Z.lor (Z.lor (Z.lor (Z.land (u32 function) 4294901760) (Z.shiftl 1 15)) (Z.shiftl dpl 13))
              (Z.shiftl 0 12)) (Z.shiftl type 8) in
  Ok (Z.lor e0 (u64 (Z.shiftl e1 32))).
Definition make_intr_gate (function dpl : Z) : res Z := make_gate function dpl 14.
Definition make_trap_gate (function dpl : Z) : res Z := make_gate function dpl 15.
Definition make_idtr_operand (limit base : Z) : Z := Z.lor (u16 limit) (u64 (Z.shiftl (u32 base) 16)).

(** A gate as the processor reads it. *)
Record gate := mk_gate { g_offset : Z; g_selector : Z; g_type : Z; g_system : Z; g_dpl : Z; g_present : Z }.

Definition decode_gate (d : Z) : gate :=
  mk_gate (bitfield 0 16 d + 2 ^ 16 * bitfield 48 16 d) (bitfield 16 16 d) (bitfield 40 4 d) (bitfield 44 1 d) (bitfield 45 2 d) (bitfield 47 1 d).

(** ** Gates are read back *)

Lemma gate_sum f dpl type : 0 < f < 2 ^ 32 → 0 <= dpl <= 3 → 0 <= type <= 15 →
  make_gate f dpl type = Ok (f mod 2 ^ 16 + 8 * 2 ^ 16 + (f / 2 ^ 16 * 2 ^ 16 + 2 ^ 15 + dpl * 2 ^ 13 + type * 2 ^ 8) * 2 ^ 32).
Proof.
  intros Hf Hd Ht. unfold make_gate, rassert. rewrite (proj2 (Z.eqb_neq f 0)), !(proj2 (Z.leb_le 0 _)), (proj2 (Z.leb_le type _)), (proj2 (Z.leb_le dpl _)) by lia.
  cbn [andb negb rbind]. f_equal. rewrite u32_id by int_lia. change 65535 with (Z.ones 16). change 4294901760 with (Z.shiftl (Z.ones 16) 16).
  change (Z.shiftl 0 12) with 0. change (Z.shiftl SEL_KCSEG 16) with (8 * 2 ^ 16). rewrite Z.lor_0_r.
  rewrite land_low, land_field by lia. rewrite !Z.shiftl_mul_pow2 by lia.
  lor_step lor_above 16. lor_step lor_disjoint 16. lor_step lor_disjoint 15. lor_step lor_disjoint 13. lor_step lor_above 32. fields.
Qed.

Lemma decode_make f dpl type : 0 < f < 2 ^ 32 → 0 <= dpl <= 3 → 0 <= type <= 15 →
  ∃ g, make_gate f dpl type = Ok g ∧ decode_gate g = mk_gate f 8 type 0 dpl 1.
Proof. intros Hf Hd Ht. eexists. split; [by apply gate_sum|]. unfold decode_gate. f_equal; fields. Qed.

(** ** The state *)

Record intr (W : Type) := mk_intr {
  idt : list Z; idtr : Z;
  intr_handlers : list (option handler); intr_names : list (list Z); unexpected_cnt : list Z;
  in_external_intr : bool; yield_on_return : bool;
  intr_on : bool;                 (* the interrupt flag *)
  ports : list (Z * Z);           (* writes of ports *)
  console : list Z;
  world : W
}.
Arguments mk_intr {W}. Arguments idt {W}. Arguments idtr {W}. Arguments intr_handlers {W}. Arguments intr_names {W}. Arguments unexpected_cnt {W}.
Arguments in_external_intr {W}. Arguments yield_on_return {W}. Arguments intr_on {W}. Arguments ports {W}. Arguments console {W}. Arguments world {W}.

Section Intr.
Context {W : Type}.
Notation I := (M (intr W)).

Definition set_idt x (s : intr W) := mk_intr x (idtr s) (intr_handlers s) (intr_names s) (unexpected_cnt s) (in_external_intr s) (yield_on_return s) (intr_on s) (ports s) (console s) (world s).
Definition set_idtr x (s : intr W) := mk_intr (idt s) x (intr_handlers s) (intr_names s) (unexpected_cnt s) (in_external_intr s) (yield_on_return s) (intr_on s) (ports s) (console s) (world s).
Definition set_handlers x (s : intr W) := mk_intr (idt s) (idtr s) x (intr_names s) (unexpected_cnt s) (in_external_intr s) (yield_on_return s) (intr_on s) (ports s) (console s) (world s).
Definition set_names x (s : intr W) := mk_intr (idt s) (idtr s) (intr_handlers s) x (unexpected_cnt s) (in_external_intr s) (yield_on_return s) (intr_on s) (ports s) (console s) (world s).
Definition set_unexpected x (s : intr W) := mk_intr (idt s) (idtr s) (intr_handlers s) (intr_names s) x (in_external_intr s) (yield_on_return s) (intr_on s) (ports s) (console s) (world s).
Definition set_external x (s : intr W) := mk_intr (idt s) (idtr s) (intr_handlers s) (intr_names s) (unexpected_cnt s) x (yield_on_return s) (intr_on s) (ports s) (console s) (world s).
Definition set_yield x (s : intr W) := mk_intr (idt s) (idtr s) (intr_handlers s) (intr_names s) (unexpected_cnt s) (in_external_intr s) x (intr_on s) (ports s) (console s) (world s).
Definition set_on x (s : intr W) := mk_intr (idt s) (idtr s) (intr_handlers s) (intr_names s) (unexpected_cnt s) (in_external_intr s) (yield_on_return s) x (ports s) (console s) (world s).
Definition set_ports x (s : intr W) := mk_intr (idt s) (idtr s) (intr_handlers s) (intr_names s) (unexpected_cnt s) (in_external_intr s) (yield_on_return s) (intr_on s) x (console s) (world s).
Definition set_console x (s : intr W) := mk_intr (idt s) (idtr s) (intr_handlers s) (intr_names s) (unexpected_cnt s) (in_external_intr s) (yield_on_return s) (intr_on s) (ports s) x (world s).

Definition outb (port v : Z) : I unit := modify (λ s, set_ports (ports s ++ [(port, u8 v)]) s).
Definition printf (format : list Z) (args : list arg) : I unit :=
  let* out := lift (vprintf format args) in modify (λ s, set_console (console s ++ out) s).

(** An entry of a table with 256 entries. *)
Definition entry {A} (l : list A) (i : Z) : option A := if i <? 0 then None else l !! Z.to_nat i.
Definition upd {A} (i : Z) (x : A) (l : list A) : list A := <[Z.to_nat i := x]> l.

(** ** The interrupt flag *)

Definition intr_context : I bool := gets in_external_intr.
Definition intr_get_level : I bool := gets intr_on.
Definition intr_enable : I bool :=
  let* old := intr_get_level in
  (let* c := intr_context in assert (negb c)) ;;;
  modify (set_on true) ;;; ret old.
Definition intr_disable : I bool := let* old := intr_get_level in modify (set_on false) ;;; ret old.
Definition intr_set_level (level : bool) : I bool := if level then intr_enable else intr_disable.

Definition intr_yield_on_return : I unit := (let* c := intr_context in assert c) ;;; modify (set_yield true).

(** ** The interrupt controllers and the timer chip *)

Definition pic_init : I unit :=
  outb PIC0_DATA 255 ;;; outb PIC1_DATA 255 ;;;
  outb PIC0_CTRL 17 ;;; outb PIC0_DATA 32 ;;; outb PIC0_DATA 4 ;;; outb PIC0_DATA 1 ;;;
  outb PIC1_CTRL 17 ;;; outb PIC1_DATA 40 ;;; outb PIC1_DATA 2 ;;; outb PIC1_DATA 1 ;;;
  outb PIC0_DATA 0 ;;; outb PIC1_DATA 0.

Definition pic_end_of_interrupt (irq : Z) : I unit :=
  assert ((32 <=? irq) && (irq <? 48)) ;;;
  outb 32 32 ;;;
  if 40 <=? irq then outb 160 32 else ret tt.

Definition PIT_HZ : Z := 1193180.

(** The counter value for a frequency. *)
Definition pit_count (frequency : Z) : Z :=
  if frequency <? 19 then 0
  else if PIT_HZ <? frequency then 2
  else u16 ((PIT_HZ + frequency / 2) / frequency).

Definition pit_configure_channel (channel mode frequency : Z) : I unit :=
  assert ((channel =? 0) || (channel =? 2)) ;;;
  assert ((mode =? 2) || (mode =? 3)) ;;;
  let count := pit_count frequency in
  let* old := intr_disable in
  outb 67 (Z.lor (Z.lor (Z.shiftl channel 6) 48) (Z.shiftl mode 1)) ;;;
  outb (64 + channel) count ;;;
  outb (64 + channel) (Z.shiftr count 8) ;;;
  (let* _ := intr_set_level old in ret tt).

(** ** Set-up and registration *)

(** The stubs of intr-stubs.S by vector, and the address of the table. *)
Context (intr_stubs : Z → Z) (idt_addr : Z).

Definition known_names : list (Z * list Z) :=
  [(0, chars "#DE Divide Error"); (1, chars "#DB Debug Exception"); (2, chars "NMI Interrupt");
   (3, chars "#BP Breakpoint Exception"); (4, chars "#OF Overflow Exception"); (5, chars "#BR BOUND Range Exceeded Exception");
   (6, chars "#UD Invalid Opcode Exception"); (7, chars "#NM Device Not Available Exception"); (8, chars "#DF Double Fault Exception");
   (9, chars "Coprocessor Segment Overrun"); (10, chars "#TS Invalid TSS Exception"); (11, chars "#NP Segment Not Present");
   (12, chars "#SS Stack Fault Exception"); (13, chars "#GP General Protection Exception"); (14, chars "#PF Page-Fault Exception");
   (16, chars "#MF x87 FPU Floating-Point Error"); (17, chars "#AC Alignment Check Exception"); (18, chars "#MC Machine-Check Exception");
   (19, chars "#XF SIMD Floating-Point Exception")].

Definition intr_init : I unit :=
  pic_init ;;;
  for_range (Z.to_nat INTR_CNT) 0 (λ i, let* g := lift (make_intr_gate (intr_stubs i) 0) in modify (λ s, set_idt (upd i g (idt s)) s)) ;;;
  modify (set_idtr (make_idtr_operand (8 * INTR_CNT - 1) idt_addr)) ;;;
  for_range (Z.to_nat INTR_CNT) 0 (λ i, modify (λ s, set_names (upd i (chars "unknown") (intr_names s)) s)) ;;;
  modify (λ s, set_names (fold_left (λ l e, upd e.1 e.2 l) known_names (intr_names s)) s).

(** [level] is true for [INTR_ON]. *)
Definition register_handler (vec_no dpl : Z) (level : bool) (h : handler) (name : list Z) : I unit :=
  let* hs := gets intr_handlers in
  let* old := need (entry hs vec_no) in
  assert (match old with None => true | Some _ => false end) ;;;
  (let* g := lift (if level then make_trap_gate (intr_stubs vec_no) dpl else make_intr_gate (intr_stubs vec_no) dpl) in
   modify (λ s, set_idt (upd vec_no g (idt s)) s)) ;;;
  modify (λ s, set_handlers (upd vec_no (Some h) (intr_handlers s)) s) ;;;
  modify (λ s, set_names (upd vec_no name (intr_names s)) s).

Definition intr_register_ext (vec_no : Z) (h : handler) (name : list Z) : I unit :=
  assert ((32 <=? vec_no) && (vec_no <=? 47)) ;;;
  register_handler vec_no 0 false h name.
Definition intr_register_int (vec_no dpl : Z) (level : bool) (h : handler) (name : list Z) : I unit :=
  assert ((vec_no <? 32) || (47 <? vec_no)) ;;;
  register_handler vec_no dpl level h name.

Definition TIMER_FREQ : Z := 100.
Definition timer_init : I unit := pit_configure_channel 0 2 TIMER_FREQ ;;; intr_register_ext 32 timer_interrupt (chars "8254 Timer").
Definition kbd_init : I unit := intr_register_ext 33 keyboard_interrupt (chars "8042 Keyboard").
Definition exception_init : I unit :=
  intr_register_int 3 3 true kill (chars "#BP Breakpoint Exception") ;;;
  intr_register_int 4 3 true kill (chars "#OF Overflow Exception") ;;;
  intr_register_int 5 3 true kill (chars "#BR BOUND Range Exceeded Exception") ;;;
  intr_register_int 0 0 true kill (chars "#DE Divide Error") ;;;
  intr_register_int 1 0 true kill (chars "#DB Debug Exception") ;;;
  intr_register_int 6 0 true kill (chars "#UD Invalid Opcode Exception") ;;;
  intr_register_int 7 0 true kill (chars "#NM Device Not Available Exception") ;;;
  intr_register_int 11 0 true kill (chars "#NP Segment Not Present") ;;;
  intr_register_int 12 0 true kill (chars "#SS Stack Fault Exception") ;;;
  intr_register_int 13 0 true kill (chars "#GP General Protection Exception") ;;;
  intr_register_int 16 0 true kill (chars "#MF x87 FPU Floating-Point Error") ;;;
  intr_register_int 19 0 true kill (chars "#XF SIMD Floating-Point Exception") ;;;
  intr_register_int 14 0 false page_fault (chars "#PF Page-Fault Exception").
Definition syscall_init : I unit := intr_register_int 48 3 true syscall_handler (chars "syscall").
(** The registrations of [serial_init_queue] and of the two channels of [ide_init]. *)
Definition serial_register : I unit := intr_register_ext (32 + 4) serial_interrupt (chars "serial").
Definition ide_register : I unit :=
  intr_register_ext (14 + 32) interrupt_handler (chars "ide0") ;;; intr_register_ext (15 + 32) interrupt_handler (chars "ide1").

(** What [thread_start] does to the interrupt flag; its idle thread is in [Threads]. *)
Definition thread_start : I unit := let* _ := intr_enable in ret tt.

(** The calls of [main] that fill the tables, in their order: the last three registrations
    are made with interrupts on. *)
Definition main_interrupts : I unit :=
  intr_init ;;; timer_init ;;; kbd_init ;;; exception_init ;;; syscall_init ;;; thread_start ;;; serial_register ;;; ide_register.

(** ** Dispatch *)

(** The handlers, and [thread_yield]. *)
Context (invoke : handler → Z → I unit) (thread_yield : I unit).

Definition unexpected_interrupt (vec_no : Z) : I unit :=
  let* cnt := gets unexpected_cnt in
  let* c := need (entry cnt vec_no) in
  let n := u32 (c + 1) in
  modify (set_unexpected (upd vec_no n cnt)) ;;;
  if Z.land n (u32 (n - 1)) =? 0 then
    let* names := gets intr_names in
    let* name := need (entry names vec_no) in
    printf (chars "Unexpected interrupt %#04x (%s)" ++ [10]) [I32 vec_no; Str (Some name)]
  else ret tt.

Definition is_external (vec_no : Z) : bool := (32 <=? vec_no) && (vec_no <? 48).

Definition intr_handler (vec_no : Z) : I unit :=
  let external := is_external vec_no in
  (if external then
     (let* on := intr_get_level in assert (negb on)) ;;;
     (let* c := intr_context in assert (negb c)) ;;;
     modify (set_external true) ;;;
     modify (set_yield false)
   else ret tt) ;;;
  let* hs := gets intr_handlers in
  let* h := need (entry hs vec_no) in
  (match h with
   | Some h => invoke h vec_no
   | None => if (vec_no =? 39) || (vec_no =? 47) then ret tt else unexpected_interrupt vec_no
   end) ;;;
  if external then
    (let* on := intr_get_level in assert (negb on)) ;;;
    (let* c := intr_context in assert c) ;;;
    modify (set_external false) ;;;
    pic_end_of_interrupt vec_no ;;;
    (let* y := gets yield_on_return in if y then thread_yield else ret tt)
  else ret tt.

(** ** The processor's view *)

Definition gate_of (s : intr W) (vec_no : Z) : option gate := decode_gate <$> entry (idt s) vec_no.

(** Whether the instruction [int] may use a gate from privilege level [cpl]. *)
Definition int_allowed (cpl : Z) (g : gate) : bool := cpl <=? g_dpl g.

(** Taking an interrupt: an interrupt gate clears the flag, and returning restores it. *)
Definition take_interrupt (vec_no : Z) : I unit :=
  let* s := gets id in
  let* g := need (gate_of s vec_no) in
  (if g_type g =? 14 then modify (set_on false) else ret tt) ;;;
  intr_handler vec_no ;;;
  modify (set_on (intr_on s)).

(** ** Tables *)

Lemma entry_upd {A} (l : list A) v x j : 0 <= v < Z.of_nat (length l) → entry (upd v x l) j = if j =? v then Some x else entry l j.
Proof.
  intros Hv. unfold entry, upd. destruct (Z.ltb_spec j 0), (Z.eqb_spec j v); try lia; try done.
  - subst. by rewrite list_lookup_insert_eq by lia.
  - by rewrite list_lookup_insert_ne by lia.
Qed.
Lemma length_upd {A} (l : list A) v x : length (upd v x l) = length l.
Proof. apply length_insert. Qed.

(** [l] is the table with the entries [f]. *)
Definition is_table {A} (l : list A) (f : Z → A) : Prop := length l = 256%nat ∧ ∀ j, 0 <= j < 256 → entry l j = Some (f j).

Lemma table_upd {A} (l : list A) f v x : is_table l f → 0 <= v < 256 → is_table (upd v x l) (λ j, if j =? v then x else f j).
Proof. intros [Hl Hf] Hv. split; [by rewrite length_upd|]. intros j Hj. rewrite entry_upd, Hf by lia. by destruct (j =? v). Qed.

(** Filling a table entry by entry. *)
Lemma fill_run {A} (get : intr W → list A) (set : list A → intr W → intr W) body (f : Z → A) :
  (∀ x s, get (set x s) = x) → (∀ x y s, set x (set y s) = set x s) → (∀ s, set (get s) s = s) →
  (∀ i s, 0 <= i < 256 → body i s = Ok (tt, set (upd i (f i) (get s)) s)) →
  ∀ s, length (get s) = 256%nat → ∃ l, for_range 256 0 body s = Ok (tt, set l s) ∧ is_table l f.
Proof.
  intros H1 H2 H3 Hb s Hs.
  assert (Hn : ∀ n i s, 0 <= i → i + Z.of_nat n <= 256 → length (get s) = 256%nat → (∀ j, 0 <= j < i → entry (get s) j = Some (f j)) →
    ∃ l, for_range n i body s = Ok (tt, set l s) ∧ length l = 256%nat ∧ ∀ j, 0 <= j < i + Z.of_nat n → entry l j = Some (f j)).
  { induction n as [|n IH]; intros i s0 Hi Hin Hl Hj.
    - exists (get s0). rewrite H3. split; [done|]. split; [done|]. intros. apply Hj. lia.
    - cbn [for_range]. unfold bind. rewrite Hb by lia.
      destruct (IH (i + 1) (set (upd i (f i) (get s0)) s0)) as (l & E & Hl' & Hf); [lia|lia|by rewrite H1, length_upd| |].
      { intros j Hij. rewrite H1, entry_upd by lia. destruct (Z.eqb_spec j i) as [->|]; [done|]. apply Hj. lia. }
      exists l. rewrite E, H2. split; [done|]. split; [done|]. intros j Hj'. apply Hf. lia. }
  destruct (Hn 256%nat 0 s) as (l & E & Hl & Hf); try done; [lia|]. exists l. split; [done|]. split; [done|]. intros. apply Hf. lia.
Qed.

(** ** Set-up *)

(** The tables of a state that agrees with [s0] on the rest, interrupts apart. *)
Record tables (on : bool) (s0 : intr W) (G : Z → gate) (H : Z → option handler) (s : intr W) : Prop := {
  tb_gates : length (idt s) = 256%nat ∧ ∀ j, 0 <= j < 256 → gate_of s j = Some (G j);
  tb_handlers : is_table (intr_handlers s) H;
  tb_names : length (intr_names s) = 256%nat;
  tb_on : intr_on s = on;
  tb_external : in_external_intr s = in_external_intr s0;
  tb_counts : unexpected_cnt s = unexpected_cnt s0;
  tb_world : world s = world s0
}.

Definition stubs_ok : Prop := ∀ v, 0 <= v < 256 → 0 < intr_stubs v < 2 ^ 32.

(** The gate for a vector's stub. *)
Definition stub_gate (v dpl : Z) (level : bool) : gate := mk_gate (intr_stubs v) 8 (if level then 15 else 14) 0 dpl 1.

Lemma register_run on s0 G H s v dpl level h name : stubs_ok → tables on s0 G H s → 0 <= v < 256 → H v = None → 0 <= dpl <= 3 →
  ∃ s', register_handler v dpl level h name s = Ok (tt, s') ∧ ports s' = ports s ∧
    tables on s0 (λ j, if j =? v then stub_gate v dpl level else G j) (λ j, if j =? v then Some h else H j) s'.
Proof.
  intros Hst [[T1l T1] [T2l T2] T3 T4 T5 T6 T7] Hv HN Hd.
  destruct (decode_make (intr_stubs v) dpl (if level then 15 else 14) (Hst v Hv) Hd ltac:(destruct level; lia)) as (g & Eg & Dg).
  eexists. split; [|split].
  - unfold register_handler, bind, gets. rewrite (T2 v Hv), HN. unfold need, assert, ret. cbn [option_map].
    replace (if level then make_trap_gate (intr_stubs v) dpl else make_intr_gate (intr_stubs v) dpl) with (Ok g : res Z) by (by destruct level).
    reflexivity.
  - done.
  - split; cbn; try done; [|split; [by rewrite length_upd|]|by rewrite length_upd].
    + split; [by rewrite length_upd|]. intros j Hj. unfold gate_of in *. cbn. rewrite entry_upd by lia. destruct (Z.eqb_spec j v); [cbn; by rewrite Dg|by apply T1].
    + intros j Hj. rewrite entry_upd by lia. destruct (j =? v); [done|by apply T2].
Qed.

Lemma register_ext_run on s0 G H s v h name : stubs_ok → tables on s0 G H s → 32 <= v <= 47 → H v = None →
  ∃ s', intr_register_ext v h name s = Ok (tt, s') ∧ ports s' = ports s ∧
    tables on s0 (λ j, if j =? v then stub_gate v 0 false else G j) (λ j, if j =? v then Some h else H j) s'.
Proof.
  intros Hst Ht Hv HN. unfold intr_register_ext. unfold bind. rewrite assert_true by lia. by apply register_run; try lia.
Qed.

Lemma register_int_run on s0 G H s v dpl level h name : stubs_ok → tables on s0 G H s → 0 <= v < 256 → v < 32 ∨ 47 < v → H v = None → 0 <= dpl <= 3 →
  ∃ s', intr_register_int v dpl level h name s = Ok (tt, s') ∧ ports s' = ports s ∧
    tables on s0 (λ j, if j =? v then stub_gate v dpl level else G j) (λ j, if j =? v then Some h else H j) s'.
Proof.
  intros Hst Ht Hv Hx HN Hd. unfold intr_register_int. unfold bind. rewrite assert_true by lia. by apply register_run.
Qed.

(** The ports that initialise the interrupt controllers. *)
Definition pic_setup : list (Z * Z) :=
  [(33, 255); (161, 255); (32, 17); (33, 32); (33, 4); (33, 1); (160, 17); (161, 40); (161, 2); (161, 1); (33, 0); (161, 0)].

Lemma length_names (l : list (list Z)) es : length (fold_left (λ l e, upd e.1 e.2 l) es l) = length l.
Proof. revert l. induction es as [|e es IH]; intros l; [done|]. cbn. by rewrite IH, length_upd. Qed.

(** The tables before anything is registered. *)
Definition booting (s : intr W) : Prop :=
  length (idt s) = 256%nat ∧ is_table (intr_handlers s) (λ _, None) ∧ length (intr_names s) = 256%nat ∧
  is_table (unexpected_cnt s) (λ _, 0) ∧ in_external_intr s = false ∧ intr_on s = false.

Lemma intr_init_run s : stubs_ok → booting s →
  ∃ s', intr_init s = Ok (tt, s') ∧ ports s' = ports s ++ pic_setup ∧ tables false s (λ v, stub_gate v 0 false) (λ _, None) s'.
Proof.
  intros Hst (Hl & Hh & Hn & Hc & Hx & Ho).
  set (s1 := set_ports (ports s ++ pic_setup) s).
  assert (E1 : pic_init s = Ok (tt, s1)).
  { unfold pic_init, outb, bind, modify. cbn [ports set_ports]. unfold s1. rewrite <- !app_assoc. reflexivity. }
  unfold intr_init. rewrite (bind_ok _ _ _ _ _ E1).
  set (g := λ v, match make_intr_gate (intr_stubs v) 0 with Ok g => g | Fail _ => 0 end).
  destruct (fill_run idt set_idt (λ i, let* g := lift (make_intr_gate (intr_stubs i) 0) in modify (λ s, set_idt (upd i g (idt s)) s)) g) with (s := s1)
    as (l & E2 & Tl & Tf); try done; [by intros []| |].
  { intros i s0 Hi. destruct (decode_make (intr_stubs i) 0 14 (Hst i Hi) ltac:(lia) ltac:(lia)) as (x & E & _).
    unfold g, make_intr_gate. rewrite E. reflexivity. }
  change (Z.to_nat INTR_CNT) with 256%nat. rewrite (bind_ok _ _ _ _ _ E2). set (s2 := set_idt l s1).
  erewrite (bind_ok _ _ s2) by reflexivity.
  edestruct (fill_run intr_names set_names (λ i, modify (λ s, set_names (upd i (chars "unknown") (intr_names s)) s)) (λ _, chars "unknown"))
    as (ns & E3 & Tn & _); [done|done|by intros []|done| |rewrite (bind_ok _ _ _ _ _ E3)]; [done|].
  eexists. split; [reflexivity|]. split; [done|].
  split; [| |cbn [intr_names set_names]; rewrite length_names; exact Tn| | | |]; cbn; try done.
  split; [done|]. intros j Hj. unfold gate_of. cbn. rewrite Tf by done. cbn.
  destruct (decode_make (intr_stubs j) 0 14 (Hst j Hj) ltac:(lia) ltac:(lia)) as (x & E & D). unfold g, make_intr_gate. by rewrite E, D.
Qed.

Lemma timer_chip_run s0 G H s : tables false s0 G H s →
  ∃ s', pit_configure_channel 0 2 TIMER_FREQ s = Ok (tt, s') ∧ ports s' = ports s ++ [(67, 52); (64, 156); (64, 46)] ∧ tables false s0 G H s'.
Proof.
  intros [T1 T2 T3 T4 T5 T6 T7]. exists (set_ports (ports s ++ [(67, 52); (64, 156); (64, 46)]) s). split; [|by split].
  destruct s as [a b c d e f g on p k w]. cbn [intr_on ports] in *. subst on.
  unfold set_ports. cbn [idt idtr intr_handlers intr_names unexpected_cnt in_external_intr yield_on_return intr_on ports console world].
  change [(67, 52); (64, 156); (64, 46)] with ([(67, 52)] ++ [(64, 156)] ++ [(64, 46)]). by rewrite !app_assoc.
Qed.

(** ** The vectors of the kernel *)

(** The vectors a user program may raise, those whose handlers run with interrupts on, and
    the handlers. *)
Definition user_callable (v : Z) : bool := ((3 <=? v) && (v <=? 5)) || (v =? 48).
Definition with_interrupts (v : Z) : bool :=
  ((0 <=? v) && (v <=? 7) && negb (v =? 2)) || ((11 <=? v) && (v <=? 13)) || (v =? 16) || (v =? 19) || (v =? 48).
Definition handler_of (v : Z) : option handler :=
  if v =? 32 then Some timer_interrupt else if v =? 33 then Some keyboard_interrupt else if v =? 36 then Some serial_interrupt
  else if (v =? 46) || (v =? 47) then Some interrupt_handler else if v =? 48 then Some syscall_handler
  else if v =? 14 then Some page_fault else if with_interrupts v then Some kill else None.

Definition vector_gate (v : Z) : gate := stub_gate v (if user_callable v then 3 else 0) (with_interrupts v).

Lemma tables_ext on s0 G H G' H' s : tables on s0 G H s → (∀ v, 0 <= v < 256 → G v = G' v ∧ H v = H' v) → tables on s0 G' H' s.
Proof.
  intros [[T1l T1] [T2l T2] T3 T4 T5 T6 T7] He. split; try done; split; try done; intros j Hj; [rewrite <- (proj1 (He j Hj))|rewrite <- (proj2 (He j Hj))]; auto.
Qed.

(** One registration of a run: [T] are the tables so far and [P] the ports. *)
Ltac int_step :=
  match goal with T : tables _ _ _ _ ?s, Hst : stubs_ok, P : ports ?s = _ |- _ =>
    let s' := fresh "s" in let E := fresh "E" in let P' := fresh "P" in let T' := fresh "T" in
    edestruct (λ v dpl level h name, register_int_run _ _ _ _ _ v dpl level h name Hst T) as (s' & E & P' & T'); [..|rewrite (bind_ok _ _ _ _ _ E)]; [lia|lia|reflexivity|lia|];
    clear E T; rename T' into T; rewrite P in P'; clear P; rename P' into P
  end.

(** The vectors one by one. *)
Ltac vector_cases v :=
  repeat match goal with |- context [v =? ?c] => destruct (Z.eqb_spec v c); [subst; split; reflexivity|] end;
  destruct (Z.ltb_spec v 32); try done;
  assert (U : user_callable v = false) by (unfold user_callable; lia); assert (X : with_interrupts v = false) by (unfold with_interrupts; lia);
  unfold vector_gate, handler_of; rewrite U, X; by rewrite !(proj2 (Z.eqb_neq v _)) by lia.

Lemma exception_init_run on s0 G H s : stubs_ok → tables on s0 G H s → (∀ v, 0 <= v < 32 → G v = stub_gate v 0 false ∧ H v = None) →
  ∃ s', exception_init s = Ok (tt, s') ∧ ports s' = ports s ∧
    tables on s0 (λ v, if v <? 32 then vector_gate v else G v) (λ v, if v <? 32 then handler_of v else H v) s'.
Proof.
  intros Hst T Hg. unfold exception_init.
  eapply (tables_ext _ _ _ _ (λ v, if v <? 32 then stub_gate v 0 false else G v) (λ v, if v <? 32 then None else H v)) in T.
  2: { intros v Hv. destruct (Z.ltb_spec v 32); [|done]. destruct (Hg v ltac:(lia)) as [-> ->]. done. }
  remember (ports s) as p0 eqn:P. symmetry in P.
  do 12 int_step. destruct (register_int_run _ _ _ _ _ 14 0 false page_fault (chars "#PF Page-Fault Exception") Hst T) as (s' & E & P' & T'); [lia|lia|reflexivity|lia|].
  exists s'. split; [exact E|]. split; [congruence|].
  eapply tables_ext; [exact T'|]. intros v Hv. cbn beta.
  vector_cases v.
Qed.

Lemma thread_start_run on s0 G H s : tables on s0 G H s → in_external_intr s0 = false →
  ∃ s', thread_start s = Ok (tt, s') ∧ ports s' = ports s ∧ tables true s0 G H s'.
Proof.
  intros [T1 T2 T3 T4 T5 T6 T7] Hx. exists (set_on true s). split; [|split; [done|by split]].
  unfold thread_start, intr_enable, intr_get_level, intr_context, bind, gets, assert, modify, ret. cbn. by rewrite T5, Hx.
Qed.

(** [main_interrupts] leaves the kernel's gates and handlers. *)
Lemma vectors_run s : stubs_ok → booting s →
  ∃ s', main_interrupts s = Ok (tt, s') ∧ tables true s vector_gate handler_of s' ∧
    ports s' = ports s ++ pic_setup ++ [(67, 52); (64, 11932 mod 256); (64, 11932 / 256)].
Proof.
  intros Hst Hb. destruct (intr_init_run s Hst Hb) as (s1 & E1 & P1 & T1). destruct (timer_chip_run _ _ _ _ T1) as (s2 & E2 & P2 & T2).
  unfold main_interrupts, timer_init. rewrite (bind_ok _ _ _ _ _ E1), bind_assoc, (bind_ok _ _ _ _ _ E2).
  destruct (register_ext_run _ _ _ _ s2 32 timer_interrupt (chars "8254 Timer") Hst T2 ltac:(lia) eq_refl) as (s3 & E3 & P3 & T3). rewrite (bind_ok _ _ _ _ _ E3).
  destruct (register_ext_run _ _ _ _ s3 33 keyboard_interrupt (chars "8042 Keyboard") Hst T3 ltac:(lia) eq_refl) as (s4 & E4 & P4 & T4). rewrite (bind_ok _ _ _ _ _ E4).
  edestruct (exception_init_run _ _ _ _ s4 Hst T4) as (s5 & E5 & P5 & T5); [|rewrite (bind_ok _ _ _ _ _ E5)].
  { intros v Hv. by rewrite !(proj2 (Z.eqb_neq v _)) by lia. }
  destruct (register_int_run _ _ _ _ s5 48 3 true syscall_handler (chars "syscall") Hst T5 ltac:(lia) ltac:(lia) eq_refl ltac:(lia)) as (s6 & E6 & P6 & T6).
  rewrite (bind_ok _ _ _ _ _ E6). destruct (thread_start_run _ _ _ _ _ T6 ltac:(apply Hb)) as (s6' & E6' & P6' & T6'). rewrite (bind_ok _ _ _ _ _ E6').
  destruct (register_ext_run _ _ _ _ s6' 36 serial_interrupt (chars "serial") Hst T6' ltac:(lia) eq_refl) as (s7 & E7 & P7 & T7). rewrite (bind_ok _ _ _ _ _ E7).
  destruct (register_ext_run _ _ _ _ s7 46 interrupt_handler (chars "ide0") Hst T7 ltac:(lia) eq_refl) as (s8 & E8 & P8 & T8).
  destruct (register_ext_run _ _ _ _ s8 47 interrupt_handler (chars "ide1") Hst T8 ltac:(lia) eq_refl) as (s9 & E9 & P9 & T9).
  unfold ide_register. rewrite (bind_ok _ _ _ _ _ E8). exists s9. split; [exact E9|]. split.
  - eapply tables_ext; [exact T9|]. intros v Hv. cbn beta. vector_cases v.
  - rewrite P9, P8, P7, P6', P6, P5, P4, P3, P2, P1, <- app_assoc. done.
Qed.

Lemma below_256 (b : Z → bool) : forallb (λ i, b (Z.of_nat i)) (seq 0 256) = true → ∀ v, 0 <= v < 256 → b v = true.
Proof.
  intros H v Hv. rewrite forallb_forall in H. specialize (H (Z.to_nat v)). rewrite Z2Nat.id in H by lia. apply H, in_seq. lia.
Qed.

Lemma kept_on v : 0 <= v < 256 → with_interrupts v = match handler_of v with Some kill | Some syscall_handler => true | _ => false end.
Proof.
  intros Hv. apply eqb_prop.
  apply (below_256 (λ v, eqb (with_interrupts v) match handler_of v with Some kill | Some syscall_handler => true | _ => false end)); [vm_compute; reflexivity|done].
Qed.

(** C27: when [main] has filled the tables, which it does without a failed assertion and
    with interrupts on from [thread_start] to the end, each vector's gate leads to its own stub
    in the kernel's code segment; user programs can raise only the breakpoint, overflow and
    bound exceptions and system calls.  Interrupts go off on entry for external interrupts,
    for page faults and for every vector without a handler, and stay as they were exactly for
    the exceptions whose handler is [kill] and for system calls.  The interrupt controllers
    deliver to vectors from 32 on and the timer chip counts down from 11932, a hundred times a
    second. *)
Theorem vectors_correct s : stubs_ok → booting s →
  ∃ s', main_interrupts s = Ok (tt, s') ∧
    (∀ v, 0 <= v < 256 → gate_of s' v =
       Some (mk_gate (intr_stubs v) SEL_KCSEG (if with_interrupts v then 15 else 14) 0 (if user_callable v then 3 else 0) 1)) ∧
    (∀ v g, 0 <= v < 256 → gate_of s' v = Some g → int_allowed 3 g = user_callable v) ∧
    is_table (intr_handlers s') handler_of ∧
    (∀ v, 0 <= v < 256 → with_interrupts v = match handler_of v with Some kill | Some syscall_handler => true | _ => false end) ∧
    in_external_intr s' = false ∧ intr_on s' = true ∧ unexpected_cnt s' = unexpected_cnt s ∧
    ports s' = ports s ++ pic_setup ++ [(67, 52); (64, 11932 mod 256); (64, 11932 / 256)].
Proof.
  intros Hst Hb. destruct (vectors_run s Hst Hb) as (s' & E & T & P). exists s'. split; [done|].
  destruct T as [[_ G] H _ Ho Hx Hc _]. split; [exact G|]. split.
  { intros v g Hv Hg. rewrite (G v Hv) in Hg. injection Hg as <-. unfold int_allowed. cbn. by destruct (user_callable v). }
  split; [done|]. split; [apply kept_on|]. split; [rewrite Hx; apply Hb|]. done.
Qed.

(** ** Unexpected interrupts *)

Definition hex_digit (x : Z) : Z := if x <? 10 then 48 + x else 87 + x.
(** ["%#04x"] of a vector: zero has no prefix. *)
Definition vector_text (v : Z) : list Z := if v =? 0 then [48; 48; 48; 48] else [48; 120; hex_digit (v / 16); hex_digit (v mod 16)].
Definition unexpected_text (v : Z) (name : list Z) : list Z :=
  chars "Unexpected interrupt " ++ vector_text v ++ chars " (" ++ name ++ chars ")" ++ [10].

Lemma format_vector n v rest args : 0 <= v < 256 →
  __vprintf (S n) (37 :: 35 :: 48 :: 52 :: 120 :: rest) (I32 v :: args) = rbind (__vprintf n rest args) (λ more, Ok (vector_text v ++ more)).
Proof.
  intros Hv.
  assert (E : format_integer (u32 v) false false base_x (mk_conv false false false true true false 4 (-1) INT) = Ok (vector_text v)).
  { set (r := λ v, format_integer (u32 v) false false base_x (mk_conv false false false true true false 4 (-1) INT)). change (r v = Ok (vector_text v)).
    assert (H : ∀ v, 0 <= v < 256 → match r v with Ok l => bool_decide (l = vector_text v) | Fail _ => false end = true).
    { apply below_256. vm_compute. reflexivity. }
    specialize (H v Hv). destruct (r v); [|done]. apply bool_decide_eq_true in H. by subst. }
  change (__vprintf (S n) (37 :: 35 :: 48 :: 52 :: 120 :: rest) (I32 v :: args)) with
    (rbind (rbind (format_integer (u32 v) false false base_x (mk_conv false false false true true false 4 (-1) INT)) (λ out, Ok (out, args)))
      (λ p, let '(out, args) := p in rbind (__vprintf n rest args) (λ more, Ok (out ++ more)))).
  by rewrite E.
Qed.

Lemma unexpected_format v name : 0 <= v < 256 →
  vprintf (chars "Unexpected interrupt %#04x (%s)" ++ [10]) [I32 v; Str (Some name)] = Ok (unexpected_text v name).
Proof.
  intros Hv. unfold vprintf, unexpected_text. change (chars "Unexpected interrupt %#04x (%s)" ++ [10]) with
    (chars "Unexpected interrupt " ++ 37 :: 35 :: 48 :: 52 :: 120 :: 32 :: 40 :: 37 :: 115 :: 41 :: [10]).
  cbn -[__vprintf vector_text Z.mul].
  repeat rewrite format_literal by done. rewrite format_vector by done. repeat rewrite format_literal by done. rewrite format_percent_s.
  repeat rewrite format_literal by done. reflexivity.
Qed.

Lemma power_of_2 n : 1 <= n → (Z.land n (n - 1) =? 0) = bool_decide (n = 2 ^ Z.log2 n).
Proof.
  intros Hn. pose proof (Z.log2_spec n ltac:(lia)) as Hk. pose proof (Z.log2_nonneg n) as H0. set (k := Z.log2 n) in *.
  destruct (decide (n = 2 ^ k)) as [Hp|Hne].
  - assert (E : Z.land (2 ^ k) (2 ^ k - 1) = 0).
    { rewrite Z.sub_1_r, <- Z.ones_equiv, Z.land_ones by done. apply Z.mod_same, Z.pow_nonzero; lia. }
    rewrite <- Hp in E. by rewrite E, bool_decide_true.
  - rewrite bool_decide_false by done. apply Z.eqb_neq. intros E. assert (T : Z.testbit (Z.land n (n - 1)) k = true).
    { unfold Z.succ in Hk. assert (H1 : Z.log2 (n - 1) = k) by (apply Z.log2_unique; lia).
      rewrite Z.land_spec. rewrite <- H1 at 2. rewrite (Z.bit_log2 (n - 1)); [unfold k; by rewrite Z.bit_log2 by lia|].
      assert (0 < 2 ^ k) by (apply Z.pow_pos_nonneg; lia). lia. }
    by rewrite E, Z.bits_0 in T.
Qed.

Lemma log2_step n : 1 <= n → Z.log2 (n + 1) = Z.log2 n + (if Z.land (n + 1) n =? 0 then 1 else 0).
Proof.
  intros Hn. pose proof (power_of_2 (n + 1) ltac:(lia)) as E. replace (n + 1 - 1) with n in E by lia. rewrite E.
  case_bool_decide as Hp.
  - assert (Z.log2 (Z.succ n) = Z.succ (Z.log2 n)); [|unfold Z.succ in *; lia]. apply Z.log2_eq_succ_iff_pow2; [lia|]. eauto.
  - destruct (Z.log2_succ_or n) as [H|H]; [|unfold Z.succ in *; lia].
    apply Z.log2_eq_succ_iff_pow2 in H as [b Hb]; [|lia]. destruct Hp. unfold Z.succ in Hb. rewrite Hb. rewrite Z.log2_pow2; [done|].
    destruct (Z.lt_ge_cases b 0); [|done]. rewrite Z.pow_neg_r in Hb by done. lia.
Qed.

Lemma unexpected_run v s c name : 0 <= v < 256 → length (unexpected_cnt s) = 256%nat → entry (unexpected_cnt s) v = Some c → entry (intr_names s) v = Some name →
  let n := u32 (c + 1) in
  unexpected_interrupt v s = Ok (tt, set_console (console s ++ (if Z.land n (u32 (n - 1)) =? 0 then unexpected_text v name else []))
                                       (set_unexpected (upd v n (unexpected_cnt s)) s)).
Proof.
  intros Hv Hl Hc Hn n. unfold unexpected_interrupt. rewrite (bind_ok _ _ s (unexpected_cnt s) s eq_refl).
  rewrite (bind_ok _ _ s c s) by (by apply need_some). fold n. set (s1 := set_unexpected (upd v n (unexpected_cnt s)) s).
  erewrite (bind_ok _ _ s) by reflexivity. fold s1. destruct (_ =? 0).
  - rewrite (bind_ok _ _ s1 (intr_names s) s1 eq_refl), (bind_ok _ _ s1 name s1) by (by apply need_some).
    unfold printf. rewrite unexpected_format by done. reflexivity.
  - unfold ret. rewrite app_nil_r. by destruct s.
Qed.

(** [n] times the same operation. *)
Fixpoint repeat_run (n : nat) (m : I unit) : I unit := match n with O => ret tt | S n' => repeat_run n' m ;;; m end.

(** Outside of interrupts, with interrupts off. *)
Definition quiet (s : intr W) : Prop := intr_on s = false ∧ in_external_intr s = false.

(** The ports written to acknowledge an external interrupt. *)
Definition acknowledge (v : Z) : list (Z * Z) := (32, 32) :: (if 40 <=? v then [(160, 32)] else []).

Lemma end_of_interrupt_run v s : is_external v = true → pic_end_of_interrupt v s = Ok (tt, set_ports (ports s ++ acknowledge v) s).
Proof.
  intros Hv. unfold pic_end_of_interrupt, acknowledge. unfold bind at 1. rewrite assert_true by done. unfold bind, outb, modify, ret.
  destruct (40 <=? v); cbn; [|done]. by rewrite <- app_assoc.
Qed.

(** What runs between the two halves of [intr_handler]. *)
Definition service (h : option handler) (v : Z) : I unit :=
  match h with Some h => invoke h v | None => if (v =? 39) || (v =? 47) then ret tt else unexpected_interrupt v end.

Definition entered (s : intr W) : intr W := set_yield false (set_external true s).

Lemma bind_unit (m : I unit) s : (m ;;; ret tt) s = m s.
Proof. unfold bind, ret. by destruct (m s) as [[[] ?]|?]. Qed.

Lemma intr_handler_internal v h s : is_external v = false → entry (intr_handlers s) v = Some h →
  intr_handler v s = service h v s.
Proof.
  intros Hx Hh. unfold intr_handler. rewrite Hx. rewrite (bind_ok _ _ s tt s eq_refl), (bind_ok _ _ s (intr_handlers s) s eq_refl).
  rewrite (bind_ok _ _ s h s) by (by apply need_some). apply bind_unit.
Qed.

Lemma intr_handler_external v h s s1 : is_external v = true → quiet s → entry (intr_handlers s) v = Some h →
  service h v (entered s) = Ok (tt, s1) → intr_on s1 = false → in_external_intr s1 = true →
  intr_handler v s = (if yield_on_return s1 then thread_yield else ret tt) (set_ports (ports s1 ++ acknowledge v) (set_external false s1)).
Proof.
  intros Hx [Ho Hn] Hh Hs H1 H2. unfold intr_handler. rewrite Hx.
  rewrite (bind_ok _ _ s tt (entered s)) by (unfold intr_get_level, intr_context, bind, gets, assert, modify, ret; cbn; rewrite Ho; cbn; rewrite Hn; reflexivity).
  rewrite (bind_ok _ _ (entered s) (intr_handlers s) (entered s) eq_refl), (bind_ok _ _ (entered s) h (entered s)) by (by apply need_some).
  rewrite (bind_ok _ _ _ _ _ Hs). rewrite (bind_ok _ _ s1 tt s1) by (unfold intr_get_level, bind, gets, assert, ret; cbn; rewrite H1; reflexivity).
  rewrite (bind_ok _ _ s1 tt s1) by (unfold intr_context, bind, gets, assert, ret; cbn; rewrite H2; reflexivity).
  erewrite (bind_ok _ _ s1) by reflexivity. rewrite (bind_ok _ _ _ _ _ (end_of_interrupt_run v (set_external false s1) Hx)).
  reflexivity.
Qed.

(** The messages of [n] unexpected interrupts: one for each power of two reached. *)
Definition messages (n : nat) (v : Z) (name : list Z) : list Z :=
  concat (replicate (if decide (n = 0%nat) then 0%nat else Z.to_nat (Z.log2 (Z.of_nat n) + 1)) (unexpected_text v name)).

Lemma messages_step n v name : Z.of_nat n + 1 < 2 ^ 32 →
  messages (S n) v name = messages n v name ++
    (if Z.land (u32 (Z.of_nat n + 1)) (u32 (u32 (Z.of_nat n + 1) - 1)) =? 0 then unexpected_text v name else []).
Proof.
  intros Hb. assert (E1 : u32 (Z.of_nat n + 1) = Z.of_nat n + 1) by (apply u32_id; int_lia). rewrite E1.
  assert (E2 : u32 (Z.of_nat n + 1 - 1) = Z.of_nat n) by (rewrite u32_id by int_lia; lia). rewrite E2.
  unfold messages. rewrite decide_False by lia. destruct n as [|n].
  - rewrite decide_True by done. change (Z.to_nat (Z.log2 (Z.of_nat 1) + 1)) with 1%nat. change (Z.land (Z.of_nat 0 + 1) (Z.of_nat 0) =? 0) with true.
    cbn [replicate concat app]. by rewrite app_nil_r.
  - rewrite decide_False by lia. rewrite (Nat2Z.inj_succ (S n)). unfold Z.succ. rewrite log2_step by lia. set (k := Z.of_nat (S n)).
    pose proof (Z.log2_nonneg k). destruct (_ =? 0).
    + replace (Z.to_nat (Z.log2 k + 1 + 1)) with (Z.to_nat (Z.log2 k + 1) + 1)%nat by lia. rewrite replicate_add, concat_app. cbn. by rewrite app_nil_r.
    + by rewrite Z.add_0_r, app_nil_r.
Qed.

(** One unexpected interrupt more. *)
Lemma unexpected_step v c name s : 0 <= v < 256 → entry (intr_handlers s) v = Some None → (v =? 39) || (v =? 47) = false → quiet s →
  length (unexpected_cnt s) = 256%nat → entry (unexpected_cnt s) v = Some c → entry (intr_names s) v = Some name →
  let n := u32 (c + 1) in
  ∃ s', intr_handler v s = Ok (tt, s') ∧ intr_handlers s' = intr_handlers s ∧ intr_names s' = intr_names s ∧ quiet s' ∧
    unexpected_cnt s' = upd v n (unexpected_cnt s) ∧
    console s' = console s ++ (if Z.land n (u32 (n - 1)) =? 0 then unexpected_text v name else []).
Proof.
  intros Hv Hh H39 Hq Hl Hc Hn n. destruct (is_external v) eqn:Hx.
  - pose proof (unexpected_run v (entered s) c name Hv Hl Hc Hn) as E. destruct Hq as [Ho Hx2].
    cbv zeta in E. fold n in E. erewrite (intr_handler_external v None s); [|done|by split|done|unfold service; rewrite H39; exact E|exact Ho|done].
    cbn [yield_on_return set_console set_unexpected entered set_yield]. unfold ret. eexists. split; [reflexivity|].
    cbn. done.
  - rewrite (intr_handler_internal v None s Hx Hh). unfold service. rewrite H39, (unexpected_run v s c name Hv Hl Hc Hn).
    eexists. split; [reflexivity|]. cbn. done.
Qed.

(** An interrupt without a handler is counted, and reported the first time, the second,
    the fourth and so on: after [n] of them the console has a message for each power of two
    up to [n], with the vector in hexadecimal and its name, and nothing else. *)
Theorem unexpected_reported v name s n : 0 <= v < 256 → entry (intr_handlers s) v = Some None → v ≠ 39 → v ≠ 47 → quiet s →
  length (unexpected_cnt s) = 256%nat → entry (unexpected_cnt s) v = Some 0 → entry (intr_names s) v = Some name → (0 < n)%nat → Z.of_nat n < 2 ^ 32 →
  ∃ s', repeat_run n (intr_handler v) s = Ok (tt, s') ∧ entry (unexpected_cnt s') v = Some (Z.of_nat n) ∧ quiet s' ∧
    console s' = console s ++ concat (replicate (Z.to_nat (Z.log2 (Z.of_nat n) + 1)) (unexpected_text v name)).
Proof.
  intros Hv Hh H1 H2 Hq Hl Hc Hn Hn0 Hb. assert (H39 : (v =? 39) || (v =? 47) = false) by lia.
  assert (Hm : ∀ k, (k <= n)%nat → ∃ s', repeat_run k (intr_handler v) s = Ok (tt, s') ∧ intr_handlers s' = intr_handlers s ∧ intr_names s' = intr_names s ∧
    quiet s' ∧ length (unexpected_cnt s') = 256%nat ∧ entry (unexpected_cnt s') v = Some (Z.of_nat k) ∧ console s' = console s ++ messages k v name).
  { induction k as [|k IH]; intros Hk; [exists s; cbn; by rewrite app_nil_r|].
    destruct IH as (s1 & E & Fh & Fn & Fq & Fl & Fc & Fo); [lia|]. cbn [repeat_run]. rewrite (bind_ok _ _ _ _ _ E).
    destruct (unexpected_step v (Z.of_nat k) name s1) as (s2 & E2 & Gh & Gn & Gq & Gc & Go); try done; [by rewrite Fh|by rewrite Fn|].
    exists s2. split; [done|]. split; [congruence|]. split; [congruence|]. split; [done|]. rewrite Gc. split; [by rewrite length_upd|]. split.
    - rewrite entry_upd, Z.eqb_refl, u32_id by int_lia. f_equal. lia.
    - rewrite Go, Fo, messages_step by lia. by rewrite app_assoc. }
  destruct (Hm n ltac:(lia)) as (s' & E & _ & _ & Fq & _ & Fc & Fo). exists s'. split; [done|]. split; [done|]. split; [done|].
  rewrite Fo. unfold messages. by rewrite decide_False by lia.
Qed.

(** The state after [main_interrupts]. *)
Definition live (s : intr W) : Prop :=
  (∀ v, 0 <= v < 256 → gate_of s v = Some (vector_gate v)) ∧ is_table (intr_handlers s) handler_of ∧
  length (unexpected_cnt s) = 256%nat ∧ length (intr_names s) = 256%nat.

(** What the handlers of external interrupts promise: they return, do not turn interrupts on
    and do not leave the interrupt. *)
Definition external_handlers_ok : Prop := ∀ h v s, is_external v = true → handler_of v = Some h → intr_on s = false → in_external_intr s = true →
  ∃ s', invoke h v s = Ok (tt, s') ∧ intr_on s' = false ∧ in_external_intr s' = true.

Lemma entry_some {A} (l : list A) v : length l = 256%nat → 0 <= v < 256 → ∃ x, entry l v = Some x.
Proof.
  intros Hl Hv. unfold entry. rewrite (proj2 (Z.ltb_ge v 0)) by lia. destruct (lookup_lt_is_Some_2 l (Z.to_nat v)) as [x Hx]; [lia|]. by exists x.
Qed.

Lemma service_external v s : external_handlers_ok → is_external v = true → 0 <= v < 256 → length (unexpected_cnt s) = 256%nat → length (intr_names s) = 256%nat →
  intr_on s = false → in_external_intr s = true →
  ∃ s', service (handler_of v) v s = Ok (tt, s') ∧ intr_on s' = false ∧ in_external_intr s' = true.
Proof.
  intros Hok Hx Hv Hl Hn Ho Hi. unfold service. destruct (handler_of v) as [h|] eqn:Hh; [by eapply Hok|].
  destruct (_ || _); [by exists s|]. destruct (entry_some _ v Hl Hv) as [c Hc]. destruct (entry_some _ v Hn Hv) as [nm Hm].
  rewrite (unexpected_run v s c nm Hv Hl Hc Hm). by eexists.
Qed.

(** C28: an interrupt taken on a live table reaches its handler.  Exceptions and system calls
    run it with interrupts as they were, page faults with interrupts off.  For an external
    interrupt the assertions of the dispatcher hold; the handler, or the count of unexpected
    ones, runs with interrupts off and inside the interrupt; then the interrupt is left and
    acknowledged, at both controllers when it came through the second, and only after that,
    if the handler asked for it, the thread yields. *)
Theorem interrupt_dispatched s : external_handlers_ok → live s →
  (∀ v h, 0 <= v < 256 → is_external v = false → handler_of v = Some h →
     take_interrupt v s = (invoke h v ;;; modify (set_on (intr_on s))) (if with_interrupts v then s else set_on false s)) ∧
  (∀ v, is_external v = true → in_external_intr s = false →
     ∃ s1, service (handler_of v) v (entered (set_on false s)) = Ok (tt, s1) ∧ intr_on s1 = false ∧ in_external_intr s1 = true ∧
       take_interrupt v s = ((if yield_on_return s1 then thread_yield else ret tt) ;;; modify (set_on (intr_on s)))
                              (set_ports (ports s1 ++ acknowledge v) (set_external false s1))).
Proof.
  intros Hok (Hg & [Hhl Hh] & Hc & Hn). split.
  - intros v h Hv Hx Hd. unfold take_interrupt. rewrite (bind_ok _ _ s s s eq_refl). rewrite (bind_ok _ _ s (vector_gate v) s) by (by apply need_some, Hg).
    set (s1 := if with_interrupts v then s else set_on false s).
    rewrite (bind_ok _ _ s tt s1) by (unfold vector_gate, s1; cbn; by destruct (with_interrupts v)).
    unfold bind at 1. rewrite (intr_handler_internal v (Some h)); [done|done|]. unfold s1. rewrite <- Hd. destruct (with_interrupts v); by apply Hh.
  - intros v Hx Hi. assert (Hv : 0 <= v < 256) by (unfold is_external in Hx; lia).
    destruct (service_external v (entered (set_on false s)) Hok Hx Hv Hc Hn eq_refl eq_refl) as (s1 & E & Ho1 & Hi1).
    exists s1. split; [done|]. split; [done|]. split; [done|].
    unfold take_interrupt. rewrite (bind_ok _ _ s s s eq_refl). rewrite (bind_ok _ _ s (vector_gate v) s) by (by apply need_some, Hg).
    assert (Hw : with_interrupts v = false) by (unfold is_external in Hx; unfold with_interrupts; lia).
    rewrite (bind_ok _ _ s tt (set_on false s)) by (unfold vector_gate; rewrite Hw; done).
    unfold bind at 1. erewrite (intr_handler_external v (handler_of v)); [|done|by split|by apply Hh|exact E|done|done]. done.
Qed.
End Intr.

(** ** Examples *)

(** A machine whose kernel counts ticks and yields on the fourth, and its stubs. *)
Definition sample_intr : intr Z :=
  mk_intr (replicate 256 0) 0 (replicate 256 None) (replicate 256 []) (replicate 256 0) false false false [] [] 3.
Definition sample_stubs (v : Z) : Z := 3221225472 + 16 * v.
Definition with_world (w : Z) (s : intr Z) : intr Z :=
  mk_intr (idt s) (idtr s) (intr_handlers s) (intr_names s) (unexpected_cnt s) (in_external_intr s) (yield_on_return s) (intr_on s) (ports s) (console s) w.
Definition sample_invoke (h : handler) (v : Z) : M (intr Z) unit :=
  modify (λ s, with_world (world s + 1) s) ;;;
  let* s := gets id in
  if (world s mod 4 =? 0) && in_external_intr s then intr_yield_on_return else ret tt.
Definition sample_yield : M (intr Z) unit := modify (λ s, with_world (world s + 1000) s).

Lemma sample_booting : booting sample_intr.
Proof.
  assert (T : ∀ A (x : A), is_table (replicate 256 x) (λ _, x)).
  { intros A x. split; [done|]. intros j Hj. unfold entry. rewrite (proj2 (Z.ltb_ge j 0)) by lia. apply lookup_replicate_2. lia. }
  split_and!; try done; apply T.
Qed.

Lemma sample_stubs_ok : stubs_ok sample_stubs.
Proof. intros v Hv. unfold sample_stubs. lia. Qed.

Lemma sample_handlers_ok : external_handlers_ok sample_invoke.
Proof.
  intros h v s Hx Hh Ho Hi. unfold sample_invoke, intr_yield_on_return, intr_context, bind, modify, gets. cbn [id in_external_intr with_world]. rewrite Hi, andb_true_r.
  destruct (_ =? 0); eexists; (split; [cbn; rewrite ?Hi; reflexivity|done]).
Qed.

Lemma vectors_correct_witness :
  booting sample_intr ∧ ∃ s', main_interrupts sample_stubs 3222274048 sample_intr = Ok (tt, s') ∧
    gate_of s' 48 = Some (mk_gate 3221226240 8 15 0 3 1) ∧ entry (intr_handlers s') 14 = Some (Some page_fault).
Proof.
  split; [apply sample_booting|].
  destruct (vectors_correct sample_stubs 3222274048 sample_intr sample_stubs_ok sample_booting) as (s' & E & G & _ & [_ H] & _).
  exists s'. split; [exact E|]. split; [rewrite G by lia; reflexivity|rewrite H by lia; reflexivity].
Defined.

(** The machine after [main_interrupts]. *)
Definition sample_live : intr Z :=
  match main_interrupts sample_stubs 3222274048 sample_intr with Ok (_, s) => s | Fail _ => sample_intr end.

Lemma sample_live_ok : live sample_stubs sample_live ∧ intr_on sample_live = true ∧ in_external_intr sample_live = false.
Proof.
  destruct (vectors_run sample_stubs 3222274048 sample_intr sample_stubs_ok sample_booting) as (s' & E & T & _).
  unfold sample_live. rewrite E. destruct T as [[_ G] H N Ho Hx Hc _]. repeat split; try done; [apply H|apply H|by rewrite Hc].
Qed.

Lemma sample_tick : match service sample_invoke (handler_of 32) 32 (entered (set_on false sample_live)) with
  Ok (_, s1) => (world s1, yield_on_return s1) | Fail _ => (0, false) end = (4, true).
Proof. vm_compute. reflexivity. Qed.

(** The fourth tick of the timer: the handler runs, the interrupt is acknowledged and the
    thread yields. *)
Lemma interrupt_dispatched_witness :
  live sample_stubs sample_live ∧
  ∃ s1, world s1 = 4 ∧ yield_on_return s1 = true ∧
    take_interrupt sample_invoke sample_yield 32 sample_live =
      (sample_yield ;;; modify (set_on true)) (set_ports (ports s1 ++ [(32, 32)]) (set_external false s1)).
Proof.
  destruct sample_live_ok as [Hl [Ho Hx]]. split; [exact Hl|].
  destruct (interrupt_dispatched sample_stubs sample_invoke sample_yield sample_live sample_handlers_ok Hl) as [_ D].
  destruct (D 32 eq_refl Hx) as (s1 & E & _ & _ & F). exists s1.
  pose proof sample_tick as T. rewrite E in T. injection T as Hw Hy.
  split; [exact Hw|]. split; [exact Hy|]. rewrite F, Hy, Ho. reflexivity.
Defined.

(** The same machine in a section with interrupts off. *)
Definition sample_off : intr Z := set_on false sample_live.

Lemma sample_off_ok : quiet sample_off ∧ entry (intr_handlers sample_off) 34 = Some None ∧ length (unexpected_cnt sample_off) = 256%nat ∧
  entry (unexpected_cnt sample_off) 34 = Some 0 ∧ entry (intr_names sample_off) 34 = Some (chars "unknown") ∧ console sample_off = [].
Proof. vm_compute. repeat split. Qed.

Lemma unexpected_reported_witness :
  quiet sample_off ∧ ∃ s', repeat_run 5 (intr_handler sample_invoke sample_yield 34) sample_off = Ok (tt, s') ∧
    console s' = concat (replicate 3 (chars "Unexpected interrupt 0x22 (unknown)" ++ [10])).
Proof.
  destruct sample_off_ok as (Hq & Hh & Hl & Hc & Hn & Ho). split; [exact Hq|].
  destruct (unexpected_reported sample_invoke sample_yield 34 (chars "unknown") sample_off 5) as (s' & E & _ & _ & F); [lia|exact Hh|lia|lia|exact Hq|exact Hl|exact Hc|exact Hn|lia|lia|].
  exists s'. split; [exact E|]. rewrite F, Ho. vm_compute. reflexivity.
Defined.
