(* ===== verification/Timer.v ===== *)
(** * Delays (src/devices/timer.c) and the speaker (src/devices/speaker.c)

    The processor runs [period] iterations of an empty loop between two timer interrupts;
    each [barrier] is one iteration, and with interrupts off the ticks that fall due are
    lost.  What the calibration finds and how long delays take is stated against that
    number.  [timer_sleep] is a parameter here: it is modelled on the scheduler in file
    Synch. *)

From S2P Require Import Prelude Bits Stdio StdioSpec Intr.
Local Open Scope Z_scope.

(** [phase] counts the iterations since a tick was last due; [gate] is the speaker's port. *)
Record clock := mk_clock { period : Z; phase : Z; ticks : Z; loops_per_tick : Z; gate_port : Z }.

Notation C := (M (intr clock)).

Definition on_clock (f : clock → clock) (s : intr clock) : intr clock :=
  mk_intr (idt s) (idtr s) (intr_handlers s) (intr_names s) (unexpected_cnt s) (in_external_intr s) (yield_on_return s) (intr_on s) (ports s) (console s) (f (world s)).
Definition set_lpt x c := mk_clock (period c) (phase c) (ticks c) x (gate_port c).
Definition set_gate x c := mk_clock (period c) (phase c) (ticks c) (loops_per_tick c) x.

Definition get_ticks : C Z := gets (λ s, ticks (world s)).
Definition get_lpt : C Z := gets (λ s, loops_per_tick (world s)).

(** ** Loops *)

(** One iteration, with the timer interrupt if one is due. *)
Definition iteration (on : bool) (c : clock) : clock :=
  let p := (phase c + 1) mod period c in
  mk_clock (period c) p (if on && (p =? 0) then ticks c + 1 else ticks c) (loops_per_tick c) (gate_port c).
Definition barrier : C unit := modify (λ s, on_clock (iteration (intr_on s)) s).

(** [while (ticks == start) barrier ();] *)
Fixpoint wait_tick (fuel : nat) (start : Z) : C unit :=
  let* t := get_ticks in
  if t =? start then
    match fuel with O => fail NoFuel | S fuel => barrier ;;; wait_tick fuel start end
  else ret tt.

(** [while (loops-- > 0) barrier ();] *)
Fixpoint busy_loop (n : nat) : C unit := match n with O => ret tt | S n => barrier ;;; busy_loop n end.
Definition busy_wait (loops : Z) : C unit := busy_loop (Z.to_nat loops).

(** A tick comes within [period] iterations.  The barrier before the result is only for the
    compiler. *)
Definition too_many_loops (loops : Z) : C bool :=
  let* p := gets (λ s, period (world s)) in
  let* start := get_ticks in
  wait_tick (Z.to_nat p) start ;;;
  let* start := get_ticks in
  busy_wait loops ;;;
  let* now := get_ticks in
  ret (negb (start =? now)).

(** ** Calibration *)

(** The loop that doubles; the assertion bounds it to 22 rounds. *)
Fixpoint grow (fuel : nat) : C unit :=
  match fuel with
  | O => fail NoFuel
  | S fuel =>
      let* l := get_lpt in
      let* many := too_many_loops (u32 (Z.shiftl l 1)) in
      if many then ret tt else
      modify (on_clock (set_lpt (u32 (Z.shiftl l 1)))) ;;;
      assert (negb (u32 (Z.shiftl l 1) =? 0)) ;;;
      grow fuel
  end.

(** The loop over the bits below; it ends after nine rounds when it begins at bit ten. *)
Fixpoint refine (fuel : nat) (high_bit test_bit : Z) : C unit :=
  if test_bit =? Z.shiftr high_bit 10 then ret tt else
  match fuel with
  | O => fail NoFuel
  | S fuel =>
      let* l := get_lpt in
      let* many := too_many_loops (Z.lor l test_bit) in
      (if many then ret tt else modify (on_clock (set_lpt (Z.lor l test_bit)))) ;;;
      refine fuel high_bit (Z.shiftr test_bit 1)
  end.

Definition timer_calibrate : C unit :=
  (let* on := intr_get_level in assert on) ;;;
  printf (chars "Calibrating timer...  ") [] ;;;
  modify (on_clock (set_lpt (Z.shiftl 1 10))) ;;;
  grow 22 ;;;
  let* high_bit := get_lpt in
  refine 9 high_bit (Z.shiftr high_bit 1) ;;;
  let* l := get_lpt in
  printf (chars "%'llu loops/s." ++ [10]) [I64 (u64 (l * TIMER_FREQ))].

(** ** Delays *)

(** An [int64_t] expression, which must not overflow. *)
Definition i64 (v : Z) : C Z := lift (if (- 2 ^ 63 <=? v) && (v <? 2 ^ 63) then Ok v else Fail Undef).

Definition real_time_delay (num denom : Z) : C unit :=
  assert (Z.rem denom 1000 =? 0) ;;;
  let* l := get_lpt in
  let* a := i64 (l * num) in
  let* b := i64 (Z.quot a 1000 * TIMER_FREQ) in
  busy_wait (Z.quot b (Z.quot denom 1000)).

Section Sleep.
Context (timer_sleep : Z → C unit).

Definition real_time_sleep (num denom : Z) : C unit :=
  let* a := i64 (num * TIMER_FREQ) in
  let ticks := Z.quot a denom in
  (let* on := intr_get_level in assert on) ;;;
  if 0 <? ticks then timer_sleep ticks else real_time_delay num denom.

Definition timer_msleep (ms : Z) : C unit := real_time_sleep ms 1000.
Definition timer_usleep (us : Z) : C unit := real_time_sleep us (1000 * 1000).
Definition timer_nsleep (ns : Z) : C unit := real_time_sleep ns (1000 * 1000 * 1000).
Definition timer_mdelay (ms : Z) : C unit := real_time_delay ms 1000.
Definition timer_udelay (us : Z) : C unit := real_time_delay us (1000 * 1000).
Definition timer_ndelay (ns : Z) : C unit := real_time_delay ns (1000 * 1000 * 1000).

(** ** The speaker *)

Definition SPEAKER_PORT_GATE : Z := 97.
Definition SPEAKER_GATE_ENABLE : Z := 3.

Definition outb_gate (v : Z) : C unit := outb SPEAKER_PORT_GATE v ;;; modify (on_clock (set_gate (u8 v))).
Definition inb_gate : C Z := gets (λ s, gate_port (world s)).

Definition speaker_off : C unit :=
  let* old := intr_disable in
  let* g := inb_gate in outb_gate (Z.land g (Z.lnot SPEAKER_GATE_ENABLE)) ;;;
  (let* _ := intr_set_level old in ret tt).

Definition speaker_on (frequency : Z) : C unit :=
  if (20 <=? frequency) && (frequency <=? 20000) then
    let* old := intr_disable in
    pit_configure_channel 2 3 frequency ;;;
    let* g := inb_gate in outb_gate (Z.lor g SPEAKER_GATE_ENABLE) ;;;
    (let* _ := intr_set_level old in ret tt)
  else speaker_off.

Definition speaker_beep : C unit :=
  let* on := intr_get_level in
  if on then speaker_on 440 ;;; timer_msleep 250 ;;; speaker_off else ret tt.
End Sleep.

(** ** Time *)

(** The clock [n] iterations later, with interrupts on. *)
Definition advance (n : Z) (c : clock) : clock :=
  mk_clock (period c) ((phase c + n) mod period c) (ticks c + (phase c + n) / period c) (loops_per_tick c) (gate_port c).

Definition clock_ok (s : intr clock) : Prop := intr_on s = true ∧ 0 <= phase (world s) < period (world s).

Lemma advance_ok n s : clock_ok s → clock_ok (on_clock (advance n) s).
Proof. intros [Ho Hp]. split; [done|]. cbn. apply Z.mod_pos_bound. lia. Qed.

Lemma advance_advance n m s : clock_ok s → on_clock (advance m) (on_clock (advance n) s) = on_clock (advance (n + m)) s.
Proof.
  intros [_ Hp]. unfold on_clock. cbn [idt idtr intr_handlers intr_names unexpected_cnt in_external_intr yield_on_return intr_on ports console world]. f_equal.
  destruct (world s) as [P p t l g]. unfold advance. cbn in *.
  assert (H : (p + (n + m)) / P = (p + n) / P + ((p + n) mod P + m) / P).
  { replace (p + (n + m)) with ((p + n) / P * P + ((p + n) mod P + m)) by (pose proof (Z.div_mod (p + n) P); lia). apply Z.div_add_l. lia. }
  rewrite H, Zplus_mod_idemp_l. f_equal; [f_equal; lia|lia].
Qed.

Lemma advance_0 s : clock_ok s → on_clock (advance 0) s = s.
Proof.
  intros [_ Hp]. destruct s as [a b c d e f g on p k [P q t l gt]]. unfold on_clock, advance. cbn in *.
  rewrite Z.add_0_r, Z.mod_small, Z.div_small, Z.add_0_r by lia. done.
Qed.

Lemma barrier_run s : clock_ok s → barrier s = Ok (tt, on_clock (advance 1) s).
Proof.
  intros [Ho Hp]. unfold barrier, modify. rewrite Ho. unfold on_clock, iteration, advance. cbn [andb]. do 3 f_equal. f_equal.
  destruct (Z.eqb_spec ((phase (world s) + 1) mod period (world s)) 0) as [E|E].
  - apply Z.div_exact in E; [|lia]. f_equal. assert (phase (world s) + 1 = period (world s)) as ->; [|by rewrite Z.div_same by lia].
    destruct (Z.eq_dec (phase (world s) + 1) (period (world s))) as [|Hne]; [done|]. rewrite Z.div_small in E by lia. lia.
  - rewrite Z.div_small; [lia|]. destruct (Z.eq_dec (phase (world s) + 1) (period (world s))) as [H|]; [|lia]. rewrite H, Z.mod_same in E by lia. done.
Qed.

Lemma busy_loop_run n s : clock_ok s → busy_loop n s = Ok (tt, on_clock (advance (Z.of_nat n)) s).
Proof.
  revert s. induction n as [|n IH]; intros s Hs; [by rewrite advance_0|]. cbn [busy_loop]. rewrite (bind_ok _ _ _ _ _ (barrier_run s Hs)).
  rewrite IH by by apply advance_ok. rewrite advance_advance by done. do 4 f_equal. lia.
Qed.

Lemma busy_wait_run loops s : clock_ok s → 0 <= loops → busy_wait loops s = Ok (tt, on_clock (advance loops) s).
Proof. intros Hs Hl. unfold busy_wait. rewrite busy_loop_run by done. by rewrite Z2Nat.id. Qed.

Lemma wait_tick_run fuel s : clock_ok s → period (world s) - phase (world s) <= Z.of_nat fuel →
  wait_tick fuel (ticks (world s)) s = Ok (tt, on_clock (advance (period (world s) - phase (world s))) s).
Proof.
  intros Hs. remember (ticks (world s)) as t eqn:Et. revert s Hs Et. induction fuel as [|fuel IH]; intros s Hs Et Hf; [destruct Hs; lia|].
  cbn [wait_tick]. erewrite bind_ok by reflexivity. rewrite <- Et, Z.eqb_refl. rewrite (bind_ok _ _ _ _ _ (barrier_run s Hs)).
  destruct Hs as [Ho Hp]. set (s1 := on_clock (advance 1) s). assert (Hs1 : clock_ok s1) by (by apply advance_ok).
  destruct (Z.eq_dec (phase (world s) + 1) (period (world s))) as [E|E].
  - replace (period (world s) - phase (world s)) with 1 by lia. fold s1.
    assert (Ht : ticks (world s1) = t + 1) by (cbn; rewrite E, Z.div_same by lia; lia).
    destruct fuel; cbn [wait_tick]; erewrite bind_ok by reflexivity; rewrite Ht, (proj2 (Z.eqb_neq _ _)) by lia; done.
  - assert (Hp1 : phase (world s1) = phase (world s) + 1) by (cbn; apply Z.mod_small; lia).
    rewrite IH; [|done| |].
    + rewrite Hp1. change (period (world s1)) with (period (world s)). unfold s1. rewrite advance_advance by done. do 4 f_equal. lia.
    + cbn. rewrite Z.div_small by lia. lia.
    + rewrite Hp1. cbn. lia.
Qed.

(** The state is the one before at another time. *)
Definition later (s s' : intr clock) : Prop := ∃ n, 0 <= n ∧ s' = on_clock (advance n) s.

Lemma too_many_run loops s : clock_ok s → 0 <= loops → ∃ s', too_many_loops loops s = Ok (period (world s) <=? loops, s') ∧ clock_ok s' ∧ later s s'.
Proof.
  intros Hs Hl. unfold too_many_loops. erewrite bind_ok by reflexivity. erewrite bind_ok by reflexivity.
  assert (Hp : 0 <= phase (world s) < period (world s)) by apply Hs.
  rewrite (bind_ok _ _ _ _ _ (wait_tick_run (Z.to_nat (period (world s))) s Hs ltac:(lia))).
  set (d := period (world s) - phase (world s)). set (s1 := on_clock (advance d) s). assert (Hs1 : clock_ok s1) by (by apply advance_ok).
  erewrite bind_ok by reflexivity. rewrite (bind_ok _ _ _ _ _ (busy_wait_run loops s1 Hs1 Hl)). erewrite bind_ok by reflexivity.
  eexists. split; [|split; [by apply advance_ok|]].
  - unfold ret. do 2 f_equal.
    assert (H0 : phase (world s1) = 0) by (cbn; unfold d; replace (phase (world s) + _) with (period (world s)) by lia; apply Z.mod_same; lia).
    change (ticks (world (on_clock (advance loops) s1))) with (ticks (world s1) + (phase (world s1) + loops) / period (world s)). rewrite H0, Z.add_0_l.
    destruct (Z.leb_spec (period (world s)) loops).
    + apply negb_true_iff, Z.eqb_neq. assert (1 <= loops / period (world s)) by (apply Z.div_le_lower_bound; lia). lia.
    + apply negb_false_iff, Z.eqb_eq. rewrite Z.div_small by lia. lia.
  - exists (d + loops). split; [lia|]. unfold s1. by rewrite advance_advance.
Qed.

(** ** Calibration *)

(** Only the time and the calibrated number have changed. *)
Definition tuned (s s' : intr clock) : Prop :=
  clock_ok s' ∧ period (world s') = period (world s) ∧ gate_port (world s') = gate_port (world s) ∧ console s' = console s ∧ ports s' = ports s.

Lemma tuned_refl s : clock_ok s → tuned s s.
Proof. intros H. split; [done|]. done. Qed.
Lemma tuned_trans s1 s2 s3 : tuned s1 s2 → tuned s2 s3 → tuned s1 s3.
Proof. intros (A1 & A2 & A3 & A4 & A5) (B1 & B2 & B3 & B4 & B5). split; [done|]. repeat split; congruence. Qed.
Lemma later_tuned s s' : later s s' → clock_ok s' → tuned s s' ∧ loops_per_tick (world s') = loops_per_tick (world s).
Proof. intros (n & _ & ->) H. split; [|done]. split; [done|]. done. Qed.
Lemma set_lpt_tuned l s : clock_ok s → tuned s (on_clock (set_lpt l) s).
Proof. intros H. split; [done|]. done. Qed.

Lemma double_run k : 10 <= k <= 31 → u32 (Z.shiftl (2 ^ k) 1) = if k =? 31 then 0 else 2 ^ (k + 1).
Proof.
  intros Hk. rewrite Z.shiftl_mul_pow2 by lia. change (2 ^ 1) with 2. destruct (Z.eqb_spec k 31) as [->|]; [done|].
  rewrite Z.pow_add_r by lia. apply u32_id. split; [assert (0 < 2 ^ k) by (apply Z.pow_pos_nonneg; lia); lia|].
  assert (2 ^ k <= 2 ^ 30) by (apply Z.pow_le_mono_r; lia). lia.
Qed.

Lemma grow_run fuel k s : clock_ok s → loops_per_tick (world s) = 2 ^ k → 10 <= k <= 31 → Z.of_nat fuel = 32 - k →
  k = 10 ∨ 2 ^ k < period (world s) →
  (2 ^ 31 < period (world s) → grow fuel s = Fail AssertFailed) ∧
  (period (world s) <= 2 ^ 31 → ∃ k' s', grow fuel s = Ok (tt, s') ∧ tuned s s' ∧ 10 <= k' <= 30 ∧ loops_per_tick (world s') = 2 ^ k' ∧
     period (world s) <= 2 ^ (k' + 1) ∧ (k' = 10 ∨ 2 ^ k' < period (world s))).
Proof.
  revert k s. induction fuel as [|fuel IH]; intros k s Hs Hl Hk Hf Hlow; [lia|].
  cbn [grow]. assert (Hpos : 0 <= u32 (Z.shiftl (2 ^ k) 1)) by (apply u32_range).
  destruct (too_many_run (u32 (Z.shiftl (2 ^ k) 1)) s Hs Hpos) as (s1 & E & H1 & Hlat). destruct (later_tuned _ _ Hlat H1) as [T1 L1].
  erewrite bind_ok by reflexivity. rewrite Hl, (bind_ok _ _ _ _ _ E). rewrite double_run by done.
  assert (H31 : k = 31 → 2 ^ 31 < period (world s)) by (intros ->; destruct Hlow; [lia|done]).
  destruct (Z.leb_spec (period (world s)) (if k =? 31 then 0 else 2 ^ (k + 1))) as [Hm|Hm].
  - assert (k ≠ 31) by (intros ->; cbn in Hm; lia). rewrite (proj2 (Z.eqb_neq k 31)) in Hm by done. split.
    + intros Hbig. assert (2 ^ (k + 1) <= 2 ^ 31) by (apply Z.pow_le_mono_r; lia). lia.
    + intros _. exists k, s1. split; [done|]. split; [done|]. split; [lia|]. split; [congruence|]. done.
  - erewrite bind_ok by reflexivity. set (s2 := on_clock _ s1).
    destruct (Z.eqb_spec k 31) as [->|Hne].
    + split; [intros _|lia]. unfold bind at 1. by rewrite assert_false.
    + rewrite (bind_ok _ _ s2 tt s2) by (apply assert_true; apply negb_true_iff, Z.eqb_neq; apply Z.pow_nonzero; lia).
      assert (H2 : clock_ok s2) by done. assert (T2 : tuned s s2) by (eapply tuned_trans; [exact T1|by apply set_lpt_tuned]).
      destruct (IH (k + 1) s2) as [A B]; [done|done|lia|lia|right; destruct T2 as (_ & -> & _); done|].
      destruct T2 as (T2c & T2p & T2r). rewrite T2p in A, B. split; [done|]. intros H.
      destruct (B H) as (k' & s' & E' & T' & R). exists k', s'. split; [done|]. split; [|done].
      eapply tuned_trans; [|exact T']. by split.
Qed.

(** The refinement keeps the number below the tick and halves the distance. *)
Lemma refine_run fuel k j s l : clock_ok s → 10 <= k <= 30 → j = k - 10 + Z.of_nat fuel → Z.of_nat fuel <= 9 →
  loops_per_tick (world s) = l → l mod 2 ^ (j + 1) = 0 → 2 ^ k <= l → l < 2 ^ (k + 1) → l < period (world s) <= l + 2 ^ (j + 1) →
  ∃ s', refine fuel (2 ^ k) (2 ^ j) s = Ok (tt, s') ∧ tuned s s' ∧
    let l' := loops_per_tick (world s') in 2 ^ k <= l' < 2 ^ (k + 1) ∧ l' mod 2 ^ (k - 9) = 0 ∧ l' < period (world s) <= l' + 2 ^ (k - 9).
Proof.
  revert j s l. induction fuel as [|fuel IH]; intros j s l Hs Hk Hj Hf Hl Hm Hlo Hhi Hp.
  - replace (Z.of_nat 0) with 0 in Hj by done. rewrite Z.add_0_r in Hj. subst j. replace (k - 10 + 1) with (k - 9) in * by lia.
    exists s. cbn [refine]. rewrite Z.shiftr_div_pow2, <- Z.pow_sub_r by lia. rewrite Z.eqb_refl. split; [done|]. split; [by apply tuned_refl|]. cbn zeta. by rewrite Hl.
  - cbn [refine]. assert (Hne : (2 ^ j =? Z.shiftr (2 ^ k) 10) = false).
    { apply Z.eqb_neq. rewrite Z.shiftr_div_pow2, <- Z.pow_sub_r by lia. assert (2 ^ (k - 10) < 2 ^ j) by (apply Z.pow_lt_mono_r; lia). lia. }
    rewrite Hne. assert (Hpj : 0 < 2 ^ j) by (apply Z.pow_pos_nonneg; lia). assert (Hp1 : 2 ^ (j + 1) = 2 * 2 ^ j) by (rewrite Z.pow_add_r; lia).
    assert (Hor : Z.lor l (2 ^ j) = l + 2 ^ j) by (apply (lor_disjoint (j + 1)); lia).
    destruct (too_many_run (l + 2 ^ j) s Hs ltac:(lia)) as (s1 & E & H1 & Hlat). destruct (later_tuned _ _ Hlat H1) as [T1 L1].
    erewrite bind_ok by reflexivity. rewrite Hl, Hor, (bind_ok _ _ _ _ _ E).
    rewrite Z.shiftr_div_pow2 by lia. rewrite <- Z.pow_sub_r by lia.
    assert (Hdiv : l mod 2 ^ j = 0). { apply Z.mod_divide in Hm; [|lia]. destruct Hm as [q ->]. rewrite Hp1. replace (q * (2 * 2 ^ j)) with (2 * q * 2 ^ j) by lia. apply Z.mod_mul. lia. }
    assert (Hup : l + 2 ^ j < 2 ^ (k + 1)).
    { assert (Hd : (2 ^ (j + 1) | 2 ^ (k + 1))) by (exists (2 ^ (k - j)); rewrite <- Z.pow_add_r by lia; f_equal; lia).
      apply Z.mod_divide in Hm; [|lia]. destruct Hd as [q Hq], Hm as [r Hr]. rewrite Hp1 in Hq, Hr. rewrite Hq, Hr in *.
      assert (r < q) by (apply (Z.mul_lt_mono_pos_r (2 * 2 ^ j)); lia).
      assert ((r + 1) * (2 * 2 ^ j) <= q * (2 * 2 ^ j)) by (apply Z.mul_le_mono_nonneg_r; lia). lia. }
    destruct (Z.leb_spec (period (world s)) (l + 2 ^ j)) as [Hb|Hb].
    + erewrite bind_ok by reflexivity. destruct (IH (j - 1) s1 l) as (s' & E' & T' & R); try done; try lia; [| |].
      * by replace (j - 1 + 1) with j by lia.
      * destruct T1 as (_ & -> & _). replace (j - 1 + 1) with j by lia. lia.
      * exists s'. split; [done|]. split; [by eapply tuned_trans|]. destruct T1 as (_ & Ep & _). by rewrite Ep in R.
    + erewrite bind_ok by reflexivity. set (s2 := on_clock _ s1). assert (T2 : tuned s s2) by (eapply tuned_trans; [exact T1|by apply set_lpt_tuned]).
      destruct T2 as (C2 & P2 & R2). destruct (IH (j - 1) s2 (l + 2 ^ j)) as (s' & E' & T' & R); try done; try lia; [| |].
      * replace (j - 1 + 1) with j by lia. rewrite <- Z.add_mod_idemp_l, Hdiv by lia. by rewrite Z.mod_same by lia.
      * rewrite P2. replace (j - 1 + 1) with j by lia. lia.
      * exists s'. split; [done|]. split; [eapply tuned_trans; [|exact T']; by split|]. by rewrite P2 in R.
Qed.

(** ** The result *)

Lemma decimal_short k fuel g value cnt buf : 0 <= value < 10 ^ Z.of_nat k → (k < fuel)%nat →
  ∃ out, digit_loop fuel base_d g value cnt buf = Ok out ∧ (length out <= length buf + 2 * k)%nat.
Proof.
  revert fuel value cnt buf. induction k as [|k IH]; intros [|fuel] value cnt buf Hv Hf; try lia; cbn [digit_loop].
  - rewrite (proj2 (Z.ltb_ge 0 value)) by (simpl in Hv; lia). exists buf. split; [done|lia].
  - destruct (Z.ltb_spec 0 value); [|exists buf; split; [done|lia]]. change (base_ base_d) with 10.
    destruct (lookup_lt_is_Some_2 (digits base_d) (Z.to_nat (value mod 10))) as [d Hd].
    { pose proof (Z.mod_pos_bound value 10). simpl. lia. }
    rewrite Hd. cbn [rneed rbind]. set (buf1 := if _ && _ && _ then buf ++ [44] else buf).
    assert (Hlen : (length buf1 <= length buf + 1)%nat) by (unfold buf1; destruct (g && _ && _); rewrite ?length_app; simpl; lia).
    destruct (IH fuel (value / 10) (cnt + 1) (buf1 ++ [d])) as (out & E & Ho); [|lia|].
    + rewrite Nat2Z.inj_succ, Z.pow_succ_r in Hv by lia. split; [apply Z.div_pos; lia|apply Z.div_lt_upper_bound; lia].
    + exists out. split; [exact E|]. rewrite length_app in Ho. simpl in Ho. lia.
Qed.

Lemma loops_text v : 0 <= v < 10 ^ 12 → ∃ out, vprintf (chars "%'llu loops/s." ++ [10]) [I64 v] = Ok out.
Proof.
  intros Hv. set (c := mk_conv false false false false false true 0 (-1) LONGLONG).
  change (vprintf (chars "%'llu loops/s." ++ [10]) [I64 v]) with
    (rbind (rbind (format_integer (u64 v) false false base_d c) (λ out, Ok (out, @nil arg)))
      (λ p, let '(out, args) := p in rbind (__vprintf 16 (chars " loops/s." ++ [10]) args) (λ more, Ok (out ++ more)))).
  rewrite u64_id by int_lia. unfold format_integer, digit_buffer.
  destruct (decimal_short 12 65 (GROUP c) v 0 [] Hv ltac:(lia)) as (out & E & Hl). rewrite E. cbn [rbind].
  change (POUND c && _ && _) with false. change (precision c <? 0) with true. cbn iota.
  rewrite (proj2 (Z.leb_le _ 64)).
  - eexists. cbn [rbind]. reflexivity.
  - unfold pad_zeros. rewrite length_app, length_replicate. simpl in Hl. lia.
Qed.

(** On a slow machine neither loop finds room. *)
Lemma refine_slow fuel j s : clock_ok s → loops_per_tick (world s) = 1024 → period (world s) <= 1024 → j = Z.of_nat fuel → Z.of_nat fuel <= 9 →
  ∃ s', refine fuel 1024 (2 ^ j) s = Ok (tt, s') ∧ loops_per_tick (world s') = 1024.
Proof.
  revert j s. induction fuel as [|fuel IH]; intros j s Hs Hl Hp Hj Hf; [subst j; by exists s|].
  cbn [refine]. change (Z.shiftr 1024 10) with (2 ^ 0). rewrite (proj2 (Z.eqb_neq (2 ^ j) (2 ^ 0))) by (assert (2 ^ 0 < 2 ^ j) by (apply Z.pow_lt_mono_r; lia); lia).
  assert (0 < 2 ^ j) by (apply Z.pow_pos_nonneg; lia). assert (Hor : Z.lor 1024 (2 ^ j) = 1024 + 2 ^ j).
  { apply (lor_disjoint 10); [lia|done|]. split; [lia|]. apply Z.pow_lt_mono_r; lia. }
  destruct (too_many_run (1024 + 2 ^ j) s Hs ltac:(lia)) as (s1 & E & H1 & Hlat). destruct (later_tuned _ _ Hlat H1) as [(_ & P1 & _) L1].
  erewrite bind_ok by reflexivity. rewrite Hl, Hor, (bind_ok _ _ _ _ _ E), (proj2 (Z.leb_le _ _)) by lia. erewrite bind_ok by reflexivity.
  rewrite Z.shiftr_div_pow2, <- Z.pow_sub_r by lia. apply IH; lia || done || congruence.
Qed.

Lemma slow_run s : clock_ok s → loops_per_tick (world s) = 1024 → period (world s) <= 1024 →
  ∃ s2 s3, grow 22 s = Ok (tt, s2) ∧ tuned s s2 ∧ loops_per_tick (world s2) = 2 ^ 10 ∧
    refine 9 (2 ^ 10) (2 ^ (10 - 1)) s2 = Ok (tt, s3) ∧ loops_per_tick (world s3) = 1024.
Proof.
  intros Hs Hl Hp. destruct (too_many_run 2048 s Hs ltac:(lia)) as (s2 & E & H2 & Hlat). destruct (later_tuned _ _ Hlat H2) as [T2 L2].
  destruct (refine_slow 9 9 s2 H2) as (s3 & Er & L3); [congruence|destruct T2 as (_ & -> & _); done|done|done|].
  exists s2, s3. split; [|by rewrite L2]. cbn [grow]. erewrite bind_ok by reflexivity. rewrite Hl. change (u32 (Z.shiftl 1024 1)) with 2048.
  rewrite (bind_ok _ _ _ _ _ E), (proj2 (Z.leb_le _ _)) by lia. done.
Qed.

(** C30: the calibration ends within its bounds.  On a machine that runs more than 1024 and
    at most 2^31 loops in a tick it finds a number below that by at most a 512th, exact in
    its ten highest bits; on a faster one it stops at the assertion; and on a slower one it
    answers 1024, more than fits in a tick. *)
Theorem timer_calibrate_correct s : clock_ok s →
  let P := period (world s) in
  (1024 < P <= 2 ^ 31 → ∃ s', timer_calibrate s = Ok (tt, s') ∧ clock_ok s' ∧
     let L := loops_per_tick (world s') in 1024 <= L < P ∧ 512 * (P - L) <= L ∧ L mod 2 ^ (Z.log2 L - 9) = 0) ∧
  (2 ^ 31 < P → timer_calibrate s = Fail AssertFailed) ∧
  (P <= 1024 → ∃ s', timer_calibrate s = Ok (tt, s') ∧ loops_per_tick (world s') = 1024).
Proof.
  intros Hs P.
  set (s0 := set_console (console s ++ chars "Calibrating timer...  ") s). set (s1 := on_clock (set_lpt (2 ^ 10)) s0).
  assert (H1 : clock_ok s1) by done.
  assert (Hrun : ∀ k s2, grow 22 s1 = Ok (tt, s2) → tuned s1 s2 → 10 <= k <= 30 → loops_per_tick (world s2) = 2 ^ k →
    ∀ s3, refine 9 (2 ^ k) (2 ^ (k - 1)) s2 = Ok (tt, s3) → 0 <= loops_per_tick (world s3) < 2 ^ 31 → 
    ∃ s', timer_calibrate s = Ok (tt, s') ∧ world s' = world s3 ∧ intr_on s' = intr_on s3).
  { intros k s2 Eg T2 Hk L2 s3 Er L3. destruct (loops_text (u64 (loops_per_tick (world s3) * TIMER_FREQ))) as [out Eo]; [unfold TIMER_FREQ; mod_lia|].
    exists (set_console (console s3 ++ out) s3). split; [|done]. unfold timer_calibrate.
    rewrite (bind_ok _ _ s tt s) by (erewrite bind_ok by reflexivity; apply assert_true, Hs).
    rewrite (bind_ok _ _ s tt s0) by reflexivity. rewrite (bind_ok _ _ s0 tt s1) by reflexivity. rewrite (bind_ok _ _ _ _ _ Eg).
    erewrite bind_ok by reflexivity. rewrite L2, Z.shiftr_div_pow2, <- Z.pow_sub_r by lia. rewrite (bind_ok _ _ _ _ _ Er).
    erewrite bind_ok by reflexivity. unfold printf. by rewrite Eo. }
  destruct (grow_run 22 10 s1 H1 eq_refl ltac:(lia) eq_refl ltac:(by left)) as [Gfail Gok]. change (period (world s1)) with P in Gfail, Gok.
  split; [|split].
  - intros HP. destruct (Gok ltac:(lia)) as (k & s2 & Eg & T2 & Hk & L2 & Hu & Hl).
    assert (Hlow : 2 ^ k < P) by (destruct Hl as [->|]; [lia|done]). destruct T2 as (C2 & P2 & R2).
    destruct (refine_run 9 k (k - 1) s2 (2 ^ k)) as (s3 & Er & T3 & R); try done; try lia.
    + replace (k - 1 + 1) with k by lia. apply Z.mod_same, Z.pow_nonzero; lia.
    + rewrite P2. change (period (world s1)) with P. replace (k - 1 + 1) with k by lia. split; [done|]. rewrite Z.pow_add_r in Hu by lia. lia.
    + destruct R as ((Hlo & Hhi) & Hm & Hp). rewrite P2 in Hp. change (period (world s1)) with P in Hp. set (L := loops_per_tick (world s3)) in *.
      assert (HL : Z.log2 L = k) by (apply Z.log2_unique; lia). assert (Hk9 : 2 ^ k = 512 * 2 ^ (k - 9)) by (replace k with (9 + (k - 9)) at 1 by lia; by rewrite Z.pow_add_r by lia).
      assert (2 ^ 10 <= 2 ^ k) by (apply Z.pow_le_mono_r; lia). assert (2 ^ (k + 1) <= 2 ^ 31) by (apply Z.pow_le_mono_r; lia).
      destruct (Hrun k s2 Eg ltac:(by split) Hk L2 s3 Er ltac:(lia)) as (s' & E & W & O). exists s'. split; [done|].
      unfold clock_ok. rewrite W, O. split; [apply T3|]. fold L. rewrite HL. split; [lia|]. split; [lia|done].
  - intros HP. unfold timer_calibrate. rewrite (bind_ok _ _ s tt s) by (erewrite bind_ok by reflexivity; apply assert_true, Hs).
    rewrite (bind_ok _ _ s tt s0) by reflexivity. rewrite (bind_ok _ _ s0 tt s1) by reflexivity. unfold bind at 1. by rewrite (Gfail HP).
  - intros HP. destruct (slow_run s1 H1 eq_refl ltac:(done)) as (s2 & s3 & Eg & T2 & L2 & Er & L3).
    destruct (Hrun 10 s2 Eg T2 ltac:(lia) L2 s3 Er ltac:(lia)) as (s' & E & W & _). exists s'. split; [done|]. by rewrite W.
Qed.

(** ** Delays *)

Lemma i64_run v s : - 2 ^ 63 <= v < 2 ^ 63 → i64 v s = Ok (v, s).
Proof. intros H. unfold i64, lift. by rewrite (proj2 (Z.leb_le _ _)), (proj2 (Z.ltb_lt _ _)) by lia. Qed.

(** The number of iterations that stands for [num / denom] seconds. *)
Definition delay_loops (L num denom : Z) : Z := L * num / 1000 * 100 / (denom / 1000).

Lemma delay_run num denom s : clock_ok s → denom ∈ [1000; 1000000; 1000000000] → 0 <= num →
  let L := loops_per_tick (world s) in 0 <= L → L * num < 2 ^ 63 →
  real_time_delay num denom s = Ok (tt, on_clock (advance (delay_loops L num denom)) s) ∧
  0 <= delay_loops L num denom ∧ delay_loops L num denom * denom <= L * 100 * num < (delay_loops L num denom + 1) * denom + 100000.
Proof.
  intros Hs Hd Hn L HL Hov. assert (H0 : 0 <= L * num) by (apply Z.mul_nonneg_nonneg; lia). set (x := L * num) in *.
  assert (Hden : denom mod 1000 = 0 ∧ 1 <= denom / 1000 ∧ denom = 1000 * (denom / 1000)) by (rewrite !elem_of_cons in Hd; destruct Hd as [->|[->|[->|Hd]]]; [done..|by apply elem_of_nil in Hd]).
  destruct Hden as (Hm & Hq & He). set (q := denom / 1000) in *.
  assert (Hx : 0 <= x / 1000 * 100 < 2 ^ 63) by mod_lia. unfold delay_loops. fold x q.
  split; [|split].
  - unfold real_time_delay. rewrite (bind_ok _ _ s tt s) by (apply assert_true; rewrite Z.rem_mod_nonneg by lia; by rewrite Hm). erewrite bind_ok by reflexivity. fold L x.
    rewrite (bind_ok _ _ _ _ _ (i64_run x s ltac:(lia))). rewrite Z.quot_div_nonneg by lia. unfold TIMER_FREQ.
    rewrite (bind_ok _ _ _ _ _ (i64_run (x / 1000 * 100) s ltac:(lia))). rewrite (Z.quot_div_nonneg denom 1000) by lia. fold q. rewrite Z.quot_div_nonneg by lia. apply busy_wait_run; [done|]. apply Z.div_pos; lia.
  - apply Z.div_pos; lia.
  - pose proof (Z.div_mod (x / 1000 * 100) q ltac:(lia)). pose proof (Z.mod_pos_bound (x / 1000 * 100) q ltac:(lia)).
    replace (L * 100 * num) with (100 * x) by (unfold x; ring). set (n := x / 1000 * 100 / q) in *. rewrite He.
    replace (n * (1000 * q)) with (1000 * (q * n)) by ring. replace ((n + 1) * (1000 * q)) with (1000 * (q * n) + 1000 * q) by ring. mod_lia.
Qed.

(** A sleep of a tick or more is left to the scheduler, for the whole ticks of the time
    asked for; a shorter one is a busy wait of less than a tick's loops, never more than the
    time asked for on this machine and short of it only by the error of the calibration and
    of the roundings. *)
Theorem real_time_sleep_correct timer_sleep num denom s :
  clock_ok s → denom ∈ [1000; 1000000; 1000000000] → 0 <= num → num * 100 < 2 ^ 63 →
  let P := period (world s) in let L := loops_per_tick (world s) in 0 <= L < P → L * num < 2 ^ 63 →
  (denom <= num * 100 → real_time_sleep timer_sleep num denom s = timer_sleep (num * 100 / denom) s) ∧
  (num * 100 < denom → ∃ n s', real_time_sleep timer_sleep num denom s = Ok (tt, s') ∧ world s' = advance n (world s) ∧ 0 <= n < P ∧
     n * denom <= P * 100 * num ∧ L * 100 * num < (n + 1) * denom + 100000 ∧ ticks (world s') <= ticks (world s) + 1).
Proof.
  intros Hs Hd Hn Hov P L HL Hov2. destruct (delay_run num denom s Hs Hd Hn ltac:(fold L; lia) Hov2) as (E & Hn0 & Hlo & Hhi). fold L in E, Hn0, Hlo, Hhi.
  assert (Hden : 0 < denom) by (rewrite !elem_of_cons in Hd; destruct Hd as [->|[->|[->|Hd]]]; [lia..|by apply elem_of_nil in Hd]).
  assert (Hstep : real_time_sleep timer_sleep num denom s = (if 0 <? num * 100 / denom then timer_sleep (num * 100 / denom) else real_time_delay num denom) s).
  { unfold real_time_sleep. rewrite (bind_ok _ _ _ _ _ (i64_run (num * TIMER_FREQ) s ltac:(unfold TIMER_FREQ; lia))). unfold TIMER_FREQ. rewrite Z.quot_div_nonneg by lia.
    erewrite bind_ok; [reflexivity|]. erewrite bind_ok by reflexivity. apply assert_true, Hs. }
  rewrite Hstep. split; intros H.
  - assert (1 <= num * 100 / denom) by (apply Z.div_le_lower_bound; lia). by rewrite (proj2 (Z.ltb_lt _ _)) by lia.
  - rewrite Z.div_small by lia. cbn [Z.ltb Z.compare]. rewrite E. set (n := delay_loops L num denom) in *.
    assert (HnL : n <= L). { apply (Z.mul_le_mono_pos_r _ _ denom); [done|]. assert (L * (100 * num) <= L * denom) by (apply Z.mul_le_mono_nonneg_l; lia). lia. }
    exists n. eexists. split; [reflexivity|]. split; [done|]. split; [lia|]. split.
    { assert (L * (100 * num) <= P * (100 * num)) by (apply Z.mul_le_mono_nonneg_r; lia). lia. }
    split; [lia|]. cbn. destruct Hs as [_ Hp]. fold P in Hp |- *. assert ((phase (world s) + n) / P < 2) by (apply Z.div_lt_upper_bound; lia). lia.
Qed.

(** The speaker is silent after a beep, whatever the tone and the sleep leave of the port. *)
Lemma speaker_off_run s : in_external_intr s = false →
  ∃ s', speaker_off s = Ok (tt, s') ∧ intr_on s' = intr_on s ∧ Z.land (gate_port (world s')) SPEAKER_GATE_ENABLE = 0.
Proof.
  intros Hx. destruct s as [a b c d e f g on p k w]. cbn in Hx. subst f.
  assert (H : Z.land (u8 (Z.land (gate_port w) (Z.lnot 3))) 3 = 0).
  { unfold u8. rewrite <- Z.land_ones by lia. rewrite <- !Z.land_assoc. change (Z.land (Z.lnot 3) (Z.land (Z.ones 8) 3)) with 0. apply Z.land_0_r. }
  destruct on; eexists; (split; [reflexivity|]); by split.
Qed.

(** ** Examples *)

(** A machine with 3000 loops to a tick. *)
Definition sample_clock (P : Z) : intr clock :=
  mk_intr [] 0 [] [] [] false false true [] [] (mk_clock P 7 0 0 0).

Lemma timer_calibrate_correct_witness :
  clock_ok (sample_clock 3000000) ∧ ∃ s', timer_calibrate (sample_clock 3000000) = Ok (tt, s') ∧
    2994143 <= loops_per_tick (world s') < 3000000.
Proof.
  assert (Hs : clock_ok (sample_clock 3000000)) by (split; [done|cbn; lia]). split; [exact Hs|].
  destruct (timer_calibrate_correct (sample_clock 3000000) Hs) as [H _]. destruct H as (s' & E & _ & H1 & H2 & _); [cbn; lia|].
  exists s'. split; [exact E|]. cbn in H1, H2. lia.
Defined.

Example calibrated : match timer_calibrate (sample_clock 3000) with Ok (_, s) => loops_per_tick (world s) = 2996 ∧ console s = chars "Calibrating timer...  299,600 loops/s." ++ [10] | _ => False end.
Proof. vm_compute. done. Qed.

Lemma real_time_sleep_correct_witness :
  let s := on_clock (set_lpt 2996) (sample_clock 3000) in
  real_time_sleep (λ t, modify (on_clock (advance (t * 3000)))) 20 1000 s = Ok (tt, on_clock (advance 6000) s) ∧
  ∃ s', real_time_sleep (λ t, modify (on_clock (advance (t * 3000)))) 500 1000000 s = Ok (tt, s') ∧ ticks (world s') <= 1.
Proof.
  intros s. assert (Hs : clock_ok s) by (split; [done|cbn; lia]). split.
  - destruct (real_time_sleep_correct (λ t, modify (on_clock (advance (t * 3000)))) 20 1000 s Hs ltac:(set_solver) ltac:(lia) ltac:(lia) ltac:(cbn; lia) ltac:(cbn; lia)) as [H _].
    rewrite H by lia. reflexivity.
  - destruct (real_time_sleep_correct (λ t, modify (on_clock (advance (t * 3000)))) 500 1000000 s Hs ltac:(set_solver) ltac:(lia) ltac:(lia) ltac:(cbn; lia) ltac:(cbn; lia)) as [_ H].
    destruct H as (n & s' & E & _ & _ & _ & _ & Ht); [lia|]. exists s'. split; [exact E|exact Ht].
Defined.
