(* ===== verification/Ide.v ===== *)
(** * The disk driver (src/devices/ide.c)

    The driver of one channel with its two disks; the channels share nothing.  The
    hardware is behind the class [AtaOps]: reading and writing its registers, transferring
    a sector, and letting time pass.  What the driver relies on is the class [AtaDevice]:
    the hardware, seen through [view], follows the protocol of the ATA standard.  The
    channel's interrupt is taken when time passes with interrupts on and its line raised;
    the driver's waits are where that happens. *)

From S2P Require Import Prelude StdlibC Stdio StdioSpec Bits.
Local Open Scope Z_scope.

Definition BLOCK_SECTOR_SIZE : Z := 512.

(** Registers by their offset from the channel's base. *)
Definition reg_error : Z := 1.
Definition reg_nsect : Z := 2.
Definition reg_lbal : Z := 3.
Definition reg_lbam : Z := 4.
Definition reg_lbah : Z := 5.
Definition reg_device : Z := 6.
Definition reg_status : Z := 7.
Definition reg_command : Z := reg_status.
Definition reg_ctl : Z := 518.
Definition reg_alt_status : Z := reg_ctl.

Definition STA_BSY : Z := 128.
Definition STA_DRDY : Z := 64.
Definition STA_DRQ : Z := 8.
Definition CTL_SRST : Z := 4.
Definition DEV_MBS : Z := 160.
Definition DEV_LBA : Z := 64.
Definition DEV_DEV : Z := 16.
Definition CMD_IDENTIFY_DEVICE : Z := 236.
Definition CMD_READ_SECTOR_RETRY : Z := 32.
Definition CMD_WRITE_SECTOR_RETRY : Z := 48.

(** ** The hardware *)

Class AtaOps (D : Type) := {
  ata_in : Z → D → Z * D;         (* a byte of a register *)
  ata_out : Z → Z → D → D;
  ata_insw : D → list Z * D;      (* the words of a sector from the data register *)
  ata_outsw : list Z → D → D;
  ata_pass : D → D;               (* time *)
  ata_irq : D → bool              (* the interrupt line *)
}.

(** What a command that was accepted leads to. *)
Inductive work := ToDataIn (bytes : list Z) | ToDataOut | ToStore (bytes : list Z).
Inductive phase := Idle | Busy (n : nat) (w : work) | DataIn (bytes : list Z) | DataOut.

(** The registers that matter, the phase of the protocol, the interrupt line and the
    sectors of the two disks. *)
Record ata_view := mk_view {
  v_nsect : Z; v_lbal : Z; v_lbam : Z; v_lbah : Z; v_device : Z;
  v_phase : phase; v_line : bool; v_disk0 : list (list Z); v_disk1 : list (list Z)
}.

Definition with_phase x (p : ata_view) := mk_view (v_nsect p) (v_lbal p) (v_lbam p) (v_lbah p) (v_device p) x (v_line p) (v_disk0 p) (v_disk1 p).
Definition with_line x (p : ata_view) := mk_view (v_nsect p) (v_lbal p) (v_lbam p) (v_lbah p) (v_device p) (v_phase p) x (v_disk0 p) (v_disk1 p).
Definition with_reg (r v : Z) (p : ata_view) : ata_view :=
  mk_view (if r =? reg_nsect then v else v_nsect p) (if r =? reg_lbal then v else v_lbal p) (if r =? reg_lbam then v else v_lbam p)
    (if r =? reg_lbah then v else v_lbah p) (if r =? reg_device then v else v_device p) (v_phase p) (v_line p) (v_disk0 p) (v_disk1 p).

(** The sector the registers address, on the disk they select. *)
Definition lba (p : ata_view) : Z := v_lbal p + 2 ^ 8 * v_lbam p + 2 ^ 16 * v_lbah p + 2 ^ 24 * (v_device p mod 16).
Definition slave (p : ata_view) : bool := Z.testbit (v_device p) 4.
Definition disk_of (dev_no : Z) (p : ata_view) : list (list Z) := if dev_no =? 1 then v_disk1 p else v_disk0 p.
Definition selected (p : ata_view) : Z := if slave p then 1 else 0.
Definition with_disk (dev_no : Z) x (p : ata_view) : ata_view :=
  mk_view (v_nsect p) (v_lbal p) (v_lbam p) (v_lbah p) (v_device p) (v_phase p) (v_line p)
    (if dev_no =? 1 then v_disk0 p else x) (if dev_no =? 1 then x else v_disk1 p).

(** What a command starts: one sector, by linear address. *)
Definition accepts (cmd : Z) (p : ata_view) : option work :=
  if Z.testbit (v_device p) 6 && (v_nsect p =? 1) then
    match disk_of (selected p) p !! Z.to_nat (lba p) with
    | Some bytes => if cmd =? CMD_READ_SECTOR_RETRY then Some (ToDataIn bytes) else if cmd =? CMD_WRITE_SECTOR_RETRY then Some ToDataOut else None
    | None => None
    end
  else None.

(** Time: a busy disk comes nearer to its end, and there raises the line, except to ask
    for data. *)
Definition time (p : ata_view) : ata_view :=
  match v_phase p with
  | Busy (S n) w => with_phase (Busy n w) p
  | Busy O (ToDataIn bytes) => with_line true (with_phase (DataIn bytes) p)
  | Busy O ToDataOut => with_phase DataOut p
  | Busy O (ToStore bytes) => with_line true (with_phase Idle (with_disk (selected p) (<[Z.to_nat (lba p) := bytes]> (disk_of (selected p) p)) p))
  | _ => p
  end.

Definition is_busy (p : ata_view) : bool := match v_phase p with Busy _ _ => true | _ => false end.
Definition wants_data (p : ata_view) : bool := match v_phase p with DataIn _ | DataOut => true | _ => false end.

(** The documented behaviour: [latency] is how long a command or a transfer keeps the disk
    busy. *)
Class AtaDevice (D : Type) `{AtaOps D} := {
  view : D → ata_view;
  latency : D → Z → nat;
  status_bits d r : r = reg_status ∨ r = reg_alt_status →
    0 <= (ata_in r d).1 < 256 ∧ Z.testbit (ata_in r d).1 7 = is_busy (view d) ∧ (is_busy (view d) = false → Z.testbit (ata_in r d).1 3 = wants_data (view d));
  status_acknowledges d : view (ata_in reg_status d).2 = with_line false (view d);
  alt_status_is_silent d : view (ata_in reg_alt_status d).2 = view d;
  line_is d : ata_irq d = v_line (view d);
  register_holds d r v : 2 <= r <= 6 → v_phase (view d) = Idle → view (ata_out r v d) = with_reg r v (view d);
  command_starts d cmd w : v_phase (view d) = Idle → accepts cmd (view d) = Some w →
    view (ata_out reg_command cmd d) = with_phase (Busy (latency d cmd) w) (view d);
  time_passes d : view (ata_pass d) = time (view d);
  data_comes d bytes : v_phase (view d) = DataIn bytes → (ata_insw d).1 = bytes ∧ view (ata_insw d).2 = with_phase Idle (view d);
  data_goes d bytes : v_phase (view d) = DataOut → view (ata_outsw bytes d) = with_phase (Busy (latency d CMD_WRITE_SECTOR_RETRY) (ToStore bytes)) (view d)
}.

(** ** The state of a channel *)

Record channel (D : Type) := mk_chan {
  hw : D;
  expecting_interrupt : bool;
  completion_wait : Z;            (* the semaphore's value *)
  lock_held : bool;
  intr_on : bool;
  is_ata0 : bool; is_ata1 : bool;
  console : list Z;
  registered : list (list Z * list Z * Z)   (* disks given to the block layer: name, information, size *)
}.
Arguments mk_chan {D}. Arguments hw {D}. Arguments expecting_interrupt {D}. Arguments completion_wait {D}. Arguments lock_held {D}. Arguments intr_on {D}.
Arguments is_ata0 {D}. Arguments is_ata1 {D}. Arguments console {D}. Arguments registered {D}.

Section Driver.
Context {D : Type} `{AtaOps D}.
(** The number of the channel. *)
Context (chan_no : Z).
Notation I := (M (channel D)).

Definition set_hw (x : D) (s : channel D) : channel D := mk_chan x (expecting_interrupt s) (completion_wait s) (lock_held s) (intr_on s) (is_ata0 s) (is_ata1 s) (console s) (registered s).
Definition set_expecting x (s : channel D) := mk_chan (hw s) x (completion_wait s) (lock_held s) (intr_on s) (is_ata0 s) (is_ata1 s) (console s) (registered s).
Definition set_completion x (s : channel D) := mk_chan (hw s) (expecting_interrupt s) x (lock_held s) (intr_on s) (is_ata0 s) (is_ata1 s) (console s) (registered s).
Definition set_lock x (s : channel D) := mk_chan (hw s) (expecting_interrupt s) (completion_wait s) x (intr_on s) (is_ata0 s) (is_ata1 s) (console s) (registered s).
Definition set_is_ata (dev_no : Z) x (s : channel D) := mk_chan (hw s) (expecting_interrupt s) (completion_wait s) (lock_held s) (intr_on s)
  (if dev_no =? 1 then is_ata0 s else x) (if dev_no =? 1 then x else is_ata1 s) (console s) (registered s).
Definition set_console x (s : channel D) := mk_chan (hw s) (expecting_interrupt s) (completion_wait s) (lock_held s) (intr_on s) (is_ata0 s) (is_ata1 s) x (registered s).
Definition set_registered x (s : channel D) := mk_chan (hw s) (expecting_interrupt s) (completion_wait s) (lock_held s) (intr_on s) (is_ata0 s) (is_ata1 s) (console s) x.
Definition is_ata (dev_no : Z) (s : channel D) : bool := if dev_no =? 1 then is_ata1 s else is_ata0 s.

Definition inb (r : Z) : I Z := λ s, let (v, d) := ata_in r (hw s) in Ok (v, set_hw d s).
Definition outb (r v : Z) : I unit := modify (λ s, set_hw (ata_out r (u8 v) (hw s)) s).
Definition printf (format : list Z) (args : list arg) : I unit :=
  let* out := lift (vprintf format args) in modify (λ s, set_console (console s ++ out) s).

(** ["ide%zu"] and ["hd%c"] *)
Definition channel_name : list Z := chars "ide" ++ [48 + chan_no].
Definition disk_name (dev_no : Z) : list Z := chars "hd" ++ [97 + chan_no * 2 + dev_no].
Definition channel_irq : Z := 14 + chan_no + 32.

(** ** Interrupts and waiting *)

(** [interrupt_handler] on the channel's vector. *)
Definition interrupt_handler : I unit :=
  let* e := gets expecting_interrupt in
  if e then (let* _ := inb reg_status in ret tt) ;;; modify (λ s, set_completion (completion_wait s + 1) s)
  else printf (chars "%s: unexpected interrupt" ++ [10]) [Str (Some channel_name)].

(** Time passes, and an interrupt that is raised is taken. *)
Definition pass : I unit :=
  modify (λ s, set_hw (ata_pass (hw s)) s) ;;;
  let* s := gets id in
  if intr_on s && ata_irq (hw s) then interrupt_handler else ret tt.

(** [timer_msleep], [timer_usleep] and [timer_nsleep]; how long is not counted. *)
Definition timer_sleep : I unit := (let* on := gets intr_on in assert on) ;;; pass.

Fixpoint sema_down (fuel : nat) : I unit :=
  let* c := gets completion_wait in
  if 0 <? c then modify (set_completion (c - 1))
  else match fuel with O => fail NoFuel | S fuel => pass ;;; sema_down fuel end.

Definition lock_acquire : I unit := let* h := gets lock_held in if h then fail NoFuel else modify (set_lock true).
Definition lock_release : I unit := (let* h := gets lock_held in assert h) ;;; modify (set_lock false).

(** The rounds of the loop of [wait_until_idle]. *)
Fixpoint idle_rounds (n : nat) (dev_no : Z) : I unit :=
  match n with
  | O => printf (chars "%s: idle timeout" ++ [10]) [Str (Some (disk_name dev_no))]
  | S n => let* st := inb reg_status in
           if Z.land st (Z.lor STA_BSY STA_DRQ) =? 0 then ret tt else timer_sleep ;;; idle_rounds n dev_no
  end.
Definition wait_until_idle (dev_no : Z) : I unit := idle_rounds 1000 dev_no.

Fixpoint busy_rounds (n : nat) (i : Z) (dev_no : Z) : I bool :=
  match n with
  | O => printf (chars "failed" ++ [10]) [] ;;; ret false
  | S n =>
      (if i =? 700 then printf (chars "%s: busy, waiting...") [Str (Some (disk_name dev_no))] else ret tt) ;;;
      let* st := inb reg_alt_status in
      if Z.land st STA_BSY =? 0 then
        (if 700 <=? i then printf (chars "ok" ++ [10]) [] else ret tt) ;;;
        let* st := inb reg_alt_status in ret (negb (Z.land st STA_DRQ =? 0))
      else timer_sleep ;;; busy_rounds n (i + 1) dev_no
  end.
Definition wait_while_busy (dev_no : Z) : I bool := busy_rounds 3000 0 dev_no.

(** ** Commands *)

Definition select_device (dev_no : Z) : I unit :=
  outb reg_device (if dev_no =? 1 then Z.lor DEV_MBS DEV_DEV else DEV_MBS) ;;;
  (let* _ := inb reg_alt_status in ret tt) ;;;
  timer_sleep.

Definition select_device_wait (dev_no : Z) : I unit := wait_until_idle dev_no ;;; select_device dev_no ;;; wait_until_idle dev_no.

Definition select_sector (dev_no sec_no : Z) : I unit :=
  assert (sec_no <? 2 ^ 28) ;;;
  select_device_wait dev_no ;;;
  outb reg_nsect 1 ;;;
  outb reg_lbal sec_no ;;;
  outb reg_lbam (Z.shiftr sec_no 8) ;;;
  outb reg_lbah (Z.shiftr sec_no 16) ;;;
  outb reg_device (Z.lor (Z.lor (Z.lor DEV_MBS DEV_LBA) (if dev_no =? 1 then DEV_DEV else 0)) (Z.shiftr sec_no 24)).

Definition issue_pio_command (command : Z) : I unit :=
  (let* on := gets intr_on in assert on) ;;;
  modify (set_expecting true) ;;;
  outb reg_command command.

Definition input_sector : I (list Z) := λ s, let (bytes, d) := ata_insw (hw s) in Ok (bytes, set_hw d s).
Definition output_sector (sector : list Z) : I unit := modify (λ s, set_hw (ata_outsw sector (hw s)) s).

(** [fuel] bounds the wait for the completion interrupt. *)
Definition ide_read (fuel : nat) (dev_no sec_no : Z) : I (list Z) :=
  lock_acquire ;;;
  select_sector dev_no sec_no ;;;
  issue_pio_command CMD_READ_SECTOR_RETRY ;;;
  sema_down fuel ;;;
  let* ok := wait_while_busy dev_no in
  (if ok then ret tt else fail Panicked) ;;;
  let* buffer := input_sector in
  lock_release ;;; ret buffer.

Definition ide_write (fuel : nat) (dev_no sec_no : Z) (buffer : list Z) : I unit :=
  lock_acquire ;;;
  select_sector dev_no sec_no ;;;
  issue_pio_command CMD_WRITE_SECTOR_RETRY ;;;
  let* ok := wait_while_busy dev_no in
  (if ok then ret tt else fail Panicked) ;;;
  output_sector buffer ;;;
  sema_down fuel ;;;
  lock_release.

(** ** Detection *)

(** The presence test of [reset_channel] on a device. *)
Definition probe (dev_no : Z) : I bool :=
  select_device dev_no ;;;
  outb reg_nsect 85 ;;; outb reg_lbal 170 ;;;
  outb reg_nsect 170 ;;; outb reg_lbal 85 ;;;
  outb reg_nsect 85 ;;; outb reg_lbal 170 ;;;
  let* a := inb reg_nsect in
  if a =? 85 then let* b := inb reg_lbal in ret (b =? 170) else ret false.

Fixpoint await_slave (n : nat) : I unit :=
  match n with
  | O => ret tt
  | S n => let* a := inb reg_nsect in
           let* up := (if a =? 1 then let* b := inb reg_lbal in ret (b =? 1) else ret false) in
           if up then ret tt else timer_sleep ;;; await_slave n
  end.

Definition reset_channel : I unit :=
  let* p0 := probe 0 in
  let* p1 := probe 1 in
  outb reg_ctl 0 ;;; timer_sleep ;;;
  outb reg_ctl CTL_SRST ;;; timer_sleep ;;;
  outb reg_ctl 0 ;;; timer_sleep ;;;
  (if p0 then select_device 0 ;;; (let* _ := wait_while_busy 0 in ret tt) else ret tt) ;;;
  if p1 then select_device 1 ;;; await_slave 3000 ;;; (let* _ := wait_while_busy 1 in ret tt) else ret tt.

Definition check_device_type (dev_no : Z) : I bool :=
  select_device dev_no ;;;
  let* error := inb reg_error in
  let* lbam := inb reg_lbam in
  let* lbah := inb reg_lbah in
  let* status := inb reg_status in
  if (negb (error =? 1) && (negb (error =? 129) || (dev_no =? 1))) || (Z.land status STA_DRDY =? 0) || negb (Z.land status STA_BSY =? 0)
  then modify (set_is_ata dev_no false) ;;; ret (negb (error =? 129))
  else modify (set_is_ata dev_no (((lbam =? 0) && (lbah =? 0)) || ((lbam =? 60) && (lbah =? 195)))) ;;; ret true.

(** The bytes before the terminator. *)
Fixpoint c_string (l : list Z) : list Z := match l with [] => [] | c :: r => if c =? 0 then [] else c :: c_string r end.

Fixpoint swap_pairs (l : list Z) : list Z := match l with a :: b :: r => b :: a :: swap_pairs r | _ => l end.

(** The second loop: the number of characters kept of the first [n]. *)
Fixpoint text_size (n : nat) (l : list Z) : nat :=
  match n with
  | O => O
  | S n' => let c := nth n' l 0 in if negb (c =? 0) && negb (isspace c) then n else text_size n' l
  end.

(** The string that [descramble_ata_string] makes of the first [size] bytes. *)
Definition descramble_ata_string (string : list Z) (size : nat) : list Z :=
  let l := swap_pairs (take size string) in
  c_string (take (text_size (size - 1) l) l).

(** The disk that is registered is recorded; [Block.block_register] and [Block.partition_scan]
    go on from there. *)
Definition identify_ata_device (fuel : nat) (dev_no : Z) : I unit :=
  (let* s := gets id in assert (is_ata dev_no s)) ;;;
  select_device_wait dev_no ;;;
  issue_pio_command CMD_IDENTIFY_DEVICE ;;;
  sema_down fuel ;;;
  let* ok := wait_while_busy dev_no in
  if negb ok then modify (set_is_ata dev_no false) else
  let* id := input_sector in
  let capacity := from_le32 (drop 120 id) in
  let model := descramble_ata_string (drop 20 id) 20 in
  let serial := descramble_ata_string (drop 54 id) 40 in
  let* (extra_info, _) := lift (vsnprintf 128 (chars "model " ++ [34] ++ chars "%s" ++ [34] ++ chars ", serial " ++ [34] ++ chars "%s" ++ [34])
                                  [Str (Some model); Str (Some serial)]) in
  if 1024 * 1024 * 1024 / BLOCK_SECTOR_SIZE <=? capacity then
    printf (chars "%s: ignoring ") [Str (Some (disk_name dev_no))] ;;;
    (let* out := lift (print_human_readable_size (u32 (capacity * 512))) in modify (λ s, set_console (console s ++ out) s)) ;;;
    printf (chars "disk for safety" ++ [10]) [] ;;;
    modify (set_is_ata dev_no false)
  else modify (λ s, set_registered (registered s ++ [(disk_name dev_no, c_string extra_info, capacity)]) s).

(** The round of the loop of [ide_init] for the channel, after its interrupt was
    registered. *)
Definition init_channel (fuel : nat) : I unit :=
  modify (set_lock false) ;;; modify (set_expecting false) ;;; modify (set_completion 0) ;;;
  modify (set_is_ata 0 false) ;;; modify (set_is_ata 1 false) ;;;
  reset_channel ;;;
  (let* maybe := check_device_type 0 in if maybe then (let* _ := check_device_type 1 in ret tt) else ret tt) ;;;
  (let* s := gets id in if is_ata 0 s then identify_ata_device fuel 0 else ret tt) ;;;
  (let* s := gets id in if is_ata 1 s then identify_ata_device fuel 1 else ret tt).
End Driver.
