(* ===== verification/IdeSpec.v ===== *)
(** * What the disk driver promises (src/devices/ide.c)

    On hardware that follows the ATA protocol the driver's two operations are reads and
    writes of a list of sectors, and leave the channel ready for the next. *)

From S2P Require Import Prelude StdlibC Stdio StdioSpec Bits Ide.
Local Open Scope Z_scope.

Section Protocol.
Context {D : Type} {ops : AtaOps D} {dev : AtaDevice D}.
Context (chan_no : Z).
Notation I := (M (channel D)).
Implicit Types s : channel D.

(** The channel as the protocol sees it. *)
Definition seen s : ata_view := view (hw s).

Lemma with_line_id p : v_line p = false → with_line false p = p.
Proof. destruct p. cbn. by intros ->. Qed.

Lemma seen_set d s : seen (set_hw d s) = view d.
Proof. done. Qed.

(** The step [m] from [s] returns [a] and only touches the hardware, which it leaves in
    view [p]. *)
Definition goes {A} (m : I A) s (a : A) (p : ata_view) : Prop := ∃ d, m s = Ok (a, set_hw d s) ∧ view d = p.

Lemma goes_bind {A B} (m : I A) (k : A → I B) s a b p p' :
  goes m s a p → (∀ d, view d = p → goes (k a) (set_hw d s) b p') → goes (bind m k) s b p'.
Proof.
  intros (d & E & V) Hk. destruct (Hk d V) as (d' & E' & V'). exists d'. split; [|done]. by rewrite (bind_ok _ _ _ _ _ E), E'.
Qed.

(** Runs that may also print. *)
Definition goes_printing {A} (m : I A) s (a : A) (p : ata_view) : Prop := ∃ d c, m s = Ok (a, set_console c (set_hw d s)) ∧ view d = p.

Lemma land_bit x k : 0 <= k → Z.land x (2 ^ k) =? 0 = negb (Z.testbit x k).
Proof.
  intros Hk. destruct (Z.testbit x k) eqn:E; cbn.
  - apply Z.eqb_neq. intros H0. assert (T : Z.testbit (Z.land x (2 ^ k)) k = true) by (by rewrite Z.land_spec, E, Z.pow2_bits_true).
    by rewrite H0, Z.bits_0 in T.
  - apply Z.eqb_eq, Z.bits_inj_0. intros n. rewrite Z.land_spec, Z.pow2_bits_eqb by done.
    destruct (Z.eqb_spec k n) as [<-|]; [by rewrite E|apply andb_false_r].
Qed.

Lemma inb_alt s : ∃ v d, inb reg_alt_status s = Ok (v, set_hw d s) ∧ view d = seen s ∧
  (Z.land v STA_BSY =? 0) = negb (is_busy (seen s)) ∧ (is_busy (seen s) = false → negb (Z.land v STA_DRQ =? 0) = wants_data (seen s)).
Proof.
  destruct (status_bits (hw s) reg_alt_status) as (Hr & Hb & Hd); [by right|]. unfold inb. pose proof (alt_status_is_silent (hw s)) as Ha.
  destruct (ata_in reg_alt_status (hw s)) as [v d]. cbn [fst snd] in *. exists v, d. split; [done|]. split; [done|].
  change STA_BSY with (2 ^ 7). change STA_DRQ with (2 ^ 3). rewrite !land_bit, negb_involutive by lia. by rewrite Hb.
Qed.

(** Reading the status of an idle disk. *)
Lemma idle_rounds_run n dev_no s : v_phase (seen s) = Idle → goes (idle_rounds chan_no (S n) dev_no) s tt (with_line false (seen s)).
Proof.
  intros Hp. destruct (status_bits (hw s) reg_status) as (Hr & Hb & Hd); [by left|]. pose proof (status_acknowledges (hw s)) as Ha.
  cbn [idle_rounds]. unfold inb. unfold bind at 1. destruct (ata_in reg_status (hw s)) as [v d] eqn:E. cbn [fst snd] in *. exists d. split; [|done].
  fold (seen s) in Hb, Hd. assert (Hnb : is_busy (seen s) = false) by (unfold is_busy; by rewrite Hp). assert (Hnd : wants_data (seen s) = false) by (unfold wants_data; by rewrite Hp).
  rewrite Hnb in *. rewrite Hnd in Hd. specialize (Hd eq_refl).
  assert (Hz : Z.land v (Z.lor STA_BSY STA_DRQ) = 0).
  { rewrite Z.land_lor_distr_r. change STA_BSY with (2 ^ 7). change STA_DRQ with (2 ^ 3).
    pose proof (land_bit v 7 ltac:(lia)) as H7. pose proof (land_bit v 3 ltac:(lia)) as H3. rewrite Hb in H7. rewrite Hd in H3.
    apply Z.eqb_eq in H7, H3. by rewrite H7, H3. }
  by rewrite E, Hz.
Qed.

Lemma outb_run r v s : 2 <= r <= 6 → v_phase (seen s) = Idle → goes (outb r v) s tt (with_reg r (u8 v) (seen s)).
Proof. intros Hr Hp. eexists. split; [reflexivity|]. by apply register_holds. Qed.

(** Time that raises no interrupt, and time that does. *)
Lemma pass_run s : v_line (time (seen s)) = false → goes (pass chan_no) s tt (time (seen s)).
Proof.
  intros Hl. exists (ata_pass (hw s)). split; [|apply time_passes]. unfold pass. erewrite bind_ok by reflexivity. erewrite bind_ok by reflexivity. unfold id.
  cbn [hw set_hw]. rewrite line_is, time_passes. fold (seen s). rewrite Hl, andb_false_r. done.
Qed.

Lemma pass_interrupt s : v_line (time (seen s)) = true → intr_on s = true → expecting_interrupt s = true →
  ∃ d, pass chan_no s = Ok (tt, set_completion (completion_wait s + 1) (set_hw d s)) ∧ view d = with_line false (time (seen s)).
Proof.
  intros Hl Ho He. unfold pass. erewrite bind_ok by reflexivity. erewrite bind_ok by reflexivity. unfold id.
  cbn [hw set_hw intr_on]. rewrite line_is, time_passes. fold (seen s). rewrite Hl, Ho. cbn [andb].
  unfold interrupt_handler. erewrite bind_ok by reflexivity. cbn [expecting_interrupt set_hw]. rewrite He.
  unfold inb. pose proof (status_acknowledges (ata_pass (hw s))) as Ha. rewrite time_passes in Ha. fold (seen s) in Ha.
  destruct (ata_in reg_status (ata_pass (hw s))) as [v d] eqn:E. cbn [snd] in Ha. exists d. split; [|done].
  unfold bind. cbn [hw set_hw]. rewrite E. reflexivity.
Qed.

Lemma sleep_run s : intr_on s = true → v_line (time (seen s)) = false → goes (timer_sleep chan_no) s tt (time (seen s)).
Proof.
  intros Ho Hl. unfold timer_sleep. destruct (pass_run s Hl) as (d & E & V). exists d. split; [|done].
  rewrite (bind_ok _ _ s tt s) by (erewrite bind_ok by reflexivity; by apply assert_true). done.
Qed.

Lemma time_idle p : v_phase p = Idle → time p = p.
Proof. intros Hp. unfold time. by rewrite Hp. Qed.

(** ** Addressing a sector *)

Definition device_byte (dev_no : Z) : Z := if dev_no =? 1 then 176 else 160.

Lemma select_device_run dev_no s : intr_on s = true → v_phase (seen s) = Idle → v_line (seen s) = false →
  goes (select_device chan_no dev_no) s tt (with_reg reg_device (device_byte dev_no) (seen s)).
Proof.
  intros Ho Hp Hl. unfold select_device.
  assert (Hb : u8 (if dev_no =? 1 then Z.lor DEV_MBS DEV_DEV else DEV_MBS) = device_byte dev_no) by (unfold device_byte; by destruct (dev_no =? 1)).
  rewrite <- Hb. eapply goes_bind.
  - apply outb_run; [unfold reg_device; lia|done].
  - intros d V. eapply goes_bind with (a := tt).
    + destruct (inb_alt (set_hw d s)) as (v & d' & E & V' & _). exists d'. split; [by rewrite (bind_ok _ _ _ _ _ E)|]. rewrite V'. exact V.
    + intros d2 V2. destruct (sleep_run (set_hw d2 s)) as (d3 & E3 & V3); [done|rewrite seen_set, V2, time_idle by exact Hp; exact Hl|].
      exists d3. split; [done|]. rewrite seen_set, V2 in V3. rewrite time_idle in V3 by exact Hp. exact V3.
Qed.

Lemma select_device_wait_run dev_no s : intr_on s = true → v_phase (seen s) = Idle → v_line (seen s) = false →
  goes (select_device_wait chan_no dev_no) s tt (with_reg reg_device (device_byte dev_no) (seen s)).
Proof.
  intros Ho Hp Hl. assert (Hsame : with_line false (seen s) = seen s) by by apply with_line_id.
  unfold select_device_wait, wait_until_idle. eapply goes_bind; [apply idle_rounds_run; done|]. intros d V. rewrite Hsame in V.
  eapply goes_bind; [apply select_device_run; [done|change (v_phase (view d) = Idle); by rewrite V|change (v_line (view d) = false); by rewrite V]|].
  intros d2 V2. change (seen (set_hw d s)) with (view d) in V2. rewrite V in V2.
  destruct (idle_rounds_run 999 dev_no (set_hw d2 (set_hw d s))) as (d3 & E3 & V3); [change (v_phase (view d2) = Idle); by rewrite V2|].
  exists d3. split; [exact E3|]. rewrite V3. change (with_line false (view d2) = with_reg reg_device (device_byte dev_no) (seen s)). rewrite V2. by apply with_line_id.
Qed.

(** The registers after [select_sector]. *)
Definition addressed (dev_no sec_no : Z) (p : ata_view) : ata_view :=
  with_reg reg_device (device_byte dev_no + 64 + sec_no / 2 ^ 24) (with_reg reg_lbah (sec_no / 2 ^ 16 mod 256) (with_reg reg_lbam (sec_no / 2 ^ 8 mod 256)
    (with_reg reg_lbal (sec_no mod 256) (with_reg reg_nsect 1 (with_reg reg_device (device_byte dev_no) p))))).

Lemma sector_byte dev_no sec_no : 0 <= sec_no < 2 ^ 28 →
  u8 (Z.lor (Z.lor (Z.lor DEV_MBS DEV_LBA) (if dev_no =? 1 then DEV_DEV else 0)) (Z.shiftr sec_no 24)) = device_byte dev_no + 64 + sec_no / 2 ^ 24.
Proof.
  intros Hs. rewrite Z.shiftr_div_pow2 by lia. unfold device_byte. assert (Hq : 0 <= sec_no / 2 ^ 24 < 16) by mod_lia.
  destruct (dev_no =? 1); [change (Z.lor (Z.lor DEV_MBS DEV_LBA) DEV_DEV) with 240|change (Z.lor (Z.lor DEV_MBS DEV_LBA) 0) with 224];
    rewrite (lor_disjoint 4) by (done || lia); unfold u8; rewrite Z.mod_small by lia; lia.
Qed.

Lemma select_sector_run dev_no sec_no s : intr_on s = true → v_phase (seen s) = Idle → v_line (seen s) = false → 0 <= sec_no < 2 ^ 28 →
  goes (select_sector chan_no dev_no sec_no) s tt (addressed dev_no sec_no (seen s)).
Proof.
  intros Ho Hp Hl Hs. unfold select_sector, addressed. unfold goes. rewrite (bind_ok _ _ s tt s) by (apply assert_true, Z.ltb_lt; lia).
  change (goes (select_device_wait chan_no dev_no ;;; outb reg_nsect 1 ;;; outb reg_lbal sec_no ;;; outb reg_lbam (Z.shiftr sec_no 8) ;;; outb reg_lbah (Z.shiftr sec_no 16) ;;;
    outb reg_device (Z.lor (Z.lor (Z.lor DEV_MBS DEV_LBA) (if dev_no =? 1 then DEV_DEV else 0)) (Z.shiftr sec_no 24))) s tt (addressed dev_no sec_no (seen s))).
  unfold addressed. set (p := seen s) in *.
  eapply goes_bind; [by apply select_device_wait_run|]. fold p. intros d1 V1.
  eapply goes_bind; [apply outb_run; [unfold reg_nsect; lia|by rewrite seen_set, V1]|]. rewrite seen_set, V1. intros d2 V2.
  eapply goes_bind; [apply outb_run; [unfold reg_lbal; lia|by rewrite seen_set, V2]|]. rewrite seen_set, V2. intros d3 V3.
  eapply goes_bind; [apply outb_run; [unfold reg_lbam; lia|by rewrite seen_set, V3]|]. rewrite seen_set, V3. intros d4 V4.
  eapply goes_bind; [apply outb_run; [unfold reg_lbah; lia|by rewrite seen_set, V4]|]. rewrite seen_set, V4. intros d5 V5.
  edestruct (outb_run reg_device) as (d6 & E6 & V6); [unfold reg_device; lia| |exists d6; split; [exact E6|]]; [by rewrite seen_set, V5|].
  rewrite V6, seen_set, V5, sector_byte by done. rewrite !Z.shiftr_div_pow2 by lia. reflexivity.
Qed.

Lemma addressed_lba dev_no sec_no p : 0 <= sec_no < 2 ^ 28 → lba (addressed dev_no sec_no p) = sec_no.
Proof.
  intros Hs. unfold lba, addressed. cbn [v_lbal v_lbam v_lbah v_device with_reg reg_device reg_lbah reg_lbam reg_lbal reg_nsect Z.eqb Pos.eqb].
  unfold device_byte. destruct (dev_no =? 1); mod_lia.
Qed.

Lemma addressed_bits dev_no sec_no p : 0 <= sec_no < 2 ^ 28 →
  Z.testbit (v_device (addressed dev_no sec_no p)) 6 = true ∧ slave (addressed dev_no sec_no p) = (dev_no =? 1).
Proof.
  intros Hs. unfold slave, addressed. cbn [v_device with_reg reg_device Z.eqb Pos.eqb]. rewrite !Z.testbit_eqb by lia. unfold device_byte.
  destruct (dev_no =? 1); split; (apply Z.eqb_eq || apply Z.eqb_neq); mod_lia.
Qed.

(** What the registers of a view address, as a disk. *)
Lemma addressed_disk dev_no sec_no p : 0 <= sec_no < 2 ^ 28 →
  disk_of (selected (addressed dev_no sec_no p)) (addressed dev_no sec_no p) = disk_of dev_no p.
Proof. intros Hs. unfold selected. destruct (addressed_bits dev_no sec_no p Hs) as [_ ->]. unfold disk_of. by destruct (dev_no =? 1). Qed.

Lemma addressed_accepts dev_no sec_no p cmd old w : 0 <= sec_no < 2 ^ 28 → disk_of dev_no p !! Z.to_nat sec_no = Some old →
  (cmd = CMD_READ_SECTOR_RETRY ∧ w = ToDataIn old) ∨ (cmd = CMD_WRITE_SECTOR_RETRY ∧ w = ToDataOut) →
  accepts cmd (addressed dev_no sec_no p) = Some w.
Proof.
  intros Hs Hd Hc. unfold accepts. destruct (addressed_bits dev_no sec_no p Hs) as [-> _].
  rewrite addressed_disk, addressed_lba, Hd by done. destruct Hc as [[-> ->]|[-> ->]]; reflexivity.
Qed.

(** ** Waiting *)

(** The view when the work [w] of a busy disk is done. *)
Definition done_with (w : work) (p : ata_view) : ata_view := time (with_phase (Busy 0 w) p).

Definition interrupts (w : work) : Prop := w ≠ ToDataOut.

(** The semaphore is raised by the interrupt at the end of the work, and not before. *)
Lemma sema_down_run fuel n w s : v_phase (seen s) = Busy n w → interrupts w → v_line (seen s) = false → completion_wait s = 0 →
  intr_on s = true → expecting_interrupt s = true → (n < fuel)%nat →
  goes (sema_down chan_no fuel) s tt (with_line false (done_with w (seen s))).
Proof.
  revert n s. induction fuel as [|fuel IH]; intros n s Hp Hw Hl Hc Ho He Hf; [lia|].
  cbn [sema_down]. unfold goes. erewrite bind_ok by reflexivity. rewrite Hc. cbn [Z.ltb Z.compare].
  destruct n as [|n].
  - assert (Hline : v_line (time (seen s)) = true) by (unfold time; rewrite Hp; destruct w; [done| |done]; by destruct Hw).
    assert (Hend : time (seen s) = done_with w (seen s)) by (unfold done_with; f_equal; rewrite <- Hp; by destruct (seen s)).
    destruct (pass_interrupt s Hline Ho He) as (d & E & V). rewrite (bind_ok _ _ _ _ _ E). exists d. split; [|by rewrite V, Hend].
    rewrite Hc. destruct fuel; cbn [sema_down]; erewrite bind_ok by reflexivity; cbn [completion_wait set_completion Z.ltb Z.compare Z.add Pos.add];
      unfold modify; do 2 f_equal; destruct s; cbn in Hc |- *; by subst.
  - assert (Ht : time (seen s) = with_phase (Busy n w) (seen s)) by (unfold time; by rewrite Hp).
    destruct (pass_run s) as (d & E & V); [by rewrite Ht|]. rewrite (bind_ok _ _ _ _ _ E). rewrite Ht in V.
    destruct (IH n (set_hw d s)) as (d' & E' & V'); try done; try (rewrite seen_set, V; done); [lia|].
    exists d'. split; [exact E'|]. rewrite V', seen_set, V. done.
Qed.

Lemma disk_say_run (format : list Z) args out s : vprintf format args = Ok out → printf format args s = Ok (tt, set_console (console s ++ out) s).
Proof. intros E. unfold printf. by rewrite E. Qed.

Lemma busy_text name : vprintf (chars "%s: busy, waiting...") [Str (Some name)] = Ok (name ++ chars ": busy, waiting...").
Proof. cbn -[__vprintf]. print_format. Qed.

(** A message that may be printed. *)
Lemma maybe_say (b : bool) format args out s : vprintf format args = Ok out →
  ∃ c, (if b then printf format args else ret tt) s = Ok (tt, set_console c s).
Proof.
  intros E. destruct b; [exists (console s ++ out); by apply disk_say_run|]. exists (console s). by destruct s.
Qed.

Lemma poll_ready k i dev_no s : is_busy (seen s) = false → wants_data (seen s) = true →
  goes_printing (busy_rounds chan_no (S k) i dev_no) s true (seen s).
Proof.
  intros Hb Hw. cbn [busy_rounds]. unfold goes_printing.
  destruct (maybe_say (i =? 700) _ _ _ s (busy_text (disk_name chan_no dev_no))) as [c1 E1]. rewrite (bind_ok _ _ _ _ _ E1).
  destruct (inb_alt (set_console c1 s)) as (v & d & E2 & V2 & B2 & _). change (seen (set_console c1 s)) with (seen s) in *. rewrite (bind_ok _ _ _ _ _ E2), B2, Hb. cbn [negb].
  destruct (maybe_say (700 <=? i) (chars "ok" ++ [10]) [] (chars "ok" ++ [10]) (set_hw d (set_console c1 s)) eq_refl) as [c2 E3]. rewrite (bind_ok _ _ _ _ _ E3).
  destruct (inb_alt (set_console c2 (set_hw d (set_console c1 s)))) as (v' & d' & E4 & V4 & _ & D4). rewrite (bind_ok _ _ _ _ _ E4).
  change (seen (set_console c2 (set_hw d (set_console c1 s)))) with (view d) in *. rewrite V2 in *. rewrite (D4 Hb), Hw.
  exists d', c2. split; [reflexivity|done].
Qed.

(** A round that finds the disk busy. *)
Lemma poll_step k i dev_no s : is_busy (seen s) = true → v_line (time (seen s)) = false → intr_on s = true →
  ∃ c d, busy_rounds chan_no (S k) i dev_no s = busy_rounds chan_no k (i + 1) dev_no (set_hw d (set_console c s)) ∧ view d = time (seen s).
Proof.
  intros Hb Ht Ho. cbn [busy_rounds]. destruct (maybe_say (i =? 700) _ _ _ s (busy_text (disk_name chan_no dev_no))) as [c1 E1]. rewrite (bind_ok _ _ _ _ _ E1).
  destruct (inb_alt (set_console c1 s)) as (v & d & E2 & V2 & B2 & _). change (seen (set_console c1 s)) with (seen s) in *.
  rewrite (bind_ok _ _ _ _ _ E2), B2, Hb. cbn [negb]. set (s1 := set_hw d (set_console c1 s)).
  destruct (sleep_run s1 Ho) as (d2 & E3 & V3); [change (seen s1) with (view d); by rewrite V2|]. rewrite (bind_ok _ _ _ _ _ E3).
  exists c1, d2. split; [reflexivity|]. rewrite V3. change (seen s1) with (view d). by rewrite V2.
Qed.

(** Polling a disk that is busy for [n] more units of time. *)
Lemma poll_busy k i n dev_no s : v_phase (seen s) = Busy n ToDataOut → v_line (seen s) = false → intr_on s = true →
  if (S n <? k)%nat then goes_printing (busy_rounds chan_no k i dev_no) s true (with_phase DataOut (seen s))
  else ∃ p, goes_printing (busy_rounds chan_no k i dev_no) s false p.
Proof.
  revert i n s. induction k as [|k IH]; intros i n s Hp Hl Ho.
  - exists (seen s), (hw s), (console s ++ chars "failed" ++ [10]). split; [|done]. cbn [busy_rounds].
    rewrite (bind_ok _ _ _ _ _ (disk_say_run (chars "failed" ++ [10]) [] (chars "failed" ++ [10]) s eq_refl)). by destruct s.
  - destruct (poll_step k i dev_no s) as (c & d & E & V); [unfold is_busy; by rewrite Hp|unfold time; rewrite Hp; by destruct n|done|].
    set (s2 := set_hw d (set_console c s)) in *. unfold goes_printing in *. rewrite E. destruct n as [|n].
    + assert (Ht : time (seen s) = with_phase DataOut (seen s)) by (unfold time; by rewrite Hp). rewrite Ht in V.
      destruct k as [|k]; cbn [Nat.ltb Nat.leb].
      * exists (view d), d, (console s2 ++ chars "failed" ++ [10]). split; [|done]. cbn [busy_rounds].
        by rewrite (bind_ok _ _ _ _ _ (disk_say_run (chars "failed" ++ [10]) [] (chars "failed" ++ [10]) s2 eq_refl)).
      * destruct (poll_ready k (i + 1) dev_no s2) as (d' & c' & E' & V'); [change (seen s2) with (view d); by rewrite V..|].
        exists d', c'. split; [by rewrite E'|]. rewrite V'. change (seen s2) with (view d). done.
    + assert (Ht : time (seen s) = with_phase (Busy n ToDataOut) (seen s)) by (unfold time; by rewrite Hp). rewrite Ht in V.
      specialize (IH (i + 1) n s2). change (seen s2) with (view d) in IH. rewrite V in IH. specialize (IH eq_refl Hl Ho).
      change (S (S n) <? S k)%nat with (S n <? k)%nat. destruct (S n <? k)%nat.
      * destruct IH as (d' & c' & E' & V'). exists d', c'. split; [by rewrite E'|done].
      * destruct IH as (p & d' & c' & E' & V'). exists p, d', c'. split; [by rewrite E'|done].
Qed.

(** ** Reads and writes *)

(** A channel nobody uses. *)
Definition ready s : Prop :=
  v_phase (seen s) = Idle ∧ v_line (seen s) = false ∧ completion_wait s = 0 ∧ intr_on s = true ∧ lock_held s = false.

Definition same_disks (p p' : ata_view) : Prop := v_disk0 p' = v_disk0 p ∧ v_disk1 p' = v_disk1 p.

(** From the lock to the command. *)
Definition start_command (dev_no sec_no cmd : Z) : I unit := lock_acquire ;;; select_sector chan_no dev_no sec_no ;;; issue_pio_command cmd.

Lemma start_run dev_no sec_no cmd old w s : ready s → 0 <= sec_no < 2 ^ 28 → disk_of dev_no (seen s) !! Z.to_nat sec_no = Some old →
  (cmd = CMD_READ_SECTOR_RETRY ∧ w = ToDataIn old) ∨ (cmd = CMD_WRITE_SECTOR_RETRY ∧ w = ToDataOut) →
  ∃ d n, start_command dev_no sec_no cmd s = Ok (tt, set_hw d (set_expecting true (set_lock true s))) ∧
    view d = with_phase (Busy n w) (addressed dev_no sec_no (seen s)) ∧ (∃ d0, n = latency d0 cmd).
Proof.
  intros (Hp & Hl & Hc & Ho & Hk) Hs Hd Hcmd. unfold start_command. set (s1 := set_lock true s).
  rewrite (bind_ok _ _ s tt s1) by (unfold lock_acquire, bind, gets; by rewrite Hk).
  destruct (select_sector_run dev_no sec_no s1) as (d1 & E1 & V1); try done. rewrite (bind_ok _ _ _ _ _ E1).
  unfold issue_pio_command. rewrite (bind_ok _ _ (set_hw d1 s1) tt (set_hw d1 s1)) by (erewrite bind_ok by reflexivity; by apply assert_true).
  erewrite bind_ok by reflexivity. eexists _, (latency d1 cmd). split; [reflexivity|]. split; [|by eexists].
  cbn [hw set_expecting set_hw]. assert (Hu : u8 cmd = cmd) by (destruct Hcmd as [[-> _]|[-> _]]; reflexivity). rewrite Hu.
  rewrite (command_starts d1 cmd w), V1; [done|by rewrite V1|]. rewrite V1. by eapply addressed_accepts.
Qed.

Lemma start_assoc {A} dev_no sec_no cmd (k : I A) s :
  (lock_acquire ;;; select_sector chan_no dev_no sec_no ;;; issue_pio_command cmd ;;; k) s = (start_command dev_no sec_no cmd ;;; k) s.
Proof.
  unfold start_command, bind. destruct (lock_acquire s) as [[[] s1]|]; [|done].
  by destruct (select_sector chan_no dev_no sec_no s1) as [[[] s2]|].
Qed.

Lemma ide_read_run fuel dev_no sec_no s : ide_read chan_no fuel dev_no sec_no s =
  (start_command dev_no sec_no CMD_READ_SECTOR_RETRY ;;; sema_down chan_no fuel ;;;
   let* ok := wait_while_busy chan_no dev_no in (if ok then ret tt else fail Panicked) ;;;
   let* buffer := input_sector in lock_release ;;; ret buffer) s.
Proof. apply start_assoc. Qed.

Lemma ide_write_run fuel dev_no sec_no buffer s : ide_write chan_no fuel dev_no sec_no buffer s =
  (start_command dev_no sec_no CMD_WRITE_SECTOR_RETRY ;;;
   let* ok := wait_while_busy chan_no dev_no in (if ok then ret tt else fail Panicked) ;;;
   output_sector buffer ;;; sema_down chan_no fuel ;;; lock_release) s.
Proof. apply start_assoc. Qed.

Lemma read_sector dev_no sec_no old s : ready s → 0 <= sec_no < 2 ^ 28 → disk_of dev_no (seen s) !! Z.to_nat sec_no = Some old →
  ∃ fuel0, ∀ fuel, (fuel0 <= fuel)%nat → ∃ s', ide_read chan_no fuel dev_no sec_no s = Ok (old, s') ∧ ready s' ∧ same_disks (seen s) (seen s').
Proof.
  intros Hr Hs Hd. destruct (start_run dev_no sec_no CMD_READ_SECTOR_RETRY old (ToDataIn old) s Hr Hs Hd ltac:(by left)) as (d & n & E & V & _).
  exists (S n). intros fuel Hf. rewrite ide_read_run, (bind_ok _ _ _ _ _ E). set (s1 := set_hw d (set_expecting true (set_lock true s))).
  destruct Hr as (Hp & Hl & Hc & Ho & Hk). set (p := addressed dev_no sec_no (seen s)) in *.
  destruct (sema_down_run fuel n (ToDataIn old) s1) as (d2 & E2 & V2); try done; try (change (seen s1) with (view d); by rewrite V). 
  rewrite (bind_ok _ _ _ _ _ E2). change (seen s1) with (view d) in V2. rewrite V in V2.
  assert (V2' : view d2 = with_line false (with_phase (DataIn old) p)) by (rewrite V2; reflexivity). clear V2.
  destruct (poll_ready 2999 0 dev_no (set_hw d2 s1)) as (d3 & c & E3 & V3); [rewrite seen_set; by rewrite V2'..|].
  unfold wait_while_busy. rewrite (bind_ok _ _ _ _ _ E3). erewrite (bind_ok _ _ (set_console c _)) by reflexivity.
  rewrite seen_set, V2' in V3. destruct (data_comes d3 old) as [D1 D2]; [by rewrite V3|].
  unfold input_sector at 1. unfold bind at 1. cbn [hw set_console set_hw]. destruct (ata_insw d3) as [bytes d4] eqn:E4. cbn [fst snd] in *. subst bytes.
  eexists. split; [reflexivity|]. split; [|unfold seen at 2; cbn [hw]; change (same_disks (seen s) (view d4)); rewrite D2, V3; by split].
  unfold ready, seen. cbn. rewrite D2, V3. by split_and!.
Qed.

(** The disk after a sector was stored. *)
Definition stored (dev_no sec_no : Z) (buffer : list Z) (p p' : ata_view) : Prop :=
  disk_of dev_no p' = <[Z.to_nat sec_no := buffer]> (disk_of dev_no p) ∧ disk_of (1 - dev_no) p' = disk_of (1 - dev_no) p.

Lemma done_store dev_no sec_no buffer p : 0 <= sec_no < 2 ^ 28 → dev_no = 0 ∨ dev_no = 1 →
  stored dev_no sec_no buffer p (done_with (ToStore buffer) (addressed dev_no sec_no p)).
Proof.
  intros Hs Hd. unfold done_with, time. cbn [v_phase with_phase]. set (q := addressed dev_no sec_no p).
  change (selected (with_phase (Busy 0 (ToStore buffer)) q)) with (selected q). change (lba (with_phase (Busy 0 (ToStore buffer)) q)) with (lba q).
  change (disk_of (selected q) (with_phase (Busy 0 (ToStore buffer)) q)) with (disk_of (selected q) q). unfold q. rewrite addressed_lba, addressed_disk by done.
  unfold selected. destruct (addressed_bits dev_no sec_no p Hs) as [_ ->]. by destruct Hd as [->| ->].
Qed.

Lemma write_sector dev_no sec_no buffer old s : ready s → 0 <= sec_no < 2 ^ 28 → dev_no = 0 ∨ dev_no = 1 → disk_of dev_no (seen s) !! Z.to_nat sec_no = Some old →
  (∀ d, (latency d CMD_WRITE_SECTOR_RETRY <= 2998)%nat) →
  ∃ fuel0, ∀ fuel, (fuel0 <= fuel)%nat → ∃ s', ide_write chan_no fuel dev_no sec_no buffer s = Ok (tt, s') ∧ ready s' ∧
    stored dev_no sec_no buffer (seen s) (seen s').
Proof.
  intros Hr Hs Hdev Hd Hlat. destruct (start_run dev_no sec_no CMD_WRITE_SECTOR_RETRY old ToDataOut s Hr Hs Hd ltac:(by right)) as (d & n & E & V & d0 & Hn).
  destruct Hr as (Hp & Hl & Hc & Ho & Hk). set (p := addressed dev_no sec_no (seen s)) in *. set (s1 := set_hw d (set_expecting true (set_lock true s))) in *.
  pose proof (poll_busy 3000 0 n dev_no s1) as Hpoll. change (seen s1) with (view d) in Hpoll. rewrite V in Hpoll. specialize (Hpoll eq_refl Hl Ho).
  specialize (Hlat d0). rewrite <- Hn in Hlat. rewrite (proj2 (Nat.ltb_lt (S n) 3000)) in Hpoll by lia. destruct Hpoll as (d2 & c & E2 & V2).
  set (s2 := set_console c (set_hw d2 s1)) in *. pose proof (data_goes d2 buffer) as Hgo. rewrite V2 in Hgo. specialize (Hgo eq_refl).
  set (d3 := ata_outsw buffer d2) in *. set (m := latency d2 CMD_WRITE_SECTOR_RETRY) in *.
  exists (S m). intros fuel Hf. rewrite ide_write_run, (bind_ok _ _ _ _ _ E). unfold wait_while_busy. rewrite (bind_ok _ _ _ _ _ E2).
  erewrite (bind_ok _ _ s2) by reflexivity. rewrite (bind_ok _ _ s2 tt (set_hw d3 s2)) by reflexivity.
  destruct (sema_down_run fuel m (ToStore buffer) (set_hw d3 s2)) as (d4 & E4 & V4); try done; try (rewrite seen_set, Hgo; done).
  rewrite (bind_ok _ _ _ _ _ E4). rewrite seen_set, Hgo in V4. eexists. split; [reflexivity|].
  change (seen (set_lock false (set_hw d4 (set_hw d3 s2)))) with (view d4).
  split; [|rewrite V4; by apply (done_store dev_no sec_no buffer (seen s))].
  unfold ready. change (seen (set_lock false (set_hw d4 (set_hw d3 s2)))) with (view d4). rewrite V4. by split_and!.
Qed.

(** A disk that takes too long to ask for the data. *)
Lemma write_timeout fuel dev_no sec_no buffer old s : ready s → 0 <= sec_no < 2 ^ 28 → disk_of dev_no (seen s) !! Z.to_nat sec_no = Some old →
  (∀ d, (2998 < latency d CMD_WRITE_SECTOR_RETRY)%nat) → ide_write chan_no fuel dev_no sec_no buffer s = Fail Panicked.
Proof.
  intros Hr Hs Hd Hlat. destruct (start_run dev_no sec_no CMD_WRITE_SECTOR_RETRY old ToDataOut s Hr Hs Hd ltac:(by right)) as (d & n & E & V & d0 & Hn).
  destruct Hr as (Hp & Hl & Hc & Ho & Hk). set (s1 := set_hw d (set_expecting true (set_lock true s))) in *.
  pose proof (poll_busy 3000 0 n dev_no s1) as Hpoll. change (seen s1) with (view d) in Hpoll. rewrite V in Hpoll. specialize (Hpoll eq_refl Hl Ho).
  specialize (Hlat d0). rewrite <- Hn in Hlat. rewrite (proj2 (Nat.ltb_ge (S n) 3000)) in Hpoll by lia. destruct Hpoll as (q & d2 & c & E2 & _).
  rewrite ide_write_run, (bind_ok _ _ _ _ _ E). unfold wait_while_busy. by rewrite (bind_ok _ _ _ _ _ E2).
Qed.

(** C24: on hardware that keeps to the protocol the driver is a disk.  With the channel free
    a read returns the sector and changes neither disk, after however long the hardware
    takes; a write puts the sector in its place and changes nothing else, provided the
    hardware asks for the data within 2999 polls, and stops the kernel otherwise; both
    leave the channel free, with no completion pending; and neither goes beyond 2^28
    sectors. *)
Theorem ide_is_a_disk dev_no sec_no old s : ready s → dev_no = 0 ∨ dev_no = 1 → 0 <= sec_no →
  (disk_of dev_no (seen s) !! Z.to_nat sec_no = Some old → sec_no < 2 ^ 28 →
     (∃ fuel0, ∀ fuel, (fuel0 <= fuel)%nat → ∃ s', ide_read chan_no fuel dev_no sec_no s = Ok (old, s') ∧ ready s' ∧ same_disks (seen s) (seen s')) ∧
     (∀ buffer, (∀ d, (latency d CMD_WRITE_SECTOR_RETRY <= 2998)%nat) →
        ∃ fuel0, ∀ fuel, (fuel0 <= fuel)%nat → ∃ s', ide_write chan_no fuel dev_no sec_no buffer s = Ok (tt, s') ∧ ready s' ∧
          stored dev_no sec_no buffer (seen s) (seen s')) ∧
     (∀ buffer fuel, (∀ d, (2998 < latency d CMD_WRITE_SECTOR_RETRY)%nat) → ide_write chan_no fuel dev_no sec_no buffer s = Fail Panicked)) ∧
  (2 ^ 28 <= sec_no → ∀ fuel buffer, ide_read chan_no fuel dev_no sec_no s = Fail AssertFailed ∧ ide_write chan_no fuel dev_no sec_no buffer s = Fail AssertFailed).
Proof.
  intros Hr Hdev H0. split.
  - intros Hd Hs. split; [by apply read_sector|]. split; [intros buffer Hlat; by eapply write_sector|]. intros. by eapply write_timeout.
  - intros Hs fuel buffer. destruct Hr as (_ & _ & _ & _ & Hk).
    assert (E : lock_acquire s = Ok (tt, set_lock true s)) by (unfold lock_acquire, bind, gets; by rewrite Hk).
    assert (F : select_sector chan_no dev_no sec_no (set_lock true s) = Fail AssertFailed).
    { unfold select_sector. unfold bind at 1. rewrite assert_false; [done|]. apply Z.ltb_ge. lia. }
    unfold ide_read, ide_write. rewrite !(bind_ok _ _ _ _ _ E). unfold bind at 1. rewrite F. split; [done|]. unfold bind at 1. by rewrite F.
Qed.
End Protocol.

(** ** A simulated disk *)

(** A disk that is its own view and takes [5] units of time. *)
Definition sim_status (p : ata_view) : Z := (if is_busy p then 128 else 64) + (if wants_data p then 8 else 0).

#[export] Instance sim_ops : AtaOps ata_view := {
  ata_in r p := if r =? reg_status then (sim_status p, with_line false p) else if r =? reg_alt_status then (sim_status p, p) else (0, p);
  ata_out r v p :=
    match v_phase p with
    | Idle => if r =? reg_command then match accepts v p with Some w => with_phase (Busy 5 w) p | None => p end else with_reg r v p
    | _ => p
    end;
  ata_insw p := match v_phase p with DataIn bytes => (bytes, with_phase Idle p) | _ => ([], p) end;
  ata_outsw bytes p := match v_phase p with DataOut => with_phase (Busy 5 (ToStore bytes)) p | _ => p end;
  ata_pass := time;
  ata_irq := v_line
}.

Lemma sim_status_bits p : 0 <= sim_status p < 256 ∧ Z.testbit (sim_status p) 7 = is_busy p ∧ (is_busy p = false → Z.testbit (sim_status p) 3 = wants_data p).
Proof. unfold sim_status, is_busy, wants_data. destruct (v_phase p); (split; [cbn; lia|]); (split; [done|]); done. Qed.

#[export] Program Instance sim_device : AtaDevice ata_view := {| view p := p; latency _ _ := 5%nat |}.
Next Obligation. intros p r [->| ->]; apply sim_status_bits. Qed.
Next Obligation. done. Qed.
Next Obligation. done. Qed.
Next Obligation. done. Qed.
Next Obligation. intros p r v Hr Hp. cbn. rewrite Hp. by rewrite (proj2 (Z.eqb_neq r reg_command)) by (unfold reg_command, reg_status; lia). Qed.
Next Obligation. intros p cmd w Hp Hw. cbn. by rewrite Hp, Hw. Qed.
Next Obligation. done. Qed.
Next Obligation. intros p bytes Hp. cbn. by rewrite Hp. Qed.
Next Obligation. intros p bytes Hp. cbn. by rewrite Hp. Qed.

Definition sim_channel : channel ata_view :=
  mk_chan (mk_view 0 0 0 0 0 Idle false [] [replicate 512 1; replicate 512 2; replicate 512 3]) false 0 false true false true [] [].

Lemma ide_is_a_disk_witness :
  ready sim_channel ∧
  ∃ fuel s', ide_write 0 fuel 1 2 (replicate 512 9) sim_channel = Ok (tt, s') ∧ v_disk1 (hw s') = [replicate 512 1; replicate 512 2; replicate 512 9] ∧
    ∃ fuel' s'', ide_read 0 fuel' 1 2 s' = Ok (replicate 512 9, s'').
Proof.
  assert (Hr : ready sim_channel) by by split_and!. split; [exact Hr|].
  destruct (ide_is_a_disk 0 1 2 (replicate 512 3) sim_channel Hr ltac:(by right) ltac:(lia)) as [H _].
  destruct H as (_ & W & _); [reflexivity|lia|]. destruct (W (replicate 512 9)) as (fuel & Hw); [intros d; cbn; lia|].
  destruct (Hw fuel ltac:(lia)) as (s' & E & Hr' & Hst & _). exists fuel, s'. split; [exact E|].
  split; [exact Hst|].
  destruct (ide_is_a_disk 0 1 2 (replicate 512 9) s' Hr' ltac:(by right) ltac:(lia)) as [R _].
  destruct R as ((fuel' & Hrd) & _); [rewrite Hst; reflexivity|lia|]. destruct (Hrd fuel' ltac:(lia)) as (s'' & E' & _). exists fuel', s''. exact E'.
Defined.

(** ** The texts of a disk's identification *)

Lemma swap_pairs_involutive l : swap_pairs (swap_pairs l) = l.
Proof.
  assert (H : ∀ n l, (length l <= n)%nat → swap_pairs (swap_pairs l) = l).
  { clear l. induction n as [|n IH]; intros [|a [|b l]] Hl; simpl in *; try done; try lia. by rewrite IH by lia. }
  by apply (H (length l)).
Qed.

Lemma length_swap_pairs l : length (swap_pairs l) = length l.
Proof.
  assert (H : ∀ n l, (length l <= n)%nat → length (swap_pairs l) = length l).
  { clear l. induction n as [|n IH]; intros [|a [|b l]] Hl; simpl in *; try done; try lia. by rewrite IH by lia. }
  by apply (H (length l)).
Qed.

Lemma text_size_pad n t k : (n <= length t + k)%nat → (length t <= n)%nat → (∀ c, last t = Some c → c ≠ 0 ∧ isspace c = false) →
  text_size n (t ++ replicate k 32) = length t.
Proof.
  intros Hn Ht Hlast. induction n as [|n IH]; [simpl; lia|]. cbn [text_size]. destruct (Nat.eq_dec (S n) (length t)) as [E|E].
  - rewrite app_nth1 by lia. destruct (lookup_lt_is_Some_2 t n) as [c Hc]; [lia|]. rewrite (nth_lookup_Some _ _ _ _ Hc).
    destruct (Hlast c) as [H0 Hs]; [rewrite last_lookup; by rewrite <- E|]. rewrite (proj2 (Z.eqb_neq c 0) H0), Hs. cbn. lia.
  - rewrite app_nth2 by lia. rewrite nth_lookup, lookup_replicate_2 by lia. cbn. apply IH; lia.
Qed.

Lemma c_string_id l : Forall (λ c, c ≠ 0) l → c_string l = l.
Proof. induction 1 as [|c l Hc _ IH]; [done|]. cbn. by rewrite (proj2 (Z.eqb_neq c 0) Hc), IH. Qed.

(** A text that a disk stores in its words, padded with spaces, is read back when it is
    shorter than its field. *)
Lemma descramble_roundtrip t size : (length t < size)%nat → Forall (λ c, c ≠ 0) t → (∀ c, last t = Some c → isspace c = false) →
  descramble_ata_string (swap_pairs (t ++ replicate (size - length t) 32)) size = t.
Proof.
  intros Hl Hz Hs. unfold descramble_ata_string. rewrite (take_ge (swap_pairs (t ++ _)) size) by (rewrite length_swap_pairs, length_app, length_replicate; lia).
  rewrite swap_pairs_involutive, text_size_pad; [|lia|lia|].
  - rewrite take_app_le, firstn_all by lia. by apply c_string_id.
  - intros c Hc. split; [|by apply Hs]. rewrite Forall_lookup in Hz. rewrite last_lookup in Hc. by eapply Hz.
Qed.

(** A text that fills its field loses its last character. *)
Example full_text_cut : descramble_ata_string (swap_pairs (chars "ABCDEFGHIJKLMNOPQRST")) 20 = chars "ABCDEFGHIJKLMNOPQRS".
Proof. reflexivity. Qed.
