(* ===== verification/Console.v ===== *)
(** * The console (src/lib/kernel/console.c)

    A character is counted, then sent to the serial port, then to the display; the log has
    these three parts as entries of their own.  Threads interleave between the parts and
    between the atomic sections of [acquire_console] and [release_console], and may print
    again while they print; interrupt handlers print in one piece.  The lock is its holder:
    what locks promise is shown in [Scheduler]. *)

From S2P Require Import Prelude Stdio.
Local Open Scope Z_scope.

(** The parts of [putchar_have_lock]. *)
Inductive part := Counted | Serial | Display.
#[export] Instance part_eq_dec : EqDecision part.
Proof. solve_decision. Defined.

(** [owners] lists the threads that took the lock, oldest first.  An entry of the log is a
    part done for a character, with the thread that did it, if it was one, and how often the
    lock had been taken by then. *)
Record entry := mk_entry { what : part; who : option Z; turn : nat; char : Z }.

Record console := mk_con {
  holder : option Z; console_lock_depth : Z; use_console_lock : bool; write_cnt : Z;
  in_external_intr : bool; running : Z;
  owners : list Z; log : list entry
}.

Notation C := (M console).

Definition set_holder x s := mk_con x (console_lock_depth s) (use_console_lock s) (write_cnt s) (in_external_intr s) (running s) (owners s) (log s).
Definition set_depth x s := mk_con (holder s) x (use_console_lock s) (write_cnt s) (in_external_intr s) (running s) (owners s) (log s).
Definition set_use x s := mk_con (holder s) (console_lock_depth s) x (write_cnt s) (in_external_intr s) (running s) (owners s) (log s).
Definition set_cnt x s := mk_con (holder s) (console_lock_depth s) (use_console_lock s) x (in_external_intr s) (running s) (owners s) (log s).
Definition set_context i t s := mk_con (holder s) (console_lock_depth s) (use_console_lock s) (write_cnt s) i t (owners s) (log s).
Definition set_owners x s := mk_con (holder s) (console_lock_depth s) (use_console_lock s) (write_cnt s) (in_external_intr s) (running s) x (log s).
Definition set_log x s := mk_con (holder s) (console_lock_depth s) (use_console_lock s) (write_cnt s) (in_external_intr s) (running s) (owners s) x.

Definition lock_held_by_current_thread : C bool := gets (λ s, bool_decide (holder s = Some (running s))).

(** A thread that has to wait for the lock has no run ([NoFuel]). *)
Definition lock_acquire : C unit :=
  (let* s := gets id in assert (negb (in_external_intr s))) ;;;
  (let* h := lock_held_by_current_thread in assert (negb h)) ;;;
  let* s := gets id in
  match holder s with
  | Some _ => fail NoFuel
  | None => modify (set_holder (Some (running s))) ;;; modify (set_owners (owners s ++ [running s]))
  end.
Definition lock_release : C unit := (let* h := lock_held_by_current_thread in assert h) ;;; modify (set_holder None).

Definition console_init : C unit := modify (set_holder None) ;;; modify (set_use true).
Definition console_panic : C unit := modify (set_use false).

Definition acquire_console : C unit :=
  let* s := gets id in
  if negb (in_external_intr s) && use_console_lock s then
    let* h := lock_held_by_current_thread in
    if h then
      if console_lock_depth s <? 2 ^ 31 - 1 then modify (set_depth (console_lock_depth s + 1)) else fail Undef
    else lock_acquire
  else ret tt.

Definition release_console : C unit :=
  let* s := gets id in
  if negb (in_external_intr s) && use_console_lock s then
    if 0 <? console_lock_depth s then modify (set_depth (console_lock_depth s - 1)) else lock_release
  else ret tt.

Definition console_locked_by_current_thread : C bool :=
  let* s := gets id in
  let* h := lock_held_by_current_thread in
  ret (in_external_intr s || negb (use_console_lock s) || h).

(** The log gets the entry of a part. *)
Definition note (k : part) (c : Z) : C unit :=
  modify (λ s, set_log (log s ++ [mk_entry k (if in_external_intr s then None else Some (running s)) (length (owners s)) c]) s).

Definition run_part (k : part) (c : Z) : C unit :=
  match k with
  | Counted =>
      (let* l := console_locked_by_current_thread in assert l) ;;;
      modify (λ s, set_cnt (s64 (write_cnt s + 1)) s) ;;;
      note Counted c
  | Serial => note Serial c          (* serial_putc (c) *)
  | Display => note Display c        (* vga_putc (c) *)
  end.

(** ** Calls *)

(** The atomic sections of calls. *)
Inductive op := Acquire | Put (k : part) (c : Z) | Release.
Definition run_op (o : op) : C unit :=
  match o with Acquire => acquire_console | Put k c => run_part k c | Release => release_console end.
Fixpoint run_ops (l : list op) : C unit := match l with [] => ret tt | o :: l => run_op o ;;; run_ops l end.

(** The argument is a [uint8_t]. *)
Definition putchar_have_lock (c : Z) : list op := [Put Counted (u8 c); Put Serial (u8 c); Put Display (u8 c)].

Definition put_all (l : list Z) : list op := concat (putchar_have_lock <$> l).
Definition putbuf (buffer : list Z) : list op := Acquire :: put_all buffer ++ [Release].
Definition putchar (c : Z) : list op := Acquire :: putchar_have_lock c ++ [Release].
Definition puts (s : list Z) : list op := Acquire :: put_all s ++ putchar_have_lock 10 ++ [Release].
Definition vprintf (format : list Z) (args : list arg) : res (list op) := let? out := Stdio.vprintf format args in Ok (putbuf out).

(** ** Interleavings *)

(** What each thread has still to do, innermost call first. *)
Record system := mk_sys { con : console; todo : Z → list op }.

Definition with_todo (t : Z) (l : list op) (f : Z → list op) : Z → list op := λ x, if x =? t then l else f x.

Inductive step : system → system → Prop :=
(** A thread begins to print, perhaps inside another call of its own. *)
| step_call t bytes c f : step (mk_sys c f) (mk_sys c (with_todo t (putbuf bytes ++ f t) f))
(** A thread runs its next section. *)
| step_run t o l c c' f : f t = o :: l → run_op o (set_context false t c) = Ok (tt, c') → step (mk_sys c f) (mk_sys c' (with_todo t l f))
(** A handler prints during an interrupt. *)
| step_intr bytes c c' f : run_ops (putbuf bytes) (set_context true (running c) c) = Ok (tt, c') → step (mk_sys c f) (mk_sys c' f).

Inductive steps : system → system → Prop :=
| steps_refl s : steps s s
| steps_step s1 s2 s3 : steps s1 s2 → step s2 s3 → steps s1 s3.

Definition booted : console := mk_con None 0 true 0 false 0 [] [].
Definition initial : system := mk_sys booted (λ _, []).

(** ** The lock discipline *)

(** Sections that begin inside [k] calls. *)
Inductive nested : nat → list op → Prop :=
| nested_nil : nested 0 []
| nested_acquire k l : nested (S k) l → nested k (Acquire :: l)
| nested_put k p c l : nested (S k) l → nested (S k) (Put p c :: l)
| nested_release k l : nested k l → nested (S k) (Release :: l).

(** The calls a thread is inside. *)
Definition depth_of (c : console) (t : Z) : nat := if decide (holder c = Some t) then S (Z.to_nat (console_lock_depth c)) else 0%nat.

(** The characters for which [w] has done the part [k], and those a thread has still to do it for. *)
Definition written_by (k : part) (w : option Z) (l : list entry) : list Z :=
  omap (λ e, if decide (what e = k ∧ who e = w) then Some (char e) else None) l.
Definition pending (k : part) (l : list op) : list Z :=
  omap (λ o, match o with Put k' c => if decide (k' = k) then Some c else None | _ => None end) l.
Definition done_for (k : part) (c : console) : list entry := filter (λ e, what e = k) (log c).
Definition output_of (k : part) (t : Z) (s : system) : list Z := written_by k (Some t) (log (con s)) ++ pending k (todo s t).

(** The output carries growing turns, each the turn of the thread that wrote. *)
Definition in_turns (c : console) : Prop :=
  StronglySorted (λ a b, (a <= b)%nat) (turn <$> log c) ∧
  (∀ e, e ∈ log c → (turn e <= length (owners c))%nat) ∧
  (∀ e t, e ∈ log c → who e = Some t → owners c !! (turn e - 1)%nat = Some t ∧ (0 < turn e)%nat).

(** The part [k] is done, or to be done, for the same characters as the counting. *)
Definition balanced (s : system) : Prop :=
  ∀ k, (∀ t, output_of k t s ≡ₚ output_of Counted t s) ∧ written_by k None (log (con s)) ≡ₚ written_by Counted None (log (con s)).

Record disciplined (s : system) : Prop := {
  ds_use : use_console_lock (con s) = true;
  ds_depth : 0 <= console_lock_depth (con s) < 2 ^ 31 ∧ (holder (con s) = None → console_lock_depth (con s) = 0);
  ds_nested : ∀ t, nested (depth_of (con s) t) (todo s t);
  ds_owner : ∀ t, holder (con s) = Some t → last (owners (con s)) = Some t;
  ds_turns : in_turns (con s);
  ds_count : write_cnt (con s) = s64 (Z.of_nat (length (done_for Counted (con s))))
}.

Lemma nested_call k bytes l : nested k l → nested k (putbuf bytes ++ l).
Proof.
  intros H. unfold putbuf. cbn [app]. constructor. rewrite <- app_assoc. cbn [app].
  induction bytes as [|c bytes IH]; cbn; [by constructor|]. do 3 constructor. exact IH.
Qed.

(** ** One section of a thread *)

Lemma in_turns_note c k w ch : in_turns c → (∀ t, w = Some t → last (owners c) = Some t) →
  in_turns (set_log (log c ++ [mk_entry k w (length (owners c)) ch]) c).
Proof.
  intros (Hs & Hb & Ho) Hw. unfold in_turns. cbn [log owners set_log]. split; [|split].
  - rewrite fmap_app. apply StronglySorted_app_2; [|done|by repeat constructor].
    intros x y Hx Hy. apply list_elem_of_fmap in Hx as (e & -> & He). apply list_elem_of_singleton in Hy as ->. by apply Hb.
  - intros e He. apply elem_of_app in He as [He|He]; [by apply Hb|]. apply list_elem_of_singleton in He as ->. done.
  - intros e t He Het. apply elem_of_app in He as [He|He]; [by apply Ho|]. apply list_elem_of_singleton in He as ->. cbn in *.
    specialize (Hw t Het). rewrite last_lookup in Hw. replace (length (owners c) - 1)%nat with (pred (length (owners c))) by lia.
    split; [done|]. destruct (owners c); [done|simpl; lia].
Qed.

Lemma in_turns_owner c t : in_turns c → in_turns (set_owners (owners c ++ [t]) c).
Proof.
  intros (Hs & Hb & Ho). unfold in_turns. cbn [log owners set_owners]. split; [done|]. split.
  - intros e He. rewrite length_app. pose proof (Hb e He). simpl. lia.
  - intros e u He Hu. destruct (Ho e u He Hu) as [Hl H0]. split; [by apply lookup_app_l_Some|done].
Qed.

(** The outcomes of a section of thread [t]. *)
Definition acquired t (c : console) : console := set_owners (owners c ++ [t]) (set_holder (Some t) (set_context false t c)).
Definition put_by (w : option Z) (k : part) (ch : Z) (c : console) : console :=
  set_log (log c ++ [mk_entry k w (length (owners c)) ch])
    (set_cnt (if decide (k = Counted) then s64 (write_cnt c + 1) else write_cnt c) c).

Lemma acquire_run t c : use_console_lock c = true →
  acquire_console (set_context false t c) =
    match holder c with
    | Some u =>
        if decide (u = t) then
          if console_lock_depth c <? 2 ^ 31 - 1 then Ok (tt, set_depth (console_lock_depth c + 1) (set_context false t c)) else Fail Undef
        else Fail NoFuel
    | None => Ok (tt, acquired t c)
    end.
Proof.
  intros Hu. destruct c as [h d u w i r o l]. cbn in Hu. subst u.
  unfold acquire_console, lock_acquire, lock_held_by_current_thread, bind, gets, assert, ret, modify, fail. cbn -[bool_decide decide Z.ltb]. unfold id. cbn -[bool_decide decide Z.ltb].
  destruct h as [u|]; [|reflexivity]. destruct (decide (u = t)) as [->|Hne]; [rewrite bool_decide_true by done; by destruct (d <? _)|]. rewrite bool_decide_false by congruence.
  cbn -[bool_decide]. by rewrite bool_decide_false by congruence.
Qed.

Lemma put_section_run t k ch c : use_console_lock c = true → holder c = Some t →
  run_part k ch (set_context false t c) = Ok (tt, put_by (Some t) k ch (set_context false t c)).
Proof.
  intros Hu Hh. destruct c as [h d u w i r o l]. cbn in Hu, Hh. subst u h. destruct k; [|reflexivity..].
  unfold run_part, console_locked_by_current_thread, lock_held_by_current_thread, note, bind, gets, assert, ret, modify. cbn -[bool_decide s64]. unfold id. cbn -[bool_decide s64].
  by rewrite bool_decide_true.
Qed.

Lemma release_section_run t c : use_console_lock c = true → holder c = Some t →
  release_console (set_context false t c) =
    Ok (tt, if 0 <? console_lock_depth c then set_depth (console_lock_depth c - 1) (set_context false t c) else set_holder None (set_context false t c)).
Proof.
  intros Hu Hh. destruct c as [h d u w i r o l]. cbn in Hu, Hh. subst u h.
  unfold release_console, lock_release, lock_held_by_current_thread, bind, gets, assert, ret, modify. cbn -[bool_decide Z.ltb]. unfold id. cbn -[bool_decide Z.ltb].
  destruct (0 <? d); [reflexivity|]. by rewrite bool_decide_true.
Qed.

(** A handler does all parts of its characters. *)
Definition put_char (w : option Z) (ch : Z) (c : console) : console :=
  put_by w Display (u8 ch) (put_by w Serial (u8 ch) (put_by w Counted (u8 ch) c)).
Definition handled (bytes : list Z) (c : console) : console := foldl (λ c ch, put_char None ch c) c bytes.

Lemma handler_run bytes r c : run_ops (putbuf bytes) (set_context true r c) = Ok (tt, handled bytes (set_context true r c)).
Proof.
  unfold putbuf. cbn [run_ops run_op]. rewrite (bind_ok _ _ (set_context true r c) tt (set_context true r c)) by reflexivity.
  revert c. induction bytes as [|ch bytes IH]; intros c; [done|].
  change (put_all (ch :: bytes)) with (putchar_have_lock ch ++ put_all bytes). cbn [putchar_have_lock app run_ops run_op handled foldl].
  rewrite (bind_ok _ _ (set_context true r c) tt (set_context true r (put_by None Counted (u8 ch) c))) by reflexivity.
  rewrite (bind_ok _ _ _ tt (set_context true r (put_by None Serial (u8 ch) (put_by None Counted (u8 ch) c)))) by reflexivity.
  rewrite (bind_ok _ _ _ tt (set_context true r (put_char None ch c))) by reflexivity. by rewrite (IH (put_char None ch c)).
Qed.

(** Whatever every handler's character keeps, its output keeps. *)
Lemma handled_ind (P : console → Prop) bytes c : (∀ k ch c, P c → P (put_by None k ch c)) → P c → P (handled bytes c).
Proof. intros HP. revert c. induction bytes as [|ch bytes IH]; intros c Hc; [done|]. cbn. apply IH. unfold put_char. auto. Qed.

Lemma written_put k w k' w' ch c : written_by k w (log (put_by w' k' ch c)) = written_by k w (log c) ++ if decide (k' = k ∧ w' = w) then [ch] else [].
Proof. unfold written_by, put_by. cbn [log set_log]. rewrite omap_app. f_equal. cbn. by case_decide. Qed.

Lemma in_turns_put w k ch c : in_turns c → (∀ t, w = Some t → last (owners c) = Some t) → in_turns (put_by w k ch c).
Proof. intros Hi Hw. by apply (in_turns_note (set_cnt _ c) k w ch). Qed.

Lemma s64_add x y : s64 (s64 x + y) = s64 (x + y).
Proof.
  unfold s64. replace ((x + 2 ^ 63) mod 2 ^ 64 - 2 ^ 63 + y + 2 ^ 63) with ((x + 2 ^ 63) mod 2 ^ 64 + y) by lia.
  rewrite Zplus_mod_idemp_l. do 2 f_equal. lia.
Qed.

Lemma count_put w k ch c : write_cnt c = s64 (Z.of_nat (length (done_for Counted c))) →
  write_cnt (put_by w k ch c) = s64 (Z.of_nat (length (done_for Counted (put_by w k ch c)))).
Proof.
  intros Hc. unfold done_for, put_by. cbn [log write_cnt set_log set_cnt]. rewrite filter_app, length_app, Hc.
  destruct k; cbn -[s64 Z.of_nat]; unfold done_for; [|by rewrite Nat.add_0_r..]. rewrite Nat2Z.inj_add. apply s64_add.
Qed.

(** ** Every interleaving *)

(** What a section does to a disciplined system. *)
Lemma op_run t o l s : disciplined s → todo s t = o :: l →
  match o with
  | Acquire => (∃ u, holder (con s) = Some u ∧ u ≠ t ∧ run_op o (set_context false t (con s)) = Fail NoFuel) ∨
      (holder (con s) = Some t ∧ console_lock_depth (con s) = 2 ^ 31 - 1 ∧ run_op o (set_context false t (con s)) = Fail Undef) ∨
      (holder (con s) = Some t ∧ console_lock_depth (con s) < 2 ^ 31 - 1 ∧
        run_op o (set_context false t (con s)) = Ok (tt, set_depth (console_lock_depth (con s) + 1) (set_context false t (con s)))) ∨
      (holder (con s) = None ∧ run_op o (set_context false t (con s)) = Ok (tt, acquired t (con s)))
  | Put k c => holder (con s) = Some t ∧ run_op o (set_context false t (con s)) = Ok (tt, put_by (Some t) k c (set_context false t (con s)))
  | Release => holder (con s) = Some t ∧ run_op o (set_context false t (con s)) =
      Ok (tt, if 0 <? console_lock_depth (con s) then set_depth (console_lock_depth (con s) - 1) (set_context false t (con s)) else set_holder None (set_context false t (con s)))
  end.
Proof.
  intros Hd Ht. pose proof (ds_nested _ Hd t) as Hn. rewrite Ht in Hn.
  assert (Hin : (∃ k, depth_of (con s) t = S k) → holder (con s) = Some t).
  { intros [k Hk]. unfold depth_of in Hk. by case_decide. }
  destruct o as [|k c|]; cbn [run_op].
  - rewrite acquire_run by apply Hd. destruct (holder (con s)) as [u|] eqn:Hh; [|by do 3 right].
    destruct (decide (u = t)) as [->|Hne]; [|left; by exists u]. right. destruct (proj1 (ds_depth _ Hd)) as [_ Hlt].
    destruct (Z.ltb_spec (console_lock_depth (con s)) (2 ^ 31 - 1)); [right; by left|left]. split_and!; [done|lia|done].
  - assert (holder (con s) = Some t) by (apply Hin; inversion Hn; eauto). split; [done|]. apply put_section_run; [apply Hd|done].
  - assert (holder (con s) = Some t) by (apply Hin; inversion Hn; eauto). split; [done|]. apply release_section_run; [apply Hd|done].
Qed.

Lemma depth_other c t u : holder c = Some t → u ≠ t → depth_of c u = 0%nat.
Proof. intros Hh Hne. unfold depth_of. rewrite decide_False by congruence. done. Qed.

(** The threads' sections stay nested when [t] has moved on by one. *)
Lemma nested_moved c c' t l f : (∀ u, nested (depth_of c u) (f u)) → nested (depth_of c' t) l → (∀ u, u ≠ t → depth_of c' u = depth_of c u) →
  ∀ u, nested (depth_of c' u) (with_todo t l f u).
Proof.
  intros Hn Hl Ho u. unfold with_todo. destruct (Z.eqb_spec u t) as [->|Hne]; [done|]. rewrite Ho by done. apply Hn.
Qed.

Lemma other_depth c c' t : holder c = Some t → holder c' = Some t ∨ holder c' = None → ∀ u, u ≠ t → depth_of c' u = depth_of c u.
Proof. intros Hh Hh' u Hne. unfold depth_of. rewrite !decide_False; [done|congruence|destruct Hh'; congruence]. Qed.

Lemma holder_depth c t : holder c = Some t → depth_of c t = S (Z.to_nat (console_lock_depth c)).
Proof. intros Hh. unfold depth_of. by rewrite decide_True. Qed.

Lemma disciplined_run t o l c c' f : disciplined (mk_sys c f) → f t = o :: l → run_op o (set_context false t c) = Ok (tt, c') →
  disciplined (mk_sys c' (with_todo t l f)).
Proof.
  intros Hd Ht Hr. pose proof (op_run t o l _ Hd Ht) as Ho. destruct Hd as [Hu [Hd0 Hd1] Hn Hw Hi Hc]. cbn [con todo] in *.
  pose proof (Hn t) as Hnt. rewrite Ht in Hnt. destruct o as [|k0 ch|].
  - destruct Ho as [(u & _ & _ & E)|[(_ & _ & E)|[(Hh & Hlt & E)|[Hh E]]]]; rewrite E in Hr; [done|done|injection Hr as <-..].
    + split; cbn [con todo]; try done; [split; [cbn; lia|cbn; congruence]|].
      eapply nested_moved; [exact Hn| |by apply other_depth; [|left]]. inversion Hnt as [|k l' Hk|k p ch l' Hk|k l' Hk]; subst.
      rewrite (holder_depth _ _ Hh) in Hk. rewrite holder_depth by done. cbn [console_lock_depth set_depth].
      by replace (Z.to_nat (console_lock_depth c + 1)) with (S (Z.to_nat (console_lock_depth c))) by lia.
    + split; cbn [con todo]; try done.
      * eapply nested_moved; [exact Hn| |].
        { inversion Hnt as [|k l' Hk|k p ch l' Hk|k l' Hk]; subst. rewrite holder_depth by done. unfold depth_of in Hk.
          rewrite decide_False in Hk by congruence. cbn. by rewrite (Hd1 Hh). }
        { intros u Hne. unfold depth_of. cbn. rewrite !decide_False by congruence. done. }
      * intros u. cbn. intros [= <-]. by rewrite last_snoc.
      * apply (in_turns_owner (set_holder (Some t) (set_context false t c)) t). done.
  - destruct Ho as [Hh E]. rewrite E in Hr. injection Hr as <-. split; cbn [con todo]; try done.
    + eapply nested_moved; [exact Hn| |by apply other_depth; [|left]]. inversion Hnt as [|k l' Hk|k p ch' l' Hk Hk'|k l' Hk]; subst.
      change (depth_of (put_by (Some t) k0 ch (set_context false t c)) t) with (depth_of c t). by rewrite <- Hk'.
    + apply in_turns_put; [done|]. intros u [= <-]. by apply Hw.
    + by apply count_put.
  - destruct Ho as [Hh E]. rewrite E in Hr. injection Hr as <-. inversion Hnt as [|k l' Hk|k p ch l' Hk|k l' Hk Hk']; subst.
    rewrite (holder_depth _ _ Hh) in Hk'. injection Hk' as ->.
    destruct (Z.ltb_spec 0 (console_lock_depth c)) as [Hp|Hp].
    + split; cbn [con todo]; try done; [split; [cbn; lia|cbn; congruence]|].
      eapply nested_moved; [exact Hn| |by apply other_depth; [|left]]. rewrite holder_depth by done. cbn.
      by replace (S (Z.to_nat (console_lock_depth c - 1))) with (Z.to_nat (console_lock_depth c)) by lia.
    + assert (H0 : console_lock_depth c = 0) by lia. rewrite H0 in Hk. split; cbn [con todo]; try done.
      eapply nested_moved; [exact Hn|done|by apply other_depth; [|right]].
Qed.

Lemma disciplined_handler bytes c f : disciplined (mk_sys c f) → disciplined (mk_sys (handled bytes c) f).
Proof. apply (handled_ind (λ c, disciplined (mk_sys c f))). intros k ch c' []. split; try done; [by apply in_turns_put|by apply count_put]. Qed.

Lemma disciplined_step s s' : disciplined s → step s s' → disciplined s'.
Proof.
  intros Hd Hs. destruct Hs as [t bytes c f|t o l c c' f Ht Hr|bytes c c' f Hr].
  - destruct Hd as [Hu Hdp Hn Hw Hi Hc]. split; try done. cbn [con todo] in *. eapply nested_moved; [exact Hn| |done]. by apply nested_call.
  - by eapply disciplined_run.
  - rewrite handler_run in Hr. injection Hr as <-. apply disciplined_handler. by destruct Hd.
Qed.

Lemma disciplined_initial : disciplined initial.
Proof.
  split; try done.
  - intros t. unfold depth_of. cbn. rewrite decide_False by done. constructor.
  - split; [constructor|]. split; intros e; intros; by match goal with H : _ ∈ _ |- _ => apply not_elem_of_nil in H end.
Qed.

Lemma disciplined_steps s : steps initial s → disciplined s.
Proof. remember initial as i. induction 1 as [|s1 s2 s3 _ IH Hs]; subst; [apply disciplined_initial|]. eapply disciplined_step; eauto. Qed.

(** ** The order of the output *)

Lemma pending_call k bytes l : pending k (putbuf bytes ++ l) = (u8 <$> bytes) ++ pending k l.
Proof.
  unfold pending, putbuf. cbn [omap list_omap app]. rewrite <- app_assoc, omap_app. cbn [omap list_omap app]. f_equal.
  induction bytes as [|c bytes IH]; [done|]. change (put_all (c :: bytes)) with (putchar_have_lock c ++ put_all bytes). rewrite omap_app, IH.
  by destruct k.
Qed.

(** A section moves a character from what is to do to what is written. *)
Lemma output_run k t o l c c' f u : disciplined (mk_sys c f) → f t = o :: l → run_op o (set_context false t c) = Ok (tt, c') →
  output_of k u (mk_sys c' (with_todo t l f)) = output_of k u (mk_sys c f) ∧ written_by k None (log c') = written_by k None (log c).
Proof.
  intros Hd Ht Hr. pose proof (op_run t o l _ Hd Ht) as Ho. unfold output_of, with_todo. cbn [con todo] in *.
  assert (Hsame : log c' = log c → pending k l = pending k (o :: l) →
    written_by k (Some u) (log c') ++ pending k (if u =? t then l else f u) = written_by k (Some u) (log c) ++ pending k (f u) ∧
    written_by k None (log c') = written_by k None (log c)).
  { intros -> Hp. destruct (Z.eqb_spec u t) as [->|]; [by rewrite Ht, <- Hp|done]. }
  destruct o as [|k' ch|].
  - destruct Ho as [(v & _ & _ & E)|[(_ & _ & E)|[(Hh & _ & E)|[Hh E]]]]; rewrite E in Hr; [done|done|injection Hr as <-..]; by apply Hsame.
  - destruct Ho as [Hh E]. rewrite E in Hr. injection Hr as <-. rewrite !written_put. cbn [log set_context]. split; [|rewrite decide_False by naive_solver; by rewrite app_nil_r].
    destruct (Z.eqb_spec u t) as [->|Hne]; [rewrite Ht|rewrite decide_False by naive_solver; by rewrite app_nil_r].
    unfold pending. cbn [omap list_omap]. rewrite <- app_assoc. f_equal. destruct (decide (k' = k)); [rewrite decide_True by done; done|].
    by rewrite decide_False by naive_solver.
  - destruct Ho as [Hh E]. rewrite E in Hr. injection Hr as <-. destruct (0 <? console_lock_depth c); by apply Hsame.
Qed.

Lemma handled_written k t bytes c : written_by k (Some t) (log (handled bytes c)) = written_by k (Some t) (log c).
Proof.
  apply (handled_ind (λ c', written_by k (Some t) (log c') = written_by k (Some t) (log c))); [|done]. intros k' ch c' <-.
  rewrite written_put, decide_False by naive_solver. by rewrite app_nil_r.
Qed.

Lemma handled_none k bytes c : written_by k None (log (handled bytes c)) = written_by k None (log c) ++ (u8 <$> bytes).
Proof.
  revert c. induction bytes as [|ch bytes IH]; intros c; [by rewrite app_nil_r|]. change (handled (ch :: bytes) c) with (handled bytes (put_char None ch c)).
  rewrite IH. unfold put_char. rewrite !written_put, <- !app_assoc. f_equal. by destruct k.
Qed.

Lemma output_step k s s' : disciplined s → step s s' → ∀ u,
  output_of k u s' = output_of k u s ∨
  con s' = con s ∧ ∃ bytes, todo s' u = putbuf bytes ++ todo s u ∧ pending k (todo s' u) = (u8 <$> bytes) ++ pending k (todo s u).
Proof.
  intros Hd Hs u. destruct Hs as [t bytes c f|t o l c c' f Ht Hr|bytes c c' f Hr].
  - destruct (decide (u = t)) as [->|Hne].
    + right. split; [done|]. exists bytes. cbn. unfold with_todo. rewrite Z.eqb_refl. split; [done|apply pending_call].
    + left. unfold output_of. cbn. unfold with_todo. by rewrite (proj2 (Z.eqb_neq u t) Hne).
  - left. by eapply output_run.
  - left. rewrite handler_run in Hr. injection Hr as <-. unfold output_of. cbn [con todo]. by rewrite handled_written.
Qed.

(** Every part is done for the characters that are counted. *)
Lemma balanced_step s s' : disciplined s → step s s' → balanced s → balanced s'.
Proof.
  intros Hd Hs Hb k. destruct (Hb k) as [Ht Hn]. destruct Hs as [t bytes c f|t o l c c' f Hft Hr|bytes c c' f Hr].
  - split; [|done]. intros u. specialize (Ht u). unfold output_of in *. cbn [con todo] in *. unfold with_todo. destruct (Z.eqb_spec u t) as [->|]; [|done].
    rewrite !pending_call. rewrite !(Permutation_app_swap_app (written_by _ _ _)). by f_equiv.
  - split; [intros u; by rewrite !(proj1 (output_run _ t o l c c' f u Hd Hft Hr))|].
    cbn [con] in *. by rewrite !(proj2 (output_run _ t o l c c' f t Hd Hft Hr)).
  - rewrite handler_run in Hr. injection Hr as <-. split.
    + intros u. specialize (Ht u). unfold output_of in *. cbn [con todo] in *. by rewrite !handled_written.
    + cbn [con] in *. rewrite !handled_none. by f_equiv.
Qed.

Lemma balanced_steps s : steps initial s → balanced s.
Proof.
  remember initial as i. induction 1 as [|s1 s2 s3 Hs IH Hst]; subst; [done|]. eapply balanced_step; [by apply disciplined_steps|done|auto].
Qed.

(** The entries of a part, by who did it. *)
Lemma count_written k w l : count_occ (decide_rel (=)) (who <$> filter (λ e, what e = k) l) w = length (written_by k w l).
Proof.
  unfold written_by. induction l as [|e l IH]; [done|]. rewrite filter_cons. cbn [omap list_omap]. destruct (decide (what e = k)) as [Hk|Hk].
  - cbn [fmap list_fmap]. destruct (decide (who e = w)) as [Hw|Hw].
    + rewrite count_occ_cons_eq, decide_True by done. cbn [length]. f_equal. exact IH.
    + rewrite count_occ_cons_neq, decide_False by naive_solver. exact IH.
  - rewrite decide_False by naive_solver. exact IH.
Qed.

(** When nobody is printing, each part was done for as many characters as were counted. *)
Lemma quiet_count k s : balanced s → (∀ t, todo s t = []) → length (done_for k (con s)) = length (done_for Counted (con s)).
Proof.
  intros Hb Hq. rewrite <- (length_fmap who (done_for k (con s))), <- (length_fmap who (done_for Counted (con s))). apply Permutation_length.
  apply (Permutation_count_occ (decide_rel (=))). intros w. unfold done_for. rewrite !count_written. apply Permutation_length.
  destruct (Hb k) as [Ht Hn]. destruct w as [t|]; [|done]. specialize (Ht t). unfold output_of in Ht. by rewrite Hq, !app_nil_r in Ht.
Qed.

(** ** The console is never stuck *)

Lemma section_runs t o l s : disciplined s → todo s t = o :: l →
  (∃ c', run_op o (set_context false t (con s)) = Ok (tt, c')) ∨
  o = Acquire ∧ (∃ u, u ≠ t ∧ holder (con s) = Some u) ∧ run_op o (set_context false t (con s)) = Fail NoFuel ∨
  o = Acquire ∧ holder (con s) = Some t ∧ console_lock_depth (con s) = 2 ^ 31 - 1 ∧ run_op o (set_context false t (con s)) = Fail Undef.
Proof.
  intros Hd Ht. pose proof (op_run t o l s Hd Ht) as Ho. destruct o as [|k ch|].
  - destruct Ho as [(u & Hh & Hne & E)|[(Hh & Hm & E)|[(_ & _ & E)|[_ E]]]]; [right; left; eauto|right; right; eauto|left; eauto..].
  - left. destruct Ho as [_ E]. eauto.
  - left. destruct Ho as [_ E]. eauto.
Qed.

(** The holder is inside a call, so it has something to do and may do it. *)
Lemma some_section_runs s t o l : disciplined s → console_lock_depth (con s) < 2 ^ 31 - 1 → todo s t = o :: l →
  ∃ u p m c', todo s u = p :: m ∧ run_op p (set_context false u (con s)) = Ok (tt, c').
Proof.
  intros Hd Hm Ht. destruct (section_runs t o l s Hd Ht) as [[c' E]|[(-> & (u & Hne & Hh) & _)|(_ & _ & ? & _)]]; [by exists t, o, l, c'| |lia].
  pose proof (ds_nested _ Hd u) as Hn. rewrite (holder_depth _ _ Hh) in Hn.
  destruct (todo s u) as [|p m] eqn:Hu; [inversion Hn|]. exists u, p, m.
  destruct (section_runs u p m s Hd Hu) as [[c' E]|[(_ & (v & Hnv & Hv) & _)|(_ & _ & ? & _)]]; [by exists c'|congruence|lia].
Qed.

(** The other ways to print are calls of the same shape. *)
Lemma putchar_sections c : putchar c = putbuf [c].
Proof. reflexivity. Qed.

Lemma puts_sections s : puts s = putbuf (s ++ [10]).
Proof. unfold puts, putbuf, put_all. by rewrite fmap_app, concat_app, <- app_assoc. Qed.

(** C25: However threads and interrupt handlers interleave, recursive calls included, the
    output of a thread inside a call is not mixed with another thread's: the log, and so what
    goes to the serial port and to the display, runs through the turns of the lock's owners in
    order, each character in the turn of the thread that wrote it.  [write_cnt] is the number
    of characters counted as a 64-bit integer, and when nobody is printing that is the number
    sent to each device; what a thread has sent to a device or has still to send there is, up
    to the order of its nested calls, what was or will be counted.  No assertion fails: a
    section of a thread runs unless it begins a call while another thread has the lock, or
    would be the thread's call number [2 ^ 31 + 1] inside each other; handlers always print.
    There is no deadlock: while any thread has something to print, some thread can run (a
    single waiting thread may still be overtaken for ever).  A step leaves each thread's
    output on each device (written, then to be written) as it is, or puts a new call in front
    of what is to be written. *)
Theorem console_keeps_turns s : steps initial s →
  StronglySorted (λ a b, (a <= b)%nat) (turn <$> log (con s)) ∧
  (∀ e t, e ∈ log (con s) → who e = Some t → (0 < turn e)%nat ∧ owners (con s) !! (turn e - 1)%nat = Some t) ∧
  write_cnt (con s) = s64 (Z.of_nat (length (done_for Counted (con s)))) ∧
  ((∀ t, todo s t = []) → ∀ k, length (done_for k (con s)) = length (done_for Counted (con s))) ∧
  (∀ k t, output_of k t s ≡ₚ output_of Counted t s) ∧
  (∀ t o l, todo s t = o :: l →
    (∃ c', run_op o (set_context false t (con s)) = Ok (tt, c')) ∨
    o = Acquire ∧ (∃ u, u ≠ t ∧ holder (con s) = Some u) ∧ run_op o (set_context false t (con s)) = Fail NoFuel ∨
    o = Acquire ∧ holder (con s) = Some t ∧ console_lock_depth (con s) = 2 ^ 31 - 1 ∧ run_op o (set_context false t (con s)) = Fail Undef) ∧
  (∀ bytes, ∃ c', run_ops (putbuf bytes) (set_context true (running (con s)) (con s)) = Ok (tt, c')) ∧
  (∀ t o l, console_lock_depth (con s) < 2 ^ 31 - 1 → todo s t = o :: l →
    ∃ u p m c', todo s u = p :: m ∧ run_op p (set_context false u (con s)) = Ok (tt, c')) ∧
  (∀ s' k u, step s s' →
    output_of k u s' = output_of k u s ∨
    con s' = con s ∧ ∃ bytes, todo s' u = putbuf bytes ++ todo s u ∧ pending k (todo s' u) = (u8 <$> bytes) ++ pending k (todo s u)).
Proof.
  intros Hs. apply disciplined_steps in Hs as Hd. apply balanced_steps in Hs as Hb. destruct (ds_turns _ Hd) as (Ht & _ & Ho).
  split_and!; [done| |apply Hd|intros Hq k; by apply quiet_count|intros k t; by apply Hb| | | |].
  - intros e t He Het. by destruct (Ho e t He Het).
  - intros t o l. by apply section_runs.
  - intros bytes. rewrite handler_run. eauto.
  - intros t o l. by apply some_section_runs.
  - intros s' k u Hst. by apply output_step.
Qed.

(** ** A schedule *)

Inductive action := Call (t : Z) (bytes : list Z) | Section (t : Z) | Interrupt (bytes : list Z).

Definition act (a : action) (s : system) : option system :=
  match a with
  | Call t bytes => Some (mk_sys (con s) (with_todo t (putbuf bytes ++ todo s t) (todo s)))
  | Section t =>
      match todo s t with
      | o :: l => match run_op o (set_context false t (con s)) with Ok (_, c') => Some (mk_sys c' (with_todo t l (todo s))) | Fail _ => None end
      | [] => None
      end
  | Interrupt bytes =>
      match run_ops (putbuf bytes) (set_context true (running (con s)) (con s)) with Ok (_, c') => Some (mk_sys c' (todo s)) | Fail _ => None end
  end.
Fixpoint play (l : list action) (s : system) : option system := match l with [] => Some s | a :: l => s' ← act a s; play l s' end.

Lemma act_step a s s' : act a s = Some s' → step s s'.
Proof.
  destruct s as [c f]. destruct a as [t bytes|t|bytes]; cbn -[putbuf run_ops].
  - intros [= <-]. constructor.
  - destruct (f t) as [|o l] eqn:Ht; [done|]. destruct (run_op o _) as [[[] c']|] eqn:E; [|done]. intros [= <-]. by apply (step_run t o).
  - destruct (run_ops _ _) as [[[] c']|] eqn:E; [|done]. intros [= <-]. by apply (step_intr bytes).
Qed.

Lemma play_steps l s0 s s' : steps s0 s → play l s = Some s' → steps s0 s'.
Proof.
  revert s. induction l as [|a l IH]; intros s Hs; cbn [play]; [by intros [= <-]|].
  destruct (act a s) as [s1|] eqn:E; cbn; [|done]. apply IH. by apply (steps_step _ s); [|apply (act_step a)].
Qed.

(** Thread 1 prints "ab" and, with its first letter on the serial port but not yet on the display,
    "x" from inside the call; thread 2 waits to print "c", and an interrupt prints "!". *)
Definition schedule : list action :=
  [Call 1 [97; 98]; Section 1; Section 1; Section 1; Call 2 [99]; Call 1 [120]; Section 1; Interrupt [33]] ++ replicate 9 (Section 1) ++ replicate 5 (Section 2).

Definition after_play (l : list action) : system := default initial (play l initial).

Example mixed_output :
  char <$> done_for Serial (con (after_play schedule)) = [97; 33; 120; 98; 99] ∧ char <$> done_for Display (con (after_play schedule)) = [33; 120; 97; 98; 99].
Proof. vm_compute. done. Qed.

(** In the middle of the schedule thread 2 would have to wait. *)
Lemma console_keeps_turns_witness : steps initial (after_play (take 8 schedule)) ∧
  turn <$> log (con (after_play (take 8 schedule))) = [1; 1; 1; 1; 1]%nat ∧
  (∃ u p m c', todo (after_play (take 8 schedule)) u = p :: m ∧ run_op p (set_context false u (con (after_play (take 8 schedule)))) = Ok (tt, c')) ∧
  run_op Acquire (set_context false 2 (con (after_play (take 8 schedule)))) = Fail NoFuel.
Proof.
  assert (Hs : steps initial (after_play (take 8 schedule))).
  { apply (play_steps (take 8 schedule) _ initial); [constructor|]. unfold after_play. destruct (play (take 8 schedule) initial) eqn:E; [done|]. vm_compute in E. discriminate E. }
  destruct (console_keeps_turns _ Hs) as (_ & _ & _ & _ & _ & _ & _ & Hrun & _).
  split; [exact Hs|]. split; [vm_compute; reflexivity|]. split; [|vm_compute; reflexivity].
  apply (Hrun 2 Acquire (put_all [99] ++ [Release])); vm_compute; reflexivity.
Defined.
