(* ===== verification/FixedPoint.v ===== *)
(** * Fixed-point scheduler arithmetic (src/threads/thread.c)

    17.14 fixed-point numbers in an [int].  Additions and multiplications wrap at
    32 bits; a division traps on a zero divisor and on the one quotient that does
    not fit.  The 64-bit division of [fixed_cal_fixed] is the routine of
    lib/arithmetic.c. *)

From S2P Require Import Prelude Arithmetic.
Local Open Scope Z_scope.

Inductive cal := ADD | SUB | MUL | DIV.

Definition PRI_MIN : Z := 0.
Definition PRI_DEFAULT : Z := 31.
Definition PRI_MAX : Z := 63.

(** The IDIV instruction on [int]. *)
Definition idiv32 (a b : Z) : res Z :=
  if (b =? 0) || ((a =? - 2 ^ 31) && (b =? -1)) then Fail Undef else Ok (Z.quot a b).

Definition int_to_fixed (num : Z) : Z := s32 (num * 2 ^ 14).
Definition fixed_to_int (fixed : Z) : Z := Z.quot fixed (2 ^ 14).

Definition fixed_cal_int (fixed num : Z) (op : cal) : res Z :=
  match op with
  | ADD => Ok (s32 (fixed + s32 (num * 2 ^ 14)))
  | SUB => Ok (s32 (fixed - s32 (num * 2 ^ 14)))
  | MUL => Ok (s32 (fixed * num))
  | DIV => idiv32 fixed num
  end.

Definition int_cal_fixed (num fixed : Z) (op : cal) : Z :=
  match op with
  | SUB => s32 (s32 (num * 2 ^ 14) - fixed)
  | _ => 0
  end.

Definition fixed_cal_fixed (fixed1 fixed2 : Z) (op : cal) : res Z :=
  match op with
  | ADD => Ok (s32 (fixed1 + fixed2))
  | SUB => Ok (s32 (fixed1 - fixed2))
  | MUL => let? q := __divdi3 (s64 (fixed1 * fixed2)) (2 ^ 14) in Ok (s32 q)
  | DIV => if fixed2 =? 0 then Fail Undef
           else let? q := __divdi3 (s64 (fixed1 * 2 ^ 14)) fixed2 in Ok (s32 q)
  end.

(** The right-hand side of the assignment in [calculate_load_avg]. *)
Definition next_load_avg (load_avg ready_length : Z) : res Z :=
  let? a := fixed_cal_int load_avg 59 MUL in
  let? b := fixed_cal_int a ready_length ADD in
  fixed_cal_int b 60 DIV.

(** The loop body of [calculate_recent_cpu]; [recent_cpu] is an [int64_t] that is
    converted to [int] when it is passed. *)
Definition next_recent_cpu (load_avg recent_cpu nice : Z) : res Z :=
  let? d := fixed_cal_int (s32 (2 * load_avg)) 1 ADD in
  let? term1 := fixed_cal_fixed (s32 (2 * load_avg)) d DIV in
  let? term1 := fixed_cal_fixed term1 (s32 recent_cpu) MUL in
  fixed_cal_int term1 nice ADD.

(** The clamping of [thread_set_nice] and [calculate_priority]. *)
Definition clamp_priority (p : Z) : Z :=
  if PRI_MAX <? p then PRI_MAX else if p <? PRI_MIN then PRI_MIN else p.

(** The loop body of [calculate_priority]. *)
Definition next_priority (recent_cpu nice : Z) : res Z :=
  let? term1 := fixed_cal_int (s32 recent_cpu) 4 DIV in
  let? term1 := fixed_cal_int term1 (s32 (nice * 2)) ADD in
  Ok (clamp_priority (fixed_to_int (int_cal_fixed PRI_MAX term1 SUB))).

(** ** Facts *)

Lemma idiv32_pos a b : 0 < b → idiv32 a b = Ok (Z.quot a b).
Proof. intros. unfold idiv32. z_cases; by rewrite ?andb_false_r. Qed.

Lemma quot_between a b lo hi :
  0 < b → lo <= 0 <= hi → lo * b <= a <= hi * b → lo <= Z.quot a b <= hi.
Proof.
  intros Hb Hz [H1 H2]. split.
  - rewrite <- (Z.quot_mul lo b) by lia. apply Z.quot_le_mono; lia.
  - rewrite <- (Z.quot_mul hi b) by lia. apply Z.quot_le_mono; lia.
Qed.

Lemma clamp_priority_range p : PRI_MIN <= clamp_priority p <= PRI_MAX.
Proof. unfold clamp_priority, PRI_MIN, PRI_MAX. z_cases. Qed.

Lemma next_priority_range recent nice :
  ∃ p, next_priority recent nice = Ok p ∧ PRI_MIN <= p <= PRI_MAX.
Proof.
  unfold next_priority. simpl fixed_cal_int. rewrite idiv32_pos by lia.
  eexists. split; [reflexivity|]. apply clamp_priority_range.
Qed.

Lemma next_priority_exact recent nice :
  - 2 ^ 30 <= recent < 2 ^ 30 → - 2 ^ 14 <= nice <= 2 ^ 14 →
  next_priority recent nice =
    Ok (clamp_priority (Z.quot (63 * 2 ^ 14 - (Z.quot recent 4 + 2 * nice * 2 ^ 14)) (2 ^ 14))).
Proof.
  intros Hr Hn. unfold next_priority. simpl fixed_cal_int. rewrite s32_id by int_lia.
  rewrite idiv32_pos by lia. cbn [rbind]. unfold int_cal_fixed, fixed_to_int, PRI_MAX.
  pose proof (quot_between recent 4 (- 2 ^ 28) (2 ^ 28)).
  rewrite (s32_id (nice * 2)), (s32_id (nice * 2 * 2 ^ 14)), (s32_id (63 * _)) by int_lia.
  rewrite (s32_id (Z.quot recent 4 + _)), s32_id by int_lia. do 3 f_equal. lia.
Qed.

(** [load_avg] with at most [n] threads ready. *)
Lemma next_load_avg_spec n la r :
  0 <= n <= 2184 → 0 <= la <= n * 2 ^ 14 → 0 <= r <= n →
  next_load_avg la r = Ok ((59 * la + r * 2 ^ 14) / 60) ∧
  0 <= (59 * la + r * 2 ^ 14) / 60 <= n * 2 ^ 14.
Proof.
  intros Hn Hla Hr. unfold next_load_avg. cbn [rbind fixed_cal_int].
  rewrite (s32_id (la * 59)), (s32_id (r * _)), s32_id by int_lia.
  rewrite idiv32_pos by lia. rewrite Z.quot_div_nonneg by lia. split.
  - do 2 f_equal. lia.
  - split; [apply Z.div_pos; lia|]. apply Z.div_le_upper_bound; lia.
Qed.

(** The decay coefficient is in [0, 1), so [recent_cpu] grows by at most [nice]. *)
Lemma next_recent_cpu_spec n la rc nice :
  0 <= n <= 2184 → 0 <= la <= n * 2 ^ 14 → - 2 ^ 30 <= rc <= 2 ^ 30 → - 2 ^ 14 <= nice <= 2 ^ 14 →
  let coef := (2 * la * 2 ^ 14) / (2 * la + 2 ^ 14) in
  0 <= coef < 2 ^ 14 ∧
  next_recent_cpu la rc nice = Ok (Z.quot (coef * rc) (2 ^ 14) + nice * 2 ^ 14).
Proof.
  intros Hn Hla Hrc Hni coef.
  assert (Hc : 0 <= coef < 2 ^ 14).
  { unfold coef. split; [apply Z.div_pos; lia|]. apply Z.div_lt_upper_bound; lia. }
  split; [done|]. unfold next_recent_cpu. simpl fixed_cal_int.
  rewrite (s32_id (2 * la)), (s32_id (1 * 2 ^ 14)), (s32_id (2 * la + _)) by int_lia. cbn [rbind].
  unfold fixed_cal_fixed. destruct (Z.eqb_spec (2 * la + 1 * 2 ^ 14) 0); [lia|].
  rewrite (s64_id (2 * la * _)) by int_lia. unfold __divdi3.
  rewrite sdiv64_spec by (int_lia || lia). cbn [rbind]. rewrite Z.quot_div_nonneg by lia.
  rewrite (Z.mul_1_l (2 ^ 14)). fold coef. rewrite (s64_id coef), (s32_id coef), (s32_id rc) by int_lia.
  assert (Hp : - 2 ^ 44 <= coef * rc <= 2 ^ 44) by nia.
  rewrite (s64_id (coef * rc)) by int_lia. rewrite sdiv64_spec by int_lia. cbn [rbind].
  pose proof (quot_between (coef * rc) (2 ^ 14) (- 2 ^ 30) (2 ^ 30)).
  rewrite (s64_id (Z.quot _ _)), (s32_id (Z.quot _ _)) by int_lia.
  rewrite (s32_id (nice * _)), s32_id by int_lia. done.
Qed.

(** ** Properties *)

(** The system load average neither overflows nor leaves [0, n] while at most
    [n <= 2184] threads are ready, and one update computes
    [(59/60) * load_avg + (1/60) * ready_threads] rounded down. *)
Theorem load_avg_bounded (n la r : Z) :
  0 <= n <= 2184 → 0 <= la <= n * 2 ^ 14 → 0 <= r <= n →
  next_load_avg la r = Ok ((59 * la + r * 2 ^ 14) / 60) ∧
  0 <= (59 * la + r * 2 ^ 14) / 60 <= n * 2 ^ 14.
Proof. apply next_load_avg_spec. Qed.

Lemma load_avg_bounded_witness :
  next_load_avg 32768 3 = Ok 33041 ∧ 0 <= 33041 <= 10 * 2 ^ 14.
Proof. apply (load_avg_bounded 10 32768 3); lia. Defined.

(** One update of [recent_cpu] multiplies it by the decay coefficient
    [2 load_avg / (2 load_avg + 1)], which is in [0, 1), and adds [nice]; no
    intermediate result overflows. *)
Theorem recent_cpu_decays (n la rc nice : Z) :
  0 <= n <= 2184 → 0 <= la <= n * 2 ^ 14 → - 2 ^ 30 <= rc <= 2 ^ 30 → - 2 ^ 14 <= nice <= 2 ^ 14 →
  let coef := (2 * la * 2 ^ 14) / (2 * la + 2 ^ 14) in
  ∃ rc', next_recent_cpu la rc nice = Ok rc' ∧ 0 <= coef < 2 ^ 14 ∧
    rc' = Z.quot (coef * rc) (2 ^ 14) + nice * 2 ^ 14 ∧ Z.abs (rc' - nice * 2 ^ 14) <= Z.abs rc.
Proof.
  intros Hn Hla Hrc Hni coef. destruct (next_recent_cpu_spec n la rc nice) as [Hc E]; try done.
  fold coef in Hc, E. eexists. split_and!; [exact E|lia|lia|done|].
  replace (_ + nice * 2 ^ 14 - nice * 2 ^ 14) with (Z.quot (coef * rc) (2 ^ 14)) by lia.
  destruct (Z.le_ge_cases 0 rc).
  - pose proof (quot_between (coef * rc) (2 ^ 14) 0 rc). nia.
  - pose proof (quot_between (coef * rc) (2 ^ 14) rc 0). nia.
Qed.

Lemma recent_cpu_decays_witness :
  ∃ rc', next_recent_cpu 16384 163840 5 = Ok rc' ∧ 0 <= 10922 < 2 ^ 14 ∧
    rc' = Z.quot (10922 * 163840) (2 ^ 14) + 5 * 2 ^ 14 ∧ Z.abs (rc' - 5 * 2 ^ 14) <= Z.abs 163840.
Proof. apply (recent_cpu_decays 1 16384 163840 5); lia. Defined.
