(* ===== verification/Family.v ===== *)
(** * A process and its children (src/userprog/process.c, syscall.c)

    How [process_execute], [start_process], [process_wait] and [process_exit] of a process
    and its children interleave.  A step runs up to the next semaphore operation or access
    to another thread's structure; the semaphores are counters on which [sema_down]
    blocks.  The structure of a child is freed when its [process_exit] returns, and an
    access to it afterwards crashes.  Thread ids are not used twice: their counter, a 32-bit
    integer, is taken not to wrap around, that is there are fewer than [2 ^ 31] threads. *)

From S2P Require Import Prelude.
Local Open Scope Z_scope.

(** Where a child is: loading its program in [start_process], about to report the outcome
    to its parent, running, about to signal [parent_sema] in [process_exit], or waiting
    for [parent_sema2] there. *)
Inductive child_pc := Loading | Announcing (ok : bool) | Running | Exiting | Dying.

(** How a child ended: with [exit], killed by the kernel, or because its program could not be
    loaded. *)
Inductive ended := Exited (status : Z) | KilledByKernel | NotLoaded.

(** The [exit_number] it leaves: only [exit] sets it. *)
Definition reported (e : ended) : Z := match e with Exited v => v | _ => 0 end.

Record child := mk_child { at_ : child_pc; parent_sema : Z; parent_sema2 : Z; exit_number : Z }.

(** Where the parent is: between calls, in [process_execute] (at [sema_down] on
    [create_sema], then before the check of [create_success]; no tid for [TID_ERROR]), in
    [process_wait] (at [sema_down] on the child's [parent_sema], then before
    [list_remove], before the status is read and before [sema_up] on [parent_sema2]), or
    gone. *)
Inductive parent_pc :=
| Idle | CreateDown (tid : option Z) | CreateCheck (tid : option Z)
| WaitDown (c : Z) | WaitRemove (c : Z) | WaitRead (c : Z) | WaitUp (c v : Z) | Left_.

Record family := mk_family {
  ppc : parent_pc;
  child_list : list Z;
  create_sema : Z;
  create_success : bool;
  children : gmap Z child;        (* the structures that are not freed *)
  next_tid : Z;
  answers : list (Z * option Z);  (* child and result of every [process_wait]; none for -1
                                     because it is not in the list *)
  statuses : gmap Z ended         (* how each child ended *)
}.

Definition set_ppc x s := mk_family x (child_list s) (create_sema s) (create_success s) (children s) (next_tid s) (answers s) (statuses s).
Definition set_child_list x s := mk_family (ppc s) x (create_sema s) (create_success s) (children s) (next_tid s) (answers s) (statuses s).
Definition set_create_sema x s := mk_family (ppc s) (child_list s) x (create_success s) (children s) (next_tid s) (answers s) (statuses s).
Definition set_create_success x s := mk_family (ppc s) (child_list s) (create_sema s) x (children s) (next_tid s) (answers s) (statuses s).
Definition set_children x s := mk_family (ppc s) (child_list s) (create_sema s) (create_success s) x (next_tid s) (answers s) (statuses s).
Definition set_next_tid x s := mk_family (ppc s) (child_list s) (create_sema s) (create_success s) (children s) x (answers s) (statuses s).
Definition set_answers x s := mk_family (ppc s) (child_list s) (create_sema s) (create_success s) (children s) (next_tid s) x (statuses s).
Definition set_statuses x s := mk_family (ppc s) (child_list s) (create_sema s) (create_success s) (children s) (next_tid s) (answers s) x.

Definition put (c : Z) (k : child) (s : family) : family := set_children (<[c := k]> (children s)) s.

(** The outcome of a step: it has to wait, it accesses a structure that was freed, or
    it leads to a state. *)
Inductive outcome := Blocked | Crash | Next (s : family).

Definition access (c : Z) (s : family) (k : child → outcome) : outcome :=
  match children s !! c with Some x => k x | None => Crash end.

Definition TID_ERROR : Z := -1.

(** ** The parent *)

(** [process_execute] may find no page for its copy of the command line ([copied]), and
    [thread_create] no memory ([created]). *)
Inductive parent_act := Execute (copied created : bool) | Wait (tid : Z) | Leave | Continue.

(** [thread_create] as far as the family is concerned; it fails without memory. *)
Definition start_child (created : bool) (s : family) : family :=
  if created then
    set_ppc (CreateDown (Some (next_tid s)))
      (set_next_tid (next_tid s + 1) (set_child_list (child_list s ++ [next_tid s]) (put (next_tid s) (mk_child Loading 0 0 0) s)))
  else set_ppc (CreateDown None) s.

(** The loop of [process_wait] over [child_list], which reads the structures up to the
    one it looks for. *)
Fixpoint find_child (l : list Z) (tid : Z) (s : family) : outcome :=
  match l with
  | [] => Next (set_answers (answers s ++ [(tid, None)]) s)
  | c :: l' => access c s (λ _, if c =? tid then Next (set_ppc (WaitDown c) s) else find_child l' tid s)
  end.

Definition parent_step (a : parent_act) (s : family) : outcome :=
  match ppc s, a with
  | Idle, Execute copied created => if copied then Next (start_child created s) else Next s
  | Idle, Wait tid => find_child (child_list s) tid s
  | Idle, Leave => Next (set_ppc Left_ s)
  | CreateDown tid, Continue =>
      if create_sema s =? 0 then Blocked else Next (set_ppc (CreateCheck tid) (set_create_sema (create_sema s - 1) s))
  | CreateCheck _, Continue => Next (set_ppc Idle s)
  | WaitDown c, Continue =>
      access c s (λ k, if parent_sema k =? 0 then Blocked
                       else Next (set_ppc (WaitRemove c) (put c (mk_child (at_ k) (parent_sema k - 1) (parent_sema2 k) (exit_number k)) s)))
  | WaitRemove c, Continue => access c s (λ _, Next (set_ppc (WaitRead c) (set_child_list (filter (λ x, x ≠ c) (child_list s)) s)))
  | WaitRead c, Continue => access c s (λ k, Next (set_ppc (WaitUp c (exit_number k)) s))
  | WaitUp c v, Continue =>
      access c s (λ k, Next (set_answers (answers s ++ [(c, Some v)])
                         (set_ppc Idle (put c (mk_child (at_ k) (parent_sema k) (parent_sema2 k + 1) (exit_number k)) s))))
  | _, _ => Blocked
  end.

(** What [process_execute] returns: at once without a page for the copy, else at the check. *)
Definition execute_result (a : parent_act) (s : family) : option Z :=
  match ppc s, a with
  | Idle, Execute false _ => Some TID_ERROR
  | CreateCheck tid, Continue => Some (if create_success s then default TID_ERROR tid else -1)
  | _, _ => None
  end.

(** ** A child *)

Inductive child_act := Loads (ok : bool) | Exit (status : Z) | Killed | Proceed.

Definition child_step (c : Z) (a : child_act) (s : family) : outcome :=
  match children s !! c with
  | None => Blocked
  | Some k =>
      match at_ k, a with
      | Loading, Loads ok =>
          (* the parent's structure is accessed *)
          match ppc s with
          | Left_ => Crash
          | _ => Next (set_create_success ok (put c (mk_child (Announcing ok) (parent_sema k) (parent_sema2 k) (exit_number k)) s))
          end
      | Announcing ok, Proceed =>
          match ppc s with
          | Left_ => Crash
          | _ =>
              let s := set_create_sema (create_sema s + 1) s in
              Next (if ok then put c (mk_child Running (parent_sema k) (parent_sema2 k) (exit_number k)) s
                    else set_statuses (<[c := NotLoaded]> (statuses s)) (put c (mk_child Exiting (parent_sema k) (parent_sema2 k) (exit_number k)) s))
          end
      | Running, Exit status =>
          Next (set_statuses (<[c := Exited status]> (statuses s)) (put c (mk_child Exiting (parent_sema k) (parent_sema2 k) status) s))
      | Running, Killed =>
          Next (set_statuses (<[c := KilledByKernel]> (statuses s)) (put c (mk_child Exiting (parent_sema k) (parent_sema2 k) (exit_number k)) s))
      | Exiting, Proceed => Next (put c (mk_child Dying (parent_sema k + 1) (parent_sema2 k) (exit_number k)) s)
      | Dying, Proceed => if parent_sema2 k =? 0 then Blocked else Next (set_children (delete c (children s)) s)
      | _, _ => Blocked
      end
  end.

(** ** Runs *)

Definition initial : family := mk_family Idle [] 0 true ∅ 2 [] ∅.

Inductive reachable : family → Prop :=
| reach_initial : reachable initial
| reach_parent a s s' : reachable s → parent_step a s = Next s' → reachable s'
| reach_child c a s s' : reachable s → child_step c a s = Next s' → reachable s'.

(** ** The invariant

    The state of a family as one child sees it: its structure, whether it is in the
    list, the statuses that were returned for it, the status it exited with, what the
    parent is doing with it, and whether its tid was given out. *)

Inductive role := NoRole | Creating (sema : Z) | InDown | InRemove | InRead | InUp (v : Z).

Record view := mk_view {
  v_child : option child; v_listed : bool; v_returned : list Z; v_status : option ended; v_role : role; v_known : bool
}.

Definition role_of (s : family) (c : Z) : role :=
  match ppc s with
  | CreateDown (Some x) => if x =? c then Creating (create_sema s) else NoRole
  | WaitDown x => if x =? c then InDown else NoRole
  | WaitRemove x => if x =? c then InRemove else NoRole
  | WaitRead x => if x =? c then InRead else NoRole
  | WaitUp x v => if x =? c then InUp v else NoRole
  | _ => NoRole
  end.

Definition returned (l : list (Z * option Z)) (c : Z) : list Z := omap (λ a, if a.1 =? c then a.2 else None) l.

Definition view_of (s : family) (c : Z) : view :=
  mk_view (children s !! c) (bool_decide (c ∈ child_list s)) (returned (answers s) c) (statuses s !! c) (role_of s c) (c <? next_tid s).

Definition quiet (r : role) : Prop := r = NoRole ∨ r = Creating 1 ∨ r = InDown.

Definition child_ok (k : child) (v : view) : Prop :=
  match at_ k with
  | Loading | Announcing _ => exit_number k = 0 ∧ parent_sema k = 0 ∧ parent_sema2 k = 0 ∧ v_listed v = true ∧ v_returned v = [] ∧ v_role v = Creating 0
  | Running => exit_number k = 0 ∧ parent_sema k = 0 ∧ parent_sema2 k = 0 ∧ v_listed v = true ∧ v_returned v = [] ∧ quiet (v_role v)
  | Exiting => parent_sema k = 0 ∧ parent_sema2 k = 0 ∧ v_listed v = true ∧ v_returned v = [] ∧ quiet (v_role v) ∧ reported <$> v_status v = Some (exit_number k)
  | Dying =>
      reported <$> v_status v = Some (exit_number k) ∧
      (parent_sema k = 1 ∧ parent_sema2 k = 0 ∧ v_listed v = true ∧ v_returned v = [] ∧ quiet (v_role v) ∨
       parent_sema k = 0 ∧ parent_sema2 k = 0 ∧ v_returned v = [] ∧
         (v_role v = InRemove ∧ v_listed v = true ∨ (v_role v = InRead ∨ v_role v = InUp (exit_number k)) ∧ v_listed v = false) ∨
       parent_sema k = 0 ∧ parent_sema2 k = 1 ∧ v_listed v = false ∧ v_returned v = [exit_number k] ∧ v_role v = NoRole)
  end.

Definition view_ok (v : view) : Prop :=
  match v_child v with
  | Some k => v_known v = true ∧ child_ok k v
  | None => v_listed v = false ∧ v_role v = NoRole ∧
      if v_known v then ∃ e, v_status v = Some e ∧ v_returned v = [reported e] else v_returned v = []
  end.

Record family_ok (s : family) : Prop := {
  fo_views : ∀ c, 2 <= c → view_ok (view_of s c);
  fo_nodup : NoDup (child_list s);
  fo_listed : ∀ c, c ∈ child_list s → 2 <= c;
  fo_children : ∀ c k, children s !! c = Some k → 2 <= c;
  fo_role : match ppc s with CreateDown (Some c) | WaitDown c | WaitRemove c | WaitRead c | WaitUp c _ => 2 <= c | _ => True end;
  fo_create : match ppc s with CreateDown (Some _) => True | _ => create_sema s = 0 end;
  fo_tid : 2 <= next_tid s
}.

Lemma initial_ok : family_ok initial.
Proof.
  split; simpl; try done; [|apply NoDup_nil_2|by intros c ?%not_elem_of_nil].
  intros c Hc. unfold view_of, view_ok, role_of. cbn. rewrite (proj2 (Z.ltb_ge _ _)) by lia. done.
Qed.

(** A step that changes only what child [c] sees. *)
Lemma family_ok_step s s' c :
  family_ok s → (∀ x, x ≠ c → view_of s' x = view_of s x) → (2 <= c → view_ok (view_of s' c)) →
  NoDup (child_list s') → (∀ x, x ∈ child_list s' → 2 <= x) → (∀ x k, children s' !! x = Some k → 2 <= x) →
  match ppc s' with CreateDown (Some c) | WaitDown c | WaitRemove c | WaitRead c | WaitUp c _ => 2 <= c | _ => True end →
  match ppc s' with CreateDown (Some _) => True | _ => create_sema s' = 0 end → 2 <= next_tid s' → family_ok s'.
Proof.
  intros [V _ _ _ _ _ _] Hother Hc. split; try done. intros x Hx. destruct (decide (x = c)) as [->|]; [by apply Hc|]. rewrite Hother by done. by apply V.
Qed.

Lemma view_ext s s' x :
  children s' !! x = children s !! x → (x ∈ child_list s' ↔ x ∈ child_list s) → returned (answers s') x = returned (answers s) x →
  statuses s' !! x = statuses s !! x → role_of s' x = role_of s x → (x <? next_tid s') = (x <? next_tid s) → view_of s' x = view_of s x.
Proof. intros H1 H2 H3 H4 H5 H6. unfold view_of. rewrite H1, H3, H4, H5, H6. f_equal. by apply bool_decide_ext. Qed.

(** The goals about the children a step does not touch. *)
Ltac others :=
  match goal with
  | |- ∀ x, x ≠ ?c → view_of _ x = view_of _ x =>
      intros x Hx; apply view_ext; simpl; rewrite ?lookup_insert_ne, ?lookup_delete_ne by done; try done
  | |- ∀ x k, <[?c := _]> _ !! x = Some k → _ => intros x y [[<- _]|[_ Hy]]%lookup_insert_Some; eauto
  end.
Ltac see := unfold view_ok, child_ok, view_of; simpl; rewrite ?lookup_insert_eq, ?lookup_delete_eq; simpl.

Lemma creating_role s c n : role_of s c = Creating n → ppc s = CreateDown (Some c) ∧ create_sema s = n.
Proof. unfold role_of. destruct (ppc s) as [|[x|]| | | | | |]; repeat case_match; try done. intros [= <-]. apply Z.eqb_eq in H as ->. done. Qed.

Lemma child_step_ok c a s s' : family_ok s → child_step c a s = Next s' → family_ok s'.
Proof.
  intros Hok E. pose proof Hok as [V N L K R C T]. unfold child_step in E. destruct (children s !! c) as [k|] eqn:Ek; [|done].
  pose proof (V c (K c k Ek)) as Hv. unfold view_ok, child_ok in Hv. cbn [view_of v_child] in Hv. rewrite Ek in Hv. destruct Hv as [Hkn Hv].
  destruct (at_ k) eqn:Ea, a; try done; cbn in Hv, Hkn.
  - destruct Hv as (H0 & H1 & H2 & H3 & H4 & H5). destruct (creating_role _ _ _ H5) as [Hp Hcs]. rewrite Hp in E. injection E as <-.
    apply (family_ok_step s _ c); try done; simpl; try others; try (by rewrite ?Hp). intros _. see. done.
  - destruct Hv as (H0 & H1 & H2 & H3 & H4 & H5). destruct (creating_role _ _ _ H5) as [Hp Hcs]. rewrite Hp, Hcs in E. injection E as <-.
    destruct ok; (apply (family_ok_step s _ c); try done; simpl; try others; try (by rewrite ?Hp)); try (intros _; see; unfold role_of, quiet; simpl; rewrite Hp, Z.eqb_refl, ?H0; auto 10).
    all: unfold role_of; simpl; rewrite Hp; by rewrite (proj2 (Z.eqb_neq c x)).
  - injection E as <-. apply (family_ok_step s _ c); try done; simpl; try others. intros _. see. destruct Hv as (_ & H1 & H2 & H3 & H4 & H5). split_and!; done.
  - injection E as <-. apply (family_ok_step s _ c); try done; simpl; try others. intros _. see. destruct Hv as (H0 & H1 & H2 & H3 & H4 & H5). rewrite H0. split_and!; done.
  - injection E as <-. apply (family_ok_step s _ c); try done; simpl; try others. intros _. see. naive_solver lia.
  - destruct (Z.eqb_spec (parent_sema2 k) 0); [done|]. injection E as <-. apply (family_ok_step s _ c); try done; simpl; try others.
    + intros _. see. rewrite Hkn. destruct Hv as (Hst & [Hv|[Hv|Hv]]); [lia..|]. destruct Hv as (_ & _ & H3 & H4 & H5). apply fmap_Some in Hst as (e & He & Hst). rewrite Hst in H4. split_and!; eauto.
    + intros x y [_ Hy]%lookup_delete_Some. eauto.
Qed.

Lemma returned_app l l' c : returned (l ++ l') c = returned l c ++ returned l' c.
Proof. apply omap_app. Qed.

Lemma listed_child s c : family_ok s → c ∈ child_list s → ∃ k, children s !! c = Some k.
Proof.
  intros [V N L K R C T] Hin. pose proof (V c (L c Hin)) as Hv. unfold view_ok, view_of in Hv. simpl in Hv.
  destruct (children s !! c) as [k|]; [eauto|]. destruct Hv as [Hv _]. by rewrite bool_decide_eq_true_2 in Hv.
Qed.

Lemma find_child_run s l tid : (∀ c, c ∈ l → ∃ k, children s !! c = Some k) →
  find_child l tid s = Next (if decide (tid ∈ l) then set_ppc (WaitDown tid) s else set_answers (answers s ++ [(tid, None)]) s).
Proof.
  induction l as [|c l IH]; intros Hl; [done|]. cbn [find_child]. unfold access. destruct (Hl c) as [k ->]; [set_solver|].
  destruct (Z.eqb_spec c tid) as [->|Hne]; [by rewrite decide_True by set_solver|]. rewrite IH by set_solver.
  destruct (decide (tid ∈ l)); [rewrite decide_True by set_solver|rewrite decide_False by set_solver]; done.
Qed.

(** What the parent knows about the child it is dealing with. *)
Lemma role_view s c : family_ok s → 2 <= c → role_of s c ≠ NoRole → (∀ n, role_of s c ≠ Creating n) →
  ∃ k, children s !! c = Some k ∧ (c <? next_tid s) = true ∧ child_ok k (view_of s c).
Proof.
  intros [V _ _ _ _ _ _] Hc Hr Hn. pose proof (V c Hc) as Hv. unfold view_ok in Hv. cbn [view_of v_child v_known v_role] in Hv.
  destruct (children s !! c) as [k|]; [by exists k|]. by destruct Hv as (_ & Hv & _).
Qed.

Lemma role_self s c : role_of s c = match ppc s with
  | CreateDown (Some x) => if x =? c then Creating (create_sema s) else NoRole
  | WaitDown x => if x =? c then InDown else NoRole
  | WaitRemove x => if x =? c then InRemove else NoRole
  | WaitRead x => if x =? c then InRead else NoRole
  | WaitUp x v => if x =? c then InUp v else NoRole
  | _ => NoRole end.
Proof. done. Qed.

(** Steps of the parent inside [process_wait] on child [c]. *)
Ltac with_child c :=
  match goal with
  | Hok : family_ok ?s, Ep : ppc ?s = _ |- _ =>
      let k := fresh "k" in let Ek := fresh "Ek" in let Hkn := fresh "Hkn" in let Hv := fresh "Hv" in
      destruct (role_view s c Hok) as (k & Ek & Hkn & Hv);
        [pose proof (fo_role _ Hok) as HH; by rewrite Ep in HH|rewrite role_self, Ep, Z.eqb_refl; done|rewrite role_self, Ep, Z.eqb_refl; done|];
      unfold access in *; rewrite Ek in *; unfold child_ok in Hv;
      cbn [view_of v_status v_listed v_returned v_role] in Hv; rewrite role_self, Ep, Z.eqb_refl in Hv
  end.

Lemma no_role s x : (match ppc s with WaitDown c | WaitRemove c | WaitRead c | WaitUp c _ | CreateDown (Some c) => c ≠ x | _ => True end) → role_of s x = NoRole.
Proof. rewrite role_self. destruct (ppc s) as [|[]| | | | | |]; try done; intros H; by rewrite (proj2 (Z.eqb_neq _ _) H). Qed.

Lemma parent_step_ok a s s' : family_ok s → parent_step a s = Next s' → family_ok s'.
Proof.
  intros Hok E. pose proof Hok as [V N L K R C T]. unfold parent_step in E. destruct (ppc s) as [|tid|tid|c|c|c|c v|] eqn:Ep, a as [copied created|tid'| |]; try done.
  - destruct copied; [|by injection E as <-]. injection E as <-. unfold start_child. destruct created.
    + pose proof (V (next_tid s) T) as Hv. unfold view_ok, view_of in Hv. simpl in Hv. rewrite Z.ltb_irrefl in Hv.
      assert (Hnone : children s !! next_tid s = None ∧ returned (answers s) (next_tid s) = []) by (destruct (children s !! next_tid s); naive_solver).
      destruct Hnone as [Hnone Hret]. assert (Hnl : next_tid s ∉ child_list s) by (intros [k Hk]%listed_child; congruence).
      apply (family_ok_step s _ (next_tid s)); try done; simpl; try others; try lia.
      * set_solver.
      * rewrite !role_self. simpl. by rewrite Ep, (proj2 (Z.eqb_neq _ _)) by done.
      * intros _. see. rewrite (proj2 (Z.ltb_lt _ _)), role_self by lia. simpl. rewrite Z.eqb_refl, C, bool_decide_eq_true_2 by set_solver. done.
      * apply NoDup_app. split_and!; [done| |apply NoDup_singleton]. intros x Hx ->%list_elem_of_singleton. done.
      * intros x [Hx| ->%list_elem_of_singleton]%elem_of_app; [eauto|lia].
    + apply (family_ok_step s _ 0); try done. intros x Hx. apply view_ext; try done. rewrite !role_self. simpl. by rewrite Ep.
  - rewrite find_child_run in E by (intros; by eapply listed_child). injection E as <-. destruct (decide (tid' ∈ child_list s)) as [Hin|Hin].
    + apply (family_ok_step s _ tid'); try done; [| |by apply L].
      * intros x Hx. apply view_ext; try done. rewrite !role_self. simpl. by rewrite Ep, (proj2 (Z.eqb_neq _ _)).
      * intros H2. pose proof (V tid' H2) as Hv. destruct (listed_child s tid' Hok Hin) as [k Ek]. unfold view_ok, child_ok, view_of, quiet in *.
        simpl in *. rewrite Ek in *. rewrite role_self in Hv |- *. simpl. rewrite Ep in Hv. rewrite Z.eqb_refl. rewrite bool_decide_eq_true_2 in * by done.
        destruct (at_ k); naive_solver.
    + apply (family_ok_step s _ 0); try done; [|by simpl; rewrite Ep..]. intros x Hx. apply view_ext; try done. simpl. rewrite returned_app. simpl.
      destruct (tid' =? x); apply app_nil_r.
  - injection E as <-. apply (family_ok_step s _ 0); try done. intros x Hx. apply view_ext; try done. rewrite !role_self. simpl. by rewrite Ep.
  - destruct (Z.eqb_spec (create_sema s) 0) as [|Hn]; [done|]. injection E as <-. destruct tid as [c|]; [|done].
    pose proof (V c R) as Hv. unfold view_ok, view_of in Hv. simpl in Hv. rewrite role_self, Ep, Z.eqb_refl in Hv.
    destruct (children s !! c) as [k|] eqn:Ek; [|by destruct Hv as (_ & ? & _)]. destruct Hv as [Hkn Hv]. unfold child_ok, quiet in Hv. simpl in Hv.
    assert (H1 : create_sema s = 1) by (destruct (at_ k); naive_solver).
    apply (family_ok_step s _ c); try done; [| |simpl; lia].
    + intros x Hx. apply view_ext; try done. rewrite !role_self. simpl. by rewrite Ep, (proj2 (Z.eqb_neq _ _)) by done.
    + intros _. see. rewrite Ek, role_self. simpl. split; [done|]. unfold quiet. destruct (at_ k); naive_solver.
  - injection E as <-. apply (family_ok_step s _ 0); try done. intros x Hx. apply view_ext; try done. rewrite !role_self. simpl. by rewrite Ep.
  - with_child c. destruct (Z.eqb_spec (parent_sema k) 0) as [|Hn]; [done|]. injection E as <-.
    apply (family_ok_step s _ c); try done; simpl; try others.
    + rewrite !role_self. simpl. by rewrite Ep, (proj2 (Z.eqb_neq _ _)).
    + intros _. see. rewrite role_self. simpl. rewrite Z.eqb_refl. split; [done|]. unfold quiet in *. destruct (at_ k); naive_solver lia.
  - with_child c. injection E as <-. apply (family_ok_step s _ c); try done; simpl; try others.
    + rewrite list_elem_of_filter. naive_solver.
    + rewrite !role_self. simpl. by rewrite Ep, (proj2 (Z.eqb_neq _ _)).
    + intros _. see. rewrite Ek, role_self. simpl. rewrite Z.eqb_refl, bool_decide_eq_false_2 by (rewrite list_elem_of_filter; naive_solver).
      split; [done|]. unfold quiet in *. destruct (at_ k); naive_solver.
    + by apply NoDup_filter.
    + intros x [_ Hx]%list_elem_of_filter. eauto.
  - with_child c. injection E as <-. apply (family_ok_step s _ c); try done; simpl; try others.
    + rewrite !role_self. simpl. by rewrite Ep, (proj2 (Z.eqb_neq _ _)).
    + intros _. see. rewrite Ek, role_self. simpl. rewrite Z.eqb_refl. split; [done|]. unfold quiet in *. destruct (at_ k); naive_solver.
  - with_child c. injection E as <-. apply (family_ok_step s _ c); try done; simpl; try others.
    + rewrite returned_app. simpl. rewrite (proj2 (Z.eqb_neq c x)) by done. apply app_nil_r.
    + rewrite !role_self. simpl. by rewrite Ep, (proj2 (Z.eqb_neq _ _)).
    + intros _. see. rewrite role_self, returned_app. simpl. rewrite Z.eqb_refl. split; [done|]. unfold quiet in *. destruct (at_ k); [naive_solver|naive_solver|naive_solver|naive_solver|].
      destruct Hv as (H1 & [Hv|[Hv|Hv]]); [naive_solver| |naive_solver]. split; [done|]. right. right.
      destruct Hv as (H2 & H3 & H4 & [[? _]|[[?|[= ->]] H5]]); [done..|]. rewrite H4. naive_solver lia.
Qed.

Lemma reachable_ok s : reachable s → family_ok s.
Proof. induction 1; [apply initial_ok|by eapply parent_step_ok|by eapply child_step_ok]. Qed.

(** ** What the calls guarantee *)

(** C5: no interleaving of a process and its children makes one of them access the
    structure of a thread that was freed: while [process_wait] works on a child, and while
    the child reports to [process_execute], the other side is still there. *)
Theorem family_never_crashes s : reachable s → (∀ a, parent_step a s ≠ Crash) ∧ (∀ c a, child_step c a s ≠ Crash).
Proof.
  intros Hok%reachable_ok. split.
  - intros a. unfold parent_step. destruct (ppc s) as [|tid|tid|c|c|c|c v|] eqn:Ep, a; try done.
    + by destruct copied.
    + by rewrite find_child_run by (intros; by eapply listed_child).
    + by destruct (create_sema s =? 0).
    + with_child c. by destruct (parent_sema k =? 0).
    + by with_child c.
    + by with_child c.
    + by with_child c.
  - intros c a. unfold child_step. destruct (children s !! c) as [k|] eqn:Ek; [|done].
    pose proof (fo_views _ Hok c (fo_children _ Hok c k Ek)) as Hv. unfold view_ok, child_ok in Hv. cbn [view_of v_child] in Hv. rewrite Ek in Hv.
    destruct Hv as [_ Hv]. destruct (at_ k), a; try done; try (by destruct (parent_sema2 k =? 0));
      destruct Hv as (_ & _ & _ & _ & _ & [-> _]%creating_role); done.
Qed.

Lemma family_never_crashes_witness : parent_step (Execute true true) initial ≠ Crash ∧ child_step 2 Proceed initial ≠ Crash.
Proof. destruct (family_never_crashes initial reach_initial) as [H1 H2]. split; [apply H1|apply H2]. Defined.

(** C6: [process_wait] returns at most once for a child, and what it returns is what the
    child left in [exit_number]: the status given to [exit], but 0, and not the -1 that the
    comment and the test wait-killed ask for, when the kernel killed the child or could not
    load its program.  A wait for a child that is in the list and has ended goes through
    without blocking; afterwards the child can finish, and any further wait for it returns -1
    at once. *)
Theorem wait_returns_status s : reachable s →
  (∀ c, 2 <= c → returned (answers s) c = [] ∨ ∃ e, statuses s !! c = Some e ∧
     returned (answers s) c = [match e with Exited v => v | KilledByKernel | NotLoaded => 0 end]) ∧
  (∀ c k, ppc s = WaitDown c → children s !! c = Some k → at_ k = Dying →
     ∃ e s1 s2 s3 s4 s5, statuses s !! c = Some e ∧
       parent_step Continue s = Next s1 ∧ parent_step Continue s1 = Next s2 ∧ parent_step Continue s2 = Next s3 ∧
       parent_step Continue s3 = Next s4 ∧ ppc s4 = Idle ∧
       answers s4 = answers s ++ [(c, Some match e with Exited v => v | KilledByKernel | NotLoaded => 0 end)] ∧
       child_step c Proceed s4 = Next s5 ∧ children s5 !! c = None) ∧
  (∀ c, 2 <= c → ppc s = Idle → returned (answers s) c ≠ [] → parent_step (Wait c) s = Next (set_answers (answers s ++ [(c, None)]) s)).
Proof.
  intros Hok%reachable_ok. split_and!.
  - intros c Hc. pose proof (fo_views _ Hok c Hc) as Hv. unfold view_ok, child_ok, view_of in Hv. simpl in Hv.
    destruct (children s !! c) as [k|].
    + destruct Hv as [_ Hv]. destruct (at_ k); [naive_solver..|]. destruct Hv as (Hst & Hv). apply fmap_Some in Hst as (e & He & Hst). unfold reported in Hst.
      destruct Hv as [Hv|[Hv|Hv]]; [left; tauto..|]. right. exists e. split; [done|]. rewrite <- Hst. tauto.
    + destruct (c <? next_tid s); [|naive_solver]. destruct Hv as (_ & _ & e & He & Hr). right. by exists e.
  - intros c k Ep Hk Ed. with_child c. injection Hk as ->. rewrite Ed in Hv.
    destruct Hv as (Hst & [Hv|[Hv|Hv]]); [|unfold quiet in *; naive_solver..]. destruct Hv as (H1 & H2 & H3 & H4 & _).
    apply fmap_Some in Hst as (e & He & Hst). set (k1 := mk_child (at_ k) (parent_sema k - 1) (parent_sema2 k) (exit_number k)).
    eexists e, (set_ppc (WaitRemove c) (put c k1 s)). eexists. eexists. eexists. eexists. split; [done|].
    split; [unfold parent_step, access; rewrite Ep, Ek, (proj2 (Z.eqb_neq _ _)) by lia; reflexivity|].
    split; [unfold parent_step, access; simpl; rewrite lookup_insert_eq; reflexivity|].
    split; [unfold parent_step, access; simpl; rewrite lookup_insert_eq; reflexivity|].
    split; [unfold parent_step, access; simpl; rewrite lookup_insert_eq; reflexivity|]. simpl. rewrite Hst. split_and!; [done|done| |].
    + unfold child_step. simpl. rewrite lookup_insert_eq. simpl. rewrite Ed, (proj2 (Z.eqb_neq _ _)) by lia. reflexivity.
    + simpl. apply lookup_delete_eq.
  - intros c Hc Ep Hr. unfold parent_step. rewrite Ep, find_child_run by (intros; by eapply listed_child). rewrite decide_False; [done|].
    intros Hin. pose proof (fo_views _ Hok c Hc) as Hv. unfold view_ok, child_ok, view_of in Hv. simpl in Hv. rewrite bool_decide_eq_true_2 in Hv by done.
    destruct (children s !! c) as [k|]; [|naive_solver]. destruct Hv as [_ Hv]. destruct (at_ k); naive_solver.
Qed.

(** C7: the structure of a child is freed only after a [process_wait] returned its
    status.  So a child that nobody waits for, such as one whose program could not be
    loaded, stays in [process_exit] for ever, with its memory; and when [thread_create]
    fails, [process_execute] waits for ever for a child that does not exist. *)
Theorem unwaited_children_stay s : reachable s →
  (∀ c, 2 <= c < next_tid s → children s !! c = None → ∃ v, returned (answers s) c = [v]) ∧
  (∀ c k, 2 <= c → children s !! c = Some k → returned (answers s) c = [] → at_ k = Dying → child_step c Proceed s = Blocked) ∧
  (ppc s = CreateDown None → ∀ a, parent_step a s = Blocked).
Proof.
  intros Hok%reachable_ok. split_and!.
  - intros c Hc Hn. pose proof (fo_views _ Hok c ltac:(lia)) as Hv. unfold view_ok, view_of in Hv. simpl in Hv. rewrite Hn in Hv.
    rewrite (proj2 (Z.ltb_lt _ _)) in Hv by lia. naive_solver.
  - intros c k Hc Ek Hr Ed. pose proof (fo_views _ Hok c Hc) as Hv. unfold view_ok, child_ok, view_of in Hv. simpl in Hv. rewrite Ek, Ed in Hv. simpl in Hv.
    unfold child_step. rewrite Ek, Ed. destruct (Z.eqb_spec (parent_sema2 k) 0); [done|].
    destruct Hv as (_ & _ & [(_ & ? & _)|[(_ & ? & _)|(_ & _ & _ & ? & _)]]); congruence.
  - intros Ep a. pose proof (fo_create _ Hok) as Hc. rewrite Ep in Hc. unfold parent_step. rewrite Ep. destruct a; try done. by rewrite Hc.
Qed.

(** ** Samples *)

Inductive move := ByParent (a : parent_act) | ByChild (c : Z) (a : child_act).

Definition run_move (m : move) (s : family) : outcome := match m with ByParent a => parent_step a s | ByChild c a => child_step c a s end.

Fixpoint run (ms : list move) (s : family) : option family :=
  match ms with
  | [] => Some s
  | m :: ms' => match run_move m s with Next s' => run ms' s' | _ => None end
  end.

Lemma run_reachable ms s s' : reachable s → run ms s = Some s' → reachable s'.
Proof.
  revert s. induction ms as [|m ms IH]; intros s Hr E; simpl in E; [by simplify_eq|]. destruct (run_move m s) as [| |s1] eqn:Em; try done.
  apply (IH s1); [|done]. destruct m; [by eapply reach_parent|by eapply reach_child].
Qed.

(** The child exits with status 7 before its parent waits for it. *)
Definition exit_first : list move :=
  [ByParent (Execute true true); ByChild 2 (Loads true); ByChild 2 Proceed; ByParent Continue; ByParent Continue;
   ByChild 2 (Exit 7); ByChild 2 Proceed; ByParent (Wait 2)].
Definition after (ms : list move) : family := default initial (run ms initial).

(** The same with a child that the kernel kills. *)
Definition killed_first : list move := take 5 exit_first ++ [ByChild 2 Killed; ByChild 2 Proceed; ByParent (Wait 2)].

Lemma wait_returns_status_witness :
  (∃ s1 s4, parent_step Continue (after exit_first) = Next s1 ∧ answers s4 = [(2, Some 7)]) ∧
  (∃ s1 s4, parent_step Continue (after killed_first) = Next s1 ∧ answers s4 = [(2, Some 0)]).
Proof.
  split.
  - destruct (wait_returns_status (after exit_first)) as (_ & Hw & _).
    + apply (run_reachable exit_first initial); [constructor|vm_compute; reflexivity].
    + destruct (Hw 2 (mk_child Dying 1 0 7)) as (e & s1 & _ & _ & s4 & _ & He & E & _ & _ & _ & _ & Ha & _); [vm_compute; reflexivity..|].
      vm_compute in He. injection He as <-. exists s1, s4. split; [exact E|exact Ha].
  - destruct (wait_returns_status (after killed_first)) as (_ & Hw & _).
    + apply (run_reachable killed_first initial); [constructor|vm_compute; reflexivity].
    + destruct (Hw 2 (mk_child Dying 1 0 0)) as (e & s1 & _ & _ & s4 & _ & He & E & _ & _ & _ & _ & Ha & _); [vm_compute; reflexivity..|].
      vm_compute in He. injection He as <-. exists s1, s4. split; [exact E|exact Ha].
Defined.

(** A child whose program cannot be loaded. *)
Definition failed_load : list move :=
  [ByParent (Execute true true); ByChild 2 (Loads false); ByChild 2 Proceed; ByParent Continue; ByChild 2 Proceed].

Lemma unwaited_children_stay_witness : execute_result Continue (after failed_load) = Some (-1) ∧ child_step 2 Proceed (after failed_load) = Blocked.
Proof.
  destruct (unwaited_children_stay (after failed_load)) as (_ & Hb & _).
  - apply (run_reachable failed_load initial); [constructor|vm_compute; reflexivity].
  - split; [vm_compute; reflexivity|]. apply (Hb 2 (mk_child Dying 1 0 0)); [lia|vm_compute; reflexivity..].
Defined.
