(* ===== verification/Threads.v ===== *)
(** * Threads, the scheduler and the timer (src/threads/thread.c, interrupt.c,
    src/devices/timer.c)

    The model is of the kernel built without USERPROG, the build in which the
    priority scheduler's aging is compiled in.  A thread is named by the address of
    its page; a queue is the sequence of the threads whose list elements it links
    (file ListSpec relates such sequences to the pointers).

    A function that can be suspended in the middle is a [proc]: a sequence of
    atomic actions.  An action is code that no interrupt can split: a single
    access made with interrupts on, or a section that runs with interrupts off up
    to the point where the thread switches away.  The saved stack of a suspended
    thread is the rest of its [proc]. *)

From Stdlib Require Export String.
From S2P Require Import Prelude Lists ListSpec ListSort Bitmap Palloc FixedPoint.
Local Open Scope Z_scope.

(** ** State *)

Inductive thread_status := THREAD_RUNNING | THREAD_READY | THREAD_BLOCKED | THREAD_DYING.

#[global] Instance thread_status_eq_dec : EqDecision thread_status.
Proof. solve_decision. Defined.

Definition THREAD_MAGIC : Z := 3446325067.
Definition TIME_SLICE : Z := 4.
Definition TIMER_FREQ : Z := 100.
Definition TID_ERROR : Z := -1.

Record thread := mk_thread {
  tid : Z; status : thread_status; name : string; stack : Z; priority : Z;
  child_list : list Z; parent_list : list Z;
  wake : Z;                       (* the member [ticks] *)
  nice : Z; recent_cpu : Z; magic : Z;
  frame_function : Z; frame_aux : Z   (* the [kernel_thread_frame] on its stack *)
}.

(** A semaphore: one of its own, the one inside a lock, or the one
    [cond_wait] keeps on a thread's stack. *)
Inductive sref := Sema (a : Z) | LockSema (l : Z) | StackSema (t : Z).

#[global] Instance sref_eq_dec : EqDecision sref.
Proof. solve_decision. Defined.
#[global] Instance sref_countable : Countable sref.
Proof.
  refine (inj_countable'
    (λ s, match s with Sema a => (0, a) | LockSema l => (1, l) | StackSema t => (2, t) end)
    (λ p, match p with (0, a) => Sema a | (1, l) => LockSema l | (_, t) => StackSema t end) _).
  by intros [].
Defined.

Record semaphore := mk_sema { value : Z; waiters : list Z }.

Record kernel := mk_kernel {
  threads : gmap Z thread;
  ready_list : list Z; blocked_list : list Z; all_list : list Z;
  running : Z;                    (* the page of the stack pointer *)
  idle_thread : Z; initial_thread : Z;
  next_tid : Z; load_avg : Z;
  idle_ticks : Z; kernel_ticks : Z; thread_ticks : Z;
  ticks : Z;
  thread_prior_aging : bool; thread_mlfqs : bool;
  intr_on : bool; in_external_intr : bool; yield_on_return : bool;
  semas : gmap sref semaphore;
  holders : gmap Z Z;             (* the member [holder] of each lock *)
  conds : gmap Z (list sref);
  pages : palloc_state
}.

Definition set_threads x k := mk_kernel x (ready_list k) (blocked_list k) (all_list k) (running k)
  (idle_thread k) (initial_thread k) (next_tid k) (load_avg k) (idle_ticks k) (kernel_ticks k) (thread_ticks
  k) (ticks k) (thread_prior_aging k) (thread_mlfqs k) (intr_on k) (in_external_intr k) (yield_on_return k)
  (semas k) (holders k) (conds k) (pages k).
Definition set_ready_list x k := mk_kernel (threads k) x (blocked_list k) (all_list k) (running k)
  (idle_thread k) (initial_thread k) (next_tid k) (load_avg k) (idle_ticks k) (kernel_ticks k) (thread_ticks
  k) (ticks k) (thread_prior_aging k) (thread_mlfqs k) (intr_on k) (in_external_intr k) (yield_on_return k)
  (semas k) (holders k) (conds k) (pages k).
Definition set_blocked_list x k := mk_kernel (threads k) (ready_list k) x (all_list k) (running k)
  (idle_thread k) (initial_thread k) (next_tid k) (load_avg k) (idle_ticks k) (kernel_ticks k) (thread_ticks
  k) (ticks k) (thread_prior_aging k) (thread_mlfqs k) (intr_on k) (in_external_intr k) (yield_on_return k)
  (semas k) (holders k) (conds k) (pages k).
Definition set_all_list x k := mk_kernel (threads k) (ready_list k) (blocked_list k) x (running k)
  (idle_thread k) (initial_thread k) (next_tid k) (load_avg k) (idle_ticks k) (kernel_ticks k) (thread_ticks
  k) (ticks k) (thread_prior_aging k) (thread_mlfqs k) (intr_on k) (in_external_intr k) (yield_on_return k)
  (semas k) (holders k) (conds k) (pages k).
Definition set_running x k := mk_kernel (threads k) (ready_list k) (blocked_list k) (all_list k) x
  (idle_thread k) (initial_thread k) (next_tid k) (load_avg k) (idle_ticks k) (kernel_ticks k) (thread_ticks
  k) (ticks k) (thread_prior_aging k) (thread_mlfqs k) (intr_on k) (in_external_intr k) (yield_on_return k)
  (semas k) (holders k) (conds k) (pages k).
Definition set_idle_thread x k := mk_kernel (threads k) (ready_list k) (blocked_list k) (all_list k) (running
  k) x (initial_thread k) (next_tid k) (load_avg k) (idle_ticks k) (kernel_ticks k) (thread_ticks k) (ticks k)
  (thread_prior_aging k) (thread_mlfqs k) (intr_on k) (in_external_intr k) (yield_on_return k) (semas k)
  (holders k) (conds k) (pages k).
Definition set_next_tid x k := mk_kernel (threads k) (ready_list k) (blocked_list k) (all_list k) (running k)
  (idle_thread k) (initial_thread k) x (load_avg k) (idle_ticks k) (kernel_ticks k) (thread_ticks k) (ticks k)
  (thread_prior_aging k) (thread_mlfqs k) (intr_on k) (in_external_intr k) (yield_on_return k) (semas k)
  (holders k) (conds k) (pages k).
Definition set_load_avg x k := mk_kernel (threads k) (ready_list k) (blocked_list k) (all_list k) (running k)
  (idle_thread k) (initial_thread k) (next_tid k) x (idle_ticks k) (kernel_ticks k) (thread_ticks k) (ticks k)
  (thread_prior_aging k) (thread_mlfqs k) (intr_on k) (in_external_intr k) (yield_on_return k) (semas k)
  (holders k) (conds k) (pages k).
Definition set_idle_ticks x k := mk_kernel (threads k) (ready_list k) (blocked_list k) (all_list k) (running
  k) (idle_thread k) (initial_thread k) (next_tid k) (load_avg k) x (kernel_ticks k) (thread_ticks k) (ticks
  k) (thread_prior_aging k) (thread_mlfqs k) (intr_on k) (in_external_intr k) (yield_on_return k) (semas k)
  (holders k) (conds k) (pages k).
Definition set_kernel_ticks x k := mk_kernel (threads k) (ready_list k) (blocked_list k) (all_list k) (running
  k) (idle_thread k) (initial_thread k) (next_tid k) (load_avg k) (idle_ticks k) x (thread_ticks k) (ticks k)
  (thread_prior_aging k) (thread_mlfqs k) (intr_on k) (in_external_intr k) (yield_on_return k) (semas k)
  (holders k) (conds k) (pages k).
Definition set_thread_ticks x k := mk_kernel (threads k) (ready_list k) (blocked_list k) (all_list k) (running
  k) (idle_thread k) (initial_thread k) (next_tid k) (load_avg k) (idle_ticks k) (kernel_ticks k) x (ticks k)
  (thread_prior_aging k) (thread_mlfqs k) (intr_on k) (in_external_intr k) (yield_on_return k) (semas k)
  (holders k) (conds k) (pages k).
Definition set_ticks x k := mk_kernel (threads k) (ready_list k) (blocked_list k) (all_list k) (running k)
  (idle_thread k) (initial_thread k) (next_tid k) (load_avg k) (idle_ticks k) (kernel_ticks k) (thread_ticks
  k) x (thread_prior_aging k) (thread_mlfqs k) (intr_on k) (in_external_intr k) (yield_on_return k) (semas k)
  (holders k) (conds k) (pages k).
Definition set_intr_on x k := mk_kernel (threads k) (ready_list k) (blocked_list k) (all_list k) (running k)
  (idle_thread k) (initial_thread k) (next_tid k) (load_avg k) (idle_ticks k) (kernel_ticks k) (thread_ticks
  k) (ticks k) (thread_prior_aging k) (thread_mlfqs k) x (in_external_intr k) (yield_on_return k) (semas k)
  (holders k) (conds k) (pages k).
Definition set_in_external_intr x k := mk_kernel (threads k) (ready_list k) (blocked_list k) (all_list k)
  (running k) (idle_thread k) (initial_thread k) (next_tid k) (load_avg k) (idle_ticks k) (kernel_ticks k)
  (thread_ticks k) (ticks k) (thread_prior_aging k) (thread_mlfqs k) (intr_on k) x (yield_on_return k) (semas
  k) (holders k) (conds k) (pages k).
Definition set_yield_on_return x k := mk_kernel (threads k) (ready_list k) (blocked_list k) (all_list k)
  (running k) (idle_thread k) (initial_thread k) (next_tid k) (load_avg k) (idle_ticks k) (kernel_ticks k)
  (thread_ticks k) (ticks k) (thread_prior_aging k) (thread_mlfqs k) (intr_on k) (in_external_intr k) x (semas
  k) (holders k) (conds k) (pages k).
Definition set_semas x k := mk_kernel (threads k) (ready_list k) (blocked_list k) (all_list k) (running k)
  (idle_thread k) (initial_thread k) (next_tid k) (load_avg k) (idle_ticks k) (kernel_ticks k) (thread_ticks
  k) (ticks k) (thread_prior_aging k) (thread_mlfqs k) (intr_on k) (in_external_intr k) (yield_on_return k) x
  (holders k) (conds k) (pages k).
Definition set_holders x k := mk_kernel (threads k) (ready_list k) (blocked_list k) (all_list k) (running k)
  (idle_thread k) (initial_thread k) (next_tid k) (load_avg k) (idle_ticks k) (kernel_ticks k) (thread_ticks
  k) (ticks k) (thread_prior_aging k) (thread_mlfqs k) (intr_on k) (in_external_intr k) (yield_on_return k)
  (semas k) x (conds k) (pages k).
Definition set_conds x k := mk_kernel (threads k) (ready_list k) (blocked_list k) (all_list k) (running k)
  (idle_thread k) (initial_thread k) (next_tid k) (load_avg k) (idle_ticks k) (kernel_ticks k) (thread_ticks
  k) (ticks k) (thread_prior_aging k) (thread_mlfqs k) (intr_on k) (in_external_intr k) (yield_on_return k)
  (semas k) (holders k) x (pages k).
Definition set_pages x k := mk_kernel (threads k) (ready_list k) (blocked_list k) (all_list k) (running k)
  (idle_thread k) (initial_thread k) (next_tid k) (load_avg k) (idle_ticks k) (kernel_ticks k) (thread_ticks
  k) (ticks k) (thread_prior_aging k) (thread_mlfqs k) (intr_on k) (in_external_intr k) (yield_on_return k)
  (semas k) (holders k) (conds k) x.

Definition with_tid x t := mk_thread x (status t) (name t) (stack t) (priority t) (child_list t) (parent_list
  t) (wake t) (nice t) (recent_cpu t) (magic t) (frame_function t) (frame_aux t).
Definition with_status x t := mk_thread (tid t) x (name t) (stack t) (priority t) (child_list t) (parent_list
  t) (wake t) (nice t) (recent_cpu t) (magic t) (frame_function t) (frame_aux t).
Definition with_stack x t := mk_thread (tid t) (status t) (name t) x (priority t) (child_list t) (parent_list
  t) (wake t) (nice t) (recent_cpu t) (magic t) (frame_function t) (frame_aux t).
Definition with_priority x t := mk_thread (tid t) (status t) (name t) (stack t) x (child_list t) (parent_list
  t) (wake t) (nice t) (recent_cpu t) (magic t) (frame_function t) (frame_aux t).
Definition with_child_list x t := mk_thread (tid t) (status t) (name t) (stack t) (priority t) x (parent_list
  t) (wake t) (nice t) (recent_cpu t) (magic t) (frame_function t) (frame_aux t).
Definition with_wake x t := mk_thread (tid t) (status t) (name t) (stack t) (priority t) (child_list t)
  (parent_list t) x (nice t) (recent_cpu t) (magic t) (frame_function t) (frame_aux t).
Definition with_nice x t := mk_thread (tid t) (status t) (name t) (stack t) (priority t) (child_list t)
  (parent_list t) (wake t) x (recent_cpu t) (magic t) (frame_function t) (frame_aux t).
Definition with_recent_cpu x t := mk_thread (tid t) (status t) (name t) (stack t) (priority t) (child_list t)
  (parent_list t) (wake t) (nice t) x (magic t) (frame_function t) (frame_aux t).
Definition with_frame f a t := mk_thread (tid t) (status t) (name t) (stack t) (priority t) (child_list t)
  (parent_list t) (wake t) (nice t) (recent_cpu t) (magic t) f a.

Notation K := (M kernel).

(** ** Interrupts (src/threads/interrupt.c) *)

(** The level is [true] for [INTR_ON]. *)
Definition intr_get_level : K bool := gets intr_on.
Definition intr_context : K bool := gets in_external_intr.

Definition intr_enable : K bool :=
  let* old_level := intr_get_level in
  let* ctx := intr_context in assert (negb ctx) ;;;
  modify (set_intr_on true) ;;; ret old_level.

Definition intr_disable : K bool :=
  let* old_level := intr_get_level in
  modify (set_intr_on false) ;;; ret old_level.

Definition intr_set_level (level : bool) : K bool := if level then intr_enable else intr_disable.

Definition intr_yield_on_return : K unit :=
  let* ctx := intr_context in assert ctx ;;; modify (set_yield_on_return true).

Definition assert_not_intr : K unit := let* ctx := intr_context in assert (negb ctx).
Definition assert_intr_off : K unit := let* on := intr_get_level in assert (negb on).

(** ** Access to thread structures *)

Definition get_thread (t : Z) : K thread := λ k, need (threads k !! t) k.
Definition upd_thread (t : Z) (f : thread → thread) : K unit :=
  let* th := get_thread t in modify (λ k, set_threads (<[t := f th]> (threads k)) k).

Definition is_thread (t : Z) : K bool :=
  if t =? NULL then ret false else let* th := get_thread t in ret (magic th =? THREAD_MAGIC).

Definition running_thread : K Z := gets running.

Definition thread_current : K Z :=
  let* t := running_thread in
  let* ok := is_thread t in assert ok ;;;
  let* th := get_thread t in assert (bool_decide (status th = THREAD_RUNNING)) ;;;
  ret t.

Definition thread_name : K string :=
  let* t := thread_current in let* th := get_thread t in ret (name th).
Definition thread_tid : K Z :=
  let* t := thread_current in let* th := get_thread t in ret (tid th).

Definition priority_of (k : kernel) (t : Z) : Z := default 0 (priority <$> threads k !! t).

(** On elements of the ready list or of a semaphore, which are [elem] members. *)
Definition list_compare_priority (k : kernel) (a b : Z) : bool := priority_of k b <? priority_of k a.

(** On elements of [blocked_list], which are [block_elem] members: stepping back
    from one as if it were an [elem] reads, in place of [priority], the word at
    offset 172 of the structure, the [prev] link of the file list's tail, which
    points to the head of that (empty) list at offset 164. *)
Definition compare_block_elem (a b : Z) : bool := s32 (b + 164) <? s32 (a + 164).

Definition list_remove_elem (t : Z) (xs : list Z) : list Z := filter (λ x, x ≠ t) xs.

(** ** The scheduler *)

Definition thread_unblock (t : Z) : K unit :=
  let* ok := is_thread t in assert ok ;;;
  let* old_level := intr_disable in
  let* th := get_thread t in assert (bool_decide (status th = THREAD_BLOCKED)) ;;;
  modify (λ k, set_ready_list (insert_before (list_compare_priority k) t (ready_list k)) k) ;;;
  upd_thread t (with_status THREAD_READY) ;;;
  intr_set_level old_level ;;; ret tt.

Definition next_thread_to_run : K Z :=
  let* r := gets ready_list in
  match r with
  | [] => gets idle_thread
  | t :: r' => modify (set_ready_list r') ;;; ret t
  end.

(** The page allocator inside the kernel state. *)
Definition with_pages {A} (m : M palloc_state A) : K A :=
  λ k, match m (pages k) with
       | Ok (a, p) => Ok (a, set_pages p k)
       | Fail f => Fail f
       end.

(** Freeing a thread's page destroys its structure. *)
Definition free_thread (t : Z) : K unit :=
  with_pages (palloc_free_page t) ;;; modify (λ k, set_threads (delete t (threads k)) k).

Definition thread_schedule_tail (prev : Z) : K unit :=
  let* cur := running_thread in
  assert_intr_off ;;;
  upd_thread cur (with_status THREAD_RUNNING) ;;;
  modify (set_thread_ticks 0) ;;;
  if prev =? NULL then ret tt
  else
    let* th := get_thread prev in
    let* init := gets initial_thread in
    if bool_decide (status th = THREAD_DYING) && negb (prev =? init)
    then assert (negb (prev =? cur)) ;;; free_thread prev
    else ret tt.

(** [switch_threads] moves the stack pointer to the next thread's page and returns
    the previous one there; both a resumed thread and a new one (through
    [switch_entry]) continue with [thread_schedule_tail]. *)
Definition switch_threads (cur next : Z) : K Z := modify (set_running next) ;;; ret cur.

Definition schedule : K unit :=
  let* cur := running_thread in
  let* next := next_thread_to_run in
  assert_intr_off ;;;
  let* th := get_thread cur in assert (negb (bool_decide (status th = THREAD_RUNNING))) ;;;
  let* ok := is_thread next in assert ok ;;;
  let* prev := (if cur =? next then ret NULL else switch_threads cur next) in
  thread_schedule_tail prev.

Definition thread_block : K unit :=
  assert_not_intr ;;; assert_intr_off ;;;
  let* cur := thread_current in
  upd_thread cur (with_status THREAD_BLOCKED) ;;;
  schedule.

(** [thread_yield] up to its resumption: the level to restore is returned. *)
Definition yield_section : K bool :=
  let* cur := thread_current in
  assert_not_intr ;;;
  let* old_level := intr_disable in
  let* idle := gets idle_thread in
  (if negb (cur =? idle)
   then modify (λ k, set_ready_list (insert_before (list_compare_priority k) cur (ready_list k)) k)
   else ret tt) ;;;
  upd_thread cur (with_status THREAD_READY) ;;;
  schedule ;;; ret old_level.

(** [thread_exit]; the code after [schedule] is never reached. *)
Definition exit_section : K unit :=
  assert_not_intr ;;;
  intr_disable ;;;
  let* cur := thread_current in
  modify (λ k, set_all_list (list_remove_elem cur (all_list k)) k) ;;;
  let* cur := thread_current in
  upd_thread cur (with_status THREAD_DYING) ;;;
  schedule.

Definition block_with_time_section (ticks : Z) : K bool :=
  let* cur := thread_current in
  assert_not_intr ;;;
  let* old_level := intr_disable in
  upd_thread cur (with_wake (u64 ticks)) ;;;
  modify (λ k, set_blocked_list (insert_before compare_block_elem cur (blocked_list k)) k) ;;;
  thread_block ;;; ret old_level.

(** [thread_foreach] *)
Fixpoint foreach_loop (func : Z → K unit) (ts : list Z) : K unit :=
  match ts with
  | [] => ret tt
  | t :: ts' => func t ;;; foreach_loop func ts'
  end.
Definition thread_foreach (func : Z → K unit) : K unit :=
  assert_intr_off ;;; let* ts := gets all_list in foreach_loop func ts.

Definition thread_findname_foreach (nm : string) : K bool :=
  let* k := gets id in
  ret (existsb (λ t, match threads k !! t with Some th => String.eqb (name th) nm | None => false end)
         (all_list k)).

(** ** Ticks *)

Definition timer_ticks : K Z :=
  let* old_level := intr_disable in
  let* t := gets ticks in
  intr_set_level old_level ;;; ret t.

(** The loop of [block_check] over the sleeping threads. *)
Fixpoint block_check_loop (ts : list Z) : K unit :=
  match ts with
  | [] => ret tt
  | t :: ts' =>
      let* th := get_thread t in
      let* now := timer_ticks in
      (if wake th <=? u64 now
       then thread_unblock t ;;; modify (λ k, set_blocked_list (list_remove_elem t (blocked_list k)) k)
       else ret tt) ;;;
      block_check_loop ts'
  end.

Definition block_check : K unit :=
  assert_intr_off ;;;
  let* ts := gets blocked_list in block_check_loop ts.

Definition thread_aging : K unit :=
  let* cur := thread_current in
  let* th := get_thread cur in
  let* r := lift (fixed_cal_int (s32 (recent_cpu th)) 1 ADD) in
  upd_thread cur (with_recent_cpu r).

Definition calculate_load_avg : K unit :=
  let* k := gets id in
  let* cur := thread_current in
  let n := Z.of_nat (length (ready_list k)) in
  let* la := lift (next_load_avg (load_avg k) (if cur =? idle_thread k then n else n + 1)) in
  modify (set_load_avg la).

Definition calculate_recent_cpu : K unit :=
  let* ts := gets all_list in
  foreach_loop (λ t,
    let* th := get_thread t in
    let* la := gets load_avg in
    let* r := lift (next_recent_cpu la (recent_cpu th) (nice th)) in
    upd_thread t (with_recent_cpu r)) ts.

Definition calculate_priority : K unit :=
  let* cur := thread_current in
  let* old := get_thread cur in
  let* ts := gets all_list in
  foreach_loop (λ t,
    let* th := get_thread t in
    let* p := lift (next_priority (recent_cpu th) (nice th)) in
    upd_thread t (with_priority p)) ts ;;;
  modify (λ k, set_ready_list (list_sort_fn (list_compare_priority k) (ready_list k)) k) ;;;
  let* cur := thread_current in
  let* new := get_thread cur in
  if priority new <? priority old then intr_yield_on_return else ret tt.

Definition thread_tick : K unit :=
  let* t := thread_current in
  let* idle := gets idle_thread in
  (if t =? idle then modify (λ k, set_idle_ticks (s64 (idle_ticks k + 1)) k)
   else modify (λ k, set_kernel_ticks (s64 (kernel_ticks k + 1)) k)) ;;;
  modify (λ k, set_thread_ticks (u32 (thread_ticks k + 1)) k) ;;;
  let* n := gets thread_ticks in
  (if TIME_SLICE <=? n then intr_yield_on_return else ret tt) ;;;
  block_check ;;;
  let* k := gets id in
  if thread_prior_aging k || thread_mlfqs k then
    thread_aging ;;;
    let* now := timer_ticks in
    (if Z.rem now TIMER_FREQ =? 0 then calculate_load_avg ;;; calculate_recent_cpu else ret tt) ;;;
    let* now := timer_ticks in
    if Z.rem now 4 =? 0 then calculate_priority else ret tt
  else ret tt.

Definition timer_interrupt : K unit := modify (λ k, set_ticks (s64 (ticks k + 1)) k) ;;; thread_tick.

(** [intr_handler] on the timer's vector, up to the point where the interrupted
    thread may yield: the result says whether it has to. *)
Definition intr_handler_timer : K bool :=
  assert_intr_off ;;; assert_not_intr ;;;
  modify (set_in_external_intr true) ;;; modify (set_yield_on_return false) ;;;
  timer_interrupt ;;;
  assert_intr_off ;;; (let* ctx := intr_context in assert ctx) ;;;
  modify (set_in_external_intr false) ;;;
  gets yield_on_return.

(** ** Thread creation *)

Definition blank_thread (nm : string) (t prio nc rc parent : Z) : thread :=
  mk_thread 0 THREAD_BLOCKED (String.substring 0 15 nm) (t + PGSIZE) prio [] [parent] 0 nc rc
    THREAD_MAGIC 0 0.

Definition init_thread (t : Z) (nm : string) (prio : Z) : K unit :=
  assert (negb (t =? NULL)) ;;;
  assert ((PRI_MIN <=? prio) && (prio <=? PRI_MAX)) ;;;
  let* cur := running_thread in
  modify (λ k, set_threads (<[t := blank_thread nm t prio 0 0 cur]> (threads k)) k) ;;;
  let* old_level := intr_disable in
  modify (λ k, set_all_list (all_list k ++ [t]) k) ;;;
  intr_set_level old_level ;;;
  upd_thread cur (λ th, with_child_list (child_list th ++ [t]) th) ;;;
  let* th := get_thread cur in
  upd_thread t (with_nice (nice th)) ;;;
  upd_thread t (with_recent_cpu (recent_cpu th)).

Definition alloc_frame (t size : Z) : K Z :=
  let* ok := is_thread t in assert ok ;;;
  assert (size mod 4 =? 0) ;;;
  let* th := get_thread t in
  upd_thread t (with_stack (u32 (stack th - size))) ;;;
  ret (u32 (stack th - size)).

(** The frames of [kernel_thread], [switch_entry] and [switch_threads]. *)
Definition push_frames (t function aux : Z) : K unit :=
  alloc_frame t 12 ;;; upd_thread t (with_frame function aux) ;;;
  alloc_frame t 4 ;;; alloc_frame t 28 ;;; ret tt.
