(* ===== verification/Synch.v ===== *)
(** * Suspendable operations: synchronization, sleeping, thread creation and the
    machine that interleaves them (src/threads/synch.c, thread.c, src/devices/timer.c)

    A [proc] is a sequence of atomic actions over the kernel state.  The machine
    runs the next action of the running thread, or, when interrupts are on, takes
    a timer interrupt; a [proc] that switches away is resumed at its next action. *)

From S2P Require Import Prelude ListSpec Palloc FixedPoint Threads.
Local Open Scope Z_scope.

(** [Iter body k] repeats [body] until it yields a value. *)
Inductive proc (A : Type) : Type :=
| Ret (a : A)
| Act {B : Type} (m : K B) (k : B → proc A)
| Iter {B : Type} (body : proc (option B)) (k : B → proc A).
Arguments Ret {A} a.
Arguments Act {A B} m k.
Arguments Iter {A B} body k.

Fixpoint pbind {A B} (p : proc A) (f : A → proc B) : proc B :=
  match p with
  | Ret a => f a
  | Act m k => Act m (λ b, pbind (k b) f)
  | Iter body k => Iter body (λ b, pbind (k b) f)
  end.

Definition act {A} (m : K A) : proc A := Act m Ret.

Declare Scope proc_scope.
Delimit Scope proc_scope with P.
Notation "'do' x ':=' p 'in' k" := (pbind p (λ x, k))
  (at level 200, x name, p at level 100, k at level 200, right associativity) : proc_scope.
Notation "p ';;' k" := (pbind p (λ _, k)) (at level 100, k at level 200, right associativity) : proc_scope.
Open Scope proc_scope.

(** ** Yielding, exiting, sleeping *)

Definition thread_yield : proc unit :=
  do old_level := act yield_section in act (intr_set_level old_level) ;; Ret tt.

Definition thread_exit {A} : proc A := act exit_section ;; Act (fail Panicked) Ret.

Definition thread_block_with_time (ticks : Z) : proc unit :=
  do old_level := act (block_with_time_section ticks) in act (intr_set_level old_level) ;; Ret tt.

Definition timer_elapsed (since : Z) : proc Z := do t := act timer_ticks in Ret (s64 (t - since)).

Definition timer_sleep (n : Z) : proc unit :=
  do start := act timer_ticks in
  act (let* on := intr_get_level in assert on) ;;
  if n <? 0 then Ret tt else thread_block_with_time (s64 (start + n)).

(** ** Semaphores *)

Definition get_sema (s : sref) : K semaphore := λ k, need (semas k !! s) k.
Definition set_sema (s : sref) (x : semaphore) : K unit := modify (λ k, set_semas (<[s := x]> (semas k)) k).

Definition sema_init (s : sref) (v : Z) : K unit := set_sema s (mk_sema v []).

(** One round of the loop of [sema_down], with its exit. *)
Definition sema_down_round (s : sref) (old_level : bool) : K (option unit) :=
  let* x := get_sema s in
  if value x =? 0 then
    let* cur := thread_current in
    let* k := gets id in
    set_sema s (mk_sema (value x) (insert_before (list_compare_priority k) cur (waiters x))) ;;;
    thread_block ;;; ret None
  else
    set_sema s (mk_sema (u32 (value x - 1)) (waiters x)) ;;;
    intr_set_level old_level ;;; ret (Some tt).

Definition sema_down (s : sref) : proc unit :=
  do old_level := act (assert_not_intr ;;; intr_disable) in
  Iter (act (sema_down_round s old_level)) Ret.

Definition sema_try_down (s : sref) : K bool :=
  let* old_level := intr_disable in
  let* x := get_sema s in
  let* success := (if 0 <? value x
                   then set_sema s (mk_sema (u32 (value x - 1)) (waiters x)) ;;; ret true
                   else ret false) in
  intr_set_level old_level ;;; ret success.

(** [sema_up] up to the yield. *)
Definition sema_up_section (s : sref) : K unit :=
  let* old_level := intr_disable in
  let* x := get_sema s in
  (match waiters x with
   | [] => ret tt
   | t :: ws => set_sema s (mk_sema (value x) ws) ;;; thread_unblock t
   end) ;;;
  let* x := get_sema s in
  set_sema s (mk_sema (u32 (value x + 1)) (waiters x)) ;;;
  intr_set_level old_level ;;; ret tt.

Definition sema_up (s : sref) : proc unit := act (sema_up_section s) ;; thread_yield.

(** ** Locks *)

Definition get_holder (l : Z) : K Z := λ k, need (holders k !! l) k.
Definition set_holder (l t : Z) : K unit := modify (λ k, set_holders (<[l := t]> (holders k)) k).

Definition lock_init (l : Z) : K unit := set_holder l NULL ;;; sema_init (LockSema l) 1.

Definition lock_held_by_current_thread (l : Z) : K bool :=
  let* h := get_holder l in let* cur := thread_current in ret (h =? cur).

Definition lock_acquire (l : Z) : proc unit :=
  act (assert_not_intr ;;; let* held := lock_held_by_current_thread l in assert (negb held)) ;;
  sema_down (LockSema l) ;;
  act (let* cur := thread_current in set_holder l cur).

Definition lock_try_acquire (l : Z) : proc bool :=
  act (let* held := lock_held_by_current_thread l in assert (negb held)) ;;
  do success := act (sema_try_down (LockSema l)) in
  (if success then act (let* cur := thread_current in set_holder l cur) else Ret tt) ;;
  Ret success.

Definition lock_release (l : Z) : proc unit :=
  act (let* held := lock_held_by_current_thread l in assert held) ;;
  act (set_holder l NULL) ;;
  sema_up (LockSema l).

(** ** Condition variables *)

Definition get_cond (c : Z) : K (list sref) := λ k, need (conds k !! c) k.
Definition set_cond (c : Z) (ws : list sref) : K unit := modify (λ k, set_conds (<[c := ws]> (conds k)) k).

Definition cond_init (c : Z) : K unit := set_cond c [].

Definition cond_check (l : Z) : K unit :=
  assert_not_intr ;;; let* held := lock_held_by_current_thread l in assert held.

Definition cond_wait (c l : Z) : proc unit :=
  act (cond_check l) ;;
  do cur := act running_thread in
  act (sema_init (StackSema cur) 0) ;;
  act (let* ws := get_cond c in set_cond c (ws ++ [StackSema cur])) ;;
  lock_release l ;;
  sema_down (StackSema cur) ;;
  lock_acquire l.

Definition cond_pop (c : Z) : K sref :=
  let* ws := get_cond c in
  match ws with
  | [] => fail AssertFailed
  | s :: ws' => set_cond c ws' ;;; ret s
  end.

Definition cond_signal (c l : Z) : proc unit :=
  act (cond_check l) ;;
  do ws := act (get_cond c) in
  match ws with
  | [] => Ret tt
  | _ => do s := act (cond_pop c) in sema_up s
  end.

Definition cond_broadcast (c l : Z) : proc unit :=
  Iter (do ws := act (get_cond c) in
        match ws with [] => Ret (Some tt) | _ => cond_signal c l ;; Ret None end) Ret.

(** ** Creating threads *)

Definition TID_LOCK : Z := 1.
Definition POOL_LOCK : Z := 2.

Definition allocate_tid : proc Z :=
  lock_acquire TID_LOCK ;;
  do tid := act (let* t := gets next_tid in modify (set_next_tid (s32 (t + 1))) ;;; ret t) in
  lock_release TID_LOCK ;;
  Ret tid.

(** [palloc_get_page] on the kernel pool with its lock. *)
Definition palloc_get_kpage (flags : Z) : proc Z :=
  lock_acquire POOL_LOCK ;;
  do page_idx := act (with_pages (take_pages false 1)) in
  lock_release POOL_LOCK ;;
  act (with_pages (deliver_pages flags 1 page_idx)).

Definition thread_create (nm : string) (prio function aux : Z) : proc Z :=
  act (assert (negb (function =? NULL))) ;;
  do t := palloc_get_kpage PAL_ZERO in
  if t =? NULL then Ret TID_ERROR
  else
    act (init_thread t nm prio) ;;
    do tid := allocate_tid in
    act (upd_thread t (with_tid tid)) ;;
    act (push_frames t function aux) ;;
    act (thread_unblock t) ;;
    do cur := act (let* c := thread_current in get_thread c) in
    (if priority cur <? prio then thread_yield else Ret tt) ;;
    Ret tid.

(** ** Priorities *)

Definition current_priority : K Z :=
  let* c := thread_current in let* th := get_thread c in ret (priority th).
Definition put_priority (p : Z) : K unit := let* c := thread_current in upd_thread c (with_priority p).

Definition thread_get_priority : proc Z := act current_priority.

Definition thread_set_priority (new_priority : Z) : proc unit :=
  do p := act current_priority in
  if new_priority <? p then act (put_priority new_priority) ;; thread_yield
  else act (put_priority new_priority).

Definition thread_set_nice (n : Z) : proc unit :=
  do old_priority := act current_priority in
  act (let* c := thread_current in upd_thread c (with_nice n)) ;;
  do new_priority := act (let* c := thread_current in let* th := get_thread c in
                          lift (next_priority (recent_cpu th) n)) in
  act (put_priority new_priority) ;;
  if new_priority <? old_priority then thread_yield else Ret tt.

Definition thread_get_nice : proc Z :=
  act (let* c := thread_current in let* th := get_thread c in ret (nice th)).
Definition thread_get_load_avg : proc Z :=
  do la := act (gets load_avg) in Ret (fixed_to_int (s32 (la * 100))).
Definition thread_get_recent_cpu : proc Z :=
  do th := act (let* c := thread_current in get_thread c) in
  Ret (fixed_to_int (s32 (s64 (recent_cpu th * 100)))).

(** ** The idle thread, thread entry and start-up *)

Definition idle (idle_started : Z) : proc unit :=
  act (let* c := thread_current in modify (set_idle_thread c)) ;;
  sema_up (Sema idle_started) ;;
  Iter (B := unit)
    (act (intr_disable ;;; thread_block) ;;
     act (modify (set_intr_on true)) ;;
     Ret None) Ret.

Section program.
(** The code of the thread functions: the function at an address, applied to its
    argument. *)
Variable code : Z → Z → proc unit.

Definition kernel_thread (function aux : Z) : proc unit :=
  act (assert (negb (function =? NULL))) ;;
  act intr_enable ;;
  code function aux ;;
  thread_exit.

(** ** The machine *)

Record machine := mk_machine { kern : kernel; procs : gmap Z (proc unit) }.

(** What the running thread does next; a thread that was never scheduled starts in
    [kernel_thread] with the arguments of the frame on its stack. *)
Definition next_proc (m : machine) : res (proc unit) :=
  match procs m !! running (kern m) with
  | Some p => Ok p
  | None =>
      match threads (kern m) !! running (kern m) with
      | Some th => Ok (kernel_thread (frame_function th) (frame_aux th))
      | None => Fail Undef
      end
  end.

(** One action of a [proc], and what is left of it. *)
Definition proc_step {A} (p : proc A) : K (proc A) :=
  match p with
  | Ret a => ret (Ret a)
  | Act m k => let* b := m in ret (k b)
  | Iter body k => ret (pbind body (λ o, match o with None => Iter body k | Some b => k b end))
  end.

(** Saves what is left of thread [t]; freed stacks are gone. *)
Definition save (m : machine) (k : kernel) (t : Z) (p : proc unit) : machine :=
  mk_machine k (filter (λ tp, is_Some (threads k !! tp.1)) (<[t := p]> (procs m))).

Definition run1 (m : machine) : res machine :=
  let? p := next_proc m in
  let? r := proc_step p (kern m) in
  Ok (save m r.2 (running (kern m)) r.1).

(** A timer interrupt: the processor clears the interrupt flag, the handler runs on
    the interrupted thread's stack, yields there if asked to, and the flag is
    restored on return. *)
Definition tick (m : machine) : res machine :=
  let? p := next_proc m in
  let? r := intr_handler_timer (set_intr_on false (kern m)) in
  let back := act (modify (set_intr_on true)) ;; p in
  Ok (save m r.2 (running (kern m)) (if r.1 : bool then thread_yield ;; back else back)).

Inductive step : machine → machine → Prop :=
| step_run m m' : run1 m = Ok m' → step m m'
| step_tick m m' : intr_on (kern m) = true → tick m = Ok m' → step m m'.

(** A schedule: [true] takes an interrupt, [false] runs an action. *)
Fixpoint run (sched : list bool) (m : machine) : res machine :=
  match sched with
  | [] => Ok m
  | b :: s => let? m' := (if b : bool then tick m else run1 m) in run s m'
  end.
End program.

(** ** Start-up *)

(** The state before [thread_init]: the main program runs at [t] with interrupts off. *)
Definition boot_kernel (t : Z) (mlfqs aging : bool) (pg : palloc_state) : kernel :=
  mk_kernel {[ t := mk_thread 0 THREAD_RUNNING EmptyString 0 0 [] [] 0 0 0 0 0 0 ]} [] [] [] t NULL NULL
    1 0 0 0 0 0 aging mlfqs false false false ∅ ∅ ∅ pg.

Definition set_initial_thread x k := mk_kernel (threads k) (ready_list k) (blocked_list k) (all_list k)
  (running k) (idle_thread k) x (next_tid k) (load_avg k) (idle_ticks k) (kernel_ticks k) (thread_ticks k)
  (ticks k) (thread_prior_aging k) (thread_mlfqs k) (intr_on k) (in_external_intr k) (yield_on_return k)
  (semas k) (holders k) (conds k) (pages k).

Definition thread_init_section : K Z :=
  assert_intr_off ;;;
  lock_init TID_LOCK ;;;
  modify (set_ready_list []) ;;; modify (set_all_list []) ;;; modify (set_blocked_list []) ;;;
  modify (set_load_avg 0) ;;;
  let* t := running_thread in
  modify (set_initial_thread t) ;;;
  init_thread t "main" PRI_DEFAULT ;;;
  upd_thread t (with_status THREAD_RUNNING) ;;;
  ret t.

Definition thread_init : proc unit :=
  do t := act thread_init_section in
  do tid := allocate_tid in
  act (upd_thread t (with_tid tid)) ;;
  act (upd_thread t (with_nice 0) ;;; upd_thread t (with_recent_cpu 0)).

(** [idle_fn] is the address of [idle], [sema_addr] that of the semaphore on the
    stack of [thread_start]. *)
Definition thread_start (idle_fn sema_addr : Z) : proc unit :=
  act (sema_init (Sema sema_addr) 0) ;;
  thread_create "idle" PRI_MIN idle_fn sema_addr ;;
  act intr_enable ;;
  sema_down (Sema sema_addr).

(** ** The self-test of semaphores *)

Fixpoint repeat_proc (n : nat) (p : proc unit) : proc unit :=
  match n with
  | O => Ret tt
  | S n' => p ;; repeat_proc n' p
  end.

(** [sema] is the address of a two-element array. *)
Definition sema_test_helper (sema : Z) : proc unit :=
  repeat_proc 10 (sema_down (Sema sema) ;; sema_up (Sema (sema + 20))).

Definition sema_self_test (helper_fn sema : Z) : proc unit :=
  act (sema_init (Sema sema) 0) ;;
  act (sema_init (Sema (sema + 20)) 0) ;;
  thread_create "sema-test" PRI_DEFAULT helper_fn sema ;;
  repeat_proc 10 (sema_up (Sema sema) ;; sema_down (Sema (sema + 20))).
