(* ===== verification/SchedInv.v ===== *)
(** * Invariants of the scheduler

    [sched_wf] ties every thread's status to the one queue it is in; [ginv] adds
    the locks and the pages of the threads.  Each atomic action of file Synch is
    shown to keep them. *)

From S2P Require Import Prelude ListSpec ListSort Bitmap Palloc FixedPoint Threads Synch.
Local Open Scope Z_scope.

(** ** Where a thread waits *)

Inductive loc := LNone | LReady | LSleep | LSema (s : sref).

#[global] Instance loc_eq_dec : EqDecision loc.
Proof. solve_decision. Defined.

Definition loc_status (l : loc) : thread_status :=
  match l with LReady => THREAD_READY | _ => THREAD_BLOCKED end.

(** A queue holds each of its threads once, and exactly those that are there. *)
Definition queue (xs : list Z) (W : Z → loc) (l : loc) : Prop :=
  NoDup xs ∧ ∀ t, t ∈ xs ↔ W t = l.

(** [cur] is the thread with status [THREAD_RUNNING]: the running one, or none in
    the middle of a switch. *)
Record sched_wf (cur : option Z) (k : kernel) (W : Z → loc) : Prop := {
  sw_cur : ∀ t th, threads k !! t = Some th → status th = THREAD_RUNNING ↔ cur = Some t;
  sw_cur_run : ∀ t, cur = Some t → t = running k;
  sw_run_in : is_Some (threads k !! running k);
  sw_ready : queue (ready_list k) W LReady;
  sw_sleep : queue (blocked_list k) W LSleep;
  sw_sema : ∀ s x, semas k !! s = Some x → queue (waiters x) W (LSema s);
  sw_where : ∀ t, W t ≠ LNone → ∃ th, threads k !! t = Some th ∧ status th = loc_status (W t);
  sw_ready_in : ∀ t th, threads k !! t = Some th → status th = THREAD_READY →
                  W t = LReady ∨ t = idle_thread k;
  sw_all : NoDup (all_list k) ∧
           ∀ t, t ∈ all_list k ↔ ∃ th, threads k !! t = Some th ∧ status th ≠ THREAD_DYING;
  sw_dying : ∀ t th, threads k !! t = Some th → status th = THREAD_DYING →
               t = initial_thread k ∨ (cur = None ∧ t = running k);
  sw_stack : ∀ t t', W t = LSema (StackSema t') → t = t';
  sw_idle : W (idle_thread k) = LNone;
  sw_null : threads k !! NULL = None;
  sw_magic : ∀ t th, threads k !! t = Some th → magic th = THREAD_MAGIC
}.

(** The ready list is sorted by descending priority. *)
Definition ready_sorted (k : kernel) : Prop :=
  StronglySorted (λ a b, list_compare_priority k b a = false) (ready_list k).

(** Moving a thread in the map of places. *)
Definition move (t : Z) (l : loc) (W : Z → loc) : Z → loc := λ t', if bool_decide (t' = t) then l else W t'.

Lemma move_eq t l W : move t l W t = l.
Proof. unfold move. by rewrite bool_decide_eq_true_2. Qed.
Lemma move_ne t t' l W : t' ≠ t → move t l W t' = W t'.
Proof. intros. unfold move. by rewrite bool_decide_eq_false_2. Qed.
Lemma move_move t l l' W : ∀ t', move t l (move t l' W) t' = move t l W t'.
Proof. intros t'. unfold move. by case_bool_decide. Qed.

(** ** Queues *)

Lemma queue_other xs W l t l' : queue xs W l → W t ≠ l → l' ≠ l → queue xs (move t l' W) l.
Proof.
  intros [Hn Hq] Ht Hl. split; [done|]. intros t'. rewrite Hq. destruct (decide (t' = t)) as [->|].
  - rewrite move_eq. naive_solver.
  - by rewrite move_ne.
Qed.

Lemma queue_insert less xs W l t : queue xs W l → W t ≠ l → queue (insert_before less t xs) (move t l W) l.
Proof.
  intros [Hn Hq] Ht. split.
  - rewrite insert_before_perm. constructor; [|done]. by rewrite Hq.
  - intros t'. rewrite insert_before_perm, elem_of_cons, Hq. destruct (decide (t' = t)) as [->|].
    + rewrite move_eq. naive_solver.
    + rewrite move_ne by done. naive_solver.
Qed.

Lemma queue_pop xs W l l' t : queue (t :: xs) W l → l' ≠ l → queue xs (move t l' W) l.
Proof.
  intros [Hn Hq] Hl. inversion_clear Hn as [|? ? Hnin Hn']. split; [done|]. intros t'.
  destruct (decide (t' = t)) as [->|].
  - rewrite move_eq. naive_solver.
  - rewrite move_ne by done. rewrite <- Hq, elem_of_cons. naive_solver.
Qed.

Lemma queue_remove xs W l l' t : queue xs W l → l' ≠ l → queue (list_remove_elem t xs) (move t l' W) l.
Proof.
  intros [Hn Hq] Hl. unfold list_remove_elem. split; [by apply NoDup_filter|].
  intros t'. rewrite list_elem_of_filter, Hq. destruct (decide (t' = t)) as [->|].
  - rewrite move_eq. naive_solver.
  - rewrite move_ne by done. naive_solver.
Qed.

Lemma queue_perm xs ys W l : queue xs W l → ys ≡ₚ xs → queue ys W l.
Proof. intros [Hn Hq] Hp. split; [by rewrite Hp|]. intros t. by rewrite Hp. Qed.

(** ** Orders on priorities *)

Lemma compare_asym k a b : list_compare_priority k a b = true → list_compare_priority k b a = false.
Proof. unfold list_compare_priority. rewrite Z.ltb_lt, Z.ltb_ge. lia. Qed.

Lemma compare_trans k a b c :
  list_compare_priority k b a = false → list_compare_priority k c b = false →
  list_compare_priority k c a = false.
Proof. unfold list_compare_priority. rewrite !Z.ltb_ge. lia. Qed.

Lemma insert_before_sorted k t xs :
  let R := λ a b, list_compare_priority k b a = false in
  StronglySorted R xs → StronglySorted R (insert_before (list_compare_priority k) t xs).
Proof.
  intros R. induction xs as [|x xs IH]; intros Hs; cbn [insert_before].
  { repeat constructor. }
  inversion_clear Hs as [|? ? Hs' Hf]. destruct (list_compare_priority k t x) eqn:E.
  - apply compare_asym in E. repeat constructor; try done.
    eapply Forall_impl; [exact Hf|]. intros y Hy. by eapply compare_trans.
  - constructor; [by apply IH|]. rewrite insert_before_perm. by constructor.
Qed.

Lemma sorted_ext k k' xs :
  (∀ t, t ∈ xs → priority_of k' t = priority_of k t) →
  StronglySorted (λ a b, list_compare_priority k b a = false) xs →
  StronglySorted (λ a b, list_compare_priority k' b a = false) xs.
Proof.
  intros He. induction 1 as [|x xs Hs IH Hf]; constructor.
  - apply IH. intros t Ht. apply He. by right.
  - rewrite Forall_forall in *. intros y Hy. unfold list_compare_priority in *.
    rewrite !He by (by constructor). by apply Hf.
Qed.

(** ** Changing one thread *)

(** Case analysis on whether [t'] is the thread that was updated. *)
Ltac th_cases t' t :=
  destruct (decide (t' = t)) as [->|?];
  [rewrite ?lookup_insert_eq, ?move_eq in * | rewrite ?lookup_insert_ne, ?move_ne in * by done].

(** Same structures, up to members the invariant does not mention. *)
Lemma sched_wf_upd cur k k' W t th th' :
  sched_wf cur k W → threads k !! t = Some th → status th' = status th → magic th' = magic th →
  threads k' = <[t := th']> (threads k) → ready_list k' = ready_list k → blocked_list k' = blocked_list k →
  all_list k' = all_list k → running k' = running k → idle_thread k' = idle_thread k →
  initial_thread k' = initial_thread k → semas k' = semas k → sched_wf cur k' W.
Proof.
  intros Hw Ht Hst Hmg Eth Er Eb Ea Erun Ei Ein Es. destruct Hw.
  assert (Hx : ∀ t' x, threads k' !! t' = Some x → ∃ x', threads k !! t' = Some x' ∧ status x = status x').
  { intros t' x. rewrite Eth. th_cases t' t; naive_solver. }
  assert (Hx' : ∀ t' x, threads k !! t' = Some x → ∃ x', threads k' !! t' = Some x' ∧ status x' = status x).
  { intros t' x Hl. rewrite Eth. th_cases t' t; naive_solver. }
  split; rewrite ?Er, ?Eb, ?Ea, ?Erun, ?Ei, ?Ein, ?Es; try done.
  - intros t' x H. destruct (Hx _ _ H) as (? & ? & ->). eauto.
  - destruct sw_run_in0 as [x H]. destruct (Hx' _ _ H) as (? & ? & ?). eauto.
  - intros t' H. destruct (sw_where0 t' H) as (x & H1 & H2). destruct (Hx' _ _ H1) as (? & ? & ?).
    eexists. split; [done|]. congruence.
  - intros t' x H E. destruct (Hx _ _ H) as (? & ? & E'). rewrite E' in E. eauto.
  - destruct sw_all0 as [Hn Ha]. split; [done|]. intros t'. rewrite Ha. split; intros (x & H1 & H2).
    + destruct (Hx' _ _ H1) as (x' & ? & E). exists x'. by rewrite E.
    + destruct (Hx _ _ H1) as (x' & ? & E). exists x'. by rewrite <- E.
  - intros t' x H E. destruct (Hx _ _ H) as (? & ? & E'). rewrite E' in E. eauto.
  - rewrite Eth. destruct (decide (t = NULL)) as [->|]; [congruence|by rewrite lookup_insert_ne].
  - intros t' x. rewrite Eth. th_cases t' t; [|eauto]. intros [= <-]. rewrite Hmg. eauto.
Qed.

(** One thread changes status and place; the queues have been updated to match. *)
Lemma sched_wf_move cur cur' k k' W t th st l :
  sched_wf cur k W → threads k !! t = Some th → status th ≠ THREAD_DYING → st ≠ THREAD_DYING →
  threads k' = <[t := with_status st th]> (threads k) →
  all_list k' = all_list k → idle_thread k' = idle_thread k → initial_thread k' = initial_thread k →
  let W' := move t l W in
  queue (ready_list k') W' LReady → queue (blocked_list k') W' LSleep →
  (∀ s x, semas k' !! s = Some x → queue (waiters x) W' (LSema s)) →
  (st = THREAD_RUNNING ↔ cur' = Some t) → (∀ t', t' ≠ t → cur = Some t' ↔ cur' = Some t') →
  (∀ t', cur' = Some t' → t' = running k') → is_Some (threads k' !! running k') →
  (∀ t' x, threads k !! t' = Some x → status x = THREAD_DYING → t' = initial_thread k ∨ cur' = None ∧ t' = running k') →
  (l ≠ LNone → st = loc_status l ∧ t ≠ idle_thread k) → (st = THREAD_READY → l = LReady ∨ t = idle_thread k) →
  (∀ t', l = LSema (StackSema t') → t = t') → sched_wf cur' k' W'.
Proof.
  intros Hw Ht Hnd Hnd' Eth Ea Ei Ein W' Hr Hb Hs Hc1 Hc2 Hc3 Hin Hdy Hl Hrdy Hstk. destruct Hw.
  split; rewrite ?Eth, ?Ea, ?Ei, ?Ein; try done.
  - intros t' x. th_cases t' t; [naive_solver|]. intros H. rewrite <- Hc2 by done. eauto.
  - rewrite <- Eth. done.
  - intros t'. unfold W'. th_cases t' t; [|eauto]. intros H. destruct (Hl H). eauto.
  - intros t' x. unfold W'. th_cases t' t; [|eauto]. intros [= <-] E. by apply Hrdy.
  - destruct sw_all0 as [Hn Ha]. split; [done|]. intros t'. rewrite Ha. th_cases t' t; [|done].
    split; intros; eexists; (split; [done|]); done.
  - intros t' x. th_cases t' t; [|eauto]. intros [= <-] E. done.
  - intros t' t''. unfold W'. th_cases t' t; eauto.
  - unfold W'. destruct (decide (idle_thread k = t)) as [<-|]; [|by rewrite move_ne].
    rewrite move_eq. destruct (decide (l = LNone)); [done|]. naive_solver.
  - destruct (decide (t = NULL)) as [->|]; [congruence|by rewrite lookup_insert_ne].
  - intros t' x. th_cases t' t; [|eauto]. intros [= <-]. simpl. eauto.
Qed.

(** ** What a switch does *)

(** The members a switch leaves alone. *)
Definition same_rest (k k' : kernel) : Prop :=
  blocked_list k' = blocked_list k ∧ all_list k' = all_list k ∧ idle_thread k' = idle_thread k ∧
  initial_thread k' = initial_thread k ∧ semas k' = semas k ∧ holders k' = holders k ∧
  conds k' = conds k.

Lemma is_thread_inv t k b k' :
  is_thread t k = Ok (b, k') → k' = k ∧ (b = true → t ≠ NULL ∧ ∃ th, threads k !! t = Some th).
Proof.
  unfold is_thread, get_thread, bind, need, ret, fail. intros H. repeat case_match; simplify_eq; split; try done.
  intros _. split; [by apply Z.eqb_neq|eauto].
Qed.

Lemma thread_current_inv k t k' :
  thread_current k = Ok (t, k') →
  k' = k ∧ t = running k ∧ t ≠ NULL ∧ ∃ th, threads k !! t = Some th ∧ status th = THREAD_RUNNING.
Proof.
  unfold thread_current. intros H. unfold running_thread, gets in H. erewrite bind_ok in H by reflexivity.
  apply bind_inv in H as (b & s & Hi & H). apply is_thread_inv in Hi as [-> Hb].
  unfold assert, get_thread, need, bind, ret, fail in H. repeat case_match; simplify_eq.
  destruct Hb as [Hn [th Hth]]; [done|]. split_and!; try done. exists th. split; [done|].
  case_bool_decide; simplify_eq. congruence.
Qed.

Lemma upd_thread_inv t f k u k' :
  upd_thread t f k = Ok (u, k') →
  ∃ th, threads k !! t = Some th ∧ k' = set_threads (<[t := f th]> (threads k)) k.
Proof. unfold upd_thread, get_thread, bind, need, modify, ret, fail. intros H. repeat case_match; simplify_eq. eauto. Qed.

Definition next_of (k : kernel) (t : Z) : Prop :=
  (ready_list k = [] ∧ t = idle_thread k) ∨ ∃ r, ready_list k = t :: r.

Lemma get_thread_inv t k th k' : get_thread t k = Ok (th, k') → threads k !! t = Some th ∧ k' = k.
Proof. unfold get_thread, need, ret, fail. destruct (threads k !! t); intros; by simplify_eq. Qed.

Lemma assert_intr_off_inv k u k' : assert_intr_off k = Ok (u, k') → k' = k ∧ intr_on k = false.
Proof.
  unfold assert_intr_off, intr_get_level, gets. intros H. erewrite bind_ok in H by reflexivity.
  apply assert_inv in H as [H ->]. by apply negb_true_iff in H.
Qed.

Lemma assert_not_intr_inv k u k' : assert_not_intr k = Ok (u, k') → k' = k ∧ in_external_intr k = false.
Proof.
  unfold assert_not_intr, intr_context, gets. intros H. erewrite bind_ok in H by reflexivity.
  apply assert_inv in H as [H ->]. by apply negb_true_iff in H.
Qed.

Lemma next_thread_inv k next k1 :
  next_thread_to_run k = Ok (next, k1) → next_of k next ∧ k1 = set_ready_list (tail (ready_list k)) k.
Proof.
  unfold next_thread_to_run, gets, bind, modify, ret, next_of.
  destruct (ready_list k) as [|t r] eqn:Er; intros [= <- <-]; split; eauto. destruct k; simpl in *. by subst.
Qed.

(** [schedule]'s last step, after the switch from [prev] (null if there was none). *)
Lemma schedule_tail_inv prev k u k' :
  thread_schedule_tail prev k = Ok (u, k') →
  ∃ thn, threads k !! running k = Some thn ∧
    let ths := <[running k := with_status THREAD_RUNNING thn]> (threads k) in
    running k' = running k ∧ ready_list k' = ready_list k ∧ same_rest k k' ∧ intr_on k' = intr_on k ∧
    ((threads k' = ths ∧ pages k' = pages k ∧
      (prev ≠ NULL → ∃ thp, ths !! prev = Some thp ∧ (status thp = THREAD_DYING → prev = initial_thread k))) ∨
     (prev ≠ NULL ∧ prev ≠ running k ∧ prev ≠ initial_thread k ∧
      (∃ thp, threads k !! prev = Some thp ∧ status thp = THREAD_DYING) ∧
      threads k' = delete prev ths ∧ palloc_free_page prev (pages k) = Ok (tt, pages k'))).
Proof.
  unfold thread_schedule_tail. unfold running_thread, gets at 1. intros H. erewrite bind_ok in H by reflexivity.
  apply bind_inv in H as (? & ? & E & H). apply assert_intr_off_inv in E as [-> _].
  apply bind_inv in H as (? & ? & E & H). apply upd_thread_inv in E as (thn & Hth & ->).
  unfold modify at 1 in H. erewrite bind_ok in H by reflexivity. exists thn. split; [done|].
  destruct (Z.eqb_spec prev NULL) as [E0|E0].
  { unfold ret in H. simplify_eq. unfold same_rest. simpl. split_and!; try done. left. by split_and!. }
  apply bind_inv in H as (thp & ? & E & H). apply get_thread_inv in E as [Hp ->]. simpl in Hp.
  unfold gets in H. erewrite bind_ok in H by reflexivity. simpl (initial_thread _) in H.
  destruct (bool_decide (status thp = THREAD_DYING) && negb (prev =? initial_thread k)) eqn:Ed.
  - apply andb_true_iff in Ed as [Ed%bool_decide_eq_true Ei%negb_true_iff%Z.eqb_neq].
    apply bind_inv in H as (? & ? & E & H). apply assert_inv in E as [E%negb_true_iff%Z.eqb_neq ->].
    unfold free_thread, with_pages, modify, bind in H. simpl in H.
    destruct (palloc_free_page prev (pages k)) as [[[] pg]|] eqn:Ep; simplify_eq. unfold same_rest. simpl.
    rewrite lookup_insert_ne in Hp by done. split_and!; try done. right. split_and!; eauto.
  - unfold ret in H. simplify_eq. unfold same_rest. simpl. split_and!; try done. left. split_and!; try done.
    intros _. exists thp. split; [done|]. intros E. rewrite bool_decide_eq_true_2 in Ed by done.
    simpl in Ed. by apply negb_false_iff, Z.eqb_eq in Ed.
Qed.

Lemma schedule_inv k u k' :
  schedule k = Ok (u, k') → threads k !! NULL = None →
  ∃ next thn thc, next_of k next ∧ running k' = next ∧ ready_list k' = tail (ready_list k) ∧
    threads k !! running k = Some thc ∧ status thc ≠ THREAD_RUNNING ∧ threads k !! next = Some thn ∧
    same_rest k k' ∧ intr_on k' = intr_on k ∧
    let ths := <[next := with_status THREAD_RUNNING thn]> (threads k) in
    ((threads k' = ths ∧ pages k' = pages k ∧
      (status thc = THREAD_DYING → running k = initial_thread k ∨ next = running k)) ∨
     (status thc = THREAD_DYING ∧ running k ≠ initial_thread k ∧ running k ≠ next ∧
      threads k' = delete (running k) ths ∧ palloc_free_page (running k) (pages k) = Ok (tt, pages k'))).
Proof.
  unfold schedule. intros H Hnull. unfold running_thread at 1, gets in H. erewrite bind_ok in H by reflexivity.
  set (cur := running k) in *. apply bind_inv in H as (next & k1 & E & H).
  apply next_thread_inv in E as [Hnext ->].
  apply bind_inv in H as (? & ? & E & H). apply assert_intr_off_inv in E as [-> _].
  apply bind_inv in H as (thc & ? & E & H). apply get_thread_inv in E as [Ec ->].
  apply bind_inv in H as (? & ? & E & H). apply assert_inv in E as [Hst%negb_true_iff%bool_decide_eq_false ->].
  apply bind_inv in H as (ok & ? & E & H). apply is_thread_inv in E as [-> Hok].
  apply bind_inv in H as (? & ? & E & H). apply assert_inv in E as [-> ->]. destruct Hok as [Hne _]; [done|].
  simpl in Ec. exists next. apply bind_inv in H as (prev & k2 & E & H).
  assert (Hk2 : k2 = set_running next (set_ready_list (tail (ready_list k)) k) ∧
                prev = if cur =? next then NULL else cur).
  { destruct (Z.eqb_spec cur next) as [<-|].
    - injection E as <- <-. split; [by destruct k|done].
    - unfold switch_threads, modify, bind, ret in E. injection E as <- <-. by split. }
  destruct Hk2 as [-> ->]. apply schedule_tail_inv in H as (thn & Hthn & Hrun & Hr & Hrest & Hon & Hcase).
  simpl in *. exists thn, thc. split_and!; try done. destruct (Z.eqb_spec cur next) as [Ecn|Ecn].
  - destruct Hcase as [(? & ? & _)|(? & _)]; [|done]. left. split_and!; auto.
  - assert (Hcn : cur ≠ NULL) by (intros Ez; rewrite Ez in Ec; congruence).
    destruct Hcase as [(? & ? & Hp)|(? & ? & ? & (thp & Hp & Hd) & ? & ?)].
    + left. split_and!; try done. destruct (Hp Hcn) as (thp & Hthp & Hd).
      rewrite lookup_insert_ne in Hthp by done. intros. left. apply Hd. congruence.
    + right. split_and!; try done. congruence.
Qed.

(** A dying thread's structure goes away once another thread runs. *)
Lemma sched_wf_delete k k0 W thc next :
  sched_wf None k W → threads k !! running k = Some thc → status thc = THREAD_DYING →
  next ≠ running k → is_Some (threads k !! next) →
  threads k0 = delete (running k) (threads k) → running k0 = next → ready_list k0 = ready_list k →
  same_rest k k0 → sched_wf None k0 W.
Proof.
  intros Hw Hc Hd Hne [thn Hn] Eth Erun Er (Eb & Ea & Ei & Ein & Es & _). destruct Hw.
  assert (Hx : ∀ t th, threads k0 !! t = Some th → threads k !! t = Some th ∧ t ≠ running k).
  { intros t th. rewrite Eth, lookup_delete_Some. naive_solver. }
  assert (Hx' : ∀ t th, threads k !! t = Some th → status th ≠ THREAD_DYING → threads k0 !! t = Some th).
  { intros t th Ht Hnd. rewrite Eth, lookup_delete_ne; [done|]. intros <-. congruence. }
  split; rewrite ?Er, ?Eb, ?Ea, ?Erun, ?Ei, ?Ein, ?Es; try done.
  - intros t th Ht. apply Hx in Ht as [Ht _]. eauto.
  - exists thn. rewrite Eth. by rewrite lookup_delete_ne.
  - intros t Ht. destruct (sw_where0 t Ht) as (th & Hth & Hs). exists th. split; [|done].
    apply Hx'; [done|]. rewrite Hs. by destruct (W t).
  - intros t th Ht. apply Hx in Ht as [Ht _]. eauto.
  - destruct sw_all0 as [Hnd Ha]. split; [done|]. intros t. rewrite Ha. split; intros (th & Ht & Hs).
    + exists th. eauto.
    + apply Hx in Ht as [Ht _]. eauto.
  - intros t th Ht Hs. apply Hx in Ht as [Ht Hnr]. destruct (sw_dying0 t th Ht Hs) as [|[_ ?]]; [by left|done].
  - rewrite Eth, lookup_delete_None. by right.
  - intros t th Ht. apply Hx in Ht as [Ht _]. eauto.
Qed.

(** ** Resources

    A token stands for what one thread has and the others leave alone: a lock whose
    semaphore it has passed but that names no holder ([TTransit], between the
    semaphore and the assignment to [holder] on either side of the critical
    section), a lock it holds ([THeld]), a page it has taken for a new thread, a new
    thread it has not yet made ready.  [G] says who has each. *)

Inductive token := TTransit (l : Z) | THeld (l : Z) | TPage (p : Z) | TNew (p : Z).

#[global] Instance token_eq_dec : EqDecision token.
Proof. solve_decision. Defined.
#[global] Instance token_countable : Countable token.
Proof.
  refine (inj_countable'
    (λ s, match s with TTransit a => (0, a) | TPage l => (1, l) | TNew t => (2, t) | THeld l => (3, l) end)
    (λ p, match p with (0, a) => TTransit a | (1, l) => TPage l | (2, t) => TNew t | (_, l) => THeld l end) _).
  by intros [].
Defined.

Definition lock_ok (transit held : option Z) (v holder : Z) : Prop :=
  match transit, held with
  | None, None => v = 1 ∧ holder = NULL
  | Some _, None => v = 0 ∧ holder = NULL
  | None, Some t => v = 0 ∧ holder = t
  | Some _, Some _ => False
  end.

Section invariant.
(** The base of the kernel pool and the idle thread, which do not change. *)
Context (kbase idle0 : Z).

Record res_ok (k : kernel) (W : Z → loc) (G : gmap token Z) : Prop := {
  ro_pages : palloc_wf (pages k);
  ro_base : base (kernel_pool (pages k)) = kbase;
  ro_init : in_pool (kernel_pool (pages k)) (initial_thread k) = false;
  ro_threads : ∀ t, is_Some (threads k !! t) → t = initial_thread k ∨ kpage (pages k) t;
  ro_tpage : ∀ p o, G !! TPage p = Some o → kpage (pages k) p ∧ threads k !! p = None;
  ro_tnew : ∀ p o, G !! TNew p = Some o →
    (∃ th, threads k !! p = Some th ∧ status th = THREAD_BLOCKED) ∧ W p = LNone ∧ p ≠ idle0;
  ro_lock : ∀ l h, holders k !! l = Some h →
    ∃ x, semas k !! LockSema l = Some x ∧ lock_ok (G !! TTransit l) (G !! THeld l) (value x) h;
  ro_lock_in : ∀ l x, semas k !! LockSema l = Some x → is_Some (holders k !! l);
  ro_token_in : ∀ l o, G !! TTransit l = Some o ∨ G !! THeld l = Some o → is_Some (holders k !! l);
  ro_owner : ∀ tok o, G !! tok = Some o → o ≠ NULL;
  ro_conds : ∀ c ws, conds k !! c = Some ws → Forall (λ s, ∃ t, s = StackSema t) ws;
  ro_idle : idle_thread k = idle0;
  ro_alive : ∃ th, threads k !! idle0 = Some th ∧ status th ≠ THREAD_DYING
}.

Definition ginv (k : kernel) (W : Z → loc) (G : gmap token Z) : Prop :=
  sched_wf (Some (running k)) k W ∧ ready_sorted k ∧ res_ok k W G.

(** The thread [schedule] picks is ready, or the idle thread. *)
Lemma next_facts k W G next thn :
  sched_wf None k W → res_ok k W G → next_of k next → threads k !! next = Some thn →
  status thn ≠ THREAD_DYING ∧ queue (tail (ready_list k)) (move next LNone W) LReady ∧
  (∀ l, l ≠ LReady → l ≠ LNone → W next ≠ l) ∧ (W next = LReady ∨ next = idle0).
Proof.
  intros Hw Hr [[E ->]|[r E]] Hth; rewrite E; simpl.
  - destruct Hr. rewrite ro_idle0 in *. destruct ro_alive0 as (thi & Hthi & Hali). split_and!; eauto; [congruence|..].
    + pose proof (sw_ready _ _ _ Hw) as Hq. rewrite E in Hq. apply queue_other; try done.
      rewrite <- ro_idle0, (sw_idle _ _ _ Hw). done.
    + intros l Hl Hl'. rewrite <- ro_idle0, (sw_idle _ _ _ Hw). done.
  - pose proof (sw_ready _ _ _ Hw) as Hq. rewrite E in Hq.
    assert (Hl : W next = LReady) by (apply Hq; by left).
    split_and!; eauto; [|by eapply queue_pop|congruence].
    destruct (sw_where _ _ _ Hw next) as (th & Hth' & Hs); [by rewrite Hl|]. rewrite Hl in Hs.
    simplify_eq. by rewrite Hs.
Qed.

Lemma priority_insert k k' t th th' t' :
  threads k !! t = Some th → threads k' = <[t := th']> (threads k) → priority th' = priority th →
  priority_of k' t' = priority_of k t'.
Proof.
  intros Ht E Hp. unfold priority_of. rewrite E. destruct (decide (t' = t)) as [->|].
  - by rewrite lookup_insert_eq, Ht; simpl; rewrite Hp.
  - by rewrite lookup_insert_ne.
Qed.

(** The status of a thread the allocator freed is gone; all others are kept. *)
Lemma schedule_sched k W G k' next thn thc :
  sched_wf None k W → res_ok k W G → next_of k next → threads k !! next = Some thn →
  threads k !! running k = Some thc → running k' = next → ready_list k' = tail (ready_list k) →
  same_rest k k' →
  let ths := <[next := with_status THREAD_RUNNING thn]> (threads k) in
  ((threads k' = ths ∧ (status thc = THREAD_DYING → running k = initial_thread k ∨ next = running k)) ∨
   (status thc = THREAD_DYING ∧ running k ≠ next ∧ threads k' = delete (running k) ths)) →
  sched_wf (Some next) k' (move next LNone W).
Proof.
  intros Hw Hres Hno Hn Hc Erun Er Hsame ths Hcase.
  destruct (next_facts k W G next thn Hw Hres Hno Hn) as (Hnd & Hqr & Hnl & _).
  pose proof Hsame as (Eb & Ea & Ei & Ein & Es & _ & _).
  assert (Hqs : queue (blocked_list k') (move next LNone W) LSleep).
  { rewrite Eb. apply queue_other; [apply Hw|by apply Hnl|done]. }
  assert (Hqm : ∀ s x, semas k' !! s = Some x → queue (waiters x) (move next LNone W) (LSema s)).
  { rewrite Es. intros s x Hs. apply queue_other; [by apply Hw|by apply Hnl|done]. }
  destruct Hcase as [[Eth Hdy]|(Hd & Hne & Eth)].
  - apply (sched_wf_move None (Some next) k k' W next thn THREAD_RUNNING LNone); rewrite ?Er, ?Erun; try done.
    + naive_solver.
    + naive_solver.
    + rewrite Eth. unfold ths. by rewrite lookup_insert_eq.
    + intros t x Ht Hs. destruct (sw_dying _ _ _ Hw t x Ht Hs) as [|[_ ->]]; [by left|].
      rewrite Hc in Ht. simplify_eq. destruct (Hdy Hs) as [|Hx]; [by left|]. rewrite Hx in Hn. congruence.
  - set (k0 := set_running next (set_threads (delete (running k) (threads k)) k)).
    assert (Hw0 : sched_wf None k0 W).
    { apply (sched_wf_delete k k0 W thc next); done. }
    apply (sched_wf_move None (Some next) k0 k' W next thn THREAD_RUNNING LNone); rewrite ?Er, ?Erun; try done.
    + simpl. by rewrite lookup_delete_ne.
    + rewrite Eth. unfold ths. simpl. by rewrite delete_insert_ne.
    + naive_solver.
    + naive_solver.
    + rewrite Eth. unfold ths. rewrite lookup_delete_ne by done. by rewrite lookup_insert_eq.
    + simpl. intros t x Ht%lookup_delete_Some Hs. destruct Ht as [Hnr Ht].
      destruct (sw_dying _ _ _ Hw t x Ht Hs) as [|[_ ->]]; [by left|done].
Qed.

Lemma schedule_res k W G k' next thn thc :
  sched_wf None k W → res_ok k W G → next_of k next → threads k !! next = Some thn →
  threads k !! running k = Some thc → same_rest k k' →
  let ths := <[next := with_status THREAD_RUNNING thn]> (threads k) in
  ((threads k' = ths ∧ pages k' = pages k) ∨
   (status thc = THREAD_DYING ∧ running k ≠ initial_thread k ∧ running k ≠ next ∧
    threads k' = delete (running k) ths ∧ palloc_free_page (running k) (pages k) = Ok (tt, pages k'))) →
  res_ok k' (move next LNone W) G.
Proof.
  intros Hw Hres Hno Hn Hc Hsame ths Hcase.
  destruct (next_facts k W G next thn Hw Hres Hno Hn) as (_ & _ & _ & Hor).
  pose proof Hsame as (_ & _ & Ei & Ein & Es & Eh & Eco). destruct Hres.
  assert (Hnew : ∀ p o, G !! TNew p = Some o → p ≠ next).
  { intros p o Hp ->. destruct (ro_tnew0 _ _ Hp) as (_ & Hl & Hni). destruct Hor; congruence. }
  assert (Hpg : palloc_wf (pages k') ∧ same_pools (pages k) (pages k') ∧
    (∀ t, is_Some (threads k' !! t) → t = initial_thread k ∨ kpage (pages k') t) ∧
    (∀ t, threads k !! t = None → threads k' !! t = None) ∧
    (∀ t, kpage (pages k) t → threads k !! t = None → kpage (pages k') t) ∧
    (∀ t th, threads k !! t = Some th → status th ≠ THREAD_DYING → t ≠ next → threads k' !! t = Some th)).
  { destruct Hcase as [[Eth Epg]|(Hd & Hni & Hnn & Eth & Ef)].
    - rewrite Eth, Epg. unfold ths. split_and!; try done.
      + intros t. th_cases t next; eauto.
      + intros t Ht. th_cases t next; congruence.
      + intros t th Ht _ Hne. by rewrite lookup_insert_ne.
    - destruct (ro_threads0 (running k)) as [|Hk]; [by exists thc|done|].
      destruct (free_page_kpage _ _ ro_pages0 Hk) as (s & Ef' & Hws & Hsp & Hkp).
      rewrite Ef in Ef'. injection Ef' as <-. rewrite Eth. unfold ths. split_and!; try done.
      + intros t [th Hth]. apply lookup_delete_Some in Hth as [Htr Hth].
        assert (Hin : is_Some (threads k !! t)) by (revert Hth; th_cases t next; eauto).
        destruct (ro_threads0 t Hin) as [|Hkt]; [by left|right]. apply Hkp. auto.
      + intros t Ht. rewrite lookup_delete_None. right. th_cases t next; congruence.
      + intros t Ht Htn. apply Hkp. split; [done|]. intros ->. congruence.
      + intros t th Ht Htd Hne. rewrite lookup_delete_ne, lookup_insert_ne by congruence. done. }
  destruct Hpg as (Hpw & Hsp & Hth & Hnone & Hkeep & Hsame').
  split; rewrite ?Ei, ?Ein, ?Es, ?Eh, ?Eco; try done.
  - by rewrite (proj1 Hsp).
  - by rewrite (same_pools_in (pages k)).
  - intros p o Hp. destruct (ro_tpage0 p o Hp). eauto.
  - intros p o Hp. specialize (Hnew p o Hp). destruct (ro_tnew0 p o Hp) as ((th & Hth' & Hs) & Hl & Hni).
    rewrite move_ne by done. split_and!; try done. exists th. split; [|done]. apply Hsame'; try done. by rewrite Hs.
  - destruct ro_alive0 as (thi & Hthi & Hali). destruct (decide (idle0 = next)) as [E|].
    + exists (with_status THREAD_RUNNING thn). split; [|done]. subst next.
      destruct Hcase as [[Eth _]|(_ & _ & Hnn & Eth & _)]; rewrite Eth; unfold ths;
        rewrite ?lookup_delete_ne by done; by rewrite lookup_insert_eq.
    + exists thi. split; [|done]. by apply Hsame'.
Qed.

(** No ready thread has a higher priority than the running one. *)
Definition top_priority (k : kernel) : Prop :=
  ∀ t, t ∈ ready_list k → priority_of k t <= priority_of k (running k).

(** A switch restores the invariant; the thread picked has the highest priority. *)
Lemma schedule_ginv k W G u k' :
  sched_wf None k W → ready_sorted k → res_ok k W G → schedule k = Ok (u, k') →
  ginv k' (move (running k') LNone W) G ∧ same_rest k k' ∧
  ready_list k' = tail (ready_list k) ∧ next_of k (running k') ∧ top_priority k'.
Proof.
  intros Hw Hs Hr H. apply schedule_inv in H as (next & thn & thc & Hno & Erun & Er & Hc & _ & Hn & Hsame & _ & Hcase);
    [|apply Hw].
  assert (Hw' : sched_wf (Some next) k' (move next LNone W)).
  { apply (schedule_sched k W G k' next thn thc); try done. naive_solver. }
  assert (Hprio : ∀ t, is_Some (threads k' !! t) → priority_of k' t = priority_of k t).
  { intros t [th Ht]. unfold priority_of. rewrite Ht.
    destruct Hcase as [(Eth & _)|(_ & _ & _ & Eth & _)]; rewrite Eth in Ht.
    - revert Ht. th_cases t next; [rewrite Hn|]; intros Ht; [by injection Ht as <-|by rewrite Ht].
    - apply lookup_delete_Some in Ht as [_ Ht]. revert Ht.
      th_cases t next; [rewrite Hn|]; intros Ht; [by injection Ht as <-|by rewrite Ht]. }
  assert (Hin : ∀ t, t ∈ ready_list k' → is_Some (threads k' !! t)).
  { intros t Ht. apply (sw_ready _ _ _ Hw') in Ht as Hl.
    destruct (sw_where _ _ _ Hw' t) as (th & Hth & _); [by rewrite Hl|eauto]. }
  rewrite Erun in *. split; [split_and!|split_and!]; try done.
  - by rewrite Erun.
  - unfold ready_sorted. eapply (sorted_ext k); [auto|].
    rewrite Er. unfold ready_sorted in Hs. destruct Hs; [constructor|done].
  - eapply (schedule_res k W G k' next thn thc); try done. naive_solver.
  - intros t Ht. rewrite Erun, !Hprio; [|rewrite <- Erun; apply Hw'|by apply Hin].
    rewrite Er in Ht. destruct Hno as [[E _]|[r E]]; rewrite E in Ht; [by apply elem_of_nil in Ht|].
    unfold ready_sorted in Hs. rewrite E in Hs. inversion_clear Hs as [|? ? _ Hf].
    rewrite Forall_forall in Hf. specialize (Hf t Ht).
    unfold list_compare_priority in Hf. by apply Z.ltb_ge in Hf.
Qed.
End invariant.
