(* ===== verification/SchedOps.v ===== *)
(** * The atomic sections keep the scheduler's invariant *)

From S2P Require Import Prelude ListSpec ListSort Bitmap Palloc FixedPoint Threads Synch SchedInv.
Local Open Scope Z_scope.

(** The other threads keep their tokens. *)
Definition others (t : Z) (G G' : gmap token Z) : Prop :=
  ∀ tok o, o ≠ t → G !! tok = Some o → G' !! tok = Some o.

Lemma others_refl t G : others t G G.
Proof. by intros tok o _ H. Qed.
Lemma others_insert t G tok o : G !! tok = None ∨ G !! tok = Some t → others t G (<[tok := o]> G).
Proof. intros Hor tok' o' Hne Ho. rewrite lookup_insert_ne; [done|]. intros ->. naive_solver. Qed.
Lemma others_delete t G tok : G !! tok = Some t ∨ G !! tok = None → others t G (delete tok G).
Proof. intros Hor tok' o' Hne Ho. rewrite lookup_delete_ne; [done|]. intros ->. naive_solver. Qed.
Lemma others_trans t G1 G2 G3 : others t G1 G2 → others t G2 G3 → others t G1 G3.
Proof. unfold others. eauto. Qed.
#[export] Hint Resolve others_refl : kernel.

Section ops.
Context (kbase idle0 : Z).
Notation ginv := (ginv kbase idle0).
Notation res_ok := (res_ok kbase idle0).

(** ** Framing *)

(** Locks, semaphore values, condition variables and pages are as before. *)
Record same_res (k k' : kernel) : Prop := {
  sr_pages : pages k' = pages k;
  sr_init : initial_thread k' = initial_thread k;
  sr_idle : idle_thread k' = idle_thread k;
  sr_holders : holders k' = holders k;
  sr_conds : conds k' = conds k;
  sr_values : ∀ s, value <$> semas k' !! s = value <$> semas k !! s
}.

(** Same tokens; one thread [t], which no token describes, may have changed. *)
Lemma res_ok_same k k' W W' G t th th' :
  res_ok k W G → same_res k k' → threads k !! t = Some th → threads k' = <[t := th']> (threads k) →
  (∀ p o, G !! TNew p = Some o → p ≠ t) → (∀ p, p ≠ t → W' p = W p) →
  (t = idle0 → status th' ≠ THREAD_DYING) → res_ok k' W' G.
Proof.
  intros Hr Hs Ht Eth Hnew HW Hidle. destruct Hr, Hs.
  assert (Hin : ∀ t', is_Some (threads k' !! t') → is_Some (threads k !! t')).
  { intros t'. rewrite Eth. th_cases t' t; eauto. }
  split; rewrite ?sr_pages0, ?sr_init0, ?sr_idle0, ?sr_holders0, ?sr_conds0; eauto.
  - intros p o Hp. destruct (ro_tpage p o Hp). split; [done|]. rewrite Eth. th_cases p t; congruence.
  - intros p o Hp. pose proof (Hnew p o Hp). destruct (ro_tnew p o Hp) as (Hth & Hl & Hi).
    rewrite HW, Eth, lookup_insert_ne by done. done.
  - intros l h Hl. destruct (ro_lock l h Hl) as (x & Hx & Hok). specialize (sr_values0 (LockSema l)).
    rewrite Hx in sr_values0. destruct (semas k' !! LockSema l) as [x'|]; simplify_eq/=.
    exists x'. split; [done|]. by rewrite sr_values0.
  - intros l x Hx. specialize (sr_values0 (LockSema l)). rewrite Hx in sr_values0.
    destruct (semas k !! LockSema l) eqn:E; [eauto|done].
  - rewrite Eth. destruct ro_alive as (thi & Hthi & Hali). destruct (decide (idle0 = t)) as [<-|].
    + rewrite lookup_insert_eq. eauto.
    + rewrite lookup_insert_ne by done. eauto.
Qed.

(** A token for a new thread is never about the running thread. *)
Lemma token_not_running k W G p o : ginv k W G → G !! TNew p = Some o → p ≠ running k.
Proof.
  intros (Hw & _ & Hr) Hp ->. destruct (ro_tnew _ _ _ _ _ Hr _ _ Hp) as ((th & Hth & Hs) & _).
  pose proof (proj2 (sw_cur _ _ _ Hw _ _ Hth) eq_refl). congruence.
Qed.

Lemma running_facts k W G :
  ginv k W G → ∃ th, threads k !! running k = Some th ∧ status th = THREAD_RUNNING ∧ W (running k) = LNone.
Proof.
  intros (Hw & _ & _). destruct (sw_run_in _ _ _ Hw) as [th Hth]. exists th.
  assert (Hs : status th = THREAD_RUNNING) by (by apply (sw_cur _ _ _ Hw _ _ Hth)). split_and!; try done.
  destruct (decide (W (running k) = LNone)); [done|].
  destruct (sw_where _ _ _ Hw (running k)) as (th' & Hth' & Hs'); [done|]. simplify_eq.
  rewrite Hs in Hs'. by destruct (W (running k)).
Qed.

(** An update of members other than the status. *)
Lemma upd_parts k W G t f u k' :
  sched_wf (Some (running k)) k W → res_ok k W G → (∀ th, status (f th) = status th ∧ magic (f th) = magic th) →
  upd_thread t f k = Ok (u, k') →
  sched_wf (Some (running k')) k' W ∧ res_ok k' W G ∧ running k' = running k ∧ ready_list k' = ready_list k.
Proof.
  intros Hw Hr Hst H. apply upd_thread_inv in H as (th & Hth & ->). split_and!; try done.
  - by apply (sched_wf_upd (Some (running k)) k _ W t th (f th)); try apply Hst.
  - destruct Hr. split; simpl; try done.
    + intros t'. th_cases t' t; eauto.
    + intros p o Hp'. destruct (ro_tpage p o Hp'). split; [done|]. th_cases p t; congruence.
    + intros p o Hp'. destruct (ro_tnew p o Hp') as ((x & Hx & Hs) & Hl & Hi). split_and!; try done.
      th_cases p t; [|eauto]. exists (f th). split; [done|]. rewrite (proj1 (Hst th)). congruence.
    + destruct ro_alive as (thi & Hthi & Hali).
      destruct (decide (t = idle0)) as [->|]; [|rewrite lookup_insert_ne by done; eauto].
      rewrite lookup_insert_eq. eexists. split; [done|]. rewrite (proj1 (Hst th)). congruence.
Qed.

Lemma upd_ginv k W G t f u k' :
  ginv k W G → (∀ th, status (f th) = status th ∧ magic (f th) = magic th) →
  (∀ th, priority (f th) = priority th) →
  upd_thread t f k = Ok (u, k') → ginv k' W G.
Proof.
  intros (Hw & Hso & Hr) Hst Hp H. destruct (upd_parts k W G t f u k') as (? & ? & _ & Er); try done.
  split_and!; try done. apply upd_thread_inv in H as (th & Hth & ->).
  eapply sorted_ext; [|exact Hso]. intros t' _. by eapply priority_insert.
Qed.

(** ** Leaving the processor *)

(** The running thread [t] has been put in queue [l] (or none) and switches away. *)
Lemma leave_ginv k W G k2 th st l u k' :
  ginv k W G → threads k !! running k = Some th →
  threads k2 = <[running k := with_status st th]> (threads k) → st = THREAD_READY ∨ st = THREAD_BLOCKED →
  all_list k2 = all_list k → running k2 = running k → same_res k k2 →
  let W' := move (running k) l W in
  queue (ready_list k2) W' LReady → queue (blocked_list k2) W' LSleep →
  (∀ s x, semas k2 !! s = Some x → queue (waiters x) W' (LSema s)) →
  ready_sorted k2 →
  (l ≠ LNone → st = loc_status l ∧ running k ≠ idle0) → (st = THREAD_READY → l = LReady ∨ running k = idle0) →
  (∀ t', l = LSema (StackSema t') → running k = t') →
  schedule k2 = Ok (u, k') → (∃ W'', ginv k' W'' G) ∧ top_priority k'.
Proof.
  intros Hg Hth Eth Hst Ea Erun Hsr W' Hq1 Hq2 Hq3 Hso Hl Hrdy Hstk H.
  pose proof Hg as (Hw & _ & Hr).
  destruct (running_facts _ _ _ Hg) as (th' & Hth' & Hrs & _). simplify_eq.
  pose proof (ro_idle _ _ _ _ _ Hr) as Hi.
  assert (Hs : sched_wf None k2 W' ∧ res_ok k2 W' G); cycle 1.
  { destruct (schedule_ginv kbase idle0 k2 W' G u k') as (? & _ & _ & _ & ?); naive_solver. }
  split.
  - apply (sched_wf_move (Some (running k)) None k k2 W (running k) th st l); rewrite ?Erun; try done.
    + by rewrite Hrs.
    + by destruct Hst as [->| ->].
    + apply Hsr.
    + apply Hsr.
    + destruct Hst as [->| ->]; done.
    + naive_solver.
    + rewrite Eth. by rewrite lookup_insert_eq.
    + intros t' x Hx Hs. destruct (sw_dying _ _ _ Hw t' x Hx Hs) as [|[? _]]; [by left|done].
    + by rewrite Hi.
    + by rewrite Hi.
  - eapply (res_ok_same k k2 W); try done.
    + intros p o Hp. by eapply token_not_running.
    + intros p Hp. unfold W'. by rewrite move_ne.
    + intros _. simpl. by destruct Hst as [->| ->].
Qed.

Lemma insert_ready_sorted k k' t :
  ready_sorted k → ready_list k' = insert_before (list_compare_priority k) t (ready_list k) →
  (∀ t', priority_of k' t' = priority_of k t') → ready_sorted k'.
Proof.
  intros Hs E Hp. unfold ready_sorted. eapply (sorted_ext k); [auto|]. rewrite E. by apply insert_before_sorted.
Qed.

Lemma intr_disable_eq k : intr_disable k = Ok (intr_on k, set_intr_on false k).
Proof. done. Qed.

Lemma intr_set_level_inv b k r k' : intr_set_level b k = Ok (r, k') → k' = set_intr_on b k.
Proof.
  destruct b; simpl; [|by intros [= _ <-]]. unfold intr_enable, intr_get_level, intr_context, gets.
  intros H. erewrite bind_ok in H by reflexivity. erewrite bind_ok in H by reflexivity.
  apply bind_inv in H as (? & ? & E & H). apply assert_inv in E as [_ ->]. by injection H as _ <-.
Qed.

(** Members the invariant does not mention. *)
Lemma ginv_ext k k' W G :
  ginv k W G → threads k' = threads k → ready_list k' = ready_list k → blocked_list k' = blocked_list k →
  all_list k' = all_list k → running k' = running k → idle_thread k' = idle_thread k →
  initial_thread k' = initial_thread k → semas k' = semas k → holders k' = holders k →
  conds k' = conds k → pages k' = pages k → ginv k' W G.
Proof.
  intros (Hw & Hs & Hr) E1 E2 E3 E4 E5 E6 E7 E8 E9 E10 E11. split_and!.
  - rewrite E5. destruct Hw. split; rewrite ?E1, ?E2, ?E3, ?E4, ?E5, ?E6, ?E7, ?E8; done.
  - unfold ready_sorted in *. rewrite E2. eapply sorted_ext; [|exact Hs].
    intros t _. unfold priority_of. by rewrite E1.
  - destruct Hr. split; rewrite ?E1, ?E6, ?E7, ?E8, ?E9, ?E10, ?E11; done.
Qed.

Lemma ginv_intr k W G b : ginv k W G → ginv (set_intr_on b k) W G.
Proof. intros. by eapply ginv_ext. Qed.

Lemma intr_level_ginv b k W G r k' : ginv k W G → intr_set_level b k = Ok (r, k') → ginv k' W G.
Proof. intros Hg H. apply intr_set_level_inv in H as ->. by apply ginv_intr. Qed.

(** [thread_block] after the running thread was put in queue [l]: [k1] differs from
    [k] in the queues only. *)
Lemma thread_block_ginv k W G k1 l u k' :
  ginv k W G → threads k1 = threads k → ready_list k1 = ready_list k → all_list k1 = all_list k →
  running k1 = running k → same_res k k1 →
  let W' := move (running k) l W in
  queue (blocked_list k1) W' LSleep → (∀ s x, semas k1 !! s = Some x → queue (waiters x) W' (LSema s)) →
  l ≠ LReady → (l ≠ LNone → running k ≠ idle0) → (∀ t', l = LSema (StackSema t') → running k = t') →
  thread_block k1 = Ok (u, k') → (∃ W'', ginv k' W'' G) ∧ top_priority k'.
Proof.
  intros Hg Eth Er Ea Erun Hsr W' Hq2 Hq3 Hl Hli Hstk H. unfold thread_block in H.
  apply bind_inv in H as (? & ? & E & H). apply assert_not_intr_inv in E as [-> _].
  apply bind_inv in H as (? & ? & E & H). apply assert_intr_off_inv in E as [-> _].
  apply bind_inv in H as (t & ? & E & H). apply thread_current_inv in E as (-> & -> & _).
  apply bind_inv in H as (? & ? & E & H). apply upd_thread_inv in E as (th & Hth & ->).
  rewrite Erun, Eth in Hth. pose proof Hg as (Hw & Hso & Hr).
  destruct (running_facts _ _ _ Hg) as (th' & _ & _ & Hloc).
  refine (leave_ginv k W G _ th THREAD_BLOCKED l u k' Hg Hth _ _ _ _ _ _ _ _ _ _ _ _ H); simpl; try done.
  - by rewrite Erun, Eth.
  - by right.
  - by destruct Hsr; split.
  - rewrite Er. apply queue_other; [apply Hw|by rewrite Hloc|done].
  - unfold ready_sorted. simpl. rewrite Er. eapply sorted_ext; [|exact Hso]. intros t _.
    rewrite Erun, Eth. by eapply priority_insert.
  - intros Hn. split; [by destruct l|auto].
Qed.

Lemma yield_section_ginv k W G r k' : ginv k W G → yield_section k = Ok (r, k') → (∃ W', ginv k' W' G) ∧ top_priority k'.
Proof.
  intros Hg H. unfold yield_section in H.
  apply bind_inv in H as (t & ? & E & H). apply thread_current_inv in E as (-> & -> & _).
  apply bind_inv in H as (? & ? & E & H). apply assert_not_intr_inv in E as [-> _].
  rewrite (bind_ok _ _ _ _ _ (intr_disable_eq k)) in H. unfold gets in H.
  erewrite bind_ok in H by reflexivity. simpl (idle_thread _) in H.
  apply bind_inv in H as (? & k1 & E & H). apply bind_inv in H as (? & ? & E2 & H).
  apply upd_thread_inv in E2 as (th & Hth & ->). apply bind_inv in H as (u & k2 & Hs & H).
  injection H as <- <-. pose proof Hg as (Hw & Hso & Hr).
  destruct (running_facts _ _ _ Hg) as (th' & Hth' & _ & Hloc).
  destruct (Z.eqb_spec (running k) (idle_thread k)) as [Ei|Ei].
  - injection E as <- <-. simpl in Hth. simplify_eq.
    refine (leave_ginv k W G _ th THREAD_READY LNone u k2 Hg Hth _ _ _ _ _ _ _ _ _ _ _ _ Hs); simpl; try done.
    + by left.
    + apply queue_other; [apply Hw|by rewrite Hloc|done].
    + apply queue_other; [apply Hw|by rewrite Hloc|done].
    + intros s y Hy. apply queue_other; [by apply Hw|by rewrite Hloc|done].
    + eapply sorted_ext; [|exact Hso]. intros t _. by eapply priority_insert.
    + intros _. right. pose proof (ro_idle _ _ _ _ _ Hr). congruence.
  - injection E as <- <-. simpl in Hth. simplify_eq.
    refine (leave_ginv k W G _ th THREAD_READY LReady u k2 Hg Hth _ _ _ _ _ _ _ _ _ _ _ _ Hs); simpl; try done.
    + by left.
    + apply queue_insert; [apply Hw|by rewrite Hloc].
    + apply queue_other; [apply Hw|by rewrite Hloc|done].
    + intros s y Hy. apply queue_other; [by apply Hw|by rewrite Hloc|done].
    + eapply (insert_ready_sorted k); [done|done|]. intros t. by eapply priority_insert.
    + intros _. split; [done|]. pose proof (ro_idle _ _ _ _ _ Hr). congruence.
    + intros _. by left.
Qed.

Lemma block_with_time_ginv n k W G r k' :
  ginv k W G → running k ≠ idle0 → block_with_time_section n k = Ok (r, k') → ∃ W', ginv k' W' G.
Proof.
  intros Hg Hni H. unfold block_with_time_section in H.
  apply bind_inv in H as (t & ? & E & H). apply thread_current_inv in E as (-> & -> & _).
  apply bind_inv in H as (? & ? & E & H). apply assert_not_intr_inv in E as [-> _].
  rewrite (bind_ok _ _ _ _ _ (intr_disable_eq k)) in H.
  apply bind_inv in H as (? & k1 & E & H).
  assert (Hg1 : ginv k1 W G).
  { eapply upd_ginv; [by apply (ginv_intr k W G false)| | |exact E]; done. }
  assert (Erun : running k1 = running k) by (apply upd_thread_inv in E as (? & _ & ->); done).
  unfold modify at 1 in H. erewrite bind_ok in H by reflexivity.
  apply bind_inv in H as (u & k2 & Hb & H). injection H as <- <-.
  destruct (running_facts _ _ _ Hg1) as (_ & _ & _ & Hloc). destruct Hg1 as (Hw & Hso & Hr).
  refine (proj1 (thread_block_ginv k1 W G _ LSleep u k2 (conj Hw (conj Hso Hr)) _ _ _ _ _ _ _ _ _ _ Hb)); try done.
  - simpl. rewrite <- Erun. apply queue_insert; [apply Hw|by rewrite Hloc].
  - intros s y Hy. apply queue_other; [by apply Hw|by rewrite Hloc|done].
  - intros _. by rewrite Erun.
Qed.

Lemma exit_section_ginv k W G u k' :
  ginv k W G → running k ≠ idle0 → exit_section k = Ok (u, k') → ∃ W', ginv k' W' G.
Proof.
  intros Hg Hni H. unfold exit_section in H.
  apply bind_inv in H as (? & ? & E & H). apply assert_not_intr_inv in E as [-> _].
  rewrite (bind_ok _ _ _ _ _ (intr_disable_eq k)) in H.
  apply bind_inv in H as (t & ? & E & H). apply thread_current_inv in E as (-> & -> & _).
  unfold modify at 1 in H. erewrite bind_ok in H by reflexivity.
  apply bind_inv in H as (t & ? & E & H). apply thread_current_inv in E as (-> & -> & _).
  apply bind_inv in H as (? & ? & E & H). apply upd_thread_inv in E as (th & Hth & ->). simpl in Hth, H.
  destruct (running_facts _ _ _ Hg) as (th' & Hth' & Hst & Hloc). rewrite Hth in Hth'. injection Hth' as <-.
  pose proof Hg as (Hw & Hso & Hr). eexists. eapply (schedule_ginv kbase idle0 _ W G); [| | |exact H].
  - destruct Hw as [Hcur Hcr Hin Hq1 Hq2 Hq3 Hwh Hri [Hnd Hall] Hdy Hstk Hid Hnull Hmg]. split; simpl; try done.
    + intros t y. th_cases t (running k); [by intros [= <-]|]. intros Hx. split; [|done].
      intros Hs. apply (Hcur t y Hx) in Hs. congruence.
    + by rewrite lookup_insert_eq.
    + intros t Ht. th_cases t (running k); [done|]. by apply Hwh.
    + intros t y. th_cases t (running k); [by intros [= <-]|]. apply Hri.
    + unfold list_remove_elem. split; [by apply NoDup_filter|]. intros t. rewrite list_elem_of_filter, Hall.
      th_cases t (running k); [naive_solver|]. naive_solver.
    + intros t y. th_cases t (running k); [auto|]. intros Hx Hs.
      destruct (Hdy t y Hx Hs) as [|[? _]]; [by left|done].
    + destruct (decide (running k = NULL)) as [E|]; [congruence|by rewrite lookup_insert_ne].
    + intros t y. th_cases t (running k); [|eauto]. intros [= <-]. simpl. eauto.
  - unfold ready_sorted. simpl. eapply sorted_ext; [|exact Hso]. intros t _. by eapply priority_insert.
  - eapply (res_ok_same k _ W W G (running k) th); try done.
    intros p o Hp. by eapply token_not_running.
Qed.

Lemma thread_unblock_inv t k u k' :
  thread_unblock t k = Ok (u, k') →
  ∃ th, threads k !! t = Some th ∧ status th = THREAD_BLOCKED ∧
    k' = set_threads (<[t := with_status THREAD_READY th]> (threads k))
           (set_ready_list (insert_before (list_compare_priority k) t (ready_list k)) k).
Proof.
  unfold thread_unblock. intros H.
  apply bind_inv in H as (b & ? & E & H). apply is_thread_inv in E as [-> _].
  apply bind_inv in H as (? & ? & E & H). apply assert_inv in E as [_ ->].
  rewrite (bind_ok _ _ _ _ _ (intr_disable_eq k)) in H.
  apply bind_inv in H as (th & ? & E & H). apply get_thread_inv in E as [Hth ->].
  apply bind_inv in H as (? & ? & E & H). apply assert_inv in E as [Hs%bool_decide_eq_true ->].
  unfold modify at 1 in H. erewrite bind_ok in H by reflexivity.
  apply bind_inv in H as (? & ? & E & H). apply upd_thread_inv in E as (th' & Hth' & ->).
  apply bind_inv in H as (? & ? & E & H). apply intr_set_level_inv in E as ->. injection H as _ <-.
  simpl in *. rewrite Hth in Hth'. injection Hth' as <-. exists th. by destruct k.
Qed.

(** A blocked thread becomes ready; [k'] has it out of the queue it was in. *)
Lemma unblock_sched k W k' t th :
  sched_wf (Some (running k)) k W → ready_sorted k → threads k !! t = Some th →
  status th = THREAD_BLOCKED → t ≠ idle_thread k →
  threads k' = <[t := with_status THREAD_READY th]> (threads k) →
  ready_list k' = insert_before (list_compare_priority k) t (ready_list k) →
  all_list k' = all_list k → running k' = running k → idle_thread k' = idle_thread k →
  initial_thread k' = initial_thread k →
  let W' := move t LReady W in
  queue (blocked_list k') W' LSleep → (∀ s x, semas k' !! s = Some x → queue (waiters x) W' (LSema s)) →
  sched_wf (Some (running k')) k' W' ∧ ready_sorted k'.
Proof.
  intros Hw Hso Hth Hs Hni Eth Er Ea Erun Ei Ein W' Hq2 Hq3.
  assert (Hnr : t ≠ running k).
  { intros ->. pose proof (proj2 (sw_cur _ _ _ Hw _ _ Hth) eq_refl). congruence. }
  split.
  - rewrite Erun. apply (sched_wf_move (Some (running k)) _ k k' W t th THREAD_READY LReady); try done.
    + by rewrite Hs.
    + rewrite Er. apply queue_insert; [apply Hw|]. intros Hl.
      destruct (sw_where _ _ _ Hw t) as (x & Hx & Hsx); [by rewrite Hl|]. rewrite Hl in Hsx. simplify_eq.
      by rewrite Hs in Hsx.
    + naive_solver.
    + intros t' [= <-]. done.
    + rewrite Eth, Erun, lookup_insert_ne by done. apply Hw.
    + intros t' x Hx Hsx. left. destruct (sw_dying _ _ _ Hw t' x Hx Hsx) as [|[? _]]; done.
    + by left.
  - eapply (insert_ready_sorted k); try done. intros t'. by eapply priority_insert.
Qed.

(** The thread's creator makes it ready. *)
Lemma unblock_new_ginv k W G t o u k' :
  ginv k W G → G !! TNew t = Some o → thread_unblock t k = Ok (u, k') → ∃ W', ginv k' W' (delete (TNew t) G).
Proof.
  intros Hg Ho H. apply thread_unblock_inv in H as (th & Hth & Hs & ->). pose proof Hg as (Hw & Hso & Hr).
  destruct (ro_tnew _ _ _ _ _ Hr t o Ho) as (_ & Hloc & Hni).
  exists (move t LReady W). destruct (unblock_sched k W (set_threads (<[t := with_status THREAD_READY th]> (threads k))
           (set_ready_list (insert_before (list_compare_priority k) t (ready_list k)) k)) t th) as [Hw' Hso'];
    simpl; try done.
  - by rewrite (ro_idle _ _ _ _ _ Hr).
  - apply queue_other; [apply Hw|by rewrite Hloc|done].
  - intros s x Hx. apply queue_other; [by apply Hw|by rewrite Hloc|done].
  - split_and!; try done.
    assert (Hr0 : res_ok k W (delete (TNew t) G)).
    { destruct Hr. split; try done; intros *; rewrite ?lookup_delete_ne by done; eauto.
      - intros [_ ?]%lookup_delete_Some. eauto.
      - intros [_ ?]%lookup_delete_Some. eauto. }
    eapply (res_ok_same k _ W _ _ t th); try done.
    + intros p o' [Hne _]%lookup_delete_Some. congruence.
    + intros p Hp. by rewrite move_ne.
Qed.

(** ** Semaphores and locks *)

Lemma running_not_null k W G : ginv k W G → running k ≠ NULL.
Proof.
  intros (Hw & _ & _) E. destruct (sw_run_in _ _ _ Hw) as [th Hth]. rewrite E, (sw_null _ _ _ Hw) in Hth. done.
Qed.

(** Changing the state of one lock and its tokens. *)
Lemma res_ok_lock k k' W G G' l x :
  res_ok k W G → threads k' = threads k → pages k' = pages k → initial_thread k' = initial_thread k →
  idle_thread k' = idle_thread k → conds k' = conds k →
  (∀ l', l' ≠ l → semas k' !! LockSema l' = semas k !! LockSema l' ∧ holders k' !! l' = holders k !! l' ∧
                  G' !! TTransit l' = G !! TTransit l' ∧ G' !! THeld l' = G !! THeld l') →
  (∀ p, G' !! TPage p = G !! TPage p) → (∀ p, G' !! TNew p = G !! TNew p) →
  (∀ o, G' !! TTransit l = Some o ∨ G' !! THeld l = Some o → o ≠ NULL) →
  semas k' !! LockSema l = Some x → (∃ h, holders k' !! l = Some h ∧
    lock_ok (G' !! TTransit l) (G' !! THeld l) (value x) h) → res_ok k' W G'.
Proof.
  intros Hr Eth Epg Ein Ei Eco Hoth Hpage Hnew Hown Hx (h & Hh & Hok). destruct Hr.
  split; rewrite ?Eth, ?Epg, ?Ein, ?Ei, ?Eco; try done; try (intros *; rewrite ?Hpage, ?Hnew; eauto).
  - intros Hl'. destruct (decide (l0 = l)) as [->|Hne].
    + exists x. split; [done|]. congruence.
    + destruct (Hoth l0 Hne) as (Es & Eh & -> & ->). rewrite Es. rewrite Eh in Hl'. eauto.
  - destruct (decide (l0 = l)) as [->|Hne]; [by rewrite Hh|].
    destruct (Hoth l0 Hne) as (Es & Eh & _). rewrite Es, Eh. eauto.
  - destruct (decide (l0 = l)) as [->|Hne]; [by rewrite Hh|].
    destruct (Hoth l0 Hne) as (_ & -> & -> & ->). eauto.
  - intros Ho. destruct tok as [l'|l'|p|p]; rewrite ?Hpage, ?Hnew in Ho; eauto.
    + destruct (decide (l' = l)) as [->|Hne]; [eauto|]. destruct (Hoth l' Hne) as (_ & _ & E & _).
      rewrite E in Ho. eauto.
    + destruct (decide (l' = l)) as [->|Hne]; [eauto|]. destruct (Hoth l' Hne) as (_ & _ & _ & E).
      rewrite E in Ho. eauto.
Qed.

(** The tokens after passing the semaphore [s], and after leaving it. *)
Definition grab (s : sref) (t : Z) (G : gmap token Z) : gmap token Z :=
  match s with LockSema l => <[TTransit l := t]> G | _ => G end.
Definition drop_lock (s : sref) (G : gmap token Z) : gmap token Z :=
  match s with LockSema l => delete (TTransit l) G | _ => G end.

(** Only the value of a semaphore that is no lock's changed. *)
Lemma res_ok_plain k W G s x :
  res_ok k W G → (∀ l, s ≠ LockSema l) → res_ok (set_semas (<[s := x]> (semas k)) k) W G.
Proof.
  intros Hr Hs. destruct Hr. split; simpl; try done.
  - intros l h Hl. rewrite lookup_insert_ne by auto. eauto.
  - intros l y. rewrite lookup_insert_ne by auto. eauto.
Qed.

(** Changing a semaphore's value leaves the queues. *)
Lemma sched_set_value k W s x v :
  sched_wf (Some (running k)) k W → semas k !! s = Some x →
  sched_wf (Some (running k)) (set_semas (<[s := mk_sema v (waiters x)]> (semas k)) k) W.
Proof.
  intros Hw Hx. destruct Hw. split; simpl; try done. intros s' y. destruct (decide (s' = s)) as [->|].
  - rewrite lookup_insert_eq. intros [= <-]. simpl. eauto.
  - rewrite lookup_insert_ne by done. eauto.
Qed.

Lemma sema_take_ginv k W G s x :
  ginv k W G → semas k !! s = Some x → value x ≠ 0 →
  ginv (set_semas (<[s := mk_sema (u32 (value x - 1)) (waiters x)]> (semas k)) k) W (grab s (running k) G).
Proof.
  intros Hg Hx Hv. pose proof (running_not_null _ _ _ Hg) as Hnn. destruct Hg as (Hw & Hso & Hr). split_and!.
  - by apply (sched_set_value k W s x).
  - done.
  - destruct s as [a|l|t]; simpl; [by apply res_ok_plain| |by apply res_ok_plain].
    destruct (ro_lock_in _ _ _ _ _ Hr l x Hx) as [h Hh].
    destruct (ro_lock _ _ _ _ _ Hr l h Hh) as (x' & Hx' & Hok). rewrite Hx in Hx'. injection Hx' as <-.
    unfold lock_ok in Hok. destruct (G !! TTransit l) eqn:Et, (G !! THeld l) eqn:Ehd; try lia.
    destruct Hok as [Ev ->].
    eapply (res_ok_lock k _ W G _ l); simpl; try done.
    + intros l' Hne. rewrite !lookup_insert_ne by congruence. done.
    + intros p. by rewrite lookup_insert_ne.
    + intros p. by rewrite lookup_insert_ne.
    + intros o. rewrite lookup_insert_eq, lookup_insert_ne by done. rewrite Ehd. naive_solver.
    + by rewrite lookup_insert_eq.
    + exists NULL. rewrite lookup_insert_eq, lookup_insert_ne, Ehd by done. simpl. by rewrite Ev.
Qed.

(** Nobody has passed a lock's semaphore while its value is not zero. *)
Lemma grab_others k W G s x t :
  ginv k W G → semas k !! s = Some x → value x ≠ 0 → others t G (grab s t G).
Proof.
  intros (_ & _ & Hr) Hx Hv. destruct s as [a|l|t']; simpl; try apply others_refl. apply others_insert. left.
  destruct (ro_lock_in _ _ _ _ _ Hr l x Hx) as [h Hh].
  destruct (ro_lock _ _ _ _ _ Hr l h Hh) as (x' & Hx' & Hok). rewrite Hx in Hx'. injection Hx' as <-.
  unfold lock_ok in Hok. destruct (G !! TTransit l), (G !! THeld l); try done; by destruct Hok.
Qed.

Lemma get_sema_inv s k x k' : get_sema s k = Ok (x, k') → semas k !! s = Some x ∧ k' = k.
Proof. unfold get_sema, need, ret, fail. destruct (semas k !! s); intros; by simplify_eq. Qed.

Lemma sema_down_round_ginv s old k W G r k' :
  ginv k W G → running k ≠ idle0 → (∀ t, s = StackSema t → running k = t) →
  sema_down_round s old k = Ok (r, k') →
  match r with
  | None => ∃ W', ginv k' W' G
  | Some _ => ginv k' W (grab s (running k) G) ∧ others (running k) G (grab s (running k) G)
  end.
Proof.
  intros Hg Hni Hstk H. unfold sema_down_round in H.
  apply bind_inv in H as (x & ? & E & H). apply get_sema_inv in E as [Hx ->].
  destruct (Z.eqb_spec (value x) 0) as [Hv|Hv].
  - apply bind_inv in H as (t & ? & E & H). apply thread_current_inv in E as (-> & -> & _).
    unfold gets in H. erewrite bind_ok in H by reflexivity. unfold set_sema, modify in H.
    erewrite bind_ok in H by reflexivity. apply bind_inv in H as (u & k2 & Hb & H). injection H as <- <-.
    destruct (running_facts _ _ _ Hg) as (_ & _ & _ & Hloc). pose proof Hg as (Hw & _ & _).
    refine (proj1 (thread_block_ginv k W G _ (LSema s) u k2 Hg _ _ _ _ _ _ _ _ _ _ Hb)); simpl; try done.
    + split; simpl; try done. intros s'. destruct (decide (s' = s)) as [->|].
      * rewrite lookup_insert_eq, Hx. done.
      * by rewrite lookup_insert_ne.
    + apply queue_other; [apply Hw|by rewrite Hloc|done].
    + intros s' y. destruct (decide (s' = s)) as [->|].
      * rewrite lookup_insert_eq. intros [= <-]. simpl. apply queue_insert; [by apply Hw|by rewrite Hloc].
      * rewrite lookup_insert_ne by done. intros Hy. apply queue_other; [by apply Hw|by rewrite Hloc|congruence].
    + intros t' [= ->]. auto.
  - unfold set_sema, modify in H. erewrite bind_ok in H by reflexivity.
    apply bind_inv in H as (? & ? & E & H). apply intr_set_level_inv in E as ->. injection H as <- <-.
    split; [apply ginv_intr; by apply sema_take_ginv|by eapply grab_others].
Qed.

Lemma sema_try_down_ginv s k W G r k' :
  ginv k W G → sema_try_down s k = Ok (r, k') →
  let G' := if r then grab s (running k) G else G in ginv k' W G' ∧ others (running k) G G'.
Proof.
  intros Hg H. unfold sema_try_down in H. rewrite (bind_ok _ _ _ _ _ (intr_disable_eq k)) in H.
  apply bind_inv in H as (x & ? & E & H). apply get_sema_inv in E as [Hx ->]. simpl in Hx.
  apply bind_inv in H as (b & k1 & E & H). apply bind_inv in H as (? & ? & E' & H).
  apply intr_set_level_inv in E' as ->. injection H as <- <-. destruct (Z.ltb_spec 0 (value x)).
  - unfold set_sema, modify, bind, ret in E. injection E as <- <-.
    split; [|eapply grab_others; [exact Hg|exact Hx|lia]]. apply ginv_intr.
    apply (sema_take_ginv (set_intr_on false k) W G s x); [by apply ginv_intr|done|lia].
  - injection E as <- <-. split; [by do 2 apply ginv_intr|apply others_refl].
Qed.

(** The first waiter of a semaphore is made ready. *)
Lemma sema_wake_ginv k W G s x t ws u k' :
  ginv k W G → semas k !! s = Some x → waiters x = t :: ws →
  thread_unblock t (set_semas (<[s := mk_sema (value x) ws]> (semas k)) k) = Ok (u, k') →
  ginv k' (move t LReady W) G ∧ running k' = running k.
Proof.
  intros Hg Hx Hws H. apply thread_unblock_inv in H as (th & Hth & Hs & ->). simpl in Hth.
  pose proof Hg as (Hw & Hso & Hr). pose proof (sw_sema _ _ _ Hw s x Hx) as Hq. rewrite Hws in Hq.
  assert (Hloc : W t = LSema s) by (apply Hq; by left).
  assert (Hni : t ≠ idle_thread k) by (intros ->; rewrite (sw_idle _ _ _ Hw) in Hloc; done).
  split; [|done]. match goal with |- context [SchedInv.ginv _ _ ?K _ _] => set (k1 := K) end.
  destruct (unblock_sched k W k1 t th) as [Hw' Hso']; try done.
  - apply queue_other; [apply Hw|by rewrite Hloc|done].
  - intros s' y. simpl. destruct (decide (s' = s)) as [->|Hne].
    + rewrite lookup_insert_eq. intros [= <-]. simpl. by eapply queue_pop.
    + rewrite lookup_insert_ne by done. intros Hy. apply queue_other; [by apply Hw|congruence|done].
  - split_and!; try done. eapply (res_ok_same k k1 W _ G t th); try done.
    + split; try done. intros s'. simpl. destruct (decide (s' = s)) as [->|].
      * by rewrite lookup_insert_eq, Hx.
      * by rewrite lookup_insert_ne.
    + intros p o Hp ->. destruct (ro_tnew _ _ _ _ _ Hr _ _ Hp) as (_ & Hl & _). congruence.
    + intros p Hp. by rewrite move_ne.
Qed.

Lemma sema_post_ginv k W G s x :
  ginv k W G → semas k !! s = Some x → (∀ l, s = LockSema l → is_Some (G !! TTransit l)) →
  ginv (set_semas (<[s := mk_sema (u32 (value x + 1)) (waiters x)]> (semas k)) k) W (drop_lock s G).
Proof.
  intros (Hw & Hso & Hr) Hx Hown. split_and!; [by apply (sched_set_value k W s x)|done|].
  destruct s as [a|l|t]; simpl; [by apply res_ok_plain| |by apply res_ok_plain].
  destruct (Hown l eq_refl) as [o Ho]. destruct (ro_lock_in _ _ _ _ _ Hr l x Hx) as [h Hh].
  destruct (ro_lock _ _ _ _ _ Hr l h Hh) as (x' & Hx' & Hok). rewrite Hx in Hx'. injection Hx' as <-.
  unfold lock_ok in Hok. rewrite Ho in Hok. destruct (G !! THeld l) eqn:Ehd; [done|]. destruct Hok as [Ev ->].
  eapply (res_ok_lock k _ W G _ l); simpl; try done.
  - intros l' Hne. rewrite lookup_insert_ne, !lookup_delete_ne by congruence. done.
  - intros p. by rewrite lookup_delete_ne.
  - intros p. by rewrite lookup_delete_ne.
  - intros o'. rewrite lookup_delete_eq, lookup_delete_ne, Ehd by done. naive_solver.
  - by rewrite lookup_insert_eq.
  - exists NULL. rewrite lookup_delete_eq, lookup_delete_ne, Ehd by done. simpl. by rewrite Ev.
Qed.

Lemma sema_up_section_ginv s k W G u k' :
  ginv k W G → (∀ l, s = LockSema l → is_Some (G !! TTransit l)) →
  sema_up_section s k = Ok (u, k') → ∃ W', ginv k' W' (drop_lock s G).
Proof.
  intros Hg Hown H. unfold sema_up_section in H. rewrite (bind_ok _ _ _ _ _ (intr_disable_eq k)) in H.
  apply (ginv_intr _ _ _ false) in Hg. set (k0 := set_intr_on false k) in *.
  apply bind_inv in H as (x & ? & E & H). apply get_sema_inv in E as [Hx ->].
  apply bind_inv in H as (? & k1 & E & H).
  assert (Hg1 : ∃ W1, ginv k1 W1 G).
  { destruct (waiters x) as [|t ws] eqn:Ew; [injection E as _ <-; eauto|].
    unfold set_sema, modify in E. erewrite bind_ok in E by reflexivity.
    eapply sema_wake_ginv in E as [? _]; eauto. }
  destruct Hg1 as [W1 Hg1]. apply bind_inv in H as (y & ? & Ey & H). apply get_sema_inv in Ey as [Hy ->].
  unfold set_sema, modify in H. erewrite bind_ok in H by reflexivity.
  apply bind_inv in H as (? & ? & E' & H). apply intr_set_level_inv in E' as ->. injection H as _ <-.
  exists W1. apply ginv_intr. by apply sema_post_ginv.
Qed.

(** The assignments to [holder]. *)
Definition to_held (l t : Z) (G : gmap token Z) : gmap token Z := <[THeld l := t]> (delete (TTransit l) G).
Definition to_transit (l t : Z) (G : gmap token Z) : gmap token Z := <[TTransit l := t]> (delete (THeld l) G).

Lemma lock_state k W G l : ginv k W G → is_Some (holders k !! l) →
  ∃ h x, holders k !! l = Some h ∧ semas k !! LockSema l = Some x ∧
    lock_ok (G !! TTransit l) (G !! THeld l) (value x) h.
Proof. intros (_ & _ & Hr) [h Hh]. destruct (ro_lock _ _ _ _ _ Hr l h Hh) as (x & ? & ?). eauto. Qed.

Lemma set_holder_ginv k W G l t h G' :
  ginv k W G → t ≠ NULL →
  (h = t ∧ G !! TTransit l = Some t ∧ G' = to_held l t G) ∨
  (h = NULL ∧ G !! THeld l = Some t ∧ G' = to_transit l t G) →
  is_Some (holders k !! l) → ginv (set_holders (<[l := h]> (holders k)) k) W G'.
Proof.
  intros Hg Hnn Hcase Hin. destruct (lock_state k W G l Hg Hin) as (h0 & x & Hh & Hx & Hok).
  destruct Hg as (Hw & Hso & Hr). split_and!; [by destruct Hw|done|].
  destruct Hcase as [(-> & Ho & ->)|(-> & Ho & ->)]; unfold lock_ok in Hok; rewrite Ho in Hok.
  - destruct (G !! THeld l) eqn:Eh; [done|]. destruct Hok as [Hv _].
    eapply (res_ok_lock k _ W G _ l x); unfold to_held; simpl; try done.
    + intros l' Hne. rewrite !lookup_insert_ne, !lookup_delete_ne by congruence. done.
    + intros p. by rewrite lookup_insert_ne, lookup_delete_ne.
    + intros p. by rewrite lookup_insert_ne, lookup_delete_ne.
    + intros o. rewrite lookup_insert_eq, lookup_insert_ne, lookup_delete_eq by done. naive_solver.
    + exists t. rewrite !lookup_insert_eq, lookup_insert_ne, lookup_delete_eq by done. done.
  - destruct (G !! TTransit l) eqn:Et; [done|]. destruct Hok as [Hv _].
    eapply (res_ok_lock k _ W G _ l x); unfold to_transit; simpl; try done.
    + intros l' Hne. rewrite !lookup_insert_ne, !lookup_delete_ne by congruence. done.
    + intros p. by rewrite lookup_insert_ne, lookup_delete_ne.
    + intros p. by rewrite lookup_insert_ne, lookup_delete_ne.
    + intros o. rewrite lookup_insert_eq, lookup_insert_ne, lookup_delete_eq by done. naive_solver.
    + exists NULL. rewrite !lookup_insert_eq, lookup_insert_ne, lookup_delete_eq by done. done.
Qed.

(** ** Priorities *)

Lemma put_priority_ginv p k W G u k' : ginv k W G → put_priority p k = Ok (u, k') → ginv k' W G.
Proof.
  intros Hg H. unfold put_priority in H. apply bind_inv in H as (t & ? & E & H).
  apply thread_current_inv in E as (-> & -> & _).
  destruct (running_facts _ _ _ Hg) as (_ & _ & _ & Hloc). destruct Hg as (Hw & Hso & Hr).
  destruct (upd_parts k W G (running k) (with_priority p) u k') as (? & ? & _ & Er); try done.
  split_and!; try done. apply upd_thread_inv in H as (th & Hth & ->).
  eapply sorted_ext; [|exact Hso]. intros t' Ht'. unfold priority_of. simpl.
  rewrite lookup_insert_ne; [done|]. intros <-. apply (sw_ready _ _ _ Hw) in Ht'. congruence.
Qed.

(** A loop over threads that leaves statuses alone. *)
Lemma foreach_parts func ts k W G u k' :
  (∀ t k u k', func t k = Ok (u, k') → ∃ f, (∀ th, status (f th) = status th ∧ magic (f th) = magic th) ∧ upd_thread t f k = Ok (tt, k')) →
  sched_wf (Some (running k)) k W → res_ok k W G → foreach_loop func ts k = Ok (u, k') →
  sched_wf (Some (running k')) k' W ∧ res_ok k' W G ∧ running k' = running k ∧ ready_list k' = ready_list k.
Proof.
  intros Hf. revert k. induction ts as [|t ts IH]; intros k Hw Hr H; cbn [foreach_loop] in H.
  { by injection H as _ <-. }
  apply bind_inv in H as (? & k1 & E & H). destruct (Hf _ _ _ _ E) as (f & Hst & Hu).
  destruct (upd_parts k W G t f _ k1 Hw Hr Hst Hu) as (Hw1 & Hr1 & E1 & E2).
  destruct (IH k1 Hw1 Hr1 H) as (? & ? & ? & ?). split_and!; congruence.
Qed.

Lemma calculate_recent_cpu_ginv k W G u k' :
  ginv k W G → calculate_recent_cpu k = Ok (u, k') → ginv k' W G.
Proof.
  intros Hg H. unfold calculate_recent_cpu, gets at 1 in H. erewrite bind_ok in H by reflexivity.
  revert Hg H. generalize (all_list k) as ts. intros ts. revert k.
  induction ts as [|t ts IH]; intros k Hg H; cbn [foreach_loop] in H.
  { by injection H as _ <-. }
  apply bind_inv in H as (? & k1 & E & H). refine (IH k1 _ H). clear H.
  apply bind_inv in E as (th & ? & E' & E). apply get_thread_inv in E' as [_ ->].
  unfold gets in E. erewrite bind_ok in E by reflexivity.
  apply bind_inv in E as (r & ? & E' & E). apply lift_inv in E' as [_ ->].
  eapply upd_ginv; [exact Hg| | |exact E]; done.
Qed.

Lemma intr_yield_on_return_ginv k W G u k' :
  ginv k W G → intr_yield_on_return k = Ok (u, k') → ginv k' W G.
Proof.
  intros Hg H. unfold intr_yield_on_return, intr_context, gets in H. erewrite bind_ok in H by reflexivity.
  apply bind_inv in H as (? & ? & E & H). apply assert_inv in E as [_ ->]. injection H as _ <-.
  by eapply ginv_ext.
Qed.

Lemma calculate_priority_ginv k W G u k' :
  ginv k W G → calculate_priority k = Ok (u, k') → ginv k' W G.
Proof.
  intros (Hw & _ & Hr) H. unfold calculate_priority in H.
  apply bind_inv in H as (t & ? & E & H). apply thread_current_inv in E as (-> & -> & _).
  apply bind_inv in H as (old & ? & E & H). apply get_thread_inv in E as [_ ->].
  unfold gets at 1 in H. erewrite bind_ok in H by reflexivity.
  apply bind_inv in H as (? & k1 & E & H).
  eapply (foreach_parts _ _ _ W G) in E as (Hw1 & Hr1 & Erun & _); [|clear E|done..].
  2:  { intros t k0 u0 k0' H0. apply bind_inv in H0 as (th & ? & E' & H0). apply get_thread_inv in E' as [_ ->].
    apply bind_inv in H0 as (r & ? & E' & H0). apply lift_inv in E' as [_ ->].
    exists (with_priority r). destruct u0. done. }
  unfold modify at 1 in H. erewrite bind_ok in H by reflexivity.
  set (k2 := set_ready_list (list_sort_fn (list_compare_priority k1) (ready_list k1)) k1) in *.
  assert (Hg2 : ginv k2 W G).
  { destruct (list_sort_fn_spec (list_compare_priority k1) (compare_asym k1) (ready_list k1)) as [Hp Hd]. split_and!.
    - destruct Hw1. split; simpl; try done. by eapply queue_perm.
    - apply (desc_sorted (list_compare_priority k2)); [apply compare_trans|done].
    - by destruct Hr1. }
  apply bind_inv in H as (t & ? & E' & H). apply thread_current_inv in E' as (-> & -> & _).
  apply bind_inv in H as (new & ? & E' & H). apply get_thread_inv in E' as [_ ->].
  destruct (priority new <? priority old); [by eapply intr_yield_on_return_ginv|by injection H as _ <-].
Qed.

(** ** Timer ticks *)

Lemma timer_ticks_run k :
  in_external_intr k = false ∨ intr_on k = false → timer_ticks k = Ok (ticks k, k).
Proof.
  intros H. unfold timer_ticks. rewrite (bind_ok _ _ _ _ _ (intr_disable_eq k)).
  unfold gets. erewrite bind_ok by reflexivity. unfold intr_set_level.
  destruct (intr_on k) eqn:Eon; [|by destruct k; simpl in *; subst].
  destruct H as [H|?]; [|done]. unfold intr_enable, intr_get_level, intr_context, gets, bind, assert, modify, ret.
  simpl. rewrite H. simpl. by destruct k; simpl in *; subst.
Qed.

Lemma timer_ticks_inv k n k' : timer_ticks k = Ok (n, k') → n = ticks k ∧ k' = k.
Proof.
  unfold timer_ticks. rewrite (bind_ok _ _ _ _ _ (intr_disable_eq k)). unfold gets.
  intros H. erewrite bind_ok in H by reflexivity.
  apply bind_inv in H as (? & ? & E & H). apply intr_set_level_inv in E as ->. injection H as <- <-.
  by destruct k.
Qed.

Lemma is_thread_ok k W cur t th :
  sched_wf cur k W → threads k !! t = Some th → is_thread t k = Ok (true, k).
Proof.
  intros Hw Hth. unfold is_thread. destruct (Z.eqb_spec t NULL) as [->|].
  { by rewrite (sw_null _ _ _ Hw) in Hth. }
  unfold get_thread, bind. rewrite Hth. unfold need, ret.
  by rewrite (proj2 (Z.eqb_eq _ _) (sw_magic _ _ _ Hw _ _ Hth)).
Qed.

Lemma thread_unblock_run k W cur t th :
  sched_wf cur k W → intr_on k = false → threads k !! t = Some th → status th = THREAD_BLOCKED →
  thread_unblock t k = Ok (tt, set_threads (<[t := with_status THREAD_READY th]> (threads k))
           (set_ready_list (insert_before (list_compare_priority k) t (ready_list k)) k)).
Proof.
  intros Hw Hon Hth Hs. unfold thread_unblock. rewrite (bind_ok _ _ _ _ _ (is_thread_ok k W cur t th Hw Hth)).
  unfold assert at 1. erewrite bind_ok by reflexivity. rewrite (bind_ok _ _ _ _ _ (intr_disable_eq k)).
  unfold get_thread, upd_thread, bind, need, assert, modify, ret. simpl. rewrite Hth.
  rewrite bool_decide_eq_true_2 by done. unfold get_thread, bind, need, ret. simpl. rewrite Hth, Hon. simpl.
  by destruct k; simpl in *; subst.
Qed.

Lemma assert_intr_off_run k : intr_on k = false → assert_intr_off k = Ok (tt, k).
Proof. intros H. unfold assert_intr_off, intr_get_level, gets, bind. by rewrite H. Qed.

Definition wake_of (k : kernel) (t : Z) : Z := default 0 (wake <$> threads k !! t).

(** A sleeping thread is made ready and leaves the list of sleepers. *)
Lemma wake_sleeper k W G t :
  ginv k W G → W t = LSleep → intr_on k = false →
  ∃ k', (thread_unblock t ;;; modify (λ k, set_blocked_list (list_remove_elem t (blocked_list k)) k)) k
          = Ok (tt, k') ∧
    ginv k' (move t LReady W) G ∧ blocked_list k' = list_remove_elem t (blocked_list k) ∧
    intr_on k' = false ∧ ticks k' = ticks k ∧ (∀ t', wake_of k' t' = wake_of k t') ∧
    in_external_intr k' = in_external_intr k ∧ ready_list k' ≡ₚ t :: ready_list k.
Proof.
  intros Hg Hloc Hon. pose proof Hg as (Hw & Hso & Hr).
  destruct (sw_where _ _ _ Hw t) as (th & Hth & Hs); [by rewrite Hloc|]. rewrite Hloc in Hs. simpl in Hs.
  rewrite (bind_ok _ _ _ _ _ (thread_unblock_run k W _ t th Hw Hon Hth Hs)). unfold modify.
  eexists. split; [reflexivity|]. split; [|split_and!; try done].
  - match goal with |- context [SchedInv.ginv _ _ ?K _ _] => set (k1 := K) end.
    assert (Hni : t ≠ idle_thread k) by (intros ->; rewrite (sw_idle _ _ _ Hw) in Hloc; done).
    destruct (unblock_sched k W k1 t th) as [Hw' Hso']; try done.
    + simpl. apply queue_remove; [apply Hw|done].
    + simpl. intros s x Hx. apply queue_other; [by apply Hw|by rewrite Hloc|done].
    + split_and!; try done. eapply (res_ok_same k k1 W _ G t th); try done.
      * intros p o Hp ->. destruct (ro_tnew _ _ _ _ _ Hr _ _ Hp) as (_ & Hl & _). congruence.
      * intros p Hp. by rewrite move_ne.
  - intros t'. unfold wake_of. simpl. th_cases t' t; [by rewrite Hth|done].
  - simpl. apply insert_before_perm.
Qed.

Lemma block_check_loop_run ts k W G :
  ginv k W G → NoDup ts → (∀ t, t ∈ ts → W t = LSleep) → intr_on k = false →
  ∃ k' W', block_check_loop ts k = Ok (tt, k') ∧ ginv k' W' G ∧ intr_on k' = false ∧
    in_external_intr k' = in_external_intr k ∧ ticks k' = ticks k ∧ (∀ t', wake_of k' t' = wake_of k t') ∧
    (∀ t, t ∈ blocked_list k' ↔ t ∈ blocked_list k ∧ (t ∈ ts → u64 (ticks k) < wake_of k t)) ∧
    (∀ t, t ∈ ready_list k' ↔ t ∈ ready_list k ∨ (t ∈ ts ∧ wake_of k t <= u64 (ticks k))).
Proof.
  revert k W. induction ts as [|t ts IH]; intros k W Hg Hnd Hts Hon.
  { exists k, W. split_and!; try done; set_solver. }
  inversion_clear Hnd as [|? ? Hnin Hnd']. cbn [block_check_loop].
  destruct (sw_where _ _ _ (proj1 Hg) t) as (th & Hth & _); [by rewrite Hts by constructor|].
  assert (Hget : get_thread t k = Ok (th, k)) by (unfold get_thread; by rewrite Hth).
  rewrite (bind_ok _ _ _ _ _ Hget), (bind_ok _ _ _ _ _ (timer_ticks_run k (or_intror Hon))).
  assert (Hwk : wake th = wake_of k t) by (unfold wake_of; by rewrite Hth). rewrite Hwk.
  destruct (Z.leb_spec (wake_of k t) (u64 (ticks k))) as [Hle|Hgt].
  - destruct (wake_sleeper k W G t Hg) as (k1 & E1 & Hg1 & Eb & Hon1 & Et & Ew & Ex & Hperm);
      [by apply Hts; left|done|]. rewrite (bind_ok _ _ _ _ _ E1).
    destruct (IH k1 _ Hg1 Hnd') as (k' & W' & E & Hg' & Hon' & Ex' & Et' & Ew' & Hb & Hrd); [|done|].
    { intros t' Ht'. rewrite move_ne by (intros ->; done). apply Hts. by right. }
    exists k', W'. split_and!; try done; try congruence.
    + intros t'. rewrite Hb, Eb, Et. unfold list_remove_elem. rewrite list_elem_of_filter, Ew.
      destruct (decide (t' = t)) as [->|]; [|set_solver]. split; [naive_solver|]. intros [_ H].
      specialize (H ltac:(by left)). lia.
    + intros t'. rewrite Hrd, Hperm, Ew, Et, !elem_of_cons. naive_solver.
  - unfold ret at 1. erewrite bind_ok by reflexivity.
    destruct (IH k W Hg Hnd') as (k' & W' & E & Hg' & Hon' & Ex' & Et' & Ew' & Hb & Hrd);
      [by intros t' Ht'; apply Hts; right|done|].
    exists k', W'. split_and!; try done.
    + intros t'. rewrite Hb. set_unfold. naive_solver.
    + intros t'. rewrite Hrd, elem_of_cons. split; [naive_solver|]. intros [?|[[->|?] ?]]; [by left|lia|by right].
Qed.

Lemma block_check_run k W G :
  ginv k W G → intr_on k = false →
  ∃ k' W', block_check k = Ok (tt, k') ∧ ginv k' W' G ∧ intr_on k' = false ∧
    in_external_intr k' = in_external_intr k ∧ ticks k' = ticks k ∧
    (∀ t, t ∈ blocked_list k' ↔ t ∈ blocked_list k ∧ u64 (ticks k) < wake_of k t) ∧
    (∀ t, t ∈ ready_list k' ↔ t ∈ ready_list k ∨ (t ∈ blocked_list k ∧ wake_of k t <= u64 (ticks k))).
Proof.
  intros Hg Hon. pose proof (sw_sleep _ _ _ (proj1 Hg)) as [Hnd Hq].
  destruct (block_check_loop_run (blocked_list k) k W G Hg Hnd) as (k' & W' & E & Hg' & ? & ? & ? & _ & Hb & Hr);
    [intros t Ht; by apply Hq|done|].
  exists k', W'. split_and!; try done.
  - unfold block_check. rewrite (bind_ok _ _ _ _ _ (assert_intr_off_run k Hon)). unfold gets.
    by erewrite bind_ok by reflexivity.
  - intros t. rewrite Hb. naive_solver.
Qed.

Lemma thread_aging_ginv k W G u k' : ginv k W G → thread_aging k = Ok (u, k') → ginv k' W G.
Proof.
  intros Hg H. unfold thread_aging in H. apply bind_inv in H as (t & ? & E & H).
  apply thread_current_inv in E as (-> & -> & _).
  apply bind_inv in H as (th & ? & E & H). apply get_thread_inv in E as [_ ->].
  apply bind_inv in H as (r & ? & E & H). apply lift_inv in E as [_ ->].
  eapply upd_ginv; [exact Hg| | |exact H]; done.
Qed.

Lemma calculate_load_avg_ginv k W G u k' : ginv k W G → calculate_load_avg k = Ok (u, k') → ginv k' W G.
Proof.
  intros Hg H. unfold calculate_load_avg, gets in H. erewrite bind_ok in H by reflexivity.
  apply bind_inv in H as (t & ? & E & H). apply thread_current_inv in E as (-> & -> & _).
  apply bind_inv in H as (la & ? & E & H). apply lift_inv in E as [_ ->]. injection H as _ <-.
  by eapply ginv_ext.
Qed.

Lemma aging_tick_ginv k W G u k' :
  ginv k W G →
  (thread_aging ;;;
   let* now := timer_ticks in
   (if Z.rem now TIMER_FREQ =? 0 then calculate_load_avg ;;; calculate_recent_cpu else ret tt) ;;;
   let* now := timer_ticks in
   if Z.rem now 4 =? 0 then calculate_priority else ret tt) k = Ok (u, k') → ginv k' W G.
Proof.
  intros Hg H. apply bind_inv in H as (? & k1 & E & H). apply thread_aging_ginv with (W := W) (G := G) in E; [|done].
  apply bind_inv in H as (now & ? & E' & H). apply timer_ticks_inv in E' as [-> ->].
  apply bind_inv in H as (? & k2 & E' & H).
  assert (Hg2 : ginv k2 W G).
  { destruct (Z.rem (ticks k1) TIMER_FREQ =? 0); [|by injection E' as _ <-].
    apply bind_inv in E' as (? & k3 & E1 & E2).
    eapply calculate_recent_cpu_ginv; [|exact E2]. eapply calculate_load_avg_ginv; [exact E|exact E1]. }
  apply bind_inv in H as (now & ? & E2 & H). apply timer_ticks_inv in E2 as [-> ->].
  destruct (Z.rem (ticks k2) 4 =? 0); [eapply calculate_priority_ginv; [exact Hg2|exact H]|by injection H as _ <-].
Qed.

(** [thread_tick] wakes the sleepers whose time has come and keeps the invariant. *)
Lemma thread_tick_ginv k W G u k' :
  ginv k W G → intr_on k = false → thread_tick k = Ok (u, k') → ∃ W', ginv k' W' G.
Proof.
  intros Hg Hon H. unfold thread_tick in H. apply bind_inv in H as (t & ? & E & H).
  apply thread_current_inv in E as (-> & -> & _). unfold gets at 1 in H. erewrite bind_ok in H by reflexivity.
  apply bind_inv in H as (? & k1 & E & H).
  assert (Hg1 : ginv k1 W G ∧ intr_on k1 = false).
  { destruct (_ =? _); injection E as _ <-; (split; [by eapply ginv_ext|exact Hon]). }
  destruct Hg1 as [Hg1 Hon1]. unfold modify at 1 in H. erewrite bind_ok in H by reflexivity.
  unfold gets at 1 in H. erewrite bind_ok in H by reflexivity.
  apply bind_inv in H as (? & k2 & E' & H).
  assert (Hg2 : ginv k2 W G ∧ intr_on k2 = false).
  { destruct (_ <=? _).
    - split; [eapply intr_yield_on_return_ginv; [|exact E']; by eapply ginv_ext|].
      unfold intr_yield_on_return, intr_context, gets in E'. erewrite bind_ok in E' by reflexivity.
      apply bind_inv in E' as (? & ? & E2 & E'). apply assert_inv in E2 as [_ ->]. injection E' as _ <-. exact Hon1.
    - injection E' as _ <-. split; [by eapply ginv_ext|exact Hon1]. }
  destruct Hg2 as [Hg2 Hon2].
  destruct (block_check_run k2 W G Hg2 Hon2) as (k3 & W3 & Hb & Hg3 & _).
  rewrite (bind_ok _ _ _ _ _ Hb) in H. unfold gets in H at 1. erewrite bind_ok in H by reflexivity.
  exists W3. destruct (_ || _); [eapply aging_tick_ginv; [exact Hg3|exact H]|by injection H as _ <-].
Qed.

Lemma intr_handler_timer_ginv k W G b k' :
  ginv k W G → intr_handler_timer (set_intr_on false k) = Ok (b, k') → ∃ W', ginv k' W' G.
Proof.
  intros Hg H. apply (ginv_intr _ _ _ false) in Hg. set (k0 := set_intr_on false k) in *.
  unfold intr_handler_timer in H. apply bind_inv in H as (? & ? & E & H). apply assert_intr_off_inv in E as [-> Hon].
  apply bind_inv in H as (? & ? & E & H). apply assert_not_intr_inv in E as [-> _].
  unfold modify at 1 in H. erewrite bind_ok in H by reflexivity.
  unfold modify at 1 in H. erewrite bind_ok in H by reflexivity.
  apply bind_inv in H as (? & k1 & E & H). unfold timer_interrupt, modify in E. erewrite bind_ok in E by reflexivity.
  eapply (thread_tick_ginv _ W G) in E as [W1 Hg1]; [|by eapply ginv_ext|done].
  apply bind_inv in H as (? & ? & E & H). apply assert_intr_off_inv in E as [-> _].
  apply bind_inv in H as (? & ? & E & H). unfold intr_context, gets in E. erewrite bind_ok in E by reflexivity.
  apply assert_inv in E as [_ ->]. unfold modify in H. erewrite bind_ok in H by reflexivity.
  unfold gets in H. injection H as _ <-. exists W1. by eapply ginv_ext.
Qed.

(** ** New threads *)

Lemma init_thread_inv t nm prio k u k' :
  init_thread t nm prio k = Ok (u, k') → t ≠ running k →
  ∃ thr, threads k !! running k = Some thr ∧
    all_list k' = all_list k ++ [t] ∧
    threads k' = <[t := blank_thread nm t prio (nice thr) (recent_cpu thr) (running k)]>
                   (<[running k := with_child_list (child_list thr ++ [t]) thr]> (threads k)) ∧
    ready_list k' = ready_list k ∧ blocked_list k' = blocked_list k ∧ running k' = running k ∧
    idle_thread k' = idle_thread k ∧ initial_thread k' = initial_thread k ∧ semas k' = semas k ∧
    holders k' = holders k ∧ conds k' = conds k ∧ pages k' = pages k.
Proof.
  intros H Hne. unfold init_thread in H.
  apply bind_inv in H as (? & ? & E & H). apply assert_inv in E as [_ ->].
  apply bind_inv in H as (? & ? & E & H). apply assert_inv in E as [_ ->].
  unfold running_thread, gets in H. erewrite bind_ok in H by reflexivity.
  unfold modify at 1 in H. erewrite bind_ok in H by reflexivity.
  rewrite (bind_ok _ _ _ _ _ (intr_disable_eq _)) in H.
  unfold modify at 1 in H. erewrite bind_ok in H by reflexivity.
  apply bind_inv in H as (? & ? & E & H). apply intr_set_level_inv in E as ->.
  apply bind_inv in H as (? & ? & E & H). apply upd_thread_inv in E as (thr & Hr & ->). simpl in Hr.
  rewrite lookup_insert_ne in Hr by done.
  apply bind_inv in H as (? & ? & E & H). apply get_thread_inv in E as [Hr' ->]. simpl in Hr'.
  rewrite lookup_insert_eq in Hr'. injection Hr' as <-.
  apply bind_inv in H as (? & ? & E & H). apply upd_thread_inv in E as (thn & Hx & ->). simpl in Hx.
  rewrite lookup_insert_ne, lookup_insert_eq in Hx by done. injection Hx as <-.
  apply upd_thread_inv in H as (thn' & Hy & ->). simpl in Hy. rewrite lookup_insert_eq in Hy. injection Hy as <-.
  exists thr. split_and!; try done. simpl.
  rewrite !insert_insert_eq, (insert_insert_ne _ (running k) t) by done. by rewrite insert_insert_eq.
Qed.

(** [k'] is [k] with one more blocked thread [t], at the end of the list of all. *)
Record adds (t : Z) (k k' : kernel) : Prop := {
  ad_all : all_list k' = all_list k ++ [t];
  ad_new : ∃ th, threads k' !! t = Some th ∧ status th = THREAD_BLOCKED ∧ magic th = THREAD_MAGIC;
  ad_fwd : ∀ t' y, threads k !! t' = Some y → t' ≠ t ∧
             ∃ x, threads k' !! t' = Some x ∧ status x = status y ∧ priority x = priority y;
  ad_bwd : ∀ t' x, threads k' !! t' = Some x → t' ≠ t →
             ∃ y, threads k !! t' = Some y ∧ status x = status y ∧ magic x = magic y;
  ad_rest : ready_list k' = ready_list k ∧ blocked_list k' = blocked_list k ∧ running k' = running k ∧
    idle_thread k' = idle_thread k ∧ initial_thread k' = initial_thread k ∧ semas k' = semas k ∧
    holders k' = holders k ∧ conds k' = conds k ∧ pages k' = pages k
}.

Lemma init_thread_adds t nm prio k u k' :
  init_thread t nm prio k = Ok (u, k') → threads k !! t = None → t ≠ running k → adds t k k'.
Proof.
  intros H Hfresh Hne. apply init_thread_inv in H as (thr & Hthr & Ea & Eth & Hrest); [|done].
  split; try done; rewrite Eth.
  - rewrite lookup_insert_eq. eexists. by split_and!.
  - intros t' y Hy. assert (t' ≠ t) by congruence. split; [done|]. rewrite lookup_insert_ne by done.
    th_cases t' (running k); [|eauto]. rewrite Hthr in Hy. injection Hy as <-. eauto.
  - intros t' x Hx Hn. rewrite lookup_insert_ne in Hx by done. revert Hx. th_cases t' (running k); [|eauto].
    intros [= <-]. eauto.
Qed.

Lemma adds_sched t k k' W :
  sched_wf (Some (running k)) k W → ready_sorted k → threads k !! t = None → t ≠ NULL → adds t k k' →
  sched_wf (Some (running k')) k' W ∧ ready_sorted k'.
Proof.
  intros Hw Hso Hfresh Hnull [Ea (th0 & Hth0 & Hs0 & Hm0) Hfwd Hbwd (Er & Eb & Erun & Ei & Ein & Es & _)].
  split.
  - destruct Hw. split; rewrite ?Er, ?Eb, ?Erun, ?Ei, ?Ein, ?Es; try done.
    + intros t' x Hx. destruct (decide (t' = t)) as [->|Hne].
      * rewrite Hx in Hth0. injection Hth0 as ->. rewrite Hs0. split; [done|]. intros [= <-].
        destruct sw_run_in. congruence.
      * destruct (Hbwd t' x Hx Hne) as (y & Hy & -> & _). eauto.
    + destruct sw_run_in as [y Hy]. destruct (Hfwd _ _ Hy) as (_ & x & Hx & _). eauto.
    + intros t' Ht'. destruct (sw_where t' Ht') as (y & Hy & Hsy).
      destruct (Hfwd _ _ Hy) as (_ & x & Hx & Hsx & _). exists x. split; [done|]. congruence.
    + intros t' x Hx Hsx. destruct (decide (t' = t)) as [->|Hne]; [congruence|].
      destruct (Hbwd t' x Hx Hne) as (y & Hy & E & _). rewrite E in Hsx. eauto.
    + rewrite Ea. destruct sw_all as [Hnd Hall]. split.
      * apply NoDup_app. split_and!; [done| |apply NoDup_singleton]. intros t' Ht' ->%list_elem_of_singleton.
        apply Hall in Ht' as (y & Hy & _). congruence.
      * intros t'. rewrite elem_of_app, list_elem_of_singleton, Hall. split.
        -- intros [(y & Hy & Hsy)| ->]; [|exists th0; by rewrite Hs0].
           destruct (Hfwd _ _ Hy) as (_ & x & Hx & Hsx & _). exists x. by rewrite Hsx.
        -- intros (x & Hx & Hsx). destruct (decide (t' = t)) as [->|Hne]; [by right|left].
           destruct (Hbwd t' x Hx Hne) as (y & Hy & E & _). exists y. by rewrite <- E.
    + intros t' x Hx Hsx. destruct (decide (t' = t)) as [->|Hne]; [congruence|].
      destruct (Hbwd t' x Hx Hne) as (y & Hy & E & _). rewrite E in Hsx. eauto.
    + destruct (threads k' !! NULL) as [x|] eqn:Hx; [|done].
      destruct (Hbwd NULL x Hx) as (y & Hy & _); [done|]. congruence.
    + intros t' x Hx. destruct (decide (t' = t)) as [->|Hne]; [congruence|].
      destruct (Hbwd t' x Hx Hne) as (y & Hy & _ & ->). eauto.
  - unfold ready_sorted. rewrite Er. eapply sorted_ext; [|exact Hso]. intros t' Ht'.
    apply (sw_ready _ _ _ Hw) in Ht'. destruct (sw_where _ _ _ Hw t') as (y & Hy & _); [by rewrite Ht'|].
    destruct (Hfwd _ _ Hy) as (_ & x & Hx & _ & Hp). unfold priority_of. by rewrite Hx, Hy; simpl; rewrite Hp.
Qed.

(** A page taken for a new thread becomes a blocked thread that is in no queue. *)
Lemma init_thread_ginv t nm prio k W G o u k' :
  ginv k W G → G !! TPage t = Some o → init_thread t nm prio k = Ok (u, k') →
  ginv k' W (<[TNew t := o]> (delete (TPage t) G)) ∧ running k' = running k.
Proof.
  intros Hg Ho H. pose proof Hg as (Hw & Hso & Hr).
  destruct (ro_tpage _ _ _ _ _ Hr t o Ho) as [Hkp Hfresh]. pose proof (ro_owner _ _ _ _ _ Hr _ _ Ho) as Hon.
  assert (Hne : t ≠ running k) by (intros ->; destruct (sw_run_in _ _ _ Hw); congruence).
  assert (Hnull : t ≠ NULL).
  { intros ->. apply kpage_in_pool, in_pages_iff in Hkp.
    pose proof (pw_low _ (aw_kernel _ (ro_pages _ _ _ _ _ Hr))). unfold NULL in *. lia. }
  apply init_thread_adds in H as Had; [|done..]. destruct (adds_sched t k k' W) as [Hw' Hso']; try done.
  destruct Had as [_ (th0 & Hth0 & Hs0 & _) Hfwd Hbwd (Er & _ & Erun & Ei & Ein & Es & Eh & Eco & Epg)].
  split; [split_and!; try done|done]. assert (Hloc : W t = LNone).
  { destruct (decide (W t = LNone)); [done|]. destruct (sw_where _ _ _ Hw t) as (? & ? & _); [done|]. congruence. }
  destruct Hr. split; rewrite ?Ei, ?Ein, ?Es, ?Eh, ?Eco, ?Epg; try done.
  - intros t' [x Hx]. destruct (decide (t' = t)) as [->|Hn]; [by right|].
    destruct (Hbwd t' x Hx Hn) as (y & Hy & _). eauto.
  - intros p o'. rewrite lookup_insert_ne by done. intros [Hne' Hp]%lookup_delete_Some.
    destruct (ro_tpage p o' Hp) as [Hk Hf]. split; [done|].
    destruct (threads k' !! p) as [x|] eqn:Hx; [|done].
    destruct (Hbwd p x Hx) as (y & Hy & _); [congruence|]. congruence.
  - intros p o'. destruct (decide (p = t)) as [->|Hn].
    + intros _. split_and!; [eauto|done|]. intros ->. destruct ro_alive as (? & ? & _). congruence.
    + rewrite lookup_insert_ne, lookup_delete_ne by congruence. intros Hp.
      destruct (ro_tnew p o' Hp) as ((y & Hy & Hsy) & Hl & Hi). split_and!; try done.
      destruct (Hfwd _ _ Hy) as (_ & x & Hx & Hsx & _). exists x. by rewrite Hsx.
  - intros l h Hh. rewrite !lookup_insert_ne, !lookup_delete_ne by done. eauto.
  - intros l o'. rewrite !lookup_insert_ne, !lookup_delete_ne by done. eauto.
  - intros tok o'. destruct (decide (tok = TNew t)) as [->|]; [rewrite lookup_insert_eq; congruence|].
    rewrite lookup_insert_ne by done. intros [_ Hp]%lookup_delete_Some. eauto.
  - destruct ro_alive as (y & Hy & Hsy). destruct (Hfwd _ _ Hy) as (_ & x & Hx & Hsx & _).
    exists x. by rewrite Hsx.
Qed.

(** Taking a page gives its token to the running thread. *)
Lemma take_page_ginv k W G i k' :
  ginv k W G → with_pages (take_pages false 1) k = Ok (i, k') →
  running k' = running k ∧
  ((i = BITMAP_ERROR ∧ ginv k' W G) ∨
   let p := kbase + 4096 * i in
   i ≠ BITMAP_ERROR ∧ u32 (kbase + u32 (PGSIZE * i)) = p ∧ ginv k' W (<[TPage p := running k]> G) ∧
   G !! TPage p = None ∧ G !! TNew p = None).
Proof.
  intros Hg H. pose proof (running_not_null _ _ _ Hg) as Hnn. pose proof Hg as (Hw & Hso & Hr).
  unfold with_pages in H. destruct (take_pages false 1 (pages k)) as [[i' s]|] eqn:E; [|done].
  injection H as <- <-. split; [done|]. destruct (take_page_kpage _ _ _ (ro_pages _ _ _ _ _ Hr) E) as (Hws & Hsp & Hc).
  pose proof (ro_base _ _ _ _ _ Hr) as Hb. rewrite Hb in Hc.
  assert (Hw' : sched_wf (Some (running k)) (set_pages s k) W) by (by destruct Hw).
  destruct Hc as [[-> ->]|(Hi & Ep & Hp & Hal & Hnk & Hk)].
  { left. split; [done|]. replace (set_pages (pages k) k) with k by (by destruct k). done. }
  right. set (p := kbase + 4096 * i') in *.
  assert (Hni : p ≠ initial_thread k).
  { intros E'. assert (Hkp : kpage s p) by (apply Hk; by right). apply kpage_in_pool in Hkp.
    rewrite (same_pools_in (pages k)), E', (ro_init _ _ _ _ _ Hr) in Hkp by done. done. }
  assert (Hfresh : threads k !! p = None).
  { destruct (threads k !! p) eqn:Ex; [|done]. destruct (ro_threads _ _ _ _ _ Hr p); [by rewrite Ex|done..]. }
  assert (Htp : G !! TPage p = None).
  { destruct (G !! TPage p) eqn:Ex; [|done]. by apply (ro_tpage _ _ _ _ _ Hr) in Ex as [? _]. }
  assert (Htn : G !! TNew p = None).
  { destruct (G !! TNew p) eqn:Ex; [|done]. apply (ro_tnew _ _ _ _ _ Hr) in Ex as ((? & ? & _) & _). congruence. }
  split_and!; try done. split; [done|]. split; [done|]. destruct Hr. split; simpl; try done.
  - by rewrite (proj1 Hsp).
  - by rewrite (same_pools_in (pages k)).
  - intros t Ht. destruct (ro_threads t Ht); [by left|right]. apply Hk. by left.
  - intros q o. destruct (decide (q = p)) as [->|].
    + intros _. split; [apply Hk; by right|done].
    + rewrite lookup_insert_ne by congruence. intros Hq. destruct (ro_tpage q o Hq). split; [apply Hk; by left|done].
  - intros q o. rewrite lookup_insert_ne by done. eauto.
  - intros l h Hl. rewrite !lookup_insert_ne by done. eauto.
  - intros l o. rewrite !lookup_insert_ne by done. eauto.
  - intros tok o. destruct (decide (tok = TPage p)) as [->|]; [rewrite lookup_insert_eq; congruence|].
    rewrite lookup_insert_ne by done. eauto.
Qed.

Lemma deliver_page_ginv i k W G r k' :
  ginv k W G → with_pages (deliver_pages PAL_ZERO 1 i) k = Ok (r, k') →
  ginv k' W G ∧ running k' = running k ∧
  r = if i =? BITMAP_ERROR then NULL else u32 (kbase + u32 (PGSIZE * i)).
Proof.
  intros (Hw & Hso & Hr) H. pose proof (ro_base _ _ _ _ _ Hr) as Hb. unfold with_pages in H.
  destruct (deliver_pages PAL_ZERO 1 i (pages k)) as [[r' s]|] eqn:E; [|done]. injection H as <- <-.
  assert (Hs : kernel_pool s = kernel_pool (pages k) ∧ user_pool s = user_pool (pages k) ∧
               r' = if i =? BITMAP_ERROR then NULL else u32 (kbase + u32 (PGSIZE * i))).
  { rewrite <- Hb. unfold deliver_pages, gets in E. erewrite bind_ok in E by reflexivity.
    change (flag PAL_ZERO PAL_USER) with false in E. change (flag PAL_ZERO PAL_ZERO) with true in E.
    change (flag PAL_ZERO PAL_ASSERT) with false in E. simpl in E.
    apply bind_inv in E as (? & s1 & E & E'). unfold ret in E'. injection E' as <- <-.
    by destruct (negb _) in E; injection E as _ <-. }
  destruct Hs as (Ek & Eu & ->). split; [|done]. split; [by destruct Hw|]. split; [done|].
  destruct Hr. split; simpl; unfold kpage; rewrite ?Ek; try done.
  destruct ro_pages. split; by rewrite ?Ek, ?Eu.
Qed.

(** ** Condition variables *)

(** The semaphore [cond_wait] keeps on the running thread's stack has no waiters. *)
Lemma stack_sema_ginv k W G u k' :
  ginv k W G → sema_init (StackSema (running k)) 0 k = Ok (u, k') → ginv k' W G.
Proof.
  intros Hg H. injection H as _ <-. destruct (running_facts _ _ _ Hg) as (_ & _ & _ & Hloc).
  destruct Hg as (Hw & Hso & Hr). split; [|split; [done|by apply res_ok_plain]].
  destruct Hw. split; simpl; try done. intros s x. destruct (decide (s = StackSema (running k))) as [->|].
  - rewrite lookup_insert_eq. intros [= <-]. split; [constructor|]. intros t. simpl. rewrite elem_of_nil.
    split; [done|]. intros Hl. apply sw_stack in Hl as Ht. congruence.
  - rewrite lookup_insert_ne by done. eauto.
Qed.

Lemma set_cond_ginv c ws k W G :
  ginv k W G → Forall (λ s, ∃ t, s = StackSema t) ws → ginv (set_conds (<[c := ws]> (conds k)) k) W G.
Proof.
  intros (Hw & Hso & Hr) Hws. split; [by destruct Hw|]. split; [done|].
  destruct Hr. split; simpl; try done. intros c' ws'. destruct (decide (c' = c)) as [->|].
  - rewrite lookup_insert_eq. by intros [= <-].
  - rewrite lookup_insert_ne by done. eauto.
Qed.

Lemma get_cond_inv c k ws k' : get_cond c k = Ok (ws, k') → conds k !! c = Some ws ∧ k' = k.
Proof. unfold get_cond, need, ret, fail. destruct (conds k !! c); intros; by simplify_eq. Qed.

Lemma cond_pop_ginv c k W G s k' :
  ginv k W G → cond_pop c k = Ok (s, k') → ginv k' W G ∧ (∃ t, s = StackSema t) ∧ running k' = running k.
Proof.
  intros Hg H. unfold cond_pop in H. apply bind_inv in H as (ws & ? & E & H). apply get_cond_inv in E as [Hc ->].
  pose proof (ro_conds _ _ _ _ _ (proj2 (proj2 Hg)) c ws Hc) as Hf. destruct ws as [|s' ws]; [done|].
  inversion_clear Hf. unfold set_cond, modify, bind, ret in H. injection H as <- <-.
  split_and!; try done. by apply set_cond_ginv.
Qed.

Lemma held_inv l k b k' :
  lock_held_by_current_thread l k = Ok (b, k') →
  k' = k ∧ ∃ h, holders k !! l = Some h ∧ (b = true → h = running k).
Proof.
  unfold lock_held_by_current_thread. intros H. apply bind_inv in H as (h & ? & E & H).
  unfold get_holder, need, ret, fail in E. destruct (holders k !! l) eqn:El; [|done]. injection E as <- <-.
  apply bind_inv in H as (t & ? & E & H). apply thread_current_inv in E as (-> & -> & _). injection H as <- <-.
  split; [done|]. eexists. split; [done|]. apply Z.eqb_eq.
Qed.
End ops.
