(* ===== verification/SchedSafe.v ===== *)
(** * Every interleaving keeps the scheduler's invariant

    [safe t C p]: whatever the other threads do between its actions, thread [t]
    running [p], and having at least the tokens [C], keeps [ginv].  Every operation
    of file Synch is shown safe; the theorems follow by induction on the steps of
    the machine. *)

From S2P Require Import Prelude ListSpec ListSort Bitmap Palloc FixedPoint Threads Synch SchedInv SchedOps.
Local Open Scope Z_scope.

(** ** Actions that leave a part of the state alone *)

Class Fixes {X} (part : kernel → X) {A} (m : K A) : Prop := fixes : ∀ k a k', m k = Ok (a, k') → part k' = part k.

Section fixes.
Context {X : Type} (part : kernel → X).

#[export] Instance fixes_ret {A} (a : A) : Fixes part (ret a).
Proof. by intros k b k' [= _ <-]. Qed.
#[export] Instance fixes_fail {A} f : Fixes part (fail f : K A).
Proof. done. Qed.
#[export] Instance fixes_gets {A} (f : kernel → A) : Fixes part (gets f).
Proof. by intros k b k' [= _ <-]. Qed.
#[export] Instance fixes_lift {A} (r : res A) : Fixes part (lift r).
Proof. intros k b k'. unfold lift. destruct r; [|done]. by intros [= _ <-]. Qed.
#[export] Instance fixes_assert b : Fixes part (assert b).
Proof. unfold assert. destruct b; apply _. Qed.
#[export] Instance fixes_bind {A B} (m : K A) (f : A → K B) : Fixes part m → (∀ a, Fixes part (f a)) → Fixes part (bind m f).
Proof.
  intros Hm Hf k b k' H. apply bind_inv in H as (a & k1 & E & H). apply Hm in E. apply (Hf a) in H. congruence.
Qed.
Lemma fixes_modify f : (∀ k, part (f k) = part k) → Fixes part (modify f).
Proof. intros Hf k b k' [= _ <-]. apply Hf. Qed.
#[export] Instance fixes_get_thread t : Fixes part (get_thread t).
Proof. intros k b k' H. by apply get_thread_inv in H as [_ ->]. Qed.
#[export] Instance fixes_get_sema s : Fixes part (get_sema s).
Proof. intros k b k' H. by apply get_sema_inv in H as [_ ->]. Qed.
#[export] Instance fixes_get_cond c : Fixes part (get_cond c).
Proof. intros k b k' H. by apply get_cond_inv in H as [_ ->]. Qed.
#[export] Instance fixes_get_holder l : Fixes part (get_holder l).
Proof. intros k b k'. unfold get_holder, need, ret, fail. destruct (holders k !! l); [|done]. by intros [= _ <-]. Qed.
Lemma fixes_pages {A} (m : M palloc_state A) : (∀ pg k, part (set_pages pg k) = part k) → Fixes part (with_pages m).
Proof. intros Hp k b k'. unfold with_pages. destruct (m (pages k)) as [[]|]; [|done]. by intros [= _ <-]. Qed.
End fixes.

#[export] Hint Extern 1 (Fixes _ (modify _)) => (apply fixes_modify; intros; reflexivity) : typeclass_instances.
#[export] Hint Extern 1 (Fixes _ (with_pages _)) => (apply fixes_pages; intros; reflexivity) : typeclass_instances.
#[export] Hint Extern 2 (Fixes _ (if ?b then _ else _)) => destruct b : typeclass_instances.
#[export] Hint Extern 2 (Fixes _ (match ?x with _ => _ end)) => destruct x : typeclass_instances.

(** An operation with no instance of its own is looked at through its definition. *)
Ltac head_of m := lazymatch m with ?f _ => head_of f | _ => m end.
#[export] Hint Extern 9 (Fixes _ ?m) => (let h := head_of m in unfold h) : typeclass_instances.

Lemma fixes_foreach {X} (part : kernel → X) func ts : (∀ t, Fixes part (func t)) → Fixes part (foreach_loop func ts).
Proof. intros Hf. induction ts; cbn [foreach_loop]; apply _. Qed.

(** Actions that leave [holder] members alone. *)
Notation Keeps := (Fixes holders).

Lemma keeps_block_check ts : Keeps (block_check_loop ts).
Proof. induction ts; cbn [block_check_loop]; apply _. Qed.

Lemma keeps_tick : Keeps intr_handler_timer.
Proof.
  unfold intr_handler_timer, timer_interrupt, thread_tick, block_check, thread_aging, calculate_load_avg,
    calculate_recent_cpu, calculate_priority.
  pose proof keeps_block_check. pose proof (fixes_foreach holders). apply _.
Qed.

(** [holder] of a lock changes only from null to the running thread [t] and back. *)
Definition holder_step (t : Z) (k k' : kernel) : Prop :=
  ∀ l, holders k' !! l = holders k !! l ∨
       (holders k !! l = Some NULL ∧ holders k' !! l = Some t) ∨
       (holders k !! l = Some t ∧ holders k' !! l = Some NULL).

Lemma keeps_step {A} (m : K A) `{!Keeps m} t k a k' : m k = Ok (a, k') → holder_step t k k'.
Proof. intros H l. left. by rewrite (fixes (part := holders) k a k' H). Qed.

Definition knows (G : gmap token Z) (t : Z) (C : list token) : Prop := ∀ tok, tok ∈ C → G !! tok = Some t.

Section safe.
Context (kbase idle0 : Z).
Notation ginv := (ginv kbase idle0).

(** What one action has to ensure. *)
Definition act_ok (t : Z) {B} (C : list token) (m : K B) (P : B → Prop) (post : B → list token) : Prop :=
  ∀ kn W G b kn', ginv kn W G → running kn = t → knows G t C → m kn = Ok (b, kn') →
    P b ∧ (∃ W' G', ginv kn' W' G' ∧ others t G G' ∧ knows G' t (post b)) ∧ holder_step t kn kn'.

Inductive safe (t : Z) : ∀ A : Type, list token → proc A → (A → list token → Prop) → Prop :=
| safe_ret A C C' (a : A) Q : C' ⊆ C → Q a C' → safe t A C (Ret a) Q
| safe_act A B C (m : K B) (k : B → proc A) Q P post :
    act_ok t C m P post → (∀ b, P b → safe t A (post b) (k b) Q) → safe t A C (Act m k) Q
| safe_iter A B C C0 (body : proc (option B)) (k : B → proc A) Q R :
    C0 ⊆ C → safe t (option B) C0 body R → (∀ C', R None C' → C0 ⊆ C') →
    (∀ b C', R (Some b) C' → safe t A C' (k b) Q) → safe t A C (Iter body k) Q.
Arguments safe t {A} C p Q.

Lemma knows_weaken G t C C' : knows G t C → C' ⊆ C → knows G t C'.
Proof. unfold knows. set_solver. Qed.

Lemma safe_weaken t {A} C C2 (p : proc A) Q : safe t C p Q → C ⊆ C2 → safe t C2 p Q.
Proof.
  intros H Hs. destruct H as [A C C' a Q Hc Hq|A B C m k Q P post Hm Hk|A B C C0 body k Q R Hc Hb Hn Hk].
  - eapply safe_ret; [|done]. set_solver.
  - eapply safe_act; [|done]. intros kn W G b kn' Hg Hr Hkn. apply Hm with W; try done.
    by eapply knows_weaken.
  - eapply safe_iter; [|done..]. set_solver.
Qed.

Lemma safe_bind t {A B} C (p : proc A) (f : A → proc B) R Q :
  safe t C p R → (∀ a C', R a C' → safe t C' (f a) Q) → safe t C (pbind p f) Q.
Proof.
  intros H. revert B f Q.
  induction H as [A C C' a R Hc Hq|A D C m k R P post Hm Hk IH|A D C C0 body k R R' Hc Hb IHb Hn Hk IH];
    intros B f Q Hf; cbn [pbind].
  - eapply safe_weaken; [by apply Hf|done].
  - eapply safe_act; [done|]. eauto.
  - eapply safe_iter; [done..|]. eauto.
Qed.

(** [safe] with a postcondition that says nothing. *)
Definition anyway {A} : A → list token → Prop := λ _ _, True.

Lemma safe_mono t {A} C (p : proc A) Q Q' :
  safe t C p Q → (∀ a C', Q a C' → Q' a C') → safe t C p Q'.
Proof.
  intros H. revert Q'.
  induction H as [A C C' a R Hc Hq|A D C m k R P post Hm Hk IH|A D C C0 body k R R' Hc Hb IHb Hn Hk IH];
    intros Q' Hq'.
  - eapply safe_ret; eauto.
  - eapply safe_act; eauto.
  - eapply safe_iter; eauto.
Qed.

Lemma safe_seq t {A B} C (p : proc A) (f : A → proc B) Q :
  safe t C p (λ _, eq C) → (∀ a, safe t C (f a) Q) → safe t C (pbind p f) Q.
Proof. intros H Hf. eapply safe_bind; [done|]. by intros a C' <-. Qed.

(** An action that changes no tokens. *)
Lemma safe_plain t {B} C (m : K B) :
  (∀ kn W G b kn', ginv kn W G → running kn = t → m kn = Ok (b, kn') → ∃ W', ginv kn' W' G) → Keeps m →
  safe t C (act m) (λ _, eq C).
Proof.
  intros Hm Hk. eapply (safe_act _ _ _ _ _ _ _ (λ _, True) (λ _, C)).
  - intros kn W G b kn' Hg Hr Hkn H. split; [done|]. split; [|exact (keeps_step _ t _ _ _ H)].
    destruct (Hm _ _ _ _ _ Hg Hr H) as [W' Hg']. eauto with kernel.
  - intros b _. by eapply safe_ret.
Qed.

(** An action that only reads. *)
Lemma safe_read t {B} C (m : K B) :
  (∀ kn b kn', m kn = Ok (b, kn') → kn' = kn) → Keeps m → safe t C (act m) (λ _, eq C).
Proof. intros Hm Hk. apply safe_plain; [|done]. intros * Hg _ H. apply Hm in H as ->. eauto. Qed.
End safe.
Arguments safe {_ _} t {A} C p Q.

Section operations.
Context (kbase idle0 : Z).
Notation ginv := (ginv kbase idle0).
Notation safe := (@safe kbase idle0).
Notation act_ok := (act_ok kbase idle0).

Lemma safe_set_level t C b : safe t C (act (intr_set_level b)) (λ _, eq C).
Proof. apply safe_plain; [|apply _]. intros * Hg _ H. exists W. by eapply intr_level_ginv. Qed.

Lemma safe_yield t C : safe t C thread_yield (λ _, eq C).
Proof.
  unfold thread_yield. apply safe_seq.
  - apply safe_plain; [|apply _]. intros * Hg _ H. by eapply yield_section_ginv in H as [? _].
  - intros b. apply safe_seq; [apply safe_set_level|]. intros _. by eapply safe_ret.
Qed.

Lemma safe_exit t {A} C Q : t ≠ idle0 → safe t C (thread_exit : proc A) Q.
Proof.
  intros Hni. unfold thread_exit. apply safe_seq.
  - apply safe_plain; [|apply _]. intros * Hg Hr H. eapply exit_section_ginv; [exact Hg|congruence|exact H].
  - intros _. eapply (safe_act _ _ _ _ _ _ _ _ _ (λ _, False) (λ _, [])); [|done]. by intros.
Qed.

Lemma safe_sleep t C n : t ≠ idle0 → safe t C (timer_sleep n) (λ _, eq C).
Proof.
  intros Hni. unfold timer_sleep. apply safe_seq.
  { apply safe_read; [|apply _]. intros kn b kn' H. by apply timer_ticks_inv in H as [_ ->]. }
  intros start. apply safe_seq.
  { apply safe_read; [|apply _]. intros kn b kn' H. unfold intr_get_level, gets in H.
    erewrite bind_ok in H by reflexivity. by apply assert_inv in H as [_ ->]. }
  intros _. destruct (n <? 0); [by eapply safe_ret|]. unfold thread_block_with_time. apply safe_seq.
  - apply safe_plain; [|apply _]. intros * Hg Hr H. eapply block_with_time_ginv; [exact Hg|congruence|exact H].
  - intros b. apply safe_seq; [apply safe_set_level|]. intros _. by eapply safe_ret.
Qed.

(** The tokens a thread has after passing semaphore [s]. *)
Definition with_sema (s : sref) (C : list token) : list token :=
  match s with LockSema l => TTransit l :: C | _ => C end.

Lemma knows_grab G t C s : knows G t C → knows (grab s t G) t (with_sema s C).
Proof.
  intros Hk. destruct s as [a|l|t']; simpl; try done. intros tok Htok.
  destruct (decide (tok = TTransit l)) as [->|]; [by rewrite lookup_insert_eq|].
  rewrite lookup_insert_ne by done. apply Hk. set_solver.
Qed.

Lemma safe_sema_down t C s :
  t ≠ idle0 → (∀ t', s = StackSema t' → t = t') →
  safe t C (sema_down s) (λ _, eq (with_sema s C)).
Proof.
  intros Hni Hs. unfold sema_down. apply safe_seq.
  { apply safe_plain; [|apply _]. intros * Hg _ H. exists W.
    apply bind_inv in H as (? & ? & E & H). apply assert_not_intr_inv in E as [-> _].
    injection H as _ <-. by apply ginv_intr. }
  intros old. eapply (safe_iter _ _ _ _ _ _ C _ _ _ (λ o C', C' = match o with None => C | Some _ => with_sema s C end));
    [done| |by intros C' ->|intros [] C' ->; by eapply safe_ret].
  eapply (safe_act _ _ _ _ _ _ _ _ _ (λ _, True) (λ o, match o with None => C | Some _ => with_sema s C end)).
  - intros kn W G b kn' Hg Hr Hkn H. split; [done|]. split; [|exact (keeps_step _ t _ _ _ H)].
    apply (sema_down_round_ginv kbase idle0 s old kn W G b kn' Hg) in H; [|congruence|rewrite Hr; auto].
    destruct b as [[]|].
    + rewrite Hr in H. destruct H as [Hg' Ho]. exists W, (grab s t G). split_and!; try done. by apply knows_grab.
    + destruct H as [W' Hg']. eauto with kernel.
  - intros b _. by eapply safe_ret.
Qed.

Lemma safe_sema_up t C s :
  (∀ l, s ≠ LockSema l) → safe t C (sema_up s) (λ _, eq C).
Proof.
  intros Hs. unfold sema_up. apply safe_seq; [|intros _; apply safe_yield].
  apply safe_plain; [|apply _]. intros * Hg _ H.
  apply (sema_up_section_ginv kbase idle0 s kn W G b kn' Hg) in H; [|intros l ->; by destruct (Hs l)].
  by destruct s as [a|l|t']; [|destruct (Hs l)|].
Qed.

(** A lock's semaphore is left by the thread that passed it. *)
Lemma safe_lock_up t C l :
  (∀ tok, tok ∈ C → tok ≠ TTransit l) →
  safe t (TTransit l :: C) (sema_up (LockSema l)) (λ _, eq C).
Proof.
  intros HC. unfold sema_up. eapply (safe_bind _ _ _ _ _ _ (λ _, eq C)); [|intros a C' <-; apply safe_yield].
  eapply (safe_act _ _ _ _ _ _ _ _ _ (λ _, True) (λ _, C)); [|intros; by eapply safe_ret].
  intros kn W G b kn' Hg Hr Hkn H. split; [done|]. split; [|exact (keeps_step _ t _ _ _ H)].
  assert (Ho : G !! TTransit l = Some t) by (apply Hkn; by left).
  apply (sema_up_section_ginv kbase idle0 _ kn W G b kn' Hg) in H as [W' Hg']; [|by intros l' [= <-]].
  exists W', (delete (TTransit l) G). split_and!; [done|apply others_delete; by left|].
  intros tok Htok. rewrite lookup_delete_ne by (symmetry; by apply HC). apply Hkn. by right.
Qed.

(** Reading whether the lock is held; a held lock's token is the running thread's. *)
Lemma safe_assert_held t C l :
  safe t C (act (let* held := lock_held_by_current_thread l in assert held)) (λ _, eq (THeld l :: C)).
Proof.
  eapply (safe_act _ _ _ _ _ _ _ _ _ (λ _, True) (λ _, THeld l :: C)); [|intros; by eapply safe_ret].
  intros kn W G b kn' Hg Hr Hkn H. split; [done|]. split; [|exact (keeps_step _ t _ _ _ H)].
  apply bind_inv in H as (held & ? & E & H). apply held_inv in E as (-> & h & Hh & Hb).
  apply assert_inv in H as [-> ->]. specialize (Hb eq_refl). exists W, G. split_and!; [done|apply others_refl|].
  destruct (lock_state kbase idle0 kn W G l Hg) as (h' & x & Hh' & _ & Hok); [by rewrite Hh|].
  pose proof (running_not_null _ _ _ _ _ Hg). rewrite Hh in Hh'. injection Hh' as <-.
  intros tok [->|Htok]%elem_of_cons; [|by apply Hkn]. unfold lock_ok in Hok.
  destruct (G !! TTransit l), (G !! THeld l) eqn:E; try done; destruct Hok; congruence.
Qed.

Lemma safe_not_held t C l :
  safe t C (act (let* held := lock_held_by_current_thread l in assert (negb held))) (λ _, eq C).
Proof.
  apply safe_read; [|apply _]. intros kn b kn' H. apply bind_inv in H as (held & ? & E & H).
  apply held_inv in E as (-> & _). by apply assert_inv in H as [_ ->].
Qed.

(** Tokens that are about no lock. *)
Definition lock_free (C : list token) : Prop := ∀ l, TTransit l ∉ C ∧ THeld l ∉ C.

(** The assignments to [holder], with the tokens before and after. *)
Lemma safe_take_holder t C l :
  lock_free C → safe t (TTransit l :: C) (act (let* cur := thread_current in set_holder l cur)) (λ _, eq C).
Proof.
  intros HC. eapply (safe_act _ _ _ _ _ _ _ _ _ (λ _, True) (λ _, C)); [|intros; by eapply safe_ret].
  intros kn W G b kn' Hg Hr Hkn H. split; [done|]. apply bind_inv in H as (c & ? & E & H).
  apply thread_current_inv in E as (-> & -> & _). injection H as _ <-. rewrite Hr in *.
  assert (Ho : G !! TTransit l = Some t) by (apply Hkn; by left).
  assert (Hin : is_Some (holders kn !! l)) by (eapply (ro_token_in _ _ _ _ _ (proj2 (proj2 Hg))); by left).
  destruct (lock_state _ _ kn W G l Hg Hin) as (h & x & Hh & _ & Hok). unfold lock_ok in Hok. rewrite Ho in Hok.
  pose proof (running_not_null _ _ _ _ _ Hg) as Hnn. rewrite Hr in Hnn.
  destruct (G !! THeld l) eqn:Ehd; [done|]. destruct Hok as [_ ->]. split.
  - exists W, (to_held l t G). split_and!.
    + eapply (set_holder_ginv kbase idle0 kn W G l t t); [done..|by left|done].
    + unfold to_held. eapply others_trans; [apply others_delete; by left|]. apply others_insert. left.
      by rewrite lookup_delete_ne.
    + intros tok Htok. destruct (HC l). unfold to_held.
      rewrite lookup_insert_ne, lookup_delete_ne by congruence. apply Hkn. by right.
  - intros l'. simpl. destruct (decide (l' = l)) as [->|].
    + rewrite lookup_insert_eq. auto.
    + rewrite lookup_insert_ne by done. by left.
Qed.

Lemma safe_drop_holder t C l :
  lock_free C → safe t (THeld l :: C) (act (set_holder l NULL)) (λ _, eq (TTransit l :: C)).
Proof.
  intros HC. eapply (safe_act _ _ _ _ _ _ _ _ _ (λ _, True) (λ _, TTransit l :: C)); [|intros; by eapply safe_ret].
  intros kn W G b kn' Hg Hr Hkn H. split; [done|]. injection H as _ <-.
  assert (Ho : G !! THeld l = Some t) by (apply Hkn; by left).
  assert (Hin : is_Some (holders kn !! l)) by (eapply (ro_token_in _ _ _ _ _ (proj2 (proj2 Hg))); by right).
  destruct (lock_state _ _ kn W G l Hg Hin) as (h & x & Hh & _ & Hok). unfold lock_ok in Hok. rewrite Ho in Hok.
  pose proof (running_not_null _ _ _ _ _ Hg) as Hnn. rewrite Hr in Hnn.
  destruct (G !! TTransit l) eqn:Ehd; [done|]. destruct Hok as [_ ->]. split.
  - exists W, (to_transit l t G). split_and!.
    + eapply (set_holder_ginv kbase idle0 kn W G l t NULL); [done..|by right|done].
    + unfold to_transit. eapply others_trans; [apply others_delete; by left|]. apply others_insert. left.
      by rewrite lookup_delete_ne.
    + intros tok [->|Htok]%elem_of_cons; unfold to_transit; [by rewrite lookup_insert_eq|]. destruct (HC l).
      rewrite lookup_insert_ne, lookup_delete_ne by congruence. apply Hkn. by right.
  - intros l'. simpl. destruct (decide (l' = l)) as [->|].
    + rewrite lookup_insert_eq. auto.
    + rewrite lookup_insert_ne by done. by left.
Qed.

Lemma safe_acquire t C l : t ≠ idle0 → lock_free C → safe t C (lock_acquire l) (λ _, eq C).
Proof.
  intros Hni HC. unfold lock_acquire. apply safe_seq.
  { apply safe_read; [|apply _]. intros kn b kn' H. apply bind_inv in H as (? & ? & E & H).
    apply assert_not_intr_inv in E as [-> _]. apply bind_inv in H as (held & ? & E & H).
    apply held_inv in E as (-> & _). by apply assert_inv in H as [_ ->]. }
  intros _. eapply safe_bind; [by apply safe_sema_down|]. intros _ C' <-. simpl. by apply safe_take_holder.
Qed.

Lemma safe_release t C l : lock_free C → safe t C (lock_release l) (λ _, eq C).
Proof.
  intros HC. unfold lock_release. eapply safe_bind; [apply safe_assert_held|]. intros _ C1 <-.
  eapply safe_bind; [by apply safe_drop_holder|]. intros _ C2 <-. apply safe_lock_up.
  intros tok Htok ->. by destruct (HC l).
Qed.

Lemma safe_try_acquire t C l : lock_free C → safe t C (lock_try_acquire l) (λ _, eq C).
Proof.
  intros HC. unfold lock_try_acquire. apply safe_seq; [apply safe_not_held|]. intros _.
  eapply (safe_bind _ _ _ _ _ _ (λ (r : bool) C', C' = if r then TTransit l :: C else C)).
  - eapply (safe_act _ _ _ _ _ _ _ _ _ (λ _, True) (λ r : bool, if r then TTransit l :: C else C));
      [|intros; by eapply safe_ret].
    intros kn W G b kn' Hg Hr Hkn H. split; [done|]. split; [|exact (keeps_step _ t _ _ _ H)].
    apply (sema_try_down_ginv kbase idle0 _ kn W G b kn' Hg) in H as [Hg' Ho]. rewrite Hr in *.
    do 2 eexists. split_and!; [exact Hg'|exact Ho|]. destruct b; [|done]. by apply (knows_grab G t C (LockSema l)).
  - intros [] C' ->.
    + eapply safe_bind; [by apply safe_take_holder|]. intros _ C' <-. by eapply safe_ret.
    + cbn [pbind]. by eapply safe_ret.
Qed.

(** ** Condition variables *)

Lemma safe_cond_check t C l : safe t C (act (cond_check l)) (λ _, eq C).
Proof.
  apply safe_read; [|apply _]. intros kn b kn' H. apply bind_inv in H as (? & ? & E & H).
  apply assert_not_intr_inv in E as [-> _]. apply bind_inv in H as (held & ? & E & H).
  apply held_inv in E as (-> & _). by apply assert_inv in H as [_ ->].
Qed.

Lemma safe_cond_wait t C c l : t ≠ idle0 → lock_free C → safe t C (cond_wait c l) (λ _, eq C).
Proof.
  intros Hni HC. unfold cond_wait. apply safe_seq; [apply safe_cond_check|]. intros _.
  eapply (safe_bind _ _ _ _ _ _ (λ cur C', cur = t ∧ C' = C)).
  { eapply (safe_act _ _ _ _ _ _ _ _ _ (λ cur, cur = t) (λ _, C)); [|intros b ->; by eapply safe_ret].
    intros kn W G b kn' Hg Hr Hkn H. split; [injection H; congruence|]. split; [|exact (keeps_step _ t _ _ _ H)].
    injection H as _ <-. eauto with kernel. }
  intros cur C' [-> ->]. apply safe_seq.
  { apply safe_plain; [|apply _]. intros * Hg Hr H. exists W. rewrite <- Hr in H. by eapply stack_sema_ginv. }
  intros _. apply safe_seq.
  { apply safe_plain; [|apply _]. intros * Hg Hr H. exists W. apply bind_inv in H as (ws & ? & E & H).
    apply get_cond_inv in E as [Hc ->]. injection H as _ <-. apply set_cond_ginv; [done|].
    apply Forall_app. split; [by apply (ro_conds _ _ _ _ _ (proj2 (proj2 Hg)) c)|].
    apply Forall_singleton. eauto. }
  intros _. apply safe_seq; [by apply safe_release|]. intros _.
  apply safe_seq; [|intros _; by apply safe_acquire]. apply safe_sema_down; [done|]. by intros t' [= ->].
Qed.

Lemma safe_get_cond t C c : safe t C (act (get_cond c)) (λ _, eq C).
Proof. apply safe_read; [|apply _]. intros kn b kn' H. by apply get_cond_inv in H as [_ ->]. Qed.

Lemma safe_cond_signal t C c l : safe t C (cond_signal c l) (λ _, eq C).
Proof.
  unfold cond_signal. apply safe_seq; [apply safe_cond_check|]. intros _.
  apply safe_seq; [apply safe_get_cond|]. intros [|s ws]; [by eapply safe_ret|].
  eapply (safe_bind _ _ _ _ _ _ (λ s C', (∃ t', s = StackSema t') ∧ C' = C)).
  - eapply (safe_act _ _ _ _ _ _ _ _ _ (λ s, ∃ t', s = StackSema t') (λ _, C)); [|intros b ?; by eapply safe_ret].
    intros kn W G b kn' Hg Hr Hkn H. pose proof (keeps_step _ t _ _ _ H).
    apply (cond_pop_ginv kbase idle0 _ _ W G) in H as (Hg' & Hs & _); [|done]. split_and!; eauto with kernel.
  - intros s' C' [[t' ->] ->]. by apply safe_sema_up.
Qed.

Lemma safe_cond_broadcast t C c l : safe t C (cond_broadcast c l) (λ _, eq C).
Proof.
  unfold cond_broadcast. eapply (safe_iter _ _ _ _ _ _ C _ _ _ (λ _, eq C)); [done| |by intros C' <-|].
  - apply safe_seq; [apply safe_get_cond|]. intros [|s ws]; [by eapply safe_ret|].
    apply safe_seq; [apply safe_cond_signal|]. intros _. by eapply safe_ret.
  - intros b C' <-. by eapply safe_ret.
Qed.

(** ** Creating threads *)

Lemma lock_free_cons tok C : (∀ l, tok ≠ TTransit l ∧ tok ≠ THeld l) → lock_free C → lock_free (tok :: C).
Proof. intros Ht HC l. specialize (Ht l). destruct (HC l). set_solver. Qed.

Lemma safe_allocate_tid t C : t ≠ idle0 → lock_free C → safe t C allocate_tid (λ _, eq C).
Proof.
  intros Hni HC. unfold allocate_tid. apply safe_seq; [by apply safe_acquire|]. intros _.
  apply safe_seq; [|intros tid; apply safe_seq; [by apply safe_release|intros _; by eapply safe_ret]].
  apply safe_plain; [|apply _]. intros * Hg Hr H. exists W. unfold gets, bind, modify, ret in H.
  injection H as _ <-. by eapply ginv_ext.
Qed.

Lemma safe_get_kpage t C :
  t ≠ idle0 → lock_free C →
  safe t C (palloc_get_kpage PAL_ZERO) (λ r C', (r = NULL ∧ C' = C) ∨ C' = TPage r :: C).
Proof.
  intros Hni HC. unfold palloc_get_kpage. apply safe_seq; [by apply safe_acquire|]. intros _.
  set (post i := if i =? BITMAP_ERROR then C else TPage (kbase + 4096 * i) :: C).
  set (P i := i = BITMAP_ERROR ∨ u32 (kbase + u32 (PGSIZE * i)) = kbase + 4096 * i).
  eapply (safe_bind _ _ _ _ _ _ (λ i C', P i ∧ C' = post i)).
  { eapply (safe_act _ _ _ _ _ _ _ _ _ P post); [|intros b Hb; by eapply safe_ret].
    intros kn W G i kn' Hg Hr Hkn H. pose proof (keeps_step _ t _ _ _ H).
    destruct (take_page_ginv kbase idle0 kn W G i kn' Hg H) as [_ [[-> Hg']|(Hi & Hu & Hg' & Htp & _)]].
    - split_and!; [by left|eauto with kernel|done].
    - rewrite Hr in Hg'. split_and!; [by right| |done]. do 2 eexists.
      split_and!; [exact Hg'|by apply others_insert; left|]. unfold post. rewrite (proj2 (Z.eqb_neq _ _) Hi).
      intros tok Htok. destruct (decide (tok = TPage (kbase + 4096 * i))) as [->|]; [by rewrite lookup_insert_eq|].
      rewrite lookup_insert_ne by done. apply Hkn. set_solver. }
  intros i C' [HP ->]. apply safe_seq.
  { apply safe_release. unfold post. destruct (i =? BITMAP_ERROR); [done|]. by apply lock_free_cons. }
  intros _. set (r := if i =? BITMAP_ERROR then NULL else u32 (kbase + u32 (PGSIZE * i))).
  eapply (safe_act _ _ _ _ _ _ _ _ _ (λ x, x = r) (λ _, post i)).
  - intros kn W G b kn' Hg Hr Hkn H. pose proof (keeps_step _ t _ _ _ H).
    apply (deliver_page_ginv kbase idle0 i kn W G) in H as (Hg' & _ & Hb); [|done]. split_and!; eauto with kernel.
  - intros b ->. eapply safe_ret; [done|]. unfold r, post, P in *. destruct (Z.eqb_spec i BITMAP_ERROR); [by left|right].
    destruct HP as [|Hu]; [done|]. by rewrite Hu.
Qed.

Lemma push_frames_ginv t f a k W G u k' : ginv k W G → push_frames t f a k = Ok (u, k') → ginv k' W G.
Proof.
  assert (Hal : ∀ sz k0 r k1, ginv k0 W G → alloc_frame t sz k0 = Ok (r, k1) → ginv k1 W G).
  { intros sz k0 r k1 Hg H. unfold alloc_frame in H. apply bind_inv in H as (? & ? & E & H).
    apply is_thread_inv in E as [-> _]. apply bind_inv in H as (? & ? & E & H). apply assert_inv in E as [_ ->].
    apply bind_inv in H as (? & ? & E & H). apply assert_inv in E as [_ ->].
    apply bind_inv in H as (th & ? & E & H). apply get_thread_inv in E as [_ ->].
    apply bind_inv in H as (? & ? & E & H). injection H as _ <-.
    eapply upd_ginv; [exact Hg| | |exact E]; done. }
  intros Hg H. unfold push_frames in H. apply bind_inv in H as (? & k1 & E & H). apply Hal in E; [|done].
  apply bind_inv in H as (? & k2 & E' & H). eapply upd_ginv in E'; [|exact E|done|done].
  apply bind_inv in H as (? & k3 & E3 & H). apply Hal in E3; [|done].
  apply bind_inv in H as (? & k4 & E4 & H). apply Hal in E4; [|done]. by injection H as _ <-.
Qed.

Lemma safe_init_thread t C p nm prio :
  (∀ tok, tok ∈ C → tok ≠ TPage p) →
  safe t (TPage p :: C) (act (init_thread p nm prio)) (λ _, eq (TNew p :: C)).
Proof.
  intros HC. eapply (safe_act _ _ _ _ _ _ _ _ _ (λ _, True) (λ _, TNew p :: C)); [|intros; by eapply safe_ret].
  intros kn W G b kn' Hg Hr Hkn H. pose proof (keeps_step _ t _ _ _ H). split; [done|]. split; [|done].
  assert (Ho : G !! TPage p = Some t) by (apply Hkn; by left).
  assert (Hn : G !! TNew p = None).
  { destruct (G !! TNew p) eqn:E; [|done]. pose proof (proj2 (proj2 Hg)) as Hres.
    apply (ro_tnew _ _ _ _ _ Hres) in E as ((th & Hth & _) & _).
    apply (ro_tpage _ _ _ _ _ Hres) in Ho as [_ ?]. congruence. }
  apply (init_thread_ginv kbase idle0 p nm prio kn W G t) in H as [Hg' _]; [|done..].
  exists W, (<[TNew p := t]> (delete (TPage p) G)). split_and!; [done| |].
  - eapply others_trans; [apply others_delete; by left|]. apply others_insert. left. by rewrite lookup_delete_ne.
  - intros tok [->|Htok]%elem_of_cons; [by rewrite lookup_insert_eq|].
    destruct (decide (tok = TNew p)) as [->|]; [by rewrite lookup_insert_eq|].
    rewrite lookup_insert_ne, lookup_delete_ne by (done || (symmetry; by apply HC)). apply Hkn. by right.
Qed.

Lemma safe_unblock_new t C p :
  (∀ tok, tok ∈ C → tok ≠ TNew p) → safe t (TNew p :: C) (act (thread_unblock p)) (λ _, eq C).
Proof.
  intros HC. eapply (safe_act _ _ _ _ _ _ _ _ _ (λ _, True) (λ _, C)); [|intros; by eapply safe_ret].
  intros kn W G b kn' Hg Hr Hkn H. pose proof (keeps_step _ t _ _ _ H). split; [done|]. split; [|done].
  assert (Ho : G !! TNew p = Some t) by (apply Hkn; by left).
  apply (unblock_new_ginv kbase idle0 kn W G p t) in H as [W' Hg']; [|done..].
  exists W', (delete (TNew p) G). split_and!; [done|apply others_delete; by left|].
  intros tok Htok. rewrite lookup_delete_ne by (symmetry; by apply HC). apply Hkn. by right.
Qed.

Lemma safe_current t C : safe t C (act (let* c := thread_current in get_thread c)) (λ _, eq C).
Proof.
  apply safe_read; [|apply _]. intros kn b kn' H. apply bind_inv in H as (c & ? & E & H).
  apply thread_current_inv in E as (-> & _). by apply get_thread_inv in H as [_ ->].
Qed.

Lemma safe_create t nm prio f a : t ≠ idle0 → safe t [] (thread_create nm prio f a) (λ _, eq []).
Proof.
  intros Hni. assert (Hf : lock_free []) by (intros l; set_solver). unfold thread_create.
  apply safe_seq; [apply safe_read; [|apply _]; intros kn b kn' H; by apply assert_inv in H as [_ ->]|].
  intros _. eapply safe_bind; [by apply safe_get_kpage|]. intros p C' HC'.
  destruct (Z.eqb_spec p NULL) as [->|Hp]; [eapply safe_ret; [|reflexivity]; set_solver|].
  destruct HC' as [[]| ->]; [done|]. eapply safe_bind; [apply safe_init_thread; set_solver|]. intros _ C1 <-.
  apply safe_seq; [apply safe_allocate_tid; [done|by apply lock_free_cons]|]. intros tid.
  apply safe_seq.
  { apply safe_plain; [|apply _]. intros * Hg _ H. exists W. eapply upd_ginv; [exact Hg| | |exact H]; done. }
  intros _. apply safe_seq.
  { apply safe_plain; [|apply _]. intros * Hg _ H. exists W. by eapply push_frames_ginv. }
  intros _. eapply safe_bind; [apply safe_unblock_new; set_solver|]. intros _ C2 <-.
  apply safe_seq; [apply safe_current|]. intros th.
  apply safe_seq; [|intros _; by eapply safe_ret]. destruct (priority th <? prio); [apply safe_yield|by eapply safe_ret].
Qed.

(** ** Priorities *)

Lemma safe_current_priority t C : safe t C (act current_priority) (λ _, eq C).
Proof.
  apply safe_read; [|apply _]. intros kn b kn' H. apply bind_inv in H as (c & ? & E & H).
  apply thread_current_inv in E as (-> & _). apply bind_inv in H as (th & ? & E & H).
  apply get_thread_inv in E as [_ ->]. by injection H as _ <-.
Qed.

Lemma safe_put_priority t C p : safe t C (act (put_priority p)) (λ _, eq C).
Proof. apply safe_plain; [|apply _]. intros * Hg _ H. exists W. by eapply put_priority_ginv. Qed.

Lemma safe_set_priority t C p : safe t C (thread_set_priority p) (λ _, eq C).
Proof.
  unfold thread_set_priority. apply safe_seq; [apply safe_current_priority|]. intros q.
  destruct (p <? q); [|apply safe_put_priority]. apply safe_seq; [apply safe_put_priority|]. intros _. apply safe_yield.
Qed.

Lemma safe_set_nice t C n : safe t C (thread_set_nice n) (λ _, eq C).
Proof.
  unfold thread_set_nice. apply safe_seq; [apply safe_current_priority|]. intros q. apply safe_seq.
  { apply safe_plain; [|apply _]. intros * Hg _ H. exists W. apply bind_inv in H as (c & ? & E & H).
    apply thread_current_inv in E as (-> & _). eapply upd_ginv; [exact Hg| | |exact H]; done. }
  intros _. apply safe_seq.
  { apply safe_read; [|apply _]. intros kn b kn' H. apply bind_inv in H as (c & ? & E & H).
    apply thread_current_inv in E as (-> & _). apply bind_inv in H as (th & ? & E & H).
    apply get_thread_inv in E as [_ ->]. by apply lift_inv in H as [_ ->]. }
  intros p. apply safe_seq; [apply safe_put_priority|]. intros _.
  destruct (p <? q); [apply safe_yield|by eapply safe_ret].
Qed.
End operations.
