(* ===== verification/Scheduler.v ===== *)
(** * Properties of the scheduler over all interleavings *)

From S2P Require Import Prelude ListSpec ListSort Bitmap Palloc FixedPoint Threads Synch SchedInv SchedOps SchedSafe.
Local Open Scope Z_scope.

(** ** Programs over the thread interface *)

Inductive call : Type → Type :=
| CYield : call unit
| CExit : call unit
| CSleep (n : Z) : call unit
| CSemaDown (a : Z) : call unit
| CSemaUp (a : Z) : call unit
| CSemaTry (a : Z) : call bool
| CAcquire (l : Z) : call unit
| CTryAcquire (l : Z) : call bool
| CRelease (l : Z) : call unit
| CWait (c l : Z) : call unit
| CSignal (c l : Z) : call unit
| CBroadcast (c l : Z) : call unit
| CCreate (nm : string) (prio f a : Z) : call Z
| CSetPriority (p : Z) : call unit
| CGetPriority : call Z
| CSetNice (n : Z) : call unit.

Definition do_call {A} (c : call A) : proc A :=
  match c with
  | CYield => thread_yield
  | CExit => thread_exit
  | CSleep n => timer_sleep n
  | CSemaDown a => sema_down (Sema a)
  | CSemaUp a => sema_up (Sema a)
  | CSemaTry a => act (sema_try_down (Sema a))
  | CAcquire l => lock_acquire l
  | CTryAcquire l => lock_try_acquire l
  | CRelease l => lock_release l
  | CWait c l => cond_wait c l
  | CSignal c l => cond_signal c l
  | CBroadcast c l => cond_broadcast c l
  | CCreate nm prio f a => thread_create nm prio f a
  | CSetPriority p => thread_set_priority p
  | CGetPriority => thread_get_priority
  | CSetNice n => thread_set_nice n
  end.

(** A thread function: any sequence of calls, each chosen from the results of those
    before it, with loops. *)
Inductive client : proc unit → Prop :=
| cl_ret : client (Ret tt)
| cl_call A (c : call A) (k : A → proc unit) : (∀ a, client (k a)) → client (pbind (do_call c) k)
| cl_seq p q : client p → client q → client (p ;; q)
| cl_forever p : client p → client (Iter (B := unit) (p ;; Ret None) Ret).

Section programs.
Context (kbase idle0 : Z).
Notation safe := (@safe kbase idle0).

Lemma call_safe t {A} (c : call A) : t ≠ idle0 → safe t [] (do_call c) (λ _, eq []).
Proof.
  intros Hni. assert (Hf : lock_free []) by (intros l; set_solver).
  destruct c; simpl; auto using safe_yield, safe_exit, safe_sleep, safe_sema_down, safe_sema_up, safe_acquire,
    safe_try_acquire, safe_release, safe_cond_wait, safe_cond_signal, safe_cond_broadcast, safe_create,
    safe_set_priority, safe_current_priority, safe_set_nice.
  - by apply (safe_sema_down kbase idle0 t [] (Sema a)).
  - apply safe_plain; [|apply _]. intros * Hg _ H. exists W.
    apply (sema_try_down_ginv kbase idle0 _ _ W G) in H as [Hg' _]; [|done]. by destruct b.
Qed.

Lemma client_safe t p : t ≠ idle0 → client p → safe t [] p (λ _, eq []).
Proof.
  intros Hni. induction 1 as [|A c k Hk IH|p q Hp IHp Hq IHq|p Hp IH].
  - by eapply safe_ret.
  - apply safe_seq; [by apply call_safe|done].
  - by apply safe_seq.
  - eapply (safe_iter _ _ _ _ _ _ [] _ _ _ (λ _, eq [])); [done| |by intros C' <-|intros b C' <-; by eapply safe_ret].
    apply safe_seq; [done|]. intros _. by eapply safe_ret.
Qed.

(** The loop of [idle]. *)
Definition idle_loop : proc unit :=
  Iter (B := unit)
    (act (intr_disable ;;; thread_block) ;; act (modify (set_intr_on true)) ;; Ret None) Ret.

(** The loop never ends, so what follows it does not matter. *)
Lemma idle_loop_safe (q : proc unit) : safe idle0 [] (idle_loop ;; q) anyway.
Proof.
  eapply (safe_iter _ _ _ _ _ _ [] _ _ _ (λ o C, o = None ∧ C = [])); [done| |by intros C' [_ ->]|by intros b C' [? _]].
  apply safe_seq.
  { apply safe_plain; [|apply _]. intros * Hg Hr H. rewrite (bind_ok _ _ _ _ _ (intr_disable_eq kn)) in H.
    apply (ginv_intr _ _ _ _ _ false) in Hg. pose proof Hg as (Hw & _ & _).
    destruct (running_facts _ _ _ _ _ Hg) as (_ & _ & _ & Hloc).
    refine (proj1 (thread_block_ginv kbase idle0 _ W G _ LNone _ _ Hg _ _ _ _ _ _ _ _ _ _ H)); try done.
    - apply queue_other; [apply Hw|by rewrite Hloc|done].
    - intros s x Hx. apply queue_other; [by apply Hw|by rewrite Hloc|done]. }
  intros _. apply safe_seq; [|intros _; by eapply safe_ret].
  apply safe_plain; [|apply _]. intros * Hg _ H. injection H as _ <-. exists W. by apply ginv_intr.
Qed.
End programs.

Section machine.
Context (kbase idle0 : Z) (code : Z → Z → proc unit).
Hypothesis code_ok : ∀ f a, client (code f a).
Notation ginv := (ginv kbase idle0).
Notation safe := (@safe kbase idle0).

Lemma kernel_thread_safe t f a : t ≠ idle0 → safe t [] (kernel_thread code f a) anyway.
Proof.
  intros Hni. unfold kernel_thread.
  apply safe_seq; [apply safe_read; [|apply _]; intros kn b kn' H; by apply assert_inv in H as [_ ->]|].
  intros _. apply safe_seq; [exact (safe_set_level kbase idle0 t [] true)|]. intros _.
  apply safe_seq; [by apply client_safe|]. intros _. by apply safe_exit.
Qed.

(** ** The machine's invariant *)

Definition minv (m : machine) : Prop :=
  ∃ W G, ginv (kern m) W G ∧ is_Some (procs m !! idle0) ∧
    ∀ t p, procs m !! t = Some p → ∃ C, knows G t C ∧ safe t C p anyway.

Lemma next_proc_safe m W G p :
  ginv (kern m) W G → is_Some (procs m !! idle0) →
  (∀ t p, procs m !! t = Some p → ∃ C, knows G t C ∧ safe t C p anyway) →
  next_proc code m = Ok p → ∃ C, knows G (running (kern m)) C ∧ safe (running (kern m)) C p anyway.
Proof.
  intros Hg [q Hq] Hp H. unfold next_proc in H. destruct (procs m !! running (kern m)) eqn:E.
  - injection H as <-. eauto.
  - destruct (threads (kern m) !! running (kern m)) as [th|] eqn:Eth; [|done]. injection H as <-.
    exists []. split; [by intros tok Htok%elem_of_nil|]. apply kernel_thread_safe. congruence.
Qed.

Lemma save_minv m k t p W G C G0 :
  ginv k W G → others t G0 G → knows G t C → safe t C p anyway → is_Some (procs m !! idle0) →
  (∀ t p, procs m !! t = Some p → ∃ C, knows G0 t C ∧ safe t C p anyway) → minv (save m k t p).
Proof.
  intros Hg Ho Hk Hs Hi Hp. exists W, G. unfold save. simpl. split_and!; [done| |].
  - destruct (ro_alive _ _ _ _ _ (proj2 (proj2 Hg))) as (th & Hth & _). destruct Hi as [q Hq].
    destruct (decide (t = idle0)) as [->|].
    + exists p. apply map_lookup_filter_Some. split; [by rewrite lookup_insert_eq|]. simpl. eauto.
    + exists q. apply map_lookup_filter_Some. split; [by rewrite lookup_insert_ne|]. simpl. eauto.
  - intros t' p' [Hl _]%map_lookup_filter_Some. destruct (decide (t' = t)) as [->|Hne].
    + rewrite lookup_insert_eq in Hl. injection Hl as <-. eauto.
    + rewrite lookup_insert_ne in Hl by done. destruct (Hp _ _ Hl) as (C' & Hk' & Hs'). exists C'.
      split; [|done]. intros tok Htok. apply Ho; [done|]. by apply Hk'.
Qed.

Lemma proc_step_safe t {A} C (p : proc A) Q k W G p' k' :
  ginv k W G → running k = t → knows G t C → safe t C p Q → proc_step p k = Ok (p', k') →
  ∃ W' G' C', ginv k' W' G' ∧ others t G G' ∧ knows G' t C' ∧ safe t C' p' Q ∧ holder_step t k k'.
Proof.
  intros Hg Hr Hk Hs. revert p'. pose proof Hs as Hs0.
  destruct Hs as [A C C' a Q Hc Hq|A B C m f Q P post Hm Hf|A B C C0 body f Q R Hc Hb Hn Hf]; intros p' H.
  - injection H as <- <-. exists W, G, C. split_and!; try done; [apply others_refl|]. by intros l; left.
  - apply bind_inv in H as (b & k1 & E & H). injection H as <- <-.
    destruct (Hm k W G b k1 Hg Hr Hk E) as (HP & (W' & G' & Hg' & Ho & Hk') & Hh).
    exists W', G', (post b). split_and!; try done. by apply Hf.
  - injection H as <- <-. exists W, G, C0. split_and!; [done|apply others_refl|by eapply knows_weaken| |by intros l; left].
    eapply safe_bind; [exact Hb|]. intros [b|] C' HR; [by apply Hf|].
    eapply safe_iter; [by apply Hn|done..].
Qed.

Lemma step_minv m m' :
  minv m → step code m m' → minv m' ∧ holder_step (running (kern m)) (kern m) (kern m').
Proof.
  intros Hm Hstep. revert Hm. destruct Hstep as [m1 m2 H|m1 m2 Hon H]; intros (W & G & Hg & Hi & Hp).
  - unfold run1 in H. apply rbind_inv in H as (p & Hn & H). apply rbind_inv in H as ([p' k'] & Hst & H).
    injection H as <-. destruct (next_proc_safe m1 W G p Hg Hi Hp Hn) as (C & Hk & Hs).
    destruct (proc_step_safe _ C p anyway (kern m1) W G p' k' Hg eq_refl Hk Hs Hst)
      as (W' & G' & C' & Hg' & Ho & Hk' & Hs' & Hh).
    split; [|done]. by eapply save_minv.
  - unfold tick in H. apply rbind_inv in H as (p & Hn & H). apply rbind_inv in H as ([b k'] & Hst & H).
    injection H as <-. destruct (next_proc_safe m1 W G p Hg Hi Hp Hn) as (C & Hk & Hs).
    assert (Hh : holder_step (running (kern m1)) (kern m1) k').
    { intros l. left. by rewrite (keeps_tick _ _ _ Hst). }
    destruct (intr_handler_timer_ginv kbase idle0 _ W G b k' Hg Hst) as [W' Hg'].
    split; [|done]. eapply (save_minv m1 k' _ _ W' G C G); try done; [apply others_refl|].
    assert (Hback : safe (running (kern m1)) C (act (modify (set_intr_on true)) ;; p) anyway).
    { apply safe_seq; [|done]. apply safe_plain; [|apply _]. intros * Hg1 _ H1. injection H1 as _ <-.
      exists W0. by apply ginv_intr. }
    destruct b; [|exact Hback].
    exact (safe_seq _ _ _ _ thread_yield (λ _, act (modify (set_intr_on true)) ;; p) _
             (safe_yield _ _ _ _) (λ _, Hback)).
Qed.

Lemma reachable_minv m m' : minv m → rtc (step code) m m' → minv m'.
Proof. intros Hm H. induction H as [|m m1 m2 Hs _ IH]; [done|]. apply IH. by apply (step_minv m m1). Qed.
End machine.

(** ** The machine after start-up *)

(** The address of [idle], and that of the semaphore [thread_start] waits on. *)
Definition IDLE_FN : Z := 100.
Definition IDLE_STARTED : Z := 200.

Definition start_thread (id : Z) (st : thread_status) (nm : string) (stack prio : Z) (children parents : list Z) (f a : Z) : thread :=
  mk_thread id st nm stack prio children parents 0 0 0 THREAD_MAGIC f a.

(** The kernel once [thread_start] has returned: the idle thread has raised the semaphore and
    yielded to the main thread.  [locks], semaphores with their values, and condition
    variables have been initialized and nobody uses them. *)
Definition start_kernel (main idle : Z) (mlfqs aging : bool) (locks : list Z) (sems : list (Z * Z))
    (cvs : list Z) (pg : palloc_state) : kernel :=
  mk_kernel {[ main := start_thread 1 THREAD_RUNNING "main" (main + PGSIZE) PRI_DEFAULT [main; idle] [main] 0 0;
               idle := start_thread 2 THREAD_READY "idle" (idle + PGSIZE - 44) PRI_MIN [] [main] IDLE_FN IDLE_STARTED ]}
    [] [] [main; idle] main idle main 3 0 0 0 0 0 aging mlfqs true false false
    (list_to_map ((λ l, (LockSema l, mk_sema 1 [])) <$> locks) ∪
     list_to_map ((λ av, (Sema av.1, mk_sema av.2 [])) <$> sems))
    (list_to_map ((λ l, (l, NULL)) <$> locks))
    (list_to_map ((λ c, (c, [])) <$> cvs)) pg.

(** What the idle thread has still to do: the end of [thread_yield], then its loop. *)
Definition idle_rest : proc unit := act (intr_set_level true) ;; idle_loop ;; thread_exit.

Definition start_machine (main idle : Z) (mlfqs aging : bool) (locks : list Z) (sems : list (Z * Z))
    (cvs : list Z) (pg : palloc_state) (p : proc unit) : machine :=
  mk_machine (start_kernel main idle mlfqs aging locks sems cvs pg) {[ main := p; idle := idle_rest ]}.

Lemma idle_rest_safe kbase idle0 : @safe kbase idle0 idle0 unit [] idle_rest anyway.
Proof. apply safe_seq; [exact (safe_set_level kbase idle0 idle0 [] true)|]. intros _. apply idle_loop_safe. Qed.

Record start_ok (main idle : Z) (pg : palloc_state) : Prop := {
  so_pages : palloc_wf pg;
  so_main : in_pool (kernel_pool pg) main = false;
  so_idle : kpage pg idle;
  so_main_null : main ≠ NULL
}.

Lemma queue_empty l : l ≠ LNone → queue [] (λ _, LNone) l.
Proof. intros Hl. split; [apply NoDup_nil_2|]. intros t. split; [by intros ?%elem_of_nil|]. intros <-. done. Qed.

Section start.
Context (main idle : Z) (mlfqs aging : bool) (locks : list Z) (sems : list (Z * Z)) (cvs : list Z)
  (pg : palloc_state) (p : proc unit) (code : Z → Z → proc unit).
Hypothesis Hso : start_ok main idle pg.
Let k0 := start_kernel main idle mlfqs aging locks sems cvs pg.

Lemma start_distinct : main ≠ idle ∧ idle ≠ NULL.
Proof.
  destruct Hso as [Hw Hm Hi Hn]. apply kpage_in_pool in Hi. split; [congruence|]. intros ->.
  apply in_pages_iff in Hi. pose proof (pw_low _ (aw_kernel _ Hw)). unfold NULL in *. lia.
Qed.

Lemma start_semas s x : semas k0 !! s = Some x → waiters x = [] ∧ ∀ l, s = LockSema l → value x = 1 ∧ l ∈ locks.
Proof.
  simpl. rewrite lookup_union_Some_raw. intros [H|[_ H]].
  - apply elem_of_list_to_map_2, list_elem_of_fmap in H as (l & [= -> ->] & Hl).
    split; [done|]. by intros l' [= <-].
  - apply elem_of_list_to_map_2, list_elem_of_fmap in H as (av & [= -> ->] & _). done.
Qed.

Lemma start_lock l h :
  holders k0 !! l = Some h → h = NULL ∧ semas k0 !! LockSema l = Some (mk_sema 1 []).
Proof.
  simpl. intros H. apply elem_of_list_to_map_2, list_elem_of_fmap in H as (l' & [= -> ->] & Hl). split; [done|].
  apply lookup_union_Some_l. clear - Hl. induction locks as [|a ls IH]; [by apply elem_of_nil in Hl|].
  simpl. destruct (decide (a = l')) as [->|]; [by rewrite lookup_insert_eq|].
  rewrite lookup_insert_ne by congruence. apply IH. set_solver.
Qed.

Lemma start_holder l : l ∈ locks → is_Some (holders k0 !! l).
Proof.
  simpl. intros Hl. clear - Hl. induction locks as [|a ls IH]; [by apply elem_of_nil in Hl|].
  simpl. destruct (decide (a = l)) as [->|]; [by rewrite lookup_insert_eq|].
  rewrite lookup_insert_ne by congruence. apply IH. set_solver.
Qed.

Lemma start_threads t th :
  threads k0 !! t = Some th → magic th = THREAD_MAGIC ∧
  ((t = main ∧ status th = THREAD_RUNNING) ∨ (t = idle ∧ t ≠ main ∧ status th = THREAD_READY)).
Proof.
  simpl. destruct start_distinct as [Hd _]. destruct (decide (t = main)) as [->|].
  - rewrite lookup_insert_eq. intros [= <-]. auto.
  - rewrite lookup_insert_ne by done. intros [<- <-]%lookup_singleton_Some. auto.
Qed.

Lemma start_ginv : ginv (base (kernel_pool pg)) idle k0 (λ _, LNone) ∅.
Proof.
  destruct start_distinct as [Hd Hin].
  assert (Hmain : ∃ th, threads k0 !! main = Some th ∧ status th = THREAD_RUNNING).
  { eexists. simpl. rewrite lookup_insert_eq. split; reflexivity. }
  assert (Hidle : ∃ th, threads k0 !! idle = Some th ∧ status th = THREAD_READY).
  { eexists. simpl. rewrite lookup_insert_ne, lookup_singleton_eq by done. split; reflexivity. }
  split; [|split].
  - split; try done.
    + intros t th Hth. apply start_threads in Hth as [_ [[-> ->]|(-> & ? & ->)]]; simpl; naive_solver.
    + by intros t [= <-].
    + destruct Hmain as (? & ? & _). eauto.
    + by apply queue_empty.
    + by apply queue_empty.
    + intros s x Hx. apply start_semas in Hx as [-> _]. by apply queue_empty.
    + intros t th Hth. apply start_threads in Hth as [_ [[-> ->]|(-> & ? & ->)]]; intros ?; [done|by right].
    + simpl. split; [repeat constructor; set_solver|]. intros t. split.
      * intros [->|[->|[]%elem_of_nil]%elem_of_cons]%elem_of_cons.
        -- destruct Hmain as (th & ? & E). exists th. by rewrite E.
        -- destruct Hidle as (th & ? & E). exists th. by rewrite E.
      * intros (th & Hth & _). apply start_threads in Hth as [_ [[-> _]|(-> & _)]]; set_solver.
    + intros t th Hth. apply start_threads in Hth as [_ [[-> ->]|(-> & ? & ->)]]; done.
    + destruct (threads k0 !! NULL) eqn:E; [|done]. apply start_threads in E as [_ [[E _]|(E & _)]]; [|congruence].
      by destruct (so_main_null _ _ _ Hso).
    + intros t th Hth. by apply start_threads in Hth as [? _].
  - constructor.
  - destruct Hso as [Hw Hm Hi Hn]. split; try done.
    + intros t [th Hth]. apply start_threads in Hth as [_ [[-> _]|(-> & _)]]; auto.
    + intros l h Hl. apply start_lock in Hl as [-> Hs]. by eexists.
    + intros l x Hx. apply start_semas in Hx as [_ Hx]. by apply start_holder, Hx.
    + intros l o. rewrite !lookup_empty. naive_solver.
    + simpl. intros c ws H. by apply elem_of_list_to_map_2, list_elem_of_fmap in H as (? & [= -> ->] & _).
    + destruct Hidle as (th & ? & E). exists th. by rewrite E.
Qed.

Lemma start_minv :
  client p → minv (base (kernel_pool pg)) idle (start_machine main idle mlfqs aging locks sems cvs pg p).
Proof.
  intros Hp. destruct start_distinct as [Hd _]. exists (λ _, LNone), ∅. split; [apply start_ginv|]. simpl. split.
  - rewrite lookup_insert_ne, lookup_singleton_eq by done. eauto.
  - intros t q. destruct (decide (t = main)) as [->|].
    + rewrite lookup_insert_eq. intros [= <-]. exists []. split; [by intros tok Htok%elem_of_nil|].
      eapply safe_mono; [by apply client_safe|done].
    + rewrite lookup_insert_ne by done. intros [<- <-]%lookup_singleton_Some. exists [].
      split; [by intros tok Htok%elem_of_nil|]. apply idle_rest_safe.
Qed.

Lemma start_reachable m :
  (∀ f a, client (code f a)) → client p →
  rtc (step code) (start_machine main idle mlfqs aging locks sems cvs pg p) m →
  minv (base (kernel_pool pg)) idle m.
Proof. intros Hc Hp H. eapply reachable_minv; [exact Hc|by apply start_minv|exact H]. Qed.
End start.

(** ** Properties *)

(** C1: from start-up on, under every interleaving of the running thread's actions
    with timer interrupts and for every program over the thread interface: exactly
    the running thread has status [THREAD_RUNNING]; the ready list holds exactly the
    threads with status [THREAD_READY] other than the idle thread, each once, in
    order of descending priority; and a thread is in at most one wait queue, and
    blocked while it is. *)
Theorem scheduler_queues (main idle : Z) (mlfqs aging : bool) (locks : list Z) (sems : list (Z * Z)) (cvs : list Z)
    (pg : palloc_state) (p : proc unit) (code : Z → Z → proc unit) (m : machine) :
  start_ok main idle pg → (∀ f a, client (code f a)) → client p →
  rtc (step code) (start_machine main idle mlfqs aging locks sems cvs pg p) m →
  let k := kern m in
  (∃ th, threads k !! running k = Some th) ∧
  (∀ t th, threads k !! t = Some th → status th = THREAD_RUNNING ↔ t = running k) ∧
  NoDup (ready_list k) ∧
  (∀ t, t ∈ ready_list k ↔ t ≠ idle ∧ ∃ th, threads k !! t = Some th ∧ status th = THREAD_READY) ∧
  StronglySorted (λ a b, priority_of k b <= priority_of k a) (ready_list k) ∧
  (∀ t, t ∈ blocked_list k → ∃ th, threads k !! t = Some th ∧ status th = THREAD_BLOCKED) ∧
  (∀ s x t, semas k !! s = Some x → t ∈ waiters x →
     (∃ th, threads k !! t = Some th ∧ status th = THREAD_BLOCKED) ∧ t ∉ blocked_list k ∧
     ∀ s' x', semas k !! s' = Some x' → t ∈ waiters x' → s' = s).
Proof.
  intros Hso Hc Hp H k. destruct (start_reachable _ _ _ _ _ _ _ _ _ _ Hso m Hc Hp H) as (W & G & Hg & _).
  destruct Hg as (Hw & Hs & Hr). fold k in Hw, Hs, Hr. pose proof (ro_idle _ _ _ _ _ Hr) as Hi. destruct Hw.
  destruct sw_ready as [Hnd Hq]. destruct sw_sleep as [_ Hqs]. split_and!; try done.
  - intros t th Ht. rewrite (sw_cur t th Ht). naive_solver.
  - intros t. rewrite Hq. split.
    + intros Hl. split; [intros ->; congruence|]. destruct (sw_where t) as (th & ? & Hst); [congruence|].
      rewrite Hl in Hst. eauto.
    + intros [Hni (th & Hth & Hst)]. destruct (sw_ready_in t th Hth Hst); [done|congruence].
  - unfold ready_sorted, list_compare_priority in Hs. clear - Hs. induction Hs as [|x xs Hs IH Hf]; constructor; [done|].
    eapply Forall_impl; [exact Hf|]. intros y Hy. by apply Z.ltb_ge in Hy.
  - intros t Ht. apply Hqs in Ht. destruct (sw_where t) as (th & ? & Hst); [congruence|]. rewrite Ht in Hst. eauto.
  - intros s x t Hx Ht. apply (sw_sema s x Hx) in Ht as Hl. split_and!.
    + destruct (sw_where t) as (th & ? & Hst); [congruence|]. rewrite Hl in Hst. eauto.
    + rewrite Hqs. congruence.
    + intros s' x' Hx' Ht'. apply (sw_sema s' x' Hx') in Ht'. congruence.
Qed.

(** A program for the examples: the main thread creates a thread that shares a lock
    with it. *)
Definition sample_code (f a : Z) : proc unit := do_call (CAcquire 5) ;; do_call (CRelease 5) ;; Ret tt.
Definition sample_main : proc unit :=
  do t := do_call (CCreate "peer" 31 100 0) in
  do_call (CAcquire 5) ;; do_call CYield ;; do_call (CRelease 5) ;; Ret tt.

Lemma sample_clients : (∀ f a, client (sample_code f a)) ∧ client sample_main.
Proof.
  split; [intros f a; unfold sample_code|unfold sample_main]; repeat (apply cl_call; intros ?); apply cl_ret.
Qed.

(** The idle thread is at the first page of the kernel pool. *)
Definition sample_pages : palloc_state :=
  set_pool false (mk_pool (mk_bitmap 4 [1]) 3222274048) sample_palloc.

Lemma sample_start : start_ok 3221282816 3222274048 sample_pages.
Proof.
  split; [|done|by vm_compute|done]. destruct sample_palloc_wf as [[? ? ? ?] Hu Hd].
  split; [split; simpl; try done|done|done]. split; [simpl; lia|done|by apply Forall_singleton].
Qed.

Definition sample_machine : machine :=
  start_machine 3221282816 3222274048 false false [TID_LOCK; POOL_LOCK; 5] [] [] sample_pages sample_main.

Lemma run_steps code n m m' : run code (replicate n false) m = Ok m' → rtc (step code) m m'.
Proof.
  revert m. induction n as [|n IH]; intros m H; cbn [replicate run] in H; [injection H as <-; apply rtc_refl|].
  apply rbind_inv in H as (m1 & E & H). eapply rtc_l; [by constructor|by apply IH].
Qed.

(** A state in which the new thread is ready. *)
Lemma scheduler_queues_witness :
  ∃ m peer, rtc (step sample_code) sample_machine m ∧ ready_list (kern m) = [peer] ∧ peer ≠ 3222274048 ∧
    (∃ th, threads (kern m) !! peer = Some th ∧ status th = THREAD_READY) ∧
    ∀ t th, threads (kern m) !! t = Some th → status th = THREAD_RUNNING ↔ t = running (kern m).
Proof.
  assert (H : match run sample_code (replicate 60 false) sample_machine with Ok m => ready_list (kern m) = [3222278144] | Fail _ => False end)
    by (vm_compute; reflexivity).
  destruct (run sample_code (replicate 60 false) sample_machine) as [m|f] eqn:E; [|destruct H].
  pose proof (run_steps _ _ _ _ E) as Hr.
  destruct (scheduler_queues 3221282816 3222274048 false false [TID_LOCK; POOL_LOCK; 5] [] [] sample_pages
    sample_main sample_code m sample_start (proj1 sample_clients) (proj2 sample_clients) Hr) as (_ & Hc & _ & Hq & _).
  exists m, 3222278144. split; [exact Hr|]. split; [exact H|]. split; [discriminate|]. split; [|exact Hc].
  apply (Hq 3222278144). rewrite H. by left.
Defined.

(** C2: mutual exclusion.  In every reachable state a step changes the [holder] of
    a lock only from null to the running thread (which has then passed the lock's
    semaphore) or from the running thread to null: no thread ever takes a lock that
    another one holds, and nobody but the holder gives it up; and while a lock has a
    holder its semaphore is zero. *)
Theorem lock_mutual_exclusion (main idle : Z) (mlfqs aging : bool) (locks : list Z) (sems : list (Z * Z))
    (cvs : list Z) (pg : palloc_state) (p : proc unit) (code : Z → Z → proc unit) (m m' : machine) :
  start_ok main idle pg → (∀ f a, client (code f a)) → client p →
  rtc (step code) (start_machine main idle mlfqs aging locks sems cvs pg p) m → step code m m' →
  holder_step (running (kern m)) (kern m) (kern m') ∧
  ∀ l h, holders (kern m') !! l = Some h →
    ∃ x, semas (kern m') !! LockSema l = Some x ∧ (value x = 0 ∨ value x = 1) ∧ (h ≠ NULL → value x = 0).
Proof.
  intros Hso Hc Hp H Hst. pose proof (start_reachable _ _ _ _ _ _ _ _ _ _ Hso m Hc Hp H) as Hm.
  destruct (step_minv _ _ code Hc m m' Hm Hst) as [(W & G & (_ & _ & Hr) & _) Hh]. split; [done|].
  intros l h Hl. destruct (ro_lock _ _ _ _ _ Hr l h Hl) as (x & Hx & Hok). exists x. split; [done|].
  unfold lock_ok in Hok. destruct (G !! TTransit l), (G !! THeld l); naive_solver.
Qed.

Lemma lock_mutual_exclusion_witness :
  ∃ m', step sample_code sample_machine m' ∧ holder_step 3221282816 (kern sample_machine) (kern m').
Proof.
  assert (Hs : ∃ m', run1 sample_code sample_machine = Ok m') by (eexists; reflexivity).
  destruct Hs as [m' Hm']. exists m'. split; [by constructor|].
  destruct (lock_mutual_exclusion 3221282816 3222274048 false false [TID_LOCK; POOL_LOCK; 5] [] [] sample_pages
    sample_main sample_code sample_machine m' sample_start (proj1 sample_clients) (proj2 sample_clients)
    (rtc_refl _ _) ltac:(by constructor)) as [Hh _].
  exact Hh.
Defined.

(** C3: whenever a thread yields (or is made to yield at the end of its time slice),
    the thread that runs next has a priority at least that of every thread left in
    the ready list. *)
Theorem yield_runs_highest (main idle : Z) (mlfqs aging : bool) (locks : list Z) (sems : list (Z * Z))
    (cvs : list Z) (pg : palloc_state) (p : proc unit) (code : Z → Z → proc unit) (m : machine) (b : bool) (k' : kernel) :
  start_ok main idle pg → (∀ f a, client (code f a)) → client p →
  rtc (step code) (start_machine main idle mlfqs aging locks sems cvs pg p) m →
  yield_section (kern m) = Ok (b, k') →
  ∀ t, t ∈ ready_list k' → priority_of k' t <= priority_of k' (running k').
Proof.
  intros Hso Hc Hp H Hy. destruct (start_reachable _ _ _ _ _ _ _ _ _ _ Hso m Hc Hp H) as (W & G & Hg & _).
  by destruct (yield_section_ginv _ _ _ _ _ _ _ Hg Hy) as [_ Ht].
Qed.

Lemma yield_runs_highest_witness :
  ∃ b k', yield_section (kern sample_machine) = Ok (b, k') ∧
    ∀ t, t ∈ ready_list k' → priority_of k' t <= priority_of k' (running k').
Proof.
  assert (Hs : ∃ b k', yield_section (kern sample_machine) = Ok (b, k')) by (do 2 eexists; vm_compute; reflexivity).
  destruct Hs as (b & k' & Hy). exists b, k'. split; [exact Hy|].
  exact (yield_runs_highest 3221282816 3222274048 false false [TID_LOCK; POOL_LOCK; 5] [] [] sample_pages
    sample_main sample_code sample_machine b k' sample_start (proj1 sample_clients) (proj2 sample_clients)
    (rtc_refl _ _) Hy).
Defined.

(** ** Start-up, run *)

Definition boot_code (f a : Z) : proc unit :=
  if f =? IDLE_FN then idle a else if f =? 101 then sema_test_helper a else Ret tt.

(** [main]: initialize threads and the page allocator's lock, start the scheduler, go on
    with [p]. *)
Definition boot_main (p : proc unit) : proc unit :=
  thread_init ;; act (lock_init POOL_LOCK) ;; thread_start IDLE_FN IDLE_STARTED ;; p.

Definition boot_machine (p : proc unit) : machine :=
  mk_machine (boot_kernel 3221282816 false false sample_palloc) {[ 3221282816 := boot_main p ]}.

(** The page allocator after the idle thread's page was taken. *)
Definition booted_pages : palloc_state :=
  match run boot_code (replicate 56 false) (boot_machine (Ret tt)) with Ok m => pages (kern m) | Fail _ => sample_palloc end.

(** Start-up reaches the state the theorems begin with. *)
Lemma boot_reaches_start p :
  run boot_code (replicate 56 false) (boot_machine p) =
    Ok (start_machine 3221282816 3222274048 false false [TID_LOCK; POOL_LOCK] [(IDLE_STARTED, 0)] [] booted_pages p).
Proof. reflexivity. Qed.

Lemma booted_start : start_ok 3221282816 3222274048 booted_pages.
Proof.
  split; [|by vm_compute..]. destruct sample_start as [[[? ? ? ?] Hu Hd] _ _ _].
  split; [split; by vm_compute|exact Hu|exact Hd].
Qed.

Definition returned (m : machine) : bool :=
  match procs m !! running (kern m) with Some (Ret _) => true | _ => false end.

(** The semaphore self-test, twenty hand-offs between two threads of equal priority, comes to
    its end back in the main thread, with both semaphores and all locks free. *)
Example self_test_completes :
  match run boot_code (replicate 600 false) (boot_machine (sema_self_test 101 300)) with
  | Ok m => returned m = true ∧ running (kern m) = 3221282816 ∧ intr_on (kern m) = true ∧
            (value <$> semas (kern m) !! Sema 300) = Some 0 ∧ (value <$> semas (kern m) !! Sema 320) = Some 0 ∧
            (value <$> semas (kern m) !! LockSema TID_LOCK) = Some 1 ∧
            (value <$> semas (kern m) !! LockSema POOL_LOCK) = Some 1 ∧ next_tid (kern m) = 4
  | Fail _ => False
  end.
Proof. vm_compute. repeat split. Qed.
