(* ===== verification/SchedTick.v ===== *)
(** * Timer interrupts between the threads (src/devices/timer.c, src/threads/thread.c)

    A timer interrupt that is taken in any reachable state wakes the sleepers whose time has
    come.  Threads run outside external interrupts: no operation of theirs touches
    [in_external_intr]. *)

From S2P Require Import Prelude ListSpec ListSort Bitmap Palloc FixedPoint Threads Synch SchedInv SchedOps SchedSafe Scheduler.
Local Open Scope Z_scope.

(** ** Threads run outside interrupts *)

Notation Quiet := (Fixes in_external_intr).

Inductive quiet : ∀ A : Type, proc A → Prop :=
| quiet_ret A (a : A) : quiet A (Ret a)
| quiet_act A B (m : K B) (k : B → proc A) : Quiet m → (∀ b, quiet A (k b)) → quiet A (Act m k)
| quiet_iter A B (body : proc (option B)) (k : B → proc A) : quiet _ body → (∀ b, quiet A (k b)) → quiet A (Iter body k).
Arguments quiet {A} p.

Lemma quiet_pbind {A B} (p : proc A) (f : A → proc B) : quiet p → (∀ a, quiet (f a)) → quiet (pbind p f).
Proof. intros Hp. revert B f. induction Hp; intros B' f Hf; cbn [pbind]; [done|by constructor; auto..]. Qed.

Lemma quiet_one {A} (m : K A) : Quiet m → quiet (act m).
Proof. intros H. constructor; [done|]. intros b. constructor. Qed.

Ltac quiet_tac := repeat first
  [ apply quiet_ret | apply quiet_one; apply _ | apply quiet_pbind; [|intros ?] | apply quiet_iter; [|intros ?] | apply quiet_act; [apply _|intros ?] | case_match
  | match goal with |- quiet ?p => let h := head_of p in progress unfold h end ].

Lemma quiet_call {A} (c : call A) : quiet (do_call c).
Proof. destruct c; quiet_tac. Qed.

Lemma quiet_client p : client p → quiet p.
Proof.
  induction 1; [constructor|apply quiet_pbind; [apply quiet_call|done]|by apply quiet_pbind|].
  apply quiet_iter; [|intros; constructor]. apply quiet_pbind; [done|]. intros _. constructor.
Qed.

Lemma quiet_step {A} (p p' : proc A) k k' : quiet p → proc_step p k = Ok (p', k') → quiet p' ∧ in_external_intr k' = in_external_intr k.
Proof.
  intros Hq. revert p' k'. destruct Hq as [A a|A B m f Hm Hf|A B body f Hb Hf]; intros p' k' H.
  - injection H as <- <-. split; [constructor|done].
  - apply bind_inv in H as (b & k1 & E & H). injection H as <- <-. split; [apply Hf|exact (Hm _ _ _ E)].
  - injection H as <- <-. split; [|done]. apply quiet_pbind; [done|]. intros [b|]; [apply Hf|by constructor].
Qed.

Definition calm (m : machine) : Prop := in_external_intr (kern m) = false ∧ ∀ t p, procs m !! t = Some p → quiet p.

Section calm.
Context (code : Z → Z → proc unit) (code_ok : ∀ f a, client (code f a)).

Lemma calm_next m p : calm m → next_proc code m = Ok p → quiet p.
Proof.
  intros [_ Hp] H. unfold next_proc in H. destruct (procs m !! running (kern m)) eqn:E; [injection H as <-; eauto|].
  destruct (threads (kern m) !! running (kern m)); [|done]. injection H as <-. unfold kernel_thread.
  apply quiet_pbind; [quiet_tac|]. intros _. apply quiet_pbind; [quiet_tac|]. intros _.
  apply quiet_pbind; [by apply quiet_client|]. intros _. quiet_tac.
Qed.

Lemma calm_save m k t p : calm m → in_external_intr k = false → quiet p → calm (save m k t p).
Proof.
  intros [_ Hp] Hx Hq. split; [done|]. intros t' p' [Hl _]%map_lookup_filter_Some. destruct (decide (t' = t)) as [->|].
  - rewrite lookup_insert_eq in Hl. by injection Hl as <-.
  - rewrite lookup_insert_ne in Hl by done. eauto.
Qed.

Lemma timer_leaves k b k' : intr_handler_timer k = Ok (b, k') → in_external_intr k' = false.
Proof.
  unfold intr_handler_timer. intros H. do 7 (apply bind_inv in H as (? & ? & ? & H)).
  apply bind_inv in H as (? & k1 & E & H). injection E as _ <-. by injection H as _ <-.
Qed.

Lemma calm_step m m' : calm m → step code m m' → calm m'.
Proof.
  intros Hc Hs. destruct Hs as [m m' H|m m' _ H]; apply rbind_inv in H as (p & Hn & H); pose proof (calm_next _ _ Hc Hn) as Hq.
  - apply rbind_inv in H as ([p' k'] & Hst & H). injection H as <-. destruct (quiet_step _ _ _ _ Hq Hst) as [Hq' Hx].
    apply calm_save; [done|cbn; rewrite Hx; apply Hc|done].
  - apply rbind_inv in H as ([b k'] & Hst & H). injection H as <-. apply calm_save; [done|by eapply timer_leaves|].
    assert (Hb : quiet (act (modify (set_intr_on true)) ;; p)) by (apply quiet_pbind; [quiet_tac|done]).
    assert (Hy : quiet (thread_yield ;; act (modify (set_intr_on true)) ;; p)) by (apply quiet_pbind; [quiet_tac|done]).
    destruct b; [exact Hy|exact Hb].
Qed.

Lemma calm_reachable m m' : calm m → rtc (step code) m m' → calm m'.
Proof. intros Hc H. induction H as [|m m1 m2 Hs _ IH]; [done|]. apply IH. by eapply calm_step. Qed.
End calm.

Lemma calm_start main idle mlfqs aging locks sems cvs pg p : client p → calm (start_machine main idle mlfqs aging locks sems cvs pg p).
Proof.
  intros Hp. split; [done|]. intros t q Hl. cbn in Hl. apply lookup_insert_Some in Hl as [[_ <-]|[_ Hl]]; [by apply quiet_client|].
  apply lookup_singleton_Some in Hl as [_ <-]. quiet_tac.
Qed.

(** ** One tick *)

Section tick.
Context (kbase idle0 : Z).
Notation ginv := (ginv kbase idle0).

Lemma thread_current_run k W G : ginv k W G → thread_current k = Ok (running k, k).
Proof.
  intros Hg. destruct (running_facts _ _ _ _ _ Hg) as (th & Hth & Hs & _). unfold thread_current.
  unfold running_thread, gets. erewrite bind_ok by reflexivity. rewrite (bind_ok _ _ _ _ _ (is_thread_ok k W _ _ th (proj1 Hg) Hth)).
  unfold assert at 1. erewrite bind_ok by reflexivity. rewrite (bind_ok _ _ k th k) by (unfold get_thread; by rewrite Hth).
  by rewrite bool_decide_eq_true_2.
Qed.

(** The sleepers and the clock, which the accounting around [block_check] leaves alone. *)
Definition same_sleepers (k k' : kernel) : Prop :=
  blocked_list k' = blocked_list k ∧ ready_list k' = ready_list k ∧ threads k' = threads k ∧ ticks k' = ticks k ∧
  thread_prior_aging k' = thread_prior_aging k ∧ thread_mlfqs k' = thread_mlfqs k.

(** The part of [thread_tick] after [block_check]. *)
Definition after_check : K unit :=
  let* k := gets id in
  if thread_prior_aging k || thread_mlfqs k then
    thread_aging ;;;
    let* now := timer_ticks in
    (if Z.rem now TIMER_FREQ =? 0 then calculate_load_avg ;;; calculate_recent_cpu else ret tt) ;;;
    let* now := timer_ticks in
    if Z.rem now 4 =? 0 then calculate_priority else ret tt
  else ret tt.

Lemma thread_tick_prefix k W G : ginv k W G → intr_on k = false → in_external_intr k = true →
  ∃ k2, thread_tick k = (block_check ;;; after_check) k2 ∧ ginv k2 W G ∧ intr_on k2 = false ∧ in_external_intr k2 = true ∧ same_sleepers k k2.
Proof.
  intros Hg Hon Hx. unfold thread_tick. rewrite (bind_ok _ _ _ _ _ (thread_current_run k W G Hg)).
  unfold gets at 1. erewrite bind_ok by reflexivity.
  set (k1 := if running k =? idle_thread k then set_idle_ticks (s64 (idle_ticks k + 1)) k else set_kernel_ticks (s64 (kernel_ticks k + 1)) k).
  rewrite (bind_ok _ _ k tt k1) by (unfold k1; by destruct (_ =? _)).
  set (k2 := set_thread_ticks (u32 (thread_ticks k1 + 1)) k1). rewrite (bind_ok _ _ k1 tt k2) by done.
  unfold gets at 1. erewrite bind_ok by reflexivity.
  assert (Hk2 : ginv k2 W G ∧ intr_on k2 = false ∧ in_external_intr k2 = true ∧ same_sleepers k k2).
  { unfold k2, k1. destruct (_ =? _); (split; [by eapply ginv_ext|done]). }
  destruct Hk2 as (Hg2 & Hon2 & Hx2 & Hs2). destruct (TIME_SLICE <=? thread_ticks k2).
  - exists (set_yield_on_return true k2). split; [|split; [by eapply ginv_ext|done]].
    rewrite (bind_ok _ _ k2 tt (set_yield_on_return true k2)); [done|]. unfold intr_yield_on_return, intr_context, gets, bind, assert. by rewrite Hx2.
  - exists k2. split; [by erewrite bind_ok by reflexivity|done].
Qed.

(** The accounting after [block_check] leaves the sleepers and the set of ready threads alone. *)
Definition ready_set (k : kernel) : gset Z := list_to_set (ready_list k).

#[local] Instance sort_fixes_ready :
  Fixes ready_set (modify (λ k, set_ready_list (list_sort_fn (list_compare_priority k) (ready_list k)) k)).
Proof.
  apply fixes_modify. intros k. unfold ready_set. cbn. apply list_to_set_perm_L.
  apply (list_sort_fn_spec (list_compare_priority k) (compare_asym k)).
Qed.

Lemma after_check_fixes {X} (part : kernel → X) : Fixes part thread_aging → Fixes part calculate_load_avg → Fixes part calculate_recent_cpu →
  Fixes part calculate_priority → (∀ b k, part (set_intr_on b k) = part k) → Fixes part after_check.
Proof.
  intros ???? Hi. assert (Ht : Fixes part timer_ticks) by (intros k n k' H'; by apply timer_ticks_inv in H' as [_ ->]). unfold after_check. apply _.
Qed.

Lemma after_check_run k u k' : after_check k = Ok (u, k') →
  blocked_list k' = blocked_list k ∧ ready_set k' = ready_set k ∧ ticks k' = ticks k.
Proof.
  intros H. pose proof (fixes_foreach blocked_list). pose proof (fixes_foreach ready_set). pose proof (fixes_foreach ticks).
  split_and!.
  - refine (after_check_fixes blocked_list _ _ _ _ _ _ _ _ H); try apply _; try done; unfold calculate_recent_cpu, calculate_priority; apply _.
  - refine (after_check_fixes ready_set _ _ _ _ _ _ _ _ H); try apply _; try done; unfold calculate_recent_cpu, calculate_priority; apply _.
  - refine (after_check_fixes ticks _ _ _ _ _ _ _ _ H); try apply _; try done; unfold calculate_recent_cpu, calculate_priority; apply _.
Qed.

(** What follows [thread_tick] in the handler. *)
Definition leave_interrupt : K bool :=
  assert_intr_off ;;; (let* ctx := intr_context in assert ctx) ;;; modify (set_in_external_intr false) ;;; gets yield_on_return.

Lemma fixes_check_flags ts : Fixes (λ k, (thread_prior_aging k, thread_mlfqs k)) (block_check_loop ts).
Proof. induction ts; cbn [block_check_loop]; apply _. Qed.

(** The handler up to the end of [block_check]. *)
Lemma timer_wakes k W G : ginv k W G → intr_on k = false → in_external_intr k = false →
  ∃ k3, intr_handler_timer k = (after_check ;;; leave_interrupt) k3 ∧ intr_on k3 = false ∧ in_external_intr k3 = true ∧
    ticks k3 = s64 (ticks k + 1) ∧ thread_prior_aging k3 = thread_prior_aging k ∧ thread_mlfqs k3 = thread_mlfqs k ∧
    (∀ t, t ∈ blocked_list k3 ↔ t ∈ blocked_list k ∧ u64 (ticks k3) < wake_of k t) ∧
    (∀ t, t ∈ ready_list k3 ↔ t ∈ ready_list k ∨ (t ∈ blocked_list k ∧ wake_of k t <= u64 (ticks k3))).
Proof.
  intros Hg Hon Hx. unfold intr_handler_timer. rewrite (bind_ok _ _ _ _ _ (assert_intr_off_run k Hon)).
  rewrite (bind_ok _ _ k tt k) by (unfold assert_not_intr, intr_context, gets, bind, assert; by rewrite Hx).
  unfold modify at 1. erewrite bind_ok by reflexivity. unfold modify at 1. erewrite bind_ok by reflexivity.
  set (k0 := set_ticks (s64 (ticks k + 1)) (set_yield_on_return false (set_in_external_intr true k))).
  destruct (thread_tick_prefix k0 W G) as (k2 & E & Hg2 & Hon2 & Hx2 & Hb2 & Hr2 & Ht2 & Hc2 & Ha2 & Hm2); [by eapply ginv_ext|done|done|].
  destruct (block_check_run _ _ k2 W G Hg2 Hon2) as (k3 & W3 & E3 & _ & Hon3 & Hx3 & Hc3 & Hb3 & Hr3).
  assert (Hw : ∀ t, wake_of k2 t = wake_of k t) by (intros t; unfold wake_of; by rewrite Ht2).
  assert (Hf : thread_prior_aging k3 = thread_prior_aging k2 ∧ thread_mlfqs k3 = thread_mlfqs k2).
  { assert (Hfix : Fixes (λ k, (thread_prior_aging k, thread_mlfqs k)) block_check).
    { unfold block_check. pose proof fixes_check_flags. apply _. }
    specialize (Hfix _ _ _ E3). by injection Hfix. }
  exists k3. split_and!; [|done|congruence|rewrite Hc3, Hc2; done|destruct Hf as [-> _]; exact Ha2|destruct Hf as [_ ->]; exact Hm2| |].
  - assert (Ht : timer_interrupt (set_yield_on_return false (set_in_external_intr true k)) = after_check k3).
    { unfold timer_interrupt, modify at 1. erewrite bind_ok by reflexivity. etransitivity; [exact E|]. by rewrite (bind_ok _ _ _ _ _ E3). }
    unfold bind at 1. rewrite Ht. reflexivity.
  - intros t. rewrite Hb3, Hb2, Hw, Hc3. done.
  - intros t. rewrite Hr3, Hr2, Hb2, Hw, Hc3. done.
Qed.

Lemma leave_run k : intr_on k = false → in_external_intr k = true → leave_interrupt k = Ok (yield_on_return k, set_in_external_intr false k).
Proof.
  intros Hon Hx. unfold leave_interrupt. rewrite (bind_ok _ _ _ _ _ (assert_intr_off_run k Hon)).
  unfold intr_context, gets, bind, assert, modify. rewrite Hx. reflexivity.
Qed.

Lemma leave_inv k b k' : leave_interrupt k = Ok (b, k') → k' = set_in_external_intr false k.
Proof.
  unfold leave_interrupt. intros H. apply bind_inv in H as (? & ? & E & H). apply assert_intr_off_inv in E as [-> _].
  apply bind_inv in H as (? & ? & E & H). unfold intr_context, gets in E. erewrite bind_ok in E by reflexivity. apply assert_inv in E as [_ ->].
  by injection H as _ <-.
Qed.
End tick.

(** ** Every tick *)

(** C4: a timer interrupt in any state the threads can reach, under every interleaving and for
    every program, advances the clock by one tick, takes out of the list of sleepers exactly
    the threads whose wake-up time is not later than the new tick, and adds exactly them to
    the ready list.  Without aging and the multi-level queue the interrupt never fails; with
    them this is what it does whenever it does not stop in the arithmetic that follows. *)
Theorem sleepers_wake_on_time (main idle : Z) (mlfqs aging : bool) (locks : list Z) (sems : list (Z * Z))
    (cvs : list Z) (pg : palloc_state) (p : proc unit) (code : Z → Z → proc unit) (m : machine) :
  start_ok main idle pg → (∀ f a, client (code f a)) → client p →
  rtc (step code) (start_machine main idle mlfqs aging locks sems cvs pg p) m →
  let k := set_intr_on false (kern m) in
  let now := u64 (s64 (ticks k + 1)) in
  (∀ b k', intr_handler_timer k = Ok (b, k') →
     ticks k' = s64 (ticks k + 1) ∧
     (∀ t, t ∈ blocked_list k' ↔ t ∈ blocked_list k ∧ now < wake_of k t) ∧
     (∀ t, t ∈ ready_list k' ↔ t ∈ ready_list k ∨ (t ∈ blocked_list k ∧ wake_of k t <= now))) ∧
  (thread_prior_aging k || thread_mlfqs k = false → ∃ b k', intr_handler_timer k = Ok (b, k')).
Proof.
  intros Hso Hc Hp H k now. destruct (start_reachable _ _ _ _ _ _ _ _ _ _ Hso m Hc Hp H) as (W & G & Hg & _).
  destruct (calm_reachable code Hc _ m (calm_start main idle mlfqs aging locks sems cvs pg p Hp) H) as [Hx _].
  destruct (timer_wakes _ _ k W G (ginv_intr _ _ _ _ _ false Hg) eq_refl Hx) as (k3 & E & Hon3 & Hx3 & Ht3 & Ha3 & Hm3 & Hb3 & Hr3).
  rewrite Ht3 in Hb3, Hr3. split.
  - intros b k' Hk'. rewrite E in Hk'. apply bind_inv in Hk' as (u & k4 & Ea & El). apply leave_inv in El as ->.
    apply after_check_run in Ea as (Eb & Er & Et). cbn. split; [by rewrite Et|]. split; [intros t; rewrite Eb; apply Hb3|].
    intros t. transitivity (t ∈ ready_list k3); [|apply Hr3]. unfold ready_set in Er. rewrite <- !(elem_of_list_to_set (C := gset Z)). by rewrite Er.
  - intros Hno. rewrite E. exists (yield_on_return k3), (set_in_external_intr false k3).
    rewrite (bind_ok _ _ k3 tt k3); [by apply leave_run|]. unfold after_check, gets. erewrite bind_ok by reflexivity. unfold id. by rewrite Ha3, Hm3, Hno.
Qed.

(** The main thread sleeps for one tick. *)
Definition sleepy_main : proc unit := do_call (CSleep 1) ;; Ret tt.
Definition sleepy_code (f a : Z) : proc unit := Ret tt.
Definition sleepy_machine : machine := start_machine 3221282816 3222274048 false false [TID_LOCK; POOL_LOCK] [(IDLE_STARTED, 0)] [] booted_pages sleepy_main.

(** After a few steps the main thread sleeps; the next interrupt wakes it. *)
Lemma sleepers_wake_on_time_witness : ∃ m b k', rtc (step sleepy_code) sleepy_machine m ∧ blocked_list (kern m) = [3221282816] ∧
  intr_handler_timer (set_intr_on false (kern m)) = Ok (b, k') ∧ 3221282816 ∈ ready_list k' ∧ 3221282816 ∉ blocked_list k'.
Proof.
  assert (H : match run sleepy_code (replicate 8 false) sleepy_machine with
    | Ok m => blocked_list (kern m) = [3221282816] ∧ wake_of (set_intr_on false (kern m)) 3221282816 = 1 ∧ ticks (kern m) = 0 ∧
              thread_prior_aging (kern m) || thread_mlfqs (kern m) = false
    | Fail _ => False end) by (vm_compute; repeat split).
  destruct (run sleepy_code (replicate 8 false) sleepy_machine) as [m|f] eqn:E; [|destruct H].
  destruct H as (Hb & Hw & Ht & Hf). pose proof (run_steps _ _ _ _ E) as Hr.
  destruct (sleepers_wake_on_time 3221282816 3222274048 false false [TID_LOCK; POOL_LOCK] [(IDLE_STARTED, 0)] [] booted_pages
    sleepy_main sleepy_code m booted_start ltac:(intros; constructor) ltac:(apply cl_call; intros; constructor) Hr) as [Hall Hrun].
  destruct (Hrun Hf) as (b & k' & E'). exists m, b, k'. destruct (Hall b k' E') as (_ & Hbl & Hrd). cbn [ticks set_intr_on blocked_list] in *.
  rewrite Ht, Hb in *. split; [exact Hr|]. split; [reflexivity|]. split; [exact E'|]. split.
  - apply Hrd. right. rewrite Hw. split; [by left|]. vm_compute. discriminate.
  - intros Hin. apply Hbl in Hin as [_ Hlt]. rewrite Hw in Hlt. vm_compute in Hlt. discriminate.
Defined.
