(* ===== verification/Inode.v ===== *)
(** * The file system device, inodes and open files (src/filesys/inode.c, file.c)

    The state of the file system: the sectors of its device, the in-memory inodes
    and files by address, the list of open inodes, and the free map.  [malloc]
    answers from a script: [true] for an allocation that succeeds, [false] for one
    that fails, and success once the script is used up; addresses are fresh. *)

From S2P Require Import Prelude Bitmap Palloc.
Local Open Scope Z_scope.

Definition BLOCK_SECTOR_SIZE : Z := 512.
Definition INODE_MAGIC : Z := 1229868868.

Record inode_disk := mk_inode_disk { start : Z; length_ : Z; magic_ : Z }.
Record inode := mk_inode { sector : Z; open_cnt : Z; removed : bool; deny_write_cnt : Z; data : inode_disk }.
Record file := mk_file { f_inode : Z; f_pos : Z; f_deny_write : bool }.

Record fsys := mk_fsys {
  disk : gmap Z (list Z);         (* the 512 bytes of each sector of the device *)
  dev_size : Z;
  open_inodes : list Z;
  inodes : gmap Z inode;
  files : gmap Z file;
  free_map : bitmap;
  free_map_file : Z;
  mallocs : list bool;
  next_addr : Z
}.

Definition set_disk x s := mk_fsys x (dev_size s) (open_inodes s) (inodes s) (files s) (free_map s) (free_map_file s) (mallocs s) (next_addr s).
Definition set_open_inodes x s := mk_fsys (disk s) (dev_size s) x (inodes s) (files s) (free_map s) (free_map_file s) (mallocs s) (next_addr s).
Definition set_inodes x s := mk_fsys (disk s) (dev_size s) (open_inodes s) x (files s) (free_map s) (free_map_file s) (mallocs s) (next_addr s).
Definition set_files x s := mk_fsys (disk s) (dev_size s) (open_inodes s) (inodes s) x (free_map s) (free_map_file s) (mallocs s) (next_addr s).
Definition set_free_map x s := mk_fsys (disk s) (dev_size s) (open_inodes s) (inodes s) (files s) x (free_map_file s) (mallocs s) (next_addr s).
Definition set_free_map_file x s := mk_fsys (disk s) (dev_size s) (open_inodes s) (inodes s) (files s) (free_map s) x (mallocs s) (next_addr s).
Definition set_mallocs x a s := mk_fsys (disk s) (dev_size s) (open_inodes s) (inodes s) (files s) (free_map s) (free_map_file s) x a.

Notation F := (M fsys).

Definition malloc : F Z := λ s,
  match mallocs s with
  | false :: r => Ok (NULL, set_mallocs r (next_addr s) s)
  | true :: r => Ok (next_addr s, set_mallocs r (next_addr s + 1) s)
  | [] => Ok (next_addr s, set_mallocs [] (next_addr s + 1) s)
  end.

(** ** The device: [block_read] and [block_write] on [fs_device] *)

Definition check_sector (sec : Z) : F unit := λ s, if sec <? dev_size s then Ok (tt, s) else Fail Panicked.

Definition fs_read (sec : Z) : F (list Z) :=
  check_sector sec ;;; (λ s, need (disk s !! sec) s).
Definition fs_write (sec : Z) (buf : list Z) : F unit :=
  check_sector sec ;;; modify (λ s, set_disk (<[sec := buf]> (disk s)) s).

(** ** The on-disk inode as the bytes of a sector, and back *)

Definition inode_disk_bytes (d : inode_disk) : list Z :=
  le32 (start d) ++ le32 (u32 (length_ d)) ++ le32 (magic_ d) ++ replicate 500 0.
Definition inode_disk_of (bs : list Z) : inode_disk :=
  mk_inode_disk (from_le32 bs) (s32 (from_le32 (drop 4 bs))) (from_le32 (drop 8 bs)).

(** ** Inodes *)

Definition bytes_to_sectors (size : Z) : Z := u32 (Z.quot (s32 (s32 (size + 512) - 1)) 512).

Definition byte_to_sector (i : inode) (pos : Z) : Z :=
  if pos <? length_ (data i) then u32 (start (data i) + Z.quot pos BLOCK_SECTOR_SIZE) else u32 (-1).

Definition get_inode (a : Z) : F inode := λ s, need (inodes s !! a) s.
Definition put_inode (a : Z) (i : inode) : F unit := modify (λ s, set_inodes (<[a := i]> (inodes s)) s).

Definition inode_init : F unit := modify (set_open_inodes []).

Definition inode_reopen (a : Z) : F Z :=
  if a =? NULL then ret a
  else
    let* i := get_inode a in
    put_inode a (mk_inode (sector i) (s32 (open_cnt i + 1)) (removed i) (deny_write_cnt i) (data i)) ;;; ret a.

(** The search through [open_inodes]. *)
Fixpoint find_open (sec : Z) (l : list Z) : F (option Z) :=
  match l with
  | [] => ret None
  | a :: l' => let* i := get_inode a in if sector i =? sec then ret (Some a) else find_open sec l'
  end.

Definition inode_open (sec : Z) : F Z :=
  let* l := gets open_inodes in
  let* o := find_open sec l in
  match o with
  | Some a => inode_reopen a
  | None =>
      let* a := malloc in
      if a =? NULL then ret NULL
      else
        modify (λ s, set_open_inodes (a :: open_inodes s) s) ;;;
        let* bytes := fs_read sec in
        put_inode a (mk_inode sec 1 false 0 (inode_disk_of bytes)) ;;; ret a
  end.

Definition inode_get_inumber (a : Z) : F Z := let* i := get_inode a in ret (sector i).

Definition inode_remove (a : Z) : F unit :=
  assert (negb (a =? NULL)) ;;;
  let* i := get_inode a in
  put_inode a (mk_inode (sector i) (open_cnt i) true (deny_write_cnt i) (data i)).

Definition inode_length (i : inode) : Z := length_ (data i).

(** The sizes computed in each round of the transfer loops. *)
Definition sector_ofs (offset : Z) : Z := Z.rem offset BLOCK_SECTOR_SIZE.
Definition chunk (i : inode) (size offset : Z) : Z :=
  let inode_left := s32 (inode_length i - offset) in
  let sector_left := BLOCK_SECTOR_SIZE - sector_ofs offset in
  let min_left := if inode_left <? sector_left then inode_left else sector_left in
  if size <? min_left then size else min_left.

(** [bounce] says whether the bounce buffer has been allocated. *)
Definition get_bounce (bounce : bool) : F bool :=
  if bounce then ret true else let* b := malloc in ret (negb (b =? NULL)).

(** [inode_read_at] returns the bytes it put in the buffer. *)
Fixpoint read_loop (fuel : nat) (i : inode) (size offset : Z) (bounce : bool) : F (list Z) :=
  match fuel with
  | O => fail NoFuel
  | S fuel =>
      if size <=? 0 then ret []
      else
        let sector_idx := byte_to_sector i offset in
        let chunk_size := chunk i size offset in
        if chunk_size <=? 0 then ret []
        else
          let rest bounce := read_loop fuel i (size - chunk_size) (s32 (offset + chunk_size)) bounce in
          if (sector_ofs offset =? 0) && (chunk_size =? BLOCK_SECTOR_SIZE) then
            let* bytes := fs_read sector_idx in
            let* more := rest bounce in ret (bytes ++ more)
          else
            let* ok := get_bounce bounce in
            if ok then
              let* bytes := fs_read sector_idx in
              (if sector_ofs offset <? 0 then fail Undef else ret tt) ;;;
              let* more := rest true in
              ret (take (Z.to_nat chunk_size) (drop (Z.to_nat (sector_ofs offset)) bytes) ++ more)
            else ret []
  end.

Definition inode_read_at (a size offset : Z) : F (list Z) :=
  let* i := get_inode a in read_loop (S (Z.to_nat size)) i size offset false.

(** [memcpy (dst + ofs, src, n)] *)
Definition blit (dst : list Z) (ofs n : Z) (src : list Z) : list Z :=
  take (Z.to_nat ofs) dst ++ take (Z.to_nat n) src ++ drop (Z.to_nat (ofs + n)) dst.

(** [inode_write_at]: [buf] is what is left of the caller's buffer. *)
Fixpoint write_loop (fuel : nat) (i : inode) (buf : list Z) (size offset : Z) (bounce : bool) : F Z :=
  match fuel with
  | O => fail NoFuel
  | S fuel =>
      if size <=? 0 then ret 0
      else
        let sector_idx := byte_to_sector i offset in
        let sector_left := BLOCK_SECTOR_SIZE - sector_ofs offset in
        let chunk_size := chunk i size offset in
        if chunk_size <=? 0 then ret 0
        else
          let rest bounce :=
            let* n := write_loop fuel i (drop (Z.to_nat chunk_size) buf) (size - chunk_size)
                        (s32 (offset + chunk_size)) bounce in
            ret (chunk_size + n) in
          if (sector_ofs offset =? 0) && (chunk_size =? BLOCK_SECTOR_SIZE) then
            fs_write sector_idx (take 512 buf) ;;; rest bounce
          else
            let* ok := get_bounce bounce in
            if ok then
              (if sector_ofs offset <? 0 then fail Undef else ret tt) ;;;
              let* old := (if (0 <? sector_ofs offset) || (chunk_size <? sector_left)
                           then fs_read sector_idx else ret (replicate 512 0)) in
              fs_write sector_idx (blit old (sector_ofs offset) chunk_size buf) ;;; rest true
            else ret 0
  end.

Definition inode_write_at (a : Z) (buf : list Z) (size offset : Z) : F Z :=
  let* i := get_inode a in
  if negb (deny_write_cnt i =? 0) then ret 0
  else write_loop (S (Z.to_nat size)) i buf size offset false.

Definition inode_deny_write (a : Z) : F unit :=
  let* i := get_inode a in
  let n := s32 (deny_write_cnt i + 1) in
  put_inode a (mk_inode (sector i) (open_cnt i) (removed i) n (data i)) ;;;
  assert (n <=? open_cnt i).

Definition inode_allow_write (a : Z) : F unit :=
  let* i := get_inode a in
  assert (0 <? deny_write_cnt i) ;;;
  assert (deny_write_cnt i <=? open_cnt i) ;;;
  put_inode a (mk_inode (sector i) (open_cnt i) (removed i) (deny_write_cnt i - 1) (data i)).

(** ** The bytes of a file *)

(** Byte [pos] of the data that starts at sector [st]. *)
Definition byte_at (d : gmap Z (list Z)) (st pos : Z) : option Z :=
  d !! (st + pos / 512) ≫= λ bytes, bytes !! Z.to_nat (pos mod 512).

(** The inode's sectors are on the device. *)
Record inode_ok (s : fsys) (i : inode) : Prop := {
  io_length : 0 <= length_ (data i) < 2 ^ 31;
  io_start : 0 <= start (data i);
  io_end : start (data i) + (length_ (data i) + 511) / 512 <= dev_size s;
  io_dev : dev_size s <= 2 ^ 32 - 1;
  io_sectors : ∀ sec, start (data i) <= sec < start (data i) + (length_ (data i) + 511) / 512 →
                 ∃ bytes, disk s !! sec = Some bytes ∧ length bytes = 512%nat
}.

(** How many bytes a transfer of [size] bytes at [offset] moves. *)
Definition moved (i : inode) (size offset : Z) : Z := Z.max 0 (Z.min size (length_ (data i) - offset)).

Lemma chunk_spec i size offset :
  0 <= length_ (data i) < 2 ^ 31 → 0 <= offset < 2 ^ 31 → 0 < size →
  (length_ (data i) <= offset ∧ chunk i size offset <= 0) ∨
  (offset < length_ (data i) ∧ 0 < chunk i size offset ∧
   chunk i size offset = Z.min size (Z.min (length_ (data i) - offset) (512 - offset mod 512))).
Proof.
  intros Hl Ho Hs. unfold chunk, sector_ofs, inode_length, BLOCK_SECTOR_SIZE.
  rewrite Z.rem_mod_nonneg, s32_id by int_lia. pose proof (Z.mod_pos_bound offset 512 ltac:(lia)).
  destruct (Z.ltb_spec (length_ (data i) - offset) (512 - offset mod 512));
    match goal with |- context [?a <? ?b] => destruct (Z.ltb_spec a b) end; lia.
Qed.

Lemma byte_to_sector_spec s i offset :
  inode_ok s i → 0 <= offset < length_ (data i) →
  byte_to_sector i offset = start (data i) + offset / 512 ∧
  start (data i) <= start (data i) + offset / 512 < start (data i) + (length_ (data i) + 511) / 512.
Proof.
  intros [Hl Hs He Hd _] Ho. unfold byte_to_sector, BLOCK_SECTOR_SIZE.
  destruct (Z.ltb_spec offset (length_ (data i))); [|lia]. rewrite Z.quot_div_nonneg by lia.
  rewrite u32_id by mod_lia. split; [done|mod_lia].
Qed.

Lemma fs_read_ok s sec bytes : sec < dev_size s → disk s !! sec = Some bytes → fs_read sec s = Ok (bytes, s).
Proof.
  intros Hs Hb. unfold fs_read, check_sector, bind. rewrite (proj2 (Z.ltb_lt _ _) Hs). by rewrite Hb.
Qed.

Lemma fs_write_ok s sec buf : sec < dev_size s → fs_write sec buf s = Ok (tt, set_disk (<[sec := buf]> (disk s)) s).
Proof. intros Hs. unfold fs_write, check_sector, bind. by rewrite (proj2 (Z.ltb_lt _ _) Hs). Qed.

(** Memory allocation never fails, and changes nothing but the next address. *)
Definition plenty (s : fsys) : Prop := mallocs s = [] ∧ 0 < next_addr s.
Definition bump (n : Z) (s : fsys) : fsys := set_mallocs (mallocs s) n s.

Lemma get_bounce_ok s b : plenty s → ∃ n, get_bounce b s = Ok (true, bump n s) ∧ 0 < n.
Proof.
  intros [Hm Hn]. destruct b; simpl.
  - exists (next_addr s). split; [by destruct s|done].
  - unfold malloc, bind. rewrite Hm. exists (next_addr s + 1). split; [|lia].
    unfold ret, bump. rewrite Hm. destruct (Z.eqb_spec (next_addr s) NULL); [unfold NULL in *; lia|done].
Qed.

Lemma bump_facts n s : 0 < n → plenty s → plenty (bump n s) ∧ ∀ i, inode_ok s i → inode_ok (bump n s) i.
Proof. intros Hn [Hm Ha]. split; [by split|]. by intros i []. Qed.

Lemma bump_bump n n' s : bump n (bump n' s) = bump n s.
Proof. done. Qed.
Lemma bump_self s : bump (next_addr s) s = s.
Proof. by destruct s. Qed.

Lemma lookup_slice (bytes : list Z) o n i :
  (o + n <= length bytes)%nat → (i < n)%nat → take n (drop o bytes) !! i = bytes !! (o + i)%nat.
Proof. intros Hl Hi. rewrite lookup_take_lt by done. by rewrite lookup_drop. Qed.

(** The bytes one round of a transfer deals with. *)
Lemma byte_at_chunk d st offset j :
  0 <= offset → 0 <= j → offset mod 512 + j < 512 →
  byte_at d st (offset + j) = d !! (st + offset / 512) ≫= λ bytes, bytes !! Z.to_nat (offset mod 512 + j).
Proof.
  intros Ho Hj Hlt. unfold byte_at.
  replace ((offset + j) / 512) with (offset / 512) by mod_lia.
  replace ((offset + j) mod 512) with (offset mod 512 + j) by mod_lia. done.
Qed.

(** One round of a transfer: nothing is left to move, or a chunk within one sector is. *)
Lemma round_facts s i size offset :
  inode_ok s i → 0 <= offset < 2 ^ 31 → 0 < size →
  let c := chunk i size offset in
  (c <= 0 ∧ moved i size offset = 0) ∨
  (0 < c ∧ c <= size ∧ offset + c <= length_ (data i) ∧ offset mod 512 + c <= 512 ∧
   moved i size offset = c + moved i (size - c) (offset + c) ∧ s32 (offset + c) = offset + c ∧
   (sector_ofs offset = offset mod 512 ∧ 0 <= offset mod 512 < 512) ∧
   byte_to_sector i offset = start (data i) + offset / 512 ∧ start (data i) + offset / 512 < dev_size s ∧
   (c < 512 - offset mod 512 → offset mod 512 + c < 512) ∧
   ∃ sec, disk s !! (start (data i) + offset / 512) = Some sec ∧ length sec = 512%nat).
Proof.
  intros Hi Ho Hs c. pose proof (io_length _ _ Hi) as Hl. unfold moved.
  destruct (chunk_spec i size offset Hl Ho Hs) as [[H1 H2]|(H1 & H2 & H3)]; [left; fold c in H2; lia|right].
  fold c in H2, H3. destruct (byte_to_sector_spec s i offset Hi ltac:(lia)) as [Hsec Hrng].
  pose proof (Z.mod_pos_bound offset 512 ltac:(lia)). pose proof (io_end _ _ Hi).
  split_and!; try done; try lia.
  - apply s32_id. int_lia.
  - unfold sector_ofs, BLOCK_SECTOR_SIZE. apply Z.rem_mod_nonneg; lia.
  - by apply (io_sectors _ _ Hi).
Qed.

(** The bytes [l] read from [offset] on. *)
Definition slice_of (d : gmap Z (list Z)) (st offset : Z) (l : list Z) : Prop :=
  ∀ j, 0 <= j < Z.of_nat (length l) → l !! Z.to_nat j = byte_at d st (offset + j).

Lemma slice_app d st offset l1 l2 :
  slice_of d st offset l1 → slice_of d st (offset + Z.of_nat (length l1)) l2 → slice_of d st offset (l1 ++ l2).
Proof.
  intros H1 H2 j Hj. rewrite length_app in Hj. destruct (Z.lt_ge_cases j (Z.of_nat (length l1))).
  - rewrite lookup_app_l by lia. apply H1. lia.
  - rewrite lookup_app_r by lia.
    replace (Z.to_nat j - length l1)%nat with (Z.to_nat (j - Z.of_nat (length l1))) by lia.
    rewrite H2 by lia. f_equal. lia.
Qed.

Lemma slice_sector d st offset c sec :
  0 <= offset → 0 <= c → offset mod 512 + c <= 512 → d !! (st + offset / 512) = Some sec → length sec = 512%nat →
  slice_of d st offset (take (Z.to_nat c) (drop (Z.to_nat (offset mod 512)) sec)) ∧
  Z.of_nat (length (take (Z.to_nat c) (drop (Z.to_nat (offset mod 512)) sec))) = c.
Proof.
  intros Ho Hc Hfit Hlk Hlen. pose proof (Z.mod_pos_bound offset 512 ltac:(lia)).
  assert (El : Z.of_nat (length (take (Z.to_nat c) (drop (Z.to_nat (offset mod 512)) sec))) = c)
    by (rewrite length_take, length_drop; lia).
  split; [|done]. intros j Hj. rewrite El in Hj. rewrite lookup_slice by lia.
  rewrite byte_at_chunk by lia. rewrite Hlk. simpl. f_equal. lia.
Qed.

Lemma read_loop_spec fuel i size offset bounce s :
  inode_ok s i → plenty s → 0 <= offset < 2 ^ 31 → (Z.to_nat size < fuel)%nat →
  ∃ bytes n, read_loop fuel i size offset bounce s = Ok (bytes, bump n s) ∧ 0 < n ∧
    Z.of_nat (length bytes) = moved i size offset ∧ slice_of (disk s) (start (data i)) offset bytes.
Proof.
  revert size offset bounce s. induction fuel as [|fuel IH]; intros size offset bounce s Hi Hp Ho Hf; [lia|].
  cbn [read_loop].
  assert (Hzero : moved i size offset = 0 → ∃ bytes n, ret [] s = Ok (bytes, bump n s) ∧ 0 < n ∧
    Z.of_nat (length bytes) = moved i size offset ∧ slice_of (disk s) (start (data i)) offset bytes).
  { intros ->. exists [], (next_addr s). rewrite bump_self. split_and!; [done|apply Hp|done|]. intros j Hj. simpl in Hj. lia. }
  destruct (Z.leb_spec size 0) as [Hs|Hs]; [apply Hzero; unfold moved; lia|].
  pose proof (io_length _ _ Hi) as Hl.
  destruct (round_facts s i size offset Hi Ho Hs) as [[Hc Hm]|(Hc & Hcs & Hcl & Hfit & Em & E32 & [Hso Hmod] & Hsec & Hdev & _ & sec & Hlk & Hlen)];
    [destruct (Z.leb_spec (chunk i size offset) 0); [by apply Hzero|lia]|].
  destruct (Z.leb_spec (chunk i size offset) 0); [lia|]. set (c := chunk i size offset) in *. rewrite Hsec, E32.
  destruct (slice_sector (disk s) (start (data i)) offset c sec) as [Hsl El]; [lia|lia|done..|].
  destruct ((sector_ofs offset =? 0) && (c =? BLOCK_SECTOR_SIZE)) eqn:Efull.
  - apply andb_true_iff in Efull as [E0%Z.eqb_eq E1%Z.eqb_eq]. unfold BLOCK_SECTOR_SIZE in E1.
    assert (Eall : take (Z.to_nat c) (drop (Z.to_nat (offset mod 512)) sec) = sec).
    { rewrite <- Hso, E0, E1. apply take_ge. simpl. lia. }
    rewrite Eall in Hsl, El. rewrite (bind_ok _ _ _ _ _ (fs_read_ok s _ sec Hdev Hlk)).
    destruct (IH (size - c) (offset + c) bounce s Hi Hp) as (more & n & E & Hn & Hlm & Hbm); [lia..|].
    rewrite (bind_ok _ _ _ _ _ E). exists (sec ++ more), n. split_and!; [done|done|rewrite length_app; lia|].
    apply slice_app; [done|]. by rewrite El.
  - destruct (get_bounce_ok s bounce Hp) as (n1 & Eb & Hn1). rewrite (bind_ok _ _ _ _ _ Eb).
    destruct (bump_facts n1 s Hn1 Hp) as [Hp1 Hi1].
    rewrite (bind_ok _ _ _ _ _ (fs_read_ok (bump n1 s) _ sec Hdev Hlk)). rewrite Hso.
    destruct (Z.ltb_spec (offset mod 512) 0); [lia|]. erewrite bind_ok by reflexivity.
    destruct (IH (size - c) (offset + c) true (bump n1 s) (Hi1 i Hi) Hp1) as (more & n & E & Hn & Hlm & Hbm); [lia..|].
    rewrite (bind_ok _ _ _ _ _ E). eexists _, n. rewrite bump_bump. split_and!; [done|done|rewrite length_app; lia|].
    apply slice_app; [done|]. by rewrite El.
Qed.

(** What a write leaves on the disk. *)
Record written (i : inode) (buf : list Z) (offset n : Z) (d d' : gmap Z (list Z)) : Prop := {
  wr_bytes : ∀ pos, 0 <= pos < length_ (data i) →
    byte_at d' (start (data i)) pos =
      if (offset <=? pos) && (pos <? offset + n) then buf !! Z.to_nat (pos - offset)
      else byte_at d (start (data i)) pos;
  wr_other : ∀ sec, ¬ (start (data i) <= sec < start (data i) + (length_ (data i) + 511) / 512) → d' !! sec = d !! sec;
  wr_len : ∀ sec bytes, d !! sec = Some bytes → length bytes = 512%nat →
             ∃ bytes', d' !! sec = Some bytes' ∧ length bytes' = 512%nat
}.

Lemma written_none i buf offset d : written i buf offset 0 d d.
Proof.
  split; try done; [|eauto]. intros pos _. destruct (Z.leb_spec offset pos), (Z.ltb_spec pos (offset + 0)); done || lia.
Qed.

Lemma written_ok i buf offset n s d' : inode_ok s i → written i buf offset n (disk s) d' → inode_ok (set_disk d' s) i.
Proof.
  intros [H1 H2 H3 H4 H5] [_ _ Hlen]. split; try done. simpl. intros sec Hsec.
  destruct (H5 sec Hsec) as (bytes & Hb & Hl). eauto.
Qed.

Lemma length_blit dst ofs n src :
  0 <= ofs → 0 <= n → ofs + n <= Z.of_nat (length dst) → n <= Z.of_nat (length src) →
  length (blit dst ofs n src) = length dst.
Proof. intros. unfold blit. rewrite !length_app, !length_take, length_drop. lia. Qed.

Lemma lookup_blit dst ofs n src j :
  0 <= ofs → 0 <= n → ofs + n <= Z.of_nat (length dst) → n <= Z.of_nat (length src) → 0 <= j →
  blit dst ofs n src !! Z.to_nat j =
    if (ofs <=? j) && (j <? ofs + n) then src !! Z.to_nat (j - ofs) else dst !! Z.to_nat j.
Proof.
  intros Ho Hn Hd Hs Hj. unfold blit. destruct (Z.leb_spec ofs j); simpl.
  - rewrite lookup_app_r by (rewrite length_take; lia). rewrite length_take.
    destruct (Z.ltb_spec j (ofs + n)).
    + rewrite lookup_app_l by (rewrite length_take; lia). rewrite lookup_take_lt by lia. f_equal. lia.
    + rewrite lookup_app_r by (rewrite length_take; lia). rewrite lookup_drop, length_take. f_equal. lia.
  - rewrite lookup_app_l by (rewrite length_take; lia). by rewrite lookup_take_lt by lia.
Qed.

(** Writing one chunk of a sector. *)
Lemma written_chunk s i buf offset c sec :
  inode_ok s i → 0 <= offset → 0 < c → offset + c <= length_ (data i) → offset mod 512 + c <= 512 →
  c <= Z.of_nat (length buf) → disk s !! (start (data i) + offset / 512) = Some sec → length sec = 512%nat →
  written i buf offset c (disk s)
    (<[start (data i) + offset / 512 := blit sec (offset mod 512) c buf]> (disk s)).
Proof.
  intros Hi Ho Hc Hlen Hfit Hbuf Hlk Hsl. pose proof (Z.mod_pos_bound offset 512 ltac:(lia)).
  destruct (byte_to_sector_spec s i offset Hi ltac:(lia)) as [_ Hr]. split.
  - intros pos Hpos. unfold byte_at. destruct (decide (pos / 512 = offset / 512)) as [E|E].
    + rewrite E, lookup_insert_eq, Hlk. simpl. pose proof (Z.mod_pos_bound pos 512 ltac:(lia)).
      rewrite lookup_blit by lia.
      assert (Hpo : pos - offset = pos mod 512 - offset mod 512) by mod_lia.
      replace (offset mod 512 <=? pos mod 512) with (offset <=? pos)
        by (apply eq_true_iff_eq; rewrite !Z.leb_le; lia).
      replace (pos mod 512 <? offset mod 512 + c) with (pos <? offset + c)
        by (apply eq_true_iff_eq; rewrite !Z.ltb_lt; lia).
      by rewrite Hpo.
    + rewrite lookup_insert_ne by lia.
      destruct (Z.leb_spec offset pos), (Z.ltb_spec pos (offset + c)); simpl; try done. exfalso. mod_lia.
  - intros sec' Hsec'. rewrite lookup_insert_ne; [done|]. lia.
  - intros sec' bytes Hb Hl. destruct (decide (sec' = start (data i) + offset / 512)) as [->|].
    + eexists. rewrite lookup_insert_eq. split; [done|]. rewrite length_blit by lia. done.
    + exists bytes. by rewrite lookup_insert_ne.
Qed.

Lemma written_trans i buf offset c n d d1 d2 :
  0 <= c → 0 <= n →
  written i buf offset c d d1 → written i (drop (Z.to_nat c) buf) (offset + c) n d1 d2 →
  written i buf offset (c + n) d d2.
Proof.
  intros Hc Hn [A1 A2 A3] [B1 B2 B3]. split.
  - intros pos Hpos. rewrite B1, A1 by done. rewrite lookup_drop.
    destruct (Z.leb_spec (offset + c) pos), (Z.ltb_spec pos (offset + c + n)), (Z.leb_spec offset pos),
      (Z.ltb_spec pos (offset + c)), (Z.ltb_spec pos (offset + (c + n))); simpl; try lia; try done.
    f_equal. lia.
  - intros sec Hsec. by rewrite B2, A2.
  - intros sec bytes Hb Hl. destruct (A3 sec bytes Hb Hl) as (b1 & H1 & H2). eauto.
Qed.

Lemma blit_all dst buf : length dst = 512%nat → (512 <= length buf)%nat → blit dst 0 512 buf = take 512 buf.
Proof. intros. unfold blit. simpl. rewrite drop_ge by lia. by rewrite app_nil_r. Qed.

Lemma write_loop_spec fuel i buf size offset bounce s :
  inode_ok s i → plenty s → 0 <= offset < 2 ^ 31 → size <= Z.of_nat (length buf) → (Z.to_nat size < fuel)%nat →
  ∃ d' n, write_loop fuel i buf size offset bounce s = Ok (moved i size offset, bump n (set_disk d' s)) ∧ 0 < n ∧
    written i buf offset (moved i size offset) (disk s) d'.
Proof.
  revert buf size offset bounce s. induction fuel as [|fuel IH]; intros buf size offset bounce s Hi Hp Ho Hb Hf; [lia|].
  cbn [write_loop]. assert (Hzero : moved i size offset = 0 → ∃ d' n, ret 0 s = Ok (moved i size offset, bump n (set_disk d' s)) ∧
    0 < n ∧ written i buf offset (moved i size offset) (disk s) d').
  { intros ->. exists (disk s), (next_addr s). split_and!; [by destruct s|apply Hp|apply written_none]. }
  destruct (Z.leb_spec size 0) as [Hs|Hs]; [apply Hzero; unfold moved; lia|].
  pose proof (io_length _ _ Hi) as Hl.
  destruct (round_facts s i size offset Hi Ho Hs) as [[Hc Hm]|(Hc & Hcs & Hcl & Hfit & Em & E32 & [Hso Hmod] & Hsec & Hdev & _ & sec & Hlk & Hlen)];
    [destruct (Z.leb_spec (chunk i size offset) 0); [by apply Hzero|lia]|].
  destruct (Z.leb_spec (chunk i size offset) 0); [lia|]. set (c := chunk i size offset) in *. rewrite Hsec, E32. clear Hzero.
  set (d1 := <[start (data i) + offset / 512 := blit sec (offset mod 512) c buf]> (disk s)).
  assert (Hw1 : written i buf offset c (disk s) d1) by (apply (written_chunk s); done || lia).
  assert (Hgo : ∀ b n1, 0 < n1 →
    ∃ d' n, (let* n0 := write_loop fuel i (drop (Z.to_nat c) buf) (size - c) (offset + c) b in ret (c + n0))
              (bump n1 (set_disk d1 s)) = Ok (moved i size offset, bump n (set_disk d' s)) ∧ 0 < n ∧
            written i buf offset (moved i size offset) (disk s) d').
  { intros b n1 Hn1. destruct (bump_facts n1 (set_disk d1 s) Hn1 Hp) as [Hp1 Hi1].
    destruct (IH (drop (Z.to_nat c) buf) (size - c) (offset + c) b (bump n1 (set_disk d1 s)))
      as (d' & n & E & Hn & Hw); [apply Hi1; by eapply written_ok|done|lia|rewrite length_drop; lia|lia|].
    rewrite (bind_ok _ _ _ _ _ E). exists d', n. rewrite Em. split; [done|]. split; [done|].
    apply (written_trans i buf offset c _ _ d1); [lia|unfold moved; lia|done|done]. }
  destruct ((sector_ofs offset =? 0) && (c =? BLOCK_SECTOR_SIZE)) eqn:Efull.
  - apply andb_true_iff in Efull as [E0%Z.eqb_eq E1%Z.eqb_eq]. unfold BLOCK_SECTOR_SIZE in E1.
    rewrite (bind_ok _ _ _ _ _ (fs_write_ok s _ _ Hdev)).
    assert (Ed1 : d1 = <[start (data i) + offset / 512 := take 512 buf]> (disk s)).
    { unfold d1. rewrite <- Hso, E0, E1. by rewrite blit_all by lia. }
    rewrite <- Ed1. rewrite <- (bump_self (set_disk d1 s)). apply Hgo, Hp.
  - destruct (get_bounce_ok s bounce Hp) as (n1 & Eb & Hn1). rewrite (bind_ok _ _ _ _ _ Eb). rewrite Hso.
    destruct (Z.ltb_spec (offset mod 512) 0); [lia|]. erewrite bind_ok by reflexivity.
    destruct ((0 <? offset mod 512) || (c <? BLOCK_SECTOR_SIZE - offset mod 512)) eqn:Epart.
    + rewrite (bind_ok _ _ _ _ _ (fs_read_ok (bump n1 s) _ sec Hdev Hlk)).
      rewrite (bind_ok _ _ _ _ _ (fs_write_ok (bump n1 s) _ _ Hdev)). exact (Hgo true n1 Hn1).
    + exfalso. apply orb_false_iff in Epart as [E0%Z.ltb_ge E1%Z.ltb_ge]. unfold BLOCK_SECTOR_SIZE in *.
      apply andb_false_iff in Efull. rewrite Hso in Efull. destruct Efull as [Ef%Z.eqb_neq|Ef%Z.eqb_neq]; lia.
Qed.

(** ** Reads and writes of an open inode *)

(** C17: [inode_read_at] on an inode whose sectors are on the device, with memory for
    its bounce buffer, reads as many bytes as lie before the end of the file (none
    when [offset] is past it) and returns exactly the bytes of the file from
    [offset] on; it changes nothing but the allocator. *)
Theorem inode_read_at_correct s a i size offset :
  inodes s !! a = Some i → inode_ok s i → plenty s → 0 <= offset < 2 ^ 31 →
  ∃ bytes n, inode_read_at a size offset s = Ok (bytes, bump n s) ∧
    Z.of_nat (length bytes) = moved i size offset ∧
    ∀ j, 0 <= j < moved i size offset → bytes !! Z.to_nat j = byte_at (disk s) (start (data i)) (offset + j).
Proof.
  intros Ha Hi Hp Ho. unfold inode_read_at, get_inode. rewrite (bind_ok _ _ _ i s) by by rewrite Ha.
  destruct (read_loop_spec (S (Z.to_nat size)) i size offset false s Hi Hp Ho ltac:(lia)) as (bytes & n & E & Hn & Hl & Hb).
  exists bytes, n. split_and!; [done..|]. intros j Hj. apply Hb. lia.
Qed.

Lemma write_at_run s a i buf size offset :
  inodes s !! a = Some i → deny_write_cnt i = 0 → inode_ok s i → plenty s → 0 <= offset < 2 ^ 31 →
  size <= Z.of_nat (length buf) →
  ∃ d' n, inode_write_at a buf size offset s = Ok (moved i size offset, bump n (set_disk d' s)) ∧ 0 < n ∧
    written i buf offset (moved i size offset) (disk s) d'.
Proof.
  intros Ha Hdeny Hi Hp Ho Hb. unfold inode_write_at, get_inode. rewrite (bind_ok _ _ _ i s) by by rewrite Ha.
  rewrite Hdeny. by apply write_loop_spec; [..|lia].
Qed.

(** C18: [inode_write_at] writes nothing and returns 0 while writes are denied;
    otherwise it writes the bytes of the buffer over exactly the positions
    [offset .. offset + n) of the file, [n] being what fits before its end (a file
    never grows), leaves every other byte of the file and every sector outside the
    file as it was, and returns [n]. *)
Theorem inode_write_at_correct s a i buf size offset :
  inodes s !! a = Some i → inode_ok s i → plenty s → 0 <= offset < 2 ^ 31 → size <= Z.of_nat (length buf) →
  if decide (deny_write_cnt i = 0) then
    ∃ d' n, inode_write_at a buf size offset s = Ok (moved i size offset, bump n (set_disk d' s)) ∧
      written i buf offset (moved i size offset) (disk s) d'
  else inode_write_at a buf size offset s = Ok (0, s).
Proof.
  intros Ha Hi Hp Ho Hb. destruct (decide _) as [Hd|Hd].
  - destruct (write_at_run s a i buf size offset) as (d' & n & E & _ & Hw); eauto.
  - unfold inode_write_at, get_inode. rewrite (bind_ok _ _ _ i s) by by rewrite Ha.
    by destruct (Z.eqb_spec (deny_write_cnt i) 0).
Qed.

(** Bytes written inside a file are the bytes a later read of the same range
    returns. *)
Theorem inode_write_read_roundtrip s a i buf offset :
  inodes s !! a = Some i → deny_write_cnt i = 0 → inode_ok s i → plenty s → 0 <= offset →
  offset + Z.of_nat (length buf) <= length_ (data i) →
  let size := Z.of_nat (length buf) in
  ∃ s' n, inode_write_at a buf size offset s = Ok (size, s') ∧ inode_read_at a size offset s' = Ok (buf, bump n s').
Proof.
  intros Ha Hd Hi Hp Ho Hfit size. pose proof (io_length _ _ Hi) as Hl.
  destruct (decide (offset < 2 ^ 31)) as [Ho2|Ho2]; [|lia].
  assert (Em : moved i size offset = size) by (unfold moved; lia).
  destruct (write_at_run s a i buf size offset) as (d' & n & E & Hn & Hw); try done.
  rewrite Em in E, Hw. set (s1 := bump n (set_disk d' s)) in *.
  assert (Hi1 : inode_ok s1 i) by (apply (bump_facts n (set_disk d' s)); [done|done|by eapply written_ok]).
  destruct (read_loop_spec (S (Z.to_nat size)) i size offset false s1 Hi1) as (bytes & n1 & Er & _ & Hlen & Hb);
    [split; [apply Hp|done]|lia|lia|].
  exists s1, n1. split; [done|]. unfold inode_read_at, get_inode. rewrite (bind_ok _ _ _ i s1) by (simpl; by rewrite Ha).
  rewrite Er. do 3 f_equal. apply list_eq_same_length with (length buf); [done|lia|].
  intros j x y Hj Hx Hy. specialize (Hb (Z.of_nat j) ltac:(lia)). rewrite Nat2Z.id, Hx in Hb.
  change (disk s1) with d' in Hb. rewrite (wr_bytes _ _ _ _ _ _ Hw) in Hb by lia.
  destruct (Z.leb_spec offset (offset + Z.of_nat j)), (Z.ltb_spec (offset + Z.of_nat j) (offset + size)); try lia.
  simpl in Hb. replace (Z.to_nat (offset + Z.of_nat j - offset)) with j in Hb by lia. congruence.
Qed.

(** A device of four sectors with a file of 700 bytes in sectors 2 and 3. *)
Definition sample_inode : inode := mk_inode 1 1 false 0 (mk_inode_disk 2 700 INODE_MAGIC).
Definition sample_fs : fsys :=
  mk_fsys (<[2 := replicate 512 7]> (<[3 := replicate 512 9]> ∅)) 4 [10] {[10 := sample_inode]} ∅
    (mk_bitmap 0 []) NULL [] 11.

Lemma sample_fs_ok : inode_ok sample_fs sample_inode.
Proof.
  split; [by split|done..|]. intros sec Hsec. simpl in Hsec. change ((700 + 511) / 512) with 2 in Hsec.
  assert (sec = 2 ∨ sec = 3) as [->| ->] by lia; by eexists.
Qed.

Lemma inode_read_at_correct_witness :
  ∃ bytes n, inode_read_at 10 600 200 sample_fs = Ok (bytes, bump n sample_fs) ∧ Z.of_nat (length bytes) = 500.
Proof.
  destruct (inode_read_at_correct sample_fs 10 sample_inode 600 200) as (bytes & n & E & Hl & _);
    [reflexivity|exact sample_fs_ok|by split|lia|]. eauto.
Defined.

Lemma inode_write_at_correct_witness :
  ∃ d' n, inode_write_at 10 (replicate 600 5) 600 500 sample_fs = Ok (200, bump n (set_disk d' sample_fs)) ∧
    written sample_inode (replicate 600 5) 500 200 (disk sample_fs) d'.
Proof.
  pose proof (inode_write_at_correct sample_fs 10 sample_inode (replicate 600 5) 600 500) as H.
  destruct (decide (deny_write_cnt sample_inode = 0)) as [_|E]; [|by destruct E].
  apply H; [reflexivity|exact sample_fs_ok|by split|lia|]. rewrite length_replicate. lia.
Defined.

Lemma inode_write_read_roundtrip_witness :
  ∃ s' n, inode_write_at 10 [1; 2; 3; 4] 4 510 sample_fs = Ok (4, s') ∧ inode_read_at 10 4 510 s' = Ok ([1; 2; 3; 4], bump n s').
Proof.
  apply (inode_write_read_roundtrip sample_fs 10 sample_inode [1; 2; 3; 4] 510);
    [reflexivity|reflexivity|exact sample_fs_ok|by split|lia|simpl; lia].
Defined.
