(* ===== verification/Filesys.v ===== *)
(** * Files, the free map, directories and the file system interface
    (src/filesys/file.c, free-map.c, directory.c, filesys.c and the file part of
    src/lib/kernel/bitmap.c) *)

From S2P Require Import Prelude Bitmap Palloc Inode.
Local Open Scope Z_scope.

(** ** Files *)

Definition get_file (a : Z) : F file := λ s, need (files s !! a) s.
Definition put_file (a : Z) (f : file) : F unit := modify (λ s, set_files (<[a := f]> (files s)) s).

Definition file_read (a size : Z) : F (list Z) :=
  let* f := get_file a in
  let* bytes := inode_read_at (f_inode f) size (f_pos f) in
  put_file a (mk_file (f_inode f) (s32 (f_pos f + Z.of_nat (length bytes))) (f_deny_write f)) ;;; ret bytes.

Definition file_read_at (a size file_ofs : Z) : F (list Z) :=
  let* f := get_file a in inode_read_at (f_inode f) size file_ofs.

Definition file_write (a : Z) (buffer : list Z) (size : Z) : F Z :=
  let* f := get_file a in
  let* n := inode_write_at (f_inode f) buffer size (f_pos f) in
  put_file a (mk_file (f_inode f) (s32 (f_pos f + n)) (f_deny_write f)) ;;; ret n.

Definition file_write_at (a : Z) (buffer : list Z) (size file_ofs : Z) : F Z :=
  let* f := get_file a in inode_write_at (f_inode f) buffer size file_ofs.

Definition file_deny_write (a : Z) : F unit :=
  assert (negb (a =? NULL)) ;;;
  let* f := get_file a in
  if f_deny_write f then ret tt
  else put_file a (mk_file (f_inode f) (f_pos f) true) ;;; inode_deny_write (f_inode f).

Definition file_allow_write (a : Z) : F unit :=
  assert (negb (a =? NULL)) ;;;
  let* f := get_file a in
  if f_deny_write f
  then put_file a (mk_file (f_inode f) (f_pos f) false) ;;; inode_allow_write (f_inode f)
  else ret tt.

Definition file_get_inode (a : Z) : F Z := let* f := get_file a in ret (f_inode f).

Definition file_length (a : Z) : F Z :=
  assert (negb (a =? NULL)) ;;;
  let* f := get_file a in let* i := get_inode (f_inode f) in ret (inode_length i).

Definition file_seek (a new_pos : Z) : F unit :=
  assert (negb (a =? NULL)) ;;; assert (0 <=? new_pos) ;;;
  let* f := get_file a in put_file a (mk_file (f_inode f) new_pos (f_deny_write f)).

Definition file_tell (a : Z) : F Z :=
  assert (negb (a =? NULL)) ;;; let* f := get_file a in ret (f_pos f).

(** ** Bitmaps in files *)

(** The words of a bitmap as bytes in memory, and back. *)
Definition bitmap_bytes (b : bitmap) : list Z := concat (le32 <$> bits b).
Fixpoint words_of (n : nat) (bs : list Z) : list Z :=
  match n with O => [] | S n' => from_le32 bs :: words_of n' (drop 4 bs) end.

Definition bitmap_write (b : bitmap) (f : Z) : F bool :=
  let size := byte_cnt (bit_cnt b) in
  let* n := file_write_at f (bitmap_bytes b) size 0 in ret (n =? size).

Definition bitmap_read (b : bitmap) (f : Z) : F (bool * bitmap) :=
  if 0 <? bit_cnt b then
    let size := byte_cnt (bit_cnt b) in
    let* bytes := file_read_at f size 0 in
    let words := words_of (length (bits b)) (bytes ++ drop (length bytes) (bitmap_bytes b)) in
    let last := Z.to_nat (elem_cnt (bit_cnt b) - 1) in
    let* w := need (words !! last) in
    ret (Z.of_nat (length bytes) =? size,
         mk_bitmap (bit_cnt b) (<[last := Z.land w (last_mask b)]> words))
  else ret (true, b).

(** ** The free map *)

Definition FREE_MAP_SECTOR : Z := 0.
Definition ROOT_DIR_SECTOR : Z := 1.

(** [junk] is what the freshly allocated words hold. *)
Definition free_map_init (junk : list Z) : F unit :=
  let* b_ptr := malloc in
  let* w_ptr := (if b_ptr =? NULL then ret NULL else malloc) in
  let* size := gets dev_size in
  let* o := lift (bitmap_create (negb (b_ptr =? NULL)) (negb (w_ptr =? NULL)) junk size) in
  match o with
  | None => fail Panicked
  | Some b =>
      let* b := lift (bitmap_mark b FREE_MAP_SECTOR) in
      let* b := lift (bitmap_mark b ROOT_DIR_SECTOR) in
      modify (set_free_map b)
  end.

(** Returns the first sector, or [BITMAP_ERROR] for failure. *)
Definition free_map_allocate (cnt : Z) : F Z :=
  let* m := gets free_map in
  let* (sec, m') := lift (bitmap_scan_and_flip m 0 cnt false) in
  modify (set_free_map m') ;;;
  let* f := gets free_map_file in
  if negb (sec =? BITMAP_ERROR) && negb (f =? NULL) then
    let* ok := bitmap_write m' f in
    if ok then ret sec
    else
      let* m'' := lift (bitmap_set_multiple m' sec cnt false) in
      modify (set_free_map m'') ;;; ret BITMAP_ERROR
  else ret sec.

Definition free_map_release (sec cnt : Z) : F unit :=
  let* m := gets free_map in
  let* all := lift (bitmap_all m sec cnt) in
  assert all ;;;
  let* m' := lift (bitmap_set_multiple m sec cnt false) in
  modify (set_free_map m') ;;;
  let* f := gets free_map_file in
  bitmap_write m' f ;;; ret tt.

(** ** Creating and closing inodes *)

Fixpoint zero_sectors (n : nat) (sec : Z) : F unit :=
  match n with
  | O => ret tt
  | S n' => fs_write sec (replicate 512 0) ;;; zero_sectors n' (u32 (sec + 1))
  end.

Definition inode_create (sec length : Z) : F bool :=
  assert (0 <=? length) ;;;
  let* p := malloc in
  if p =? NULL then ret false
  else
    let sectors := bytes_to_sectors length in
    let* st := free_map_allocate sectors in
    if st =? BITMAP_ERROR then ret false
    else
      fs_write sec (inode_disk_bytes (mk_inode_disk st length INODE_MAGIC)) ;;;
      zero_sectors (Z.to_nat sectors) st ;;;
      ret true.

Definition inode_close (a : Z) : F unit :=
  if a =? NULL then ret tt
  else
    let* i := get_inode a in
    let n := s32 (open_cnt i - 1) in
    put_inode a (mk_inode (sector i) n (removed i) (deny_write_cnt i) (data i)) ;;;
    if n =? 0 then
      modify (λ s, set_open_inodes (filter (λ x, x ≠ a) (open_inodes s)) s) ;;;
      (if removed i then
         free_map_release (sector i) 1 ;;;
         free_map_release (start (data i)) (bytes_to_sectors (length_ (data i)))
       else ret tt) ;;;
      modify (λ s, set_inodes (delete a (inodes s)) s)
    else ret tt.

(** ** Opening and closing files *)

Definition file_open (inode : Z) : F Z :=
  let* f := malloc in
  if negb (inode =? NULL) && negb (f =? NULL)
  then put_file f (mk_file inode 0 false) ;;; ret f
  else inode_close inode ;;; ret NULL.

Definition file_reopen (a : Z) : F Z :=
  let* f := get_file a in let* i := inode_reopen (f_inode f) in file_open i.

Definition file_close (a : Z) : F unit :=
  if a =? NULL then ret tt
  else
    file_allow_write a ;;;
    let* f := get_file a in
    inode_close (f_inode f) ;;;
    modify (λ s, set_files (delete a (files s)) s).

Definition free_map_open : F unit :=
  let* i := inode_open FREE_MAP_SECTOR in
  let* f := file_open i in
  modify (set_free_map_file f) ;;;
  if f =? NULL then fail Panicked
  else
    let* m := gets free_map in
    let* (ok, m') := bitmap_read m f in
    modify (set_free_map m') ;;;
    if ok then ret tt else fail Panicked.

Definition free_map_close : F unit := let* f := gets free_map_file in file_close f.

Definition free_map_create : F unit :=
  let* m := gets free_map in
  let* ok := inode_create FREE_MAP_SECTOR (bitmap_file_size m) in
  (if ok then ret tt else fail Panicked) ;;;
  let* i := inode_open FREE_MAP_SECTOR in
  let* f := file_open i in
  modify (set_free_map_file f) ;;;
  (if f =? NULL then fail Panicked else ret tt) ;;;
  let* m := gets free_map in
  let* ok := bitmap_write m f in
  if ok then ret tt else fail Panicked.

(** ** Directories *)

Definition NAME_MAX : Z := 14.
Definition DIR_ENTRY_SIZE : Z := 20.

Record dir := mk_dir { d_inode : Z; d_pos : Z }.

(** Names are byte strings without a null byte; an entry is its 20 bytes. *)
Fixpoint cstr (bs : list Z) : list Z :=
  match bs with
  | [] => []
  | b :: bs' => if b =? 0 then [] else b :: cstr bs'
  end.
Definition e_sector (e : list Z) : Z := from_le32 e.
Definition e_name (e : list Z) : list Z := cstr (take 15 (drop 4 e)).
Definition e_in_use (e : list Z) : bool := negb (nth 19 e 0 =? 0).

(** The assignments of [dir_add] to its entry: [in_use], the name by [strlcpy], and
    the sector. *)
Definition fill_entry (e name : list Z) (sec : Z) : list Z :=
  le32 sec ++ take 15 (blit (take 15 (drop 4 e)) 0 (Z.of_nat (length name) + 1) (name ++ [0])) ++ [1].
Definition clear_entry (e : list Z) : list Z := take 19 e ++ [0].

Definition dir_create (sec entry_cnt : Z) : F bool := inode_create sec (s32 (u32 (entry_cnt * DIR_ENTRY_SIZE))).

Definition dir_open (inode : Z) : F (option dir) :=
  let* d := malloc in
  if negb (inode =? NULL) && negb (d =? NULL) then ret (Some (mk_dir inode 0))
  else inode_close inode ;;; ret None.

Definition dir_open_root : F (option dir) := let* i := inode_open ROOT_DIR_SECTOR in dir_open i.
Definition dir_reopen (d : dir) : F (option dir) := let* i := inode_reopen (d_inode d) in dir_open i.
Definition dir_close (d : option dir) : F unit :=
  match d with Some d => inode_close (d_inode d) | None => ret tt end.
Definition dir_get_inode (d : dir) : Z := d_inode d.

(** The scan over the entries from [ofs] on: stops at the first entry that satisfies
    [stop], or at the end of the directory; [e] is the entry buffer. *)
Fixpoint scan_entries (fuel : nat) (inode : Z) (stop : list Z → bool) (e : list Z) (ofs : Z)
    : F (bool * list Z * Z) :=
  match fuel with
  | O => fail NoFuel
  | S fuel =>
      let* bytes := inode_read_at inode DIR_ENTRY_SIZE ofs in
      let e := bytes ++ drop (length bytes) e in
      if Z.of_nat (length bytes) =? DIR_ENTRY_SIZE
      then if stop e then ret (true, e, ofs) else scan_entries fuel inode stop e (ofs + DIR_ENTRY_SIZE)
      else ret (false, e, ofs)
  end.

(** Enough rounds for every entry of the directory. *)
Definition dir_rounds (inode : Z) : F nat :=
  let* i := get_inode inode in ret (S (Z.to_nat (inode_length i))).

Definition matches (name : list Z) (e : list Z) : bool := e_in_use e && bool_decide (name = e_name e).

Section directory.
(** What the stack holds where the entry buffers are. *)
Variable junk : list Z.

Definition lookup_ (d : dir) (name : list Z) : F (bool * list Z * Z) :=
  let* fuel := dir_rounds (d_inode d) in scan_entries fuel (d_inode d) (matches name) junk 0.

(** Returns the opened inode, or null. *)
Definition dir_lookup (d : dir) (name : list Z) : F Z :=
  let* (found, e, _) := lookup_ d name in
  if found then inode_open (e_sector e) else ret NULL.

Definition dir_add (d : dir) (name : list Z) (inode_sector : Z) : F bool :=
  if bool_decide (name = []) || (NAME_MAX <? Z.of_nat (length name)) then ret false
  else
    let* (found, _, _) := lookup_ d name in
    if found then ret false
    else
      let* fuel := dir_rounds (d_inode d) in
      let* (_, e, ofs) := scan_entries fuel (d_inode d) (λ e, negb (e_in_use e)) junk 0 in
      let* n := inode_write_at (d_inode d) (fill_entry e name inode_sector) DIR_ENTRY_SIZE ofs in
      ret (n =? DIR_ENTRY_SIZE).

Definition dir_remove (d : dir) (name : list Z) : F bool :=
  let* (found, e, ofs) := lookup_ d name in
  if found then
    let* inode := inode_open (e_sector e) in
    if inode =? NULL then ret false
    else
      let* n := inode_write_at (d_inode d) (clear_entry e) DIR_ENTRY_SIZE ofs in
      let* success := (if n =? DIR_ENTRY_SIZE then inode_remove inode ;;; ret true else ret false) in
      inode_close inode ;;; ret success
  else ret false.

(** Returns the next name and the directory with its position moved on. *)
Definition dir_readdir (d : dir) : F (option (list Z) * dir) :=
  let* fuel := dir_rounds (d_inode d) in
  let* (found, e, ofs) := scan_entries fuel (d_inode d) e_in_use junk (d_pos d) in
  ret (if found then (Some (e_name e), mk_dir (d_inode d) (ofs + DIR_ENTRY_SIZE))
       else (None, mk_dir (d_inode d) ofs)).

(** ** The interface *)

Definition filesys_create (name : list Z) (initial_size : Z) : F bool :=
  let* d := dir_open_root in
  let* (success, inode_sector) :=
    (match d with
     | None => ret (false, 0)
     | Some d =>
         let* sec := free_map_allocate 1 in
         if sec =? BITMAP_ERROR then ret (false, 0)
         else
           let* ok := inode_create sec initial_size in
           if ok then let* added := dir_add d name sec in ret (added, sec) else ret (false, sec)
     end) in
  (if negb success && negb (inode_sector =? 0) then free_map_release inode_sector 1 else ret tt) ;;;
  dir_close d ;;; ret success.

Definition filesys_open (name : list Z) : F Z :=
  let* d := dir_open_root in
  let* inode := (match d with Some d => dir_lookup d name | None => ret NULL end) in
  dir_close d ;;; file_open inode.

Definition filesys_remove (name : list Z) : F bool :=
  let* d := dir_open_root in
  let* success := (match d with Some d => dir_remove d name | None => ret false end) in
  dir_close d ;;; ret success.

Definition do_format : F unit :=
  free_map_create ;;;
  let* ok := dir_create ROOT_DIR_SECTOR 16 in
  (if ok then ret tt else fail Panicked) ;;;
  free_map_close.

Definition filesys_init (format : bool) : F unit :=
  inode_init ;;; free_map_init junk ;;;
  (if format then do_format else ret tt) ;;;
  free_map_open.

Definition filesys_done : F unit := free_map_close.
End directory.
