(* ===== verification/FreeMapSpec.v ===== *)
(** * The free map and inode creation (src/filesys/free-map.c, inode.c)

    The free map is a bitmap of the sectors in use, written to its own file after
    every change.  The theorems: bitmaps survive the trip through a file; allocation
    takes the first run of free sectors and records it on disk; releasing undoes it;
    [inode_create] produces an inode whose contents are zero. *)

From S2P Require Import Prelude Bitmap Palloc Inode Filesys.
Local Open Scope Z_scope.

(** ** Bitmaps as bytes *)

Lemma words_of_bytes ws rest : Forall in_u32 ws → words_of (length ws) (concat (le32 <$> ws) ++ rest) = ws.
Proof.
  induction 1 as [|w ws Hw _ IH]; [done|]. cbn [length words_of fmap list_fmap concat]. rewrite <- app_assoc.
  rewrite from_le32_app by done. f_equal. exact IH.
Qed.

Lemma byte_cnt_spec b : bm_wf b → byte_cnt (bit_cnt b) = 4 * Z.of_nat (length (bits b)) ∧
  elem_cnt (bit_cnt b) = Z.of_nat (length (bits b)).
Proof.
  intros [Hc Hl _]. unfold byte_cnt, elem_cnt, ELEM_BITS. rewrite (u32_id (bit_cnt b + 32)) by int_lia.
  rewrite (u32_id (bit_cnt b + 32 - 1)) by int_lia. rewrite Hl. replace (bit_cnt b + 32 - 1) with (bit_cnt b + 31) by lia.
  split; [|done]. apply u32_id. mod_lia.
Qed.

Lemma length_bitmap_bytes b : bm_wf b → Z.of_nat (length (bitmap_bytes b)) = byte_cnt (bit_cnt b).
Proof.
  intros Hb. rewrite (proj1 (byte_cnt_spec b Hb)). unfold bitmap_bytes.
  induction (bits b) as [|w ws IH]; [done|]. cbn [fmap list_fmap concat]. rewrite length_app. cbn [length le32] in *. lia.
Qed.

(** Masking the last word keeps every bit of the bitmap. *)
Lemma last_mask_bit b j : bm_wf b → 0 <= j < bit_cnt b → j / 32 = elem_cnt (bit_cnt b) - 1 →
  Z.testbit (last_mask b) (j mod 32) = true.
Proof.
  intros Hb Hj E. pose proof (proj2 (byte_cnt_spec b Hb)) as Ec. rewrite (wf_len _ Hb) in Ec. unfold last_mask, ELEM_BITS.
  pose proof (Z.mod_pos_bound (bit_cnt b) 32 ltac:(lia)). pose proof (Z.mod_pos_bound j 32 ltac:(lia)).
  destruct (Z.eqb_spec (bit_cnt b mod 32) 0) as [E0|E0].
  - change (2 ^ 32 - 1) with (Z.ones 32). apply Z.ones_spec_low. lia.
  - assert (Hp : 1 <= 2 ^ (bit_cnt b mod 32) < 2 ^ 32).
    { split; [apply (Z.pow_le_mono_r 2 0); lia|apply Z.pow_lt_mono_r; lia]. }
    rewrite Z.shiftl_mul_pow2, Z.mul_1_l by lia. rewrite (u32_id (2 ^ _)), u32_id by (unfold in_u32; lia).
    rewrite Z.sub_1_r, <- Z.ones_equiv. apply Z.ones_spec_low. mod_lia.
Qed.

Lemma masked_bits b w : bm_wf b → 0 < bit_cnt b →
  let last := Z.to_nat (elem_cnt (bit_cnt b) - 1) in
  bits b !! last = Some w →
  let b' := mk_bitmap (bit_cnt b) (<[last := Z.land w (last_mask b)]> (bits b)) in
  bm_wf b' ∧ ∀ j, 0 <= j < bit_cnt b → bm_bit b' j = bm_bit b j.
Proof.
  intros Hb Hpos last Hw b'. pose proof (proj2 (byte_cnt_spec b Hb)) as Ec. pose proof (lookup_lt_Some _ _ _ Hw) as Hlt.
  pose proof (Forall_lookup_1 _ _ _ _ (wf_words _ Hb) Hw) as Hw32. destruct Hw32 as [Hw0 Hw1].
  split; [split; simpl|].
  - apply Hb.
  - rewrite length_insert. apply Hb.
  - apply Forall_insert; [apply Hb|]. apply in_u32_testbit; [apply Z.land_nonneg; lia|].
    intros n Hn. rewrite Z.land_spec, testbit_high by (done || lia). done.
  - intros j Hj. unfold bm_bit, bm_word. simpl. destruct (decide (Z.to_nat (j / 32) = last)) as [E|E].
    + rewrite E, list_lookup_insert_eq, Hw by done. simpl. rewrite Z.land_spec, last_mask_bit; [by rewrite andb_true_r|done..|].
      unfold last in *. mod_lia.
    + by rewrite list_lookup_insert_ne.
Qed.

(** ** The state of the file system *)

(** A file whose inode can hold [size] bytes and may be written. *)
Record writable (s : fsys) (f : Z) (fl : file) (i : inode) (size : Z) : Prop := {
  wf_file : files s !! f = Some fl;
  wf_inode : inodes s !! f_inode fl = Some i;
  wf_ok : inode_ok s i;
  wf_allowed : deny_write_cnt i = 0;
  wf_room : size <= length_ (data i)
}.

Lemma bitmap_write_run s f fl i b :
  bm_wf b → writable s f fl i (byte_cnt (bit_cnt b)) → plenty s →
  ∃ d' n, bitmap_write b f s = Ok (true, bump n (set_disk d' s)) ∧ 0 < n ∧
    written i (bitmap_bytes b) 0 (byte_cnt (bit_cnt b)) (disk s) d'.
Proof.
  intros Hb [Hf Hi Hok Hd Hr] Hp. pose proof (length_bitmap_bytes b Hb) as Hlen.
  unfold bitmap_write, file_write_at, get_file. rewrite bind_assoc.
  rewrite (bind_ok _ _ _ fl s) by by rewrite Hf.
  destruct (write_at_run s (f_inode fl) i (bitmap_bytes b) (byte_cnt (bit_cnt b)) 0) as (d' & n & E & Hn & Hw);
    [done..|lia|lia|].
  assert (Em : moved i (byte_cnt (bit_cnt b)) 0 = byte_cnt (bit_cnt b)) by (unfold moved; lia).
  rewrite Em in E, Hw. rewrite (bind_ok _ _ _ _ _ E). exists d', n. unfold ret. by rewrite Z.eqb_refl.
Qed.

Lemma bitmap_read_run s f fl i b b0 :
  bm_wf b → bm_wf b0 → bit_cnt b0 = bit_cnt b → writable s f fl i (byte_cnt (bit_cnt b)) → plenty s →
  slice_of (disk s) (start (data i)) 0 (bitmap_bytes b) →
  ∃ b' n, bitmap_read b0 f s = Ok ((true, b'), bump n s) ∧ bm_wf b' ∧ bit_cnt b' = bit_cnt b ∧
    ∀ j, 0 <= j < bit_cnt b → bm_bit b' j = bm_bit b j.
Proof.
  intros Hb Hb0 Ecnt [Hf Hi Hok Hd Hr] Hp Hsl. unfold bitmap_read. rewrite Ecnt. pose proof (wf_cnt _ Hb).
  destruct (Z.ltb_spec 0 (bit_cnt b)) as [Hpos|Hpos].
  2: { exists b0, (next_addr s). rewrite bump_self. split_and!; [done..|]. intros j Hj. lia. }
  destruct (byte_cnt_spec b Hb) as [Ebc Eec]. destruct (byte_cnt_spec b0 Hb0) as [_ Eec0]. rewrite Ecnt in Eec0.
  pose proof (length_bitmap_bytes b Hb) as Hlen.
  unfold file_read_at, inode_read_at, get_file, get_inode. rewrite bind_assoc. rewrite (bind_ok _ _ _ fl s) by by rewrite Hf.
  rewrite bind_assoc. rewrite (bind_ok _ _ _ i s) by by rewrite Hi.
  destruct (read_loop_spec (S (Z.to_nat (byte_cnt (bit_cnt b)))) i (byte_cnt (bit_cnt b)) 0 false s)
    as (bytes & n & E & Hn & Hl & Hbs); [done|done|lia|lia|].
  rewrite (bind_ok _ _ _ _ _ E). replace (moved i _ 0) with (byte_cnt (bit_cnt b)) in Hl by (unfold moved; lia).
  assert (bytes = bitmap_bytes b) as ->.
  { apply list_eq_same_length with (length (bitmap_bytes b)); [done|lia|]. intros j x y Hj Hx Hy.
    specialize (Hbs (Z.of_nat j) ltac:(lia)). specialize (Hsl (Z.of_nat j) ltac:(lia)).
    rewrite Nat2Z.id, ?Hx, ?Hy in Hbs. rewrite Nat2Z.id, Hy in Hsl. congruence. }
  replace (length (bits b0)) with (length (bits b)) by lia.
  assert (Ews : ∀ rest, words_of (length (bits b)) (bitmap_bytes b ++ rest) = bits b) by (intros; by apply words_of_bytes, Hb).
  rewrite Ews.
  destruct (lookup_lt_is_Some_2 (bits b) (Z.to_nat (elem_cnt (bit_cnt b) - 1))) as [w Hw];
    [rewrite Eec; pose proof (wf_len _ Hb); mod_lia|].
  erewrite bind_ok by by apply need_some. unfold ret. rewrite Hlen, Z.eqb_refl.
  destruct (masked_bits b w Hb Hpos Hw) as [Hwf Hbits]. eexists _, n.
  replace (last_mask b0) with (last_mask b) by (unfold last_mask; by rewrite Ecnt). split_and!; [done..|exact Hbits].
Qed.

Lemma written_slice i buf n d d' :
  written i buf 0 n d d' → Z.of_nat (length buf) = n → n <= length_ (data i) → slice_of d' (start (data i)) 0 buf.
Proof.
  intros Hw Hl Hr j Hj. rewrite (wr_bytes _ _ _ _ _ _ Hw) by lia.
  destruct (Z.leb_spec 0 (0 + j)), (Z.ltb_spec (0 + j) (0 + n)); try lia. simpl. f_equal. lia.
Qed.

(** A bitmap written to a file and read back into a bitmap of the same size has
    the same bits; both operations report success. *)
Theorem bitmap_file_roundtrip s f fl i b b0 :
  bm_wf b → bm_wf b0 → bit_cnt b0 = bit_cnt b → writable s f fl i (bitmap_file_size b) → plenty s →
  ∃ s' b' n, bitmap_write b f s = Ok (true, s') ∧ bitmap_read b0 f s' = Ok ((true, b'), bump n s') ∧
    bm_wf b' ∧ bit_cnt b' = bit_cnt b ∧ ∀ j, 0 <= j < bit_cnt b → bm_bit b' j = bm_bit b j.
Proof.
  intros Hb Hb0 Ec Hw Hp. destruct (bitmap_write_run s f fl i b Hb Hw Hp) as (d' & n & E & Hn & Hwr).
  set (s1 := bump n (set_disk d' s)) in *. destruct Hw as [H1 H2 H3 H4 H5]. unfold bitmap_file_size in H5.
  assert (Hok1 : inode_ok s1 i) by (apply (bump_facts n (set_disk d' s)); [done|done|by eapply written_ok]).
  destruct (bitmap_read_run s1 f fl i b b0) as (b' & n' & Er & Hrest); try done; [split; [apply Hp|done]| |].
  - eapply written_slice; [done|by apply length_bitmap_bytes|done].
  - eauto 10.
Qed.

(** ** Allocating and releasing sectors *)

(** The free map's file: not open yet, or open with its inode. *)
Definition map_file (s : fsys) (o : option (file * inode)) : Prop :=
  match o with
  | None => free_map_file s = NULL
  | Some (fl, i) => free_map_file s ≠ NULL ∧ writable s (free_map_file s) fl i (byte_cnt (dev_size s))
  end.

Definition sectors_ok (s : fsys) : Prop :=
  ∀ sec, 0 <= sec < dev_size s → ∃ bytes, disk s !! sec = Some bytes ∧ length bytes = 512%nat.

Record fs_ok (s : fsys) (o : option (file * inode)) : Prop := {
  fo_plenty : plenty s;
  fo_wf : bm_wf (free_map s);
  fo_size : bit_cnt (free_map s) = dev_size s;
  fo_sectors : sectors_ok s;
  fo_file : map_file s o
}.

(** The disk after the free map [m] was written to its file. *)
Definition map_saved (o : option (file * inode)) (m : bitmap) (d d' : gmap Z (list Z)) : Prop :=
  match o with
  | None => d' = d
  | Some (_, i) => written i (bitmap_bytes m) 0 (byte_cnt (bit_cnt m)) d d'
  end.

Lemma saved_sectors o m s d' : sectors_ok s → map_saved o m (disk s) d' → sectors_ok (set_disk d' s).
Proof.
  intros Hs Hm sec Hsec. simpl in *. destruct (Hs sec Hsec) as (bytes & Hb & Hl).
  destruct o as [[fl i]|]; simpl in Hm; [|subst; eauto]. by eapply (wr_len _ _ _ _ _ _ Hm).
Qed.

Lemma save_map s o m :
  fs_ok s o → bm_wf m → bit_cnt m = dev_size s → o ≠ None →
  ∃ d' n, bitmap_write m (free_map_file s) s = Ok (true, bump n (set_disk d' s)) ∧ 0 < n ∧ map_saved o m (disk s) d'.
Proof.
  intros [Hp Hwf Hsz Hsec Hf] Hm Em Ho. destruct o as [[fl i]|]; [|done]. simpl in *. destruct Hf as [_ Hw].
  rewrite <- Em in Hw. by eapply bitmap_write_run.
Qed.

(** The state after the free map became [m] and the disk [d']. *)
Definition remapped (m : bitmap) (d' : gmap Z (list Z)) (n : Z) (s : fsys) : fsys := bump n (set_disk d' (set_free_map m s)).

Lemma remapped_ok s o m d' n : fs_ok s o → bm_wf m → bit_cnt m = dev_size s → map_saved o m (disk s) d' → 0 < n →
  fs_ok (remapped m d' n s) o.
Proof.
  intros [Hp Hwf Hsz Hsec Hf] Hm Em Hsv Hn. split; try done; [split; [apply Hp|done]|by eapply saved_sectors|].
  destruct o as [[fl i]|]; [|done]. simpl in *. destruct Hf as [Hne [H1 H2 H3 H4 H5]]. split; [done|]. split; try done.
  destruct (written_ok _ _ _ _ _ _ H3 Hsv). by split.
Qed.

Lemma bump_fs_ok s o n : fs_ok s o → 0 < n → fs_ok (bump n s) o.
Proof.
  intros [Hp Hwf Hsz Hsec Hf] Hn. split; try done; [split; [apply Hp|done]|]. destruct o as [[fl i]|]; [|done].
  destruct Hf as [Hne [H1 H2 [] H4 H5]]. split; [done|]. by split.
Qed.

Lemma set_map_ok s o m : fs_ok s o → bm_wf m → bit_cnt m = dev_size s → fs_ok (set_free_map m s) o.
Proof.
  intros [Hp Hwf Hsz Hsec Hf] Hm Em. split; try done. destruct o as [[fl i]|]; [|done].
  destruct Hf as [Hne [H1 H2 [] H4 H5]]. split; [done|]. by split.
Qed.

Lemma allocate_run s o cnt :
  fs_ok s o → 0 <= cnt →
  ∃ sec m' d' n, free_map_allocate cnt s = Ok (sec, remapped m' d' n s) ∧ 0 < n ∧
    scan_result (free_map s) 0 cnt false sec ∧ bm_wf m' ∧ bit_cnt m' = dev_size s ∧
    (∀ j, 0 <= j < dev_size s →
       bm_bit m' j = if negb (sec =? BITMAP_ERROR) && in_range sec cnt j then true else bm_bit (free_map s) j) ∧
    (if sec =? BITMAP_ERROR then m' = free_map s ∧ d' = disk s else map_saved o m' (disk s) d').
Proof.
  intros Hok Hc. destruct Hok as [Hp Hwf Hsz Hsec Hf] eqn:Ek. clear Ek. pose proof (wf_cnt _ Hwf).
  destruct (bitmap_scan_and_flip_spec (free_map s) 0 cnt false) as (r & m' & E & Hres & Hwf' & Hc' & Hb); [done|lia|done|].
  rewrite Hsz in Hc', Hb. unfold free_map_allocate, bind, gets, modify, lift. rewrite E. cbv beta iota.
  change (free_map_file (set_free_map m' s)) with (free_map_file s).
  destruct (Z.eqb_spec r BITMAP_ERROR) as [->|Hne].
  { assert (m' = free_map s) as ->.
    { unfold bitmap_scan_and_flip in E. run_inv. destruct (Z.eqb_spec a BITMAP_ERROR); run_inv; done. }
    exists BITMAP_ERROR, (free_map s), (disk s), (next_addr s). split_and!; [by destruct s|apply Hp|done..]. }
  pose proof (proj2 (Z.eqb_neq _ _) Hne) as Ene. cbn [negb andb]. destruct (Z.eqb_spec (free_map_file s) NULL) as [En|En].
  - exists r, m', (disk s), (next_addr s). rewrite Ene. cbn [negb]. split_and!; [by destruct s|apply Hp|done..|].
    destruct o as [[fl i]|]; [|done]. simpl in Hf. by destruct Hf.
  - assert (Hok' : fs_ok (set_free_map m' s) o) by by apply set_map_ok.
    destruct (save_map (set_free_map m' s) o m' Hok' Hwf' Hc') as (d' & n & Ew & Hn & Hsv); [by destruct o|].
    cbn [negb]. change (free_map_file (set_free_map m' s)) with (free_map_file s) in Ew. rewrite Ew.
    exists r, m', d', n. by rewrite Ene.
Qed.

Lemma release_run s o sec cnt :
  fs_ok s o → o ≠ None → 0 <= sec → 0 <= cnt → sec + cnt <= dev_size s → all_bits (free_map s) sec cnt true →
  ∃ m' d' n, free_map_release sec cnt s = Ok (tt, remapped m' d' n s) ∧ 0 < n ∧ bm_wf m' ∧ bit_cnt m' = dev_size s ∧
    (∀ j, 0 <= j < dev_size s → bm_bit m' j = if in_range sec cnt j then false else bm_bit (free_map s) j) ∧
    map_saved o m' (disk s) d'.
Proof.
  intros Hok Ho Hs Hc Hr Hall. destruct Hok as [Hp Hwf Hsz Hsec Hf] eqn:Ek. clear Ek. rewrite <- Hsz in Hr.
  destruct (bitmap_all_spec (free_map s) sec cnt) as (r & E & Hiff); [done..|].
  destruct (bitmap_set_multiple_spec (free_map s) sec cnt false) as (m' & Em & Hwf' & Hc' & Hb); [done..|].
  rewrite Hsz in Hc', Hb. unfold free_map_release, bind, gets, modify, lift. rewrite E, (proj2 Hiff Hall). cbv beta iota delta [assert ret].
  rewrite Em. cbv beta iota.
  assert (Hok' : fs_ok (set_free_map m' s) o) by by apply set_map_ok.
  destruct (save_map (set_free_map m' s) o m' Hok' Hwf' Hc' Ho) as (d' & n & Ew & Hn & Hsv).
  rewrite Ew. exists m', d', n. done.
Qed.

(** [free_map_allocate] takes the first run of [cnt] free sectors, marks exactly
    those sectors as used and, when the free map's file is open, leaves the new map
    in the file; when there is no such run it fails and changes nothing. *)
Theorem free_map_allocate_correct s o cnt :
  fs_ok s o → 0 <= cnt →
  ∃ sec s', free_map_allocate cnt s = Ok (sec, s') ∧ fs_ok s' o ∧
    (sec = BITMAP_ERROR → disk s' = disk s ∧ free_map s' = free_map s ∧
       ∀ st, 0 <= st <= dev_size s - cnt → ¬ all_bits (free_map s) st cnt false) ∧
    (sec ≠ BITMAP_ERROR → 0 <= sec <= dev_size s - cnt ∧ all_bits (free_map s) sec cnt false ∧
       (∀ st, 0 <= st < sec → ¬ all_bits (free_map s) st cnt false) ∧
       (∀ j, 0 <= j < dev_size s → bm_bit (free_map s') j = in_range sec cnt j || bm_bit (free_map s) j) ∧
       ∀ fl i, o = Some (fl, i) → slice_of (disk s') (start (data i)) 0 (bitmap_bytes (free_map s'))).
Proof.
  intros Hok Hc. destruct (allocate_run s o cnt Hok Hc) as (sec & m' & d' & n & E & Hn & Hres & Hwf & Hcnt & Hb & Hsv).
  pose proof (fo_size _ _ Hok) as Hsz. pose proof (wf_cnt _ (fo_wf _ _ Hok)) as Hcn.
  exists sec, (remapped m' d' n s). split; [done|]. destruct (Z.eqb_spec sec BITMAP_ERROR) as [->|Hne].
  - destruct Hsv as [-> ->]. split.
    { replace (remapped _ _ _ _) with (bump n s) by (by destruct s). by apply bump_fs_ok. }
    split; [|done]. intros _. split_and!; [done..|]. destruct Hres as [[_ Hno]|[Hr _]]; [by rewrite <- Hsz|].
    unfold BITMAP_ERROR in Hr. lia.
  - split; [by apply remapped_ok|]. split; [done|]. intros _.
    destruct Hres as [[? _]|(Hr & Hall & Hno)]; [done|]. rewrite Hsz in Hr. split_and!; try done; try lia.
    intros fl i ->. simpl in *. eapply written_slice; [done|by apply length_bitmap_bytes|].
    rewrite Hcnt. apply (fo_file _ _ Hok).
Qed.

(** Releasing the sectors that an allocation returned succeeds and gives every
    sector back the state it had before the allocation. *)
Theorem free_map_release_undoes_allocate s o cnt sec s1 :
  fs_ok s o → o ≠ None → 0 <= cnt → free_map_allocate cnt s = Ok (sec, s1) → sec ≠ BITMAP_ERROR →
  ∃ s2, free_map_release sec cnt s1 = Ok (tt, s2) ∧ fs_ok s2 o ∧
    ∀ j, 0 <= j < dev_size s → bm_bit (free_map s2) j = bm_bit (free_map s) j.
Proof.
  intros Hok Ho Hc Ea Hne. destruct (allocate_run s o cnt Hok Hc) as (sec' & m' & d' & n & E & Hn & Hres & Hwf & Hcnt & Hb & Hsv).
  rewrite E in Ea. injection Ea as -> <-. rewrite (proj2 (Z.eqb_neq _ _) Hne) in Hsv, Hb.
  destruct Hres as [[? _]|(Hr & Hall & _)]; [done|]. rewrite (fo_size _ _ Hok) in Hr. cbn [negb andb] in Hb.
  destruct (release_run (remapped m' d' n s) o sec cnt) as (m2 & d2 & n2 & E2 & Hn2 & Hwf2 & Hc2 & Hb2 & Hsv2);
    [by apply remapped_ok|done|lia|lia|simpl; lia| |].
  { intros j Hj. simpl. rewrite Hb by lia. unfold in_range. z_cases. }
  eexists. split; [exact E2|]. split; [apply remapped_ok; try done; by apply remapped_ok|].
  intros j Hj. simpl. rewrite Hb2, Hb by done. destruct (in_range sec cnt j) eqn:Ej; [|done].
  symmetry. apply Hall. unfold in_range in Ej. apply andb_true_iff in Ej as [?%Z.leb_le ?%Z.ltb_lt]. lia.
Qed.

(** ** Creating an inode *)

Lemma bytes_to_sectors_spec size : 0 <= size < 2 ^ 31 - 512 → bytes_to_sectors size = (size + 511) / 512.
Proof.
  intros Hs. unfold bytes_to_sectors. rewrite (s32_id (size + 512)), s32_id by int_lia.
  rewrite Z.quot_div_nonneg by lia. replace (size + 512 - 1) with (size + 511) by lia. apply u32_id. mod_lia.
Qed.

Lemma zero_sectors_run n st s :
  0 <= st → st + Z.of_nat n <= dev_size s → dev_size s < 2 ^ 31 →
  ∃ d', zero_sectors n st s = Ok (tt, set_disk d' s) ∧
    ∀ x, d' !! x = if in_range st (Z.of_nat n) x then Some (replicate 512 0) else disk s !! x.
Proof.
  revert st s. induction n as [|n IH]; intros st s Hst Hr Hd; cbn [zero_sectors].
  - exists (disk s). split; [by destruct s|]. intros x. unfold in_range. z_cases.
  - rewrite (bind_ok _ _ _ _ _ (fs_write_ok s st _ ltac:(lia))). rewrite u32_id by int_lia.
    set (s1 := set_disk (<[st := replicate 512 0]> (disk s)) s).
    destruct (IH (st + 1) s1) as (d' & E & Hd'); [lia|simpl; lia|done|]. exists d'. split; [done|]. intros x. rewrite Hd'.
    simpl disk. unfold in_range. destruct (decide (x = st)) as [->|].
    + rewrite lookup_insert_eq. z_cases.
    + rewrite lookup_insert_ne by done. z_cases.
Qed.

Lemma inode_disk_roundtrip d :
  in_u32 (start d) → in_s32 (length_ d) → in_u32 (magic_ d) → inode_disk_of (inode_disk_bytes d) = d.
Proof.
  intros H1 H2 H3. unfold inode_disk_of, inode_disk_bytes.
  change (drop 4 (le32 (start d) ++ ?r)) with r. change (drop 8 (le32 (start d) ++ le32 (u32 (length_ d)) ++ ?r)) with r.
  rewrite !from_le32_app by (done || apply u32_range). destruct d as [st len m]; simpl in *. f_equal. mod_lia.
Qed.

Lemma malloc_plenty s : plenty s → malloc s = Ok (next_addr s, bump (next_addr s + 1) s) ∧ (next_addr s =? NULL) = false.
Proof. intros [Hm Hn]. unfold malloc, bump. rewrite Hm. split; [done|]. apply Z.eqb_neq. unfold NULL. lia. Qed.

(** What a successful [inode_create] leaves on the disk. *)
Record created (s s' : fsys) (sec len st : Z) : Prop := {
  cr_fits : 0 <= st ∧ st + (len + 511) / 512 <= dev_size s;
  cr_free : all_bits (free_map s) st ((len + 511) / 512) false;
  cr_taken : ∀ j, 0 <= j < dev_size s → bm_bit (free_map s') j = in_range st ((len + 511) / 512) j || bm_bit (free_map s) j;
  cr_header : inode_disk_of <$> disk s' !! sec = Some (mk_inode_disk st len INODE_MAGIC);
  cr_zero : ∀ pos, 0 <= pos < len → byte_at (disk s') st pos = Some 0
}.

Lemma byte_at_zero d st n pos :
  (∀ x, in_range st n x = true → d !! x = Some (replicate 512 0)) → 0 <= pos < 512 * n → byte_at d st pos = Some 0.
Proof.
  intros Hd Hpos. unfold byte_at. rewrite Hd by (unfold in_range; apply andb_true_iff; rewrite Z.leb_le, Z.ltb_lt; mod_lia).
  cbn [mbind option_bind]. rewrite lookup_replicate. split; [done|]. mod_lia.
Qed.

(** [inode_create] always returns.  It fails exactly when there is no run of
    free sectors long enough for the file, and then changes neither the disk nor the
    free map.  Otherwise it takes such a run, the sector given for the inode holds the
    header of a file of the given length in that run, and every byte of the file is
    zero. *)
Theorem inode_create_correct s o sec len :
  fs_ok s o → 0 <= len < 2 ^ 31 - 512 → 0 <= sec < dev_size s → bm_bit (free_map s) sec = true →
  ∃ b s', inode_create sec len s = Ok (b, s') ∧
    if b then ∃ st, created s s' sec len st
    else disk s' = disk s ∧ free_map s' = free_map s ∧
         ∀ st, 0 <= st <= dev_size s - (len + 511) / 512 → ¬ all_bits (free_map s) st ((len + 511) / 512) false.
Proof.
  intros Hok Hlen Hsec Hused. pose proof (fo_size _ _ Hok) as Hsz. pose proof (wf_cnt _ (fo_wf _ _ Hok)) as Hcn.
  unfold inode_create. rewrite (proj2 (Z.leb_le 0 len)) by lia. cbn [assert]. erewrite bind_ok by reflexivity.
  destruct (malloc_plenty s (fo_plenty _ _ Hok)) as [Em En]. rewrite (bind_ok _ _ _ _ _ Em), En.
  rewrite bytes_to_sectors_spec by done. set (n := (len + 511) / 512).
  assert (Hn : 0 <= n < 2 ^ 31) by (unfold n; mod_lia).
  assert (Hok1 : fs_ok (bump (next_addr s + 1) s) o) by (apply bump_fs_ok; [done|]; destruct (fo_plenty _ _ Hok); lia).
  destruct (allocate_run _ o n Hok1 ltac:(lia)) as (st & m' & d' & k & E & Hk & Hres & Hwf & Hcnt & Hb & Hsv).
  rewrite (bind_ok _ _ _ _ _ E). simpl in Hres, Hcnt, Hb, Hsv. destruct (Z.eqb_spec st BITMAP_ERROR) as [->|Hne].
  { destruct Hsv as [-> ->]. eexists false, _. split; [reflexivity|]. split; [done|]. split; [done|]. rewrite <- Hsz.
    destruct Hres as [[_ Hno]|[Hr _]]; [done|]. unfold BITMAP_ERROR in Hr. lia. }
  destruct Hres as [[? _]|(Hr & Hall & _)]; [done|]. rewrite Hsz in Hr. cbn [negb andb] in Hb.
  set (s1 := remapped m' d' k (bump (next_addr s + 1) s)) in *.
  rewrite (bind_ok _ _ _ _ _ (fs_write_ok s1 sec _ ltac:(simpl; lia))). set (hdr := inode_disk_bytes _).
  destruct (zero_sectors_run (Z.to_nat n) st (set_disk (<[sec := hdr]> (disk s1)) s1)) as (d2 & E2 & Hd2); [lia|simpl; lia|simpl; lia|].
  rewrite (bind_ok _ _ _ _ _ E2). eexists true, _. split; [reflexivity|]. exists st. rewrite Z2Nat.id in Hd2 by lia.
  assert (Hout : in_range st n sec = false).
  { destruct (in_range st n sec) eqn:Er; [|done]. unfold in_range in Er. apply andb_true_iff in Er as [?%Z.leb_le ?%Z.ltb_lt].
    rewrite Hall in Hused by lia. done. }
  split; simpl; fold n.
  - lia.
  - done.
  - intros j Hj. rewrite Hb by done. by destruct (in_range st n j).
  - rewrite Hd2, Hout. simpl. rewrite lookup_insert_eq. unfold hdr. simpl fmap. f_equal. apply inode_disk_roundtrip; simpl; [int_lia|int_lia|by split].
  - intros pos Hpos. apply (byte_at_zero _ _ n); [|unfold n; mod_lia]. intros x Hx. by rewrite Hd2, Hx.
Qed.

(** ** A sample file system: 40 sectors, of which the first eight are in use, with the
    free map's file (4 bytes would do; it has 8) in sector 2. *)

Definition sample_map_inode : inode := mk_inode 0 1 false 0 (mk_inode_disk 2 8 INODE_MAGIC).
Definition sample_fsys : fsys :=
  mk_fsys (list_to_map ((λ k, (k, replicate 512 0)) <$> seqZ 0 40)) 40 [5] {[5 := sample_map_inode]}
    {[6 := mk_file 5 0 false]} (mk_bitmap 40 [255; 0]) 6 [] 7.
Definition sample_open : option (file * inode) := Some (mk_file 5 0 false, sample_map_inode).

Lemma sample_sectors : sectors_ok sample_fsys.
Proof.
  intros sec Hsec. exists (replicate 512 0). split; [|done]. cbn [sample_fsys dev_size disk] in *.
  apply elem_of_list_to_map_1.
  - rewrite <- list_fmap_compose. erewrite list_fmap_ext by (intros; reflexivity). rewrite list_fmap_id. apply NoDup_seqZ.
  - apply list_elem_of_fmap. exists sec. split; [done|]. apply elem_of_seqZ. lia.
Qed.

Lemma sample_map_inode_ok : inode_ok sample_fsys sample_map_inode.
Proof.
  split; [by split|done..|]. intros sec Hsec. change (2 <= sec < 2 + 1) in Hsec.
  apply sample_sectors. cbn [sample_fsys dev_size]. lia.
Qed.

Lemma sample_fsys_ok : fs_ok sample_fsys sample_open.
Proof.
  split; [by split|split; [by split|done|by repeat constructor]|done|exact sample_sectors|].
  split; [done|]. split; try done; [exact sample_map_inode_ok].
Qed.

Lemma bitmap_file_roundtrip_witness :
  ∃ s' b' n, bitmap_write (mk_bitmap 40 [77; 200]) 6 sample_fsys = Ok (true, s') ∧
    bitmap_read (mk_bitmap 40 [0; 0]) 6 s' = Ok ((true, b'), bump n s') ∧
    bm_wf b' ∧ bit_cnt b' = 40 ∧ ∀ j, 0 <= j < 40 → bm_bit b' j = bm_bit (mk_bitmap 40 [77; 200]) j.
Proof.
  apply (bitmap_file_roundtrip sample_fsys 6 (mk_file 5 0 false) sample_map_inode (mk_bitmap 40 [77; 200]) (mk_bitmap 40 [0; 0]));
    [split; [by split|done|by repeat constructor]|split; [by split|done|by repeat constructor]|done| |by split].
  split; try done; exact sample_map_inode_ok.
Defined.

Lemma free_map_allocate_correct_witness :
  ∃ sec s', free_map_allocate 10 sample_fsys = Ok (sec, s') ∧ sec = 8 ∧ fs_ok s' sample_open.
Proof.
  destruct (free_map_allocate_correct sample_fsys sample_open 10 sample_fsys_ok) as (sec & s' & E & Hok & _); [lia|].
  exists sec, s'. split; [done|]. split; [|done]. vm_compute in E. by injection E as <- _.
Defined.

Lemma free_map_release_undoes_allocate_witness :
  ∃ s1 s2, free_map_allocate 10 sample_fsys = Ok (8, s1) ∧ free_map_release 8 10 s1 = Ok (tt, s2) ∧ fs_ok s2 sample_open ∧
    ∀ j, 0 <= j < 40 → bm_bit (free_map s2) j = bm_bit (free_map sample_fsys) j.
Proof.
  set (s1 := match free_map_allocate 10 sample_fsys with Ok (_, s) => s | Fail _ => sample_fsys end).
  assert (E1 : free_map_allocate 10 sample_fsys = Ok (8, s1)) by (vm_compute; reflexivity). exists s1.
  destruct (free_map_release_undoes_allocate sample_fsys sample_open 10 8 s1 sample_fsys_ok) as (s2 & E & Hrest);
    [done|lia|exact E1|done|].
  exists s2. split; [exact E1|]. split; [exact E|exact Hrest].
Defined.

Lemma inode_create_correct_witness :
  ∃ b s', inode_create 7 3000 sample_fsys = Ok (b, s') ∧ b = true ∧ created sample_fsys s' 7 3000 8.
Proof.
  destruct (inode_create_correct sample_fsys sample_open 7 3000 sample_fsys_ok) as (b & s' & E & H); [lia|simpl; lia|done|].
  exists b, s'. split; [done|].
  assert (Eb : (fst <$> match inode_create 7 3000 sample_fsys with Ok r => Some r | Fail _ => None end) = Some true) by (vm_compute; reflexivity).
  rewrite E in Eb. simpl in Eb. injection Eb as ->. split; [done|]. destruct H as (st & H).
  assert (Es : (λ d, start (inode_disk_of d)) <$> (disk s' !! 7) = Some 8).
  { vm_compute in E. injection E as <-. vm_compute. reflexivity. }
  pose proof (cr_header _ _ _ _ _ H) as Hh. destruct (disk s' !! 7); simpl in *; [|done].
  injection Hh as Hh. injection Es as Es. rewrite Hh in Es. simpl in Es. by subst st.
Defined.
