(* ===== verification/DirSpec.v ===== *)
(** * Directories as finite maps (src/filesys/directory.c)

    A directory is the list of the 20-byte entries stored in its inode; it stands for
    the map from the names in use to inode sectors.  The scans find the first entry
    they look for, [lookup] is the lookup of the map and [dir_add] its insertion. *)

From S2P Require Import Prelude Bitmap Palloc Inode Filesys FreeMapSpec.
Local Open Scope Z_scope.

(** ** The entries of a directory *)

Definition entry_bytes (d : gmap Z (list Z)) (st k : Z) : list Z :=
  (λ j, default 0 (byte_at d st (20 * k + j))) <$> seqZ 0 20.
Definition entry_cnt (i : inode) : Z := length_ (data i) / 20.
Definition entries (d : gmap Z (list Z)) (i : inode) : list (list Z) :=
  entry_bytes d (start (data i)) <$> seqZ 0 (entry_cnt i).

(** The first entry that satisfies [stop], with its index. *)
Fixpoint first_entry (stop : list Z → bool) (es : list (list Z)) : option (nat * list Z) :=
  match es with
  | [] => None
  | e :: es' => if stop e then Some (O, e) else prod_map S id <$> first_entry stop es'
  end.

(** What the directory maps a name to. *)
Definition dir_find (es : list (list Z)) (name : list Z) : option Z :=
  (λ r, e_sector r.2) <$> first_entry (matches name) es.

Lemma first_entry_some stop es k e :
  first_entry stop es = Some (k, e) → es !! k = Some e ∧ stop e = true.
Proof.
  revert k. induction es as [|e0 es IH]; intros k H; [done|]. simpl in H. destruct (stop e0) eqn:E; [by simplify_eq/=|].
  destruct (first_entry stop es) as [[k' e']|]; [|done]. simplify_eq/=. by apply IH.
Qed.

Lemma first_entry_none stop es k e : first_entry stop es = None → es !! k = Some e → stop e = false.
Proof.
  revert k. induction es as [|e0 es IH]; intros k H Hk; [done|]. simpl in H. destruct (stop e0) eqn:E; [done|].
  destruct (first_entry stop es) as [[k' e']|]; [done|]. destruct k; simplify_eq/=; eauto.
Qed.

(** Replacing an entry that does not satisfy [stop]. *)
Lemma first_entry_insert_new stop es k x :
  first_entry stop es = None → (k < length es)%nat → stop x = true → first_entry stop (<[k := x]> es) = Some (k, x).
Proof.
  revert k. induction es as [|e0 es IH]; intros k H Hk Hx; [simpl in Hk; lia|]. simpl in H.
  destruct (stop e0) eqn:E; [done|]. destruct (first_entry stop es) eqn:Ef; [done|].
  destruct k as [|k]; simpl; [by rewrite Hx|]. rewrite E, IH by (done || (simpl in Hk; lia)). done.
Qed.

Lemma first_entry_insert_other stop es k x old :
  es !! k = Some old → stop old = false → stop x = false →
  snd <$> first_entry stop (<[k := x]> es) = snd <$> first_entry stop es.
Proof.
  revert k. induction es as [|e0 es IH]; intros k Hk Ho Hx; [done|]. destruct k as [|k]; simplify_eq/=.
  - by rewrite Ho, Hx.
  - destruct (stop e0); [done|]. specialize (IH k Hk Ho Hx).
    destruct (first_entry stop (<[k := x]> es)), (first_entry stop es); simpl in *; congruence.
Qed.

Lemma dir_find_snd es name : dir_find es name = e_sector <$> (snd <$> first_entry (matches name) es).
Proof. unfold dir_find. by destruct (first_entry _ es). Qed.

Lemma length_entry d st k : length (entry_bytes d st k) = 20%nat.
Proof. done. Qed.

Lemma entries_length d i : length (entries d i) = Z.to_nat (entry_cnt i).
Proof. unfold entries. by rewrite length_fmap, length_seqZ. Qed.

Lemma entries_lookup d i k : 0 <= k < entry_cnt i → entries d i !! Z.to_nat k = Some (entry_bytes d (start (data i)) k).
Proof. intros Hk. unfold entries. rewrite list_lookup_fmap, lookup_seqZ_lt by lia. simpl. do 2 f_equal. lia. Qed.

Lemma entry_lookup d st k j : (j < 20)%nat → entry_bytes d st k !! j = Some (default 0 (byte_at d st (20 * k + Z.of_nat j))).
Proof. intros Hj. unfold entry_bytes. rewrite list_lookup_fmap, lookup_seqZ_lt by lia. simpl. by rewrite Z.add_0_l. Qed.

(** ** Reading and writing one entry *)

Lemma read_entry s a i k :
  inodes s !! a = Some i → inode_ok s i → plenty s → 0 <= k <= entry_cnt i →
  ∃ bytes n, inode_read_at a DIR_ENTRY_SIZE (20 * k) s = Ok (bytes, bump n s) ∧ 0 < n ∧
    if decide (k < entry_cnt i) then bytes = entry_bytes (disk s) (start (data i)) k
    else (length bytes < 20)%nat.
Proof.
  intros Ha Hi Hp Hk. unfold inode_read_at, get_inode, DIR_ENTRY_SIZE. rewrite (bind_ok _ _ _ i s) by by rewrite Ha.
  pose proof (io_length _ _ Hi) as Hl. unfold entry_cnt in *.
  destruct (read_loop_spec (S (Z.to_nat 20)) i 20 (20 * k) false s Hi Hp ltac:(mod_lia) ltac:(lia))
    as (bytes & n & E & Hn & Hlen & Hb).
  exists bytes, n. split_and!; [done..|]. unfold moved in Hlen. destruct (decide _) as [Hlt|Hlt]; [|mod_lia].
  apply list_eq_same_length with 20%nat; [done|mod_lia|].
  intros j x y Hj Hx Hy. rewrite entry_lookup in Hy by done. specialize (Hb (Z.of_nat j) ltac:(mod_lia)).
  rewrite Nat2Z.id, Hx in Hb. rewrite <- Hb in Hy. by injection Hy.
Qed.

Lemma scan_entries_spec fuel a i stop e0 k s :
  inodes s !! a = Some i → inode_ok s i → plenty s → 0 <= k <= entry_cnt i → length e0 = 20%nat →
  (Z.to_nat (entry_cnt i - k) < fuel)%nat →
  ∃ r n, scan_entries fuel a stop e0 (20 * k) s = Ok (r, bump n s) ∧ 0 < n ∧ length r.1.2 = 20%nat ∧
    match first_entry stop (drop (Z.to_nat k) (entries (disk s) i)) with
    | Some (j, e) => r = (true, e, 20 * (k + Z.of_nat j))
    | None => r.1.1 = false ∧ r.2 = 20 * entry_cnt i
    end.
Proof.
  revert e0 k s. induction fuel as [|fuel IH]; intros e0 k s Ha Hi Hp Hk He0 Hf; [lia|]. cbn [scan_entries].
  destruct (read_entry s a i k Ha Hi Hp Hk) as (bytes & n & E & Hn & Hb). rewrite (bind_ok _ _ _ _ _ E).
  destruct (decide (k < entry_cnt i)) as [Hlt|Hlt].
  - assert (Hlen : length bytes = 20%nat) by by rewrite Hb.
    rewrite Hlen, (drop_ge e0) by lia. rewrite app_nil_r.
    change (Z.of_nat 20 =? DIR_ENTRY_SIZE) with true. cbv iota.
    rewrite (drop_S _ bytes) by (rewrite Hb; apply entries_lookup; lia). simpl first_entry.
    destruct (stop bytes).
    + eexists _, n. unfold ret. split_and!; [done..|]. do 2 f_equal. lia.
    + destruct (bump_facts n s Hn Hp) as [Hp1 Hi1].
      destruct (IH bytes (k + 1) (bump n s)) as (r & n' & E' & Hn' & Hr & Hm); [done|by apply Hi1|done|lia|done|lia|].
      replace (20 * k + DIR_ENTRY_SIZE) with (20 * (k + 1)) by (unfold DIR_ENTRY_SIZE; lia).
      exists r, n'. rewrite bump_bump in E'. split_and!; [done..|].
      change (disk (bump n s)) with (disk s) in Hm. replace (S (Z.to_nat k)) with (Z.to_nat (k + 1)) by lia.
      destruct (first_entry stop (drop _ _)) as [[j e]|]; simpl; [|done]. rewrite Hm. do 2 f_equal. lia.
  - destruct (Z.eqb_spec (Z.of_nat (length bytes)) DIR_ENTRY_SIZE) as [Ee|Ee]; [unfold DIR_ENTRY_SIZE in Ee; lia|].
    rewrite (drop_ge (entries _ _)) by (rewrite entries_length; lia). simpl. eexists _, n. unfold ret. split_and!; [done..| |done|simpl; lia].
    simpl. rewrite length_app, length_drop. lia.
Qed.

Lemma written_entry i d d' k buf n :
  0 <= k → 0 <= length_ (data i) → length buf = 20%nat → written i buf (20 * k) n d d' →
  n = Z.max 0 (Z.min 20 (length_ (data i) - 20 * k)) →
  entries d' i = <[Z.to_nat k := buf]> (entries d i).
Proof.
  intros Hk Hl Hb Hw Hn. apply list_eq_same_length with (Z.to_nat (entry_cnt i));
    [by rewrite length_insert, entries_length|by rewrite entries_length|].
  intros j x y Hj Hx Hy. assert (Hje : 0 <= Z.of_nat j < entry_cnt i) by lia.
  pose proof (entries_lookup d' i (Z.of_nat j) Hje) as H1. pose proof (entries_lookup d i (Z.of_nat j) Hje) as H2.
  rewrite Nat2Z.id in H1, H2. rewrite Hx in H1. injection H1 as ->. unfold entry_cnt in Hje.
  destruct (decide (j = Z.to_nat k)) as [->|Hne].
  - rewrite list_lookup_insert_eq in Hy by (rewrite entries_length; unfold entry_cnt; lia). injection Hy as <-.
    apply list_eq_same_length with 20%nat; [done..|]. intros m x' y' Hm Hx' Hy'.
    rewrite entry_lookup, (wr_bytes _ _ _ _ _ _ Hw) in Hx' by (done || mod_lia).
    destruct (Z.leb_spec (20 * k) (20 * Z.of_nat (Z.to_nat k) + Z.of_nat m)),
      (Z.ltb_spec (20 * Z.of_nat (Z.to_nat k) + Z.of_nat m) (20 * k + n)); try (exfalso; mod_lia).
    simpl in Hx'. replace (Z.to_nat _) with m in Hx' by lia. rewrite Hy' in Hx'. by injection Hx'.
  - rewrite list_lookup_insert_ne, H2 in Hy by done. injection Hy as <-.
    unfold entry_bytes. apply list_fmap_ext. intros m z Hz. apply lookup_seqZ in Hz as [-> Hm]. f_equal.
    rewrite (wr_bytes _ _ _ _ _ _ Hw) by mod_lia.
    destruct (Z.leb_spec (20 * k) (20 * Z.of_nat j + (0 + Z.of_nat m))),
      (Z.ltb_spec (20 * Z.of_nat j + (0 + Z.of_nat m)) (20 * k + n)); simpl; try done. exfalso. mod_lia.
Qed.

(** ** What an entry that was filled in holds *)

Lemma cstr_app name rest : Forall (λ b, b ≠ 0) name → cstr (name ++ 0 :: rest) = name.
Proof. induction 1 as [|b name Hb _ IH]; [done|]. simpl. destruct (Z.eqb_spec b 0); [done|]. by rewrite IH. Qed.

Lemma fill_name e name :
  length e = 20%nat → (length name <= 14)%nat →
  take 15 (blit (take 15 (drop 4 e)) 0 (Z.of_nat (length name) + 1) (name ++ [0])) =
    name ++ 0 :: drop (S (length name)) (take 15 (drop 4 e)).
Proof.
  intros He Hn. unfold blit. simpl (take (Z.to_nat 0) _). rewrite app_nil_l.
  replace (Z.to_nat (Z.of_nat (length name) + 1)) with (length (name ++ [0])) by (rewrite length_app; simpl; lia).
  rewrite firstn_all. replace (Z.to_nat (0 + _)) with (S (length name)) by lia.
  rewrite (take_ge (_ ++ _)); [by rewrite <- app_assoc|]. rewrite !length_app, length_drop, length_take, length_drop. cbn [length]. lia.
Qed.

Lemma fill_entry_fields e name sec :
  length e = 20%nat → (length name <= 14)%nat → Forall (λ b, b ≠ 0) name → in_u32 sec →
  length (fill_entry e name sec) = 20%nat ∧ e_sector (fill_entry e name sec) = sec ∧
  e_name (fill_entry e name sec) = name ∧ e_in_use (fill_entry e name sec) = true.
Proof.
  intros He Hn Hz Hs. unfold fill_entry. rewrite fill_name by done.
  set (nm := name ++ 0 :: drop (S (length name)) (take 15 (drop 4 e))).
  assert (Hnm : length nm = 15%nat).
  { unfold nm. rewrite length_app. cbn [length]. rewrite length_drop, length_take, length_drop. lia. }
  split_and!.
  - rewrite !length_app, Hnm. done.
  - by apply from_le32_app.
  - unfold e_name. change (drop 4 (le32 sec ++ nm ++ [1])) with (nm ++ [1]).
    rewrite take_app_le, take_ge by lia. by apply cstr_app.
  - unfold e_in_use. change (nth 19 (le32 sec ++ nm ++ [1]) 0) with (nth 15 (nm ++ [1]) 0).
    rewrite app_nth2 by lia. by rewrite Hnm.
Qed.

(** ** Lookup and insertion *)

Section directory_spec.
Context (junk : list Z) (Hjunk : length junk = 20%nat).

Lemma scan_run s a i stop :
  inodes s !! a = Some i → inode_ok s i → plenty s →
  ∃ r n, (let* fuel := dir_rounds a in scan_entries fuel a stop junk 0) s = Ok (r, bump n s) ∧ 0 < n ∧
    length r.1.2 = 20%nat ∧
    match first_entry stop (entries (disk s) i) with
    | Some (j, e) => r = (true, e, 20 * Z.of_nat j)
    | None => r.1.1 = false ∧ r.2 = 20 * entry_cnt i
    end.
Proof.
  intros Ha Hi Hp. pose proof (io_length _ _ Hi) as Hl. unfold dir_rounds, get_inode.
  rewrite (bind_ok _ _ _ (S (Z.to_nat (inode_length i))) s) by (unfold bind; by rewrite Ha).
  apply (scan_entries_spec _ a i stop junk 0 s); try done.
  - unfold entry_cnt. mod_lia.
  - unfold entry_cnt, inode_length. mod_lia.
Qed.

(** [dir_lookup] opens the inode sector that the directory maps the name to, and
    returns null when it maps the name to nothing; a directory maps a name to the
    sector of the first of its entries that is in use under exactly that name. *)
Theorem dir_lookup_correct s d i name :
  inodes s !! d_inode d = Some i → inode_ok s i → plenty s →
  ∃ n, 0 < n ∧ dir_lookup junk d name s =
    match dir_find (entries (disk s) i) name with
    | Some sec => inode_open sec (bump n s)
    | None => Ok (NULL, bump n s)
    end.
Proof.
  intros Ha Hi Hp. destruct (scan_run s (d_inode d) i (matches name) Ha Hi Hp) as ([[f e] o] & n & E & Hn & _ & Hr).
  exists n. split; [done|]. unfold dir_lookup, lookup_. rewrite (bind_ok _ _ _ _ _ E). unfold dir_find.
  destruct (first_entry _ _) as [[j e']|]; simpl in *; [by simplify_eq|by destruct Hr as [-> _]].
Qed.

(** What [dir_add] does once the name is known to be valid and new. *)
Lemma add_entry s a i name sec :
  inodes s !! a = Some i → inode_ok s i → plenty s → deny_write_cnt i = 0 →
  (length name <= 14)%nat → Forall (λ b, b ≠ 0) name → in_u32 sec →
  let es := entries (disk s) i in
  ∃ b n d', (let* fuel := dir_rounds a in
      let* (_, e, ofs) := scan_entries fuel a (λ e, negb (e_in_use e)) junk 0 in
      let* n := inode_write_at a (fill_entry e name sec) DIR_ENTRY_SIZE ofs in
      ret (n =? DIR_ENTRY_SIZE)) s = Ok (b, bump n (set_disk d' s)) ∧ 0 < n ∧
    inode_ok (set_disk d' s) i ∧
    (∀ x, ¬ (start (data i) <= x < start (data i) + (length_ (data i) + 511) / 512) → d' !! x = disk s !! x) ∧
    match first_entry (λ e, negb (e_in_use e)) es with
    | Some (k, e) => b = true ∧ entries d' i = <[k := fill_entry e name sec]> es
    | None => b = false ∧ entries d' i = es
    end.
Proof.
  intros Ha Hi Hp Hd Hn Hz Hs es. pose proof (io_length _ _ Hi) as Hl.
  destruct (scan_run s a i (λ e, negb (e_in_use e)) Ha Hi Hp) as ([[f e] o] & n & E & Hn0 & He & Hr). simpl in He.
  rewrite <- bind_assoc. rewrite (bind_ok _ _ _ _ _ E). destruct (bump_facts n s Hn0 Hp) as [Hp1 Hi1].
  destruct (fill_entry_fields e name sec He Hn Hz Hs) as (Hfl & _).
  assert (Hlast : ∃ k, o = 20 * k ∧ 0 <= k <= entry_cnt i ∧ k = match first_entry (λ e, negb (e_in_use e)) es with
            Some (j, _) => Z.of_nat j | None => entry_cnt i end).
  { unfold es. destruct (first_entry _ _) as [[j e']|] eqn:Ef; simplify_eq/=.
    - apply first_entry_some in Ef as [Hlk _]. apply lookup_lt_Some in Hlk. rewrite entries_length in Hlk.
      exists (Z.of_nat j). split_and!; lia.
    - destruct Hr as [_ ->]. eexists. split_and!; [done| | |done]; unfold entry_cnt; mod_lia. }
  destruct Hlast as (k & -> & Hk & Ek). unfold entry_cnt in Hk.
  destruct (write_at_run (bump n s) a i (fill_entry e name sec) DIR_ENTRY_SIZE (20 * k)) as (d' & n' & Ew & Hn' & Hw);
    [done|done|by apply Hi1|done|mod_lia|rewrite Hfl; unfold DIR_ENTRY_SIZE; lia|].
  rewrite (bind_ok _ _ _ _ _ Ew). eexists _, n', d'. split; [reflexivity|]. split; [done|].
  change (disk (bump n s)) with (disk s) in Hw. split; [by eapply written_ok|]. split; [apply Hw|].
  pose proof (written_entry i (disk s) d' k _ _ ltac:(lia) ltac:(lia) Hfl Hw eq_refl) as Hent. rewrite Hent.
  unfold moved, DIR_ENTRY_SIZE. fold es in Hr |- *.
  destruct (first_entry (λ e, negb (e_in_use e)) es) as [[j e']|] eqn:Ef; simpl in Hr; simplify_eq.
  - apply first_entry_some in Ef as [Hlk _]. apply lookup_lt_Some in Hlk. unfold es in Hlk. rewrite entries_length in Hlk.
    unfold entry_cnt in Hlk. rewrite Nat2Z.id. split; [apply Z.eqb_eq; mod_lia|done].
  - split; [apply Z.eqb_neq; unfold entry_cnt; mod_lia|]. apply list_insert_ge. unfold es. rewrite entries_length. done.
Qed.

Lemma add_entry_find es k e name sec nm :
  first_entry (λ e, negb (e_in_use e)) es = Some (k, e) → length e = 20%nat → (length name <= 14)%nat →
  Forall (λ b, b ≠ 0) name → in_u32 sec → dir_find es name = None →
  dir_find (<[k := fill_entry e name sec]> es) nm = if decide (nm = name) then Some sec else dir_find es nm.
Proof.
  intros Hf He Hn Hz Hs Hnone. apply first_entry_some in Hf as [Hlk Hfree].
  destruct (fill_entry_fields e name sec He Hn Hz Hs) as (_ & Esec & Ename & Euse).
  destruct (decide (nm = name)) as [->|Hne].
  - unfold dir_find in *. rewrite first_entry_insert_new.
    + exact (f_equal Some Esec).
    + by destruct (first_entry (matches name) es).
    + by eapply lookup_lt_Some.
    + unfold matches. rewrite Euse, Ename. by apply bool_decide_eq_true.
  - rewrite !dir_find_snd. rewrite (first_entry_insert_other _ _ _ _ e); [done|done| |].
    + unfold matches. by destruct (e_in_use e).
    + unfold matches. rewrite Euse, Ename. by apply bool_decide_eq_false.
Qed.

Lemma entries_lengths d i k e : entries d i !! k = Some e → length e = 20%nat.
Proof. unfold entries. rewrite list_lookup_fmap. destruct (seqZ _ _ !! k); [|done]. by intros [= <-]. Qed.

(** C19: [dir_add] always returns.  It succeeds exactly when the name has 1 to 14
    characters, the directory does not map it yet and some entry is free; then the
    directory maps the name to the given sector and every other name to what it did
    before.  When it fails the directory maps every name to what it did before.  No
    sector outside the directory's file changes. *)
Theorem dir_add_refines_insert s d i name sec :
  inodes s !! d_inode d = Some i → inode_ok s i → plenty s → deny_write_cnt i = 0 →
  Forall (λ b, b ≠ 0) name → in_u32 sec →
  let es := entries (disk s) i in
  ∃ b n d', dir_add junk d name sec s = Ok (b, bump n (set_disk d' s)) ∧ inode_ok (set_disk d' s) i ∧
    (b = true ↔ name ≠ [] ∧ (length name <= 14)%nat ∧ dir_find es name = None ∧
                ∃ k e, es !! k = Some e ∧ e_in_use e = false) ∧
    (∀ nm, dir_find (entries d' i) nm = if decide (b = true ∧ nm = name) then Some sec else dir_find es nm) ∧
    (∀ x, ¬ (start (data i) <= x < start (data i) + (length_ (data i) + 511) / 512) → d' !! x = disk s !! x).
Proof.
  intros Ha Hi Hp Hd Hz Hs es. unfold dir_add.
  assert (Hfalse : ∀ n : Z, ¬ (name ≠ [] ∧ (length name <= 14)%nat ∧ dir_find es name = None ∧
      ∃ k e, es !! k = Some e ∧ e_in_use e = false) →
    ∃ b n' d', (Ok (false, bump n s) : res (bool * fsys)) = Ok (b, bump n' (set_disk d' s)) ∧ inode_ok (set_disk d' s) i ∧
    (b = true ↔ name ≠ [] ∧ (length name <= 14)%nat ∧ dir_find es name = None ∧
                ∃ k e, es !! k = Some e ∧ e_in_use e = false) ∧
    (∀ nm, dir_find (entries d' i) nm = if decide (b = true ∧ nm = name) then Some sec else dir_find es nm) ∧
    (∀ x, ¬ (start (data i) <= x < start (data i) + (length_ (data i) + 511) / 512) → d' !! x = disk s !! x)).
  { intros n Hno. exists false, n, (disk s). split_and!; [by destruct s|by destruct Hi|naive_solver| |done].
    intros nm. destruct (decide _) as [[? _]|]; [done|done]. }
  destruct (bool_decide (name = []) || (NAME_MAX <? Z.of_nat (length name))) eqn:Ebad.
  { specialize (Hfalse (next_addr s)). rewrite bump_self in Hfalse. apply Hfalse. apply orb_true_iff in Ebad as [->%bool_decide_eq_true|E%Z.ltb_lt].
    - naive_solver.
    - unfold NAME_MAX in E. intros (_ & Hle & _). lia. }
  apply orb_false_iff in Ebad as [Hne%bool_decide_eq_false E%Z.ltb_ge]. unfold NAME_MAX in E.
  destruct (scan_run s (d_inode d) i (matches name) Ha Hi Hp) as ([[f e] o] & n & Es & Hn & _ & Hr).
  unfold lookup_. rewrite (bind_ok _ _ _ _ _ Es). fold es in Hr.
  destruct (first_entry (matches name) es) as [[j e']|] eqn:Ef; simpl in Hr; simplify_eq/=.
  { apply Hfalse. unfold dir_find. rewrite Ef. naive_solver. }
  destruct Hr as [-> ->]. destruct (bump_facts n s Hn Hp) as [Hp1 Hi1].
  destruct (add_entry (bump n s) (d_inode d) i name sec) as (b & n1 & d' & Ea & _ & Hok & Hout & Hm);
    [done|by apply Hi1|done|done|lia|done|done|].
  exists b, n1, d'. split; [done|]. split; [by destruct Hok|].
  assert (Hnone : dir_find es name = None) by (unfold dir_find; by rewrite Ef).
  change (disk (bump n s)) with (disk s) in Hm. fold es in Hm.
  destruct (first_entry (λ e, negb (e_in_use e)) es) as [[k ek]|] eqn:Efree; destruct Hm as [-> Hent].
  - pose proof (first_entry_some _ _ _ _ Efree) as [Hlk Hfree]. split_and!; [|intros nm|done].
    + split; [intros _|done]. split_and!; [done|lia|done|]. exists k, ek. split; [done|]. by destruct (e_in_use ek).
    + rewrite Hent, add_entry_find; [|done|by eapply entries_lengths|lia|done..].
      destruct (decide (nm = name)), (decide (true = true ∧ nm = name)); naive_solver.
  - split_and!; [|intros nm|done].
    + split; [done|]. intros (_ & _ & _ & k & e' & Hlk & Huse).
      pose proof (first_entry_none _ _ _ _ Efree Hlk) as H. simpl in H. by rewrite Huse in H.
    + rewrite Hent. destruct (decide _) as [[? _]|]; done.
Qed.
End directory_spec.

(** ** A sample directory of sixteen free entries in sector 3 *)

Definition sample_dir_inode : inode := mk_inode 1 1 false 0 (mk_inode_disk 3 320 INODE_MAGIC).
Definition sample_dir_fs : fsys := set_inodes (<[8 := sample_dir_inode]> (inodes sample_fsys)) sample_fsys.
Definition stack : list Z := replicate 20 85.
Definition hello : list Z := [104; 101; 108; 108; 111].

Lemma sample_dir_ok : inode_ok sample_dir_fs sample_dir_inode.
Proof.
  split; [by split|done..|]. intros sec Hsec. change (3 <= sec < 3 + 1) in Hsec. apply sample_sectors.
  cbn [sample_fsys dev_size]. lia.
Qed.

Lemma dir_lookup_correct_witness :
  ∃ n, 0 < n ∧ dir_lookup stack (mk_dir 8 0) hello sample_dir_fs = Ok (NULL, bump n sample_dir_fs).
Proof.
  destruct (dir_lookup_correct stack eq_refl sample_dir_fs (mk_dir 8 0) sample_dir_inode hello) as (n & Hn & E);
    [reflexivity|exact sample_dir_ok|by split|].
  exists n. split; [done|]. rewrite E. replace (dir_find _ _) with (@None Z) by (vm_compute; reflexivity). reflexivity.
Defined.

Lemma dir_add_refines_insert_witness :
  ∃ b n d', dir_add stack (mk_dir 8 0) hello 9 sample_dir_fs = Ok (b, bump n (set_disk d' sample_dir_fs)) ∧
    b = true ∧ dir_find (entries d' sample_dir_inode) hello = Some 9.
Proof.
  destruct (dir_add_refines_insert stack eq_refl sample_dir_fs (mk_dir 8 0) sample_dir_inode hello 9)
    as (b & n & d' & E & _ & Hb & Hf & _); [reflexivity|exact sample_dir_ok|by split|done|by repeat constructor|by split|].
  exists b, n, d'. split; [done|]. assert (b = true) as ->.
  { apply Hb. split_and!; [done|simpl; lia|vm_compute; reflexivity|]. exists O. eexists. split; vm_compute; reflexivity. }
  split; [done|]. rewrite Hf. destruct (decide _) as [_|Hn]; [reflexivity|]. exfalso. apply Hn. by split.
Defined.

(** ** The file system from formatting on *)

Definition blank_fs : fsys :=
  mk_fsys (list_to_map ((λ k, (k, replicate 512 170)) <$> seqZ 0 40)) 40 [] ∅ ∅ (mk_bitmap 0 []) NULL [] 16.

(** Formats the disk, creates a file of 600 bytes and opens it, writes four bytes
    across a sector boundary and reads ten around them, removes the file while it is
    open, fails to open it again, and closes it. *)
Definition lifecycle : F (bool * Z * list Z * bool * Z * bitmap * bitmap * bitmap) :=
  filesys_init stack true ;;;
  let* formatted := gets free_map in
  let* created := filesys_create stack hello 600 in
  let* f := filesys_open stack hello in
  file_seek f 510 ;;;
  let* n := file_write f [1; 2; 3; 4] 4 in
  file_seek f 507 ;;;
  let* bytes := file_read f 10 in
  let* removed := filesys_remove stack hello in
  let* again := filesys_open stack hello in
  let* still := gets free_map in
  file_close f ;;;
  let* released := gets free_map in
  ret (created, n, bytes, removed, again, formatted, still, released).

(** The file system formats a disk; a file can be created, opened, written and
    read back; once removed it cannot be opened again, its sectors stay allocated as
    long as it is open, and closing it gives the free map exactly the value it had
    before the file was created. *)
Theorem filesys_lifecycle :
  ∃ s, lifecycle blank_fs =
    Ok (true, 4, [0; 0; 0; 1; 2; 3; 4; 0; 0; 0], true, NULL, mk_bitmap 40 [15; 0], mk_bitmap 40 [127; 0], mk_bitmap 40 [15; 0], s).
Proof. eexists. vm_compute. reflexivity. Qed.

(** Creates a file twice under the same name. *)
Definition create_twice : F (bool * bool * bitmap * bitmap) :=
  filesys_init stack true ;;;
  let* first := filesys_create stack hello 600 in
  let* before := gets free_map in
  let* second := filesys_create stack hello 600 in
  let* after := gets free_map in
  ret (first, second, before, after).

(** A [filesys_create] that fails because the name is taken does not leave the
    free map as it was: the inode's own sector is released, but the two sectors its
    data was given (8 and 9) stay allocated although no file uses them. *)
Theorem failed_create_leaks_data_sectors :
  ∃ s, create_twice blank_fs = Ok (true, false, mk_bitmap 40 [127; 0], mk_bitmap 40 [127 + 2 ^ 8 + 2 ^ 9; 0], s).
Proof. eexists. vm_compute. reflexivity. Qed.
