(* ===== verification/Fsutil.v ===== *)
(** * File system utilities (src/filesys/fsutil.c)

    The commands of the kernel command line that work on the file system and on the tar
    archive of the scratch device.  The state puts the file system next to the registry of
    block devices, whose [mem] also answers for the allocations of the buffers, and the two
    static positions in the archive. *)

From S2P Require Import Prelude Stdio Ustar Block Bitmap Palloc Inode Filesys.
Local Open Scope Z_scope.

Record fsutil := mk_fsutil { fs : fsys; reg : registry; extract_sector : Z; append_sector : Z }.

Notation U := (M fsutil).

Definition in_fs {A} (m : M fsys A) : U A := λ s,
  match m (fs s) with Ok (a, f) => Ok (a, mk_fsutil f (reg s) (extract_sector s) (append_sector s)) | Fail f => Fail f end.
Definition in_reg {A} (m : M registry A) : U A := λ s,
  match m (reg s) with Ok (a, r) => Ok (a, mk_fsutil (fs s) r (extract_sector s) (append_sector s)) | Fail f => Fail f end.
Definition say (format : list Z) (args : list arg) : U unit := in_reg (Block.printf format args).

(** [sector++] for the two positions. *)
Definition next_extract : U Z := λ s, Ok (extract_sector s, mk_fsutil (fs s) (reg s) (u32 (extract_sector s + 1)) (append_sector s)).
Definition next_append : U Z := λ s, Ok (append_sector s, mk_fsutil (fs s) (reg s) (extract_sector s) (u32 (append_sector s + 1))).

Definition zeros : list Z := replicate 512 0.

(** Allocation of buffers, which are freed at the end. *)
Definition buffer : U unit := in_reg Block.malloc_or_panic.

(** The device with the scratch role. *)
Definition scratch : U nat :=
  let* o := in_reg (Block.block_get_role BLOCK_SCRATCH) in
  match o with Some b => ret b | None => fail Panicked end.

Section commands.
(** What the stack holds where the buffers for directory entries are. *)
Variable junk : list Z.

Fixpoint list_names (fuel : nat) (d : dir) : U dir :=
  match fuel with
  | O => fail NoFuel
  | S fuel =>
      let* (name, d) := in_fs (dir_readdir junk d) in
      match name with
      | Some n => say (chars "%s" ++ [10]) [Str (Some n)] ;;; list_names fuel d
      | None => ret d
      end
  end.

Definition fsutil_ls : U unit :=
  say (chars "Files in the root directory:" ++ [10]) [] ;;;
  let* o := in_fs dir_open_root in
  match o with
  | None => fail Panicked
  | Some d =>
      let* fuel := in_fs (dir_rounds (d_inode d)) in
      let* d := list_names fuel d in
      in_fs (dir_close (Some d)) ;;;
      say (chars "End of listing." ++ [10]) []
  end.

(** [file_open] of a name that must exist. *)
Definition must_open (name : list Z) : U Z :=
  let* f := in_fs (filesys_open junk name) in
  if f =? NULL then fail Panicked else ret f.

(** Each round but the last reads at least one byte. *)
Fixpoint cat_loop (fuel : nat) (f : Z) : U unit :=
  match fuel with
  | O => fail NoFuel
  | S fuel =>
      let* pos := in_fs (file_tell f) in
      let* bytes := in_fs (file_read f PGSIZE) in
      if bool_decide (bytes = []) then ret tt
      else
        let* out := lift (hex_dump (S (length bytes)) (u32 pos) bytes true) in
        in_reg (Block.print out) ;;;
        cat_loop fuel f
  end.

Definition fsutil_cat (file_name : list Z) : U unit :=
  say (chars "Printing '%s' to the console..." ++ [10]) [Str (Some file_name)] ;;;
  let* f := must_open file_name in
  buffer ;;;
  let* n := in_fs (file_length f) in
  cat_loop (S (Z.to_nat n)) f ;;;
  in_fs (file_close f).

Definition fsutil_rm (file_name : list Z) : U unit :=
  say (chars "Deleting '%s'..." ++ [10]) [Str (Some file_name)] ;;;
  let* ok := in_fs (filesys_remove junk file_name) in
  if ok then ret tt else fail Panicked.

(** ** Extraction *)

Definition chunk_of (size : Z) : Z := if BLOCK_SECTOR_SIZE <? size then BLOCK_SECTOR_SIZE else size.

(** [while (size > 0)]; each round moves at least one byte. *)
Fixpoint copy_in (fuel : nat) (src : nat) (dst size : Z) : U unit :=
  match fuel with
  | O => fail NoFuel
  | S fuel =>
      if 0 <? size then
        let* sector := next_extract in
        let* data := in_reg (Block.block_read src sector) in
        let* n := in_fs (file_write dst data (chunk_of size)) in
        if n =? chunk_of size then copy_in fuel src dst (size - chunk_of size) else fail Panicked
      else ret tt
  end.

Definition extract_file (src : nat) (file_name : list Z) (size : Z) : U unit :=
  say (chars "Putting '%s' into the file system..." ++ [10]) [Str (Some file_name)] ;;;
  let* ok := in_fs (filesys_create junk file_name size) in
  if ok then
    let* dst := must_open file_name in
    copy_in (S (Z.to_nat size)) src dst size ;;;
    in_fs (file_close dst)
  else fail Panicked.

(** Each round reads one more sector of the device. *)
Fixpoint extract_loop (fuel : nat) (src : nat) : U unit :=
  match fuel with
  | O => fail NoFuel
  | S fuel =>
      let* sector := next_extract in
      let* header := in_reg (Block.block_read src sector) in
      let* e := lift (ustar_parse_header header) in
      match e with
      | Entry file_name type size =>
          if type =? USTAR_EOF then ret tt
          else if type =? USTAR_DIRECTORY then
            say (chars "ignoring directory %s" ++ [10]) [Str file_name] ;;; extract_loop fuel src
          else if type =? USTAR_REGULAR then
            match file_name with
            | Some name => extract_file src name size ;;; extract_loop fuel src
            | None => fail Undef
            end
          else extract_loop fuel src
      | _ => fail Panicked
      end
  end.

Definition fsutil_extract : U unit :=
  buffer ;;; buffer ;;;
  let* src := scratch in
  say (chars "Extracting ustar archive from scratch device into file system..." ++ [10]) [] ;;;
  let* size := in_reg (Block.block_size src) in
  extract_loop (S (Z.to_nat size)) src ;;;
  say (chars "Erasing ustar archive..." ++ [10]) [] ;;;
  in_reg (Block.block_write src 0 zeros) ;;;
  in_reg (Block.block_write src 1 zeros).

(** ** Appending *)

Fixpoint copy_out (fuel : nat) (src : Z) (dst : nat) (size : Z) : U unit :=
  match fuel with
  | O => fail NoFuel
  | S fuel =>
      if 0 <? size then
        let* sector := gets append_sector in
        let* cnt := in_reg (Block.block_size dst) in
        if cnt <=? sector then fail Panicked
        else
          let* bytes := in_fs (file_read src (chunk_of size)) in
          if Z.of_nat (length bytes) =? chunk_of size then
            let* sector := next_append in
            in_reg (Block.block_write dst sector (bytes ++ replicate (Z.to_nat (512 - chunk_of size)) 0)) ;;;
            copy_out fuel src dst (size - chunk_of size)
          else fail Panicked
      else ret tt
  end.

Definition fsutil_append (file_name : list Z) : U unit :=
  say (chars "Appending '%s' to ustar archive on scratch device..." ++ [10]) [Str (Some file_name)] ;;;
  buffer ;;;
  let* src := must_open file_name in
  let* size := in_fs (file_length src) in
  let* dst := scratch in
  let* h := lift (ustar_make_header file_name USTAR_REGULAR size) in
  match h with
  | None => fail Panicked
  | Some header =>
      let* sector := next_append in
      in_reg (Block.block_write dst sector header) ;;;
      copy_out (S (Z.to_nat size)) src dst size ;;;
      let* sector := gets append_sector in
      in_reg (Block.block_write dst sector zeros) ;;;
      in_reg (Block.block_write dst (u32 (sector + 1)) zeros) ;;;
      in_fs (file_close src)
  end.
End commands.

(** ** A sample *)

(** A scratch device of twelve sectors. *)
Definition sample_scratch : registry :=
  mk_reg [mk_block (chars "hdc") BLOCK_SCRATCH 12 (Driver 0) 0 0] [None; None; Some 0%nat; None] [replicate 12 (replicate 512 170)] [] [].

Definition blank_disk : fsys :=
  mk_fsys (list_to_map ((λ k, (k, replicate 512 170)) <$> seqZ 0 40)) 40 [] ∅ ∅ (mk_bitmap 0 []) NULL [] 16.

(** A file of 600 bytes is appended to the archive and removed, the archive is extracted,
    and the file read. *)
Definition backup : U (list Z) :=
  let stack := replicate 20 85 in
  in_fs (filesys_init stack true) ;;;
  in_fs (filesys_create stack (chars "hello") 600) ;;;
  let* f := must_open stack (chars "hello") in
  in_fs (file_write f (seqZ 0 200 ++ seqZ 0 200 ++ seqZ 0 200) 600) ;;;
  in_fs (file_close f) ;;;
  fsutil_append stack (chars "hello") ;;;
  fsutil_rm stack (chars "hello") ;;;
  fsutil_extract stack ;;;
  let* f := must_open stack (chars "hello") in
  let* bytes := in_fs (file_read f 1000) in
  in_fs (file_close f) ;;; ret bytes.

Definition result {A} (m : U A) : res A :=
  match m (mk_fsutil blank_disk sample_scratch 0 0) with Ok (a, _) => Ok a | Fail f => Fail f end.

Example backup_restores : result backup = Ok (seqZ 0 200 ++ seqZ 0 200 ++ seqZ 0 200).
Proof. vm_compute. reflexivity. Qed.

(** The output of the listing of two files, and of a dump of one. *)
Definition listing : U (list Z) :=
  let stack := replicate 20 85 in
  in_fs (filesys_init stack true) ;;;
  in_fs (filesys_create stack (chars "a") 20) ;;;
  in_fs (filesys_create stack (chars "b") 0) ;;;
  fsutil_ls stack ;;;
  fsutil_cat stack (chars "a") ;;;
  gets (λ u, printed (reg u)).

Example listing_printed : result listing = Ok (
  chars "Files in the root directory:" ++ [10] ++ chars "a" ++ [10] ++ chars "b" ++ [10] ++ chars "End of listing." ++ [10] ++
  chars "Printing 'a' to the console..." ++ [10] ++
  chars "00000000  00 00 00 00 00 00 00 00-00 00 00 00 00 00 00 00 |................|" ++ [10] ++
  chars "00000010  00 00 00 00 " ++ replicate 36 32 ++ chars "|....            |" ++ [10]).
Proof. vm_compute. reflexivity. Qed.
