(* ===== verification/FsutilSpec.v ===== *)
(** * Archives on the scratch device (src/filesys/fsutil.c)

    [fsutil_append] adds to the scratch device the archive entry of the file's contents, and
    [fsutil_extract] does to the file system, entry by entry, what [put_file] does with the
    contents of the archive: what was appended is what is put back. *)

From S2P Require Import Prelude Stdio StdioSpec Ustar UstarSpec Block BlockSpec Bitmap Palloc Inode Filesys Fsutil.
Local Open Scope Z_scope.

(** ** Sectors of a device *)

Definition sector_at (r : registry) (b : nat) (n : Z) : option (list Z) :=
  match location r b n with Some (k, m) => disks r !! k ≫= λ d, d !! Z.to_nat m | None => None end.

(** A device is one stretch of a disk. *)
Lemma locate_offset depth r b n k m : registry_ok r → locate depth (shapes r) b n = Some (k, m) →
  n <= m ∧ ∀ n', locate depth (shapes r) b n' = Some (k, m + (n' - n)).
Proof.
  intros Hr. revert b n. induction depth as [|depth IH]; intros b n; [done|]. cbn [locate]. destruct (shapes r !! b) as [s|] eqn:Hs; [|done].
  cbn [mbind option_bind]. destruct (Hr _ _ Hs) as [_ Ho]. destruct (s_ops s) as [j|p].
  - intros [= -> ->]. split; [lia|]. intros n'. do 2 f_equal. lia.
  - intros H. destruct Ho as (_ & H0 & _). destruct (IH _ _ H) as [Hm Hn]. split; [lia|]. intros n'. rewrite Hn. do 2 f_equal. lia.
Qed.

Lemma location_shapes r r' b n : shapes r' = shapes r → location r' b n = location r b n.
Proof. intros E. unfold location. by rewrite E. Qed.

Lemma sector_same r r' b n : same r r' → sector_at r' b n = sector_at r b n.
Proof. intros [E1 E2]. unfold sector_at. rewrite (location_shapes _ _ _ _ E1). by rewrite E2. Qed.

Lemma same_ok_write r r' b : same r r' → may_write r b = true → may_write r' b = true.
Proof. intros [E _]. unfold may_write. by rewrite E. Qed.

Lemma read_run r b s n : registry_ok r → shapes r !! b = Some s → 0 <= n < s_size s →
  ∃ buf r', sector_at r b n = Some buf ∧ block_read b n r = Ok (buf, r') ∧ same r r'.
Proof.
  intros Hr Hs Hn. pose proof (lookup_lt_Some _ _ _ Hs) as Hlt. assert (Hlen : length (shapes r) = length (all_blocks r)) by apply length_fmap.
  destruct (read_at_run (S (length (all_blocks r))) b n s r) as (k & m & buf & r' & Hl & Hb & E); [done|done|done|lia|].
  exists buf, r'. unfold sector_at, location. rewrite Hlen, Hl. split; [done|]. split; [|by eapply calm_read_at].
  unfold block_read, gets. by erewrite bind_ok by reflexivity.
Qed.

Lemma write_run r b s n buf : registry_ok r → shapes r !! b = Some s → 0 <= n < s_size s → may_write r b = true →
  ∃ r', block_write b n buf r = Ok (tt, r') ∧ shapes r' = shapes r ∧ registry_ok r' ∧
    ∀ m, 0 <= m → sector_at r' b m = if decide (m = n) then Some buf else sector_at r b m.
Proof.
  intros Hr Hs Hn Hw. pose proof (lookup_lt_Some _ _ _ Hs) as Hlt. assert (Hlen : length (shapes r) = length (all_blocks r)) by apply length_fmap.
  unfold may_write in Hw. rewrite Hlen in Hw.
  destruct (BlockSpec.block_write_run (S (length (all_blocks r))) b n s buf r) as (k & j & disk & r' & Hl & Hk & Hj & E & Es & Ed); [done|done|done|lia|done|].
  exists r'. split; [unfold block_write, gets; by erewrite bind_ok by reflexivity|]. split; [done|]. split; [by eapply write_ok|].
  intros m Hm. unfold sector_at. rewrite (location_shapes _ _ _ _ Es). destruct (locate_offset _ _ _ _ _ _ Hr Hl) as [Hge Hoff].
  unfold location. rewrite Hlen, (Hoff m), Ed, list_lookup_insert_eq, Hk by (by eapply lookup_lt_Some). cbn [mbind option_bind].
  destruct (decide _) as [->|Hne].
  - replace (j + (n - n)) with j by lia. by rewrite list_lookup_insert_eq.
  - rewrite list_lookup_insert_ne by lia. done.
Qed.

(** ** Contents of a file *)

(** The bytes of the file with inode [i]. *)
Definition contents (s : fsys) (i : inode) (c : list Z) : Prop :=
  Z.of_nat (length c) = length_ (data i) ∧ ∀ j, 0 <= j < length_ (data i) → c !! Z.to_nat j = byte_at (disk s) (start (data i)) j.

(** The contents in sectors of 512 bytes, the last of which is filled with zeros. *)
Definition file_block (c : list Z) (j : Z) : list Z :=
  let part := take 512 (drop (Z.to_nat (512 * j)) c) in part ++ replicate (512 - length part) 0.
Definition block_cnt (c : list Z) : Z := (Z.of_nat (length c) + 511) / 512.

(** The file system [s] is [s0] but for the position in the open file [f], which is [p]. *)
Record opened (s0 : fsys) (f a p : Z) (s : fsys) : Prop := {
  op_disk : disk s = disk s0;
  op_size : dev_size s = dev_size s0;
  op_inodes : inodes s = inodes s0;
  op_map : free_map s = free_map s0;
  op_file : files s !! f = Some (mk_file a p false);
  op_plenty : plenty s
}.

Lemma opened_inode s0 f a p s i : opened s0 f a p s → inode_ok s0 i → inode_ok s i.
Proof. intros [E1 E2 _ _ _ _] [H1 H2 H3 H4 H5]. split; try done; by rewrite ?E1, ?E2. Qed.

Lemma take_drop_lookup (c : list Z) p k j : (take k (drop p c)) !! j = if decide (j < k)%nat then c !! (p + j)%nat else None.
Proof. destruct (decide _); [rewrite lookup_take_lt by done; apply lookup_drop|]. apply lookup_take_ge. lia. Qed.

Lemma chunk_read_run s0 f a i c p k s : opened s0 f a p s → inodes s0 !! a = Some i → inode_ok s0 i → contents s0 i c →
  0 <= p → 0 <= k → p + k <= Z.of_nat (length c) →
  ∃ s', file_read f k s = Ok (take (Z.to_nat k) (drop (Z.to_nat p) c), s') ∧ opened s0 f a (p + k) s'.
Proof.
  intros Ho Ha Hi [Hl Hc] Hp Hk Hpk. pose proof (io_length _ _ Hi) as Hlen.
  destruct (read_loop_spec (S (Z.to_nat k)) i k p false s) as (bytes & n & E & Hpos & Hn & Hb); [by eapply opened_inode|apply Ho|lia|lia|].
  unfold moved in Hn. rewrite Z.max_r, Z.min_l in Hn by lia. unfold slice_of in Hb.
  assert (Eb : bytes = take (Z.to_nat k) (drop (Z.to_nat p) c)).
  { apply list_eq. intros j. rewrite take_drop_lookup. destruct (decide _) as [Hj|Hj]; [|apply lookup_ge_None_2; lia].
    rewrite <- (Nat2Z.id j) at 1. rewrite Hb by lia. rewrite (op_disk _ _ _ _ _ Ho), <- Hc by lia. f_equal. lia. }
  unfold file_read, get_file. erewrite bind_ok by (rewrite (op_file _ _ _ _ _ Ho); reflexivity). cbn [f_inode f_pos f_deny_write].
  unfold inode_read_at, get_inode. rewrite bind_assoc. erewrite bind_ok by (rewrite (op_inodes _ _ _ _ _ Ho), Ha; reflexivity). rewrite (bind_ok _ _ _ _ _ E). eexists. split; [rewrite Eb; reflexivity|].
  assert (Es : s32 (p + Z.of_nat (length bytes)) = p + k) by (rewrite Hn; unfold s32; mod_lia). rewrite <- Eb, Es.
  destruct Ho as [O1 O2 O3 O4 O5 [O6 O7]]. split; [done|done|done|done|apply lookup_insert_eq|by split].
Qed.

(** ** Appending *)

Lemma in_fs_ok {A} (m : M fsys A) u a f : m (fs u) = Ok (a, f) → in_fs m u = Ok (a, mk_fsutil f (reg u) (extract_sector u) (append_sector u)).
Proof. intros E. unfold in_fs. by rewrite E. Qed.
Lemma in_reg_ok {A} (m : M registry A) u a r : m (reg u) = Ok (a, r) → in_reg m u = Ok (a, mk_fsutil (fs u) r (extract_sector u) (append_sector u)).
Proof. intros E. unfold in_reg. by rewrite E. Qed.

Lemma block_size_run r b s : shapes r !! b = Some s → block_size b r = Ok (s_size s, r).
Proof.
  intros Hs. destruct (shape_block _ _ _ Hs) as (d & Hd & <-). unfold block_size. by rewrite (bind_ok _ _ _ _ _ (get_block_run _ _ _ Hd)).
Qed.

(** The device [b] of shape [sh] can be written. *)
Definition usable (r : registry) (b : nat) (sh : shape) : Prop := registry_ok r ∧ shapes r !! b = Some sh ∧ may_write r b = true.

Lemma usable_shapes r r' b sh : usable r b sh → registry_ok r' → shapes r' = shapes r → usable r' b sh.
Proof. intros (_ & H2 & H3) Hr' E. split; [done|]. unfold may_write in *. by rewrite E. Qed.
Lemma usable_same r r' b sh : usable r b sh → same r r' → usable r' b sh.
Proof. intros H Hs. eapply usable_shapes; [done|eapply same_ok; [exact Hs|apply H]|apply Hs]. Qed.

Lemma length_file_block c j : length (file_block c j) = 512%nat.
Proof. unfold file_block. rewrite length_app, length_replicate, length_take. lia. Qed.

Lemma append_block r b sh n buf : usable r b sh → 0 <= n < s_size sh →
  ∃ r', block_write b n buf r = Ok (tt, r') ∧ usable r' b sh ∧ shapes r' = shapes r ∧
    ∀ m, 0 <= m → sector_at r' b m = if decide (m = n) then Some buf else sector_at r b m.
Proof.
  intros (H1 & H2 & H3) Hn. destruct (write_run r b sh n buf H1 H2 Hn H3) as (r' & E & Es & Hr' & Hm).
  exists r'. split; [done|]. split; [apply (usable_shapes r); [by split_and!|done|done]|]. done.
Qed.

Section append.
Context (s0 : fsys) (f a : Z) (i : inode) (c : list Z) (dst : nat) (sh : shape) (first : Z).
Hypothesis inode_there : inodes s0 !! a = Some i.
Hypothesis inode_good : inode_ok s0 i.
Hypothesis inode_holds : contents s0 i c.
Hypothesis room : 0 <= first ∧ first + block_cnt c < s_size sh.

Lemma copy_out_run fuel : ∀ j u, let size := Z.max 0 (Z.of_nat (length c) - 512 * j) in
  0 <= j <= block_cnt c → (Z.to_nat size < fuel)%nat →
  usable (reg u) dst sh → opened s0 f a (Z.min (Z.of_nat (length c)) (512 * j)) (fs u) → append_sector u = first + j →
  ∃ u', copy_out fuel f dst size u = Ok (tt, u') ∧ usable (reg u') dst sh ∧ shapes (reg u') = shapes (reg u) ∧
    opened s0 f a (Z.of_nat (length c)) (fs u') ∧ append_sector u' = first + block_cnt c ∧ extract_sector u' = extract_sector u ∧
    ∀ m, 0 <= m → sector_at (reg u') dst m = if decide (first + j <= m < first + block_cnt c) then Some (file_block c (m - first)) else sector_at (reg u) dst m.
Proof.
  pose proof (proj1 inode_holds) as Hlc. pose proof (io_length _ _ inode_good) as Hlen. pose proof (room) as Hroom.
  induction fuel as [|fuel IH]; intros j u size Hj Hf Hu Ho Ha; [lia|]. cbn [copy_out]. destruct (Z.ltb_spec 0 size) as [Hs|Hs].
  - assert (Hjn : j < block_cnt c) by (unfold block_cnt, size in *; mod_lia). rewrite Z.min_r in Ho by (unfold size in Hs; lia).
    unfold gets. erewrite bind_ok by reflexivity. rewrite (bind_ok _ _ _ _ _ (in_reg_ok _ _ _ _ (block_size_run _ _ _ (proj1 (proj2 Hu))))).
    rewrite Ha. destruct (Z.leb_spec (s_size sh) (first + j)); [lia|].
    assert (Hk : 0 < chunk_of size <= 512 ∧ chunk_of size <= size ∧ (chunk_of size = size ∨ chunk_of size = 512)).
    { unfold chunk_of, BLOCK_SECTOR_SIZE. destruct (Z.ltb_spec 512 size); lia. }
    destruct (chunk_read_run s0 f a i c (512 * j) (chunk_of size) (fs u) Ho inode_there inode_good inode_holds) as (s1 & E1 & Ho1); [lia|lia|unfold size in *; lia|].
    destruct u as [fu ru eu au]. cbn [fs reg extract_sector append_sector] in *. rewrite (bind_ok _ _ _ _ _ (in_fs_ok _ (mk_fsutil fu ru eu (first + j)) _ _ E1)).
    assert (Hlb : length (take (Z.to_nat (chunk_of size)) (drop (Z.to_nat (512 * j)) c)) = Z.to_nat (chunk_of size))
      by (rewrite length_take, length_drop; unfold size in *; lia).
    rewrite Hlb, Z2Nat.id, Z.eqb_refl by lia. unfold next_append. erewrite bind_ok by reflexivity. cbn [append_sector fs reg extract_sector].
    assert (Eblk : take (Z.to_nat (chunk_of size)) (drop (Z.to_nat (512 * j)) c) ++ replicate (Z.to_nat (512 - chunk_of size)) 0 = file_block c j).
    { unfold file_block. assert (Et : take 512 (drop (Z.to_nat (512 * j)) c) = take (Z.to_nat (chunk_of size)) (drop (Z.to_nat (512 * j)) c)).
      { destruct Hk as (Hk1 & Hk2 & [E|E]); [|by rewrite E]. rewrite !take_ge; [done|rewrite length_drop; unfold size in *; lia|rewrite length_drop; unfold size in *; lia]. }
      rewrite Et, Hlb. do 2 f_equal. lia. }
    rewrite Eblk. destruct (append_block ru dst sh (first + j) (file_block c j) Hu ltac:(lia)) as (r1 & E2 & Hu1 & Hs1 & Hm1).
    rewrite (bind_ok _ _ _ _ _ (in_reg_ok _ (mk_fsutil s1 ru eu (u32 (first + j + 1))) _ _ E2)). cbn [fs extract_sector append_sector].
    assert (Hsh : s_size sh < 2 ^ 32) by (destruct Hu as (Hr & Hs' & _); destruct (Hr _ _ Hs') as [? _]; lia).
    rewrite u32_id by (unfold in_u32; lia). destruct Hk as (Hk1 & Hk2 & Hk3).
    assert (En : size - chunk_of size = Z.max 0 (Z.of_nat (length c) - 512 * (j + 1))) by (unfold chunk_of, BLOCK_SECTOR_SIZE, size in *; destruct (Z.ltb_spec 512 (Z.max 0 (Z.of_nat (length c) - 512 * j))); lia).
    assert (Ep : 512 * j + chunk_of size = Z.min (Z.of_nat (length c)) (512 * (j + 1))) by (unfold size in *; lia).
    rewrite En. rewrite Ep in Ho1.
    destruct (IH (j + 1) (mk_fsutil s1 r1 eu (first + j + 1))) as (u' & E3 & Hu3 & Hs3 & Ho3 & Ha3 & Hx3 & Hm3); [lia|unfold size in *; lia|done|exact Ho1|cbn; lia|].
    exists u'. split; [exact E3|]. split; [done|]. split; [by rewrite Hs3|]. split; [done|]. split; [done|]. split; [done|].
    intros m Hm. rewrite Hm3 by done. cbn [reg]. rewrite Hm1 by done.
    destruct (decide (first + (j + 1) <= m < first + block_cnt c)), (decide (first + j <= m < first + block_cnt c)), (decide (m = first + j)) as [->|]; try lia; try done.
    do 2 f_equal. lia.
  - assert (Ej : j = block_cnt c) by (unfold block_cnt, size in *; mod_lia). exists u. split; [done|]. split; [done|]. split; [done|].
    split; [by rewrite Z.min_l in Ho by (unfold size in *; lia)|]. split; [lia|]. split; [done|].
    intros m Hm. rewrite decide_False by lia. done.
Qed.
End append.

Definition with_reg (r : registry) (u : fsutil) : fsutil := mk_fsutil (fs u) r (extract_sector u) (append_sector u).
Definition print_more (out : list Z) (r : registry) : registry := mk_reg (all_blocks r) (block_by_role r) (disks r) (mem r) (printed r ++ out).

Lemma say_run format args out u : vprintf format args = Ok out → say format args u = Ok (tt, with_reg (print_more out (reg u)) u).
Proof. intros E. unfold say. apply in_reg_ok. unfold printf, lift. unfold bind. by rewrite E. Qed.

Lemma buffer_run u : mem (reg u) = [] → buffer u = Ok (tt, u).
Proof. intros E. destruct u as [fu [l ro di me pr] eu au]. cbn in E. by subst me. Qed.

Lemma scratch_run u b : block_by_role (reg u) !! 2%nat = Some (Some b) → scratch u = Ok (b, u).
Proof.
  intros E. unfold scratch. assert (Er : block_get_role BLOCK_SCRATCH (reg u) = Ok (Some b, reg u)).
  { unfold block_get_role, gets. do 2 erewrite bind_ok by reflexivity. change (Z.to_nat (type_no BLOCK_SCRATCH)) with 2%nat. by rewrite E. }
  rewrite (bind_ok _ _ _ _ _ (in_reg_ok _ _ _ _ Er)). by destruct u.
Qed.

Lemma print_more_same out r : same r (print_more out r).
Proof. done. Qed.

Lemma file_close_run s0 f a p s i : opened s0 f a p s → inodes s0 !! a = Some i → removed i = false → f ≠ NULL → a ≠ NULL →
  ∃ s', file_close f s = Ok (tt, s') ∧ disk s' = disk s0 ∧ free_map s' = free_map s0.
Proof.
  intros Ho Hi Hrem Hf Ha. assert (Eg : get_file f s = Ok (mk_file a p false, s)) by (unfold get_file; by rewrite (op_file _ _ _ _ _ Ho)).
  assert (Ei : get_inode a s = Ok (i, s)) by (unfold get_inode; by rewrite (op_inodes _ _ _ _ _ Ho), Hi).
  unfold file_close, file_allow_write. rewrite (proj2 (Z.eqb_neq _ _) Hf). cbn [negb assert]. rewrite bind_assoc. erewrite bind_ok by reflexivity.
  rewrite bind_assoc, (bind_ok _ _ _ _ _ Eg). cbn [f_deny_write]. erewrite bind_ok by reflexivity. rewrite (bind_ok _ _ _ _ _ Eg). cbn [f_inode].
  unfold inode_close. rewrite (proj2 (Z.eqb_neq _ _) Ha), bind_assoc, (bind_ok _ _ _ _ _ Ei), Hrem. unfold put_inode, modify. rewrite bind_assoc. erewrite bind_ok by reflexivity.
  destruct Ho as [O1 O2 O3 O4 O5 O6]. destruct (_ =? 0); eexists; (split; [reflexivity|]); by split.
Qed.

Lemma must_open_run junk name u f s : filesys_open junk name (fs u) = Ok (f, s) → f ≠ NULL →
  must_open junk name u = Ok (f, mk_fsutil s (reg u) (extract_sector u) (append_sector u)).
Proof. intros E Hf. unfold must_open. rewrite (bind_ok _ _ _ _ _ (in_fs_ok _ _ _ _ E)), (proj2 (Z.eqb_neq _ _) Hf). done. Qed.

(** The open file [f] of [s]: at its start, with inode [i] and contents [c]. *)
Definition open_file (s : fsys) (f a : Z) (i : inode) (c : list Z) : Prop :=
  f ≠ NULL ∧ a ≠ NULL ∧ files s !! f = Some (mk_file a 0 false) ∧ inodes s !! a = Some i ∧ inode_ok s i ∧ contents s i c ∧ removed i = false ∧ plenty s.

(** The scratch device: [b] of shape [sh], with memory for the buffers. *)
Definition scratch_ready (r : registry) (b : nat) (sh : shape) : Prop :=
  usable r b sh ∧ block_by_role r !! 2%nat = Some (Some b) ∧ mem r = [].

(** The sectors of an entry: its header and the blocks of its contents. *)
Definition entry_sector (name c : list Z) (j : Z) : list Z :=
  if j =? 0 then header name USTAR_REGULAR (Z.of_nat (length c)) else file_block c (j - 1).

Lemma appending_text name : ∃ out, vprintf (chars "Appending '%s' to ustar archive on scratch device..." ++ [10]) [Str (Some name)] = Ok out.
Proof. eexists. unfold chars. cbn [String.list_ascii_of_string fmap list_fmap Ascii.N_of_ascii]. cbn -[__vprintf]. print_format. Qed.

Lemma file_length_run s f a i c : open_file s f a i c → file_length f s = Ok (Z.of_nat (length c), s).
Proof.
  intros (Hf & _ & E & Ei & _ & (Hl & _) & _). unfold file_length, get_file, get_inode. rewrite (proj2 (Z.eqb_neq _ _) Hf). cbn [negb assert].
  erewrite bind_ok by reflexivity. erewrite bind_ok by (rewrite E; reflexivity). cbn [f_inode]. erewrite bind_ok by (rewrite Ei; reflexivity). unfold ret, inode_length. by rewrite Hl.
Qed.

(** Appending a file to the archive writes, from the position in the archive on, a
    header with the file's name and size, the file's contents in sectors and two sectors of
    zeros, and moves the position to the first of these; every other sector of the scratch
    device and the disk of the file system stay as they are. *)
Lemma append_run junk name nm u f s a i c b sh :
  scratch_ready (reg u) b sh → filesys_open junk name (fs u) = Ok (f, s) → open_file s f a i c →
  Forall (λ b, 0 < b < 256) name → strip_antisocial_prefixes name = Ok nm → (length nm <= 99)%nat →
  let A := append_sector u in let n := block_cnt c in
  0 <= A → A + n + 2 < s_size sh →
  ∃ u', fsutil_append junk name u = Ok (tt, u') ∧ disk (fs u') = disk s ∧ free_map (fs u') = free_map s ∧
    append_sector u' = A + 1 + n ∧ extract_sector u' = extract_sector u ∧ usable (reg u') b sh ∧
    ∀ m, 0 <= m → sector_at (reg u') b m =
      if decide (A <= m <= A + n) then Some (entry_sector nm c (m - A))
      else if decide (m = A + n + 1 ∨ m = A + n + 2) then Some zeros else sector_at (reg u) b m.
Proof.
  intros (Hu & Hrole & Hmem) Eo Hof Hname Hnm Hl A n HA Hroom. pose proof Hof as (Hf & Ha & Ef & Ei & Hi & Hc & Hrem & Hpl).
  assert (Hn0 : 0 <= n) by (unfold n, block_cnt; mod_lia). pose proof (io_length _ _ Hi) as Hlen. pose proof (proj1 Hc) as Hlc.
  assert (Hsz : s_size sh < 2 ^ 32) by (destruct Hu as (Hr & Hs' & _); destruct (Hr _ _ Hs') as [? _]; lia).
  destruct (appending_text name) as (out & Et). unfold fsutil_append. rewrite (bind_ok _ _ _ _ _ (say_run _ _ _ u Et)).
  set (r0 := print_more out (reg u)). assert (Hu0 : usable r0 b sh) by (by eapply usable_same; [|apply print_more_same]).
  unfold with_reg. rewrite (bind_ok _ _ _ _ _ (buffer_run (mk_fsutil (fs u) r0 (extract_sector u) (append_sector u)) Hmem)).
  rewrite (bind_ok _ _ _ _ _ (must_open_run junk name (mk_fsutil (fs u) r0 (extract_sector u) (append_sector u)) f s Eo Hf)). cbn [reg extract_sector append_sector].
  rewrite (bind_ok _ _ _ _ _ (in_fs_ok _ (mk_fsutil s r0 (extract_sector u) (append_sector u)) _ _ (file_length_run s f a i c Hof))).
  cbn [fs reg extract_sector append_sector]. rewrite (bind_ok _ _ _ _ _ (scratch_run (mk_fsutil s r0 (extract_sector u) (append_sector u)) b Hrole)).
  assert (Hb : Forall is_byte nm ∧ Forall (λ b, b ≠ 0) nm).
  { destruct (strip_total name) as (nm' & Enm & _ & Hp). rewrite Hnm in Enm. injection Enm as <-.
    assert (Hn : Forall (λ b, 0 < b < 256) nm) by (destruct Hp as [-> |[p ->]]; [repeat constructor; lia|by apply Forall_app in Hname as [_ ?]]).
    split; (eapply Forall_impl; [exact Hn|]); cbv beta; unfold is_byte; lia. }
  rewrite (make_header_eq name nm USTAR_REGULAR (Z.of_nat (length c)) Hnm (proj1 Hb) Hl ltac:(by left) ltac:(lia)). unfold lift at 1. erewrite bind_ok by reflexivity.
  unfold next_append at 1. erewrite bind_ok by reflexivity. cbn [fs reg extract_sector append_sector]. fold A.
  destruct (append_block r0 b sh A (header nm USTAR_REGULAR (Z.of_nat (length c))) Hu0 ltac:(lia)) as (r1 & E1 & Hu1 & _ & Hm1).
  rewrite (bind_ok _ _ _ _ _ (in_reg_ok _ (mk_fsutil s r0 (extract_sector u) (u32 (A + 1))) _ _ E1)). cbn [fs reg extract_sector append_sector].
  rewrite u32_id by (unfold in_u32; lia).
  destruct (copy_out_run s f a i c b sh (A + 1) Ei Hi Hc ltac:(unfold n in *; lia) (S (Z.to_nat (Z.of_nat (length c)))) 0 (mk_fsutil s r1 (extract_sector u) (A + 1)))
    as (u2 & E2 & Hu2 & _ & Ho2 & Ha2 & Hx2 & Hm2); [lia|lia|done| |cbn; lia|].
  { cbn. rewrite Z.min_r by lia. by split. }
  rewrite Z.mul_0_r, Z.sub_0_r, Z.max_r in E2 by lia. rewrite (bind_ok _ _ _ _ _ E2). unfold gets. erewrite bind_ok by reflexivity. rewrite Ha2.
  destruct u2 as [f2 r2 e2 a2]. cbn [fs reg extract_sector append_sector] in *. subst a2 e2. fold n. fold n in Hm2.
  destruct (append_block r2 b sh (A + 1 + n) zeros Hu2 ltac:(lia)) as (r3 & E3 & Hu3 & _ & Hm3).
  rewrite (bind_ok _ _ _ _ _ (in_reg_ok _ (mk_fsutil f2 r2 (extract_sector u) (A + 1 + n)) _ _ E3)). cbn [fs reg extract_sector append_sector].
  rewrite u32_id by (unfold in_u32; lia). destruct (append_block r3 b sh (A + 1 + n + 1) zeros Hu3 ltac:(lia)) as (r4 & E4 & Hu4 & _ & Hm4).
  rewrite (bind_ok _ _ _ _ _ (in_reg_ok _ (mk_fsutil f2 r3 (extract_sector u) (A + 1 + n)) _ _ E4)). cbn [fs reg extract_sector append_sector].
  destruct (file_close_run s f a _ f2 i Ho2 Ei Hrem Hf Ha) as (s5 & E5 & Hd5 & Hfm5). rewrite (in_fs_ok _ (mk_fsutil f2 r4 (extract_sector u) (A + 1 + n)) _ _ E5).
  eexists. split; [reflexivity|]. cbn [fs reg extract_sector append_sector]. split_and!; try done. intros m Hm.
  rewrite Hm4, Hm3, Hm2, Hm1 by done. unfold entry_sector. change (sector_at r0 b m) with (sector_at (reg u) b m).
  destruct (Z.eqb_spec (m - A) 0); repeat (destruct (decide _)); try lia; try done. do 2 f_equal. lia.
Qed.

(** ** Extracting *)

(** Writes the blocks of a file whose last [size] bytes they hold. *)
Fixpoint write_blocks (f size : Z) (blocks : list (list Z)) : F unit :=
  match blocks with
  | [] => ret tt
  | data :: blocks' =>
      let* n := file_write f data (chunk_of size) in
      if n =? chunk_of size then write_blocks f (size - chunk_of size) blocks' else fail Panicked
  end.

(** What an entry of an archive does to the file system, without the archive. *)
Definition put_file (junk name c : list Z) : F unit :=
  let* ok := filesys_create junk name (Z.of_nat (length c)) in
  if ok then
    let* f := filesys_open junk name in
    if f =? NULL then fail Panicked
    else
      write_blocks f (Z.of_nat (length c)) (file_block c <$> seqZ 0 (block_cnt c)) ;;;
      file_close f
  else fail Panicked.

Fixpoint put_all (junk : list Z) (es : list (list Z * list Z)) : F unit :=
  match es with [] => ret tt | (name, c) :: es' => put_file junk name c ;;; put_all junk es' end.

(** The archive that starts at sector [n]. *)
Fixpoint archive (r : registry) (b : nat) (n : Z) (es : list (list Z * list Z)) : Prop :=
  match es with
  | [] => sector_at r b n = Some zeros
  | (name, c) :: es' => (∀ j, 0 <= j <= block_cnt c → sector_at r b (n + j) = Some (entry_sector name c j)) ∧ archive r b (n + 1 + block_cnt c) es'
  end.
Fixpoint archive_end (n : Z) (es : list (list Z * list Z)) : Z := match es with [] => n | (_, c) :: es' => archive_end (n + 1 + block_cnt c) es' end.

Definition entry_ok (e : list Z * list Z) : Prop :=
  safe_name e.1 ∧ Forall (λ b, 0 < b < 256) e.1 ∧ (length e.1 <= 99)%nat ∧ Z.of_nat (length e.2) < 2 ^ 31.

Lemma block_cnt_pos c : 0 <= block_cnt c.
Proof. unfold block_cnt. mod_lia. Qed.

Lemma archive_end_ge n es : n <= archive_end n es.
Proof. revert n. induction es as [|[name c] es IH]; intros n; cbn; [lia|]. specialize (IH (n + 1 + block_cnt c)). pose proof (block_cnt_pos c). lia. Qed.

Lemma archive_same r r' b n es : same r r' → archive r b n es → archive r' b n es.
Proof.
  intros Hs. revert n. induction es as [|[name c] es IH]; intros n; cbn [archive].
  - by rewrite (sector_same _ _ _ _ Hs).
  - intros [H1 H2]. split; [|by apply IH]. intros j Hj. rewrite (sector_same _ _ _ _ Hs). by apply H1.
Qed.

Lemma read_entry_sector r b sh n buf : usable r b sh → 0 <= n < s_size sh → sector_at r b n = Some buf → ∃ r', block_read b n r = Ok (buf, r') ∧ same r r'.
Proof. intros (Hr & Hs & _) Hn E. destruct (read_run r b sh n Hr Hs Hn) as (buf' & r' & E' & Er & Hsame). rewrite E in E'. injection E' as <-. eauto. Qed.

Lemma copy_in_run c b sh first dst fuel : ∀ j u, let size := Z.max 0 (Z.of_nat (length c) - 512 * j) in
  0 <= first → first + block_cnt c <= s_size sh → s_size sh < 2 ^ 32 - 1 → 0 <= j <= block_cnt c → (Z.to_nat size < fuel)%nat →
  usable (reg u) b sh → extract_sector u = first + j → (∀ k, j <= k < block_cnt c → sector_at (reg u) b (first + k) = Some (file_block c k)) →
  match write_blocks dst size (file_block c <$> seqZ j (block_cnt c - j)) (fs u) with
  | Ok (_, s') => ∃ r', copy_in fuel b dst size u = Ok (tt, mk_fsutil s' r' (first + block_cnt c) (append_sector u)) ∧ same (reg u) r'
  | Fail e => copy_in fuel b dst size u = Fail e
  end.
Proof.
  induction fuel as [|fuel IH]; intros j u size H0 Hroom Hsz Hj Hf Hu He Hsec; [lia|]. destruct u as [fu ru eu au]. cbn [fs reg extract_sector append_sector] in *. subst eu.
  destruct (Z.ltb_spec 0 size) as [Hs|Hs].
  - assert (Hjn : j < block_cnt c) by (unfold block_cnt, size in *; mod_lia).
    destruct (read_entry_sector ru b sh (first + j) (file_block c j) Hu ltac:(lia) (Hsec j ltac:(lia))) as (r1 & E1 & Hs1).
    assert (EC : copy_in (S fuel) b dst size (mk_fsutil fu ru (first + j) au) =
      match file_write dst (file_block c j) (chunk_of size) fu with
      | Ok (n, s1) => if n =? chunk_of size then copy_in fuel b dst (size - chunk_of size) (mk_fsutil s1 r1 (first + (j + 1)) au) else Fail Panicked
      | Fail e => Fail e
      end).
    { cbn [copy_in]. rewrite (proj2 (Z.ltb_lt _ _) Hs). unfold next_extract, bind. cbn [extract_sector fs reg append_sector]. unfold in_reg. cbn [fs reg extract_sector append_sector].
      rewrite E1. unfold in_fs. cbn [fs reg extract_sector append_sector]. rewrite u32_id by (unfold in_u32; lia). rewrite <- Z.add_assoc.
      destruct (file_write _ _ _ _) as [[k s1]|]; [|done]. by destruct (_ =? _). }
    rewrite EC. clear EC. rewrite (seqZ_cons j) by lia. cbn [fmap list_fmap write_blocks]. unfold bind.
    destruct (file_write dst (file_block c j) (chunk_of size) fu) as [[k s1]|e]; [|done]. destruct (k =? chunk_of size); [|done].
    assert (En : size - chunk_of size = Z.max 0 (Z.of_nat (length c) - 512 * (j + 1)))
      by (unfold chunk_of, BLOCK_SECTOR_SIZE, size in *; destruct (Z.ltb_spec 512 (Z.max 0 (Z.of_nat (length c) - 512 * j))); lia).
    rewrite En. replace (Z.pred (block_cnt c - j)) with (block_cnt c - (j + 1)) by lia. replace (Z.succ j) with (j + 1) by lia.
    specialize (IH (j + 1) (mk_fsutil s1 r1 (first + (j + 1)) au)). cbn [fs reg extract_sector append_sector] in IH. cbv zeta in IH.
    assert (Hlt : (Z.to_nat (Z.max 0 (Z.of_nat (length c) - 512 * (j + 1))) < fuel)%nat) by (unfold size in *; lia).
    specialize (IH H0 Hroom Hsz ltac:(lia) Hlt ltac:(by eapply usable_same) eq_refl). destruct (write_blocks _ _ _ s1) as [[[] s2]|e].
    + destruct IH as (r2 & E2 & Hs2); [intros m Hm; rewrite (sector_same _ _ _ _ Hs1); apply Hsec; lia|]. exists r2. split; [done|]. by eapply disk_same_trans.
    + apply IH. intros m Hm. rewrite (sector_same _ _ _ _ Hs1). apply Hsec. lia.
  - assert (Ej : j = block_cnt c) by (unfold block_cnt, size in *; mod_lia). subst j. rewrite Z.sub_diag. cbn [seqZ fmap list_fmap write_blocks].
    exists ru. cbn [copy_in]. rewrite (proj2 (Z.ltb_ge _ _) Hs). done.
Qed.

Lemma putting_text name : ∃ out, vprintf (chars "Putting '%s' into the file system..." ++ [10]) [Str (Some name)] = Ok out.
Proof. eexists. unfold chars. cbn [String.list_ascii_of_string fmap list_fmap Ascii.N_of_ascii]. cbn -[__vprintf]. print_format. Qed.
Lemma extracting_text : ∃ out, vprintf (chars "Extracting ustar archive from scratch device into file system..." ++ [10]) [] = Ok out.
Proof. eexists. vm_compute. reflexivity. Qed.
Lemma erasing_text : ∃ out, vprintf (chars "Erasing ustar archive..." ++ [10]) [] = Ok out.
Proof. eexists. vm_compute. reflexivity. Qed.

Lemma extract_file_run junk name c b sh u :
  0 <= extract_sector u → extract_sector u + block_cnt c <= s_size sh → s_size sh < 2 ^ 32 - 1 → usable (reg u) b sh →
  (∀ k, 0 <= k < block_cnt c → sector_at (reg u) b (extract_sector u + k) = Some (file_block c k)) →
  match put_file junk name c (fs u) with
  | Ok (_, s') => ∃ r', extract_file junk b name (Z.of_nat (length c)) u = Ok (tt, mk_fsutil s' r' (extract_sector u + block_cnt c) (append_sector u)) ∧ same (reg u) r'
  | Fail e => extract_file junk b name (Z.of_nat (length c)) u = Fail e
  end.
Proof.
  intros H0 Hroom Hsz Hu Hsec. destruct (putting_text name) as (out & Et). destruct u as [fu ru eu au]. cbn [fs reg extract_sector append_sector] in *.
  set (r0 := print_more out ru). assert (Hu0 : usable r0 b sh) by (by eapply usable_same; [|apply print_more_same]).
  assert (EX : extract_file junk b name (Z.of_nat (length c)) (mk_fsutil fu ru eu au) =
    (let* ok := in_fs (filesys_create junk name (Z.of_nat (length c))) in
     if ok then let* dst := must_open junk name in copy_in (S (Z.to_nat (Z.of_nat (length c)))) b dst (Z.of_nat (length c)) ;;; in_fs (file_close dst)
     else fail Panicked) (mk_fsutil fu r0 eu au)) by (unfold extract_file; by rewrite (bind_ok _ _ _ _ _ (say_run _ _ _ (mk_fsutil fu ru eu au) Et))).
  rewrite EX. clear EX. unfold put_file. unfold bind at 1. destruct (filesys_create junk name (Z.of_nat (length c)) fu) as [[ok s1]|e] eqn:E1.
  2: { unfold bind, in_fs. cbn [fs]. by rewrite E1. }
  rewrite (bind_ok _ _ _ _ _ (in_fs_ok _ (mk_fsutil fu r0 eu au) _ _ E1)). cbn [fs reg extract_sector append_sector]. destruct ok; [|done].
  unfold bind at 1. destruct (filesys_open junk name s1) as [[f s2]|e] eqn:E2.
  2: { unfold must_open, bind, in_fs. cbn [fs]. by rewrite E2. }
  assert (EM : must_open junk name (mk_fsutil s1 r0 eu au) = if f =? NULL then Fail Panicked else Ok (f, mk_fsutil s2 r0 eu au)).
  { unfold must_open. rewrite (bind_ok _ _ _ _ _ (in_fs_ok _ (mk_fsutil s1 r0 eu au) _ _ E2)). by destruct (f =? NULL). }
  destruct (f =? NULL); [cbn; unfold bind; by rewrite EM|]. rewrite (bind_ok _ _ _ _ _ EM).
  pose proof (copy_in_run c b sh eu f (S (Z.to_nat (Z.of_nat (length c)))) 0 (mk_fsutil s2 r0 eu au)) as HC. cbv zeta in HC.
  rewrite Z.mul_0_r, !Z.sub_0_r, Z.max_r in HC by lia. cbn [fs reg extract_sector append_sector] in HC.
  specialize (HC H0 Hroom Hsz ltac:(pose proof (block_cnt_pos c); lia) ltac:(lia) Hu0 ltac:(lia)).
  specialize (HC ltac:(intros k Hk; apply Hsec; lia)).
  unfold bind at 1. destruct (write_blocks f _ _ s2) as [[[] s3]|e]; [|unfold bind; by rewrite HC].
  destruct HC as (r3 & E3 & Hs3). rewrite (bind_ok _ _ _ _ _ E3). destruct (file_close f s3) as [[[] s4]|e] eqn:E4.
  - exists r3. split; [by rewrite (in_fs_ok _ (mk_fsutil s3 r3 (eu + block_cnt c) au) _ _ E4)|exact Hs3].
  - unfold in_fs. cbn [fs]. by rewrite E4.
Qed.

Lemma extract_loop_run junk b sh es : Forall entry_ok es → s_size sh < 2 ^ 32 - 1 → ∀ fuel u,
  0 <= extract_sector u → archive_end (extract_sector u) es < s_size sh → s_size sh - extract_sector u < Z.of_nat fuel →
  usable (reg u) b sh → archive (reg u) b (extract_sector u) es →
  match put_all junk es (fs u) with
  | Ok (_, s') => ∃ r', extract_loop junk fuel b u = Ok (tt, mk_fsutil s' r' (archive_end (extract_sector u) es + 1) (append_sector u)) ∧ same (reg u) r'
  | Fail e => extract_loop junk fuel b u = Fail e
  end.
Proof.
  intros Hes Hsz. induction Hes as [|[name c] es (Hsafe & Hname & Hl & Hc) Hes IH]; intros fuel u H0 Hend Hf Hu Har; cbn [archive archive_end fst snd] in *;
    destruct u as [fu ru eu au]; cbn [fs reg extract_sector append_sector] in *.
  - destruct fuel as [|fuel]; [lia|]. destruct (read_entry_sector ru b sh eu zeros Hu ltac:(lia) Har) as (r1 & E1 & Hs1).
    cbn [put_all]. unfold ret. exists r1. split; [|done]. cbn [extract_loop]. unfold next_extract. erewrite bind_ok by reflexivity. cbn [fs reg extract_sector append_sector].
    rewrite (bind_ok _ _ _ _ _ (in_reg_ok _ (mk_fsutil fu ru (u32 (eu + 1)) au) _ _ E1)). cbn [fs reg extract_sector append_sector].
    rewrite u32_id by (unfold in_u32; lia). change (ustar_parse_header zeros) with (Ok (Entry None USTAR_EOF 0)). done.
  - destruct Har as [Hsec Har]. pose proof (archive_end_ge (eu + 1 + block_cnt c) es) as Hge. pose proof (block_cnt_pos c) as Hpos. destruct fuel as [|fuel]; [lia|].
    assert (Hh : sector_at ru b eu = Some (header name USTAR_REGULAR (Z.of_nat (length c)))) by (rewrite <- (Z.add_0_r eu); by apply (Hsec 0); lia).
    destruct (read_entry_sector ru b sh eu _ Hu ltac:(lia) Hh) as (r1 & E1 & Hs1).
    assert (EX : extract_loop junk (S fuel) b (mk_fsutil fu ru eu au) = (extract_file junk b name (Z.of_nat (length c)) ;;; extract_loop junk fuel b) (mk_fsutil fu r1 (eu + 1) au)).
    { cbn [extract_loop]. unfold next_extract. erewrite bind_ok by reflexivity. cbn [fs reg extract_sector append_sector].
      rewrite (bind_ok _ _ _ _ _ (in_reg_ok _ (mk_fsutil fu ru (u32 (eu + 1)) au) _ _ E1)). cbn [fs reg extract_sector append_sector].
      rewrite u32_id by (unfold in_u32; lia). rewrite parse_header_eq; [|..|lia]; [|by eapply Forall_impl; [exact Hname|]; cbv beta; unfold is_byte; lia|
        by eapply Forall_impl; [exact Hname|]; cbv beta; lia|done|done|by left].
      unfold lift. erewrite bind_ok by reflexivity. done. }
    rewrite EX. clear EX. cbn [put_all]. unfold bind at 1.
    pose proof (extract_file_run junk name c b sh (mk_fsutil fu r1 (eu + 1) au)) as HF. cbn [fs reg extract_sector append_sector] in HF.
    specialize (HF ltac:(lia) ltac:(lia) Hsz ltac:(by eapply usable_same)).
    assert (Hblk : ∀ k, 0 <= k < block_cnt c → sector_at r1 b (eu + 1 + k) = Some (file_block c k)).
    { intros k Hk. rewrite (sector_same _ _ _ _ Hs1). specialize (Hsec (k + 1) ltac:(lia)). unfold entry_sector in Hsec.
      rewrite (proj2 (Z.eqb_neq (k + 1) 0)) in Hsec by lia. replace (k + 1 - 1) with k in Hsec by lia. rewrite <- Hsec. f_equal. lia. }
    specialize (HF Hblk). destruct (put_file junk name c fu) as [[[] s1]|e]; [|unfold bind; by rewrite HF].
    destruct HF as (r2 & E2 & Hs2). rewrite (bind_ok _ _ _ _ _ E2).
    assert (Hs12 : same ru r2) by (by eapply disk_same_trans).
    specialize (IH fuel (mk_fsutil s1 r2 (eu + 1 + block_cnt c) au)). cbn [fs reg extract_sector append_sector] in IH.
    specialize (IH ltac:(lia) Hend ltac:(lia) ltac:(by eapply usable_same) ltac:(by eapply archive_same)).
    destruct (put_all junk es s1) as [[[] s3]|e]; [|done]. destruct IH as (r3 & E3 & Hs3). exists r3. split; [done|]. by eapply disk_same_trans.
Qed.

Lemma extract_run junk u b sh es :
  scratch_ready (reg u) b sh → 2 <= s_size sh < 2 ^ 32 - 1 → Forall entry_ok es →
  0 <= extract_sector u → archive_end (extract_sector u) es < s_size sh → archive (reg u) b (extract_sector u) es →
  match put_all junk es (fs u) with
  | Ok (_, s') => ∃ u', fsutil_extract junk u = Ok (tt, u') ∧ fs u' = s' ∧ extract_sector u' = archive_end (extract_sector u) es + 1 ∧
      append_sector u' = append_sector u ∧
      ∀ m, 0 <= m → sector_at (reg u') b m = if decide (m = 0 ∨ m = 1) then Some zeros else sector_at (reg u) b m
  | Fail e => fsutil_extract junk u = Fail e
  end.
Proof.
  intros (Hu & Hrole & Hmem) Hsz Hes H0 Hend Har. destruct extracting_text as (out1 & Et1). destruct erasing_text as (out2 & Et2).
  destruct u as [fu ru eu au]. cbn [fs reg extract_sector append_sector] in *. set (r0 := print_more out1 ru).
  assert (Hu0 : usable r0 b sh) by (by eapply usable_same; [|apply print_more_same]).
  assert (EX : fsutil_extract junk (mk_fsutil fu ru eu au) = (extract_loop junk (S (Z.to_nat (s_size sh))) b ;;;
    say (chars "Erasing ustar archive..." ++ [10]) [] ;;; in_reg (Block.block_write b 0 zeros) ;;; in_reg (Block.block_write b 1 zeros)) (mk_fsutil fu r0 eu au)).
  { unfold fsutil_extract. rewrite !(bind_ok _ _ _ _ _ (buffer_run (mk_fsutil fu ru eu au) Hmem)). rewrite (bind_ok _ _ _ _ _ (scratch_run (mk_fsutil fu ru eu au) b Hrole)).
    rewrite (bind_ok _ _ _ _ _ (say_run _ _ _ (mk_fsutil fu ru eu au) Et1)). unfold with_reg. cbn [fs reg extract_sector append_sector].
    by rewrite (bind_ok _ _ _ _ _ (in_reg_ok _ (mk_fsutil fu r0 eu au) _ _ (block_size_run r0 b sh (proj1 (proj2 Hu0))))). }
  rewrite EX. clear EX. pose proof (archive_end_ge eu es).
  pose proof (extract_loop_run junk b sh es Hes ltac:(lia) (S (Z.to_nat (s_size sh))) (mk_fsutil fu r0 eu au)) as HL. cbn [fs reg extract_sector append_sector] in HL.
  specialize (HL H0 Hend ltac:(lia) Hu0 ltac:(by eapply archive_same; [apply print_more_same|])).
  destruct (put_all junk es fu) as [[[] s']|e]; [|unfold bind; by rewrite HL]. destruct HL as (r1 & E1 & Hs1). rewrite (bind_ok _ _ _ _ _ E1).
  rewrite (bind_ok _ _ _ _ _ (say_run _ _ _ (mk_fsutil s' r1 (archive_end eu es + 1) au) Et2)). unfold with_reg. cbn [fs reg extract_sector append_sector].
  set (r2 := print_more out2 r1). assert (Hs2 : same ru r2) by (eapply disk_same_trans; [|eapply disk_same_trans; [exact Hs1|apply print_more_same]]; apply print_more_same).
  destruct (append_block r2 b sh 0 zeros ltac:(by eapply usable_same) ltac:(lia)) as (r3 & E3 & Hu3 & _ & Hm3).
  rewrite (bind_ok _ _ _ _ _ (in_reg_ok _ (mk_fsutil s' r2 (archive_end eu es + 1) au) _ _ E3)). cbn [fs reg extract_sector append_sector].
  destruct (append_block r3 b sh 1 zeros Hu3 ltac:(lia)) as (r4 & E4 & Hu4 & _ & Hm4).
  rewrite (in_reg_ok _ (mk_fsutil s' r3 (archive_end eu es + 1) au) _ _ E4). eexists. split; [reflexivity|]. cbn [fs reg extract_sector append_sector].
  split_and!; try done. intros m Hm. rewrite Hm4, Hm3, (sector_same _ _ _ _ Hs2) by done. repeat (destruct (decide _)); try lia; done.
Qed.

(** Extraction does to the file system, for every entry of the archive in order, what
    creating a file of the entry's name and size and writing its contents does, with the
    same failures; it returns, leaves the position behind the archive, and overwrites the
    first two sectors of the scratch device and nothing else of it. *)
Theorem fsutil_extract_correct junk u b sh es :
  scratch_ready (reg u) b sh → 2 <= s_size sh < 2 ^ 32 - 1 → Forall entry_ok es →
  0 <= extract_sector u → archive_end (extract_sector u) es < s_size sh → archive (reg u) b (extract_sector u) es →
  match put_all junk es (fs u) with
  | Ok (_, s') => ∃ u', fsutil_extract junk u = Ok (tt, u') ∧ fs u' = s' ∧ extract_sector u' = archive_end (extract_sector u) es + 1 ∧
      append_sector u' = append_sector u ∧
      ∀ m, 0 <= m → sector_at (reg u') b m = if decide (m = 0 ∨ m = 1) then Some zeros else sector_at (reg u) b m
  | Fail e => fsutil_extract junk u = Fail e
  end.
Proof. apply extract_run. Qed.

(** ** Archives that grow *)

(** The entries [es] from sector [n] on, whatever follows them. *)
Fixpoint entries (r : registry) (b : nat) (n : Z) (es : list (list Z * list Z)) : Prop :=
  match es with
  | [] => True
  | (name, c) :: es' => (∀ j, 0 <= j <= block_cnt c → sector_at r b (n + j) = Some (entry_sector name c j)) ∧ entries r b (n + 1 + block_cnt c) es'
  end.

Lemma archive_entries r b n es : archive r b n es ↔ entries r b n es ∧ sector_at r b (archive_end n es) = Some zeros.
Proof. revert n. induction es as [|[name c] es IH]; intros n; cbn; [tauto|]. rewrite IH. tauto. Qed.

Lemma archive_end_app n es es' : archive_end n (es ++ es') = archive_end (archive_end n es) es'.
Proof. revert n. induction es as [|[name c] es IH]; intros n; [done|]. cbn. apply IH. Qed.

Lemma entries_app r b n es es' : entries r b n (es ++ es') ↔ entries r b n es ∧ entries r b (archive_end n es) es'.
Proof. revert n. induction es as [|[name c] es IH]; intros n; cbn; [tauto|]. rewrite IH. tauto. Qed.

Lemma entries_kept r r' b n es :
  (∀ m, n <= m < archive_end n es → sector_at r' b m = sector_at r b m) → entries r b n es → entries r' b n es.
Proof.
  revert n. induction es as [|[name c] es IH]; intros n Hk; [done|]. cbn [entries archive_end] in *. pose proof (block_cnt_pos c).
  pose proof (archive_end_ge (n + 1 + block_cnt c) es). intros [H1 H2]. split; [|apply IH; [intros m Hm; apply Hk; lia|done]].
  intros j Hj. rewrite Hk by lia. by apply H1.
Qed.

(** What [append_run] says of the sectors is that the archive has one entry more. *)
Lemma appended_archive r r' b n es nm c : 0 <= n → entries r b n es →
  (let A := archive_end n es in ∀ m, 0 <= m → sector_at r' b m =
      if decide (A <= m <= A + block_cnt c) then Some (entry_sector nm c (m - A))
      else if decide (m = A + block_cnt c + 1 ∨ m = A + block_cnt c + 2) then Some zeros else sector_at r b m) →
  archive r' b n (es ++ [(nm, c)]).
Proof.
  intros Hn He Hm. cbv zeta in Hm. pose proof (block_cnt_pos c). pose proof (archive_end_ge n es). apply archive_entries. rewrite entries_app, archive_end_app. cbn. split; [split|].
  - eapply entries_kept; [|exact He]. intros m Hm'. rewrite Hm by lia. rewrite !decide_False by lia. done.
  - split; [|done]. intros j Hj. rewrite Hm by lia. rewrite decide_True by lia. do 2 f_equal. lia.
  - rewrite Hm by lia. rewrite decide_False, decide_True by lia. done.
Qed.

Lemma stripped_ok name nm c : Forall (λ b, 0 < b < 256) name → strip_antisocial_prefixes name = Ok nm → (length nm <= 99)%nat →
  Z.of_nat (length c) < 2 ^ 31 → entry_ok (nm, c).
Proof.
  intros Hname Hnm Hl Hc. destruct (strip_total name) as (nm' & Enm & Hsafe & Hp). rewrite Hnm in Enm. injection Enm as <-.
  split; [done|]. split; [|done]. destruct Hp as [-> |[p ->]]; [repeat constructor; lia|by apply Forall_app in Hname as [_ ?]].
Qed.

(** C33: appending a file to an archive that has the entries [es] and starts at sector [n]
    of the scratch device, none at first, makes it the archive with those entries and the
    file's, and the next append goes on from there; it changes neither the disk of the file
    system nor its free map.  An extraction that starts at sector [n], as the first one of a
    kernel does for an archive at sector 0, whatever became of the file system since, does
    exactly what creating files with the names and writing the contents of all these entries,
    in order, does; the file's name there is without its dangerous prefixes.  (The position
    of the extractions of one kernel does not go back, so a second one starts behind the
    archive, not at its beginning.) *)
Theorem append_extract_roundtrip junk name nm u f s a i c b sh n es :
  scratch_ready (reg u) b sh → filesys_open junk name (fs u) = Ok (f, s) → open_file s f a i c →
  Forall (λ b, 0 < b < 256) name → strip_antisocial_prefixes name = Ok nm → (length nm <= 99)%nat →
  0 <= n → entries (reg u) b n es → Forall entry_ok es → append_sector u = archive_end n es →
  append_sector u + block_cnt c + 2 < s_size sh → s_size sh < 2 ^ 32 - 1 →
  let es' := es ++ [(nm, c)] in
  ∃ u1, fsutil_append junk name u = Ok (tt, u1) ∧ disk (fs u1) = disk s ∧ free_map (fs u1) = free_map s ∧
    entries (reg u1) b n es' ∧ Forall entry_ok es' ∧ append_sector u1 = archive_end n es' ∧
    ∀ fs2 r2 a2, same (reg u1) r2 → block_by_role r2 !! 2%nat = Some (Some b) → mem r2 = [] →
      match put_all junk es' fs2 with
      | Ok (_, s') => ∃ u', fsutil_extract junk (mk_fsutil fs2 r2 n a2) = Ok (tt, u') ∧ fs u' = s'
      | Fail e => fsutil_extract junk (mk_fsutil fs2 r2 n a2) = Fail e
      end.
Proof.
  intros Hr Eo Hof Hname Hnm Hl Hn Hes Hok HA Hroom Hsz es'. pose proof (block_cnt_pos c) as Hpos. pose proof (archive_end_ge n es) as Hge.
  destruct (append_run junk name nm u f s a i c b sh Hr Eo Hof Hname Hnm Hl ltac:(lia) Hroom) as (u1 & E1 & Hd & Hf & Ha1 & _ & Hu1 & Hm).
  assert (Hok' : Forall entry_ok es').
  { apply Forall_app. split; [done|]. constructor; [|constructor]. apply (stripped_ok name); [done..|].
    destruct Hof as (_ & _ & _ & _ & Hi & Hc & _). pose proof (io_length _ _ Hi). rewrite (proj1 Hc). lia. }
  assert (Har : archive (reg u1) b n es') by (rewrite HA in Hm; by eapply appended_archive).
  assert (Hend : archive_end n es' = append_sector u + 1 + block_cnt c) by (unfold es'; rewrite archive_end_app, <- HA; done).
  exists u1. split_and!; [done..|by apply archive_entries in Har as [? _]|done|lia|]. intros fs2 r2 a2 Hs2 Hrole2 Hmem2.
  pose proof (extract_run junk (mk_fsutil fs2 r2 n a2) b sh es') as HX. cbn [fs reg extract_sector append_sector] in HX.
  specialize (HX ltac:(split; [by eapply usable_same|done]) ltac:(lia) Hok' Hn ltac:(lia) ltac:(by eapply archive_same)).
  destruct (put_all junk es' fs2) as [[[] s']|e]; [|done]. destruct HX as (u' & E' & Ef & _). eauto.
Qed.

(** ** A sample: a file of 600 bytes *)

Definition stack : list Z := replicate 20 85.
Definition sample_contents : list Z := seqZ 0 200 ++ seqZ 0 200 ++ seqZ 0 200.
Definition saved : F Z :=
  filesys_init stack true ;;;
  filesys_create stack (chars "hello") 600 ;;;
  let* f := filesys_open stack (chars "hello") in
  file_write f sample_contents 600 ;;; file_close f ;;; ret 0.

Definition state_after {A} (m : F A) (s : fsys) : fsys := match m s with Ok (_, s') => s' | Fail _ => s end.
Definition saved_fs : fsys := state_after saved blank_disk.
Definition open_fs : fsys := state_after (filesys_open stack (chars "hello")) saved_fs.
Definition sample_inode : inode := mk_inode 4 1 false 0 (mk_inode_disk 5 600 INODE_MAGIC).
Definition sample_shape : shape := mk_shape (chars "hdc") BLOCK_SCRATCH 12 (Driver 0).
(** A freshly formatted file system. *)
Definition fresh_fs : fsys := state_after (filesys_init stack true) blank_disk.

Lemma sample_opened : filesys_open stack (chars "hello") saved_fs = Ok (60, open_fs).
Proof. vm_compute. reflexivity. Qed.

Lemma sample_open_file : open_file open_fs 60 59 sample_inode sample_contents.
Proof.
  split; [done|]. split; [done|]. split; [vm_compute; reflexivity|]. split; [vm_compute; reflexivity|]. split; [|split; [|split; [done|split; vm_compute; reflexivity]]].
  - assert (Ed : dev_size open_fs = 40) by (vm_compute; reflexivity). split; rewrite ?Ed; cbn; change ((600 + 511) / 512) with 2; try lia. intros sec Hsec.
    assert (Hs : sec = 5 ∨ sec = 6) by lia. destruct Hs as [-> | ->]; eexists; split; vm_compute; reflexivity.
  - assert (Hb : forallb (λ j, bool_decide (sample_contents !! Z.to_nat j = byte_at (disk open_fs) 5 j)) (seqZ 0 600) = true) by (vm_compute; reflexivity).
    split; [reflexivity|]. intros j Hj. cbn in Hj. rewrite forallb_forall in Hb.
    assert (Hin : In j (seqZ 0 600)) by (apply list_elem_of_In, elem_of_seqZ; lia). exact (proj1 (bool_decide_eq_true _) (Hb j Hin)).
Qed.

(** A scratch device with an archive of one empty file. *)
Definition empty_archive : registry :=
  mk_reg (all_blocks sample_scratch) (block_by_role sample_scratch)
    [header (chars "new") USTAR_REGULAR 0 :: zeros :: replicate 10 (replicate 512 170)] [] [].

Definition sample_extract : fsutil := mk_fsutil fresh_fs empty_archive 0 0.

Lemma empty_archive_ready : scratch_ready (reg sample_extract) 0 sample_shape.
Proof.
  split; [|split; reflexivity]. split; [|split; reflexivity]. intros j s Hs. destruct j as [|[|j]]; [|done|done]. injection Hs as <-. split; [cbn; lia|].
  exists (header (chars "new") USTAR_REGULAR 0 :: zeros :: replicate 10 (replicate 512 170)). split; reflexivity.
Qed.

Lemma empty_archive_entry : archive (reg sample_extract) 0 (extract_sector sample_extract) [(chars "new", [])].
Proof.
  change (archive empty_archive 0 0 [(chars "new", [])]). split; [|vm_compute; reflexivity]. intros j Hj.
  assert (j = 0) as -> by (unfold block_cnt in Hj; cbn [length] in Hj; mod_lia). vm_compute. reflexivity.
Qed.

Lemma new_entry_ok : Forall entry_ok [(chars "new", [])].
Proof. constructor; [|constructor]. split; [vm_compute; done|]. split; [repeat constructor; vm_compute; done|]. split; [apply Nat.leb_le; reflexivity|]. cbn. lia. Qed.

(** The file is appended behind an archive that has the empty file already. *)
Lemma append_extract_roundtrip_witness :
  ∃ u1, fsutil_append stack (chars "hello") (mk_fsutil saved_fs empty_archive 0 1) = Ok (tt, u1) ∧
    let r2 := mk_reg (all_blocks (reg u1)) [None; None; Some 0%nat; None] (disks (reg u1)) [] [] in
    match put_all stack [(chars "new", []); (chars "hello", sample_contents)] fresh_fs with
    | Ok (_, s') => ∃ u', fsutil_extract stack (mk_fsutil fresh_fs r2 0 0) = Ok (tt, u') ∧ fs u' = s'
    | Fail e => fsutil_extract stack (mk_fsutil fresh_fs r2 0 0) = Fail e
    end.
Proof.
  destruct (append_extract_roundtrip stack (chars "hello") (chars "hello") (mk_fsutil saved_fs empty_archive 0 1) 60 open_fs 59 sample_inode sample_contents 0 sample_shape 0 [(chars "new", [])])
    as (u1 & E1 & _ & _ & _ & _ & _ & Hx).
  - exact empty_archive_ready.
  - exact sample_opened.
  - exact sample_open_file.
  - repeat constructor; vm_compute; done.
  - vm_compute. reflexivity.
  - apply Nat.leb_le. vm_compute. reflexivity.
  - lia.
  - exact (proj1 (proj1 (archive_entries _ _ _ _) empty_archive_entry)).
  - exact new_entry_ok.
  - vm_compute. reflexivity.
  - vm_compute. reflexivity.
  - vm_compute. reflexivity.
  - exists u1. split; [exact E1|]. intros r2. exact (Hx fresh_fs r2 0 (conj eq_refl eq_refl) eq_refl eq_refl).
Defined.

Lemma fsutil_extract_correct_witness :
  match put_all stack [(chars "new", [])] (fs sample_extract) with
  | Ok (_, s') => ∃ u', fsutil_extract stack sample_extract = Ok (tt, u') ∧ fs u' = s' ∧
      extract_sector u' = archive_end (extract_sector sample_extract) [(chars "new", [])] + 1 ∧ append_sector u' = append_sector sample_extract ∧
      ∀ m, 0 <= m → sector_at (reg u') 0 m = if decide (m = 0 ∨ m = 1) then Some zeros else sector_at (reg sample_extract) 0 m
  | Fail e => fsutil_extract stack sample_extract = Fail e
  end.
Proof.
  exact (fsutil_extract_correct stack sample_extract 0 sample_shape [(chars "new", [])] empty_archive_ready
    ltac:(vm_compute; split; [discriminate|reflexivity]) new_entry_ok ltac:(vm_compute; discriminate) ltac:(vm_compute; reflexivity) empty_archive_entry).
Defined.
