(* ===== verification/Vm.v ===== *)
(** * Frames and supplemental page tables (src/vm/frame.c, page.c)

    The state joins the page tables and the page allocator ([mm]), the file system
    ([fs]), the swap device ([sw]), the frame table, the supplemental page tables and
    the page directory and supplemental table of every process.  The links of
    [frame_list] are the sequence of its entries; the clock hand points nowhere, at an
    entry or at the list's tail.  [malloc] answers from a script: every call takes the
    next address of [allocs], null meaning failure, and fails when the script is used
    up, so an address may be handed out again after it was freed.  [bucket_mem] says
    whether the hash tables get the memory they need, and [heap_junk] is what a fresh
    page table entry holds. *)

From S2P Require Import Prelude Bitmap Palloc Swap Pagedir Hash HashSpec Inode Filesys.
Local Open Scope Z_scope.

Inductive page_status := ALL_ZERO | ON_FRAME | ON_SWAP | FROM_FILESYS.
#[global] Instance page_status_eq_dec : EqDecision page_status.
Proof. solve_decision. Defined.

Record spte := mk_spte {
  upage : Z; kpage : Z; status : page_status; dirty : bool; swap_index : Z;
  sp_file : Z; file_offset : Z; read_bytes : Z; zero_bytes : Z; writable : bool
}.

Record frame_table_entry := mk_fte { f_kpage : Z; f_upage : Z; f_thread : Z; pinned : bool }.

Inductive clock_hand := NoHand | At (entry : Z) | AtTail.

Record frame_table := mk_frames {
  frame_lock : bool;              (* held by the running thread *)
  frame_map : table page_elem;    (* entries by kernel page *)
  frame_list : list Z;
  clock_ptr : clock_hand;
  ftes : gmap Z frame_table_entry
}.

Record page_tables := mk_pts { supts : gmap Z (table page_elem); sptes : gmap Z spte }.

Record vmem := mk_vm {
  mm : mmu; fs : fsys; sw : swaps; fr : frame_table; pt : page_tables;
  procs : gmap Z (Z * Z);         (* pagedir and supt of each thread *)
  current : Z;
  allocs : list Z;
  bucket_mem : bool;
  heap_junk : spte
}.

Definition set_mm x s := mk_vm x (fs s) (sw s) (fr s) (pt s) (procs s) (current s) (allocs s) (bucket_mem s) (heap_junk s).
Definition set_fs x s := mk_vm (mm s) x (sw s) (fr s) (pt s) (procs s) (current s) (allocs s) (bucket_mem s) (heap_junk s).
Definition set_sw x s := mk_vm (mm s) (fs s) x (fr s) (pt s) (procs s) (current s) (allocs s) (bucket_mem s) (heap_junk s).
Definition set_fr x s := mk_vm (mm s) (fs s) (sw s) x (pt s) (procs s) (current s) (allocs s) (bucket_mem s) (heap_junk s).
Definition set_pt x s := mk_vm (mm s) (fs s) (sw s) (fr s) x (procs s) (current s) (allocs s) (bucket_mem s) (heap_junk s).
Definition set_allocs x s := mk_vm (mm s) (fs s) (sw s) (fr s) (pt s) (procs s) (current s) x (bucket_mem s) (heap_junk s).

Definition set_lock x f := mk_frames x (frame_map f) (frame_list f) (clock_ptr f) (ftes f).
Definition set_map x f := mk_frames (frame_lock f) x (frame_list f) (clock_ptr f) (ftes f).
Definition set_list x f := mk_frames (frame_lock f) (frame_map f) x (clock_ptr f) (ftes f).
Definition set_clock x f := mk_frames (frame_lock f) (frame_map f) (frame_list f) x (ftes f).
Definition set_ftes x f := mk_frames (frame_lock f) (frame_map f) (frame_list f) (clock_ptr f) x.
Definition set_supts x p := mk_pts x (sptes p).
Definition set_sptes x p := mk_pts (supts p) x.

Definition page_ram (s : vmem) : gmap Z (list Z) := ram (pal (mm s)).
Definition set_page_ram (m : gmap Z (list Z)) (s : vmem) : vmem := set_mm (set_pal (set_ram m (pal (mm s))) (mm s)) s.

Notation X := (M vmem).

(** Running the operations of the components. *)
Definition in_mm {A} (m : M mmu A) : X A := λ s,
  match m (mm s) with Ok (a, x) => Ok (a, set_mm x s) | Fail f => Fail f end.
Definition in_fs {A} (m : M fsys A) : X A := λ s,
  match m (fs s) with Ok (a, x) => Ok (a, set_fs x s) | Fail f => Fail f end.
Definition in_sw {A} (m : M swap_state A) : X A := λ s,
  match m (page_ram s, sw s) with Ok (a, (r, w)) => Ok (a, set_page_ram r (set_sw w s)) | Fail f => Fail f end.

Definition malloc : X Z := λ s,
  match allocs s with
  | [] => Ok (NULL, s)
  | a :: rest => Ok (a, set_allocs rest s)
  end.

Definition fr_modify (f : frame_table → frame_table) : X unit := modify (λ s, set_fr (f (fr s)) s).
Definition get_fte (a : Z) : X frame_table_entry := λ s, need (ftes (fr s) !! a) s.
Definition get_spte (a : Z) : X spte := λ s, need (sptes (pt s) !! a) s.
Definition put_spte (a : Z) (e : spte) : X unit := modify (λ s, set_pt (set_sptes (<[a := e]> (sptes (pt s))) (pt s)) s).
Definition get_supt (a : Z) : X (table page_elem) := λ s, need (supts (pt s) !! a) s.
Definition put_supt (a : Z) (t : table page_elem) : X unit := modify (λ s, set_pt (set_supts (<[a := t]> (supts (pt s))) (pt s)) s).
Definition get_proc (t : Z) : X (Z * Z) := λ s, need (procs s !! t) s.

(** [lock_acquire] and [lock_release] on [frame_lock]; no other thread runs while it is
    held. *)
Definition acquire_frames : X unit :=
  let* held := gets (λ s, frame_lock (fr s)) in assert (negb held) ;;; fr_modify (set_lock true).
Definition release_frames : X unit :=
  let* held := gets (λ s, frame_lock (fr s)) in assert held ;;; fr_modify (set_lock false).

(** ** The frame table *)

Definition frame_hash_func (e : page_elem) : Z := hash_bytes (le32 (u32 e.2)).
Definition frame_less_func (a b : page_elem) : bool := a.2 <? b.2.

Definition frame_init : X unit :=
  let* mem := gets bucket_mem in
  fr_modify (λ f, mk_frames false (hash_init mem).2 [] NoHand (ftes f)).

(** The entry after [a] in the list. *)
Fixpoint list_after (l : list Z) (a : Z) : res clock_hand :=
  match l with
  | [] => Fail Undef
  | x :: rest => if x =? a then Ok (match rest with y :: _ => At y | [] => AtTail end) else list_after rest a
  end.

Definition clock_frame_next : X clock_hand :=
  let* l := gets (λ s, frame_list (fr s)) in
  let* hand := gets (λ s, clock_ptr (fr s)) in
  match l with
  | [] => fail Panicked
  | first :: _ =>
      let* hand := lift (match hand with At a => list_after l a | NoHand | AtTail => Ok (At first) end) in
      fr_modify (set_clock hand) ;;; ret hand
  end.

(** The loop [for (it = 0; it <= n + n; it++)]; [k] rounds are left.  The hand may be at
    the list's tail, which is not part of an entry. *)
Fixpoint evict_loop (k : nat) (pagedir : Z) : X Z :=
  match k with
  | O => fail Panicked
  | S k' =>
      let* hand := clock_frame_next in
      match hand with
      | At a =>
          let* e := get_fte a in
          if pinned e then evict_loop k' pagedir
          else
            let* accessed := in_mm (pagedir_is_accessed pagedir (f_upage e)) in
            if accessed
            then in_mm (pagedir_set_accessed pagedir (f_upage e) false) ;;; evict_loop k' pagedir
            else ret a
      | NoHand | AtTail => fail Undef
      end
  end.

Definition pick_frame_to_evict (pagedir : Z) : X Z :=
  let* n := gets (λ s, s32 (hash_size (frame_map (fr s)))) in
  if n =? 0 then fail Panicked else evict_loop (Z.to_nat (n + n + 1)) pagedir.

Definition frame_do_free (kpage : Z) (free_page : bool) : X unit :=
  let* held := gets (λ s, frame_lock (fr s)) in
  assert held ;;;
  assert (is_kernel_vaddr kpage) ;;;
  assert (pg_ofs kpage =? 0) ;;;
  let* map := gets (λ s, frame_map (fr s)) in
  let* h := lift (hash_find map (NULL, kpage)) in
  match h with
  | None => fail Panicked
  | Some f =>
      let* mem := gets bucket_mem in
      let* (_, map) := lift (hash_delete mem map f) in
      fr_modify (set_map map) ;;;
      fr_modify (λ t, set_list (filter (λ x, x ≠ f.1) (frame_list t)) t) ;;;
      (if free_page then in_mm (in_pal (palloc_free_page kpage)) else ret tt) ;;;
      fr_modify (λ t, set_ftes (delete f.1 (ftes t)) t)
  end.

Definition frame_free (kpage : Z) : X unit := acquire_frames ;;; frame_do_free kpage true ;;; release_frames.
Definition frame_remove_entry (kpage : Z) : X unit := acquire_frames ;;; frame_do_free kpage false ;;; release_frames.

Definition frame_set_pinned (kpage : Z) (new_value : bool) : X unit :=
  acquire_frames ;;;
  let* map := gets (λ s, frame_map (fr s)) in
  let* h := lift (hash_find map (NULL, kpage)) in
  (match h with
   | None => fail Panicked
   | Some f =>
       let* e := get_fte f.1 in
       fr_modify (λ t, set_ftes (<[f.1 := mk_fte (f_kpage e) (f_upage e) (f_thread e) new_value]> (ftes t)) t)
   end) ;;;
  release_frames.
Definition frame_unpin (kpage : Z) : X unit := frame_set_pinned kpage false.
Definition frame_pin (kpage : Z) : X unit := frame_set_pinned kpage true.

(** ** Supplemental page tables *)

(** Returns the address of the entry, or null. *)
Definition supt_lookup (supt page : Z) : X Z :=
  let* t := get_supt supt in
  let* o := lift (hash_find t (NULL, page)) in
  ret (match o with Some e => e.1 | None => NULL end).

Definition supt_has_entry (supt page : Z) : X bool := let* a := supt_lookup supt page in ret (negb (a =? NULL)).

Definition supt_create : X Z :=
  let* a := malloc in
  if a =? NULL then fail Undef
  else
    let* mem := gets bucket_mem in
    put_supt a (hash_init mem).2 ;;; ret a.

(** The common part of the three functions that install an entry: whether the page was
    new.  Writing the fields of a null pointer is undefined. *)
Definition install (supt a : Z) (e : spte) : X bool :=
  (if a =? NULL then fail Undef else put_spte a e) ;;;
  let* t := get_supt supt in
  let* mem := gets bucket_mem in
  let* (prev, t) := lift (hash_insert mem t (a, upage e)) in
  put_supt supt t ;;;
  ret (match prev with None => true | Some _ => false end).

Definition supt_install_frame (supt upage kpage : Z) : X bool :=
  let* a := malloc in
  let* j := gets heap_junk in
  let* fresh := install supt a (mk_spte upage kpage ON_FRAME false (-1)
                   (sp_file j) (file_offset j) (read_bytes j) (zero_bytes j) (writable j)) in
  if fresh then ret true
  else modify (λ s, set_pt (set_sptes (delete a (sptes (pt s))) (pt s)) s) ;;; ret false.

Definition supt_install_zeropage (supt upage : Z) : X bool :=
  let* a := malloc in
  let* j := gets heap_junk in
  let* fresh := install supt a (mk_spte upage NULL ALL_ZERO false (swap_index j)
                   (sp_file j) (file_offset j) (read_bytes j) (zero_bytes j) (writable j)) in
  if fresh then ret true else fail Panicked.

Definition supt_install_filesys (supt upage file offset read_bytes zero_bytes : Z) (writable : bool) : X bool :=
  let* a := malloc in
  let* j := gets heap_junk in
  let* fresh := install supt a (mk_spte upage NULL FROM_FILESYS false (swap_index j)
                   file offset read_bytes zero_bytes writable) in
  if fresh then ret true else fail Panicked.

Definition set_location (e : spte) (kpage : Z) (st : page_status) (slot : Z) : spte :=
  mk_spte (upage e) kpage st (dirty e) slot (sp_file e) (file_offset e) (read_bytes e) (zero_bytes e) (writable e).

Definition supt_set_swap (supt page slot : Z) : X bool :=
  let* a := supt_lookup supt page in
  if a =? NULL then ret false
  else let* e := get_spte a in put_spte a (set_location e NULL ON_SWAP slot) ;;; ret true.

Definition supt_set_dirty (supt page : Z) (value : bool) : X bool :=
  let* a := supt_lookup supt page in
  if a =? NULL then fail Panicked
  else
    let* e := get_spte a in
    put_spte a (mk_spte (upage e) (kpage e) (status e) (dirty e || value) (swap_index e)
                  (sp_file e) (file_offset e) (read_bytes e) (zero_bytes e) (writable e)) ;;;
    ret true.

(** ** Obtaining a frame, evicting another when memory is full *)

(** The eviction inside [frame_allocate]. *)
Definition evict : X unit :=
  let* cur := gets current in
  let* (pagedir, _) := get_proc cur in
  let* f := pick_frame_to_evict pagedir in
  let* e := get_fte f in
  assert (negb (f =? NULL) && negb (f_thread e =? NULL)) ;;;
  let* (pd, supt) := get_proc (f_thread e) in
  assert (negb (pd =? 3435973836)) ;;;
  in_mm (pagedir_clear_page pd (f_upage e)) ;;;
  let* dirty := in_mm (pagedir_is_dirty pd (f_upage e)) in
  let* dirty := (if dirty : bool then ret true else in_mm (pagedir_is_dirty pd (f_kpage e))) in
  let* slot := in_sw (swap_out (f_kpage e)) in
  supt_set_swap supt (f_upage e) slot ;;;
  supt_set_dirty supt (f_upage e) dirty ;;;
  frame_do_free (f_kpage e) true.

Definition frame_allocate (flags upage : Z) : X Z :=
  acquire_frames ;;;
  let* page := in_mm (in_pal (palloc_get_page (Z.lor PAL_USER flags))) in
  let* page :=
    (if page =? NULL then
       evict ;;;
       let* page := in_mm (in_pal (palloc_get_page (Z.lor PAL_USER flags))) in
       assert (negb (page =? NULL)) ;;; ret page
     else ret page) in
  let* f := malloc in
  if f =? NULL then release_frames ;;; ret NULL
  else
    let* cur := gets current in
    fr_modify (λ t, set_ftes (<[f := mk_fte page upage cur true]> (ftes t)) t) ;;;
    let* mem := gets bucket_mem in
    let* map := gets (λ s, frame_map (fr s)) in
    let* (_, map) := lift (hash_insert mem map (f, page)) in
    fr_modify (set_map map) ;;;
    fr_modify (λ t, set_list (frame_list t ++ [f]) t) ;;;
    release_frames ;;;
    ret page.

(** ** Bringing a page in *)

(** Stores [bytes] at offset [ofs] of a page. *)
Definition store_bytes (page ofs : Z) (bytes : list Z) : X unit :=
  let* ws := (λ s, need (page_ram s !! page) s) in
  let old := concat (le32 <$> ws) in
  if ofs + Z.of_nat (length bytes) <=? Z.of_nat (length old)
  then modify (λ s, set_page_ram (<[page := words_of (length ws) (blit old ofs (Z.of_nat (length bytes)) bytes)]> (page_ram s)) s)
  else fail Undef.

Definition load_page_from_filesys (e : spte) (kpage : Z) : X bool :=
  in_fs (file_seek (sp_file e) (file_offset e)) ;;;
  let* bytes := in_fs (file_read (sp_file e) (read_bytes e)) in
  store_bytes kpage 0 bytes ;;;
  if negb (Z.of_nat (length bytes) =? read_bytes e) then ret false
  else
    assert (s32 (read_bytes e + zero_bytes e) =? PGSIZE) ;;;
    store_bytes kpage (Z.of_nat (length bytes)) (replicate (Z.to_nat (zero_bytes e)) 0) ;;;
    ret true.

(** The [switch] of [load_page]: whether the contents could be read, and whether the
    page is writable. *)
Definition fetch (e : spte) (frame : Z) : X (bool * bool) :=
  match status e with
  | ALL_ZERO => modify (λ s, set_page_ram (<[frame := replicate PAGE_WORDS 0]> (page_ram s)) s) ;;; ret (true, true)
  | ON_FRAME => ret (true, true)
  | ON_SWAP => in_sw (swap_in (swap_index e) frame) ;;; ret (true, true)
  | FROM_FILESYS => let* ok := load_page_from_filesys e frame in ret (ok, writable e)
  end.

Definition load_page (supt pagedir upage : Z) : X bool :=
  let* a := supt_lookup supt upage in
  if a =? NULL then ret false
  else
    let* e := get_spte a in
    if decide (status e = ON_FRAME) then ret true
    else
      let* frame := frame_allocate PAL_USER upage in
      if frame =? NULL then ret false
      else
        let* e := get_spte a in
        let* (ok, writable) := fetch e frame in
        if negb ok then frame_free frame ;;; ret false
        else
          let* mapped := in_mm (pagedir_set_page pagedir upage frame writable) in
          if negb mapped then frame_free frame ;;; ret false
          else
            let* e := get_spte a in
            put_spte a (set_location e frame ON_FRAME (swap_index e)) ;;;
            in_mm (pagedir_set_dirty pagedir frame false) ;;;
            frame_unpin frame ;;;
            ret true.

Definition pin_page (supt page : Z) : X unit :=
  let* a := supt_lookup supt page in
  if a =? NULL then ret tt
  else
    let* e := get_spte a in
    assert (bool_decide (status e = ON_FRAME)) ;;; frame_pin (kpage e).

Definition unpin_page (supt page : Z) : X unit :=
  let* a := supt_lookup supt page in
  if a =? NULL then fail Panicked
  else
    let* e := get_spte a in
    if decide (status e = ON_FRAME) then frame_unpin (kpage e) else ret tt.

Definition spte_destroy_func (el : page_elem) : X unit :=
  let* e := get_spte el.1 in
  (if negb (kpage e =? NULL)
   then assert (bool_decide (status e = ON_FRAME)) ;;; frame_remove_entry (kpage e)
   else if decide (status e = ON_SWAP) then in_sw (swap_free (swap_index e)) else ret tt) ;;;
  modify (λ s, set_pt (set_sptes (delete el.1 (sptes (pt s))) (pt s)) s).

Definition supt_destroy (supt : Z) : X unit :=
  assert (negb (supt =? NULL)) ;;;
  let* t := get_supt supt in
  hash_destroy t (Some spte_destroy_func) ;;;
  modify (λ s, set_pt (set_supts (delete supt (supts (pt s))) (pt s)) s).
