(* ===== verification/Process.v ===== *)
(** * Loading a program (src/userprog/process.c)

    The loader works on kernel memory, a map from addresses to bytes that holds the
    command line, the buffer [fname] and the string constants, and on the virtual memory
    of [Vm].  [*esp] and [*eip] are results.  The messages of [printf] and [tss_update],
    which tells the processor where the kernel stack is, are left out. *)

From S2P Require Import Prelude Strings Bitmap Palloc Swap Pagedir Hash HashSpec Inode Filesys Vm.
Local Open Scope Z_scope.

(** ** The initial stack *)

Fixpoint store_all (p : Z) (bs : list Z) : B unit :=
  match bs with
  | [] => ret tt
  | b :: bs' => store p b ;;; store_all (p + 1) bs'
  end.

Definition store_int (p v : Z) : B unit := store_all p (le32 (u32 v)).

(** The first loop of [push_argument]; [addrs] holds the elements of [argv_addr] that
    were set. *)
Fixpoint push_strings (n : nat) (argv : list Z) (esp word_length : Z) (addrs : list Z) : B (Z * Z * list Z) :=
  match n with
  | O => ret (esp, word_length, addrs)
  | S i =>
      let* arg := need (argv !! i) in
      let* k := strlen arg in
      let length := s32 (k + 1) in
      let esp := u32 (esp - length) in
      strlcpy esp arg length ;;;
      push_strings i argv esp (s32 (word_length + length)) (esp :: addrs)
  end.

(** The second loop. *)
Fixpoint push_words (n : nat) (addrs : list Z) (esp : Z) : B Z :=
  match n with
  | O => ret esp
  | S i =>
      let* a := need (addrs !! i) in
      let esp := u32 (esp - 4) in
      store_int esp a ;;; push_words i addrs esp
  end.

(** Returns the new [*esp]. *)
Definition push_argument (argc : Z) (argv : list Z) (esp : Z) : B Z :=
  let* (esp, word_length, addrs) := push_strings (Z.to_nat argc) argv esp 0 [] in
  let align := 4 - Z.rem word_length 4 in
  let esp := u32 (esp - (align + 4)) in
  let* esp := push_words (Z.to_nat argc) addrs esp in
  let argv_p_addr := esp in
  let esp := u32 (esp - 4) in
  store_int esp argv_p_addr ;;;
  let esp := u32 (esp - 4) in
  store_int esp argc ;;;
  ret (u32 (esp - 4)).

(** ** Splitting the command line *)

(** One pass over [fname]: [argc] of the first pass is the length of its result, and
    [argv] is the result of the second.  Without a word, [argv[0]] is null. *)
Definition split_words (fname space : Z) : B (list Z) :=
  let* (pret, pnext) := strtok_r fname space null in
  if pret =? null then ret [null]
  else
    let* n := rounds in
    let* rest := strtok_all n null space pnext in
    ret (pret :: rest).

Definition copy_command (fname file_name : Z) : B unit :=
  let* n := strlen file_name in
  strlcpy fname file_name (u32 (n + 1)) ;;; ret tt.

Definition count_args (fname file_name space : Z) : B Z :=
  copy_command fname file_name ;;; let* ws := split_words fname space in ret (Z.of_nat (length ws)).

Definition get_args (fname file_name space : Z) : B (list Z) :=
  copy_command fname file_name ;;; split_words fname space.

(** ** Executables *)

Record Elf32_Ehdr := mk_ehdr {
  e_ident : list Z; e_type : Z; e_machine : Z; e_version : Z; e_entry : Z; e_phoff : Z; e_shoff : Z; e_flags : Z;
  e_ehsize : Z; e_phentsize : Z; e_phnum : Z; e_shentsize : Z; e_shnum : Z; e_shstrndx : Z
}.

Record Elf32_Phdr := mk_phdr {
  p_type : Z; p_offset : Z; p_vaddr : Z; p_paddr : Z; p_filesz : Z; p_memsz : Z; p_flags : Z; p_align : Z
}.

Definition EHDR_SIZE : Z := 52.
Definition PHDR_SIZE : Z := 32.

Definition word_at (bs : list Z) (ofs : nat) : Z := from_le32 (drop ofs bs).
Definition half_at (bs : list Z) (ofs : nat) : Z := nth ofs bs 0 + 256 * nth (S ofs) bs 0.

Definition ehdr_of (bs : list Z) : Elf32_Ehdr :=
  mk_ehdr (take 16 bs) (half_at bs 16) (half_at bs 18) (word_at bs 20) (word_at bs 24) (word_at bs 28) (word_at bs 32)
    (word_at bs 36) (half_at bs 40) (half_at bs 42) (half_at bs 44) (half_at bs 46) (half_at bs 48) (half_at bs 50).

Definition phdr_of (bs : list Z) : Elf32_Phdr :=
  mk_phdr (word_at bs 0) (word_at bs 4) (word_at bs 8) (word_at bs 12) (word_at bs 16) (word_at bs 20) (word_at bs 24) (word_at bs 28).

Definition PT_LOAD : Z := 1.
Definition PT_DYNAMIC : Z := 2.
Definition PT_INTERP : Z := 3.
Definition PT_SHLIB : Z := 5.
Definition PF_W : Z := 2.

Definition ELF_MAGIC : list Z := [127; 69; 76; 70; 1; 1; 1].

(** The condition under which [load] reports an error. *)
Definition bad_ehdr (bs : list Z) : bool :=
  let ehdr := ehdr_of bs in
  negb (Z.of_nat (length bs) =? EHDR_SIZE)
  || negb (bool_decide (take 7 (e_ident ehdr) = ELF_MAGIC))
  || negb (e_type ehdr =? 2)
  || negb (e_machine ehdr =? 3)
  || negb (e_version ehdr =? 1)
  || negb (e_phentsize ehdr =? PHDR_SIZE)
  || (1024 <? e_phnum ehdr).

(** [validate_segment], given the length of the file. *)
Definition segment_ok (phdr : Elf32_Phdr) (file_len : Z) : bool :=
  if negb (Z.land (p_offset phdr) PGMASK =? Z.land (p_vaddr phdr) PGMASK) then false
  else if u32 file_len <? p_offset phdr then false
  else if p_memsz phdr <? p_filesz phdr then false
  else if p_memsz phdr =? 0 then false
  else if negb (is_user_vaddr (p_vaddr phdr)) then false
  else if negb (is_user_vaddr (u32 (p_vaddr phdr + p_memsz phdr))) then false
  else if u32 (p_vaddr phdr + p_memsz phdr) <? p_vaddr phdr then false
  else if p_vaddr phdr <? PGSIZE then false
  else true.

Definition validate_segment (phdr : Elf32_Phdr) (file : Z) : X bool :=
  let* n := in_fs (file_length file) in ret (segment_ok phdr n).

(** The loop of [load_segment]. *)
Fixpoint segment_loop (fuel : nat) (file ofs upage read_bytes zero_bytes : Z) (writable : bool) : X bool :=
  if (0 <? read_bytes) || (0 <? zero_bytes) then
    match fuel with
    | O => fail NoFuel
    | S fuel =>
        let page_read_bytes := if read_bytes <? PGSIZE then read_bytes else PGSIZE in
        let page_zero_bytes := u32 (PGSIZE - page_read_bytes) in
        let* cur := gets current in
        let* (pagedir, supt) := get_proc cur in
        let* mapped := in_mm (pagedir_get_page pagedir upage) in
        assert (mapped =? NULL) ;;;
        let* ok := supt_install_filesys supt upage file ofs page_read_bytes page_zero_bytes writable in
        if negb ok then ret false
        else segment_loop fuel file (s32 (ofs + PGSIZE)) (u32 (upage + PGSIZE))
               (u32 (read_bytes - page_read_bytes)) (u32 (zero_bytes - page_zero_bytes)) writable
    end
  else ret true.

(** The fuel is the number of pages of the segment. *)
Definition load_segment (file ofs upage read_bytes zero_bytes : Z) (writable : bool) : X bool :=
  assert (u32 (read_bytes + zero_bytes) mod PGSIZE =? 0) ;;;
  assert (pg_ofs upage =? 0) ;;;
  assert (Z.rem ofs PGSIZE =? 0) ;;;
  in_fs (file_seek file ofs) ;;;
  segment_loop (Z.to_nat (u32 (read_bytes + zero_bytes) / PGSIZE)) file ofs upage read_bytes zero_bytes writable.

Definition ROUND_UP (x step : Z) : Z := u32 (DIV_ROUND_UP x step * step).

(** The arguments [load] gives to [load_segment] for a segment: the file page, the memory
    page, the bytes to read and the bytes to zero. *)
Definition segment_layout (phdr : Elf32_Phdr) : Z * Z * Z * Z :=
  let file_page := Z.land (p_offset phdr) (u32 (Z.lnot PGMASK)) in
  let mem_page := Z.land (p_vaddr phdr) (u32 (Z.lnot PGMASK)) in
  let page_offset := Z.land (p_vaddr phdr) PGMASK in
  if 0 <? p_filesz phdr then
    let read_bytes := u32 (page_offset + p_filesz phdr) in
    (file_page, mem_page, read_bytes, u32 (ROUND_UP (u32 (page_offset + p_memsz phdr)) PGSIZE - read_bytes))
  else (file_page, mem_page, 0, ROUND_UP (u32 (page_offset + p_memsz phdr)) PGSIZE).

(** The case [PT_LOAD] of the loop over the program headers. *)
Definition load_phdr (phdr : Elf32_Phdr) (file : Z) : X bool :=
  let* valid := validate_segment phdr file in
  if negb valid then ret false
  else
    let writable := negb (Z.land (p_flags phdr) PF_W =? 0) in
    let '(file_page, mem_page, read_bytes, zero_bytes) := segment_layout phdr in
    load_segment file (s32 file_page) mem_page read_bytes zero_bytes writable.

(** The loop over the [n] program headers that are left. *)
Fixpoint phdr_loop (n : nat) (file file_ofs : Z) : X bool :=
  match n with
  | O => ret true
  | S n' =>
      let* len := in_fs (file_length file) in
      if (file_ofs <? 0) || (len <? file_ofs) then ret false
      else
        in_fs (file_seek file file_ofs) ;;;
        let* bs := in_fs (file_read file PHDR_SIZE) in
        if negb (Z.of_nat (length bs) =? PHDR_SIZE) then ret false
        else
          let file_ofs := s32 (file_ofs + PHDR_SIZE) in
          let phdr := phdr_of bs in
          if (p_type phdr =? PT_DYNAMIC) || (p_type phdr =? PT_INTERP) || (p_type phdr =? PT_SHLIB) then ret false
          else if p_type phdr =? PT_LOAD then
            let* ok := load_phdr phdr file in
            if negb ok then ret false else phdr_loop n' file file_ofs
          else phdr_loop n' file file_ofs
  end.

(** ** The stack page *)

Definition install_page (upage kpage : Z) (writable : bool) : X bool :=
  let* cur := gets current in
  let* (pagedir, supt) := get_proc cur in
  let* mapped := in_mm (pagedir_get_page pagedir upage) in
  let* success := (if mapped =? NULL then in_mm (pagedir_set_page pagedir upage kpage writable) else ret false) in
  let* success := (if success : bool then supt_install_frame supt upage kpage else ret false) in
  (if success : bool then frame_unpin kpage else ret tt) ;;;
  ret success.

(** Returns the new [*esp] on success. *)
Definition setup_stack : X (option Z) :=
  let* kpage := frame_allocate (Z.lor PAL_USER PAL_ZERO) (PHYS_BASE - PGSIZE) in
  if kpage =? NULL then ret None
  else
    let* success := install_page (PHYS_BASE - PGSIZE) kpage true in
    if success : bool then ret (Some PHYS_BASE) else frame_free kpage ;;; ret None.

(** ** Loading *)

Notation L := (M (bytes_mem * vmem)).

Definition in_kernel {A} (m : B A) : L A := λ '(k, s),
  match m k with Ok (a, k') => Ok (a, (k', s)) | Fail f => Fail f end.
Definition in_vm {A} (m : X A) : L A := λ '(k, s),
  match m s with Ok (a, s') => Ok (a, (k, s')) | Fail f => Fail f end.

(** The bytes of a page at user address [va], and the page that holds the bytes of [m]
    at [va]. *)
Definition page_bytes (va : Z) (ws : list Z) : bytes_mem := list_to_map (imap (λ i b, (va + Z.of_nat i, b)) (concat (le32 <$> ws))).
Definition page_words (va : Z) (m : bytes_mem) : list Z := words_of PAGE_WORDS ((λ a, default 0 (m !! a)) <$> seqZ va PGSIZE).

(** Running kernel code that accesses kernel memory and the user page at [va] of the
    running process. *)
Definition in_user_page {A} (va : Z) (m : B A) : L A :=
  let* cur := in_vm (gets current) in
  let* (pagedir, _) := in_vm (get_proc cur) in
  let* kp := in_vm (in_mm (pagedir_get_page pagedir va)) in
  let* ws := in_vm (λ s, need (page_ram s !! kp) s) in
  λ '(k, s),
    match m (page_bytes va ws ∪ k) with
    | Ok (a, m') => Ok (a, (filter (λ x, ¬ (va <= x.1 < va + PGSIZE)) m', set_page_ram (<[kp := page_words va m']> (page_ram s)) s))
    | Fail f => Fail f
    end.

Fixpoint read_string (fuel : nat) (p : Z) : B (list Z) :=
  match fuel with
  | O => fail NoFuel
  | S fuel => let* b := Strings.load p in if b =? 0 then ret [] else let* l := read_string fuel (p + 1) in ret (b :: l)
  end.

Definition process_activate : X unit :=
  let* cur := gets current in let* (pagedir, _) := get_proc cur in in_mm (pagedir_activate pagedir).

Definition set_proc (t : Z) (p : Z * Z) (s : vmem) : vmem :=
  mk_vm (mm s) (fs s) (sw s) (fr s) (pt s) (<[t := p]> (procs s)) (current s) (allocs s) (bucket_mem s) (heap_junk s).

Section load.
(** What the stack holds where the directory's entry buffers are. *)
Variable junk : list Z.

(** [load (file_name, eip, esp)], where [name] is the address of [t->name]: the values
    stored in [*eip] and [*esp] when it succeeds. *)
Definition load (file_name fname space name : Z) : L (option (Z * Z)) :=
  let* t := in_vm (gets current) in
  let* pagedir := in_vm (in_mm pagedir_create) in
  let* supt := in_vm supt_create in
  in_vm (modify (set_proc t (pagedir, supt))) ;;;
  if pagedir =? NULL then ret None
  else
    in_vm process_activate ;;;
    let* argc := in_kernel (count_args fname file_name space) in
    let* block := in_vm Vm.malloc in
    if block =? NULL then fail Undef
    else
      let* argv := in_kernel (get_args fname file_name space) in
      let* arg0 := need (argv !! 0%nat) in
      in_kernel (strlcpy name arg0 16) ;;;
      let* prog := in_kernel (let* n := rounds in read_string n arg0) in
      let* file := in_vm (in_fs (filesys_open junk prog)) in
      if file =? NULL then ret None
      else
        let* bs := in_vm (in_fs (file_read file EHDR_SIZE)) in
        if bad_ehdr bs then ret None
        else
          let ehdr := ehdr_of bs in
          let* ok := in_vm (phdr_loop (Z.to_nat (e_phnum ehdr)) file (s32 (e_phoff ehdr))) in
          if negb ok then ret None
          else
            let* esp := in_vm setup_stack in
            match esp with
            | None => ret None
            | Some esp =>
                let* esp := in_user_page (PHYS_BASE - PGSIZE) (push_argument argc argv esp) in
                ret (Some (e_entry ehdr, esp))
            end.
End load.
