(* ===== verification/ArgSpec.v ===== *)
(** * The arguments of a program (src/userprog/process.c)

    What the new process finds on its stack: the words of the command line, split by
    [load] and pushed by [push_argument]. *)

From S2P Require Import Prelude Strings StringSpec Bitmap Palloc Swap Pagedir Hash HashSpec Inode Filesys Vm Process.
Local Open Scope Z_scope.

(** [m'] is [m] with bytes of [lo, hi) replaced. *)
Record changed (m m' : bytes_mem) (lo hi : Z) : Prop := {
  ch_out : ∀ a, ¬ (lo <= a < hi) → m' !! a = m !! a;
  ch_some : ∀ a, is_Some (m !! a) → is_Some (m' !! a)
}.

Lemma changed_refl m lo hi : changed m m lo hi.
Proof. by split. Qed.

Lemma changed_trans m1 m2 m3 lo hi lo1 hi1 lo2 hi2 :
  changed m1 m2 lo1 hi1 → changed m2 m3 lo2 hi2 → lo <= lo1 → lo <= lo2 → hi1 <= hi → hi2 <= hi → changed m1 m3 lo hi.
Proof. intros [A1 A2] [B1 B2] ????. split; [intros a Ha; rewrite B1, A1 by lia; done|auto]. Qed.

Lemma changed_block m m' lo hi p n : changed m m' lo hi → block m p n → block m' p n.
Proof. intros [_ H] Hb i Hi. apply H, Hb, Hi. Qed.

Lemma changed_str m m' lo hi p l : changed m m' lo hi → str m p l → hi <= p ∨ p + len l < lo → str m' p l.
Proof. intros [H _] Hs Hp. apply (str_ext m); [done|]. intros a Ha. apply H. lia. Qed.

Lemma changed_strs m m' lo hi ps ls :
  changed m m' lo hi → Forall2 (str m) ps ls → Forall (λ p, hi <= p) ps → Forall2 (str m') ps ls.
Proof. intros Hc H Hp. induction H; [done|]. apply Forall_cons in Hp as [? ?]. constructor; [eapply changed_str; eauto|auto]. Qed.

(** ** Words in memory *)

Definition bytes_at (m : bytes_mem) (p : Z) (bs : list Z) : Prop := ∀ i, 0 <= i < len bs → m !! (p + i) = bs !! Z.to_nat i.
Definition int_at (m : bytes_mem) (p v : Z) : Prop := bytes_at m p (le32 (u32 v)).

Lemma store_all_run p bs m : block m p (len bs) → ∃ m', store_all p bs m = Ok (tt, m') ∧ bytes_at m' p bs ∧ changed m m' p (p + len bs).
Proof.
  revert p m. induction bs as [|b bs IH]; intros p m Hb; cbn [store_all].
  { exists m. split_and!; [done| |apply changed_refl]. intros i Hi. simpl in Hi. lia. }
  destruct (Hb 0) as [x Hx]; [simpl; lia|]. rewrite Z.add_0_r in Hx.
  destruct (IH (p + 1) (<[p := b]> m)) as (m' & E & Hat & Hc).
  { intros i Hi. rewrite lookup_insert_ne by lia. replace (p + 1 + i) with (p + (i + 1)) by lia. apply Hb. simpl. lia. }
  exists m'. split_and!.
  - unfold bind, store. by rewrite Hx.
  - intros i Hi. destruct (decide (i = 0)) as [->|].
    + rewrite Z.add_0_r. rewrite (ch_out _ _ _ _ Hc) by lia. apply lookup_insert_eq.
    + replace (p + i) with (p + 1 + (i - 1)) by lia. rewrite Hat by (simpl in Hi; lia). by replace (Z.to_nat i) with (S (Z.to_nat (i - 1))) by lia.
  - split.
    + intros a Ha. simpl in Ha. rewrite (ch_out _ _ _ _ Hc) by lia. apply lookup_insert_ne. lia.
    + intros a Ha. apply (ch_some _ _ _ _ Hc). destruct (decide (a = p)) as [->|]; [rewrite lookup_insert_eq; by eexists|by rewrite lookup_insert_ne].
Qed.

Lemma store_int_run p v m : block m p 4 → ∃ m', store_int p v m = Ok (tt, m') ∧ int_at m' p v ∧ changed m m' p (p + 4).
Proof. intros Hb. apply (store_all_run p (le32 (u32 v)) m Hb). Qed.

Lemma changed_int m m' lo hi p v : changed m m' lo hi → int_at m p v → hi <= p ∨ p + 4 <= lo → int_at m' p v.
Proof. intros [H _] Hi Hp i Hr. rewrite H; [by apply Hi|]. simpl in Hr. lia. Qed.

(** ** Pushing *)

(** The room strings take, with their terminators. *)
Fixpoint total (ls : list (list Z)) : Z := match ls with [] => 0 | l :: ls' => len l + 1 + total ls' end.

Lemma total_nonneg ls : 0 <= total ls.
Proof. induction ls; simpl; lia. Qed.

Lemma total_app ls ls' : total (ls ++ ls') = total ls + total ls'.
Proof. induction ls; simpl; lia. Qed.

Lemma total_take_S ls i l : ls !! i = Some l → total (take (S i) ls) = total (take i ls) + (len l + 1).
Proof. intros H. rewrite (take_S_r _ _ _ H), total_app. simpl. lia. Qed.

Lemma push_strings_run n argv esp wl addrs strs m :
  Forall2 (str m) argv strs → Forall (λ p, esp <= p) argv → (n <= length strs)%nat →
  0 < esp - total (take n strs) → esp < 2 ^ 32 → 0 <= wl → wl + total (take n strs) < 2 ^ 31 → block m (esp - total (take n strs)) (total (take n strs)) →
  ∃ ps m', push_strings n argv esp wl addrs m = Ok ((esp - total (take n strs), wl + total (take n strs), ps ++ addrs), m') ∧
    Forall2 (str m') ps (take n strs) ∧ Forall (λ p, esp - total (take n strs) <= p < esp) ps ∧ changed m m' (esp - total (take n strs)) esp.
Proof.
  revert esp wl addrs m. induction n as [|i IH]; intros esp wl addrs m Hstr Hlo Hn Hpos Hesp Hwl Hsmall Hb.
  { exists [], m. rewrite take_0 in *. simpl in *. rewrite Z.sub_0_r, Z.add_0_r. split_and!; done. }
  destruct (lookup_lt_is_Some_2 strs i ltac:(lia)) as [l Hl].
  destruct (Forall2_lookup_r _ _ _ _ _ Hstr Hl) as (arg & Harg & Hs).
  assert (Harglo : esp <= arg) by exact (proj1 (Forall_lookup _ _) Hlo i arg Harg).
  pose proof (total_nonneg (take i strs)) as Ht. rewrite (total_take_S _ _ _ Hl) in *. set (T := total (take i strs)) in *.
  cbn [push_strings]. unfold need. rewrite Harg. cbn [need]. erewrite bind_ok by reflexivity.
  rewrite (bind_ok _ _ _ _ _ (strlen_spec arg l m ltac:(unfold null; lia) Hs)). cbv zeta.
  rewrite (s32_id (len l + 1)) by int_lia. rewrite (u32_id (esp - _)) by int_lia. rewrite (s32_id (wl + _)) by int_lia.
  destruct (strlcpy_truncates (esp - (len l + 1)) arg l (len l + 1) m) as (m1 & E1 & Hs1 & Hout1); [split; [done|lia]|lia|lia| |lia|].
  { intros j Hj. replace (esp - (len l + 1) + j) with (esp - (T + (len l + 1)) + (T + j)) by lia. apply Hb. lia. }
  assert (Hc1 : changed m m1 (esp - (len l + 1)) esp).
  { split; [intros a Ha; apply Hout1; lia|]. intros a Ha. destruct (decide (esp - (len l + 1) <= a < esp)) as [Hr|]; [|by rewrite Hout1 by lia].
    rewrite take_ge in Hs1 by lia. replace a with (esp - (len l + 1) + (a - (esp - (len l + 1)))) by lia.
    rewrite (str_lookup _ _ _ _ Hs1) by lia. by eexists. }
  rewrite take_ge in Hs1 by lia. rewrite (bind_ok _ _ _ _ _ E1).
  destruct (IH (esp - (len l + 1)) (wl + (len l + 1)) (esp - (len l + 1) :: addrs) m1) as (ps & m' & E & Hps & Hin & Hc); try lia.
  { by eapply changed_strs. }
  { eapply Forall_impl; [exact Hlo|]. simpl. lia. }
  { intros j Hj. apply (ch_some _ _ _ _ Hc1). replace (esp - (len l + 1) - T + j) with (esp - (T + (len l + 1)) + j) by lia. apply Hb. lia. }
  rewrite E. exists (ps ++ [esp - (len l + 1)]), m'. rewrite <- app_assoc. cbn [app]. split_and!.
  - do 4 f_equal; lia.
  - rewrite (take_S_r _ _ _ Hl). apply Forall2_app; [done|]. constructor; [|done]. eapply changed_str; [exact Hc|exact Hs1|lia].
  - apply Forall_app. split; [eapply Forall_impl; [exact Hin|]; simpl; lia|]. constructor; [lia|done].
  - eapply changed_trans; [exact Hc1|exact Hc|lia..].
Qed.

Lemma push_words_run n addrs esp m :
  (n <= length addrs)%nat → 0 <= esp - 4 * Z.of_nat n → esp < 2 ^ 32 → block m (esp - 4 * Z.of_nat n) (4 * Z.of_nat n) →
  ∃ m', push_words n addrs esp m = Ok (esp - 4 * Z.of_nat n, m') ∧ changed m m' (esp - 4 * Z.of_nat n) esp ∧
    ∀ i a, (i < n)%nat → addrs !! i = Some a → int_at m' (esp - 4 * Z.of_nat n + 4 * Z.of_nat i) a.
Proof.
  revert esp m. induction n as [|n IH]; intros esp m Hn Hpos Hesp Hb.
  { exists m. cbn [push_words]. split_and!; [by rewrite Z.mul_0_r, Z.sub_0_r|apply changed_refl|lia]. }
  destruct (lookup_lt_is_Some_2 addrs n ltac:(lia)) as [a Ha]. cbn [push_words]. unfold need. rewrite Ha. cbn [need].
  erewrite bind_ok by reflexivity. cbv zeta. rewrite (u32_id (esp - 4)) by int_lia.
  destruct (store_int_run (esp - 4) a m) as (m1 & E1 & Hat1 & Hc1).
  { intros j Hj. replace (esp - 4 + j) with (esp - 4 * Z.of_nat (S n) + (4 * Z.of_nat n + j)) by lia. apply Hb. lia. }
  rewrite (bind_ok _ _ _ _ _ E1). destruct (IH (esp - 4) m1) as (m' & E & Hc & Hat); try lia.
  { intros j Hj. apply (ch_some _ _ _ _ Hc1). replace (esp - 4 - 4 * Z.of_nat n + j) with (esp - 4 * Z.of_nat (S n) + j) by lia. apply Hb. lia. }
  replace (esp - 4 * Z.of_nat (S n)) with (esp - 4 - 4 * Z.of_nat n) by lia. exists m'. split_and!; [done| |].
  - eapply changed_trans; [exact Hc1|exact Hc|lia..].
  - intros i b Hi Hb'. destruct (decide (i = n)) as [->|]; [|apply Hat; [lia|done]].
    assert (b = a) as -> by congruence. replace (esp - 4 - 4 * Z.of_nat n + 4 * Z.of_nat n) with (esp - 4) by lia.
    eapply changed_int; [exact Hc|exact Hat1|lia].
Qed.

(** The stack a process starts with, below [top]: [argc], [argv], the pointers [ps] of
    [argv], room for the null pointer after them, and the strings they point to. *)
Record arguments (m : bytes_mem) (esp top : Z) (strs : list (list Z)) (ps : list Z) : Prop := {
  ar_align : esp mod 4 = 0;
  ar_argc : int_at m (esp + 4) (len strs);
  ar_argv : int_at m (esp + 8) (esp + 12);
  ar_ptrs : ∀ i p, ps !! i = Some p → int_at m (esp + 12 + 4 * Z.of_nat i) p;
  ar_strs : Forall2 (str m) ps strs;
  ar_in : Forall (λ p, esp + 12 + 4 * (len strs + 1) < p < top) ps
}.

Definition stack_size (strs : list (list Z)) : Z := total strs + (4 - total strs mod 4) + 4 + 4 * len strs + 12.

Lemma push_argument_run argv strs top m :
  Forall2 (str m) argv strs → Forall (λ p, top <= p) argv → top mod 4 = 0 → top < 2 ^ 32 → total strs < 2 ^ 31 →
  0 < top - stack_size strs → block m (top - stack_size strs) (stack_size strs) →
  ∃ ps m', push_argument (len strs) argv top m = Ok (top - stack_size strs, m') ∧
    arguments m' (top - stack_size strs) top strs ps ∧ changed m m' (top - stack_size strs) top ∧
    ∀ i, 0 <= i < 4 → let a := top - stack_size strs + 12 + 4 * len strs + i in m' !! a = m !! a.
Proof.
  intros Hstr Hlo Hmod Htop Hsmall Hpos Hb. pose proof (total_nonneg strs) as HT. unfold push_argument. rewrite Nat2Z.id.
  set (size := stack_size strs) in *. assert (Hsz : size = total strs + (4 - total strs mod 4) + 4 + 4 * len strs + 12) by done.
  clearbody size. set (T := total strs) in *. pose proof (Z.mod_pos_bound T 4 ltac:(lia)) as Hrem.
  assert (Hsub : ∀ lo n, top - size <= lo → lo + n <= top → block m lo n).
  { intros lo n H1 H2 j Hj. replace (lo + j) with (top - size + (lo + j - (top - size))) by lia. apply Hb. lia. }
  pose proof (push_strings_run (length strs) argv top 0 [] strs m Hstr Hlo ltac:(lia)) as Hps.
  rewrite firstn_all in Hps. fold T in Hps. destruct Hps as (ps & m1 & E1 & Hps & Hin & Hc1); [lia..|apply Hsub; lia|].
  rewrite (bind_ok _ _ _ _ _ E1). rewrite app_nil_r, Z.add_0_l, Z.rem_mod_nonneg by lia. cbv zeta.
  rewrite (u32_id (top - T - _)) by int_lia. set (a1 := top - T - (4 - T mod 4 + 4)). assert (Ha1 : a1 = top - T - (4 - T mod 4 + 4)) by done.
  pose proof (Forall2_length _ _ _ Hps) as Hlen.
  destruct (push_words_run (length strs) ps a1 m1) as (m2 & E2 & Hc2 & Hat2); [lia|lia|unfold a1; lia|eapply changed_block; [exact Hc1|]; apply Hsub; lia|].
  rewrite (bind_ok _ _ _ _ _ E2). set (a2 := a1 - 4 * len strs) in *. assert (Ha2 : a2 = a1 - 4 * len strs) by done. rewrite !(u32_id (a2 - 4)) by int_lia.
  destruct (store_int_run (a2 - 4) a2 m2) as (m3 & E3 & Hat3 & Hc3); [repeat (eapply changed_block; [eassumption|]); apply Hsub; lia|].
  rewrite (bind_ok _ _ _ _ _ E3). rewrite (u32_id (a2 - 4 - 4)) by int_lia.
  destruct (store_int_run (a2 - 4 - 4) (len strs) m3) as (m4 & E4 & Hat4 & Hc4); [repeat (eapply changed_block; [eassumption|]); apply Hsub; lia|].
  rewrite (bind_ok _ _ _ _ _ E4). rewrite u32_id by int_lia. exists ps, m4.
  assert (Hlow : changed m1 m4 (a2 - 8) a1) by (eapply changed_trans; [exact Hc2|eapply (changed_trans _ _ _ (a2 - 8) a2); [exact Hc3|exact Hc4|lia..]|lia..]).
  replace (top - size) with (a2 - 12) by lia. split_and!; [unfold ret; do 2 f_equal; lia| | |].
  - split.
    + unfold a2, a1. clear -Hmod. mod_lia.
    + by replace (a2 - 12 + 4) with (a2 - 4 - 4) by lia.
    + replace (a2 - 12 + 8) with (a2 - 4) by lia. replace (a2 - 12 + 12) with a2 by lia. eapply changed_int; [exact Hc4|exact Hat3|lia].
    + intros i p Hp. replace (a2 - 12 + 12) with a2 by lia. eapply changed_int; [exact Hc4|eapply changed_int; [exact Hc3|apply Hat2|]|]; try done; try lia.
      apply lookup_lt_Some in Hp. lia.
    + eapply changed_strs; [exact Hlow|done|]. eapply Forall_impl; [exact Hin|]. simpl. lia.
    + eapply Forall_impl; [exact Hin|]. simpl. lia.
  - eapply changed_trans; [exact Hc1|exact Hlow|lia..].
  - intros i Hi. cbv zeta. rewrite (ch_out _ _ _ _ Hc4), (ch_out _ _ _ _ Hc3), (ch_out _ _ _ _ Hc2), (ch_out _ _ _ _ Hc1) by lia. done.
Qed.

(** ** Splitting *)

(** A function that only overwrites bytes. *)
Definition keeps {A} (f : B A) : Prop := ∀ m a m', f m = Ok (a, m') → ∀ x, is_Some (m !! x) → is_Some (m' !! x).

Lemma keeps_same {A} (f : B A) : (∀ m a m', f m = Ok (a, m') → m' = m) → keeps f.
Proof. by intros H m a m' ->%H. Qed.

Lemma keeps_ret {A} (a : A) : keeps (ret a).
Proof. apply keeps_same. intros ??? [= _ ->]. done. Qed.

Lemma keeps_fail {A} e : keeps (fail e : B A).
Proof. by intros ???. Qed.

Lemma keeps_load a : keeps (Strings.load a).
Proof. apply keeps_same. unfold Strings.load, need. intros m b m'. destruct (m !! a); by intros [= _ ->]. Qed.

Lemma keeps_rounds : keeps rounds.
Proof. apply keeps_same. intros ??? [= _ ->]. done. Qed.

Lemma keeps_store a b : keeps (store a b).
Proof.
  unfold store. intros m [] m' E x Hx. destruct (m !! a) eqn:Ea; [|done]. injection E as <-.
  destruct (decide (x = a)) as [->|]; [rewrite lookup_insert_eq; by eexists|by rewrite lookup_insert_ne].
Qed.

Lemma keeps_assert b : keeps (assert b).
Proof. destruct b; [apply keeps_ret|apply keeps_fail]. Qed.

Lemma keeps_bind {A C} (f : B A) (k : A → B C) : keeps f → (∀ a, keeps (k a)) → keeps (bind f k).
Proof. intros Hf Hk m c m' (a & m1 & E1 & E2)%bind_inv x Hx. eapply Hk, Hf, Hx; eauto. Qed.

#[local] Hint Resolve keeps_ret keeps_fail keeps_load keeps_rounds keeps_store keeps_assert : keeps.
Ltac keeps := repeat first [progress eauto with keeps | apply keeps_bind; [|intros ?] | case_match].

Lemma keeps_strchr p c : keeps (strchr p c).
Proof.
  unfold strchr, assert_nonnull. keeps. match goal with |- keeps (strchr_loop ?n _ ?c) => generalize n, c, p end.
  intros n. induction n; intros; cbn [strchr_loop]; keeps.
Qed.
#[local] Hint Resolve keeps_strchr : keeps.

Lemma keeps_skip_delimiters n s d : keeps (skip_delimiters n s d).
Proof. revert s. induction n; intros; cbn [skip_delimiters]; keeps. Qed.
Lemma keeps_skip_token n s d : keeps (skip_token n s d).
Proof. revert s. induction n; intros; cbn [skip_token]; keeps. Qed.
#[local] Hint Resolve keeps_skip_delimiters keeps_skip_token : keeps.

Lemma keeps_strtok_r s d save : keeps (strtok_r s d save).
Proof. unfold strtok_r, assert_nonnull. keeps. Qed.
#[local] Hint Resolve keeps_strtok_r : keeps.

Lemma keeps_strtok_all n s d save : keeps (strtok_all n s d save).
Proof. revert s save. induction n; intros; cbn [strtok_all]; keeps. Qed.
#[local] Hint Resolve keeps_strtok_all : keeps.

Lemma keeps_split_words fname space : keeps (split_words fname space).
Proof. unfold split_words. keeps. Qed.

Lemma total_fields d l : total (fields d l) = len l + 1.
Proof.
  induction l as [|b l IH]; [done|]. cbn [fields]. destruct (mem_of b d); [simpl; lia|].
  destruct (fields d l) as [|f fs]; simpl in *; lia.
Qed.

Lemma total_tokens d l : total (tokens d l) <= len l + 1 ∧ 2 * len (tokens d l) <= total (tokens d l).
Proof.
  rewrite <- (total_fields d l). unfold tokens. induction (fields d l) as [|f fs IH]; [simpl; lia|]. simpl.
  destruct f as [|b f]; simpl in *; lia.
Qed.

(** A pass over the command line in [fname]. *)
Lemma split_words_run fname space l m :
  placed_str m fname l → placed_str m space [32] → Forall byte l → space + 1 < fname ∨ fname + len l < space → tokens [32] l ≠ [] →
  ∃ ps m', split_words fname space m = Ok (ps, m') ∧ Forall2 (str m') ps (tokens [32] l) ∧
    Forall (λ a, fname <= a <= fname + len l) ps ∧ ∀ a, ¬ (fname <= a < fname + len l) → m' !! a = m !! a.
Proof.
  intros Hs Hsp Hb Hdis Hne. pose proof (proj2 Hs) as Hpos. assert (Hnn : (fname =? null) = false) by (apply Z.eqb_neq; unfold null; lia).
  unfold split_words. pose proof (strtok_r_run fname fname l space [32] null m) as Hrun. rewrite Hnn in Hrun. specialize (Hrun eq_refl Hs Hsp Hb).
  rewrite tokens_step in Hne |- *. destruct (skip [32] l) as [|b0 l0] eqn:Esk; [done|]. set (l1 := b0 :: l0) in *.
  destruct Hrun as (sv & m1 & Hrun). cbv zeta in Hrun. set (w := word [32] l1) in *. set (rest := drop (S (length w)) l1) in *.
  destruct Hrun as (E & Hw & Hrest & Hsep & Hend & Hlo & Hout). set (tok := fname + (len l - len l1)) in *.
  destruct (skip_suffix [32] l) as [pre Epre]. rewrite Esk in Epre.
  assert (Hlen : len l = len pre + len l1) by (rewrite Epre, length_app; unfold l1; lia).
  rewrite (bind_ok _ _ _ _ _ E). rewrite (proj2 (Z.eqb_neq tok null)) by (unfold null, tok; lia). rewrite (bind_ok _ _ _ _ _ (rounds_ok m1)).
  pose proof (str_size _ _ _ (proj1 Hrest)) as Hsize.
  destruct (strtok_all_spec (S (size m1)) null sv rest space [32] sv m1) as (ps & m2 & E2 & Hps & Hin & Hout2); try done; try lia.
  - destruct Hsp as [Hsp ?]. split; [|done]. eapply str_ext; [exact Hsp|]. intros a Ha. apply Hout. simpl in Ha. lia.
  - apply Forall_drop. rewrite Epre in Hb. by apply Forall_app in Hb as [_ Hb].
  - simpl. lia.
  - rewrite (bind_ok _ _ _ _ _ E2). exists (tok :: ps), m2. split; [done|]. split_and!.
    + constructor; [|done]. eapply str_ext; [exact Hw|]. intros a Ha. apply Hout2. fold w in Ha. destruct Hsep as [Er|Hsep]; [rewrite Er; simpl; lia|lia].
    + constructor; [unfold tok; lia|]. eapply Forall_impl; [exact Hin|]. intros a Ha. cbv beta in Ha. lia.
    + intros a Ha. rewrite Hout2 by lia. apply Hout. lia.
Qed.

(** Where the loader finds the command line [l]: in kernel memory, with the buffer
    [fname] of 300 bytes and the string constant at [space]. *)
Record command_line (m : bytes_mem) (file_name fname space : Z) (l : list Z) : Prop := {
  cl_str : placed_str m file_name l;
  cl_byte : Forall byte l;
  cl_fits : len l < 300;
  cl_space : placed_str m space [32];
  cl_fname : PHYS_BASE <= fname;
  cl_buffer : block m fname 300;
  cl_apart : file_name + len l < fname ∨ fname + 300 <= file_name;
  cl_apart' : space + 1 < fname ∨ fname + 300 <= space
}.

Lemma keeps_strlen_loop n p : keeps (strlen_loop n p).
Proof. revert p. induction n; intros; cbn [strlen_loop]; keeps. Qed.
Lemma keeps_copy_up n dst src : keeps (copy_up n dst src).
Proof. revert dst src. induction n; intros; cbn [copy_up]; keeps. Qed.
#[local] Hint Resolve keeps_strlen_loop keeps_copy_up : keeps.

Lemma keeps_strlcpy dst src n : keeps (strlcpy dst src n).
Proof. unfold strlcpy, memcpy, strlen, assert_nonnull, assert_block. keeps. Qed.

Lemma copy_command_run m file_name fname space l :
  command_line m file_name fname space l →
  ∃ m', copy_command fname file_name m = Ok (tt, m') ∧ str m' fname l ∧ (∀ a, ¬ (fname <= a < fname + 300) → m' !! a = m !! a) ∧ block m' fname 300.
Proof.
  intros [C1 C2 C3 C4 C5 C6 C7 C8]. unfold copy_command. assert (Hf : 0 < fname) by (unfold PHYS_BASE in C5; lia).
  rewrite (bind_ok _ _ _ _ _ (strlen_spec file_name l m ltac:(destruct C1; unfold null; lia) (proj1 C1))). rewrite u32_id by int_lia.
  destruct (strlcpy_truncates fname file_name l (len l + 1) m) as (m' & E & Hs & Hout); [done|lia|lia|intros i Hi; apply C6; lia|lia|].
  rewrite (bind_ok _ _ _ _ _ E). exists m'. rewrite take_ge in Hs by lia. split_and!; [done|done|intros a Ha; apply Hout; lia|].
  intros i Hi. eapply keeps_strlcpy; [exact E|]. by apply C6.
Qed.

(** After a pass the command line is where it was. *)
Lemma command_line_kept m m' file_name fname space l :
  command_line m file_name fname space l → (∀ a, ¬ (fname <= a < fname + 300) → m' !! a = m !! a) → block m' fname 300 →
  command_line m' file_name fname space l.
Proof.
  intros [[C1 C1'] C2 C3 [C4 C4'] C5 C6 C7 C8] Hout Hb. split; try done; split; try done; eapply str_ext; try done;
    intros a Ha; apply Hout; simpl in Ha; lia.
Qed.

Lemma get_args_run m file_name fname space l :
  command_line m file_name fname space l → tokens [32] l ≠ [] →
  ∃ ps m', get_args fname file_name space m = Ok (ps, m') ∧ Forall2 (str m') ps (tokens [32] l) ∧
    Forall (λ a, PHYS_BASE <= a) ps ∧ (∀ a, ¬ (fname <= a < fname + 300) → m' !! a = m !! a) ∧ command_line m' file_name fname space l.
Proof.
  intros Hcl Hne. destruct (copy_command_run _ _ _ _ _ Hcl) as (m1 & E1 & Hs1 & Hout1 & Hb1).
  pose proof (command_line_kept _ _ _ _ _ _ Hcl Hout1 Hb1) as [C1 C2 C3 C4 C5 C6 C7 C8]. 
  destruct (split_words_run fname space l m1) as (ps & m2 & E2 & Hps & Hin & Hout2); try done.
  { split; [done|]. unfold PHYS_BASE in C5. lia. }
  { lia. }
  assert (Hout : ∀ a, ¬ (fname <= a < fname + 300) → m2 !! a = m !! a) by (intros a Ha; rewrite Hout2 by lia; by apply Hout1).
  exists ps, m2. split_and!; [unfold get_args; by rewrite (bind_ok _ _ _ _ _ E1)|done| |done|].
  - eapply Forall_impl; [exact Hin|]. simpl. lia.
  - eapply command_line_kept; [exact Hcl|done|]. intros i Hi. eapply keeps_split_words; [exact E2|]. by apply Hb1.
Qed.

Lemma count_args_run m file_name fname space l :
  command_line m file_name fname space l → tokens [32] l ≠ [] →
  ∃ m', count_args fname file_name space m = Ok (len (tokens [32] l), m') ∧ command_line m' file_name fname space l ∧
    ∀ a, ¬ (fname <= a < fname + 300) → m' !! a = m !! a.
Proof.
  intros Hcl Hne. destruct (get_args_run _ _ _ _ _ Hcl Hne) as (ps & m' & E & Hps & _ & Hout & Hcl'). exists m'. split_and!; [|done|done].
  unfold get_args in E. apply bind_inv in E as ([] & m1 & E1 & E2). unfold count_args. rewrite (bind_ok _ _ _ _ _ E1), (bind_ok _ _ _ _ _ E2).
  by rewrite (Forall2_length _ _ _ Hps).
Qed.

(** ** The arguments on the stack *)

(** C9: a command line of fewer than 300 bytes with at least one word reaches the new
    program as its [argc] and [argv].  Counting the words, splitting them and pushing
    them onto the zeroed stack page all succeed within the page; the resulting stack
    pointer is word-aligned, and above the return address it finds the number of words, a
    pointer to the array of pointers that follows it, one pointer per word in order, each
    to a null-terminated copy of the word on the stack, and a null pointer after the
    last.  Nothing but the stack page and the loader's buffer changes. *)
Theorem arguments_on_stack m file_name fname space l :
  command_line m file_name fname space l → tokens [32] l ≠ [] →
  (∀ a, PHYS_BASE - PGSIZE <= a < PHYS_BASE → m !! a = Some 0) →
  ∃ m1 argv m2 esp m3 ps,
    count_args fname file_name space m = Ok (len (tokens [32] l), m1) ∧
    get_args fname file_name space m1 = Ok (argv, m2) ∧
    push_argument (len (tokens [32] l)) argv PHYS_BASE m2 = Ok (esp, m3) ∧
    arguments m3 esp PHYS_BASE (tokens [32] l) ps ∧ int_at m3 (esp + 12 + 4 * len (tokens [32] l)) 0 ∧
    PHYS_BASE - PGSIZE < esp < PHYS_BASE ∧
    (∀ a, ¬ (fname <= a < fname + 300) → ¬ (esp <= a < PHYS_BASE) → m3 !! a = m !! a).
Proof.
  intros Hcl Hne Hz. destruct (count_args_run _ _ _ _ _ Hcl Hne) as (m1 & E1 & Hcl1 & Hout1).
  destruct (get_args_run _ _ _ _ _ Hcl1 Hne) as (argv & m2 & E2 & Hargv & Hin & Hout2 & Hcl2).
  set (toks := tokens [32] l) in *. pose proof (total_tokens [32] l) as [Ht1 Ht2]. fold toks in Ht1, Ht2.
  pose proof (total_nonneg toks). pose proof (cl_fits _ _ _ _ _ Hcl) as Hfit. pose proof (cl_fname _ _ _ _ _ Hcl) as Hfn.
  assert (Hsz : 0 < stack_size toks < PGSIZE) by (unfold stack_size, PGSIZE; mod_lia).
  assert (Hz2 : ∀ a, PHYS_BASE - PGSIZE <= a < PHYS_BASE → m2 !! a = Some 0) by (intros a Ha; rewrite Hout2, Hout1 by lia; by apply Hz).
  destruct (push_argument_run argv toks PHYS_BASE m2) as (ps & m3 & E3 & Har & Hc & Hnull); try done; [int_lia|unfold PHYS_BASE, PGSIZE in *; lia| |].
  { intros i Hi. rewrite Hz2 by lia. by eexists. }
  exists m1, argv, m2, (PHYS_BASE - stack_size toks), m3, ps. split_and!; try done; try lia.
  - intros i Hi. change (len (le32 (u32 0))) with 4 in Hi. specialize (Hnull i Hi). cbv zeta in Hnull. rewrite Hnull.
    assert (Hend : stack_size toks = total toks + (4 - total toks mod 4) + 4 + 4 * len toks + 12) by done.
    pose proof (Z.mod_pos_bound (total toks) 4 ltac:(lia)). rewrite Hz2 by lia.
    assert (i = 0 ∨ i = 1 ∨ i = 2 ∨ i = 3) as [->|[->|[->| ->]]] by lia; done.
  - intros a Ha Hb. rewrite (ch_out _ _ _ _ Hc) by lia. rewrite Hout2, Hout1 by done. done.
Qed.

(** The command line "ls -l", a buffer of 300 bytes, and a zeroed stack page. *)
Definition zeros (p n : Z) : bytes_mem := gset_to_gmap 0 (list_to_set (seqZ p n)).
Definition sample_line : list Z := [108; 115; 32; 45; 108].
Definition sample_kernel : bytes_mem :=
  list_to_map (zip (seqZ 3300000000 6) (sample_line ++ [0]) ++ [(3300000010, 32); (3300000011, 0)]).
Definition sample_args : bytes_mem := sample_kernel ∪ (zeros 3300001000 300 ∪ zeros (PHYS_BASE - PGSIZE) PGSIZE).

Lemma zeros_lookup p n a : p <= a < p + n → zeros p n !! a = Some 0.
Proof. intros Ha. apply lookup_gset_to_gmap_Some. split; [|done]. apply elem_of_list_to_set, elem_of_seqZ. lia. Qed.

Lemma zeros_none p n a : ¬ (p <= a < p + n) → zeros p n !! a = None.
Proof. intros Ha. apply lookup_gset_to_gmap_None. rewrite elem_of_list_to_set, elem_of_seqZ. lia. Qed.

Lemma sample_kernel_none a : a < 3300000000 ∨ 3300000012 <= a → sample_kernel !! a = None.
Proof.
  intros Ha. apply not_elem_of_list_to_map. intros Hin. apply list_elem_of_In in Hin. simpl in Hin.
  repeat (destruct Hin as [<-|Hin]; [lia|]). done.
Qed.

Lemma sample_args_lookup a : (PHYS_BASE - PGSIZE <= a < PHYS_BASE ∨ 3300001000 <= a < 3300001300) → sample_args !! a = Some 0.
Proof.
  unfold PHYS_BASE, PGSIZE. intros Ha. unfold sample_args. rewrite lookup_union_r by (apply sample_kernel_none; lia). destruct Ha.
  - rewrite lookup_union_r by (apply zeros_none; lia). apply zeros_lookup. unfold PHYS_BASE, PGSIZE. lia.
  - apply lookup_union_Some_l, zeros_lookup. lia.
Qed.

Lemma sample_str p l : str sample_kernel p l → str sample_args p l.
Proof.
  revert p. induction l as [|b l IH]; intros p Hs; cbn [str] in *; [apply lookup_union_Some_l; exact Hs|].
  destruct Hs as (H1 & H2 & H3). split; [apply lookup_union_Some_l; exact H1|]. split; [exact H2|apply IH; exact H3].
Qed.

Lemma arguments_on_stack_witness : ∃ esp m3 ps,
  arguments m3 esp PHYS_BASE [[108; 115]; [45; 108]] ps ∧ int_at m3 (esp + 4) 2 ∧ int_at m3 (esp + 20) 0.
Proof.
  destruct (arguments_on_stack sample_args 3300000000 3300001000 3300000010 sample_line)
    as (m1 & argv & m2 & esp & m3 & ps & _ & _ & _ & Har & Hnull & _).
  - split; try (simpl; lia); try (unfold PHYS_BASE; lia).
    + split; [apply sample_str; by vm_compute|lia].
    + repeat constructor; unfold byte; lia.
    + split; [apply sample_str; by vm_compute|lia].
    + intros i Hi. rewrite sample_args_lookup by lia. by eexists.
  - by vm_compute.
  - intros a Ha. apply sample_args_lookup. lia.
  - change (tokens [32] sample_line) with [[108; 115]; [45; 108]] in *. exists esp, m3, ps. split_and!; [done|apply Har|].
    by replace (esp + 20) with (esp + 12 + 4 * len [[108; 115]; [45; 108]]) by (simpl; lia).
Defined.

(** A command line of 300 bytes or more does not fit into [fname]: [strlcpy] is given
    the length of the source instead of the size of the buffer. *)
Example long_command_overflows :
  let cmd := list_to_map (zip (seqZ 1000 301) (replicate 300 97 ++ [0])) : bytes_mem in
  copy_command 5000 1000 (cmd ∪ zeros 5000 300) = Fail Undef.
Proof. vm_compute. reflexivity. Qed.

(** A command line without a word gives a null [argv[0]], on which copying the name of
    the thread fails an assertion of the kernel. *)
Example blank_command_fails :
  let m := list_to_map [(1000, 32); (1001, 0); (2000, 32); (2001, 0); (3000, 7); (3001, 7)] : bytes_mem in
  ∃ m', get_args 3000 1000 2000 m = Ok ([null], m') ∧ strlcpy 4000 null 16 m' = Fail AssertFailed.
Proof. eexists. split; vm_compute; reflexivity. Qed.
