(* ===== verification/Syscall.v ===== *)
(** * System calls (src/userprog/syscall.c)

    The state a process's system calls work on: the file system, the process's table of
    open files (a list of descriptors with their files, and the bitmap of descriptors in
    use), the memory it can access, what it wrote to the console, the keys that will be
    typed and the names of the threads.  An access outside the memory is a fault of the
    kernel.  The semaphore of an open file is taken and released by the one thread that has
    the file, and the messages of [printf] are left out. *)

From S2P Require Import Prelude Strings Bitmap Palloc Swap Pagedir Hash HashSpec Inode Filesys Vm Process.
Local Open Scope Z_scope.

Record sys := mk_sys {
  s_fs : fsys;
  file_list : list (Z * Z);       (* fd and f of each list_item *)
  file_bitmap : option bitmap;    (* None for a null pointer *)
  mem : bytes_mem;
  console : list Z;
  keys : list Z;
  names : list (list Z);
  sys_esp : Z                     (* current_esp of the thread *)
}.

Definition set_s_fs x s := mk_sys x (file_list s) (file_bitmap s) (mem s) (console s) (keys s) (names s) (sys_esp s).
Definition set_file_list x s := mk_sys (s_fs s) x (file_bitmap s) (mem s) (console s) (keys s) (names s) (sys_esp s).
Definition set_file_bitmap x s := mk_sys (s_fs s) (file_list s) x (mem s) (console s) (keys s) (names s) (sys_esp s).
Definition set_mem x s := mk_sys (s_fs s) (file_list s) (file_bitmap s) x (console s) (keys s) (names s) (sys_esp s).
Definition set_console x s := mk_sys (s_fs s) (file_list s) (file_bitmap s) (mem s) x (keys s) (names s) (sys_esp s).
Definition set_keys x s := mk_sys (s_fs s) (file_list s) (file_bitmap s) (mem s) (console s) x (names s) (sys_esp s).
Definition set_sys_esp x s := mk_sys (s_fs s) (file_list s) (file_bitmap s) (mem s) (console s) (keys s) (names s) x.

Notation Y := (M sys).

Definition in_files {A} (m : F A) : Y A := λ s,
  match m (s_fs s) with Ok (a, x) => Ok (a, set_s_fs x s) | Fail f => Fail f end.
Definition in_mem {A} (m : B A) : Y A := λ s,
  match m (mem s) with Ok (a, x) => Ok (a, set_mem x s) | Fail f => Fail f end.

Fixpoint load_all (n : nat) (p : Z) : B (list Z) :=
  match n with
  | O => ret []
  | S n' => let* b := Strings.load p in let* bs := load_all n' (p + 1) in ret (b :: bs)
  end.

Definition load_uint (p : Z) : B Z := let* bs := load_all 4 p in ret (from_le32 bs).
Definition load_int (p : Z) : B Z := let* x := load_uint p in ret (s32 x).
Definition load_string (p : Z) : B (list Z) := let* n := rounds in read_string n p.

(** How a system call ends: with a value for [eax], without one, by ending the process
    with an exit status or the machine, or in [process_execute] or [process_wait]. *)
Inductive ending := Return (eax : Z) | NoValue | Exits (status : Z) | Halts | Executes (file_name : Z) | Waits (tid : Z).

Definition halt : Y ending := ret Halts.
Definition exit (exit_number : Z) : Y ending := ret (Exits exit_number).
Definition exec (filename : Z) : Y ending := ret (Executes filename).
Definition wait (pid : Z) : Y ending := ret (Waits pid).

(** ** Descriptors *)

(** The loops over [file_list]: the file of the first item with descriptor [fd]. *)
Fixpoint find_item (items : list (Z * Z)) (fd : Z) : option Z :=
  match items with
  | [] => None
  | (n, f) :: rest => if n =? fd then Some f else find_item rest fd
  end.

Fixpoint remove_item (items : list (Z * Z)) (fd : Z) : list (Z * Z) :=
  match items with
  | [] => []
  | (n, f) :: rest => if n =? fd then rest else (n, f) :: remove_item rest fd
  end.

Definition get_bitmap : Y bitmap :=
  let* b := gets file_bitmap in match b with Some b => ret b | None => fail AssertFailed end.

(** [bitmap_count (file_bitmap, fd, 1, false) == 1] *)
Definition fd_unused (fd : Z) : Y bool :=
  let* b := get_bitmap in let* n := lift (bitmap_count b (u32 fd) 1 false) in ret (n =? 1).

Definition fd_set (fd : Z) (value : bool) : Y unit :=
  let* b := get_bitmap in let* b := lift (bitmap_set b (u32 fd) value) in modify (set_file_bitmap (Some b)).

Section calls.
(** What the stack and fresh memory hold. *)
Variables (junk : list Z) (bits_junk : list Z).

(** Creating the bitmap on first use. *)
Definition need_bitmap : Y unit :=
  let* b := gets file_bitmap in
  match b with
  | Some _ => ret tt
  | None =>
      let* p := in_files Inode.malloc in
      let* q := (if p =? NULL then ret NULL else in_files Inode.malloc) in
      let* b := lift (bitmap_create (negb (p =? NULL)) (negb (q =? NULL)) bits_junk 64) in
      modify (set_file_bitmap b) ;;;
      fd_set 0 true ;;; fd_set 1 true
  end.

(** ** Reading and writing *)

(** [input_getc] waits until a key is typed. *)
Definition input_getc : Y Z :=
  let* ks := gets keys in
  match ks with
  | [] => fail NoFuel
  | k :: rest => modify (set_keys rest) ;;; ret k
  end.

(** The loop of [read] on the keyboard, [n] rounds before [size]: [buffer] points to
    integers. *)
Fixpoint read_keys (n : nat) (buffer i size : Z) : Y Z :=
  match n with
  | O => ret size
  | S n' =>
      let* c := input_getc in
      in_mem (store_int buffer c) ;;;
      if negb (c =? 0) then read_keys n' (u32 (buffer + 4)) (i + 1) size else ret i
  end.

Definition read (fd buffer size : Z) : Y ending :=
  if negb (is_user_vaddr buffer) then exit (-1)
  else if fd =? 0 then let* n := read_keys (Z.to_nat size) buffer 0 size in ret (Return n)
  else
    let* items := gets file_list in
    match find_item items fd with
    | Some f =>
        let* bytes := in_files (file_read f (s32 size)) in
        in_mem (store_all buffer bytes) ;;; ret (Return (Z.of_nat (length bytes)))
    | None => ret (Return 0)
    end.

(** The [size] bytes at [buffer]; only those that [file_write] moves are accessed. *)
Definition buffer_bytes (m : bytes_mem) (buffer size : Z) : list Z := (λ a, default 0 (m !! a)) <$> seqZ buffer size.
Definition accessible (m : bytes_mem) (buffer size : Z) : bool := forallb (λ a, bool_decide (is_Some (m !! a))) (seqZ buffer size).

Definition write (fd buffer size : Z) : Y ending :=
  if negb (is_user_vaddr buffer) then exit (-1)
  else if fd =? 1 then
    let* bytes := in_mem (load_all (Z.to_nat size) buffer) in
    modify (λ s, set_console (console s ++ bytes) s) ;;; ret (Return size)
  else
    let* items := gets file_list in
    match find_item items fd with
    | Some f =>
        let* m := gets mem in
        let* n := in_files (file_write f (buffer_bytes m buffer (s32 size)) (s32 size)) in
        if accessible m buffer n then ret (Return n) else fail Undef
    | None => ret (Return 0)
    end.

(** ** Files *)

Definition create (file initial_size : Z) : Y ending :=
  if file =? NULL then exit (-1)
  else
    let* name := in_mem (load_string file) in
    let* ok := in_files (filesys_create junk name (s32 initial_size)) in
    ret (Return (if ok : bool then 1 else 0)).

Definition remove (file : Z) : Y ending :=
  let* name := in_mem (load_string file) in
  let* ok := in_files (filesys_remove junk name) in
  ret (Return (if ok : bool then 1 else 0)).

(** The loop [for (i = 2; i <= 63; i++)] of [open], [n] rounds before its end. *)
Fixpoint take_fd (n : nat) (i : Z) : Y Z :=
  match n with
  | O => ret (-1)
  | S n' =>
      let* unused := fd_unused i in
      if unused : bool then fd_set i true ;;; ret i else take_fd n' (i + 1)
  end.

Definition thread_findname_foreach (name : list Z) : Y bool := gets (λ s, bool_decide (name ∈ names s)).

(** The part of [open] after the file was opened. *)
Definition new_fd (name : list Z) (f : Z) : Y Z :=
  need_bitmap ;;;
  let* fd := take_fd 62 2 in
  let* item := in_files Inode.malloc in
  (if item =? NULL then fail Undef else ret tt) ;;;
  modify (λ s, set_file_list (file_list s ++ [(fd, f)]) s) ;;;
  let* running := thread_findname_foreach name in
  (if running : bool then in_files (file_deny_write f) else ret tt) ;;;
  ret fd.

Definition open (file : Z) : Y ending :=
  if file =? NULL then ret (Return (-1))
  else
    let* name := in_mem (load_string file) in
    let* f := in_files (filesys_open junk name) in
    if f =? NULL then ret (Return (-1)) else let* fd := new_fd name f in ret (Return fd).

Definition filesize (fd : Z) : Y ending :=
  let* unused := fd_unused fd in
  if unused : bool then ret (Return 0)
  else
    let* items := gets file_list in
    match find_item items fd with
    | Some f => let* n := in_files (file_length f) in ret (Return n)
    | None => ret (Return 0)
    end.

Definition seek (fd position : Z) : Y ending :=
  let* unused := fd_unused fd in
  if unused : bool then ret NoValue
  else
    let* items := gets file_list in
    match find_item items fd with
    | Some f => in_files (file_seek f (s32 position)) ;;; ret NoValue
    | None => ret NoValue
    end.

Definition tell (fd : Z) : Y ending :=
  let* unused := fd_unused fd in
  if unused : bool then ret (Return 0)
  else
    let* items := gets file_list in
    match find_item items fd with
    | Some f => let* n := in_files (file_tell f) in ret (Return (u32 n))
    | None => ret (Return 0)
    end.

Definition close (fd : Z) : Y ending :=
  need_bitmap ;;;
  (if (fd =? 0) || (fd =? 1) then fd_set fd false else ret tt) ;;;
  let* items := gets file_list in
  match find_item items fd with
  | Some f =>
      in_files (file_close f) ;;;
      fd_set fd false ;;;
      modify (set_file_list (remove_item items fd)) ;;; ret NoValue
  | None => ret NoValue
  end.

(** The part of [process_exit] that closes the open files; [bitmap_destroy] accepts a
    null pointer. *)
Fixpoint close_items (items : list (Z * Z)) : Y unit :=
  match items with
  | [] => ret tt
  | (_, f) :: rest => in_files (file_close f) ;;; modify (set_file_list rest) ;;; close_items rest
  end.
Definition close_all : Y unit := let* items := gets file_list in close_items items.

(** ** The other calls *)

(** The fuel is at least the depth of the recursion. *)
Fixpoint fibonacci_rec (fuel : nat) (n : Z) : res Z :=
  match fuel with
  | O => Fail NoFuel
  | S fuel =>
      if n <=? 0 then Ok (-1)
      else if n <=? 2 then Ok 1
      else
        let? a := fibonacci_rec fuel (n - 1) in
        let? b := fibonacci_rec fuel (n - 2) in
        if (- 2 ^ 31 <=? a + b) && (a + b <? 2 ^ 31) then Ok (a + b) else Fail Undef
  end.
Definition fibonacci (n : Z) : res Z := fibonacci_rec (S (Z.to_nat n)) n.

Definition max_of_four_int (a b c d : Z) : Z :=
  let retval := a in
  let retval := if retval <? b then b else retval in
  let retval := if retval <? c then c else retval in
  if retval <? d then d else retval.

(** ** The handler *)

(** The arguments on the stack above the number, at most one per word of [n]; [k] is run
    if all of them are below the kernel. *)
Definition with_args (esp : Z) (n : nat) (k : Y ending) : Y ending :=
  if forallb (λ i, is_user_vaddr (u32 (esp + 4 * i))) (seqZ 1 (Z.of_nat n)) then k else exit (-1).

Definition int_arg (esp i : Z) : Y Z := in_mem (load_int (u32 (esp + 4 * i))).
Definition uint_arg (esp i : Z) : Y Z := in_mem (load_uint (u32 (esp + 4 * i))).

Definition SYS_HALT := 0.
Definition SYS_EXIT := 1.
Definition SYS_EXEC := 2.
Definition SYS_WAIT := 3.
Definition SYS_CREATE := 4.
Definition SYS_REMOVE := 5.
Definition SYS_OPEN := 6.
Definition SYS_FILESIZE := 7.
Definition SYS_READ := 8.
Definition SYS_WRITE := 9.
Definition SYS_SEEK := 10.
Definition SYS_TELL := 11.
Definition SYS_CLOSE := 12.
Definition SYS_FIBONACCI := 20.
Definition SYS_MAXOFFOURINT := 21.

(** [f->eax] keeps its value when the call has none.  The number is read before the
    address it is read from is checked. *)
Definition syscall_handler (esp : Z) : Y ending :=
  let* no := in_mem (load_int esp) in
  modify (set_sys_esp esp) ;;;
  if negb (is_user_vaddr esp) then exit (-1)
  else if no =? SYS_HALT then halt
  else if no =? SYS_EXIT then with_args esp 1 (let* a := int_arg esp 1 in exit a)
  else if no =? SYS_EXEC then with_args esp 1 (let* a := uint_arg esp 1 in exec a)
  else if no =? SYS_WAIT then with_args esp 1 (let* a := int_arg esp 1 in wait a)
  else if no =? SYS_READ then
    with_args esp 3 (let* a := int_arg esp 1 in let* b := uint_arg esp 2 in let* c := uint_arg esp 3 in read a b c)
  else if no =? SYS_WRITE then
    with_args esp 3 (let* a := int_arg esp 1 in let* b := uint_arg esp 2 in let* c := uint_arg esp 3 in write a b c)
  else if no =? SYS_FIBONACCI then with_args esp 1 (let* a := int_arg esp 1 in let* r := lift (fibonacci a) in ret (Return r))
  else if no =? SYS_MAXOFFOURINT then
    with_args esp 4 (let* a := int_arg esp 1 in let* b := int_arg esp 2 in let* c := int_arg esp 3 in let* d := int_arg esp 4 in
                     ret (Return (max_of_four_int a b c d)))
  else if no =? SYS_CREATE then with_args esp 2 (let* a := uint_arg esp 1 in let* b := uint_arg esp 2 in create a b)
  else if no =? SYS_REMOVE then with_args esp 1 (let* a := uint_arg esp 1 in remove a)
  else if no =? SYS_OPEN then with_args esp 1 (let* a := uint_arg esp 1 in open a)
  else if no =? SYS_FILESIZE then with_args esp 1 (let* a := int_arg esp 1 in filesize a)
  else if no =? SYS_SEEK then with_args esp 2 (let* a := int_arg esp 1 in let* b := uint_arg esp 2 in seek a b)
  else if no =? SYS_TELL then with_args esp 1 (let* a := int_arg esp 1 in tell a)
  else if no =? SYS_CLOSE then with_args esp 1 (let* a := int_arg esp 1 in close a)
  else ret NoValue.
End calls.
