(* ===== verification/SyscallSpec.v ===== *)
(** * File descriptors (src/userprog/syscall.c)

    The list of open files and the bitmap of descriptors implement a finite map from
    descriptors to files. *)

From S2P Require Import Prelude Strings Bitmap Palloc Swap Pagedir Hash HashSpec Inode Filesys FreeMapSpec DirSpec Vm Process Syscall.
Local Open Scope Z_scope.

Definition fd_table (s : sys) : gmap Z Z := list_to_map (file_list s).

(** The bitmap is created with the first descriptor; then bit [i] from 2 on says whether
    [i] is a descriptor, and no descriptor is twice in the list. *)
Record bitmap_ok (b : bitmap) (items : list (Z * Z)) : Prop := {
  bo_wf : bm_wf b;
  bo_size : bit_cnt b = 64;
  bo_nodup : NoDup items.*1;
  bo_range : ∀ fd, fd ∈ items.*1 → 2 <= fd < 64;
  bo_used : ∀ i, 2 <= i < 64 → bm_bit b i = true ↔ i ∈ items.*1
}.

Definition fds_ok (s : sys) : Prop :=
  match file_bitmap s with None => file_list s = [] | Some b => bitmap_ok b (file_list s) end.

(** ** The list *)

Lemma find_item_map items fd : find_item items fd = (list_to_map items : gmap Z Z) !! fd.
Proof.
  induction items as [|[n f] items IH]; [done|]. cbn [find_item list_to_map foldr]. destruct (Z.eqb_spec n fd) as [->|Hne].
  - by rewrite lookup_insert_eq.
  - rewrite lookup_insert_ne by done. exact IH.
Qed.

Lemma remove_item_fst items fd x : NoDup items.*1 → x ∈ (remove_item items fd).*1 ↔ x ∈ items.*1 ∧ x ≠ fd.
Proof.
  induction items as [|[n f] items IH]; csimpl; [intros _; set_solver|]. intros [Hn Hnd]%NoDup_cons. destruct (Z.eqb_spec n fd) as [->|Hne]; csimpl.
  - set_solver.
  - rewrite !elem_of_cons, IH by done. set_solver.
Qed.

Lemma remove_item_nodup items fd : NoDup items.*1 → NoDup (remove_item items fd).*1.
Proof.
  induction items as [|[n f] items IH]; csimpl; [done|]. intros [Hn Hnd]%NoDup_cons. destruct (Z.eqb_spec n fd) as [->|Hne]; csimpl; [done|].
  apply NoDup_cons. split; [|by apply IH]. rewrite remove_item_fst by done. tauto.
Qed.

Lemma remove_item_map items fd : NoDup items.*1 → (list_to_map (remove_item items fd) : gmap Z Z) = delete fd (list_to_map items).
Proof.
  induction items as [|[n f] items IH]; csimpl; [intros _; by rewrite delete_empty|]. intros [Hn Hnd]%NoDup_cons.
  destruct (Z.eqb_spec n fd) as [->|Hne].
  - rewrite delete_insert_id; [done|]. by apply not_elem_of_list_to_map_1.
  - csimpl. by rewrite IH, delete_insert_ne.
Qed.

Lemma add_item_map items fd f : fd ∉ items.*1 → (list_to_map (items ++ [(fd, f)]) : gmap Z Z) = <[fd := f]> (list_to_map items).
Proof. intros H. rewrite list_to_map_snoc by done. done. Qed.

(** ** The bitmap *)

Lemma get_bitmap_run s b : file_bitmap s = Some b → get_bitmap s = Ok (b, s).
Proof. intros H. unfold get_bitmap, bind, gets. by rewrite H. Qed.

Lemma fd_unused_run s b fd : file_bitmap s = Some b → bm_wf b → bit_cnt b = 64 → 0 <= fd < 64 → fd_unused fd s = Ok (negb (bm_bit b fd), s).
Proof.
  intros Hb Hwf Hc Hfd. unfold fd_unused. rewrite (bind_ok _ _ _ _ _ (get_bitmap_run s b Hb)). rewrite u32_id by int_lia.
  rewrite bitmap_count_one by (done || lia). unfold bind, lift, ret. by destruct (bm_bit b fd).
Qed.

Lemma fd_set_run s b fd v : file_bitmap s = Some b → bm_wf b → bit_cnt b = 64 → 0 <= fd < 64 →
  ∃ b', fd_set fd v s = Ok (tt, set_file_bitmap (Some b') s) ∧ bm_wf b' ∧ bit_cnt b' = 64 ∧
    ∀ j, 0 <= j < 64 → bm_bit b' j = if j =? fd then v else bm_bit b j.
Proof.
  intros Hb Hwf Hc Hfd. destruct (bitmap_set_spec b fd v Hwf ltac:(lia)) as (b' & E & Hwf' & Hc' & Hbit). exists b'. split_and!; try done.
  - unfold fd_set. rewrite (bind_ok _ _ _ _ _ (get_bitmap_run s b Hb)). rewrite u32_id by int_lia. rewrite E. done.
  - by rewrite Hc'.
  - intros j Hj. apply Hbit. lia.
Qed.

(** A descriptor outside the bitmap stops the kernel. *)
Lemma fd_unused_out s b fd : file_bitmap s = Some b → bit_cnt b = 64 → in_s32 fd → ¬ (0 <= fd < 64) → fd_unused fd s = Fail AssertFailed.
Proof.
  intros Hb Hc Hs Hfd. unfold fd_unused. rewrite (bind_ok _ _ _ _ _ (get_bitmap_run s b Hb)). unfold bitmap_count, check_range. rewrite Hc.
  unfold rassert. destruct (Z.leb_spec (u32 fd) 64); [|done]. assert (u32 fd = 64) as -> by mod_lia. done.
Qed.

Definition free_fd (b : bitmap) (i : Z) : Prop := bm_bit b i = false.

Lemma take_fd_run n i s b : file_bitmap s = Some b → bm_wf b → bit_cnt b = 64 → 2 <= i → i + Z.of_nat n = 64 →
  (∃ j, i <= j < 64 ∧ free_fd b j) →
  ∃ fd b', take_fd n i s = Ok (fd, set_file_bitmap (Some b') s) ∧ i <= fd < 64 ∧ free_fd b fd ∧ (∀ j, i <= j < fd → bm_bit b j = true) ∧
    bm_wf b' ∧ bit_cnt b' = 64 ∧ ∀ j, 0 <= j < 64 → bm_bit b' j = if j =? fd then true else bm_bit b j.
Proof.
  intros Hb Hwf Hc. revert i. induction n as [|n IH]; intros i Hi Hn (j & Hj & Hfree); [lia|]. cbn [take_fd].
  rewrite (bind_ok _ _ _ _ _ (fd_unused_run s b i Hb Hwf Hc ltac:(lia))). destruct (bm_bit b i) eqn:Ei; cbn [negb].
  - destruct (IH (i + 1)) as (fd & b' & E & Hr & Hf & Hall & Hrest); [lia|lia| |].
    { exists j. split; [|done]. destruct (decide (j = i)) as [->|]; [unfold free_fd in *; congruence|lia]. }
    exists fd, b'. split_and!; try done; try lia; try apply Hrest. intros k Hk. destruct (decide (k = i)) as [->|]; [done|]. apply Hall. lia.
  - destruct (fd_set_run s b i true Hb Hwf Hc ltac:(lia)) as (b' & E & Hrest). exists i, b'. rewrite (bind_ok _ _ _ _ _ E).
    split_and!; try done; try lia; try apply Hrest.
Qed.

Lemma bump_same s : bump (next_addr s) s = s.
Proof. by destruct s. Qed.

Lemma in_files_ok {A} (m : F A) s a x : m (s_fs s) = Ok (a, x) → in_files m s = Ok (a, set_s_fs x s).
Proof. intros E. unfold in_files. by rewrite E. Qed.

(** A table of fewer than 62 descriptors has a free one. *)
Lemma free_fd_exists b items : bitmap_ok b items → (length items < 62)%nat → ∃ j, 2 <= j < 64 ∧ free_fd b j.
Proof.
  intros [B1 B2 B3 B4 B5] Hl. destruct (decide (Forall (λ j, bm_bit b j = true) (seqZ 2 62))) as [Hall|Hno].
  - exfalso. assert (Hsub : seqZ 2 62 ⊆ items.*1).
    { intros j Hj. pose proof (proj1 (Forall_forall _ _) Hall j Hj) as Hbit. apply elem_of_seqZ in Hj. apply B5; [lia|done]. }
    apply NoDup_submseteq in Hsub; [|apply NoDup_seqZ]. apply submseteq_length in Hsub. rewrite length_seqZ, length_fmap in Hsub. lia.
  - apply not_Forall_Exists in Hno; [|apply _]. apply Exists_exists in Hno as (j & Hj & Hbit). apply elem_of_seqZ in Hj.
    exists j. split; [lia|]. by apply not_true_is_false, Hbit.
Qed.

(** Bits 0 and 1 do not matter. *)
Lemma bitmap_ok_low b b' items : bitmap_ok b items → bm_wf b' → bit_cnt b' = 64 → (∀ i, 2 <= i < 64 → bm_bit b' i = bm_bit b i) → bitmap_ok b' items.
Proof. intros [B1 B2 B3 B4 B5] Hwf Hc Hb. split; try done. intros i Hi. rewrite Hb by done. by apply B5. Qed.

(** The descriptor that was taken, entered into the list. *)
Lemma bitmap_ok_add b b' items fd f : bitmap_ok b items → 2 <= fd < 64 → free_fd b fd → bm_wf b' → bit_cnt b' = 64 →
  (∀ j, 0 <= j < 64 → bm_bit b' j = if j =? fd then true else bm_bit b j) → bitmap_ok b' (items ++ [(fd, f)]) ∧ fd ∉ items.*1.
Proof.
  intros [B1 B2 B3 B4 B5] Hfd Hfree Hwf Hc Hb. assert (Hn : fd ∉ items.*1) by (intros Hin; apply B5 in Hin; [unfold free_fd in *; congruence|lia]).
  split; [|done]. split; try done; rewrite ?fmap_app; csimpl.
  - apply NoDup_app. split_and!; [done| |apply NoDup_singleton]. intros x Hx ->%list_elem_of_singleton. done.
  - intros x [Hx| ->%list_elem_of_singleton]%elem_of_app; [by apply B4|done].
  - intros i Hi. rewrite elem_of_app, list_elem_of_singleton, Hb by lia. rewrite <- B5 by done. destruct (Z.eqb_spec i fd); [by subst; tauto|naive_solver].
Qed.

Lemma bitmap_ok_remove b b' items fd : bitmap_ok b items → bm_wf b' → bit_cnt b' = 64 →
  (∀ j, 0 <= j < 64 → bm_bit b' j = if j =? fd then false else bm_bit b j) → bitmap_ok b' (remove_item items fd).
Proof.
  intros [B1 B2 B3 B4 B5] Hwf Hc Hb. split; try done.
  - by apply remove_item_nodup.
  - intros x [Hx _]%remove_item_fst; [|done]. by apply B4.
  - intros i Hi. rewrite remove_item_fst, <- B5, Hb by (done || lia). destruct (Z.eqb_spec i fd); naive_solver.
Qed.

Lemma table_none items fd : fd ∉ items.*1 ↔ (list_to_map items : gmap Z Z) !! fd = None.
Proof. apply not_elem_of_list_to_map. Qed.

Lemma table_some items fd : fd ∈ items.*1 → is_Some ((list_to_map items : gmap Z Z) !! fd).
Proof. intros H. destruct (_ !! fd) eqn:E; [by eexists|]. by apply table_none in E. Qed.

(** [file_deny_write] on a file that may be written. *)
Lemma deny_write_run x f fl i :
  f ≠ NULL → files x !! f = Some fl → f_deny_write fl = false → inodes x !! f_inode fl = Some i → 0 <= deny_write_cnt i < open_cnt i → open_cnt i < 2 ^ 31 →
  ∃ x', file_deny_write f x = Ok (tt, x') ∧ files x' !! f = Some (mk_file (f_inode fl) (f_pos fl) true).
Proof.
  intros Hf Hfl Hd Hi Hr Ho. unfold file_deny_write. rewrite (proj2 (Z.eqb_neq _ _) Hf). cbn [negb assert]. erewrite bind_ok by reflexivity.
  unfold get_file. rewrite (bind_ok _ _ _ fl x) by by rewrite Hfl. rewrite Hd. erewrite bind_ok by reflexivity. unfold inode_deny_write, get_inode.
  rewrite (bind_ok _ _ _ i _) by (simpl; by rewrite Hi). cbv zeta. rewrite s32_id by int_lia. erewrite bind_ok by reflexivity.
  rewrite (proj2 (Z.leb_le _ _)) by lia. cbn [assert]. eexists. split; [reflexivity|]. apply lookup_insert_eq.
Qed.

Section fds.
Context (junk bits_junk : list Z).
Hypothesis Hjunk : length bits_junk = 2%nat ∧ Forall in_u32 bits_junk.

(** The state with another bitmap, after [malloc] handed out addresses below [n]. *)
Definition with_bitmap (b : bitmap) (n : Z) (s : sys) : sys := set_file_bitmap (Some b) (set_s_fs (bump n (s_fs s)) s).

Lemma need_bitmap_run s : fds_ok s → plenty (s_fs s) →
  ∃ b n, need_bitmap bits_junk s = Ok (tt, with_bitmap b n s) ∧ bitmap_ok b (file_list s) ∧ 0 < n.
Proof.
  intros Hok Hp. unfold need_bitmap, gets. erewrite bind_ok by reflexivity. unfold fds_ok in Hok. destruct (file_bitmap s) as [b|] eqn:Eb.
  { exists b, (next_addr (s_fs s)). unfold with_bitmap. rewrite bump_same. split_and!; [|done|apply Hp].
    unfold ret. do 2 f_equal. destruct s. simpl in *. by subst. }
  destruct (malloc_plenty _ Hp) as [E1 N1]. rewrite (bind_ok _ _ _ _ _ (in_files_ok _ _ _ _ E1)), N1. cbn [negb].
  set (s1 := set_s_fs _ s). assert (Hp1 : plenty (s_fs s1)) by (destruct Hp; split; simpl; [done|lia]).
  destruct (malloc_plenty _ Hp1) as [E2 N2]. rewrite (bind_ok _ _ _ _ _ (in_files_ok _ _ _ _ E2)), N2. cbn [negb].
  destruct Hjunk as [Hj1 Hj2]. destruct (bitmap_create_spec 64 bits_junk) as (b & -> & Hwf & Hc & Hz); [lia|by rewrite Hj1|done|].
  unfold lift. erewrite bind_ok by reflexivity. erewrite bind_ok by reflexivity. set (s2 := set_file_bitmap _ _).
  destruct (fd_set_run s2 b 0 true eq_refl Hwf Hc ltac:(lia)) as (b1 & F1 & Hwf1 & Hc1 & Hb1). rewrite (bind_ok _ _ _ _ _ F1).
  destruct (fd_set_run (set_file_bitmap (Some b1) s2) b1 1 true eq_refl Hwf1 Hc1 ltac:(lia)) as (b2 & -> & Hwf2 & Hc2 & Hb2).
  exists b2, (next_addr (s_fs s1) + 1). split_and!; [|split; try done|destruct Hp1; lia].
  - unfold with_bitmap, s2, s1, bump, set_mallocs, set_s_fs, set_file_bitmap. by destruct s.
  - rewrite Hok. csimpl. apply NoDup_nil_2.
  - rewrite Hok. csimpl. by intros fd ?%not_elem_of_nil.
  - intros i Hi. rewrite Hok. csimpl. rewrite Hb2, Hb1 by lia. rewrite !(proj2 (Z.eqb_neq _ _)) by lia. rewrite (Hz i) by lia.
    split; [done|]. by intros ?%not_elem_of_nil.
Qed.

(** Giving an opened file a descriptor. *)
Lemma new_fd_run s name f fl i :
  fds_ok s → plenty (s_fs s) → f ≠ NULL → files (s_fs s) !! f = Some fl → f_deny_write fl = false → inodes (s_fs s) !! f_inode fl = Some i →
  0 <= deny_write_cnt i < open_cnt i → open_cnt i < 2 ^ 31 → (length (file_list s) < 62)%nat →
  ∃ fd s', new_fd bits_junk name f s = Ok (fd, s') ∧ fds_ok s' ∧ 2 <= fd < 64 ∧
    fd_table s !! fd = None ∧ (∀ j, 2 <= j < fd → is_Some (fd_table s !! j)) ∧ fd_table s' = <[fd := f]> (fd_table s) ∧
    files (s_fs s') !! f = Some (mk_file (f_inode fl) (f_pos fl) (bool_decide (name ∈ names s))).
Proof.
  intros Hok Hp Hf Hfl Hd Hi Hr Ho Hlen. unfold new_fd. destruct (need_bitmap_run s Hok Hp) as (b & n & E1 & Hb & Hn).
  rewrite (bind_ok _ _ _ _ _ E1). set (s1 := with_bitmap b n s).
  destruct (take_fd_run 62 2 s1 b eq_refl (bo_wf _ _ Hb) (bo_size _ _ Hb)) as (fd & b' & E2 & Hfd & Hfree & Hall & Hwf & Hc & Hbit); [lia|done| |].
  { apply (free_fd_exists b (file_list s)); done. }
  rewrite (bind_ok _ _ _ _ _ E2). set (s2 := set_file_bitmap (Some b') s1). destruct (bitmap_ok_add b b' (file_list s) fd f) as [Hb' Hnew]; try done.
  assert (Hp2 : plenty (s_fs s2)) by (destruct Hp; split; simpl; done).
  destruct (malloc_plenty _ Hp2) as [E3 N3]. rewrite (bind_ok _ _ _ _ _ (in_files_ok _ _ _ _ E3)), N3. erewrite bind_ok by reflexivity.
  erewrite bind_ok by reflexivity. unfold thread_findname_foreach, gets. erewrite bind_ok by reflexivity. cbn [names set_file_list set_s_fs s2 s1 set_file_bitmap with_bitmap].
  set (s3 := set_file_list _ _). exists fd.
  assert (Hprops : 2 <= fd < 64 ∧ fd_table s !! fd = None ∧ (∀ j, 2 <= j < fd → is_Some (fd_table s !! j)) ∧
    (list_to_map (file_list s ++ [(fd, f)]) : gmap Z Z) = <[fd := f]> (fd_table s)).
  { split_and!; [lia|lia|by apply table_none| |by apply add_item_map]. intros j Hj. apply table_some, (bo_used _ _ Hb); [lia|]. by apply Hall. }
  destruct Hprops as (P1 & P2 & P3 & P4). destruct (bool_decide (name ∈ names s)) eqn:Er.
  - destruct (deny_write_run (s_fs s3) f fl i) as (x' & E4 & Hfl'); try done.
    rewrite (bind_ok _ _ _ _ _ (in_files_ok _ _ _ _ E4)). eexists. split; [reflexivity|]. split; [exact Hb'|]. done.
  - erewrite bind_ok by reflexivity. eexists. split; [reflexivity|]. split; [exact Hb'|]. split_and!; try done; try lia.
    simpl. rewrite Hfl. f_equal. destruct fl. simpl in *. by subst.
Qed.
End fds.

(** C11: opening a file that exists gives the process the lowest descriptor from 2 on
    that it does not have, as long as it has fewer than 62; the descriptor then refers to
    the opened file, every other descriptor is as before, and the file is closed to
    writing exactly if it has the name of a running program.  The table of descriptors
    stays consistent. *)
Theorem open_correct junk bits_junk s file name f x fl i :
  length bits_junk = 2%nat ∧ Forall in_u32 bits_junk → fds_ok s → file ≠ NULL → load_string file (mem s) = Ok (name, mem s) →
  filesys_open junk name (s_fs s) = Ok (f, x) → f ≠ NULL → plenty x → files x !! f = Some fl → f_deny_write fl = false →
  inodes x !! f_inode fl = Some i → 0 <= deny_write_cnt i < open_cnt i → open_cnt i < 2 ^ 31 → (length (file_list s) < 62)%nat →
  ∃ fd s', open junk bits_junk file s = Ok (Return fd, s') ∧ fds_ok s' ∧ 2 <= fd < 64 ∧
    fd_table s !! fd = None ∧ (∀ j, 2 <= j < fd → is_Some (fd_table s !! j)) ∧ fd_table s' = <[fd := f]> (fd_table s) ∧
    files (s_fs s') !! f = Some (mk_file (f_inode fl) (f_pos fl) (bool_decide (name ∈ names s))).
Proof.
  intros Hj Hok Hfile Hname Hopen Hf Hp Hfl Hd Hi Hr Ho Hlen. unfold open. rewrite (proj2 (Z.eqb_neq _ _) Hfile).
  rewrite (bind_ok _ _ _ name s) by (unfold in_mem; rewrite Hname; by destruct s).
  rewrite (bind_ok _ _ _ _ _ (in_files_ok _ s _ _ Hopen)). rewrite (proj2 (Z.eqb_neq _ _) Hf).
  destruct (new_fd_run bits_junk Hj (set_s_fs x s) name f fl i) as (fd & s' & E & H); try done. exists fd, s'. by rewrite (bind_ok _ _ _ _ _ E).
Qed.

(** C12: closing a descriptor closes its file and removes exactly this descriptor, so that
    it can be given out again; closing a number that is no descriptor closes nothing.
    Either way the table stays consistent. *)
Theorem close_correct bits_junk s fd :
  length bits_junk = 2%nat ∧ Forall in_u32 bits_junk → fds_ok s → plenty (s_fs s) → in_s32 fd →
  match fd_table s !! fd with
  | Some f => ∀ x, file_close f (s_fs s) = Ok (tt, x) →
      ∃ s', close bits_junk fd s = Ok (NoValue, s') ∧ fds_ok s' ∧ s_fs s' = x ∧ fd_table s' = delete fd (fd_table s)
  | None => ∃ n s', close bits_junk fd s = Ok (NoValue, s') ∧ fds_ok s' ∧ s_fs s' = bump n (s_fs s) ∧ fd_table s' = fd_table s
  end.
Proof.
  intros Hj Hok Hp Hfd. destruct (fd_table s !! fd) as [f|] eqn:Et; [intros x Hx|].
  - destruct (file_bitmap s) as [b|] eqn:Eb; unfold fds_ok in Hok; rewrite Eb in Hok; [|unfold fd_table in Et; by rewrite Hok in Et].
    assert (Hin : fd ∈ (file_list s).*1).
    { apply dec_stable. intros Hn%table_none. unfold fd_table in Et. congruence. }
    pose proof (bo_range _ _ Hok fd Hin) as Hr. unfold close, need_bitmap.
    erewrite bind_ok by (unfold bind, gets; rewrite Eb; reflexivity). rewrite !(proj2 (Z.eqb_neq fd _)) by lia. erewrite bind_ok by reflexivity.
    unfold gets. erewrite bind_ok by reflexivity. rewrite find_item_map. fold (fd_table s). rewrite Et.
    rewrite (bind_ok _ _ _ _ _ (in_files_ok _ _ _ _ Hx)).
    destruct (fd_set_run (set_s_fs x s) b fd false Eb (bo_wf _ _ Hok) (bo_size _ _ Hok) ltac:(lia)) as (b' & E & Hwf & Hc & Hbit).
    rewrite (bind_ok _ _ _ _ _ E). eexists. split; [reflexivity|]. split; [|split; [done|]].
    + by apply (bitmap_ok_remove b).
    + apply remove_item_map, Hok.
  - destruct (need_bitmap_run bits_junk Hj s Hok Hp) as (b & n & E1 & Hb & Hn). unfold close. rewrite (bind_ok _ _ _ _ _ E1).
    assert (Hlow : ∃ b', (if (fd =? 0) || (fd =? 1) then fd_set fd false else ret tt) (with_bitmap b n s) = Ok (tt, with_bitmap b' n s) ∧
      bitmap_ok b' (file_list s)).
    { destruct ((fd =? 0) || (fd =? 1)) eqn:E01; [|by exists b].
      assert (H01 : 0 <= fd < 2) by (apply orb_true_iff in E01; rewrite !Z.eqb_eq in E01; lia).
      destruct (fd_set_run (with_bitmap b n s) b fd false eq_refl (bo_wf _ _ Hb) (bo_size _ _ Hb) ltac:(lia)) as (b' & E & Hwf & Hc & Hbit).
      exists b'. split; [exact E|]. apply (bitmap_ok_low b); try done. intros i Hi. rewrite Hbit by lia. by rewrite (proj2 (Z.eqb_neq _ _)) by lia. }
    destruct Hlow as (b' & E2 & Hb'). rewrite (bind_ok _ _ _ _ _ E2). unfold gets. erewrite bind_ok by reflexivity.
    change (file_list (with_bitmap b' n s)) with (file_list s). rewrite find_item_map. fold (fd_table s). rewrite Et.
    exists n. eexists. split; [reflexivity|]. done.
Qed.

(** [filesize], [seek] and [tell] act on the file the table has for the descriptor,
    and do nothing for a number below 64 that is no descriptor.  Any other number stops
    the kernel at an assertion, as does every number before the first file was opened. *)
Theorem descriptors_used s fd position :
  fds_ok s → in_s32 fd →
  (if bool_decide (is_Some (file_bitmap s)) && (0 <=? fd) && (fd <? 64) then
     match fd_table s !! fd with
     | Some f =>
         filesize fd s = (let* n := in_files (file_length f) in ret (Return n)) s ∧
         seek fd position s = (in_files (file_seek f (s32 position)) ;;; ret NoValue) s ∧
         tell fd s = (let* n := in_files (file_tell f) in ret (Return (u32 n))) s
     | None => filesize fd s = Ok (Return 0, s) ∧ seek fd position s = Ok (NoValue, s) ∧ tell fd s = Ok (Return 0, s)
     end
   else filesize fd s = Fail AssertFailed ∧ seek fd position s = Fail AssertFailed ∧ tell fd s = Fail AssertFailed).
Proof.
  intros Hok Hfd. unfold fds_ok in Hok. destruct (file_bitmap s) as [b|] eqn:Eb.
  2: { rewrite bool_decide_eq_false_2 by (intros []; done). cbn [andb].
       assert (E : fd_unused fd s = Fail AssertFailed) by (unfold fd_unused, get_bitmap, bind, gets; by rewrite Eb).
       unfold filesize, seek, tell, bind. by rewrite E. }
  rewrite bool_decide_eq_true_2 by by eexists. cbn [andb]. destruct ((0 <=? fd) && (fd <? 64)) eqn:Er.
  2: { apply andb_false_iff in Er. rewrite Z.leb_gt, Z.ltb_ge in Er.
       pose proof (fd_unused_out s b fd Eb (bo_size _ _ Hok) Hfd ltac:(lia)) as E. unfold filesize, seek, tell, bind. by rewrite E. }
  apply andb_true_iff in Er as [?%Z.leb_le ?%Z.ltb_lt].
  pose proof (fd_unused_run s b fd Eb (bo_wf _ _ Hok) (bo_size _ _ Hok) ltac:(lia)) as E.
  pose proof (find_item_map (file_list s) fd) as Hfind. fold (fd_table s) in Hfind. destruct (fd_table s !! fd) as [f|] eqn:Et.
  - assert (Hin : fd ∈ (file_list s).*1) by (apply dec_stable; intros Hn%table_none; unfold fd_table in Et; congruence).
    rewrite (proj2 (bo_used _ _ Hok fd (bo_range _ _ Hok fd Hin)) Hin) in E.
    unfold filesize, seek, tell, gets. split_and!; rewrite (bind_ok _ _ _ _ _ E); cbn [negb]; erewrite bind_ok by reflexivity; by rewrite Hfind.
  - unfold filesize, seek, tell, gets. split_and!; rewrite (bind_ok _ _ _ _ _ E); (destruct (bm_bit b fd); cbn [negb]; [|done]);
      erewrite bind_ok by reflexivity; by rewrite Hfind.
Qed.

(** ** Samples

    A file system with the file "hello", a process without open files whose memory has the
    name at address 4096, and the same process with the file open. *)

Definition result {S A} (r : res (A * S)) (s : S) : S := match r with Ok (_, s') => s' | Fail _ => s end.
Definition answer {A S} (r : res (A * S)) : option A := match r with Ok (a, _) => Some a | Fail _ => None end.
Definition value {S} (r : res (Z * S)) : Z := match r with Ok (a, _) => a | Fail _ => 0 end.

Definition hello_fs : fsys := result ((filesys_init stack true ;;; filesys_create stack hello 600) blank_fs) blank_fs.
Definition sample_sys : sys :=
  mk_sys hello_fs [] None (list_to_map (zip (seqZ 4096 6) (hello ++ [0]))) [] [104; 105; 0] [[109; 97; 105; 110]] 0.
Definition opened_sys : sys := result (open stack [0; 0] 4096 sample_sys) sample_sys.

Lemma open_correct_witness : ∃ fd s', open stack [0; 0] 4096 sample_sys = Ok (Return fd, s') ∧ fds_ok s' ∧ fd_table s' !! fd = Some (value (filesys_open stack hello hello_fs)).
Proof.
  destruct (open_correct stack [0; 0] sample_sys 4096 hello (value (filesys_open stack hello hello_fs)) (result (filesys_open stack hello hello_fs) hello_fs)
    (mk_file 53 0 false) (mk_inode 4 1 false 0 (mk_inode_disk 5 600 INODE_MAGIC)))
    as (fd & s' & E & Hok & _ & _ & _ & Ht & _).
  - split; [done|]. repeat constructor; by vm_compute.
  - done.
  - done.
  - vm_compute. reflexivity.
  - vm_compute. reflexivity.
  - by vm_compute.
  - split; vm_compute; done.
  - vm_compute. reflexivity.
  - done.
  - vm_compute. reflexivity.
  - simpl. lia.
  - simpl. lia.
  - simpl. lia.
  - exists fd, s'. split; [exact E|]. split; [exact Hok|]. rewrite Ht. apply lookup_insert_eq.
Defined.

Lemma opened_ok : fds_ok opened_sys.
Proof.
  assert (Hb : file_bitmap opened_sys = Some (mk_bitmap 64 [7; 0])) by (vm_compute; reflexivity).
  assert (Hl : (file_list opened_sys).*1 = [2]) by (vm_compute; reflexivity). unfold fds_ok. rewrite Hb. split; rewrite ?Hl.
  - split; simpl; [lia|done|repeat constructor; by vm_compute].
  - done.
  - apply NoDup_singleton.
  - intros fd ->%list_elem_of_singleton. lia.
  - intros i Hi. rewrite list_elem_of_singleton.
    assert (Hall : forallb (λ i, eqb (bm_bit (mk_bitmap 64 [7; 0]) i) (i =? 2)) (seqZ 2 62) = true) by (vm_compute; reflexivity).
    rewrite forallb_forall in Hall. specialize (Hall i ltac:(apply list_elem_of_In, elem_of_seqZ; lia)). apply eqb_prop in Hall.
    rewrite Hall. apply Z.eqb_eq.
Qed.

Lemma opened_plenty : plenty (s_fs opened_sys).
Proof. split; vm_compute; reflexivity. Qed.

Lemma opened_table : fd_table opened_sys = {[2 := value (filesys_open stack hello hello_fs)]}.
Proof. vm_compute. reflexivity. Qed.

Definition closed_fs : fsys := result (file_close (value (filesys_open stack hello hello_fs)) (s_fs opened_sys)) hello_fs.

Lemma close_correct_witness : ∃ s', close [0; 0] 2 opened_sys = Ok (NoValue, s') ∧ fds_ok s' ∧ fd_table s' = ∅.
Proof.
  assert (H1 : length [0; 0] = 2%nat ∧ Forall in_u32 [0; 0]) by (split; [done|repeat constructor; by vm_compute]).
  assert (H2 : in_s32 2) by (split; vm_compute; congruence).
  pose proof (close_correct [0; 0] opened_sys 2 H1 opened_ok opened_plenty H2) as Hc.
  rewrite opened_table, lookup_singleton_eq in Hc. destruct (Hc closed_fs) as (s' & E & Hok & _ & Htab).
  - vm_compute. reflexivity.
  - exists s'. split; [exact E|]. split; [exact Hok|]. rewrite Htab. apply delete_singleton_eq.
Defined.

Lemma opened_bitmap : bool_decide (is_Some (file_bitmap opened_sys)) = true.
Proof. vm_compute. reflexivity. Qed.

Lemma descriptors_used_witness :
  filesize 2 opened_sys = Ok (Return 600, opened_sys) ∧ tell 5 opened_sys = Ok (Return 0, opened_sys) ∧ filesize 2 sample_sys = Fail AssertFailed ∧
  seek 64 0 opened_sys = Fail AssertFailed.
Proof.
  split_and!.
  - pose proof (descriptors_used opened_sys 2 0 opened_ok ltac:(split; vm_compute; congruence)) as H.
    rewrite opened_bitmap, opened_table, lookup_singleton_eq in H. destruct H as [H _]. rewrite H. vm_compute. reflexivity.
  - pose proof (descriptors_used opened_sys 5 0 opened_ok ltac:(split; vm_compute; congruence)) as H.
    rewrite opened_bitmap, opened_table, lookup_singleton_ne in H by done. destruct H as (_ & _ & H). exact H.
  - pose proof (descriptors_used sample_sys 2 0 eq_refl ltac:(split; vm_compute; congruence)) as H.
    rewrite bool_decide_eq_false_2 in H by (intros []; discriminate). destruct H as [H _]. exact H.
  - pose proof (descriptors_used opened_sys 64 0 opened_ok ltac:(split; vm_compute; congruence)) as H.
    rewrite opened_bitmap in H. destruct H as (_ & H & _). exact H.
Defined.

(** Reading three keys into a buffer of three bytes at 5000 writes twelve bytes: every
    key is stored as an integer. *)
Example read_keys_overflows :
  let s := set_mem (list_to_map ((λ a, (a, 7)) <$> seqZ 5000 12)) sample_sys in
  answer ((let* r := read 0 5000 3 in let* bytes := in_mem (load_all 12 5000) in ret (r, bytes)) s)
    = Some (Return 2, [104; 0; 0; 0; 105; 0; 0; 0; 0; 0; 0; 0]).
Proof. vm_compute. reflexivity. Qed.

(** With all 62 descriptors in use, [open] returns -1 but keeps the file open under the
    descriptor -1, and closing this descriptor stops the kernel. *)
Definition full_sys : sys := set_file_bitmap (Some (mk_bitmap 64 [2 ^ 32 - 1; 2 ^ 32 - 1])) (set_file_list ((λ i, (i, NULL)) <$> seqZ 2 62) sample_sys).

Example open_beyond_limit :
  answer ((let* r := open stack [0; 0] 4096 in let* items := gets file_list in ret (r, last items)) full_sys)
    = Some (Return (-1), Some (-1, value (filesys_open stack hello hello_fs))) ∧
  (open stack [0; 0] 4096 ;;; close [0; 0] (-1)) full_sys = Fail AssertFailed.
Proof. split; vm_compute; reflexivity. Qed.

(** ** Fibonacci numbers *)

(** [fib n] and [fib (n + 1)]. *)
Fixpoint fib_pair (n : nat) : Z * Z := match n with O => (0, 1) | S n' => let '(a, b) := fib_pair n' in (b, a + b) end.
Definition fib (n : Z) : Z := (fib_pair (Z.to_nat n)).1.

Lemma fib_step n : 2 < n → fib n = fib (n - 1) + fib (n - 2).
Proof.
  intros Hn. unfold fib. replace (Z.to_nat n) with (S (S (Z.to_nat (n - 2)))) by lia. replace (Z.to_nat (n - 1)) with (S (Z.to_nat (n - 2))) by lia.
  cbn [fib_pair]. destruct (fib_pair (Z.to_nat (n - 2))). simpl. lia.
Qed.

Lemma fib_small n : 0 < n <= 46 → 0 < fib n < 2 ^ 31.
Proof.
  intros Hn. assert (H : forallb (λ n, (0 <? fib n) && (fib n <? 2 ^ 31)) (seqZ 1 46) = true) by (vm_compute; reflexivity).
  rewrite forallb_forall in H. specialize (H n ltac:(apply list_elem_of_In, elem_of_seqZ; lia)). apply andb_true_iff in H as [?%Z.ltb_lt ?%Z.ltb_lt]. lia.
Qed.

Lemma fibonacci_rec_small fuel n : 0 < n <= 46 → n < Z.of_nat fuel → fibonacci_rec fuel n = Ok (fib n).
Proof.
  revert n. induction fuel as [|fuel IH]; intros n Hn Hf; [lia|]. cbn [fibonacci_rec]. rewrite (proj2 (Z.leb_gt n 0)) by lia.
  destruct (Z.leb_spec n 2); [assert (n = 1 ∨ n = 2) as [->| ->] by lia; done|].
  rewrite !IH by lia. cbn [rbind]. pose proof (fib_small n Hn) as Hs. rewrite fib_step in Hs by lia.
  rewrite (proj2 (Z.leb_le _ _)), (proj2 (Z.ltb_lt _ _)) by lia. cbn [andb]. by rewrite <- fib_step by lia.
Qed.

Lemma fibonacci_rec_large fuel n : 46 < n → n < Z.of_nat fuel → fibonacci_rec fuel n = Fail Undef.
Proof.
  revert n. induction fuel as [|fuel IH]; intros n Hn Hf; [lia|]. cbn [fibonacci_rec]. rewrite (proj2 (Z.leb_gt n 0)), (proj2 (Z.leb_gt n 2)) by lia.
  destruct (decide (n = 47)) as [->|]; [|by rewrite IH by lia].
  rewrite !fibonacci_rec_small by lia. reflexivity.
Qed.

(** The system call [fibonacci] computes the Fibonacci numbers up to the 46th, the
    last that fits into an [int]; it returns -1 for numbers below 1, and the sum overflows
    for every larger number. *)
Theorem fibonacci_correct n :
  fibonacci n = if n <=? 0 then Ok (-1) else if n <=? 46 then Ok (fib n) else Fail Undef.
Proof.
  unfold fibonacci. destruct (Z.leb_spec n 0) as [|Hn]; [cbn [fibonacci_rec]; by rewrite (proj2 (Z.leb_le n 0)) by lia|].
  destruct (Z.leb_spec n 46); [apply fibonacci_rec_small; lia|apply fibonacci_rec_large; lia].
Qed.
