(* ===== verification/User.v ===== *)
(** * The user library (src/lib/user, src/examples/shell.c)

    A program's side of the system calls: the calls push their number and arguments and
    enter the kernel, here [Syscall.syscall_handler], on the process's own memory; on top of
    them formatted output through a buffer of 64 characters, and the shell's line editor.
    Programs are compiled code: where the compiler puts the stack pointer and the local
    variables is an argument. *)

From S2P Require Import Prelude Strings Stdio Bitmap Palloc Swap Pagedir Hash HashSpec Inode Filesys Vm Process Syscall.
Local Open Scope Z_scope.

(** A program continues with a value, or its call ended or left it in the kernel. *)
Notation U A := (Y (A + ending)).
Definition uret {A} (a : A) : U A := ret (inl a).
Definition ubind {A B} (m : U A) (k : A → U B) : U B := let* r := m in match r with inl a => k a | inr e => ret (inr e) end.
Notation "'let!' x ':=' m 'in' k" := (ubind m (λ x, k)) (at level 200, x pattern, m at level 100, k at level 200, right associativity) : kernel_scope.
Notation "m ';;!' k" := (ubind m (λ _, k)) (at level 199, right associativity) : kernel_scope.
Definition user_mem {A} (m : B A) : U A := let* a := in_mem m in uret a.

Definition SYS_MMAP := 13.
Definition SYS_MUNMAP := 14.
Definition SYS_CHDIR := 15.
Definition SYS_MKDIR := 16.
Definition SYS_READDIR := 17.
Definition SYS_ISDIR := 18.
Definition SYS_INUMBER := 19.

Section user.
Variables (junk bits_junk : list Z).
(** What [eax] holds before a call, and the stack pointer. *)
Variables (eax esp : Z).

(** ** Entering the kernel *)

Definition pushl (v sp : Z) : U Z := let sp := u32 (sp - 4) in user_mem (store_int sp v) ;;! uret sp.

(** [int $0x30], and the value of [eax] after it. *)
Definition int30 (sp : Z) : U Z :=
  let* e := syscall_handler junk bits_junk sp in
  match e with Return v => uret (s32 v) | NoValue => uret (s32 eax) | _ => ret (inr e) end.

Definition syscall0 (number : Z) : U Z := let! sp := pushl number esp in int30 sp.
Definition syscall1 (number arg0 : Z) : U Z := let! sp := pushl arg0 esp in let! sp := pushl number sp in int30 sp.
Definition syscall2 (number arg0 arg1 : Z) : U Z :=
  let! sp := pushl arg1 esp in let! sp := pushl arg0 sp in let! sp := pushl number sp in int30 sp.
Definition syscall3 (number arg0 arg1 arg2 : Z) : U Z :=
  let! sp := pushl arg2 esp in let! sp := pushl arg1 sp in let! sp := pushl arg0 sp in let! sp := pushl number sp in int30 sp.
Definition syscall4 (number arg0 arg1 arg2 arg3 : Z) : U Z :=
  let! sp := pushl arg3 esp in let! sp := pushl arg2 sp in let! sp := pushl arg1 sp in let! sp := pushl arg0 sp in let! sp := pushl number sp in int30 sp.

(** ** The calls *)

Definition not_reached {A} : U A := fail Panicked.
Definition as_bool (m : U Z) : U bool := let! v := m in uret (negb (v =? 0)).
Definition as_unit (m : U Z) : U unit := let! _ := m in uret tt.
Definition as_unsigned (m : U Z) : U Z := let! v := m in uret (u32 v).

Definition halt : U Z := syscall0 SYS_HALT ;;! not_reached.
Definition exit (status : Z) : U Z := syscall1 SYS_EXIT status ;;! not_reached.
Definition exec (file : Z) : U Z := syscall1 SYS_EXEC file.
Definition wait (pid : Z) : U Z := syscall1 SYS_WAIT pid.
Definition create (file initial_size : Z) : U bool := as_bool (syscall2 SYS_CREATE file initial_size).
Definition remove (file : Z) : U bool := as_bool (syscall1 SYS_REMOVE file).
Definition open (file : Z) : U Z := syscall1 SYS_OPEN file.
Definition filesize (fd : Z) : U Z := syscall1 SYS_FILESIZE fd.
Definition read (fd buffer size : Z) : U Z := syscall3 SYS_READ fd buffer size.
Definition write (fd buffer size : Z) : U Z := syscall3 SYS_WRITE fd buffer size.
Definition seek (fd position : Z) : U unit := as_unit (syscall2 SYS_SEEK fd position).
Definition tell (fd : Z) : U Z := as_unsigned (syscall1 SYS_TELL fd).
Definition close (fd : Z) : U unit := as_unit (syscall1 SYS_CLOSE fd).
Definition mmap (fd addr : Z) : U Z := syscall2 SYS_MMAP fd addr.
Definition munmap (mapid : Z) : U unit := as_unit (syscall1 SYS_MUNMAP mapid).
Definition chdir (dir : Z) : U bool := as_bool (syscall1 SYS_CHDIR dir).
Definition mkdir (dir : Z) : U bool := as_bool (syscall1 SYS_MKDIR dir).
Definition readdir (fd name : Z) : U bool := as_bool (syscall2 SYS_READDIR fd name).
Definition isdir (fd : Z) : U bool := as_bool (syscall1 SYS_ISDIR fd).
Definition inumber (fd : Z) : U Z := syscall1 SYS_INUMBER fd.
Definition fibonacci (n : Z) : U Z := syscall1 SYS_FIBONACCI n.
Definition max_of_four_int (a b c d : Z) : U Z := syscall4 SYS_MAXOFFOURINT a b c d.

(** [main] returns the exit status. *)
Definition _start (main : Z → Z → U Z) (argc argv : Z) : U Z := let! status := main argc argv in exit status.

(** ** Formatted output *)

Definition STDIN_FILENO : Z := 0.
Definition STDOUT_FILENO : Z := 1.

Record vhprintf_aux := mk_vaux { p : Z; char_cnt : Z }.

(** [buf] is the address of the buffer. *)
Definition flush (handle buf : Z) (aux : vhprintf_aux) : U vhprintf_aux :=
  (if buf <? p aux then write handle buf (p aux - buf) ;;! uret tt else uret tt) ;;!
  uret (mk_vaux buf (char_cnt aux)).

Definition add_char (handle buf c : Z) (aux : vhprintf_aux) : U vhprintf_aux :=
  user_mem (store (p aux) (u8 c)) ;;!
  let aux := mk_vaux (p aux + 1) (char_cnt aux) in
  let! aux := (if buf + 64 <=? p aux then flush handle buf aux else uret aux) in
  if char_cnt aux <? 2 ^ 31 - 1 then uret (mk_vaux (p aux) (char_cnt aux + 1)) else fail Undef.

Fixpoint add_chars (handle buf : Z) (out : list Z) (aux : vhprintf_aux) : U vhprintf_aux :=
  match out with
  | [] => uret aux
  | c :: out => let! aux := add_char handle buf c aux in add_chars handle buf out aux
  end.

(** [__vprintf] calls [add_char] for each character of its output. *)
Definition vhprintf (handle buf : Z) (format : list Z) (args : list arg) : U Z :=
  let* out := lift (Stdio.vprintf format args) in
  let! aux := add_chars handle buf out (mk_vaux buf 0) in
  let! aux := flush handle buf aux in
  uret (char_cnt aux).

Definition vprintf (buf : Z) (format : list Z) (args : list arg) : U Z := vhprintf STDOUT_FILENO buf format args.

(** [c2] is the address of the local variable. *)
Definition putchar (c2 c : Z) : U Z :=
  user_mem (store c2 (u8 c)) ;;! write STDOUT_FILENO c2 1 ;;! uret c.

Definition puts (c2 s : Z) : U Z :=
  let! n := user_mem (strlen s) in
  write STDOUT_FILENO s n ;;! putchar c2 10 ;;! uret 0.

(** ** The shell's line editor *)

(** The result, and the new value of [*pos]. *)
Definition backspace (buf pos line : Z) : U (bool * Z) :=
  if line <? pos then vprintf buf [8; 32; 8] [] ;;! uret (true, pos - 1) else uret (false, pos).

(** Ctrl+U; [n] is at least the number of characters of the line. *)
Fixpoint kill_line (n : nat) (buf pos line : Z) : U Z :=
  match n with
  | O => fail NoFuel
  | S n => let! (again, pos) := backspace buf pos line in if again : bool then kill_line n buf pos line else uret pos
  end.

(** [fuel] rounds, one for each key. *)
Fixpoint read_line (fuel : nat) (buf c2 c_ line size pos : Z) : U unit :=
  match fuel with
  | O => fail NoFuel
  | S fuel =>
      read STDIN_FILENO c_ 1 ;;!
      let! c := user_mem (Strings.load c_) in
      if c =? 13 then user_mem (store pos 0) ;;! putchar c2 10 ;;! uret tt
      else if c =? 8 then let! (_, pos) := backspace buf pos line in read_line fuel buf c2 c_ line size pos
      else if c =? 21 then let! pos := kill_line (S (Z.to_nat size)) buf pos line in read_line fuel buf c2 c_ line size pos
      else if pos <? line + size - 1 then putchar c2 c ;;! user_mem (store pos c) ;;! read_line fuel buf c2 c_ line size (pos + 1)
      else read_line fuel buf c2 c_ line size pos
  end.
End user.
