(* ===== verification/UserSpec.v ===== *)
(** * What the user library promises

    A call of a program arrives in the kernel with its arguments and changes nothing but
    the words it pushes; formatted output reaches the console in order; and the shell's
    editor turns keys into the line they spell. *)

From S2P Require Import Prelude Strings StringSpec Stdio Bitmap Palloc Swap Pagedir Hash HashSpec Inode Filesys Vm Process ArgSpec Syscall SyscallSpec User.
Local Open Scope Z_scope.

(** The words [ws] in memory from [p] on. *)
Definition words (m : bytes_mem) (p : Z) (ws : list Z) : Prop := ∀ i w, ws !! i = Some w → int_at m (p + 4 * Z.of_nat i) w.

(** ** Words and bytes in memory *)

Lemma load_all_run bs p m : bytes_at m p bs → load_all (length bs) p m = Ok (bs, m).
Proof.
  revert p. induction bs as [|b bs IH]; intros p Hb; [done|]. cbn [load_all length].
  rewrite (bind_ok _ _ m b m).
  - rewrite (bind_ok _ _ m bs m); [done|]. apply IH. intros i Hi. replace (p + 1 + i) with (p + (i + 1)) by lia.
    rewrite Hb by (simpl; lia). by replace (Z.to_nat (i + 1)) with (S (Z.to_nat i)) by lia.
  - unfold Strings.load, need. pose proof (Hb 0 ltac:(simpl; lia)) as H0. rewrite Z.add_0_r in H0. by rewrite H0.
Qed.

Lemma load_uint_run p v m : int_at m p v → load_uint p m = Ok (u32 v, m).
Proof.
  intros H. unfold load_uint. rewrite (bind_ok _ _ _ _ _ (load_all_run _ _ _ H)). unfold ret. do 2 f_equal.
  rewrite <- (app_nil_r (le32 _)). apply from_le32_app, u32_range.
Qed.

Lemma words_nil m p : words m p [].
Proof. intros i w H. done. Qed.

Lemma words_cons m p w ws : int_at m p w → words m (p + 4) ws → words m p (w :: ws).
Proof.
  intros Hw Hws [|i] v H; cbn in H; [injection H as <-; by rewrite Z.add_0_r|]. specialize (Hws i v H).
  by replace (p + 4 * Z.of_nat (S i)) with (p + 4 + 4 * Z.of_nat i) by lia.
Qed.

Lemma changed_words m m' lo hi p ws : changed m m' lo hi → words m p ws → hi <= p → words m' p ws.
Proof. intros Hc Hw Hp i w H. eapply changed_int; [exact Hc|by apply Hw|lia]. Qed.

Lemma changed_bytes m m' lo hi p bs : changed m m' lo hi → bytes_at m p bs → hi <= p ∨ p + len bs <= lo → bytes_at m' p bs.
Proof. intros [H _] Hb Hp i Hi. rewrite H by lia. by apply Hb. Qed.

Lemma set_mem_id s : set_mem (mem s) s = s.
Proof. by destruct s. Qed.

Section calls.
Variables (junk bits_junk : list Z) (eax : Z).

(** ** Pushing *)

Lemma push_word {A} v ws sp s (k : Z → U A) : 4 <= sp < 2 ^ 32 → block (mem s) (sp - 4) 4 → words (mem s) sp ws →
  ∃ m', ubind (pushl v sp) k s = k (sp - 4) (set_mem m' s) ∧ words m' (sp - 4) (v :: ws) ∧ changed (mem s) m' (sp - 4) sp.
Proof.
  intros Hsp Hb Hw. destruct (store_int_run (sp - 4) v (mem s) Hb) as (m' & E & Hi & Hc). replace (sp - 4 + 4) with sp in Hc by lia.
  exists m'. split; [|split; [|done]].
  - unfold pushl, ubind, user_mem, in_mem, bind, uret, ret. cbv zeta. rewrite (u32_id (sp - 4)) by int_lia. cbn beta. by rewrite E.
  - apply words_cons; [done|]. replace (sp - 4 + 4) with sp by lia. by eapply changed_words; [exact Hc| |].
Qed.

(** Pushing a list of words, the last first. *)
Fixpoint push_all {A} (ws : list Z) (sp : Z) (k : Z → U A) : U A :=
  match ws with [] => k sp | w :: ws => push_all ws sp (λ sp, let! sp := pushl w sp in k sp) end.

Lemma push_all_run {A} ws sp s (k : Z → U A) : 4 * len ws <= sp < 2 ^ 32 → block (mem s) (sp - 4 * len ws) (4 * len ws) →
  ∃ m', push_all ws sp k s = k (sp - 4 * len ws) (set_mem m' s) ∧ words m' (sp - 4 * len ws) ws ∧ changed (mem s) m' (sp - 4 * len ws) sp.
Proof.
  revert k. induction ws as [|w ws IH]; intros k Hsp Hb; cbn [push_all].
  { exists (mem s). rewrite set_mem_id. replace (sp - 4 * len []) with sp by (simpl; lia). split; [done|]. split; [apply words_nil|apply changed_refl]. }
  replace (len (w :: ws)) with (len ws + 1) in * by (simpl; lia).
  destruct (IH (λ sp, let! sp := pushl w sp in k sp)) as (m1 & E1 & W1 & C1); [lia| |].
  { intros i Hi. replace (sp - 4 * len ws + i) with (sp - 4 * (len ws + 1) + (i + 4)) by lia. apply Hb. lia. }
  destruct (push_word w ws (sp - 4 * len ws) (set_mem m1 s) k) as (m2 & E2 & W2 & C2); [lia| |done|].
  { eapply changed_block; [exact C1|]. intros i Hi. replace (sp - 4 * len ws - 4 + i) with (sp - 4 * (len ws + 1) + i) by lia. apply Hb. lia. }
  replace (sp - 4 * (len ws + 1)) with (sp - 4 * len ws - 4) by lia. exists m2. rewrite E1. split; [exact E2|]. split; [done|].
  eapply changed_trans; [exact C1|exact C2|lia..].
Qed.

(** ** The handler's side *)

Lemma uint_arg_run sp ws i w s : words (mem s) sp ws → ws !! i = Some w → in_u32 w → 0 <= sp → sp + 4 * Z.of_nat i < 2 ^ 32 → uint_arg sp (Z.of_nat i) s = Ok (w, s).
Proof.
  intros Hw Hi Hr H0 H1. unfold uint_arg, in_mem. rewrite u32_id by int_lia. rewrite (load_uint_run _ w) by by apply Hw.
  by rewrite u32_id, set_mem_id by done.
Qed.

Lemma int_arg_run sp ws i w s : words (mem s) sp ws → ws !! i = Some w → in_s32 w → 0 <= sp → sp + 4 * Z.of_nat i < 2 ^ 32 → int_arg sp (Z.of_nat i) s = Ok (w, s).
Proof.
  intros Hw Hi Hr H0 H1. unfold int_arg, in_mem, load_int. rewrite u32_id by int_lia. rewrite (bind_ok _ _ _ _ _ (load_uint_run _ w _ (Hw _ _ Hi))).
  unfold ret. rewrite set_mem_id. do 2 f_equal. revert Hr. mod_lia.
Qed.

Lemma with_args_run sp n k s : 0 <= sp → sp + 4 * Z.of_nat n < PHYS_BASE → with_args sp n k s = k s.
Proof.
  intros H0 H1. unfold with_args. replace (forallb _ _) with true; [done|]. symmetry. apply forallb_forall. intros i Hi.
  apply list_elem_of_In, elem_of_seqZ in Hi. unfold is_user_vaddr, PHYS_BASE in *. apply Z.ltb_lt. rewrite u32_id by int_lia. lia.
Qed.

(** ** Every call *)

Inductive user_call :=
| Halt | Exit (status : Z) | Exec (file : Z) | Wait (pid : Z) | Create (file initial_size : Z) | Remove (file : Z) | Open (file : Z)
| Filesize (fd : Z) | Read (fd buffer size : Z) | Write (fd buffer size : Z) | Seek (fd position : Z) | Tell (fd : Z) | Close (fd : Z)
| Mmap (fd addr : Z) | Munmap (mapid : Z) | Chdir (dir : Z) | Mkdir (dir : Z) | Readdir (fd name : Z) | Isdir (fd : Z) | Inumber (fd : Z)
| Fibonacci (n : Z) | Max_of_four_int (a b c d : Z).

Definition number (c : user_call) : Z :=
  match c with
  | Halt => SYS_HALT | Exit _ => SYS_EXIT | Exec _ => SYS_EXEC | Wait _ => SYS_WAIT | Create _ _ => SYS_CREATE | Remove _ => SYS_REMOVE
  | Open _ => SYS_OPEN | Filesize _ => SYS_FILESIZE | Read _ _ _ => SYS_READ | Write _ _ _ => SYS_WRITE | Seek _ _ => SYS_SEEK
  | Tell _ => SYS_TELL | Close _ => SYS_CLOSE | Mmap _ _ => SYS_MMAP | Munmap _ => SYS_MUNMAP | Chdir _ => SYS_CHDIR | Mkdir _ => SYS_MKDIR
  | Readdir _ _ => SYS_READDIR | Isdir _ => SYS_ISDIR | Inumber _ => SYS_INUMBER | Fibonacci _ => SYS_FIBONACCI | Max_of_four_int _ _ _ _ => SYS_MAXOFFOURINT
  end.

Definition arguments_of (c : user_call) : list Z :=
  match c with
  | Halt => []
  | Exit a | Exec a | Wait a | Remove a | Open a | Filesize a | Tell a | Close a | Munmap a | Chdir a | Mkdir a | Isdir a | Inumber a | Fibonacci a => [a]
  | Create a b | Seek a b | Mmap a b | Readdir a b => [a; b]
  | Read a b c | Write a b c => [a; b; c]
  | Max_of_four_int a b c d => [a; b; c; d]
  end.

(** The arguments are values of their C types. *)
Definition valid (c : user_call) : Prop :=
  match c with
  | Halt => True
  | Exec a | Remove a | Open a | Chdir a | Mkdir a => in_u32 a
  | Exit a | Wait a | Filesize a | Tell a | Close a | Munmap a | Isdir a | Inumber a | Fibonacci a => in_s32 a
  | Create a b => in_u32 a ∧ in_u32 b
  | Seek a b | Mmap a b | Readdir a b => in_s32 a ∧ in_u32 b
  | Read a b c | Write a b c => in_s32 a ∧ in_u32 b ∧ in_u32 c
  | Max_of_four_int a b c d => in_s32 a ∧ in_s32 b ∧ in_s32 c ∧ in_s32 d
  end.

(** What the program calls, its answer as a number. *)
Definition from_bool (m : U bool) : U Z := let! b := m in uret (if b then 1 else 0).
Definition from_unit (m : U unit) : U Z := let! _ := m in uret 0.
Definition stub (esp : Z) (c : user_call) : U Z :=
  match c with
  | Halt => User.halt junk bits_junk eax esp
  | Exit a => User.exit junk bits_junk eax esp a
  | Exec a => User.exec junk bits_junk eax esp a
  | Wait a => User.wait junk bits_junk eax esp a
  | Create a b => from_bool (User.create junk bits_junk eax esp a b)
  | Remove a => from_bool (User.remove junk bits_junk eax esp a)
  | Open a => User.open junk bits_junk eax esp a
  | Filesize a => User.filesize junk bits_junk eax esp a
  | Read a b c => User.read junk bits_junk eax esp a b c
  | Write a b c => User.write junk bits_junk eax esp a b c
  | Seek a b => from_unit (User.seek junk bits_junk eax esp a b)
  | Tell a => User.tell junk bits_junk eax esp a
  | Close a => from_unit (User.close junk bits_junk eax esp a)
  | Mmap a b => User.mmap junk bits_junk eax esp a b
  | Munmap a => from_unit (User.munmap junk bits_junk eax esp a)
  | Chdir a => from_bool (User.chdir junk bits_junk eax esp a)
  | Mkdir a => from_bool (User.mkdir junk bits_junk eax esp a)
  | Readdir a b => from_bool (User.readdir junk bits_junk eax esp a b)
  | Isdir a => from_bool (User.isdir junk bits_junk eax esp a)
  | Inumber a => User.inumber junk bits_junk eax esp a
  | Fibonacci a => User.fibonacci junk bits_junk eax esp a
  | Max_of_four_int a b c d => User.max_of_four_int junk bits_junk eax esp a b c d
  end.

(** What the kernel does for it; the calls of later projects have no handler. *)
Definition kernel (c : user_call) : Y ending :=
  match c with
  | Halt => Syscall.halt
  | Exit a => Syscall.exit a
  | Exec a => Syscall.exec a
  | Wait a => Syscall.wait a
  | Create a b => Syscall.create junk a b
  | Remove a => Syscall.remove junk a
  | Open a => Syscall.open junk bits_junk a
  | Filesize a => Syscall.filesize a
  | Read a b c => Syscall.read a b c
  | Write a b c => Syscall.write a b c
  | Seek a b => Syscall.seek a b
  | Tell a => Syscall.tell a
  | Close a => Syscall.close bits_junk a
  | Fibonacci a => let* r := lift (Syscall.fibonacci a) in ret (Return r)
  | Max_of_four_int a b c d => ret (Return (Syscall.max_of_four_int a b c d))
  | Mmap _ _ | Munmap _ | Chdir _ | Mkdir _ | Readdir _ _ | Isdir _ | Inumber _ => ret NoValue
  end.

Definition converted (c : user_call) (v : Z) : Z :=
  match c with
  | Create _ _ | Remove _ | Chdir _ | Mkdir _ | Readdir _ _ | Isdir _ => if s32 v =? 0 then 0 else 1
  | Seek _ _ | Close _ | Munmap _ => 0
  | Tell _ => u32 (s32 v)
  | _ => s32 v
  end.

Definition answer_of (c : user_call) (e : ending) : Z + ending :=
  match e with Return v => inl (converted c v) | NoValue => inl (converted c eax) | _ => inr e end.

Ltac dispatch := repeat (match goal with |- context [if ?a =? ?b then _ else _] => let v := eval vm_compute in (a =? b) in change (a =? b) with v end; cbv iota).

Ltac argument_at Hw Hv i :=
  first [rewrite (bind_ok _ _ _ _ _ (int_arg_run _ _ i _ _ Hw eq_refl ltac:(tauto) ltac:(lia) ltac:(lia)))
        |rewrite (bind_ok _ _ _ _ _ (uint_arg_run _ _ i _ _ Hw eq_refl ltac:(tauto) ltac:(lia) ltac:(lia)))].
Ltac argument Hw Hv := first [argument_at Hw Hv 1%nat | argument_at Hw Hv 2%nat | argument_at Hw Hv 3%nat | argument_at Hw Hv 4%nat].

(** The handler finds the call on the stack. *)
Lemma handler_finds c sp s : valid c → words (mem s) sp (number c :: arguments_of c) → 0 <= sp → sp + 4 * len (number c :: arguments_of c) <= PHYS_BASE →
  syscall_handler junk bits_junk sp s = kernel c (set_sys_esp sp s).
Proof.
  intros Hv Hw H0 H1. unfold syscall_handler.
  assert (Hn : load_int sp (mem s) = Ok (number c, mem s)).
  { pose proof (Hw O _ eq_refl) as H. rewrite Z.add_0_r in H. unfold load_int. rewrite (bind_ok _ _ _ _ _ (load_uint_run _ _ _ H)).
    unfold ret. do 2 f_equal. by destruct c. }
  rewrite (bind_ok _ _ s (number c) s) by (unfold in_mem; by rewrite Hn, set_mem_id).
  rewrite (bind_ok _ _ s tt (set_sys_esp sp s)) by reflexivity. set (s1 := set_sys_esp sp s). change (mem s) with (mem s1) in Hw. clearbody s1. clear Hn s.
  assert (Hu : is_user_vaddr sp = true). { unfold is_user_vaddr. apply Z.ltb_lt. simpl in H1. lia. } rewrite Hu. cbn [negb].
  destruct c; cbn [number arguments_of valid kernel] in *; unfold PHYS_BASE in *; simpl length in H1; dispatch; try reflexivity;
    (rewrite (with_args_run sp) by (unfold PHYS_BASE; lia)); repeat argument Hw Hv; reflexivity.
Qed.

(** What the stubs do with the value of [eax]. *)
Definition finish (c : user_call) (m : U Z) : U Z :=
  match c with
  | Halt | Exit _ => m ;;! not_reached
  | Create _ _ | Remove _ | Chdir _ | Mkdir _ | Readdir _ _ | Isdir _ => from_bool (as_bool m)
  | Seek _ _ | Close _ | Munmap _ => from_unit (as_unit m)
  | Tell _ => as_unsigned m
  | _ => m
  end.

Lemma stub_shape esp c : stub esp c = finish c (push_all (number c :: arguments_of c) esp (int30 junk bits_junk eax)).
Proof. by destruct c. Qed.

Lemma stub_finish_run c (m : U Z) s sp s1 s2 : m s = int30 junk bits_junk eax sp s1 → syscall_handler junk bits_junk sp s1 = kernel c s2 →
  finish c m s = (let* e := kernel c in ret (answer_of c e)) s2.
Proof.
  intros Hm Hk. unfold int30 in Hm. unfold bind at 1 in Hm. rewrite Hk in Hm.
  destruct c; cbn [finish]; unfold from_bool, as_bool, from_unit, as_unit, as_unsigned, ubind, bind, uret, ret; rewrite Hm;
    try reflexivity; destruct (kernel _ s2) as [[e s3]|f]; try done; destruct e; try done; cbn [answer_of converted];
    unfold uret, ret; try match goal with |- context [s32 ?x =? 0] => by destruct (s32 x =? 0) end; done.
Qed.

(** The stack has room for a call. *)
Definition stack_room (esp : Z) (n : Z) (s : sys) : Prop := 4 * n <= esp ∧ esp <= PHYS_BASE ∧ block (mem s) (esp - 4 * n) (4 * n).

Lemma stub_run esp c s : valid c → stack_room esp (len (number c :: arguments_of c)) s →
  ∃ m', changed (mem s) m' (esp - 4 * len (number c :: arguments_of c)) esp ∧
    words m' (esp - 4 * len (number c :: arguments_of c)) (number c :: arguments_of c) ∧
    stub esp c s = (let* e := kernel c in ret (answer_of c e)) (set_sys_esp (esp - 4 * len (number c :: arguments_of c)) (set_mem m' s)).
Proof.
  intros Hv (H0 & H1 & Hb). set (ws := number c :: arguments_of c) in *.
  destruct (push_all_run ws esp s (int30 junk bits_junk eax)) as (m' & E & Hw & Hc); [unfold PHYS_BASE in *; lia|done|].
  exists m'. split; [done|]. split; [done|]. rewrite stub_shape. eapply stub_finish_run; [exact E|].
  apply handler_finds; [done|done|lia|fold ws; lia].
Qed.

(** C13: a program's call arrives: the stub pushes the number and the arguments below the stack
    pointer, changes no other memory, and does exactly what the kernel's function for this
    call does with the arguments the program gave, on the process with those words pushed; the
    answer is the function's result as a value of the call's type, what [eax] held before
    for a call the kernel has no handler for, and the program does not go on after a call
    that ends it. *)
Theorem stub_reaches_kernel esp c s : valid c → stack_room esp (len (number c :: arguments_of c)) s →
  ∃ m', changed (mem s) m' (esp - 4 * len (number c :: arguments_of c)) esp ∧
    words m' (esp - 4 * len (number c :: arguments_of c)) (number c :: arguments_of c) ∧
    stub esp c s = (let* e := kernel c in ret (answer_of c e)) (set_sys_esp (esp - 4 * len (number c :: arguments_of c)) (set_mem m' s)).
Proof. apply stub_run. Qed.
End calls.

(** ** What a program does to its process *)

(** [m'] is [m] with bytes of [R] replaced. *)
Record touched (m m' : bytes_mem) (R : Z → Prop) : Prop := {
  to_out : ∀ a, ¬ R a → m' !! a = m !! a;
  to_some : ∀ a, is_Some (m !! a) → is_Some (m' !! a)
}.

Definition span (lo hi a : Z) : Prop := lo <= a < hi.
(** The memory that printing changes: the pushed words and the buffer. *)
Definition printing (esp buf a : Z) : Prop := span (esp - 16) esp a ∨ span buf (buf + 64) a.
Ltac within := intros ?; unfold printing, span in *; lia.

Lemma changed_touched m m' lo hi : changed m m' lo hi → touched m m' (span lo hi).
Proof. intros [H1 H2]. split; [intros a Ha; by apply H1|done]. Qed.

(** [s'] is [s] with [out] more on the console, [ks] left of the keys and memory changed only
    in [R]. *)
Definition moves (R : Z → Prop) (out ks : list Z) (s s' : sys) : Prop :=
  ∃ m e, s' = set_console (console s ++ out) (set_keys ks (set_sys_esp e (set_mem m s))) ∧ touched (mem s) m R.

Lemma moves_refl R s : moves R [] (keys s) s s.
Proof. exists (mem s), (sys_esp s). split; [destruct s; cbn; by rewrite app_nil_r|by split]. Qed.

Lemma moves_trans (R R1 R2 : Z → Prop) out1 out2 ks1 ks2 s1 s2 s3 :
  moves R1 out1 ks1 s1 s2 → moves R2 out2 ks2 s2 s3 → (∀ a, R1 a → R a) → (∀ a, R2 a → R a) → moves R (out1 ++ out2) ks2 s1 s3.
Proof.
  intros (m1 & e1 & -> & [A1 A2]) (m2 & e2 & -> & [B1 B2]) H1 H2. exists m2, e2. split; [destruct s1; cbn; by rewrite app_assoc|]. cbn in *.
  split; [|auto]. intros a Ha. rewrite B1 by auto. apply A1. auto.
Qed.

Lemma moves_widen (R R1 : Z → Prop) out ks s s' : moves R1 out ks s s' → (∀ a, R1 a → R a) → moves R out ks s s'.
Proof. intros (m & e & -> & [C1 C2]) H. exists m, e. split; [done|]. split; [intros a Ha; apply C1; auto|done]. Qed.

Lemma moves_touched R out ks s s' : moves R out ks s s' → touched (mem s) (mem s') R.
Proof. by intros (m & e & -> & C). Qed.

Lemma moves_block R out ks s s' p n : moves R out ks s s' → block (mem s) p n → block (mem s') p n.
Proof. intros H Hb i Hi. apply (to_some _ _ _ (moves_touched _ _ _ _ _ H)), Hb, Hi. Qed.

Lemma moves_bytes (R : Z → Prop) out ks s s' p bs : moves R out ks s s' → bytes_at (mem s) p bs → (∀ a, span p (p + len bs) a → ¬ R a) → bytes_at (mem s') p bs.
Proof. intros H Hb Hr i Hi. rewrite (to_out _ _ _ (moves_touched _ _ _ _ _ H)); [by apply Hb|]. apply Hr. unfold span. lia. Qed.

Lemma moves_keys R out ks s s' : moves R out ks s s' → keys s' = ks.
Proof. by intros (m & e & -> & C). Qed.

Lemma moves_console R out ks s s' : moves R out ks s s' → console s' = console s ++ out.
Proof. by intros (m & e & -> & C). Qed.

Lemma ubind_ok {A B} (m : U A) (k : A → U B) s a s' : m s = Ok (inl a, s') → ubind m k s = k a s'.
Proof. intros E. unfold ubind. by rewrite (bind_ok _ _ _ _ _ E). Qed.

(** A byte is stored. *)
Lemma store_moves p b s : is_Some (mem s !! p) →
  ∃ s', user_mem (store p b) s = Ok (inl tt, s') ∧ moves (span p (p + 1)) [] (keys s) s s' ∧ mem s' = <[p := b]> (mem s).
Proof.
  intros [x Hx]. exists (set_mem (<[p := b]> (mem s)) s). split; [|split; [|done]].
  - unfold user_mem, in_mem, store, bind, uret, ret. by rewrite Hx.
  - exists (<[p := b]> (mem s)), (sys_esp s). split; [destruct s; cbn; by rewrite app_nil_r|].
    split; [intros a Ha; apply lookup_insert_ne; unfold span in Ha; lia|]. intros a Ha. destruct (decide (a = p)) as [->|]; [rewrite lookup_insert_eq; by eexists|by rewrite lookup_insert_ne].
Qed.

Lemma load_run p b s : mem s !! p = Some b → user_mem (Strings.load p) s = Ok (inl b, s).
Proof. intros H. unfold user_mem, in_mem, Strings.load, bind, uret, ret. rewrite H. cbn. by rewrite set_mem_id. Qed.

Section output.
Variables (junk bits_junk : list Z) (eax esp : Z).

Lemma user_addr a : a < PHYS_BASE → is_user_vaddr a = true.
Proof. intros H. by apply Z.ltb_lt. Qed.

(** Writing to the console. *)
Lemma console_write_run buf bs s : stack_room esp 4 s → esp <= buf < PHYS_BASE → buf + len bs <= PHYS_BASE → bytes_at (mem s) buf bs →
  ∃ s', User.write junk bits_junk eax esp STDOUT_FILENO buf (len bs) s = Ok (inl (s32 (len bs)), s') ∧ moves (span (esp - 16) esp) bs (keys s) s s'.
Proof.
  intros Hr Hbuf Hhi Hb. destruct (stub_run junk bits_junk eax esp (Write STDOUT_FILENO buf (len bs)) s) as (m' & Hc & _ & E).
  { destruct Hr as (R0 & R1 & _). cbn [valid]. unfold PHYS_BASE, STDOUT_FILENO in *. split_and!; int_lia. }
  { exact Hr. }
  cbn [stub number arguments_of] in *. change (len [SYS_WRITE; STDOUT_FILENO; buf; len bs]) with 4 in *.
  set (s1 := set_sys_esp (esp - 4 * 4) (set_mem m' s)) in *.
  assert (Hl : in_mem (load_all (Z.to_nat (len bs)) buf) s1 = Ok (bs, s1)).
  { unfold in_mem. rewrite Nat2Z.id, load_all_run; [by destruct s|]. eapply changed_bytes; [exact Hc|done|]. left. lia. }
  exists (set_console (console s1 ++ bs) s1). split.
  - rewrite E. cbn [kernel]. unfold Syscall.write. rewrite user_addr by lia. cbn [negb]. unfold STDOUT_FILENO. rewrite (proj2 (Z.eqb_eq 1 1) eq_refl).
    rewrite bind_assoc, (bind_ok _ _ _ _ _ Hl). reflexivity.
  - exists m', (esp - 4 * 4). split; [by destruct s|]. by apply changed_touched.
Qed.
Lemma room_moves n R out ks s s' : stack_room esp n s → moves R out ks s s' → stack_room esp n s'.
Proof. intros (H0 & H1 & H2) Hm. split_and!; [done..|]. by eapply moves_block. Qed.

(** ** The buffer of [vhprintf] *)

(** The buffer holds [pend]. *)
Definition pending_in (buf : Z) (pend : list Z) (s : sys) : Prop :=
  stack_room esp 4 s ∧ esp <= buf ∧ buf + 64 <= PHYS_BASE ∧ block (mem s) buf 64 ∧ bytes_at (mem s) buf pend ∧ len pend <= 64.

Lemma flush_run buf pend n s : pending_in buf pend s →
  ∃ s', flush junk bits_junk eax esp STDOUT_FILENO buf (mk_vaux (buf + len pend) n) s = Ok (inl (mk_vaux buf n), s') ∧
    moves (span (esp - 16) esp) pend (keys s) s s' ∧ pending_in buf [] s'.
Proof.
  intros (Hr & Hlo & Hhi & Hb & Hp & Hl). unfold flush. cbn [p char_cnt]. destruct (Z.ltb_spec buf (buf + len pend)) as [Hlt|Hge].
  - replace (buf + len pend - buf) with (len pend) by lia. destruct (console_write_run buf pend s Hr ltac:(lia) ltac:(lia) Hp) as (s' & E & Hm).
    exists s'. split; [|split; [done|]].
    + erewrite ubind_ok; [reflexivity|]. erewrite ubind_ok by exact E. reflexivity.
    + split_and!; [by eapply room_moves|lia|lia|by eapply moves_block| |simpl; lia]. intros i Hi. simpl in Hi. lia.
  - destruct pend as [|c pend]; [|simpl in Hge; lia]. exists s. split; [done|]. split; [apply moves_refl|done].
Qed.

Lemma add_char_run buf pend n c s : pending_in buf pend s → len pend < 64 → 0 <= n < 2 ^ 31 - 1 →
  ∃ out pend' s', out ++ pend' = pend ++ [u8 c] ∧
    add_char junk bits_junk eax esp STDOUT_FILENO buf c (mk_vaux (buf + len pend) n) s = Ok (inl (mk_vaux (buf + len pend') (n + 1)), s') ∧
    moves (printing esp buf) out (keys s) s s' ∧ pending_in buf pend' s' ∧ len pend' < 64.
Proof.
  intros (Hr & Hlo & Hhi & Hb & Hp & Hl) Hfull Hn. unfold add_char. cbn [p char_cnt].
  destruct (store_moves (buf + len pend) (u8 c) s) as (s1 & E1 & M1 & Hmem); [apply Hb; lia|].
  rewrite (ubind_ok _ _ _ _ _ E1). clear E1. cbv zeta. cbn [p char_cnt].
  assert (Hp1 : pending_in buf (pend ++ [u8 c]) s1).
  { split_and!; [by eapply room_moves|lia|lia|by eapply moves_block| |rewrite length_app; simpl; lia].
    intros i Hi. rewrite length_app in Hi. simpl in Hi. rewrite Hmem. destruct (decide (i = len pend)) as [->|Hne].
    - rewrite lookup_insert_eq, Nat2Z.id, lookup_app_r by lia. by rewrite Nat.sub_diag.
    - rewrite lookup_insert_ne by lia. rewrite lookup_app_l by lia. apply Hp. lia. }
  assert (Hlen : len (pend ++ [u8 c]) = len pend + 1) by (rewrite length_app; simpl; lia).
  destruct (Z.leb_spec (buf + 64) (buf + len pend + 1)) as [Hf|Hf].
  - destruct (flush_run buf (pend ++ [u8 c]) n s1 Hp1) as (s2 & E2 & M2 & Hp2). rewrite Hlen in E2. replace (buf + (len pend + 1)) with (buf + len pend + 1) in E2 by lia.
    exists (pend ++ [u8 c]), [], s2. split; [by rewrite app_nil_r|]. rewrite (ubind_ok _ _ _ _ _ E2). cbn [p char_cnt].
    rewrite (proj2 (Z.ltb_lt n (2 ^ 31 - 1))) by lia. split; [by rewrite Z.add_0_r|]. split; [|done].
    change (pend ++ [u8 c]) with ([] ++ (pend ++ [u8 c])). rewrite <- (moves_keys _ _ _ _ _ M1). eapply moves_trans; [exact M1|exact M2|within..].
  - exists [], (pend ++ [u8 c]), s1. split; [done|]. erewrite ubind_ok by reflexivity. cbn [p char_cnt].
    rewrite (proj2 (Z.ltb_lt n (2 ^ 31 - 1))) by lia. rewrite Hlen, Z.add_assoc. split; [done|]. split; [|split; [done|lia]].
    eapply moves_widen; [exact M1|within].
Qed.

Lemma add_chars_run out buf pend n s : pending_in buf pend s → len pend < 64 → 0 <= n → n + len out < 2 ^ 31 →
  ∃ printed pend' s', printed ++ pend' = pend ++ (u8 <$> out) ∧
    add_chars junk bits_junk eax esp STDOUT_FILENO buf out (mk_vaux (buf + len pend) n) s = Ok (inl (mk_vaux (buf + len pend') (n + len out)), s') ∧
    moves (printing esp buf) printed (keys s) s s' ∧ pending_in buf pend' s'.
Proof.
  revert pend n s. induction out as [|c out IH]; intros pend n s Hp Hl Hn Hsmall; cbn [add_chars].
  - exists [], pend, s. cbn [fmap list_fmap]. rewrite app_nil_r. split; [done|]. split; [by rewrite Z.add_0_r|]. split; [apply moves_refl|done].
  - replace (len (c :: out)) with (len out + 1) in * by (simpl; lia).
    destruct (add_char_run buf pend n c s Hp Hl ltac:(lia)) as (out1 & pend1 & s1 & Eq1 & E1 & M1 & Hp1 & Hl1).
    destruct (IH pend1 (n + 1) s1 Hp1 Hl1 ltac:(lia) ltac:(lia)) as (out2 & pend2 & s2 & Eq2 & E2 & M2 & Hp2).
    exists (out1 ++ out2), pend2, s2. rewrite (ubind_ok _ _ _ _ _ E1), E2. split_and!; [|by rewrite <- Z.add_assoc, (Z.add_comm 1)| |done].
    + rewrite <- app_assoc, Eq2, app_assoc, Eq1. cbn [fmap list_fmap]. by rewrite <- app_assoc.
    + rewrite (moves_keys _ _ _ _ _ M1) in M2. eapply moves_trans; [exact M1|exact M2|within..].
Qed.

(** The frame of a call that prints: room below the stack pointer and the buffer. *)
Definition frame_ok (buf : Z) (s : sys) : Prop := pending_in buf [] s.

Lemma frame_moves buf R out ks s s' : frame_ok buf s → moves R out ks s s' → frame_ok buf s'.
Proof. intros (Hr & Hlo & Hhi & Hb & Hp & Hl) Hm. split_and!; [by eapply room_moves|lia|lia|by eapply moves_block| |done]. intros i Hi. simpl in Hi. lia. Qed.

Lemma vprintf_run buf format args out s : frame_ok buf s → Stdio.vprintf format args = Ok out → len out < 2 ^ 31 →
  ∃ s', User.vprintf junk bits_junk eax esp buf format args s = Ok (inl (len out), s') ∧ moves (printing esp buf) (u8 <$> out) (keys s) s s'.
Proof.
  intros Hf E Hl. unfold User.vprintf, vhprintf. rewrite E. rewrite (bind_ok _ _ s out s) by done.
  destruct (add_chars_run out buf [] 0 s Hf ltac:(simpl; lia) ltac:(lia) ltac:(lia)) as (out1 & pend & s1 & Eq & E1 & M1 & Hp1).
  simpl len in E1. rewrite Z.add_0_r in E1. rewrite (ubind_ok _ _ _ _ _ E1). destruct (flush_run buf pend (0 + len out) s1 Hp1) as (s2 & E2 & M2 & _).
  rewrite (ubind_ok _ _ _ _ _ E2). exists s2. split; [done|]. cbn [app] in Eq. rewrite <- Eq. rewrite (moves_keys _ _ _ _ _ M1) in M2.
  destruct Hf as (_ & Hlo & _). eapply moves_trans; [exact M1|exact M2|within..].
Qed.
End output.

(** C14: printf of a program reaches the console: with room on the stack, formatted output goes
    through the 64-character buffer, the write system call and the kernel to the console,
    complete and in order, however long it is; the result is its length; memory changes only
    in the pushed words and the buffer, and nothing else of the process. *)
Theorem printf_reaches_console junk bits_junk eax esp buf format args out s :
  stack_room esp 4 s → esp <= buf → buf + 64 <= PHYS_BASE → block (mem s) buf 64 →
  Stdio.vprintf format args = Ok out → len out < 2 ^ 31 →
  ∃ m e, User.vprintf junk bits_junk eax esp buf format args s =
      Ok (inl (len out), set_console (console s ++ (u8 <$> out)) (set_keys (keys s) (set_sys_esp e (set_mem m s)))) ∧
    (∀ a, ¬ (esp - 16 <= a < esp) → ¬ (buf <= a < buf + 64) → m !! a = mem s !! a).
Proof.
  intros Hr Hlo Hhi Hb E Hl. destruct (vprintf_run junk bits_junk eax esp buf format args out s) as (s' & E' & m & e & -> & [C _]); [|done..|].
  - split_and!; try done. intros i Hi. simpl in Hi. lia.
  - exists m, e. split; [done|]. intros a H1 H2. apply C. unfold printing, span. tauto.
Qed.

(** ** The line editor *)

(** What the keys [ks] make of the line [l] in [size] bytes: the line, what is shown, and the
    keys after the return key. *)
Fixpoint edit (size : Z) (l ks : list Z) : option (list Z * list Z * list Z) :=
  match ks with
  | [] => None
  | k :: ks =>
      if k =? 13 then Some (l, [10], ks)
      else if k =? 8 then
        match l with
        | [] => edit size [] ks
        | _ => '(l', shown, rest) ← edit size (removelast l) ks; Some (l', [8; 32; 8] ++ shown, rest)
        end
      else if k =? 21 then '(l', shown, rest) ← edit size [] ks; Some (l', concat (replicate (length l) [8; 32; 8]) ++ shown, rest)
      else if len l <? size - 1 then '(l', shown, rest) ← edit size (l ++ [k]) ks; Some (l', [k] ++ shown, rest)
      else edit size l ks
  end.

Lemma edit_shows (o : option (list Z * list Z * list Z)) x l' shown rest :
  ('(l, sh, r) ← o; Some (l, x ++ sh, r)) = Some (l', shown, rest) → ∃ sh, o = Some (l', sh, rest) ∧ shown = x ++ sh.
Proof. destruct o as [[[a b] c]|]; [|done]. intros [= <- <- <-]. by exists b. Qed.

Section editor.
Variables (junk bits_junk : list Z) (eax esp : Z).
(** The buffer of [printf], the variables [c2] of [putchar] and [c] of [read_line], and the
    line, above the others. *)
Variables (buf c2 c_ line size : Z).

Record layout : Prop := {
  la_buf : esp <= buf ∧ buf + 64 <= line;
  la_c2 : esp <= c2 < line;
  la_c : esp <= c_ ∧ c_ + 4 <= line;
  la_line : line + size <= PHYS_BASE;
  la_size : 0 < size
}.
Hypothesis Hlay : layout.

(** The memory of the editor is there, and the line holds [l]. *)
Record editing (l : list Z) (s : sys) : Prop := {
  ed_room : stack_room esp 4 s;
  ed_buf : block (mem s) buf 64;
  ed_c2 : is_Some (mem s !! c2);
  ed_c : block (mem s) c_ 4;
  ed_line : block (mem s) line size;
  ed_text : bytes_at (mem s) line l;
  ed_len : len l < size
}.

Notation moved := (moves (span (esp - 16) line)).

Lemma editing_moves l out ks s s' : editing l s → moved out ks s s' → editing l s'.
Proof.
  intros [Hr Hb H2 Hc Hl Ht Hn] Hm. pose proof (moves_touched _ _ _ _ _ Hm) as Hch. split; try done; try by eapply moves_block.
  - by eapply room_moves.
  - by apply (to_some _ _ _ Hch).
  - eapply moves_bytes; [exact Hm|done|within].
Qed.

Lemma putchar_run l c s : editing l s → ∃ s', User.putchar junk bits_junk eax esp c2 c s = Ok (inl c, s') ∧ moved [u8 c] (keys s) s s'.
Proof.
  intros He. destruct Hlay as [[B1 B2] C2 _ L1 L2]. unfold User.putchar.
  destruct (store_moves c2 (u8 c) s (ed_c2 _ _ He)) as (s1 & E1 & M1 & Hm). rewrite (ubind_ok _ _ _ _ _ E1).
  destruct (console_write_run junk bits_junk eax esp c2 [u8 c] s1) as (s2 & E2 & M2).
  - eapply room_moves; [apply He|exact M1].
  - lia.
  - simpl. lia.
  - intros i Hi. simpl in Hi. assert (i = 0) as -> by lia. rewrite Hm, Z.add_0_r. apply lookup_insert_eq.
  - change (len [u8 c]) with 1 in E2. rewrite (ubind_ok _ _ _ _ _ E2). exists s2. split; [done|]. change [u8 c] with ([] ++ [u8 c]).
    rewrite (moves_keys _ _ _ _ _ M1) in M2. eapply moves_trans; [exact M1|exact M2|within..].
Qed.

(** Reading a key overwrites the four bytes at [c]. *)
Lemma key_run l k ks s : editing l s → keys s = k :: ks → 0 <= k < 256 →
  ∃ r s', User.read junk bits_junk eax esp STDIN_FILENO c_ 1 s = Ok (inl r, s') ∧ moved [] ks s s' ∧ mem s' !! c_ = Some k.
Proof.
  intros He Hk Hby. destruct Hlay as [[B1 B2] C2 [C3 C4] L1 L2]. pose proof (ed_room _ _ He) as Hr.
  destruct (stub_run junk bits_junk eax esp (Read STDIN_FILENO c_ 1) s) as (m' & Hc & _ & E).
  { destruct Hr as (R0 & R1 & _). cbn [valid]. unfold PHYS_BASE, STDIN_FILENO in *. split_and!; int_lia. }
  { exact Hr. }
  cbn [stub number arguments_of] in *. change (len [SYS_READ; STDIN_FILENO; c_; 1]) with 4 in *.
  set (s1 := set_sys_esp (esp - 4 * 4) (set_mem m' s)) in *.
  destruct (store_int_run c_ k m') as (m2 & E2 & Hat & Hc2); [eapply changed_block; [exact Hc|apply He]|].
  assert (Hread : kernel junk bits_junk (Read STDIN_FILENO c_ 1) s1 = Ok (Return (if k =? 0 then 0 else 1), set_mem m2 (set_keys ks s1))).
  { cbn [kernel]. unfold Syscall.read. rewrite user_addr by lia. cbn [negb]. unfold STDIN_FILENO. rewrite (proj2 (Z.eqb_eq 0 0) eq_refl).
    change (Z.to_nat 1) with 1%nat. cbn [read_keys]. unfold input_getc.
    rewrite !bind_assoc. rewrite (bind_ok _ _ s1 (k :: ks) s1) by (unfold gets; by rewrite <- Hk). cbn [keys].
    rewrite !bind_assoc. rewrite (bind_ok _ _ s1 tt (set_keys ks s1)) by done. erewrite (bind_ok (ret k)) by reflexivity.
    rewrite !bind_assoc. rewrite (bind_ok _ _ (set_keys ks s1) tt (set_mem m2 (set_keys ks s1))) by (unfold in_mem; cbn [mem set_keys set_sys_esp set_mem s1]; by rewrite E2).
    by destruct (k =? 0). }
  rewrite (bind_ok _ _ _ _ _ Hread) in E. eexists _, _. split; [exact E|]. split.
  - exists m2, (esp - 4 * 4). split; [destruct s; cbn; by rewrite app_nil_r|]. apply changed_touched. eapply changed_trans; [exact Hc|exact Hc2|lia..].
  - cbn [mem set_mem]. pose proof (Hat 0 ltac:(done)) as H0. rewrite Z.add_0_r in H0. rewrite H0. rewrite (u32_id k) by int_lia. change (le32 k !! Z.to_nat 0) with (Some (k mod 256)). by rewrite Z.mod_small.
Qed.

Lemma editing_prefix l l2 s : editing (l ++ l2) s → editing l s.
Proof.
  intros [Hr Hb H2 Hc Hl Ht Hn]. rewrite length_app in *. split; try done; [|lia]. intros i Hi. rewrite Ht by (rewrite length_app; lia). apply lookup_app_l. lia.
Qed.

Lemma backspace_run l c s : editing (l ++ [c]) s →
  ∃ s', backspace junk bits_junk eax esp buf (line + len (l ++ [c])) line s = Ok (inl (true, line + len l), s') ∧ moved [8; 32; 8] (keys s) s s'.
Proof.
  intros He. destruct Hlay as [[B1 B2] _ _ L1 L2]. destruct (vprintf_run junk bits_junk eax esp buf [8; 32; 8] [] [8; 32; 8] s) as (s' & E & M).
  { split_and!; [apply He|lia|lia|apply He| |done]. intros i Hi. simpl in Hi. lia. }
  { reflexivity. }
  { simpl. lia. }
  exists s'. unfold backspace. rewrite (proj2 (Z.ltb_lt _ _)) by (rewrite length_app; simpl; lia). rewrite (ubind_ok _ _ _ _ _ E). split.
  - by replace (line + len (l ++ [c]) - 1) with (line + len l) by (rewrite length_app; simpl; lia).
  - eapply moves_widen; [exact M|within].
Qed.

Lemma backspace_empty s : backspace junk bits_junk eax esp buf line line s = Ok (inl (false, line), s).
Proof. unfold backspace. by rewrite Z.ltb_irrefl. Qed.

Lemma kill_line_run n l s : editing l s → (length l < n)%nat →
  ∃ s', kill_line junk bits_junk eax esp n buf (line + len l) line s = Ok (inl line, s') ∧ moved (concat (replicate (length l) [8; 32; 8])) (keys s) s s'.
Proof.
  revert l s. induction n as [|n IH]; intros l s He Hn; [lia|]. cbn [kill_line]. destruct l as [|c l _] using rev_ind.
  - change (line + len []) with (line + 0). rewrite Z.add_0_r, (ubind_ok _ _ _ _ _ (backspace_empty s)). exists s. split; [done|apply moves_refl].
  - destruct (backspace_run l c s He) as (s1 & E1 & M1). rewrite (ubind_ok _ _ _ _ _ E1). rewrite length_app in Hn. simpl in Hn.
    destruct (IH l s1) as (s2 & E2 & M2); [eapply editing_moves; [by eapply editing_prefix|exact M1]|lia|]. exists s2. split; [exact E2|].
    rewrite length_app, Nat.add_comm. cbn [length Nat.add replicate concat]. rewrite (moves_keys _ _ _ _ _ M1) in M2. eapply moves_trans; [exact M1|exact M2|within..].
Qed.

Lemma editing_add l c s s' : editing l s → len l < size - 1 → mem s' = <[line + len l := c]> (mem s) → (∀ a, is_Some (mem s !! a) → is_Some (mem s' !! a)) → editing (l ++ [c]) s'.
Proof.
  intros [Hr Hb H2 Hc Hl Ht Hn] Hs Hm Hdom. assert (Hblk : ∀ p n, block (mem s) p n → block (mem s') p n) by (intros p n H i Hi; apply Hdom, H, Hi).
  destruct Hr as (R0 & R1 & R2). split; try auto; [split_and!; auto| |rewrite length_app; simpl; lia].
  intros i Hi. rewrite length_app in Hi. simpl in Hi. rewrite Hm. destruct (decide (i = len l)) as [->|Hne].
  - rewrite lookup_insert_eq, Nat2Z.id, lookup_app_r by lia. by rewrite Nat.sub_diag.
  - rewrite lookup_insert_ne by lia. rewrite lookup_app_l by lia. apply Ht. lia.
Qed.

(** The rest of the loop, after a round that moved the process from [s] to [s1]. *)
Definition ends_with (m : U unit) (s : sys) (l' shown rest : list Z) : Prop :=
  ∃ s', m s = Ok (inl tt, s') ∧ moves (span (esp - 16) (line + size)) shown rest s s' ∧ bytes_at (mem s') line (l' ++ [0]) ∧ len l' < size.

Lemma ends_after (m : U unit) s s1 shown1 shown ks l' rest (R : Z → Prop) : moves R shown1 ks s s1 → (∀ a, R a → span (esp - 16) (line + size) a) →
  ends_with m s1 l' shown rest → ∃ s', m s1 = Ok (inl tt, s') ∧ moves (span (esp - 16) (line + size)) (shown1 ++ shown) rest s s' ∧ bytes_at (mem s') line (l' ++ [0]) ∧ len l' < size.
Proof. intros M HR (s' & E & M' & H). exists s'. split; [done|]. split; [|done]. by eapply moves_trans; [exact M|exact M'|..]. Qed.

(** The return key ends the line. *)
Lemma finish_line l s : editing l s →
  ∃ s', (user_mem (store (line + len l) 0) ;;! User.putchar junk bits_junk eax esp c2 10 ;;! uret tt) s = Ok (inl tt, s') ∧
    moves (span (esp - 16) (line + size)) [10] (keys s) s s' ∧ bytes_at (mem s') line (l ++ [0]) ∧ len l < size.
Proof.
  intros He. destruct Hlay as [[B1 B2] C2 [C3 C4] L1 L2]. pose proof (ed_len _ _ He) as Hn.
  destruct (store_moves (line + len l) 0 s) as (s1 & E1 & M1 & Hm); [apply (ed_line _ _ He); lia|]. rewrite (ubind_ok _ _ _ _ _ E1).
  assert (Ht1 : bytes_at (mem s1) line (l ++ [0])).
  { intros i Hi. rewrite length_app in Hi. simpl in Hi. rewrite Hm. destruct (decide (i = len l)) as [->|Hne].
    - rewrite lookup_insert_eq, Nat2Z.id, lookup_app_r by lia. by rewrite Nat.sub_diag.
    - rewrite lookup_insert_ne by lia. rewrite lookup_app_l by lia. apply (ed_text _ _ He). lia. }
  assert (He1 : editing l s1).
  { destruct He as [Hr Hb H2 Hc Hl Ht _]. split; try done; try by eapply moves_block.
    - by eapply room_moves.
    - apply (to_some _ _ _ (moves_touched _ _ _ _ _ M1)). done.
    - intros i Hi. rewrite Ht1 by (rewrite length_app; simpl; lia). apply lookup_app_l. lia. }
  destruct (putchar_run l 10 s1 He1) as (s2 & E2 & M2). rewrite (ubind_ok _ _ _ _ _ E2). exists s2. split; [done|]. split; [|split; [|done]].
  - change [10] with ([] ++ [u8 10]). rewrite <- (moves_keys _ _ _ _ _ M1). eapply moves_trans; [exact M1|exact M2|within..].
  - eapply moves_bytes; [exact M2|exact Ht1|within].
Qed.

(** Another key is shown and added. *)
Lemma add_key l k s : editing l s → 0 <= k < 256 → len l < size - 1 →
  ∃ s1, (∀ rest : U unit, (User.putchar junk bits_junk eax esp c2 k ;;! user_mem (store (line + len l) k) ;;! rest) s = rest s1) ∧
    moves (span (esp - 16) (line + size)) [k] (keys s) s s1 ∧ editing (l ++ [k]) s1.
Proof.
  intros He Hk Hn. destruct Hlay as [[B1 B2] C2 [C3 C4] L1 L2].
  destruct (putchar_run l k s He) as (s1 & E1 & M1). pose proof (editing_moves _ _ _ _ _ He M1) as He1.
  destruct (store_moves (line + len l) k s1) as (s2 & E2 & M2 & Hm); [apply (ed_line _ _ He1); lia|]. exists s2. split; [|split].
  - intros rest. by rewrite (ubind_ok _ _ _ _ _ E1), (ubind_ok _ _ _ _ _ E2).
  - rewrite <- (moves_keys _ _ _ _ _ M1). unfold u8 in M1. rewrite Z.mod_small in M1 by lia. rewrite <- (app_nil_r [k]). eapply moves_trans; [exact M1|exact M2|within..].
  - eapply (editing_add l k s1); [done|done|done|]. apply (to_some _ _ _ (moves_touched _ _ _ _ _ M2)).
Qed.

Lemma read_line_run ks fuel l s l' shown rest : editing l s → keys s = ks → Forall (λ k, 0 <= k < 256) ks → edit size l ks = Some (l', shown, rest) →
  (length ks <= fuel)%nat → ends_with (read_line junk bits_junk eax esp fuel buf c2 c_ line size (line + len l)) s l' shown rest.
Proof.
  revert fuel l s l' shown rest. induction ks as [|k ks IH]; intros fuel l s l' shown rest He Hk Hby Hed Hfuel; [done|].
  apply Forall_cons in Hby as [Hb Hby]. destruct fuel as [|fuel]; [simpl in Hfuel; lia|]. simpl in Hfuel. pose proof Hlay as [[B1 B2] C2 [C3 C4] L1 L2].
  destruct (key_run l k ks s He Hk Hb) as (r & s1 & E1 & M1 & Hc). pose proof (editing_moves _ _ _ _ _ He M1) as He1. pose proof (moves_keys _ _ _ _ _ M1) as Hk1.
  unfold ends_with. cbn [read_line]. rewrite (ubind_ok _ _ _ _ _ E1), (ubind_ok _ _ _ _ _ (load_run _ _ _ Hc)). cbn [edit] in Hed.
  change shown with ([] ++ shown). apply (ends_after _ s s1 [] shown ks l' rest (span (esp - 16) line) M1 ltac:(within)). unfold ends_with. clear E1 M1 Hc.
  destruct (k =? 13).
  { injection Hed as <- <- <-. rewrite <- Hk1. by apply finish_line. }
  destruct (k =? 8).
  { destruct l as [|c l _] using rev_ind.
    - change (line + len []) with (line + 0). rewrite Z.add_0_r, (ubind_ok _ _ _ _ _ (backspace_empty s1)).
      specialize (IH fuel [] s1 l' shown rest He1 Hk1 Hby Hed ltac:(lia)). by rewrite Z.add_0_r in IH.
    - assert (Hed' : ∃ sh, edit size l ks = Some (l', sh, rest) ∧ shown = [8; 32; 8] ++ sh).
      { rewrite removelast_last in Hed. destruct (l ++ [c]) eqn:El; [by destruct l|]. by apply edit_shows in Hed. }
      destruct Hed' as (sh & Hed' & ->). destruct (backspace_run l c s1 He1) as (s2 & E2 & M2). rewrite (ubind_ok _ _ _ _ _ E2). rewrite Hk1 in M2.
      eapply ends_after; [exact M2|within|]. apply IH; [eapply editing_moves; [by eapply editing_prefix|exact M2]|by eapply moves_keys|done|done|lia]. }
  destruct (k =? 21).
  { apply edit_shows in Hed as (sh & Hed & ->). destruct (kill_line_run (S (Z.to_nat size)) l s1 He1) as (s2 & E2 & M2); [pose proof (ed_len _ _ He1); lia|].
    rewrite (ubind_ok _ _ _ _ _ E2). rewrite Hk1 in M2. eapply ends_after; [exact M2|within|].
    assert (He2 : editing [] s2) by (apply (editing_prefix [] l); by eapply editing_moves; [exact He1|exact M2]).
    specialize (IH fuel [] s2 l' sh rest He2 (moves_keys _ _ _ _ _ M2) Hby Hed ltac:(lia)). by rewrite Z.add_0_r in IH. }
  destruct (Z.ltb_spec (len l) (size - 1)) as [Hn|Hn].
  - apply edit_shows in Hed as (sh & Hed & ->). rewrite (proj2 (Z.ltb_lt _ _)) by lia.
    destruct (add_key l k s1 He1 Hb Hn) as (s2 & E2 & M2 & He2). rewrite E2. rewrite Hk1 in M2. eapply ends_after; [exact M2|within|].
    replace (line + len l + 1) with (line + len (l ++ [k])) by (rewrite length_app; simpl; lia). apply IH; [done|by eapply moves_keys|done|done|lia].
  - rewrite (proj2 (Z.ltb_ge _ _)) by lia. by apply IH; [..|lia].
Qed.
End editor.

(** The shell's editor.  When the keys that come contain a return key, read_line returns with
    the characters before it in the line, edited as [edit] says (backspace takes the last
    character back, Ctrl+U all, and what does not fit is dropped), terminated, within its
    room; it shows on the console exactly the echo [edit] says; it takes no key after the
    return key; and it changes no memory outside the line, the variables below it and the pushed words. *)
Theorem read_line_edits junk bits_junk eax esp buf c2 c_ line size s l shown rest fuel :
  layout esp buf c2 c_ line size → editing esp buf c2 c_ line size [] s → Forall (λ k, 0 <= k < 256) (keys s) →
  edit size [] (keys s) = Some (l, shown, rest) → (length (keys s) <= fuel)%nat →
  ∃ s', read_line junk bits_junk eax esp fuel buf c2 c_ line size line s = Ok (inl tt, s') ∧
    bytes_at (mem s') line (l ++ [0]) ∧ len l < size ∧ console s' = console s ++ shown ∧ keys s' = rest ∧
    (∀ a, ¬ (esp - 16 <= a < line + size) → mem s' !! a = mem s !! a).
Proof.
  intros Hlay He Hb Hed Hf. destruct (read_line_run junk bits_junk eax esp buf c2 c_ line size Hlay (keys s) fuel [] s l shown rest He eq_refl Hb Hed Hf)
    as (s' & E & M & Ht & Hn).
  rewrite Z.add_0_r in E. exists s'. split; [exact E|]. split; [done|]. split; [done|]. split; [by eapply moves_console|]. split; [by eapply moves_keys|]. apply (to_out _ _ _ (moves_touched _ _ _ _ _ M)).
Qed.

(** ** A program *)

Lemma accessible_block m p n : accessible m p n = true → block m p n.
Proof.
  intros H i Hi. unfold accessible in H. rewrite forallb_forall in H. specialize (H (p + i)). apply bool_decide_eq_true in H; [done|].
  apply list_elem_of_In, elem_of_seqZ. lia.
Qed.

(** A process with 300 bytes of stack from 8000 on, and keys that spell "lx", backspace, "s",
    return, and one more. *)
Definition shell_sys : sys := set_keys [108; 120; 8; 115; 13; 120] (set_mem (list_to_map (zip (seqZ 8000 300) (replicate 300 0))) sample_sys).

Lemma stub_reaches_kernel_witness : ∃ m', words m' 8080 [SYS_MAXOFFOURINT; 3; -9; 12; 7] ∧
  stub [] [] 0 8100 (Max_of_four_int 3 (-9) 12 7) shell_sys = Ok (inl 12, set_sys_esp 8080 (set_mem m' shell_sys)).
Proof.
  destruct (stub_reaches_kernel [] [] 0 8100 (Max_of_four_int 3 (-9) 12 7) shell_sys) as (m' & _ & Hw & E).
  - cbn [valid]. unfold in_s32. lia.
  - split_and!; [cbn; lia|unfold PHYS_BASE; lia|]. apply accessible_block. vm_compute. reflexivity.
  - exists m'. split; [exact Hw|]. rewrite E. reflexivity.
Defined.

(** Seventy characters and a number. *)
Lemma printf_reaches_console_witness : ∃ m e, User.vprintf [] [] 0 8100 8100 (replicate 70 46 ++ chars "%d") [I32 42] shell_sys =
  Ok (inl 72, set_console (replicate 70 46 ++ [52; 50]) (set_keys (keys shell_sys) (set_sys_esp e (set_mem m shell_sys)))).
Proof.
  destruct (printf_reaches_console [] [] 0 8100 8100 (replicate 70 46 ++ chars "%d") [I32 42] (replicate 70 46 ++ [52; 50]) shell_sys) as (m & e & E & _).
  - split_and!; [lia|unfold PHYS_BASE; lia|]. apply accessible_block. vm_compute. reflexivity.
  - lia.
  - unfold PHYS_BASE. lia.
  - apply accessible_block. vm_compute. reflexivity.
  - vm_compute. reflexivity.
  - simpl. lia.
  - exists m, e. exact E.
Defined.

Lemma read_line_edits_witness : ∃ s', read_line [] [] 0 8100 6 8100 8164 8168 8172 80 8172 shell_sys = Ok (inl tt, s') ∧
  bytes_at (mem s') 8172 [108; 115; 0] ∧ console s' = [108; 120; 8; 32; 8; 115; 10] ∧ keys s' = [120].
Proof.
  destruct (read_line_edits [] [] 0 8100 8100 8164 8168 8172 80 shell_sys [108; 115] [108; 120; 8; 32; 8; 115; 10] [120] 6) as (s' & E & Ht & _ & Hc & Hk & _).
  - split; unfold PHYS_BASE; lia.
  - split; try (apply accessible_block; vm_compute; reflexivity).
    + split_and!; [lia|unfold PHYS_BASE; lia|]. apply accessible_block. vm_compute. reflexivity.
    + exists 0. vm_compute. reflexivity.
    + intros i Hi. simpl in Hi. lia.
    + simpl. lia.
  - repeat constructor; lia.
  - vm_compute. reflexivity.
  - simpl. lia.
  - exists s'. split; [exact E|]. split; [exact Ht|]. split; [exact Hc|exact Hk].
Defined.
