(* ===== verification/VmPages.v ===== *)
(** * Page tables beside the other pages of memory (src/userprog/pagedir.c)

    Which pages a directory is made of, and what the operations that bring in a page do
    to all the other pages: nothing. *)

From S2P Require Import Prelude Bitmap Palloc Pagedir PagedirSpec.
Local Open Scope Z_scope.

(** The directory and its user page tables. *)
Definition pd_page (pd : Z) (ws : list Z) (a : Z) : Prop :=
  a = pd ∨ ∃ k w, 0 <= k < 768 ∧ ws !! Z.to_nat k = Some w ∧ w ≠ 0 ∧ a = pt_of w.

Lemma pd_page_used s pd ws a : pd_ok s pd ws → pd_page pd ws a → allocated (pal s) a = true.
Proof.
  intros H [->|(k & w & Hk & Hw & Hne & ->)]; [apply H|]. by destruct (po_entry _ _ _ H k w Hk Hw Hne) as [_ [_ _ ? _]].
Qed.

Lemma table_of_page s pd ws va t : pd_ok s pd ws → user va → table_of (ram (pal s)) pd va = Some t → pd_page pd ws t.
Proof.
  intros H Hu Ht. destruct (dir_word s pd ws va H Hu) as [w Hw]. rewrite (table_of_word s pd ws va w H Hw) in Ht.
  destruct (Z.eqb_spec w 0); [done|]. injection Ht as <-. right. exists (va / 2 ^ 22), w. split_and!; try done; by apply user_pd_no.
Qed.

(** A directory whose pages are kept is kept, and so are its entries. *)
Lemma pd_ok_kept s s' pd ws :
  pd_ok s pd ws → palloc_wf (pal s') → base (kernel_pool (pal s')) = base (kernel_pool (pal s)) → cr3 s' = cr3 s →
  (∀ a, allocated (pal s) a = true → allocated (pal s') a = true) →
  (∀ a, pd_page pd ws a → ram (pal s') !! a = ram (pal s) !! a) →
  pd_ok s' pd ws ∧
  (∀ va, user va → table_of (ram (pal s')) pd va = table_of (ram (pal s)) pd va ∧ entry_of (ram (pal s')) pd va = entry_of (ram (pal s)) pd va).
Proof.
  intros H Hwf Hb Hc Ha Hr. assert (Hpd : ram (pal s') !! pd = ram (pal s) !! pd) by (apply Hr; by left). split.
  - destruct H as [H1 H2 H3 H4 H5 H6 H7 H8 H9]. split; try done; [by rewrite Hb|by rewrite Hc|by apply Ha|by rewrite Hpd|].
    intros k w Hk Hw Hne. destruct (H8 k w Hk Hw Hne) as [E [T1 T2 T3 T4]]. split; [done|]. split; try done; [by apply Ha|].
    rewrite Hr; [done|]. right. eauto 10.
  - intros va Hu. assert (Et : table_of (ram (pal s')) pd va = table_of (ram (pal s)) pd va) by (unfold table_of; by rewrite Hpd).
    split; [done|]. unfold entry_of. rewrite Et. destruct (table_of (ram (pal s)) pd va) as [t|] eqn:E; simpl; [|done].
    rewrite Hr; [done|]. by eapply table_of_page.
Qed.

(** ** Mapping a page *)

(** What an operation on the page tables leaves alone. *)
Record pages_kept (pd : Z) (ws ws' : list Z) (s s' : mmu) : Prop := {
  pk_ram : ∀ a, allocated (pal s) a = true → ¬ pd_page pd ws a → ram (pal s') !! a = ram (pal s) !! a;
  pk_new : ∀ a, pd_page pd ws' a → pd_page pd ws a ∨ allocated (pal s) a = false;
  pk_kernel : ∀ k, 768 <= k → ws' !! Z.to_nat k = ws !! Z.to_nat k;
  pk_mono : ∀ a, allocated (pal s) a = true → allocated (pal s') a = true;
  pk_pool : user_pool (pal s') = user_pool (pal s);
  pk_cr3 : cr3 s' = cr3 s;
  pk_init : init_page_dir s' = init_page_dir s ∧ init_ram_pages s' = init_ram_pages s
}.

Lemma pages_kept_refl pd ws s : pages_kept pd ws ws s s.
Proof. split; try done. intros a Ha. by left. Qed.

(** Writing one word of a page. *)
Lemma write_word_ram s page idx w u s' :
  write_word page idx w s = Ok (u, s') →
  ∃ ws, s' = set_pal (set_ram (<[page := ws]> (ram (pal s))) (pal s)) s.
Proof. unfold write_word. destruct (ram (pal s) !! page); [|done]. destruct (_ <? _); [|done]. intros [= _ <-]. eauto. Qed.

Lemma pages_kept_write pd ws ws' s s1 page idx w u s' :
  pages_kept pd ws ws' s s1 → (pd_page pd ws page ∨ allocated (pal s) page = false) → write_word page idx w s1 = Ok (u, s') →
  pages_kept pd ws ws' s s'.
Proof.
  intros [K1 K2 K3 K4 K5 K6 K7] Hpage E. apply write_word_ram in E as (ws1 & ->). split; try done.
  intros a Ha Hn. simpl. rewrite lookup_insert_ne; [by apply K1|]. intros ->. destruct Hpage as [|Hf]; [done|by rewrite Hf in Ha].
Qed.

Lemma palloc_zero_user_pool s pg s' : palloc_get_page PAL_ZERO s = Ok (pg, s') → user_pool s' = user_pool s.
Proof.
  unfold palloc_get_page, palloc_get_multiple. intros E. cbn [Z.eqb] in E. apply bind_inv in E as (i & s1 & E1 & E2).
  assert (Hb : user_pool s1 = user_pool s).
  { unfold take_pages, bind, gets, modify, lift, ret in E1. change (flag PAL_ZERO PAL_USER) with false in E1.
    destruct (bitmap_scan_and_flip _ _ _ _) as [[idx used]|]; [|done]. by injection E1 as _ <-. }
  rewrite <- Hb. unfold deliver_pages, bind, gets in E2.
  change (flag PAL_ZERO PAL_ZERO) with true in E2. change (flag PAL_ZERO PAL_ASSERT) with false in E2.
  destruct (_ =? NULL) in E2; by injection E2 as <- <-.
Qed.

(** Creating the page table, with the pages it leaves alone. *)
Lemma lookup_page_create_kept s pd ws va s' t :
  pd_ok s pd ws → user va → lookup_page pd va true s = Ok (Some t, s') →
  ∃ ws', ram (pal s') !! pd = Some ws' ∧ pages_kept pd ws ws' s s'.
Proof.
  intros H Hu E. destruct (dir_word s pd ws va H Hu) as [w Hw].
  destruct (decide (w = 0)) as [->|Hne].
  2: { rewrite (lookup_page_found s pd ws va true w H Hu Hw Hne) in E. injection E as <- <-. exists ws.
       split; [apply H|apply pages_kept_refl]. }
  assert (Hr : read_word pd (pd_no va) s = Ok (0, s)) by (rewrite pd_no_div; eapply read_word_ok; [apply H|done]).
  assert (Epg : pd ≠ NULL) by (destruct (po_page _ _ _ H); unfold NULL, PHYS_BASE in *; lia).
  unfold lookup_page in E. rewrite (proj2 (Z.eqb_neq _ _) Epg), user_vaddr in E by done. cbn [negb assert orb] in E.
  do 2 erewrite bind_ok in E by reflexivity. rewrite (bind_ok _ _ _ _ _ Hr) in E. cbn [Z.eqb] in E.
  destruct (new_table s pd ws H) as [(p' & pt & Ep & Hwf & Hb & Hpg & Hf & Hus & Hmono & Hram)|[_ Ep]].
  2: { unfold bind, in_pal in E. by rewrite Ep in E. }
  assert (Hptne : pt ≠ pd) by (intros ->; rewrite (po_used _ _ _ H) in Hf; done).
  exists (<[Z.to_nat (va / 2 ^ 22) := pt - PHYS_BASE + 7]> ws).
  assert (Es : s' = set_pal (set_ram (<[pd := <[Z.to_nat (va / 2 ^ 22) := pt - PHYS_BASE + 7]> ws]> (ram p')) p') s).
  { unfold bind, in_pal in E. rewrite Ep in E. rewrite (proj2 (Z.eqb_neq pt NULL)) in E by (destruct Hpg; unfold NULL, PHYS_BASE in *; lia).
    rewrite pde_create_ok in E by done. cbn [lift] in E. rewrite pd_no_div in E. unfold write_word in E. simpl (ram _) in E.
    rewrite Hram, lookup_insert_ne, (po_words _ _ _ H) in E by done. pose proof (user_pd_no va Hu).
    rewrite (proj2 (Z.ltb_lt _ _)) in E by (rewrite (po_length _ _ _ H); lia). rewrite <- Hram in E. unfold ret in E.
    destruct (read_word _ _ _) as [[e s1]|] eqn:Er in E; [|done]. assert (s1 = set_pal (set_ram (<[pd := <[Z.to_nat (va / 2 ^ 22) := pt - PHYS_BASE + 7]> ws]> (ram p')) p') s) as ->.
    { unfold read_word in Er. destruct (_ ≫= _) in Er; [|done]. by injection Er as _ <-. }
    unfold lift in E. destruct (pde_get_pt e); [|done]. by injection E as _ <-. }
  rewrite Es. split; [apply lookup_insert_eq|]. split; simpl; try done.
  - intros a Ha Hn. assert (a ≠ pd) by (intros ->; apply Hn; by left).
    rewrite lookup_insert_ne, Hram, lookup_insert_ne; [done|intros ->; by rewrite Hf in Ha|done].
  - intros a [->|(k & w & Hk & Hw' & Hne & ->)]; [left; by left|]. destruct (decide (k = va / 2 ^ 22)) as [->|Hd].
    + right. rewrite list_lookup_insert_eq in Hw' by by eapply lookup_lt_Some. injection Hw' as <-. by rewrite pt_of_pde.
    + left. right. exists k, w. pose proof (user_pd_no va Hu). rewrite list_lookup_insert_ne in Hw' by lia. done.
  - intros k Hk. pose proof (user_pd_no va Hu). rewrite list_lookup_insert_ne; [done|lia].
  - by eapply palloc_zero_user_pool.
Qed.

(** [pagedir_set_page] by entries and pages. *)
Lemma set_page_run s pd ws upage kpage writable :
  pd_ok s pd ws → user upage → upage mod 4096 = 0 → kernel_page kpage →
  (kpage - PHYS_BASE) / 4096 < init_ram_pages s → pd ≠ init_page_dir s →
  Z.odd (entry_of (ram (pal s)) pd upage) = false →
  (∃ s' ws', pagedir_set_page pd upage kpage writable s = Ok (true, s') ∧ pd_ok s' pd ws' ∧ pages_kept pd ws ws' s s' ∧
     ∀ va, user va → entry_of (ram (pal s')) pd va =
       if decide (va / 4096 = upage / 4096) then user_entry kpage writable else entry_of (ram (pal s)) pd va) ∨
  (¬ run_free (kernel_pool (pal s)) 1 ∧ pagedir_set_page pd upage kpage writable s = Ok (false, s)).
Proof.
  intros H Hu Hal Hk Hram Hinit Hodd. destruct (user_entry_valid kpage writable Hk) as (Hev & _).
  unfold pagedir_set_page. rewrite !pg_ofs_mod, Hal, (proj2 Hk), user_vaddr, vtop_ok by (done || apply Hk).
  unfold bind, gets, lift. cbn [assert Z.eqb]. unfold ret. cbv beta iota.
  rewrite Z.shiftr_div_pow2 by (unfold PTSHIFT; lia). change (2 ^ PTSHIFT) with 4096.
  rewrite (proj2 (Z.ltb_lt _ _) Hram). cbv beta iota delta [assert ret]. rewrite (proj2 (Z.eqb_neq _ _) Hinit). cbn [negb]. cbv beta iota.
  destruct (lookup_page_create s pd ws upage H Hu) as [(s1 & ws1 & pt & E & H1 & _ & Ht & He)|[Hno E]]; [left|right; by rewrite E].
  destruct (lookup_page_create_kept s pd ws upage s1 _ H Hu E) as (ws1' & Hws1 & Hkept).
  assert (ws1' = ws1) as -> by (rewrite (po_words _ _ _ H1) in Hws1; congruence).
  rewrite E. destruct (entry_read s1 pd ws1 upage pt H1 Hu Ht) as (_ & _ & Hr). rewrite Hr, He, flag_odd, Hodd by done. cbn [negb]. cbv beta iota.
  rewrite pte_create_user_ok by done. destruct (entry_write s1 pd ws1 upage pt _ H1 Hu Ht Hev) as (s2 & Ew & H2 & _ & _ & _ & He2).
  rewrite Ew. exists s2, ws1. split_and!; [done|done| |].
  - eapply pages_kept_write; [done| |done]. by apply (pk_new _ _ _ _ _ Hkept), (table_of_page s1 pd ws1 upage).
  - intros va Hva. rewrite He2, He by done. done.
Qed.

(** ** Kernel addresses

    The directory maps the pages of the user pool in the kernel's half, through page
    tables that it does not own. *)
Definition kernel_map_ok (s : mmu) (pd : Z) (ws : list Z) : Prop :=
  ∀ f, in_pool (user_pool (pal s)) f = true →
    ∃ w kws, PHYS_BASE <= f < 2 ^ 32 ∧ ws !! Z.to_nat (f / 2 ^ 22) = Some w ∧ Z.odd w = true ∧ pte_valid w ∧
      ram (pal s) !! pt_of w = Some kws ∧ length kws = 1024%nat ∧
      allocated (pal s) (pt_of w) = true ∧ ¬ pd_page pd ws (pt_of w).

(** Changing a status bit of a kernel address changes one kernel page table only. *)
Lemma put_kernel_run s pd ws f k :
  pd_ok s pd ws → kernel_map_ok s pd ws → in_pool (user_pool (pal s)) f = true →
  ∃ s' kt, pagedir_put (2 ^ k) pd f false s = Ok (tt, s') ∧ pd_ok s' pd ws ∧ allocated (pal s) kt = true ∧ ¬ pd_page pd ws kt ∧
    (∀ va, user va → entry_of (ram (pal s')) pd va = entry_of (ram (pal s)) pd va) ∧
    (∀ a, a ≠ kt → ram (pal s') !! a = ram (pal s) !! a) ∧
    kernel_pool (pal s') = kernel_pool (pal s) ∧ user_pool (pal s') = user_pool (pal s) ∧
    (∃ w kws, ws !! Z.to_nat (f / 2 ^ 22) = Some w ∧ kt = pt_of w ∧ ram (pal s') !! kt = Some kws ∧ length kws = 1024%nat) ∧
    cr3 s' = cr3 s ∧ init_page_dir s' = init_page_dir s ∧ init_ram_pages s' = init_ram_pages s.
Proof.
  intros H Hmap Hf. destruct (Hmap f Hf) as (w & kws & Hk & Hw & Hodd & Hv & Hkt & Hkl & Hused & Hnot).
  assert (Hr : read_word pd (pd_no f) s = Ok (w, s)) by (rewrite pd_no_div; eapply read_word_ok; [apply H|done]).
  assert (Epg : pd ≠ NULL) by (destruct (po_page _ _ _ H); unfold NULL, PHYS_BASE in *; lia).
  assert (Hw0 : w ≠ 0) by (intros ->; done).
  assert (Hpt : pde_get_pt w = Ok (pt_of w)).
  { unfold pde_get_pt, rassert. rewrite flag_odd, Hodd. cbn [rbind]. rewrite land_pte_addr by by apply valid_u32.
    rewrite ptov_ok; [done|]. unfold pte_valid, PHYS_BASE in *. mod_lia. }
  assert (El : lookup_page pd f false s = Ok (Some (pt_of w, pt_no f), s)).
  { unfold lookup_page. rewrite (proj2 (Z.eqb_neq _ _) Epg). cbn [negb assert orb]. do 2 erewrite bind_ok by reflexivity.
    rewrite (bind_ok _ _ _ _ _ Hr), (proj2 (Z.eqb_neq _ _) Hw0). erewrite bind_ok by reflexivity. cbv iota.
    rewrite (bind_ok _ _ _ _ _ Hr), Hpt. done. }
  destruct (lookup_lt_is_Some_2 kws (Z.to_nat (pt_no f))) as [e He]; [rewrite Hkl, pt_no_mod; mod_lia|].
  set (e' := Z.land e (u32 (Z.lnot (2 ^ k)))). set (s1 := put_word (pt_of w) (pt_no f) e' kws s).
  assert (Ew : write_word (pt_of w) (pt_no f) e' s = Ok (tt, s1)).
  { unfold write_word. rewrite Hkt, (proj2 (Z.ltb_lt _ _)); [done|]. apply lookup_lt_Some in He. rewrite pt_no_mod in *. mod_lia. }
  assert (Hram : ∀ a, a ≠ pt_of w → ram (pal s1) !! a = ram (pal s) !! a) by (intros a Ha; simpl; by rewrite lookup_insert_ne).
  destruct (pd_ok_kept s s1 pd ws H) as [H1 He1]; try done.
  { by destruct (po_pal _ _ _ H). }
  { intros a Ha. apply Hram. by intros ->. }
  destruct (invalidate_run s1 pd ws H1) as (Ei & H2 & Ep). exists (flushed pd s1), (pt_of w). rewrite Ep.
  split; [|split_and!; try done].
  - unfold pagedir_put. rewrite (bind_ok _ _ _ _ _ El), (bind_ok _ _ _ _ _ (read_word_ok s _ _ _ _ Hkt He)). fold e'.
    by rewrite (bind_ok _ _ _ _ _ Ew).
  - intros va Hu. by apply He1.
  - exists w, (<[Z.to_nat (pt_no f) := e']> kws). split_and!; [done..| |by rewrite length_insert]. simpl. apply lookup_insert_eq.
  - unfold flushed. by destruct (_ =? pd).
  - unfold flushed. by destruct (_ =? pd).
  - unfold flushed. by destruct (_ =? pd).
Qed.

(** ** Taking a page of the user pool *)

Lemma palloc_user_page s pd ws :
  pd_ok s pd ws → run_free (user_pool (pal s)) 1 →
  ∃ f p', palloc_get_page (Z.lor PAL_USER PAL_USER) (pal s) = Ok (f, p') ∧ f ≠ NULL ∧ f mod 4096 = 0 ∧ in_pool (user_pool (pal s)) f = true ∧
    palloc_wf p' ∧ ram p' = ram (pal s) ∧ kernel_pool p' = kernel_pool (pal s) ∧ allocated (pal s) f = false ∧
    (∀ a, allocated p' a = if in_pages f 1 a then true else allocated (pal s) a) ∧ (∀ a, in_pool (user_pool p') a = in_pool (user_pool (pal s)) a) ∧
    PHYS_BASE <= f < 2 ^ 32.
Proof.
  intros H Hfree. pose proof (po_pal _ _ _ H) as Hwf. destruct (palloc_get_multiple_run PAL_USER 1 (pal s) Hwf ltac:(lia))
    as [(p' & f & E & Hne & Hwf' & Hin & Hused & Hal & Hnew & _)|[Hno _]]; [|by destruct Hno].
  change (flag PAL_USER PAL_USER) with true in *. cbn [get_pool] in *. exists f, p'.
  assert (Ht : ∃ used, p' = mk_palloc (kernel_pool (pal s)) (mk_pool used (base (user_pool (pal s)))) (ram (pal s)) ∧ bit_cnt used = bit_cnt (used_map (user_pool (pal s)))).
  { unfold palloc_get_multiple in E. cbn [Z.eqb] in E. apply bind_inv in E as (i & p1 & E1 & E2).
    assert (p1 = p') as <-. { unfold deliver_pages, bind, gets in E2. change (flag PAL_USER PAL_ZERO) with false in E2.
      change (flag PAL_USER PAL_ASSERT) with false in E2. destruct (negb _) in E2; by injection E2. }
    unfold take_pages, bind, gets, modify, lift, ret in E1. change (flag PAL_USER PAL_USER) with true in E1. cbn [get_pool] in E1.
    destruct (bitmap_scan_and_flip _ _ _ _) as [[idx used]|] eqn:Eb; [|done]. injection E1 as _ <-. exists used. split; [done|].
    destruct (bitmap_scan_and_flip_spec (used_map (user_pool (pal s))) 0 1 false) as (r & b' & Eb' & _ & _ & Hc & _);
      [apply Hwf|pose proof (wf_cnt _ (pw_map _ (aw_user _ Hwf))); lia|lia|]. rewrite Eb in Eb'. by injection Eb' as -> ->. }
  destruct Ht as (used & -> & Hc). pose proof (proj1 (in_pages_iff _ _ _) Hin) as Hr.
  pose proof (pw_high _ (aw_user _ Hwf)). pose proof (aw_disjoint _ Hwf). pose proof (po_base _ _ _ H). pose proof (wf_cnt _ (pw_map _ (aw_kernel _ Hwf))).
  split_and!; try done; try lia.
  - by destruct Hused.
  - apply Hnew, in_pages_iff. lia.
  - intros a. unfold in_pool. simpl. by rewrite Hc.
Qed.
