(* ===== verification/VmSpec.v ===== *)
(** * Paging in (src/vm/page.c, frame.c, swap.c)

    What [load_page] does in a well-formed state, from the contracts of the components
    it calls: the page allocator, the page tables, the hash tables, the swap device and
    the file system. *)

From S2P Require Import Prelude Bitmap Palloc Swap Pagedir PagedirSpec Hash HashSpec Inode Filesys Vm VmPages.
Local Open Scope Z_scope.

(** The frame table's functions are those of the supplemental page tables. *)
Lemma frame_funcs : frame_hash_func = spte_hash_func ∧ frame_less_func = spte_less_func.
Proof. done. Qed.

(** ** Bytes and words of a page *)

Definition is_byte (b : Z) : Prop := 0 <= b < 256.

Lemma le32_from_le32 b0 b1 b2 b3 rest :
  is_byte b0 → is_byte b1 → is_byte b2 → is_byte b3 → le32 (from_le32 (b0 :: b1 :: b2 :: b3 :: rest)) = [b0; b1; b2; b3].
Proof. unfold is_byte, le32, from_le32. intros. repeat f_equal; mod_lia. Qed.

Lemma bytes_words_of n bs : length bs = (4 * n)%nat → Forall is_byte bs → concat (le32 <$> words_of n bs) = bs.
Proof.
  revert bs. induction n as [|n IH]; intros bs Hl Hb; [by destruct bs|].
  destruct bs as [|b0 [|b1 [|b2 [|b3 bs]]]]; simpl in Hl; try lia.
  do 4 (apply Forall_cons in Hb as [? Hb]). change (words_of (S n) (b0 :: b1 :: b2 :: b3 :: bs)) with (from_le32 (b0 :: b1 :: b2 :: b3 :: bs) :: words_of n bs).
  rewrite fmap_cons, concat_cons, le32_from_le32 by done. rewrite IH; [done|lia|done].
Qed.

Lemma length_word_bytes ws : length (concat (le32 <$> ws)) = (4 * length ws)%nat.
Proof. induction ws as [|w ws IH]; [done|]. rewrite fmap_cons, concat_cons, length_app, IH. simpl. lia. Qed.

Lemma word_bytes ws : Forall is_byte (concat (le32 <$> ws)).
Proof.
  induction ws as [|w ws IH]; [constructor|]. rewrite fmap_cons, concat_cons. apply Forall_app. split; [|done].
  unfold le32, is_byte. repeat constructor; mod_lia.
Qed.

Lemma length_words_of n bs : length (words_of n bs) = n.
Proof. revert bs. induction n; intros bs; [done|]. simpl. by f_equal. Qed.

(** ** Well-formed states *)

Record vm_ok (s : vmem) (pd supt : Z) (ws : list Z) (t : table page_elem) : Prop := {
  vo_pd : pd_ok (mm s) pd ws;
  vo_kmap : kernel_map_ok (mm s) pd ws;
  vo_init : pd ≠ init_page_dir (mm s);
  vo_ram : ∀ f, in_pool (user_pool (pal (mm s))) f = true → f mod 4096 = 0 →
    (f - PHYS_BASE) / 4096 < init_ram_pages (mm s) ∧ ∃ l, page_ram s !! f = Some l ∧ length l = 1024%nat;
  vo_lock : frame_lock (fr s) = false;
  vo_map : hash_wf (frame_map (fr s)) ∧ Z.of_nat (length (contents (frame_map (fr s)))) + 1 < 2 ^ 32;
  vo_frames : ∀ k el, to_map (frame_map (fr s)) !! k = Some el → allocated (pal (mm s)) k = true;
  vo_supt : supts (pt s) !! supt = Some t ∧ hash_wf t;
  vo_swap : swap_wf (sw s)
}.

(** What the page of entry [e] must contain, given where it is kept. *)
Inductive backing (s : vmem) (e : spte) : list Z → Prop :=
| backing_zero : status e = ALL_ZERO → backing s e (replicate PAGE_WORDS 0)
| backing_swap l :
    status e = ON_SWAP → 0 <= swap_index e < swap_size (sw s) → slot_free (sw s) (swap_index e) = false →
    slot_holds (sw s) (swap_index e) l → length l = 1024%nat → backing s e l
| backing_file fl i bytes :
    status e = FROM_FILESYS → sp_file e ≠ NULL → files (fs s) !! sp_file e = Some fl → inodes (fs s) !! f_inode fl = Some i →
    inode_ok (fs s) i → plenty (fs s) → 0 <= file_offset e → 0 <= read_bytes e → 0 <= zero_bytes e →
    read_bytes e + zero_bytes e = 4096 → file_offset e + read_bytes e <= length_ (data i) →
    Z.of_nat (length bytes) = read_bytes e → Forall is_byte bytes → slice_of (disk (fs s)) (start (data i)) (file_offset e) bytes →
    backing s e (words_of 1024 (bytes ++ replicate (Z.to_nat (zero_bytes e)) 0)).

Definition writable_of (e : spte) : bool := if decide (status e = FROM_FILESYS) then writable e else true.

(** ** Small steps *)

Lemma frames_acquire_run s : frame_lock (fr s) = false → acquire_frames s = Ok (tt, set_fr (set_lock true (fr s)) s).
Proof. intros H. unfold acquire_frames, bind, gets, assert, fr_modify, modify. by rewrite H. Qed.

Lemma frames_release_run s : frame_lock (fr s) = true → release_frames s = Ok (tt, set_fr (set_lock false (fr s)) s).
Proof. intros H. unfold release_frames, bind, gets, assert, fr_modify, modify. by rewrite H. Qed.

Lemma supt_lookup_run s supt t page :
  supts (pt s) !! supt = Some t → hash_wf t →
  supt_lookup supt page s = Ok (match to_map t !! page with Some e => e.1 | None => NULL end, s).
Proof.
  intros Hs Hwf. unfold supt_lookup, get_supt. rewrite (bind_ok _ _ _ t s) by by rewrite Hs.
  rewrite (hash_find_map t (NULL, page) Hwf). done.
Qed.

(** Entering a page into a supplemental page table. *)
Lemma contents_size (t : table page_elem) : hash_wf t → length (contents t) = size (to_map t).
Proof.
  intros Hwf. unfold to_map, by_key. rewrite map_size_list_to_map by (rewrite fst_by_key; apply (hw_keys _ Hwf)).
  by rewrite length_fmap.
Qed.

Definition entered (supt : Z) (t : table page_elem) (a : Z) (e : spte) (rest : list Z) (s : vmem) : vmem :=
  set_allocs rest (set_pt (mk_pts (<[supt := t]> (supts (pt s))) (<[a := e]> (sptes (pt s)))) s).

Lemma malloc_run s a rest : allocs s = a :: rest → Vm.malloc s = Ok (a, set_allocs rest s).
Proof. intros H. unfold Vm.malloc. by rewrite H. Qed.

Lemma install_run s supt t a e rest :
  supts (pt s) !! supt = Some t → hash_wf t → Z.of_nat (size (to_map t)) + 1 < 2 ^ 32 → to_map t !! upage e = None → a ≠ NULL →
  ∃ t', install supt a e (set_allocs rest s) = Ok (true, entered supt t' a e rest s) ∧
    hash_wf t' ∧ to_map t' = <[upage e := (a, upage e)]> (to_map t).
Proof.
  intros Hs Hwf Hsz Hno Ha. rewrite <- (contents_size t Hwf) in Hsz.
  destruct (hash_insert_map (bucket_mem s) t (a, upage e) Hwf Hsz) as (t' & Ei & Hwf' & Hmap & _).
  cbn [key page_client snd] in Ei, Hmap. rewrite Hno in Ei, Hmap. exists t'. split_and!; try done.
  unfold install. rewrite (proj2 (Z.eqb_neq _ _) Ha).
  erewrite bind_ok by reflexivity; unfold get_supt; rewrite (bind_ok _ _ _ t _) by (simpl; by rewrite Hs);
    unfold gets; erewrite bind_ok by reflexivity; unfold lift; simpl; rewrite Ei.
  unfold entered. by destruct s.
Qed.

Lemma in_mm_ok {A} (m : M mmu A) s a x : m (mm s) = Ok (a, x) → in_mm m s = Ok (a, set_mm x s).
Proof. intros E. unfold in_mm. by rewrite E. Qed.

Lemma in_pal_ok {A} (m : M palloc_state A) s a x : m (pal s) = Ok (a, x) → in_pal m s = Ok (a, set_pal x s).
Proof. intros E. unfold in_pal. by rewrite E. Qed.

(** The state after a frame was taken for [upage]. *)
Definition with_frame (f frame upage : Z) (p : palloc_state) (map : table page_elem) (rest : list Z) (s : vmem) : vmem :=
  mk_vm (set_pal p (mm s)) (fs s) (sw s)
    (mk_frames false map (frame_list (fr s) ++ [f]) (clock_ptr (fr s)) (<[f := mk_fte frame upage (current s) true]> (ftes (fr s))))
    (pt s) (procs s) (current s) rest (bucket_mem s) (heap_junk s).

Lemma frame_allocate_run s pd supt ws t up f rest :
  vm_ok s pd supt ws t → run_free (user_pool (pal (mm s))) 1 → allocs s = f :: rest → f ≠ NULL →
  ∃ frame p map, frame_allocate PAL_USER up s = Ok (frame, with_frame f frame up p map rest s) ∧
    palloc_get_page (Z.lor PAL_USER PAL_USER) (pal (mm s)) = Ok (frame, p) ∧ frame ≠ NULL ∧ hash_wf map ∧
    to_map map = <[frame := (f, frame)]> (to_map (frame_map (fr s))).
Proof.
  intros Hok Hfree Hal Hf. destruct (palloc_user_page (mm s) pd ws (vo_pd _ _ _ _ _ Hok) Hfree)
    as (frame & p & E & Hne & _ & _ & _ & _ & _ & Hnew & _).
  destruct (vo_map _ _ _ _ _ Hok) as [Hwf Hsz].
  assert (Hnone : to_map (frame_map (fr s)) !! frame = None).
  { destruct (to_map (frame_map (fr s)) !! frame) as [el|] eqn:Em; [|done]. apply (vo_frames _ _ _ _ _ Hok) in Em. by rewrite Em in Hnew. }
  destruct (hash_insert_map (bucket_mem s) (frame_map (fr s)) (f, frame) Hwf Hsz) as (map & Ei & Hwf' & Hmap & _).
  cbn [key page_client snd] in Ei, Hmap. rewrite Hnone in Ei, Hmap.
  exists frame, p, map. split; [|by rewrite Hmap]. unfold frame_allocate.
  rewrite (bind_ok _ _ _ _ _ (frames_acquire_run s (vo_lock _ _ _ _ _ Hok))).
  set (s1 := set_fr _ s). rewrite (bind_ok _ _ _ _ _ (in_mm_ok _ s1 _ _ (in_pal_ok _ (mm s) _ _ E))).
  rewrite (proj2 (Z.eqb_neq _ _) Hne). erewrite bind_ok by reflexivity.
  rewrite (bind_ok Vm.malloc _ _ f (set_allocs rest (set_mm (set_pal p (mm s)) s1))) by (unfold Vm.malloc; simpl; by rewrite Hal).
  rewrite (proj2 (Z.eqb_neq _ _) Hf). unfold gets. do 4 erewrite bind_ok by reflexivity. cbn [frame_map fr set_fr set_allocs set_mm set_ftes s1 set_lock bucket_mem].
  rewrite Ei. reflexivity.
Qed.

(** ** Reading the contents of a page *)

Lemma store_bytes_run s page ofs bytes l :
  page_ram s !! page = Some l → ofs + Z.of_nat (length bytes) <= 4 * Z.of_nat (length l) →
  store_bytes page ofs bytes s =
    Ok (tt, set_page_ram (<[page := words_of (length l) (blit (concat (le32 <$> l)) ofs (Z.of_nat (length bytes)) bytes)]> (page_ram s)) s).
Proof.
  intros Hp Hl. unfold store_bytes. rewrite (bind_ok _ _ _ l s) by by rewrite Hp. cbv zeta.
  rewrite (proj2 (Z.leb_le _ _)) by (rewrite length_word_bytes; lia). done.
Qed.

Lemma file_read_run s a fl i size pos :
  files s !! a = Some fl → inodes s !! f_inode fl = Some i → inode_ok s i → plenty s → 0 <= pos < 2 ^ 31 → a ≠ NULL →
  ∃ bytes s', (file_seek a pos ;;; file_read a size) s = Ok (bytes, s') ∧
    Z.of_nat (length bytes) = moved i size pos ∧ slice_of (disk s) (start (data i)) pos bytes.
Proof.
  intros Hf Hi Hok Hp Hpos Ha. set (s1 := set_files (<[a := mk_file (f_inode fl) pos (f_deny_write fl)]> (files s)) s).
  assert (Es : file_seek a pos s = Ok (tt, s1)).
  { unfold file_seek, assert, get_file, put_file. rewrite (proj2 (Z.eqb_neq _ _) Ha), (proj2 (Z.leb_le _ _)) by lia. cbn [negb].
    do 2 erewrite bind_ok by reflexivity. rewrite (bind_ok _ _ _ fl s) by by rewrite Hf. done. }
  rewrite (bind_ok _ _ _ _ _ Es). unfold file_read, get_file.
  rewrite (bind_ok _ _ _ (mk_file (f_inode fl) pos (f_deny_write fl)) s1) by (unfold s1; simpl; by rewrite lookup_insert_eq).
  cbn [f_inode f_pos f_deny_write]. destruct (read_loop_spec (S (Z.to_nat size)) i size pos false s1) as (bytes & n & E & _ & Hl & Hb).
  { destruct Hok. by split. }
  { destruct Hp. by split. }
  { done. }
  { lia. }
  rewrite (bind_ok _ _ _ bytes (bump n s1)) by (unfold inode_read_at, get_inode; rewrite (bind_ok _ _ _ i s1) by (simpl; by rewrite Hi); exact E).
  eexists _, _. split; [reflexivity|]. done.
Qed.

(** What [fetch] does: only the frame, the file position and the swap slot change. *)
Definition fetched (frame : Z) (img : list Z) (x : fsys) (w : swaps) (s : vmem) : vmem :=
  set_fs x (set_sw w (set_page_ram (<[frame := img]> (page_ram s)) s)).

Lemma blit_after_all bytes old n m :
  length old = (n + m)%nat → length bytes = n → blit (blit old 0 (Z.of_nat n) bytes) (Z.of_nat n) (Z.of_nat m) (replicate m 0) = bytes ++ replicate m 0.
Proof.
  intros Ho Hb. unfold blit. rewrite Z.add_0_l, <- Nat2Z.inj_add, !Nat2Z.id. change (take (Z.to_nat 0) old) with (@nil Z). cbn [app].
  rewrite (take_ge bytes) by lia. rewrite take_app_length' by lia. rewrite (take_ge (replicate m 0)) by (rewrite length_replicate; lia).
  rewrite drop_ge by (rewrite length_app, length_drop; lia). by rewrite app_nil_r.
Qed.

Lemma store_twice f a b s :
  set_page_ram (<[f := a]> (page_ram (set_page_ram (<[f := b]> (page_ram s)) s))) (set_page_ram (<[f := b]> (page_ram s)) s) =
  set_page_ram (<[f := a]> (page_ram s)) s.
Proof. unfold set_page_ram, page_ram, set_mm, set_pal, set_ram. simpl. by rewrite insert_insert_eq. Qed.

Lemma fetch_file_run s e frame old fl i bytes :
  page_ram s !! frame = Some old → length old = 1024%nat → sp_file e ≠ NULL →
  files (fs s) !! sp_file e = Some fl → inodes (fs s) !! f_inode fl = Some i → inode_ok (fs s) i → plenty (fs s) →
  0 <= file_offset e → 0 <= read_bytes e → 0 <= zero_bytes e → read_bytes e + zero_bytes e = 4096 →
  file_offset e + read_bytes e <= length_ (data i) → Z.of_nat (length bytes) = read_bytes e → Forall is_byte bytes →
  slice_of (disk (fs s)) (start (data i)) (file_offset e) bytes →
  ∃ x, load_page_from_filesys e frame s = Ok (true, fetched frame (words_of 1024 (bytes ++ replicate (Z.to_nat (zero_bytes e)) 0)) x (sw s) s).
Proof.
  intros Hp Hl Hn Hf Hi Hok Hpl Ho Hr Hz Hsum Hlen Hbl Hb Hs. pose proof (io_length _ _ Hok) as Hfl.
  destruct (file_read_run (fs s) (sp_file e) fl i (read_bytes e) (file_offset e)) as (bytes' & x & E & Hl' & Hs'); try done; [lia|].
  assert (Hm : moved i (read_bytes e) (file_offset e) = read_bytes e) by (unfold moved; lia). rewrite Hm in Hl'.
  assert (bytes' = bytes) as ->.
  { apply list_eq_same_length with (length bytes); [done|lia|]. intros j y y' Hj Hy Hy'.
    specialize (Hs (Z.of_nat j) ltac:(lia)). specialize (Hs' (Z.of_nat j) ltac:(lia)). rewrite Nat2Z.id in *. congruence. }
  apply bind_inv in E as ([] & x1 & E1 & E2). exists x. unfold load_page_from_filesys.
  rewrite (bind_ok _ _ _ tt (set_fs x1 s)) by (unfold in_fs; by rewrite E1).
  rewrite (bind_ok _ _ _ bytes (set_fs x s)) by (unfold in_fs; simpl; by rewrite E2).
  rewrite (bind_ok _ _ _ _ _ (store_bytes_run (set_fs x s) frame 0 bytes old Hp ltac:(lia))). rewrite Hbl, Z.eqb_refl. cbn [negb].
  rewrite Hsum. cbn [assert]. change (s32 4096 =? PGSIZE) with true. cbn [assert]. erewrite bind_ok by reflexivity.
  set (b1 := blit (concat (le32 <$> old)) 0 (read_bytes e) bytes). set (s1 := set_page_ram _ _).
  assert (Hb1 : length b1 = 4096%nat ∧ Forall is_byte b1).
  { pose proof (length_word_bytes old). unfold b1. split; [rewrite length_blit; lia|].
    unfold blit. repeat apply Forall_app_2; [apply Forall_take|apply Forall_take|apply Forall_drop]; done || apply word_bytes. }
  assert (Hlk : page_ram s1 !! frame = Some (words_of (length old) b1)) by (unfold s1, page_ram; simpl; apply lookup_insert_eq).
  erewrite (bind_ok _ _ _ _ _ (store_bytes_run s1 frame (read_bytes e) (replicate (Z.to_nat (zero_bytes e)) 0) _ Hlk _)).
  Unshelve. 2: { rewrite length_replicate, length_words_of. lia. }
  unfold ret. do 2 f_equal. rewrite length_words_of, Hl, length_replicate, bytes_words_of by (lia || apply Hb1). unfold b1. rewrite <- Hbl.
  rewrite blit_after_all; [|rewrite length_word_bytes; lia|done]. unfold s1. rewrite store_twice.
  unfold fetched. generalize (words_of 1024 (bytes ++ replicate (Z.to_nat (zero_bytes e)) 0)). by destruct s.
Qed.

Lemma fetch_run s e frame img old :
  backing s e img → page_ram s !! frame = Some old → length old = 1024%nat → PHYS_BASE <= frame → swap_wf (sw s) →
  ∃ x w, fetch e frame s = Ok ((true, writable_of e), fetched frame img x w s) ∧ swap_wf w ∧
    (status e = ON_SWAP → slot_free w (swap_index e) = true) ∧ status e ≠ ON_FRAME.
Proof.
  intros Hb Hp Hl Hk Hw. destruct Hb as [E|l E Hi Hf Hh Hll|fl i bytes E H1 H2 H3 H4 H5 H6 H7 H8 H9 H10 H11 H12 H13]; unfold fetch, writable_of; rewrite E.
  - exists (fs s), (sw s). split_and!; try done.
  - destruct (swap_in_run (page_ram s) (sw s) (swap_index e) frame l old) as (w & Es & Hwf & _ & _ & Hfree); try done.
    exists (fs s), w. split; [|split_and!; try done; intros _; by rewrite Hfree, Z.eqb_refl].
    unfold bind, in_sw. rewrite Es. unfold ret. do 2 f_equal.
  - destruct (fetch_file_run s e frame old fl i bytes) as [x Ex]; try done. exists x, (sw s).
    rewrite (bind_ok _ _ _ _ _ Ex). split_and!; done.
Qed.

(** ** Paging in *)

Lemma backing_kept s s' e img : fs s' = fs s → sw s' = sw s → backing s e img → backing s' e img.
Proof. intros Ef Es Hb. destruct Hb; [by constructor|apply backing_swap; by rewrite ?Es|eapply backing_file; rewrite ?Ef; done]. Qed.

(** A kernel page table through which the directory maps a page of the user pool. *)
Definition kernel_table (s : mmu) (ws : list Z) (a : Z) : Prop :=
  ∃ f w, in_pool (user_pool (pal s)) f = true ∧ ws !! Z.to_nat (f / 2 ^ 22) = Some w ∧ a = pt_of w.

Lemma pool_dir_index f : PHYS_BASE <= f → 768 <= f / 2 ^ 22.
Proof. unfold PHYS_BASE. intros. mod_lia. Qed.

(** The frame that was allocated, as the page tables see it. *)
Record fresh_frame (s s1 : mmu) (pd : Z) (ws : list Z) (frame : Z) : Prop := {
  ff_page : kernel_page frame;
  ff_pool : in_pool (user_pool (pal s)) frame = true;
  ff_new : allocated (pal s) frame = false;
  ff_used : allocated (pal s1) frame = true;
  ff_not_pd : ¬ pd_page pd ws frame;
  ff_pd : pd_ok s1 pd ws;
  ff_kmap : kernel_map_ok s1 pd ws;
  ff_entries : ∀ va, user va → entry_of (ram (pal s1)) pd va = entry_of (ram (pal s)) pd va;
  ff_kernel : kernel_pool (pal s1) = kernel_pool (pal s);
  ff_user : ∀ a, in_pool (user_pool (pal s1)) a = in_pool (user_pool (pal s)) a;
  ff_mono : ∀ a, allocated (pal s) a = true → allocated (pal s1) a = true ∧ a ≠ frame
}.

(** Taking the frame and filling it with [img]. *)
Lemma fresh_frame_run s pd ws frame p img :
  pd_ok s pd ws → kernel_map_ok s pd ws → run_free (user_pool (pal s)) 1 →
  palloc_get_page (Z.lor PAL_USER PAL_USER) (pal s) = Ok (frame, p) →
  fresh_frame s (set_pal (set_ram (<[frame := img]> (ram p)) p) s) pd ws frame ∧ ram p = ram (pal s).
Proof.
  intros H Hmap Hfree Ep. destruct (palloc_user_page s pd ws H Hfree)
    as (f & p' & E & Hne & Ha & Hin & Hwf & Hram & Hk & Hnew & Hal & Hpool & Hr).
  rewrite Ep in E. injection E as <- <-. split; [|done].
  assert (Hold : ∀ a, allocated (pal s) a = true → a ≠ frame) by (intros a Hu ->; by rewrite Hnew in Hu).
  assert (Hself : in_pages frame 1 frame = true) by (apply in_pages_iff; lia).
  set (s1 := set_pal _ s).
  assert (Hal1 : ∀ a, allocated (pal s1) a = if in_pages frame 1 a then true else allocated (pal s) a) by (intros a; apply (Hal a)).
  assert (Hmono : ∀ a, allocated (pal s) a = true → allocated (pal s1) a = true) by (intros a Hu; rewrite Hal1, Hu; by destruct (in_pages frame 1 a)).
  destruct (pd_ok_kept s s1 pd ws H) as [H1 He1]; try done.
  { by destruct Hwf. }
  { simpl. by rewrite Hk. }
  { intros a Hpa. simpl. rewrite lookup_insert_ne, Hram; [done|]. apply not_eq_sym, Hold. by eapply pd_page_used. }
  split; try done.
  - by rewrite Hal1, Hself.
  - intros Hpa. apply (pd_page_used s) in Hpa; [|done]. by apply Hold in Hpa.
  - intros f Hf. destruct (Hmap f) as (w & kws & K1 & K2 & K3 & K4 & K5 & K6 & K7 & K8); [by rewrite <- Hpool|]. exists w, kws.
    split_and!; try done; try lia; [|by apply Hmono]. simpl. rewrite lookup_insert_ne, Hram; [done|]. by apply not_eq_sym, Hold.
  - intros va Hu. by apply He1.
  - intros a Hu. split; [by apply Hmono|by apply Hold].
Qed.

(** The steps of [load_page] after the contents are in the frame: mapping the page and
    clearing the dirty bit of the frame's kernel address. *)
Lemma map_frame_run s0 s pd ws frame up wr :
  fresh_frame s0 s pd ws frame → user up → up mod 4096 = 0 → (frame - PHYS_BASE) / 4096 < init_ram_pages s → pd ≠ init_page_dir s →
  Z.odd (entry_of (ram (pal s0)) pd up) = false → run_free (kernel_pool (pal s0)) 1 →
  ∃ s1 s2, pagedir_set_page pd up frame wr s = Ok (true, s1) ∧ pagedir_set_dirty pd frame false s1 = Ok (tt, s2) ∧
    (∃ ws2, pd_ok s2 pd ws2) ∧
    (∀ va, user va → entry_of (ram (pal s2)) pd va = if decide (va / 4096 = up / 4096) then user_entry frame wr else entry_of (ram (pal s0)) pd va) ∧
    (∀ a, allocated (pal s) a = true → ¬ pd_page pd ws a → ¬ kernel_table s0 ws a → ram (pal s2) !! a = ram (pal s) !! a) ∧
    (∀ a, allocated (pal s) a = true → allocated (pal s2) a = true).
Proof.
  intros [F1 F2 F3 F4 F5 F6 F7 F8 F9 F10 F11] Hu Hal Hr Hi Ho Hfree.
  destruct (set_page_run s pd ws up frame wr F6 Hu Hal F1 Hr Hi) as [(s1 & ws1 & E1 & H1 & K1 & He1)|[Hno _]];
    [by rewrite F8| |by rewrite F9 in Hno].
  assert (Hmap1 : kernel_map_ok s1 pd ws1).
  { intros f Hf. rewrite (pk_pool _ _ _ _ _ K1) in Hf. destruct (F7 f Hf) as (w & kws & M1 & M2 & M3 & M4 & M5 & M6 & M7 & M8). exists w, kws.
    assert (Hn1 : ¬ pd_page pd ws1 (pt_of w)) by (intros [|Hx]%(pk_new _ _ _ _ _ K1); [done|by rewrite Hx in M7]).
    split_and!; try done; try lia.
    - rewrite (pk_kernel _ _ _ _ _ K1); [done|]. apply pool_dir_index. lia.
    - by rewrite (pk_ram _ _ _ _ _ K1).
    - by apply (pk_mono _ _ _ _ _ K1). }
  assert (Hf1 : in_pool (user_pool (pal s1)) frame = true) by by rewrite (pk_pool _ _ _ _ _ K1), F10.
  destruct (put_kernel_run s1 pd ws1 frame 6 H1 Hmap1 Hf1) as (s2 & kt & E2 & H2 & Hku & Hkn & He2 & Hr2 & Hk2 & Hu2 & (w & kws & Hw & -> & _) & _).
  exists s1, s2. split_and!; [done|exact E2|by exists ws1| | |].
  - intros va Hva. rewrite He2, He1, F8 by done. done.
  - intros a Ha Hn Hk. rewrite Hr2; [by apply (pk_ram _ _ _ _ _ K1)|]. intros ->. apply Hk.
    exists frame, w. rewrite (pk_kernel _ _ _ _ _ K1) in Hw by (apply pool_dir_index; apply F1). done.
  - intros a Ha. unfold allocated. rewrite Hk2, Hu2. fold (allocated (pal s1) a). by apply (pk_mono _ _ _ _ _ K1).
Qed.

(** A page that is not mapped has no valid entry. *)
Lemma unmapped_entry s pd ws up : pd_ok s pd ws → user up → pagedir_get_page pd up s = Ok (NULL, s) → Z.odd (entry_of (ram (pal s)) pd up) = false.
Proof.
  intros H Hu Hget. rewrite (get_page_run s pd ws) in Hget by done. pose proof (entry_valid s pd ws up H Hu) as Hv.
  unfold translate in Hget. destruct (Z.odd _); [|done]. injection Hget as Hget. unfold pte_valid, NULL, PHYS_BASE in *. mod_lia.
Qed.

Lemma fresh_not_table s s1 pd ws frame : kernel_map_ok s pd ws → fresh_frame s s1 pd ws frame → ¬ kernel_table s ws frame.
Proof.
  intros Hm HF (g & w' & Hg & Hw' & E). destruct (Hm g Hg) as (w0 & kws & _ & Hw0 & _ & _ & _ & _ & Hused & _).
  assert (w0 = w') as -> by congruence. rewrite <- E, (ff_new _ _ _ _ _ HF) in Hused. done.
Qed.

Lemma frame_unpin_run s kp el e :
  frame_lock (fr s) = false → hash_wf (frame_map (fr s)) → to_map (frame_map (fr s)) !! kp = Some el → ftes (fr s) !! el.1 = Some e →
  frame_unpin kp s = Ok (tt, set_fr (set_ftes (<[el.1 := mk_fte (f_kpage e) (f_upage e) (f_thread e) false]> (ftes (fr s))) (fr s)) s).
Proof.
  intros Hl Hwf Hm He. unfold frame_unpin, frame_set_pinned. rewrite (bind_ok _ _ _ _ _ (frames_acquire_run s Hl)).
  unfold gets. erewrite bind_ok by reflexivity.
  assert (Hfind : hash_find (frame_map (fr s)) (NULL, kp) = Ok (Some el)) by exact (eq_trans (hash_find_map (frame_map (fr s)) (NULL, kp) Hwf) (f_equal Ok Hm)).
  change (frame_map (fr (set_fr (set_lock true (fr s)) s))) with (frame_map (fr s)). rewrite Hfind. erewrite bind_ok by reflexivity.
  unfold bind at 1. unfold get_fte. rewrite (bind_ok _ _ _ e (set_fr (set_lock true (fr s)) s)) by (simpl; by rewrite He).
  unfold fr_modify, modify. rewrite frames_release_run by done. do 2 f_equal. destruct s as [? ? ? [] ? ? ? ? ? ?]. simpl in *. by subst.
Qed.

(** When a page of the process is not in memory and a frame is free, [load_page]
    takes a frame that was free, fills it with the contents of the page (zeros, the page
    in its swap slot, or the bytes of its file followed by zeros), maps the page to it
    with the page's write permission, and records the frame in the supplemental page
    table and, unpinned, in the frame table.  Every address of the page then translates
    into the frame, every other user address translates as before, no other page of
    memory changes except page tables, and the slot the page was in is free again. *)
Theorem load_page_correct s pd supt ws t up a e img f rest :
  vm_ok s pd supt ws t → user up → up mod 4096 = 0 → to_map t !! up = Some (a, up) → a ≠ NULL →
  sptes (pt s) !! a = Some e → backing s e img → pagedir_get_page pd up (mm s) = Ok (NULL, mm s) →
  run_free (user_pool (pal (mm s))) 1 → run_free (kernel_pool (pal (mm s))) 1 → allocs s = f :: rest → f ≠ NULL →
  ∃ frame s', load_page supt pd up s = Ok (true, s') ∧
    allocated (pal (mm s)) frame = false ∧ page_ram s' !! frame = Some img ∧
    (∀ ua, user ua → ∃ v, pagedir_get_page pd ua (mm s) = Ok (v, mm s) ∧
       pagedir_get_page pd ua (mm s') = Ok (if decide (ua / 4096 = up / 4096) then frame + ua mod 4096 else v, mm s')) ∧
    entry_of (page_ram s') pd up = user_entry frame (writable_of e) ∧
    sptes (pt s') = <[a := set_location e frame ON_FRAME (swap_index e)]> (sptes (pt s)) ∧
    ftes (fr s') = <[f := mk_fte frame up (current s) false]> (ftes (fr s)) ∧
    to_map (frame_map (fr s')) = <[frame := (f, frame)]> (to_map (frame_map (fr s))) ∧ frame_lock (fr s') = false ∧
    (status e = ON_SWAP → slot_free (sw s') (swap_index e) = true) ∧
    (∀ p, allocated (pal (mm s)) p = true → ¬ pd_page pd ws p → ¬ kernel_table (mm s) ws p → page_ram s' !! p = page_ram s !! p).
Proof.
  intros Hok Hu Hal Hm Ha He Hb Hget Hfu Hfk Hmal Hf.
  destruct (frame_allocate_run s pd supt ws t up f rest Hok Hfu Hmal Hf) as (frame & p & map & Ef & Ep & Hfn & Hwfm & Hmap).
  destruct (fresh_frame_run (mm s) pd ws frame p img (vo_pd _ _ _ _ _ Hok) (vo_kmap _ _ _ _ _ Hok) Hfu Ep) as [HF Hram].
  set (s1 := with_frame f frame up p map rest s) in *.
  destruct (vo_ram _ _ _ _ _ Hok frame (ff_pool _ _ _ _ _ HF) (proj2 (ff_page _ _ _ _ _ HF))) as (Hlim & old & Hold & Hlo).
  assert (Hold1 : page_ram s1 !! frame = Some old) by (unfold page_ram; simpl; by rewrite Hram).
  destruct (fetch_run s1 e frame img old) as (x & w & Ex & Hww & Hslot & Hnf); [by apply (backing_kept s)|done|done|apply HF|apply Hok|].
  pose proof (unmapped_entry (mm s) pd ws up (vo_pd _ _ _ _ _ Hok) Hu Hget) as Hodd.
  set (s2 := fetched frame img x w s1) in *.
  destruct (map_frame_run (mm s) (mm s2) pd ws frame up (writable_of e)) as (m1 & m2 & E1 & E2 & (ws2 & H2) & Hent & Hkeep & Hmono);
    [exact HF|done|done|exact Hlim|apply Hok|done|done|].
  set (s3 := set_pt (set_sptes (<[a := set_location e frame ON_FRAME (swap_index e)]> (sptes (pt s))) (pt s)) (set_mm m2 s2)).
  assert (Eun : frame_unpin frame s3 = Ok (tt, set_fr (set_ftes (<[f := mk_fte frame up (current s) false]> (ftes (fr s3))) (fr s3)) s3)).
  { apply (frame_unpin_run s3 frame (f, frame) (mk_fte frame up (current s) true)); [done|exact Hwfm| |].
    - change (to_map map !! frame = Some (f, frame)). by rewrite Hmap, lookup_insert_eq.
    - apply lookup_insert_eq. }
  exists frame. eexists. split.
  { unfold load_page. destruct (vo_supt _ _ _ _ _ Hok) as [Hs1 Hs2].
    rewrite (bind_ok _ _ _ _ _ (supt_lookup_run s supt t up Hs1 Hs2)), Hm. cbn [fst]. rewrite (proj2 (Z.eqb_neq _ _) Ha).
    unfold get_spte. rewrite (bind_ok _ _ _ e s) by by rewrite He. rewrite decide_False by done.
    rewrite (bind_ok _ _ _ _ _ Ef), (proj2 (Z.eqb_neq _ _) Hfn). rewrite (bind_ok _ _ _ e s1) by (simpl; by rewrite He).
    rewrite (bind_ok _ _ _ _ _ Ex). cbn [negb]. rewrite (bind_ok _ _ _ _ _ (in_mm_ok _ s2 _ _ E1)). cbn [negb].
    rewrite (bind_ok _ _ _ e (set_mm m1 s2)) by (simpl; by rewrite He). erewrite bind_ok by reflexivity.
    rewrite (bind_ok _ _ _ tt s3) by exact (in_mm_ok (pagedir_set_dirty pd frame false)
      (set_pt (set_sptes (<[a := set_location e frame ON_FRAME (swap_index e)]> (sptes (pt s))) (pt s)) (set_mm m1 s2)) tt m2 E2).
    rewrite (bind_ok _ _ _ _ _ Eun). reflexivity. }
  assert (Hfr : ∀ a, allocated (pal (mm s)) a = true → page_ram s2 !! a = page_ram s !! a).
  { intros a' Ha'. change (page_ram s2) with (<[frame := img]> (ram p)). rewrite lookup_insert_ne; [by rewrite Hram|]. apply not_eq_sym. by eapply ff_mono. }
  pose proof (fresh_not_table _ _ _ _ _ (vo_kmap _ _ _ _ _ Hok) HF) as Hkt.
  split_and!.
  - apply HF.
  - change (ram (pal m2) !! frame = Some img). rewrite Hkeep; [apply lookup_insert_eq|apply HF|apply HF|done].
  - intros ua Hua. exists (translate (ram (pal (mm s))) pd ua). split; [apply (get_page_run _ _ ws); [apply Hok|done]|].
    change (pagedir_get_page pd ua m2 = Ok (if decide (ua / 4096 = up / 4096) then frame + ua mod 4096 else translate (ram (pal (mm s))) pd ua, m2)).
    rewrite (get_page_run m2 pd ws2) by done. do 2 f_equal. unfold translate at 1. rewrite Hent by done.
    destruct (decide _); [|done]. destruct (user_entry_valid frame (writable_of e) (ff_page _ _ _ _ _ HF)) as (_ & -> & ->). done.
  - change (entry_of (ram (pal m2)) pd up = user_entry frame (writable_of e)). rewrite Hent by done. by rewrite decide_True.
  - reflexivity.
  - simpl. by rewrite insert_insert_eq.
  - exact Hmap.
  - reflexivity.
  - exact Hslot.
  - intros p' Hp' Hn Hk. change (ram (pal m2) !! p' = page_ram s !! p'). rewrite Hkeep; [by apply Hfr|by eapply ff_mono|done|done].
Qed.

(** ** A sample

    A kernel pool of four pages, of which the first is a page directory and the second
    the kernel's page table, a user pool of four pages of which the first and the third
    are used, and a process with three pages; the page at 8192 is in swap slot 0. *)

Definition sample_kt : Z := sample_pd + 4096.
Definition sample_user : Z := 3223322624.
Definition sample_dir : list Z := <[768%nat := sample_kt - PHYS_BASE + 7]> (replicate 1024 0).
Definition sample_ram : gmap Z (list Z) :=
  <[sample_pd := sample_dir]> (<[sample_kt := replicate 1024 0]>
    (list_to_map ((λ i, (sample_user + 4096 * i, replicate 1024 i)) <$> [0; 1; 2; 3]))).
Definition sample_spte : spte := mk_spte 8192 NULL ON_SWAP false 0 NULL 0 0 0 true.
Definition sample_vm : vmem :=
  mk_vm (mk_mmu (mk_palloc (mk_pool (mk_bitmap 4 [3]) sample_pd) (mk_pool (mk_bitmap 4 [5]) sample_user) sample_ram)
           (sample_pd - PHYS_BASE) ∅ (PHYS_BASE + 4096) 1024)
    sample_fs
    (mk_swaps (put_sectors 8 0 (replicate 1024 7) 0 ∅) 20 (mk_bitmap 2 [2]) 2)
    (mk_frames false (hash_init true).2 [] NoHand ∅)
    (mk_pts {[50 := sample_table]} {[200 := sample_spte]})
    {[1 := (sample_pd, 50)]} 1 [900] true sample_spte.

Lemma sample_pool_page f : in_pool (user_pool (pal (mm sample_vm))) f = true → sample_user <= f < sample_user + 4 * 4096.
Proof. intros H%in_pages_iff. simpl in H. lia. Qed.

Lemma sample_user_entries k w : 0 <= k < 768 → sample_dir !! Z.to_nat k = Some w → w = 0.
Proof. intros Hk Hw. unfold sample_dir in Hw. rewrite list_lookup_insert_ne in Hw by lia. by apply lookup_replicate in Hw as [-> _]. Qed.

Lemma sample_pd_page a : pd_page sample_pd sample_dir a → a = sample_pd.
Proof. intros [->|(k & w & Hk & Hw & Hne & _)]; [done|]. by apply sample_user_entries in Hw. Qed.

Lemma sample_vm_pd_ok : pd_ok (mm sample_vm) sample_pd sample_dir.
Proof.
  assert (Hb : ∀ w, in_u32 w → bm_wf (mk_bitmap 4 [w])) by (intros w Hw; split; [simpl; lia|done|by apply Forall_singleton]).
  split.
  - split; [split|split|]; cbn [kernel_pool user_pool used_map base bit_cnt pal mm sample_vm]; unfold sample_pd, sample_user; try lia; try done; by apply Hb.
  - vm_compute. discriminate.
  - vm_compute. split; [discriminate|reflexivity].
  - vm_compute. split; [split; [discriminate|reflexivity]|reflexivity].
  - vm_compute. reflexivity.
  - apply lookup_insert_eq.
  - vm_compute. reflexivity.
  - intros k w Hk Hw Hne. by apply sample_user_entries in Hw.
  - intros k k' w w' Hk Hk' Hw Hw' Hne. by apply sample_user_entries in Hw.
Qed.

Lemma sample_vm_ok : vm_ok sample_vm sample_pd 50 sample_dir sample_table.
Proof.
  split.
  - exact sample_vm_pd_ok.
  - intros f Hf%sample_pool_page. exists (sample_kt - PHYS_BASE + 7), (replicate 1024 0).
    assert (Ek : f / 2 ^ 22 = 768) by (unfold sample_user in *; mod_lia).
    split_and!; [unfold PHYS_BASE, sample_user in *; lia..| | | | | | |].
    + rewrite Ek. vm_compute. reflexivity.
    + vm_compute. reflexivity.
    + vm_compute. split; [discriminate|reflexivity].
    + vm_compute. reflexivity.
    + apply length_replicate.
    + vm_compute. reflexivity.
    + intros Hx%sample_pd_page. by vm_compute in Hx.
  - vm_compute. discriminate.
  - intros f Hf%sample_pool_page Ha.
    assert (Hi : f = sample_user ∨ f = sample_user + 4096 ∨ f = sample_user + 8192 ∨ f = sample_user + 12288) by (unfold sample_user in *; mod_lia).
    destruct Hi as [->|[->|[->| ->]]]; (split; [vm_compute; reflexivity|]); eexists; (split; [vm_compute; reflexivity|reflexivity]).
  - reflexivity.
  - split; [apply hash_init_wf|]. vm_compute. reflexivity.
  - intros k el Hk. cbn [fr sample_vm frame_map] in Hk. by rewrite (proj2 hash_init_wf) in Hk.
  - split; [apply lookup_singleton_eq|exact sample_table_wf].
  - split; [split; [simpl; lia|done|by apply Forall_singleton]|done|simpl; lia|simpl; lia].
Qed.

Lemma load_page_correct_witness :
  ∃ frame s', load_page 50 sample_pd 8192 sample_vm = Ok (true, s') ∧ page_ram s' !! frame = Some (replicate 1024 7) ∧
    pagedir_get_page sample_pd 8196 (mm s') = Ok (frame + 4, mm s').
Proof.
  destruct (load_page_correct sample_vm sample_pd 50 sample_dir sample_table 8192 200 sample_spte (replicate 1024 7) 900 [] sample_vm_ok)
    as (frame & s' & E & _ & Hp & Hget & _).
  - by split.
  - reflexivity.
  - vm_compute. reflexivity.
  - discriminate.
  - apply lookup_singleton_eq.
  - apply backing_swap; [reflexivity|by split|reflexivity| |reflexivity].
    intros i Hi. cbn [sw sample_vm sw_sectors swap_index sample_spte]. rewrite put_sectors_lookup.
    replace (Z.to_nat (8 * 0 + Z.of_nat i - 8 * 0)) with i by lia. z_cases.
  - vm_compute. reflexivity.
  - exists 1. split_and!; [lia|vm_compute; discriminate|]. intros j Hj. assert (j = 1) as -> by lia. reflexivity.
  - exists 2. split_and!; [lia|vm_compute; discriminate|]. intros j Hj. assert (j = 2) as -> by lia. reflexivity.
  - reflexivity.
  - discriminate.
  - exists frame, s'. split; [exact E|]. split; [exact Hp|]. destruct (Hget 8196) as (v & _ & Ev); [by split|]. rewrite Ev. reflexivity.
Defined.
