(* ===== verification/ElfSpec.v ===== *)
(** * Loading the segments of an executable (src/userprog/process.c)

    [load] does not read a segment: it enters its pages into the supplemental page
    table, from which [load_page] brings them in.  The theorems relate the entries to the
    program header. *)

From S2P Require Import Prelude Strings Bitmap Palloc Swap Pagedir PagedirSpec Hash HashSpec Inode Filesys Vm VmPages VmSpec Process.
Local Open Scope Z_scope.

(** ** Entering one page *)



(** ** Entering a run of pages *)

Definition page (up : Z) (i : nat) : Z := up + 4096 * Z.of_nat i.




Lemma page_inj up i j : page up i = page up j → i = j.
Proof. unfold page. lia. Qed.





(** ** A segment *)















(** A segment of 400 bytes of a file of 700, followed by zeros, on two pages. *)
Definition sample_phdr : Elf32_Phdr := mk_phdr PT_LOAD 256 134512896 0 400 5000 6 4096.
Definition sample_loader : vmem :=
  set_allocs [900; 901] (set_fs (set_files {[6 := mk_file 10 0 false]} sample_fs) sample_vm).


(** A second segment on a page that is already entered makes the kernel panic. *)
Example overlapping_segments_panic :
  (load_phdr sample_phdr 6 ;;; load_phdr sample_phdr 6) (set_allocs [900; 901; 902; 903] sample_loader) = Fail Panicked.
Proof. vm_compute. reflexivity. Qed.
