(* ===== verification/Exception.v ===== *)
(** * Page faults (src/userprog/exception.c)

    The handler gets the interrupt frame's error code, code segment and stack pointer, the
    faulting address from CR2, and the stack pointer the thread had at its last system
    call.  The counter of faults and the messages are left out. *)

From S2P Require Import Prelude Strings Bitmap Palloc Swap Pagedir PagedirSpec Hash HashSpec Inode Filesys Vm VmPages VmSpec.
Local Open Scope Z_scope.

Definition PF_P : Z := 1.
Definition PF_U : Z := 4.
Definition SEL_UCSEG : Z := 27.
Definition SEL_KCSEG : Z := 8.

(** How a handler ends: the thread goes on, or it exits. *)
Inductive outcome := Resumed | Exited.

Record intr_frame := mk_frame { error_code : Z; cs : Z; esp : Z }.

Definition kill (f : intr_frame) : X outcome :=
  if cs f =? SEL_UCSEG then ret Exited
  else if cs f =? SEL_KCSEG then fail Panicked
  else ret Exited.

(** The conditions [on_stack_frame] and [is_stack_addr] together. *)
Definition stack_access (f : intr_frame) (fault_addr current_esp : Z) : bool :=
  let user := flag (error_code f) PF_U in
  let sp := if user then esp f else current_esp in
  let on_stack_frame := (sp <=? fault_addr) || (fault_addr =? u32 (esp f - 4)) || (fault_addr =? u32 (esp f - 32)) in
  let is_stack_addr := (PHYS_BASE - 8388608 <=? fault_addr) && (fault_addr <? PHYS_BASE) in
  on_stack_frame && is_stack_addr.

Definition page_fault (f : intr_frame) (fault_addr current_esp : Z) : X outcome :=
  let not_present := negb (flag (error_code f) PF_P) in
  let fault_page := pg_round_down fault_addr in
  if negb not_present then kill f
  else
    let* cur := gets current in
    let* (pagedir, supt) := get_proc cur in
    (if stack_access f fault_addr current_esp then
       let* known := supt_has_entry supt fault_page in
       if negb known then supt_install_zeropage supt fault_page ;;; ret tt else ret tt
     else ret tt) ;;;
    let* ok := load_page supt pagedir fault_page in
    if negb ok then kill f else ret Resumed.

(** ** Growing the stack *)

Definition zero_spte (s : vmem) (up : Z) : spte :=
  let j := heap_junk s in mk_spte up NULL ALL_ZERO false (swap_index j) (sp_file j) (file_offset j) (read_bytes j) (zero_bytes j) (writable j).

Lemma supt_install_zeropage_run s supt t up a rest :
  supts (pt s) !! supt = Some t → hash_wf t → Z.of_nat (size (to_map t)) + 1 < 2 ^ 32 → to_map t !! up = None →
  allocs s = a :: rest → a ≠ NULL →
  ∃ t', supt_install_zeropage supt up s = Ok (true, entered supt t' a (zero_spte s up) rest s) ∧
    hash_wf t' ∧ to_map t' = <[up := (a, up)]> (to_map t).
Proof.
  intros Hs Hwf Hsz Hno Hal Ha. destruct (install_run s supt t a (zero_spte s up) rest) as (t' & E & H); try done. exists t'. split; [|done].
  unfold supt_install_zeropage. rewrite (bind_ok _ _ _ _ _ (malloc_run s a rest Hal)). unfold gets. erewrite bind_ok by reflexivity.
  by rewrite (bind_ok _ _ _ _ _ E).
Qed.

Lemma vm_ok_entered s pd supt ws t t' a e rest : vm_ok s pd supt ws t → hash_wf t' → vm_ok (entered supt t' a e rest s) pd supt ws t'.
Proof. intros [V1 V2 V3 V4 V5 V6 V7 V8 V9] Hwf. split; try done. split; [apply lookup_insert_eq|done]. Qed.

Section fault.
Context (s : vmem) (pd supt : Z) (ws : list Z) (t : table page_elem) (f : intr_frame) (fault_addr current_esp : Z).
Hypothesis Hok : vm_ok s pd supt ws t.
Hypothesis Hproc : procs s !! current s = Some (pd, supt).
Hypothesis Hfault : in_u32 fault_addr.
Hypothesis Hnp : flag (error_code f) PF_P = false.

Let up := fault_addr - fault_addr mod 4096.

Lemma fault_page_up : pg_round_down fault_addr = up.
Proof. by apply pg_round_down_spec. Qed.

Lemma has_entry_run : supt_has_entry supt up s = Ok (match to_map t !! up with Some e => negb (e.1 =? NULL) | None => false end, s).
Proof.
  unfold supt_has_entry. destruct (vo_supt _ _ _ _ _ Hok) as [H1 H2]. rewrite (bind_ok _ _ _ _ _ (supt_lookup_run s supt t up H1 H2)).
  by destruct (to_map t !! up).
Qed.

(** The handler after the causes were determined. *)
Lemma page_fault_unfold :
  page_fault f fault_addr current_esp s =
    ((if stack_access f fault_addr current_esp then
        let* known := supt_has_entry supt up in
        if negb known then supt_install_zeropage supt up ;;; ret tt else ret tt
      else ret tt) ;;;
     let* ok := load_page supt pd up in if negb ok then kill f else ret Resumed) s.
Proof.
  unfold page_fault. rewrite Hnp, fault_page_up. cbn [negb]. unfold gets. erewrite bind_ok by reflexivity. unfold get_proc.
  rewrite (bind_ok _ _ _ (pd, supt) s) by (simpl; by rewrite Hproc). reflexivity.
Qed.

(** A page the process has an entry for is loaded. *)
Lemma fault_known el : to_map t !! up = Some el → el.1 ≠ NULL →
  page_fault f fault_addr current_esp s = (let* ok := load_page supt pd up in if negb ok then kill f else ret Resumed) s.
Proof.
  intros Hm Hne. rewrite page_fault_unfold. destruct (stack_access _ _ _); [|done].
  erewrite bind_ok; [done|]. rewrite (bind_ok _ _ _ _ _ has_entry_run), Hm. by rewrite (proj2 (Z.eqb_neq _ _) Hne).
Qed.

Lemma lookup_unknown : to_map t !! up = None → supt_lookup supt up s = Ok (NULL, s).
Proof.
  intros Hm. destruct (vo_supt _ _ _ _ _ Hok) as [H1 H2]. rewrite (supt_lookup_run s supt t up H1 H2). unfold page_elem in *. by rewrite Hm.
Qed.

(** An access that is not to the stack finds no entry. *)
Lemma fault_unknown : to_map t !! up = None → stack_access f fault_addr current_esp = false →
  page_fault f fault_addr current_esp s = kill f s.
Proof.
  intros Hm Hst. rewrite page_fault_unfold, Hst. erewrite bind_ok by reflexivity.
  erewrite bind_ok; [|unfold load_page; rewrite (bind_ok _ _ _ _ _ (lookup_unknown Hm)); reflexivity]. done.
Qed.

(** An access to the stack gets an entry for a page of zeros. *)
Lemma fault_grows a rest : to_map t !! up = None → stack_access f fault_addr current_esp = true →
  Z.of_nat (size (to_map t)) + 1 < 2 ^ 32 → allocs s = a :: rest → a ≠ NULL →
  ∃ t', page_fault f fault_addr current_esp s =
      (let* ok := load_page supt pd up in if negb ok then kill f else ret Resumed) (entered supt t' a (zero_spte s up) rest s) ∧
    hash_wf t' ∧ to_map t' = <[up := (a, up)]> (to_map t).
Proof.
  intros Hm Hst Hsz Hal Ha. destruct (vo_supt _ _ _ _ _ Hok) as [H1 H2].
  destruct (supt_install_zeropage_run s supt t up a rest H1 H2 Hsz Hm Hal Ha) as (t' & E & H). exists t'. split; [|done].
  rewrite page_fault_unfold, Hst. erewrite bind_ok; [reflexivity|].
  rewrite (bind_ok _ _ _ false s) by (unfold supt_has_entry; by rewrite (bind_ok _ _ _ _ _ (lookup_unknown Hm))). cbn [negb].
  by rewrite (bind_ok _ _ _ _ _ E).
Qed.
End fault.

(** ** The handler *)

(** The accesses that grow the stack. *)
Definition grows (f : intr_frame) (fault_addr current_esp : Z) : Prop :=
  let sp := if Z.testbit (error_code f) 2 then esp f else current_esp in
  (sp <= fault_addr ∨ fault_addr = u32 (esp f - 4) ∨ fault_addr = u32 (esp f - 32)) ∧
  PHYS_BASE - 8 * 2 ^ 20 <= fault_addr < PHYS_BASE.

Lemma stack_access_iff f fault_addr current_esp : stack_access f fault_addr current_esp = true ↔ grows f fault_addr current_esp.
Proof.
  unfold stack_access, grows. cbv zeta. change PF_U with (2 ^ 2). rewrite flag_testbit by lia. change (8 * 2 ^ 20) with 8388608.
  rewrite !andb_true_iff, !orb_true_iff, !Z.leb_le, !Z.eqb_eq, Z.ltb_lt. tauto.
Qed.

(** What a faulting page must contain: its contents if the process has an entry for it,
    zeros if the access grows the stack.  [n] is the number of blocks of memory the
    handler needs. *)
Inductive faulted (s : vmem) (t : table page_elem) (up : Z) (stack : Prop) : list Z → bool → nat → Prop :=
| faulted_known a e img :
    to_map t !! up = Some (a, up) → a ≠ NULL → sptes (pt s) !! a = Some e → backing s e img → faulted s t up stack img (writable_of e) 1
| faulted_stack :
    stack → to_map t !! up = None → Z.of_nat (size (to_map t)) + 1 < 2 ^ 32 → faulted s t up stack (replicate PAGE_WORDS 0) true 2.

(** A fault that is not resolved: the process ends, memory stays as it is; in the kernel's code
    the kernel panics. *)
Definition unresolved (f : intr_frame) (s : vmem) : res (outcome * vmem) := if cs f =? SEL_KCSEG then Fail Panicked else Ok (Exited, s).

Lemma kill_run f s : kill f s = unresolved f s.
Proof. unfold kill, unresolved. destruct (Z.eqb_spec (cs f) SEL_UCSEG) as [->|]; [done|]. by destruct (cs f =? SEL_KCSEG). Qed.

(** C8: page faults.  A fault on a page that is not present is resolved, as long as there are
    a free frame, a free page for a page table and memory for the tables' entries, when the
    process has an entry for the page, and also when it has none but the access grows the
    stack: the address is at or above the stack pointer, or 4 or 32 bytes below it, and
    within 8 MB of the top.  The handler fills a free frame with the page's contents (zeros
    for new stack) and maps it, so that the access can be repeated: every address of the page
    translates into the frame, every other user address translates as before.  A violation
    of a page's rights, and a fault at any other address, the kernel's included, ends the
    process without changing memory, or panics if the kernel's code caused it. *)
Theorem page_fault_correct s pd supt ws t f fault_addr current_esp :
  vm_ok s pd supt ws t → procs s !! current s = Some (pd, supt) → in_u32 fault_addr →
  let up := fault_addr - fault_addr mod 4096 in
  let stack := grows f fault_addr current_esp in
  (flag (error_code f) PF_P = true → page_fault f fault_addr current_esp s = unresolved f s) ∧
  (flag (error_code f) PF_P = false → to_map t !! up = None → ¬ stack → page_fault f fault_addr current_esp s = unresolved f s) ∧
  (flag (error_code f) PF_P = false → user fault_addr →
   ∀ img wr n, faulted s t up stack img wr n → pagedir_get_page pd up (mm s) = Ok (NULL, mm s) →
     run_free (user_pool (pal (mm s))) 1 → run_free (kernel_pool (pal (mm s))) 1 → (n <= length (allocs s))%nat → NULL ∉ take n (allocs s) →
     ∃ frame s', page_fault f fault_addr current_esp s = Ok (Resumed, s') ∧ allocated (pal (mm s)) frame = false ∧
       page_ram s' !! frame = Some img ∧ entry_of (page_ram s') pd up = user_entry frame wr ∧
       ∀ ua, user ua → ∃ v, pagedir_get_page pd ua (mm s) = Ok (v, mm s) ∧
         pagedir_get_page pd ua (mm s') = Ok (if decide (ua / 4096 = up / 4096) then frame + ua mod 4096 else v, mm s')).
Proof.
  intros Hok Hproc Hin up stack. split; [|split].
  - intros Hp. unfold page_fault. rewrite Hp. apply kill_run.
  - intros Hnp Hm Hst. rewrite (fault_unknown s pd supt ws t f fault_addr current_esp); try done; [apply kill_run|].
    by apply not_true_is_false; rewrite stack_access_iff.
  - intros Hnp Hu. assert (Hup : user up ∧ up mod 4096 = 0) by (unfold up, user, PHYS_BASE in *; split; mod_lia). destruct Hup as [Huu Hal].
    intros img wr n Hf Hget Hfu Hfk Hlen Hnull. destruct Hf as [a e img Hm Ha He Hb|Hst Hm Hsz].
    + destruct (allocs s) as [|fb rest] eqn:Hallocs; [simpl in Hlen; lia|]. cbn [take] in Hnull. apply not_elem_of_cons in Hnull as [Hfb _].
      destruct (load_page_correct s pd supt ws t up a e img fb rest) as (frame & s' & E & H1 & H2 & H3 & H4 & _); try done.
      exists frame, s'. split_and!; try done. rewrite (fault_known s pd supt ws t f fault_addr current_esp Hok Hproc Hin Hnp (a, up)) by done.
      fold up. by rewrite (bind_ok _ _ _ _ _ E).
    + destruct (allocs s) as [|a [|fb rest]] eqn:Hallocs; [simpl in Hlen; lia..|]. cbn [take] in Hnull.
      apply not_elem_of_cons in Hnull as [Ha Hnull]. apply not_elem_of_cons in Hnull as [Hfb _].
      destruct (fault_grows s pd supt ws t f fault_addr current_esp Hok Hproc Hin Hnp a (fb :: rest)) as (t' & E & Hwf & Hmap); try done; [by apply stack_access_iff|].
      fold up in E, Hmap. set (s1 := entered _ _ _ _ _ _) in E.
      destruct (load_page_correct s1 pd supt ws t' up a (zero_spte s up) (replicate PAGE_WORDS 0) fb rest) as (frame & s' & E1 & H1 & H2 & H3 & H4 & _); try done.
      * by apply (vm_ok_entered s pd supt ws t).
      * rewrite Hmap. apply lookup_insert_eq.
      * apply lookup_insert_eq.
      * by apply backing_zero.
      * exists frame, s'. rewrite E, (bind_ok _ _ _ _ _ E1). done.
Qed.

(** The process of [sample_vm] pushes a word one page below its stack. *)
Definition sample_fault : intr_frame := mk_frame 6 SEL_UCSEG (PHYS_BASE - 4096).

Lemma page_fault_correct_witness :
  ∃ frame s', page_fault sample_fault (PHYS_BASE - 4100) 0 (set_allocs [900; 901] sample_vm) = Ok (Resumed, s') ∧
    page_ram s' !! frame = Some (replicate 1024 0) ∧ pagedir_get_page sample_pd (PHYS_BASE - 4100) (mm s') = Ok (frame + 4092, mm s').
Proof.
  destruct (page_fault_correct (set_allocs [900; 901] sample_vm) sample_pd 50 sample_dir sample_table sample_fault (PHYS_BASE - 4100) 0) as (_ & _ & Hok).
  - destruct sample_vm_ok. by split.
  - apply lookup_singleton_eq.
  - unfold PHYS_BASE. int_lia.
  - destruct (Hok eq_refl ltac:(unfold user, PHYS_BASE; lia) (replicate PAGE_WORDS 0) true 2%nat) as (frame & s' & E & _ & Hp & _ & Hget).
    + apply faulted_stack; [apply stack_access_iff|..]; vm_compute; reflexivity.
    + vm_compute. reflexivity.
    + exists 1. split_and!; [lia|vm_compute; discriminate|]. intros j Hj. assert (j = 1) as -> by lia. reflexivity.
    + exists 2. split_and!; [lia|vm_compute; discriminate|]. intros j Hj. assert (j = 2) as -> by lia. reflexivity.
    + simpl. lia.
    + apply (bool_decide_eq_true_1 _). vm_compute. reflexivity.
    + exists frame, s'. split; [exact E|]. split; [exact Hp|]. destruct (Hget (PHYS_BASE - 4100)) as (v & _ & Ev); [unfold user, PHYS_BASE; lia|].
      rewrite Ev. vm_compute. reflexivity.
Defined.
