(* ===== verification/VmEvict.v ===== *)
(** * Choosing and evicting a frame (src/vm/frame.c)

    The clock hand runs over [frame_list].  The theorem says which frame
    [pick_frame_to_evict] returns and what it changes; the examples run a machine whose
    memory is full. *)

From S2P Require Import Prelude Bitmap Palloc Swap Pagedir PagedirSpec Hash HashSpec Inode Filesys Vm VmPages VmSpec.
Local Open Scope Z_scope.

(** ** The clock hand *)

(** The hand after the entries of [passed] were passed. *)
Definition hand_after (passed : list Z) : clock_hand := match last passed with None => NoHand | Some a => At a end.

Lemma list_after_app l1 a l2 : a ∉ l1 → list_after (l1 ++ a :: l2) a = Ok (match l2 with y :: _ => At y | [] => AtTail end).
Proof.
  induction l1 as [|x l1 IH]; intros Hn; cbn [app list_after]; [by rewrite Z.eqb_refl|].
  rewrite (proj2 (Z.eqb_neq x a)); [apply IH|]; [intros E; apply Hn; by right|intros ->; apply Hn; left].
Qed.

Lemma clock_next_run s passed rest :
  frame_list (fr s) = passed ++ rest → frame_list (fr s) ≠ [] → NoDup (passed ++ rest) → clock_ptr (fr s) = hand_after passed →
  let hand := match rest with a :: _ => At a | [] => AtTail end in
  clock_frame_next s = Ok (hand, set_fr (set_clock hand (fr s)) s).
Proof.
  intros Hl Hne Hnd Hc. assert (Hgo : (match clock_ptr (fr s) with At a => list_after (frame_list (fr s)) a | NoHand | AtTail =>
      match frame_list (fr s) with first :: _ => Ok (At first) | [] => Fail Panicked end end) = Ok (match rest with a :: _ => At a | [] => AtTail end)).
  { rewrite Hc. unfold hand_after. destruct passed as [|x passed' _] using rev_ind; [rewrite Hl; simpl in *; by destruct rest|].
    rewrite last_snoc, Hl, <- app_assoc. apply list_after_app. rewrite <- app_assoc in Hnd. apply NoDup_app in Hnd as (_ & Hd & _).
    intros Hx. apply (Hd x Hx). left. }
  unfold clock_frame_next, bind, gets, lift, fr_modify, modify, ret. destruct (frame_list (fr s)) as [|first l]; [done|].
  destruct (clock_ptr (fr s)); [injection Hgo as <-|rewrite Hgo|injection Hgo as <-]; done.
Qed.

(** ** Which frame is chosen *)

Definition accessed (m : mmu) (pd up : Z) : bool := flag (entry_of (ram (pal m)) pd up) PTE_A.

(** Passing over frame [b] clears the accessed bit of the page of [va]: the bit is always
    looked up and cleared in the page directory of the running process, whichever process
    the frame belongs to. *)
Definition clears (s : vmem) (va b : Z) : bool :=
  match ftes (fr s) !! b with Some e => negb (pinned e) && (f_upage e / 4096 =? va / 4096) | None => false end.

(** Frame [a] may be evicted once the frames of [pre] have been passed: it is not pinned,
    and its page was not accessed or its bit has been cleared on the way. *)
Definition eligible (s : vmem) (pd : Z) (pre : list Z) (a : Z) : bool :=
  match ftes (fr s) !! a with
  | Some e => negb (pinned e) && negb (accessed (mm s) pd (f_upage e) && negb (existsb (clears s (f_upage e)) pre))
  | None => false
  end.

(** No frame of [l] may be evicted when its turn comes. *)
Definition none_eligible (s : vmem) (pd : Z) (l : list Z) : Prop := ∀ l1 b l2, l = l1 ++ b :: l2 → eligible s pd l1 b = false.

(** The entries of [l] are there and have user pages. *)
Definition frames_there (s : vmem) (l : list Z) : Prop := ∀ a, a ∈ l → ∃ e, ftes (fr s) !! a = Some e ∧ user (f_upage e).

(** The state after the frames of [pre] lost their second chance. *)
Record second_chance (pd : Z) (ws pre : list Z) (hand : clock_hand) (s s' : vmem) : Prop := {
  sc_pd : pd_ok (mm s') pd ws;
  sc_fr : fr s' = set_clock hand (fr s);
  sc_rest : s' = set_mm (mm s') (set_fr (fr s') s);
  sc_accessed : ∀ va, user va → accessed (mm s') pd va =
    accessed (mm s) pd va && negb (existsb (clears s va) pre);
  sc_translate : ∀ va, user va → translate (ram (pal (mm s'))) pd va = translate (ram (pal (mm s))) pd va
}.

Lemma second_chance_refl pd ws hand s : pd_ok (mm s) pd ws → second_chance pd ws [] hand s (set_fr (set_clock hand (fr s)) s).
Proof. intros H. split; try done. intros va _. by rewrite andb_true_r. Qed.

Lemma put_accessed s pd ws va :
  pd_ok s pd ws → user va →
  ∃ s', pagedir_set_accessed pd va false s = Ok (tt, s') ∧ pd_ok s' pd ws ∧
    (∀ ua, user ua → accessed s' pd ua = accessed s pd ua && negb (va / 4096 =? ua / 4096)) ∧
    (∀ ua, user ua → translate (ram (pal s')) pd ua = translate (ram (pal s)) pd ua).
Proof.
  intros H Hu. destruct (put_run s pd ws va 5 false H Hu ltac:(lia)) as (s' & E & H' & He). exists s'. split; [exact E|]. split; [done|].
  assert (Hcase : ∀ ua, user ua → entry_of (ram (pal s')) pd ua =
    if va / 4096 =? ua / 4096 then put_bit 5 false (entry_of (ram (pal s)) pd ua) else entry_of (ram (pal s)) pd ua).
  { intros ua Hua. rewrite He by done. destruct (Z.eqb_spec (va / 4096) (ua / 4096)) as [Ep|Ep]; destruct (decide _) as [[Eq Ht]|Hn]; try done.
    assert (Ht : table_of (ram (pal s)) pd va = None) by (destruct (table_of _ pd va); [by destruct Hn|done]).
    rewrite (entry_page _ _ ua va) by done. by rewrite (entry_no_table _ _ _ Ht). }
  split; intros ua Hua; unfold accessed, translate; rewrite Hcase by done; destruct (_ =? _); cbn [negb]; rewrite ?andb_true_r, ?andb_false_r; try done;
    pose proof (entry_valid s pd ws ua H Hua) as Hv; destruct (put_bit_spec 5 false _ ltac:(lia) Hv) as [Hpv Hpb].
  - change PTE_A with (2 ^ 5). rewrite flag_testbit, Hpb by lia. done.
  - rewrite <- !Z.bit0_odd, Hpb by lia. change (0 =? 5) with false. cbv iota. rewrite (frame_of_bits _ _ Hv Hpv); [done|]. intros m Hm. rewrite Hpb by lia. destruct (Z.eqb_spec m 5); [lia|done].
Qed.

(** One frame is passed: [s2] is the state after it. *)
Record passed_one (pd : Z) (ws : list Z) (b : Z) (s s2 : vmem) : Prop := {
  p1_pd : pd_ok (mm s2) pd ws;
  p1_fr : fr s2 = set_clock (At b) (fr s);
  p1_rest : s2 = set_mm (mm s2) (set_fr (fr s2) s);
  p1_accessed : ∀ va, user va → accessed (mm s2) pd va =
    accessed (mm s) pd va && negb (clears s va b);
  p1_translate : ∀ va, user va → translate (ram (pal (mm s2))) pd va = translate (ram (pal (mm s))) pd va
}.

Lemma second_chance_step pd ws b pre hand s s2 s' :
  passed_one pd ws b s s2 → second_chance pd ws pre hand s2 s' → second_chance pd ws (b :: pre) hand s s'.
Proof.
  intros [P1 P2 P3 P4 P5] [S1 S2 S3 S4 S5]. split; [done|by rewrite S2, P2| | |].
  - rewrite S3 at 1. rewrite P3 at 1. rewrite S2, P2. done.
  - intros va Hu. rewrite S4, P4 by done. cbn [existsb]. unfold clears. rewrite P2. cbn [ftes set_clock]. by rewrite negb_orb, andb_assoc.
  - intros va Hu. by rewrite S5, P5.
Qed.

(** What may be evicted after one more frame. *)
Lemma eligible_step pd ws b s s2 pre a :
  passed_one pd ws b s s2 → frames_there s [a] → eligible s2 pd pre a = eligible s pd (b :: pre) a.
Proof.
  intros [P1 P2 P3 P4 P5] Ht. destruct (Ht a) as (e & Ea & Hu); [left|]. unfold eligible. rewrite P2. cbn [ftes set_clock]. rewrite Ea, P4 by done.
  cbn [existsb]. rewrite negb_orb, andb_assoc. do 4 f_equal. unfold clears. by rewrite P2.
Qed.

Lemma none_eligible_step pd ws b s s2 l :
  passed_one pd ws b s s2 → frames_there s l → eligible s pd [] b = false → none_eligible s2 pd l → none_eligible s pd (b :: l).
Proof.
  intros HP Ht Hb Hl [|x l1] c l2 E; injection E as <- E; [done|]. rewrite <- (eligible_step pd ws b s s2 l1 c HP); [by apply (Hl l1 c l2)|].
  intros a Ha. apply list_elem_of_singleton in Ha as ->. apply Ht. rewrite E. apply elem_of_app. right. left.
Qed.

Lemma frames_there_kept s s2 l : ftes (fr s2) = ftes (fr s) → frames_there s l → frames_there s2 l.
Proof. intros E. unfold frames_there. by rewrite E. Qed.

Lemma none_eligible_nil s pd : none_eligible s pd [].
Proof. by intros [|]. Qed.

(** The loop examines the frames after the hand in order. *)
Lemma evict_loop_run pd ws rest : ∀ passed s k,
  pd_ok (mm s) pd ws → frame_list (fr s) = passed ++ rest → passed ++ rest ≠ [] → NoDup (passed ++ rest) →
  clock_ptr (fr s) = hand_after passed → frames_there s rest → (length rest < k)%nat →
  (∃ pre a post s', rest = pre ++ a :: post ∧ eligible s pd pre a = true ∧ none_eligible s pd pre ∧
     evict_loop k pd s = Ok (a, s') ∧ second_chance pd ws pre (At a) s s') ∨
  (none_eligible s pd rest ∧ evict_loop k pd s = Fail Undef).
Proof.
  induction rest as [|b rest IH]; intros passed s k Hpd Hl Hne Hnd Hc Hok Hk; (destruct k as [|k]; [simpl in Hk; lia|]);
    cbn [evict_loop]; rewrite (bind_ok _ _ _ _ _ (clock_next_run s _ _ Hl ltac:(by rewrite Hl) Hnd Hc)); [right; split; [apply none_eligible_nil|done]|].
  destruct (Hok b) as (e & Ee & Hu); [left|]. set (s1 := set_fr _ s).
  unfold get_fte. rewrite (bind_ok _ _ _ e s1) by (simpl; by rewrite Ee).
  assert (Happ : passed ++ b :: rest = (passed ++ [b]) ++ rest) by by rewrite <- app_assoc.
  assert (Hrest : frames_there s rest) by (intros a Ha; apply Hok; by right).
  assert (Hstep : ∀ s2, passed_one pd ws b s s2 → eligible s pd [] b = false →
    (∃ pre a post s', b :: rest = pre ++ a :: post ∧ eligible s pd pre a = true ∧ none_eligible s pd pre ∧
       evict_loop k pd s2 = Ok (a, s') ∧ second_chance pd ws pre (At a) s s') ∨
    (none_eligible s pd (b :: rest) ∧ evict_loop k pd s2 = Fail Undef)).
  { intros s2 HP Hel. destruct (IH (passed ++ [b]) s2 k) as [(pre & a & post & s' & -> & H1 & H2 & H3 & H4)|[H1 H2]].
    - apply HP.
    - rewrite (p1_fr _ _ _ _ _ HP). cbn [frame_list set_clock]. by rewrite Hl.
    - by destruct passed.
    - by rewrite <- Happ.
    - rewrite (p1_fr _ _ _ _ _ HP). unfold hand_after. by rewrite last_snoc.
    - eapply frames_there_kept; [|done]. by rewrite (p1_fr _ _ _ _ _ HP).
    - simpl in Hk. lia.
    - left. exists (b :: pre), a, post, s'. split_and!; [done| | |done|by eapply second_chance_step].
      + rewrite <- (eligible_step pd ws b s s2); [done..|]. intros x Hx. apply list_elem_of_singleton in Hx as ->. apply Hrest, elem_of_app. right. left.
      + apply (none_eligible_step pd ws b s s2); try done. intros x Hx. apply Hrest, elem_of_app. by left.
    - right. split; [|done]. by apply (none_eligible_step pd ws b s s2). }
  destruct (pinned e) eqn:Epin.
  - apply Hstep; [|unfold eligible; by rewrite Ee, Epin]. split; try done. intros va _. unfold clears. by rewrite Ee, Epin, andb_true_r.
  - rewrite (bind_ok _ _ _ _ _ (in_mm_ok _ s1 _ _ (test_run (mm s1) pd ws (f_upage e) PTE_A Hpd Hu))).
    change (flag (entry_of (ram (pal (mm s1))) pd (f_upage e)) PTE_A) with (accessed (mm s) pd (f_upage e)).
    destruct (accessed (mm s) pd (f_upage e)) eqn:Eacc.
    + destruct (put_accessed (mm s) pd ws (f_upage e) Hpd Hu) as (m2 & E2 & H2 & Ha2 & Ht2).
      rewrite (bind_ok _ _ _ tt (set_mm m2 s1)) by exact (in_mm_ok (pagedir_set_accessed pd (f_upage e) false) (set_mm (mm s1) s1) tt m2 E2).
      apply Hstep; [|unfold eligible; by rewrite Ee, Epin, Eacc]. split; try done. intros va Hva. unfold clears. rewrite Ee, Epin. by apply Ha2.
    + left. exists [], b, rest, (set_mm (mm s1) s1). split_and!; [done|unfold eligible; by rewrite Ee, Epin, Eacc|apply none_eligible_nil|done|].
      by apply second_chance_refl.
Qed.

(** C36: [pick_frame_to_evict] examines the frames of the list that come after the clock
    hand, in order, and returns the first one that is not pinned and whose accessed bit is
    then clear, leaving the hand on it; passing over an unpinned frame clears the bit of its
    page, and no translation changes.  The bits are those of the running process's page
    directory for all frames, also of other processes: a frame whose user page is that of an
    unpinned frame passed before therefore counts as not accessed.  When no frame after the
    hand qualifies when its turn comes, the hand moves on to the list's tail, which is no
    frame at all, and the run is undefined, even if frames before the hand qualify. *)
Theorem pick_frame_to_evict_correct s pd ws passed rest :
  pd_ok (mm s) pd ws → frame_list (fr s) = passed ++ rest → NoDup (passed ++ rest) → clock_ptr (fr s) = hand_after passed →
  frames_there s rest → hash_size (frame_map (fr s)) = Z.of_nat (length (passed ++ rest)) →
  0 < Z.of_nat (length (passed ++ rest)) < 2 ^ 30 →
  (∃ pre a post s', rest = pre ++ a :: post ∧ eligible s pd pre a = true ∧ none_eligible s pd pre ∧
     pick_frame_to_evict pd s = Ok (a, s') ∧ second_chance pd ws pre (At a) s s') ∨
  (none_eligible s pd rest ∧ pick_frame_to_evict pd s = Fail Undef).
Proof.
  intros Hpd Hl Hnd Hc Hok Hn Hr. unfold pick_frame_to_evict, gets. erewrite bind_ok by reflexivity.
  rewrite Hn, s32_id by int_lia. rewrite (proj2 (Z.eqb_neq _ 0)) by lia.
  apply (evict_loop_run pd ws rest passed); try done.
  - intros E. rewrite E in Hr. simpl in Hr. lia.
  - rewrite length_app. lia.
Qed.

(** Three frames, the first one pinned, the other two of two processes for the same page. *)
Definition sample_ftes : gmap Z frame_table_entry :=
  <[100 := mk_fte 4096 4096 1 true]> (<[200 := mk_fte 8192 8192 1 false]> {[300 := mk_fte 12288 8192 2 false]}).
Definition sample_frames_vm : vmem := set_fr (mk_frames true sample_table [100; 200; 300] NoHand sample_ftes) sample_vm.

Lemma sample_frames_there : frames_there sample_frames_vm [100; 200; 300].
Proof.
  intros a Ha. repeat (apply elem_of_cons in Ha as [->|Ha]); [..|by apply elem_of_nil in Ha]; (eexists; split; [vm_compute; reflexivity|by split]).
Qed.

Lemma pick_frame_to_evict_correct_witness :
  ∃ s', pick_frame_to_evict sample_pd sample_frames_vm = Ok (200, s') ∧ clock_ptr (fr s') = At 200.
Proof.
  destruct (pick_frame_to_evict_correct sample_frames_vm sample_pd sample_dir [] [100; 200; 300])
    as [(pre & a & post & s' & Hr & He & Hpre & E & HS)|[Hall _]].
  - exact sample_vm_pd_ok.
  - reflexivity.
  - apply (bool_decide_unpack _). reflexivity.
  - reflexivity.
  - exact sample_frames_there.
  - vm_compute. reflexivity.
  - simpl. lia.
  - assert (a = 200) as ->.
    { vm_compute in E. congruence. }
    exists s'. split; [exact E|]. by rewrite (sc_fr _ _ _ _ _ _ HS).
  - exfalso. pose proof (Hall [100] 200 [300] eq_refl) as H200. vm_compute in H200. discriminate.
Defined.

(** ** A machine whose memory is full

    Two frames of user memory and three pages that are still to be loaded.  [script] is
    what [malloc] returns for the frame table entries. *)

Definition zero_spte (up : Z) : spte := mk_spte up NULL ALL_ZERO false 0 NULL 0 0 0 true.
Definition full_vm (script : list Z) : vmem :=
  mk_vm (mk_mmu (mk_palloc (mk_pool (mk_bitmap 4 [3]) sample_pd) (mk_pool (mk_bitmap 2 [0]) sample_user) sample_ram)
           (sample_pd - PHYS_BASE) ∅ (PHYS_BASE + 4096) 1024)
    sample_fs (mk_swaps ∅ 20 (mk_bitmap 2 [3]) 2)
    (mk_frames false (hash_init true).2 [] NoHand ∅)
    (mk_pts {[50 := sample_table]} (<[100 := zero_spte 4096]> (<[200 := zero_spte 8192]> {[300 := zero_spte 12288]})))
    {[1 := (sample_pd, 50)]} 1 script true sample_spte.

(** Loads two pages, writes to the first one, and loads the third, for which the first
    must be evicted. *)
Definition fill_memory : X bool :=
  load_page 50 sample_pd 4096 ;;;
  load_page 50 sample_pd 8192 ;;;
  modify (λ s, set_page_ram (<[sample_user := replicate 1024 77]> (page_ram s)) s) ;;;
  load_page 50 sample_pd 12288.

(** Whether the first page is in swap slot 0 with its contents. *)
Definition first_page_saved (s : vmem) : bool :=
  match sptes (pt s) !! 100 with
  | Some e => bool_decide (status e = ON_SWAP ∧ swap_index e = 0)
  | None => false
  end && forallb (λ i, bool_decide (sw_sectors (sw s) !! i = Some (replicate 128 77))) (seqZ 0 8).

Definition saved_then (script : list Z) (next : res (bool * vmem) → bool) : bool :=
  match fill_memory (full_vm script) with
  | Ok (true, s) => first_page_saved s && next (load_page 50 sample_pd 4096 s)
  | _ => false
  end.

Definition is_undef {A} (r : res A) : bool := match r with Fail Undef => true | _ => false end.

(** The eviction saves the page; but the next one is undefined: when [malloc] does not
    hand out the freed entry again the clock hand dangles, and when it does, the hand is
    on the last entry of the list and moves to its tail. *)
Example second_eviction_undefined :
  saved_then [900; 901; 902; 903] is_undef = true ∧ saved_then [900; 901; 900; 903] is_undef = true.
Proof. vm_compute. done. Qed.

(** A page in swap, a free frame, but no kernel page for the page table it needs. *)
Definition no_table_vm : vmem :=
  set_mm (mk_mmu (mk_palloc (mk_pool (mk_bitmap 4 [15]) sample_pd) (mk_pool (mk_bitmap 4 [5]) sample_user) sample_ram)
           (sample_pd - PHYS_BASE) ∅ (PHYS_BASE + 4096) 1024) sample_vm.

(** [load_page] fails, but it has already released the swap slot of the page, and the
    entry still says that the page is there: its contents are lost and the next access
    panics. *)
Example failed_load_loses_page :
  match load_page 50 sample_pd 8192 no_table_vm with
  | Ok (false, s) => slot_free (sw s) 0 = true ∧ sptes (pt s) !! 200 = Some sample_spte ∧
      load_page 50 sample_pd 8192 (set_allocs [901] s) = Fail Panicked
  | _ => False
  end.
Proof. vm_compute. done. Qed.
